(* ===== verification/_CoqProject ===== *)
-Q . S2P
Prelude.v
Returns.v
HeapQ.v
PyFloat.v
Allocator.v
AllocatorFacts.v
Request.v
ReqPool.v
LLM42Info.v
Demo.v
InfoFacts.v
World.v
MemCommon.v
CacheLaws.v
Radix.v
RadixTree.v
RadixState.v
RadixFacts.v
RadixOps.v
RadixLocks.v
RadixEvict.v
RadixReqs.v
RadixHold.v
RadixClaims.v
Policy.v
QueueOrder.v
BatchOps.v
LLM42Worker.v
Verifier.v
WorkerFacts.v
VerifyPool.v
WorkerClaims.v
QueueFacts.v
QueueClaims.v
BatchFacts.v
Scheduler.v
OutputProcessor.v
OutputFacts.v
Detokenizer.v
TokenizerManager.v
Responses.v
DetokFacts.v
DetokBatch.v
DetokStream.v
DecodeFacts.v
DecodeStep.v
DecodePass.v
PrefillPass.v
DecodeClaims.v
PrepareFacts.v
ExtendFacts.v
RetractFacts.v
EventLoop.v
Prefill.v
LoopFacts.v
Serving.v
Drain.v
MergeFacts.v
Admission.v
ServingClaims.v
DetokClaims.v
AdmissionClaims.v
BatchClaims.v
PrefillFacts.v
RadixQuiet.v
BudgetFacts.v
PrefillClaims.v
