(* ===== verification/Prelude.v ===== *)
(** * LLM-42: decode, verify, roll back

    A model and its proofs for the deterministic-inference protocol of
    LLM-42 and the part of the SGLang runtime that carries it.  All source
    paths are relative to src/python/sglang/srt/.

    ** The program

    A server decodes many requests in one batch with fast kernels, whose
    results depend on the shape of the batch.  A request may ask for
    deterministic output.  Its tokens are then speculative until a verifier,
    which replays a window of them in a batch of a fixed shape, has confirmed
    them; at the first difference the tokens behind it are taken back, the
    verifier's token is put in place and the KV-cache slots of the discarded
    tokens are freed.  The client of a deterministic request sees verified
    tokens only.  The first token comes from the prefill, which for a
    deterministic request runs in a batch of its own.

    Parts, from the bottom up, and the files that model them:

    - KV slots: mem_cache/allocator.py (token and paged allocators, their
      Triton kernels, free groups) is [Allocator]; the rows of
      mem_cache/memory_pool.py are [ReqPool].
    - requests: [Req] of managers/schedule_batch.py with its finish checks
      and length bookkeeping is [Request].
    - one verification batch: llm42/llm42_info.py is [LLM42Info] (modules
      [Info] for the metadata, [Verify] for the batch, the comparison and the
      rollback).
    - the shared state: [World] has the heap of requests, which are shared
      objects named by numbers, the allocator, the rows, the prefix cache and
      the batch at hand, and the interface of prefix caches
      (mem_cache/base_prefix_cache.py) as the class [PrefixCache].
      [MemCommon] has mem_cache/common.py and the instance ChunkCache
      (mem_cache/chunk_cache.py); [CacheLaws] states what the rest relies on.
    - the radix cache: mem_cache/radix_cache.py with
      mem_cache/evict_policy.py is [Radix], another instance of the
      interface; [HeapQ] is CPython's heapq, which eviction uses.  Nodes live
      in a store and point to each other by number.
    - the batch: the operations of [ScheduleBatch]
      (managers/schedule_batch.py) and of its sampling tensors
      (sampling/sampling_batch_info.py) are [BatchOps].
    - the verification worker: llm42/llm42_worker.py is [LLM42Worker]
      (modules [VPool] for the pool of dummies, [Worker] for the selection of
      requests, the passes and the synchronisation of the batch).
    - results: managers/scheduler_output_processor_mixin.py is
      [OutputProcessor] (modules [Logprobs], [Stream], [Output]); the
      scheduler's state and abort_request are [Scheduler].
    - text: managers/detokenizer_manager.py with find_printable_text of
      sglang/utils.py is [Detokenizer], a process of its own between the
      scheduler and the tokenizer manager.
    - responses: of managers/tokenizer_manager.py, [TokenizerManager] has
      what answers clients: the states of requests, the handlers of outputs
      and aborts, and the waiting task of a request.  [serve] interleaves
      them on one event loop.
    - admission: managers/schedule_policy.py is [Policy] (module [Adder] for
      PrefillAdder); the orders of the queue that look at the radix cache are
      [QueueOrder].
    - the loop: of managers/scheduler.py, [EventLoop] has the queue,
      update_running_batch, run_batch and process_batch_result, [Prefill] the
      choice of prefill batches and the whole iteration.

    Python code becomes functions in a monad of state and exceptions ([M]);
    an exception keeps the state reached.  Integers are Z (int32 entries of
    the row table are wrapped), floats are binary64 values computed with
    SpecFloat, mixed integer and float arithmetic is [num] in [PyFloat].
    Slices, indexing and min/max follow Python.  Records are updated with
    [r <| field := v |>].

    Parameters: the tokenizer, regular expressions and grammars ([Externals]),
    the verification pass of the model ([Model]) and the decode and prefill
    pass (the argument forward_batch_generation of the loop), the clock, the
    order in which Python lists a set and SHA-256 ([Runtime]), the order of a
    dict ([DictOrder]), which are arbitrary functions (the list of a set or a
    dict has its elements), and the tokenizer's decoding ([TextTokenizer]).
    Four hypotheses are made about them.  [fixed_shape_determinism] in [Verifier]: under the
    fixed shape the verifier's token is a function [V] of the sampling
    parameters and the tokens before it; [Toy] in [WorkerClaims] is a model
    that satisfies it.  [prefill_determinism] in [Admission]: a deterministic
    request that is prefilled alone gets the same [V] of its prompt;
    [DemoStart] in [AdmissionClaims] satisfies it.  [batch_decodes] in
    [DetokBatch]: a batch is decoded element by element.  [incremental] in
    [DetokFacts]: text that is complete stays as it is when tokens follow,
    and incomplete text changes only in the replacement characters at its
    end; [DemoText] in [DetokClaims] is a byte-level tokenizer that satisfies
    both.  Decode may propose anything.

    ** What is proved

    - [AllocatorFacts]: invariant of the allocators, fresh and disjoint
      slots, round trips, free groups, and the equivalence of the kernels
      with the sequential definition.
    - [InfoFacts]: shape and contents of a verification batch, and that the
      comparison commits exactly the verifier's tokens.  [Verifier],
      [WorkerFacts], [WorkerClaims]: one verification step leaves every
      request with the reference generation of its prompt as its verified
      outputs.  [VerifyPool]: the pool of dummies.
    - [OutputFacts], [DecodeFacts], [DecodeStep], [DecodePass],
      [DecodeClaims]: one decode pass in phases; streams, bookkeeping and
      slots.
    - [RadixTree], [RadixState], [RadixFacts]: the invariant [radix_ok] of
      the radix cache.  A ghost map gives every node the tokens and slots on
      its way from the root, [cached] is the abstract map from token
      sequences to slots they spell, and the handles are the nodes users
      hold.  [RadixOps], [RadixLocks], [RadixEvict]: lookups, insertions,
      locks and evictions in terms of these.  [RadixReqs], [RadixHold]: the
      requests as holders, the instance of [CacheLaws], and the slots of
      finished and unfinished requests.  [RadixClaims]: the theorems, and runs
      of the cache as a step relation.  [RadixQuiet]: the theorems on prefill
      batches hold with the radix cache.  [QueueFacts], [QueueClaims]: the
      cache-aware orders are permutations, sorted by the longest cached
      prefix or depth first by the number of waiting requests.
    - [BatchFacts], [PrepareFacts], [RetractFacts], [BatchClaims]: a batch as
      a list of entries, on which filter and merge are those of lists; the
      preparation of a pass and the retraction of requests.
    - [LoopFacts], [Serving], [ServingClaims]: the invariant [serving] of a
      decoding server and its consequences for any stretch of decode passes:
      streams are prefixes of the reference generation, and no slot is lost.
      [Drain]: whole iterations of the event loop on a server whose queue is
      empty and whose memory holds its running requests at their full
      length; it finishes all of them.
    - [PrefillPass], [ExtendFacts], [MergeFacts], [Admission],
      [AdmissionClaims]: the way of a chosen request into the running batch:
      rows and slots from prepare_for_extend, the results of the prefill
      pass, and merge_last_batch.  The invariant [serving] holds again, so
      that the theorems on the loop apply to new requests.
    - [DetokFacts]: one request in the detokenizer.  [in_stream] relates its
      status to the text of all its tokens; the pieces add up to that text.
      [DetokBatch]: the handler of a message treats every row by the status
      of its request, in groups or one by one.  [Responses]: the invariant of
      the tokenizer manager's states under any interleaving.  [DetokStream]:
      the rows [stream_output] makes are rows as the detokenizer expects
      them, and the composition of the three.  [DetokClaims]: the theorems.
      They exclude rows that leave half a character right behind a CJK
      character, verification beyond the position of a finish that was rolled
      back, and tokens given in pieces to streaming clients: on these the
      code fails, as theorems of kind error show; and aborts.
    - [Returns]: rules for partial correctness; with them [PrefillFacts],
      [BudgetFacts] and [PrefillClaims]: isolation of deterministic prefills,
      conservation of the queue, bounds of a prefill batch.
    - theorems of kind error: conditions under which the code does not do
      what it is meant to (a window that is too long, a mismatch on its last
      token, an abort before a rollback, a finish that was rolled back, text
      behind a CJK character, outputs that a client reads late).  Single runs
      that show more of this are examples: mixed chunks and retracted requests
      in [PrefillClaims], a pool that does not fit in [VerifyPool], an evicted
      status and an aborted request in [DetokClaims].

    [Demo], [DemoSys], [DemoSched], [DemoServe], [DemoStart], [DemoPrefill],
    [DemoRadix], [DemoQueue] and [DemoText] are small concrete servers and caches on which the theorems are applied.

    ** Fuel and bounds

    Recursion is structural but for these loops.  [Worker.group] and
    [Worker.chunks] get the number of requests as fuel, every pass takes at
    least one ([passes_have_fixed_size]); [BatchOps.retract_loop] gets the
    number of requests plus one, every iteration takes one
    ([retract_decode_makes_room]).  [EventLoop.decode_loop] and
    [Prefill.event_loop] run a given number of iterations;
    [event_loop_finishes] says how many are enough.
    In [Radix], [match_loop] and [insert_loop] get the length of the key plus
    one, every iteration but the last takes a page of it; [inc_loop],
    [dec_loop] and [evict_loop] get the number of nodes plus one, the walk to
    the root passes a node once and every eviction deletes one
    ([runs_keep_cache_in_order]: after any run every call on keys of whole
    pages and on nodes that are there succeeds).  The same bound is
    enough for the descent of [QueueOrder] ([dfs_weight_is_depth_first]).

    ** What is not modelled

    The numerics (models, layers, kernels), CUDA graphs, processes and
    sockets, tokenization and validation of prompts, HTTP, sessions; metrics,
    traces and log messages; overlap scheduling, speculative decoding, pipeline and data
    parallelism, disaggregation, hierarchical, sliding-window and Mamba
    caches, LoRA, multimodal and diffusion models, priorities and preemption,
    top and selected-token log-probabilities, penalties, hidden states.  The
    radix cache is modelled without EAGLE's bigram keys and host memory; its
    theorems are about an enabled cache with events off, and those on
    requests assume that no free group is open where the code frees a view of
    a row that it overwrites next.  The loop takes the queue in the orders
    without the cache; random and routing-key orders are not modelled.
    The theorems on decoding hold for every cache that satisfies [CacheLaws],
    those on the slots of the whole loop are stated for ChunkCache.  Inside LLM42Info the requests
    of a batch are passed by value and written back at the end, so that an
    exception in the middle of a comparison loses updates the code would
    have kept. *)

From stdpp Require Export base tactics list list_numbers gmap strings sorting.
From Stdlib Require Export ZArith Lia.

#[export] Set Default Goal Selector "!".
Global Open Scope Z_scope.

(** ** Python exceptions and results *)

Inductive exn : Type :=
| IndexError
| ValueError
| RuntimeError
| AssertionError
| TypeError
| NotImplementedError
| AttributeError
| OverflowError
| ZeroDivisionError
| UnboundLocalError
| KeyError
| HTTPException.

#[export] Instance exn_eq_dec : EqDecision exn.
Proof. solve_decision. Defined.

Inductive res (A : Type) : Type :=
| Ok (a : A)
| Raise (e : exn).
Arguments Ok {A} a.
Arguments Raise {A} e.

#[export] Instance res_ret : MRet res := λ A a, Ok a.
#[export] Instance res_bind : MBind res := λ A B k m,
  match m with Ok a => k a | Raise e => Raise e end.

Definition is_ok {A} (r : res A) : bool :=
  match r with Ok _ => true | Raise _ => false end.

Definition of_option {A} (e : exn) (o : option A) : res A :=
  match o with Some a => Ok a | None => Raise e end.

(** ** Stateful code: a state survives the exception that leaves a call,
    as it does in Python. *)

Definition M (S A : Type) : Type := S → res A * S.

#[export] Instance M_ret S : MRet (M S) := λ A a s, (Ok a, s).
#[export] Instance M_bind S : MBind (M S) := λ A B k m s,
  match m s with
  | (Ok a, s') => k a s'
  | (Raise e, s') => (Raise e, s')
  end.

Definition throw {S A} (e : exn) : M S A := λ s, (Raise e, s).
Definition get {S} : M S S := λ s, (Ok s, s).
Definition put {S} (s : S) : M S unit := λ _, (Ok tt, s).
Definition modify {S} (f : S → S) : M S unit := λ s, (Ok tt, f s).
Definition gets {S A} (f : S → A) : M S A := λ s, (Ok (f s), s).
Definition lift {S A} (r : res A) : M S A := λ s, (r, s).
Definition assert_ {S} (b : bool) : M S unit :=
  λ s, (if b then Ok tt else Raise AssertionError, s).

Lemma bind_ok {S A B} (m : M S A) (k : A → M S B) s a s' :
  m s = (Ok a, s') → (m ≫= k) s = k a s'.
Proof. intros E. unfold mbind, M_bind. by rewrite E. Qed.

Lemma bind_raise {S A B} (m : M S A) (k : A → M S B) s e s' :
  m s = (Raise e, s') → (m ≫= k) s = (Raise e, s').
Proof. intros E. unfold mbind, M_bind. by rewrite E. Qed.

(** [step E] runs the first call of a block, whose result [E] gives. *)
Ltac step E := rewrite (bind_ok _ _ _ _ _ E); cbv beta iota zeta.

(** [for x in xs: body x] *)
Fixpoint for_ {S A} (xs : list A) (body : A → M S unit) : M S unit :=
  match xs with
  | [] => mret tt
  | x :: xs' => λ s,
      match body x s with
      | (Ok _, s') => for_ xs' body s'
      | (Raise e, s') => (Raise e, s')
      end
  end.

(** The same loop with locals carried from one iteration to the next. *)
Fixpoint foldM {S A B} (f : B → A → M S B) (b : B) (xs : list A) : M S B :=
  match xs with
  | [] => mret b
  | x :: xs' => λ s,
      match f b x s with
      | (Ok b', s') => foldM f b' xs' s'
      | (Raise e, s') => (Raise e, s')
      end
  end.

Fixpoint foldR {A B} (f : B → A → res B) (b : B) (xs : list A) : res B :=
  match xs with
  | [] => Ok b
  | x :: xs' => match f b x with Ok b' => foldR f b' xs' | Raise e => Raise e end
  end.

(** ** Functional record update *)

Class Eta (R : Type) := eta_of : R → R.
Class Setter {R T : Type} (proj : R → T) := upd : (T → T) → R → R.
Arguments upd {R T} proj {_} f r : simpl never.

Ltac derive_setter :=
  match goal with
  | |- @Setter ?R ?T ?proj =>
      let f := fresh "f" in let r := fresh "r" in
      unfold Setter; intros f r;
      let t := eval hnf in (@eta_of R _ r) in
      let p := eval pattern (proj r) in t in
      match p with
      | ?g _ => let b := eval cbv beta in (g (f (proj r))) in exact b
      end
  end.

Declare Scope record_scope.
Delimit Scope record_scope with record.
Notation "r <| p := v |>" := (upd p (λ _, v) r)
  (at level 1, left associativity, p at level 9, v at level 200) : record_scope.
Notation "r <| p ::= f |>" := (upd p f r)
  (at level 1, left associativity, p at level 9, f at level 200) : record_scope.
Global Open Scope record_scope.

(** [rsimpl] reads a field of an updated record.  The equation is proved
    for an arbitrary record, so that no update is ever unfolded twice. *)
Ltac rsimpl_at p R T q i f r :=
  let E := fresh "E" in
  let z := fresh "z" in
  (tryif constr_eq p q
   then assert (E : ∀ g x, p (@upd R T q i g x) = g (p x)) by (intros; reflexivity)
   else assert (E : ∀ g x, p (@upd R T q i g x) = p x) by (intros; reflexivity));
  specialize (E f r); cbv beta in E;
  set (z := p (@upd R T q i f r)) in *; clearbody z; subst z.
(** A projection: a constant, or one applied to the record's parameter. *)
Ltac is_field p :=
  match p with
  | _ => is_const p
  | ?h ?c => is_const h; match type of c with Type => idtac | Set => idtac end
  end.
Ltac rsimpl_one :=
  match goal with
  | |- context [?p (@upd ?R ?T ?q ?i ?f ?r)] => is_field p; rsimpl_at p R T q i f r
  | H : context [?p (@upd ?R ?T ?q ?i ?f ?r)] |- _ => is_field p; rsimpl_at p R T q i f r
  end.
Ltac rsimpl := repeat rsimpl_one.

(** ** Python lists and one-dimensional tensors *)

Abbreviation tok := Z (only parsing).

Definition len {A} (xs : list A) : Z := Z.of_nat (length xs).

(** A slice bound [i] of a sequence of length [n], after Python's
    adjustment of negative and out-of-range values. *)
Definition adj (n i : Z) : Z :=
  if i <? 0 then Z.max 0 (i + n) else Z.min i n.

(** [xs[:i]], [xs[i:]] and [xs[i:j]] *)
Definition slice_to {A} (xs : list A) (i : Z) : list A :=
  take (Z.to_nat (adj (len xs) i)) xs.
Definition slice_from {A} (xs : list A) (i : Z) : list A :=
  drop (Z.to_nat (adj (len xs) i)) xs.
Definition slice {A} (xs : list A) (i j : Z) : list A :=
  take (Z.to_nat (adj (len xs) j) - Z.to_nat (adj (len xs) i))
       (drop (Z.to_nat (adj (len xs) i)) xs).

(** [xs[i]] and [xs[i] = v] *)
Definition getitem {A} (xs : list A) (i : Z) : res A :=
  let k := if i <? 0 then i + len xs else i in
  if k <? 0 then Raise IndexError
  else of_option IndexError (xs !! Z.to_nat k).
Definition setitem {A} (xs : list A) (i : Z) (v : A) : res (list A) :=
  let k := if i <? 0 then i + len xs else i in
  if (k <? 0) || (len xs <=? k) then Raise IndexError
  else Ok (<[Z.to_nat k := v]> xs).

(** [[x] * n] *)
Definition times {A} (x : A) (n : Z) : list A := replicate (Z.to_nat n) x.

(** [range(a, b)] *)
Definition range (a b : Z) : list Z := seqZ a (b - a).

(** [enumerate(xs)] *)
Definition enumerate {A} (xs : list A) : list (Z * A) :=
  zip (range 0 (len xs)) xs.

(** [sum(xs)] *)
Definition zsum (xs : list Z) : Z := foldr Z.add 0 xs.

(** [torch.cumsum(xs, 0)] *)
Fixpoint cumsum_from (acc : Z) (xs : list Z) : list Z :=
  match xs with
  | [] => []
  | x :: xs' => (acc + x) :: cumsum_from (acc + x) xs'
  end.
Definition cumsum (xs : list Z) : list Z := cumsum_from 0 xs.

(** [[xs[j] for j in range(len(mask)) if mask[j]]] *)
Fixpoint select {A} (mask : list bool) (xs : list A) : list A :=
  match mask, xs with
  | b :: mask', x :: xs' => if b then x :: select mask' xs' else select mask' xs'
  | _, _ => []
  end.

(** [torch.repeat_interleave(xs, counts)]: torch refuses tensors of
    different lengths. *)
Definition repeat_interleave {A} (xs : list A) (counts : list Z) : res (list A) :=
  if decide (length xs = length counts)
  then Ok (concat (zip_with times xs counts))
  else Raise RuntimeError.

(** The distinct elements in increasing order, [torch.unique]. *)
Fixpoint insert_sorted (x : Z) (xs : list Z) : list Z :=
  match xs with
  | [] => [x]
  | y :: ys => if x <? y then x :: y :: ys
               else if x =? y then y :: ys else y :: insert_sorted x ys
  end.
Definition unique (xs : list Z) : list Z := foldr insert_sorted [] xs.

(** [torch.sort(xs)] *)
Definition tsort (xs : list Z) : list Z := merge_sort Z.le xs.

(** A value stored in an int32 tensor. *)
Definition to_int32 (z : Z) : Z := (z + 2 ^ 31) mod 2 ^ 32 - 2 ^ 31.

(** ** Lemmas on lists, shared by the components *)

Lemma len_nonneg {A} (xs : list A) : 0 ≤ len xs.
Proof. unfold len. lia. Qed.

Lemma len_nil {A} : len (@nil A) = 0.
Proof. done. Qed.

Lemma len_cons {A} (x : A) xs : len (x :: xs) = 1 + len xs.
Proof. unfold len. cbn [length]. lia. Qed.

Lemma len_app {A} (xs ys : list A) : len (xs ++ ys) = len xs + len ys.
Proof. unfold len. rewrite length_app. lia. Qed.

Lemma len_times {A} (x : A) n : len (times x n) = Z.max 0 n.
Proof. unfold len, times. rewrite length_replicate. lia. Qed.

Lemma len_fmap {A B} (f : A → B) xs : len (f <$> xs) = len xs.
Proof. unfold len. by rewrite length_fmap. Qed.

Lemma len_take {A} n (xs : list A) : len (take n xs) = Z.min (Z.of_nat n) (len xs).
Proof. unfold len. rewrite length_take. lia. Qed.

Lemma len_drop {A} n (xs : list A) : len (drop n xs) = Z.max 0 (len xs - Z.of_nat n).
Proof. unfold len. rewrite length_drop. lia. Qed.

Lemma len_zero {A} (xs : list A) : len xs = 0 → xs = [].
Proof. destruct xs; [done|rewrite len_cons; pose proof (len_nonneg xs); lia]. Qed.

Lemma adj_bounds n i : 0 ≤ n → 0 ≤ adj n i ≤ n.
Proof. unfold adj. destruct (Z.ltb_spec i 0); lia. Qed.

Lemma adj_in n i : 0 ≤ i ≤ n → adj n i = i.
Proof. unfold adj. destruct (Z.ltb_spec i 0); lia. Qed.

Lemma adj_over n i : 0 ≤ n ≤ i → adj n i = n.
Proof. unfold adj. destruct (Z.ltb_spec i 0); lia. Qed.

Lemma adj_neg n i : 0 < i ≤ n → adj n (- i) = n - i.
Proof. unfold adj. destruct (Z.ltb_spec (- i) 0); lia. Qed.

Lemma slice_to_take {A} (xs : list A) i :
  0 ≤ i → slice_to xs i = take (Z.to_nat i) xs.
Proof.
  intros Hi. unfold slice_to, adj. destruct (Z.ltb_spec i 0); [lia|].
  destruct (Z.le_gt_cases i (len xs)) as [?|?].
  - by rewrite Z.min_l.
  - rewrite Z.min_r by lia. unfold len in *. rewrite Nat2Z.id, firstn_all.
    rewrite take_ge; [done|lia].
Qed.

Lemma slice_from_drop {A} (xs : list A) i :
  0 ≤ i → slice_from xs i = drop (Z.to_nat i) xs.
Proof.
  intros Hi. unfold slice_from, adj. destruct (Z.ltb_spec i 0); [lia|].
  destruct (Z.le_gt_cases i (len xs)) as [?|?].
  - by rewrite Z.min_l.
  - rewrite Z.min_r by lia. unfold len in *. rewrite Nat2Z.id, !drop_ge; [done|lia..].
Qed.

(** [xs[:-k]] drops the last [k] elements. *)
Lemma slice_to_neg {A} (xs : list A) k :
  0 < k → slice_to xs (- k) = take (length xs - Z.to_nat k) xs.
Proof.
  intros Hk. unfold slice_to, adj. destruct (Z.ltb_spec (- k) 0); [|lia].
  f_equal. unfold len. lia.
Qed.

Lemma slice_to_last {A} (xs : list A) : slice_to xs (-1) = take (length xs - 1) xs.
Proof. apply (slice_to_neg xs 1). lia. Qed.

Lemma slice_nonneg {A} (xs : list A) i j :
  0 ≤ i → 0 ≤ j →
  slice xs i j = take (Z.to_nat j - Z.to_nat i) (drop (Z.to_nat i) xs).
Proof.
  intros Hi Hj. unfold slice, adj.
  destruct (Z.ltb_spec i 0), (Z.ltb_spec j 0); [lia..|].
  assert (H2 : drop (Z.to_nat (Z.min i (len xs))) xs = drop (Z.to_nat i) xs).
  { pose proof (slice_from_drop xs i Hi) as E. unfold slice_from, adj in E.
    destruct (Z.ltb_spec i 0); [lia|done]. }
  rewrite H2. unfold len.
  destruct (Z.le_gt_cases i (Z.of_nat (length xs))) as [?|?].
  - rewrite (Z.min_l i) by lia.
    destruct (Z.le_gt_cases j (Z.of_nat (length xs))) as [?|?].
    { by rewrite Z.min_l. }
    rewrite Z.min_r by lia. rewrite !take_ge; [done|rewrite length_drop; lia..].
  - rewrite (drop_ge xs) by lia. by rewrite !take_nil.
Qed.

Lemma slice_app {A} (xs ys zs : list A) i j :
  i = len xs → j = len xs + len ys → slice (xs ++ ys ++ zs) i j = ys.
Proof.
  intros -> ->. pose proof (len_nonneg xs). pose proof (len_nonneg ys).
  rewrite slice_nonneg by lia. unfold len.
  rewrite Z2Nat.inj_add, !Nat2Z.id by lia.
  rewrite drop_app_length. replace (_ + _ - _)%nat with (length ys) by lia.
  by rewrite take_app_length.
Qed.

Lemma len_slice_from {A} (xs : list A) i :
  0 ≤ i ≤ len xs → len (slice_from xs i) = len xs - i.
Proof. intros. rewrite slice_from_drop, len_drop by lia. lia. Qed.

Lemma len_slice_to {A} (xs : list A) i :
  0 ≤ i ≤ len xs → len (slice_to xs i) = i.
Proof. intros. rewrite slice_to_take, len_take by lia. lia. Qed.

Lemma slice_to_from {A} (xs : list A) i :
  slice_to xs i ++ slice_from xs i = xs.
Proof. apply take_drop. Qed.

Lemma getitem_nth {A} (xs : list A) i x :
  0 ≤ i → xs !! Z.to_nat i = Some x → getitem xs i = Ok x.
Proof.
  intros Hi E. unfold getitem. destruct (Z.ltb_spec i 0); [lia|].
  cbv zeta. destruct (Z.ltb_spec i 0); [lia|]. by rewrite E.
Qed.

Lemma getitem_inv {A} (xs : list A) i x :
  0 ≤ i → getitem xs i = Ok x → xs !! Z.to_nat i = Some x ∧ i < len xs.
Proof.
  intros Hi. unfold getitem. destruct (Z.ltb_spec i 0); [lia|]. cbv zeta.
  destruct (Z.ltb_spec i 0); [lia|].
  destruct (xs !! Z.to_nat i) eqn:E; cbn; [|done]. intros [= ->]. split; [done|].
  apply lookup_lt_Some in E. unfold len. lia.
Qed.

Lemma getitem_lt {A} (xs : list A) i :
  0 ≤ i < len xs → ∃ x, getitem xs i = Ok x ∧ xs !! Z.to_nat i = Some x.
Proof.
  intros Hi. destruct (lookup_lt_is_Some_2 xs (Z.to_nat i)) as [x E].
  { unfold len in Hi. lia. }
  exists x. split; [|done]. apply getitem_nth; [lia|done].
Qed.

(** The last element, and the list without it. *)
Lemma pop_last {A} (xs : list A) x :
  getitem (xs ++ [x]) (-1) = Ok x ∧ slice_to (xs ++ [x]) (-1) = xs.
Proof.
  split.
  - unfold getitem. cbn [Z.ltb Z.compare]. rewrite len_app, len_cons, len_nil. pose proof (len_nonneg xs).
    destruct (Z.ltb_spec (-1 + (len xs + (1 + 0))) 0); [lia|].
    replace (Z.to_nat (-1 + (len xs + (1 + 0)))) with (length xs) by (unfold len; lia).
    by rewrite list_lookup_middle.
  - rewrite slice_to_last, length_app. cbn [length].
    replace (length xs + 1 - 1)%nat with (length xs) by lia. apply take_app_length.
Qed.

Lemma setitem_ok {A} (xs : list A) (k : nat) v :
  (k < length xs)%nat → setitem xs (Z.of_nat k) v = Ok (<[k := v]> xs).
Proof.
  intros Hk. unfold setitem. destruct (Z.ltb_spec (Z.of_nat k) 0); [lia|]. cbv zeta.
  destruct (Z.ltb_spec (Z.of_nat k) 0); [lia|].
  destruct (Z.leb_spec (len xs) (Z.of_nat k)); [unfold len in *; lia|]. cbn. by rewrite Nat2Z.id.
Qed.

Lemma zsum_app xs ys : zsum (xs ++ ys) = zsum xs + zsum ys.
Proof. unfold zsum. induction xs as [|x xs IH]; cbn in *; lia. Qed.

Lemma zsum_nonneg xs : Forall (λ x, 0 ≤ x) xs → 0 ≤ zsum xs.
Proof. unfold zsum. induction 1; cbn in *; lia. Qed.

Lemma zsum_times x n : 0 ≤ n → zsum (times x n) = n * x.
Proof.
  intros Hn. unfold times. rewrite <- (Z2Nat.id n Hn) at 2.
  generalize (Z.to_nat n) as k. intros k. induction k as [|k IH]; [done|].
  cbn [replicate]. change (zsum (x :: replicate k x)) with (x + zsum (replicate k x)).
  rewrite IH. lia.
Qed.

Lemma len_concat {A} (xss : list (list A)) : len (concat xss) = zsum (len <$> xss).
Proof.
  induction xss as [|xs xss IH]; [done|]. cbn [concat fmap list_fmap].
  rewrite len_app, IH. done.
Qed.

Lemma len_range a b : len (range a b) = Z.max 0 (b - a).
Proof. unfold len, range. rewrite length_seqZ. lia. Qed.

Lemma range_app a b c : a ≤ b ≤ c → range a c = range a b ++ range b c.
Proof.
  intros H. unfold range. replace (c - a) with ((b - a) + (c - b)) by lia.
  rewrite seqZ_app by lia. f_equal. f_equal. lia.
Qed.

Lemma range_nil a b : b ≤ a → range a b = [].
Proof. intros. unfold range. by rewrite seqZ_nil by lia. Qed.

Lemma range_cons a b : a < b → range a b = a :: range (a + 1) b.
Proof.
  intros. unfold range. rewrite seqZ_cons by lia. f_equal. f_equal; lia.
Qed.

Lemma range_snoc a b : a ≤ b → range a (b + 1) = range a b ++ [b].
Proof.
  intros. rewrite (range_app a b) by lia. f_equal.
  rewrite range_cons, range_nil by lia. done.
Qed.

Lemma elem_of_range a b x : x ∈ range a b ↔ a ≤ x < b.
Proof. unfold range. rewrite elem_of_seqZ. lia. Qed.

(** A map over a shifted range. *)
Lemma fmap_range_shift {A} (f : Z → A) a b k :
  f <$> range (a + k) (b + k) = (λ x, f (x + k)) <$> range a b.
Proof.
  unfold range. replace (b + k - (a + k)) with (b - a) by lia.
  rewrite (Z.add_comm a k), <- (fmap_add_seqZ k a (b - a)), <- list_fmap_compose.
  apply list_fmap_ext. intros i x _. cbn. f_equal. lia.
Qed.

Lemma fmap_range_ext {A} (f g : Z → A) a b :
  (∀ x, a ≤ x < b → f x = g x) → f <$> range a b = g <$> range a b.
Proof.
  intros H. apply list_fmap_ext. intros i x E. apply H.
  apply elem_of_range. by eapply list_elem_of_lookup_2.
Qed.

(** Ranges grouped into pages. *)
Lemma concat_pages {A} (f : Z → A) ps n :
  0 < ps → 0 ≤ n →
  concat ((λ k, (λ o, f (k * ps + o)) <$> range 0 ps) <$> range 0 n)
  = f <$> range 0 (n * ps).
Proof.
  intros Hps Hn. rewrite <- (Z2Nat.id n) by lia. generalize (Z.to_nat n) as m.
  clear n Hn. intros m. induction m as [|m IH]; [done|].
  rewrite Nat2Z.inj_succ. change (Z.succ (Z.of_nat m)) with (Z.of_nat m + 1).
  rewrite (range_app 0 (Z.of_nat m * ps) ((Z.of_nat m + 1) * ps)), fmap_app by lia.
  rewrite range_snoc by lia. rewrite fmap_app, concat_app, IH. cbn [fmap list_fmap concat].
  rewrite app_nil_r. f_equal.
  replace ((Z.of_nat m + 1) * ps) with (ps + Z.of_nat m * ps) by lia.
  trans ((λ x, f (x + Z.of_nat m * ps)) <$> range 0 ps).
  { apply fmap_range_ext. intros x Hx. f_equal. lia. }
  by rewrite <- (fmap_range_shift f 0 ps (Z.of_nat m * ps)).
Qed.

Lemma zip_with_fmap2 {A B C D} (h : B → C → D) (f : A → B) (g : A → C) xs :
  zip_with h (f <$> xs) (g <$> xs) = (λ x, h (f x) (g x)) <$> xs.
Proof. induction xs as [|x xs IH]; [done|]. cbn. by rewrite <- IH. Qed.

(** ** Automation *)

(** Lengths: [lens] normalises them, [llia] then closes linear goals. *)
Create Rewrite HintDb len.
#[export] Hint Rewrite @len_nil @len_cons @len_app @len_times @len_fmap @len_take
  @len_drop @len_range : len.
Ltac lens := autorewrite with len in *.
Ltac len_pos :=
  repeat match goal with
  | |- context [len ?xs] =>
      lazymatch goal with
      | _ : 0 ≤ len xs |- _ => fail
      | _ => pose proof (len_nonneg xs)
      end
  | _ : context [len ?xs] |- _ =>
      lazymatch goal with
      | _ : 0 ≤ len xs |- _ => fail
      | _ => pose proof (len_nonneg xs)
      end
  end.
Ltac llia := lens; len_pos; lia.

(** ** [torch.unique] and [torch.sort] *)

Lemma elem_of_insert_sorted x y xs : y ∈ insert_sorted x xs ↔ y = x ∨ y ∈ xs.
Proof.
  induction xs as [|z xs IH]; cbn; [set_solver|].
  destruct (Z.ltb_spec x z), (Z.eqb_spec x z); set_solver.
Qed.

Lemma elem_of_unique x xs : x ∈ unique xs ↔ x ∈ xs.
Proof.
  unfold unique. induction xs as [|y xs IH]; [done|].
  cbn [foldr]. rewrite elem_of_insert_sorted, IH. set_solver.
Qed.

Lemma insert_sorted_sorted x xs :
  StronglySorted Z.lt xs → StronglySorted Z.lt (insert_sorted x xs).
Proof.
  induction 1 as [|y xs Hs IH Hy]; cbn; [repeat constructor|].
  destruct (Z.ltb_spec x y).
  { repeat constructor; [done|done|done|]. eapply Forall_impl; [exact Hy|]. intros; lia. }
  destruct (Z.eqb_spec x y); [by constructor|]. constructor; [done|].
  rewrite Forall_forall in *. intros z Hz.
  apply elem_of_insert_sorted in Hz as [->|Hz]; [lia|auto].
Qed.

Lemma NoDup_unique xs : NoDup (unique xs).
Proof.
  assert (Hs : StronglySorted Z.lt (unique xs)).
  { unfold unique. induction xs; cbn; [constructor|by apply insert_sorted_sorted]. }
  induction Hs as [|y ys Hs IH Hy]; constructor; [|done].
  intros Hin. rewrite Forall_forall in Hy. specialize (Hy y Hin). lia.
Qed.

Lemma unique_perm xs ys : NoDup ys → (∀ x, x ∈ xs ↔ x ∈ ys) → unique xs ≡ₚ ys.
Proof.
  intros Hd He. apply NoDup_Permutation; [apply NoDup_unique|done|].
  intros x. by rewrite elem_of_unique.
Qed.

Lemma tsort_perm xs : tsort xs ≡ₚ xs.
Proof. apply merge_sort_Permutation. Qed.

Lemma Permutation_len {A} (xs ys : list A) : xs ≡ₚ ys → len xs = len ys.
Proof. intros E. unfold len. by rewrite E. Qed.
