(* ===== verification/Returns.v ===== *)
(** * Partial correctness of blocks

    [returns m s Q] says that when the block [m], run in the state [s],
    returns normally, its value and the state it leaves satisfy [Q].  The
    rules follow the structure of the block; the hint database [returns]
    applies them. *)

From S2P Require Import Prelude.

Definition returns {S A} (m : M S A) (s : S) (Q : A → S → Prop) : Prop :=
  ∀ a s', m s = (Ok a, s') → Q a s'.

Create HintDb returns.

Section Rules.
Context {S : Type}.
Implicit Types s : S.

Lemma returns_ret {A} (a : A) s (Q : A → S → Prop) : Q a s → returns (mret a) s Q.
Proof. by intros HQ a' s' [= <- <-]. Qed.

Lemma returns_bind {A B} (m : M S A) (k : A → M S B) s (Q : B → S → Prop) :
  returns m s (λ a s', returns (k a) s' Q) → returns (m ≫= k) s Q.
Proof.
  intros Hm b s'. unfold mbind, M_bind. destruct (m s) as [[a|e] s1] eqn:E; [|done]. by apply Hm.
Qed.

Lemma returns_mono {A} (m : M S A) s (P Q : A → S → Prop) :
  returns m s P → (∀ a s', P a s' → Q a s') → returns m s Q.
Proof. intros Hm HPQ a s' E. apply HPQ. by apply Hm. Qed.

Lemma returns_throw {A} e s (Q : A → S → Prop) : returns (throw e) s Q.
Proof. by intros a s' [=]. Qed.

Lemma returns_lift {A} (r : res A) s (Q : A → S → Prop) : (∀ a, r = Ok a → Q a s) → returns (lift r) s Q.
Proof. intros HQ a s' [= E <-]. by apply HQ. Qed.

Lemma returns_assert b s (Q : unit → S → Prop) : (b = true → Q tt s) → returns (assert_ b) s Q.
Proof. intros HQ a s' E. unfold assert_ in E. destruct b; [|done]. injection E as <- <-. auto. Qed.

Lemma returns_get s (Q : S → S → Prop) : Q s s → returns get s Q.
Proof. by intros HQ a s' [= <- <-]. Qed.

Lemma returns_gets {A} (f : S → A) s (Q : A → S → Prop) : Q (f s) s → returns (gets f) s Q.
Proof. by intros HQ a s' [= <- <-]. Qed.

Lemma returns_modify (f : S → S) s (Q : unit → S → Prop) : Q tt (f s) → returns (modify f) s Q.
Proof. by intros HQ a s' [= <- <-]. Qed.

(** Loops, with an invariant on the state *)
Lemma returns_for {A} (I : S → Prop) (xs : list A) body s (Q : unit → S → Prop) :
  (∀ x s, x ∈ xs → I s → returns (body x) s (λ _, I)) → I s → (∀ s', I s' → Q tt s') → returns (for_ xs body) s Q.
Proof.
  intros Hb Hi HQ u s'. revert s Hb Hi. induction xs as [|x xs IH]; intros s Hb Hi.
  - intros [= <- <-]. auto.
  - cbn [for_]. destruct (body x s) as [[v|e] s1] eqn:E; [|done]. apply IH.
    + intros y s0 Hy. apply Hb. by apply list_elem_of_further.
    + by eapply (Hb x s); [apply list_elem_of_here| |].
Qed.

Lemma returns_foldM {A B} (I : B → S → Prop) (f : B → A → M S B) b xs s (Q : B → S → Prop) :
  (∀ b x s, x ∈ xs → I b s → returns (f b x) s I) → I b s → (∀ b' s', I b' s' → Q b' s') →
  returns (foldM f b xs) s Q.
Proof.
  intros Hf Hi HQ b' s'. revert b s Hf Hi. induction xs as [|x xs IH]; intros b s Hf Hi.
  - intros [= <- <-]. auto.
  - cbn [foldM]. destruct (f b x s) as [[v|e] s1] eqn:E; [|done]. apply IH.
    + intros c y s0 Hy. apply Hf. by apply list_elem_of_further.
    + by eapply (Hf b x s); [apply list_elem_of_here| |].
Qed.

Lemma returns_if {A} (b : bool) (m1 m2 : M S A) s (Q : A → S → Prop) :
  (b = true → returns m1 s Q) → (b = false → returns m2 s Q) → returns (if b then m1 else m2) s Q.
Proof. destruct b; auto. Qed.

(** A block that leaves an observation of the state alone *)
Definition preserves {A B} (f : S → B) (m : M S A) : Prop := ∀ s, returns m s (λ _ s', f s' = f s).

Lemma preserves_use {A B} (f : S → B) (m : M S A) s (Q : A → S → Prop) :
  preserves f m → (∀ a s', f s' = f s → Q a s') → returns m s Q.
Proof. intros Hp HQ. by eapply returns_mono; [apply Hp|]. Qed.
End Rules.

#[export] Hint Resolve returns_throw : returns.

(** [returns_step] takes the first command of a block. *)
Ltac returns_step :=
  lazymatch goal with
  | |- returns (_ ≫= _) _ _ => apply returns_bind
  | |- returns (mret _) _ _ => apply returns_ret
  | |- returns (throw _) _ _ => apply returns_throw
  | |- returns (lift _) _ _ => apply returns_lift; intros ? ?
  | |- returns (assert_ _) _ _ => apply returns_assert; intros ?
  | |- returns get _ _ => apply returns_get
  | |- returns (gets _) _ _ => apply returns_gets
  | |- returns (modify _) _ _ => apply returns_modify
  | |- returns (let '(_, _) := ?x in _) _ _ => destruct x
  | |- returns (if ?b then _ else _) _ _ => apply returns_if; intros ?
  | |- returns ((λ _, _) _) _ _ => cbv beta
  end.
