(* ===== verification/HeapQ.v ===== *)
(** * Python's heapq

    The algorithms of the standard library's module [heapq] on a list, with
    their order [lt] as a parameter: an item that is sifted is kept in the
    position the library treats as empty, so that every assignment is an
    exchange.  [heapify], [heappush] and [heappop] keep the heap order,
    and [heappop] returns a smallest item. *)

From S2P Require Import Prelude.

Module HeapQ.

Section Ops.
Context {A : Type} (lt : A → A → bool).

Definition swap (l : list A) (i j : nat) : list A :=
  match l !! i, l !! j with
  | Some x, Some y => <[i := y]> (<[j := x]> l)
  | _, _ => l
  end.

Definition up (pos : nat) : nat := Nat.div2 (pos - 1).

Definition lt_at (l : list A) (i j : nat) : bool :=
  match l !! i, l !! j with Some x, Some y => lt x y | _, _ => false end.

(** [_siftdown]: towards the root, but not above [startpos] *)
Fixpoint siftdown (fuel : nat) (startpos pos : nat) (l : list A) : list A :=
  match fuel with
  | O => l
  | S fuel' =>
      if (startpos <? pos)%nat && lt_at l pos (up pos)
      then siftdown fuel' startpos (up pos) (swap l pos (up pos)) else l
  end.

(** The smaller of the two children *)
Definition smaller_child (l : list A) (pos : nat) : nat :=
  let childpos := (2 * pos + 1)%nat in
  let rightpos := (childpos + 1)%nat in
  if (rightpos <? length l)%nat && negb (lt_at l childpos rightpos) then rightpos else childpos.

(** The first loop of [_siftup]: to a leaf *)
Fixpoint sink (fuel : nat) (pos : nat) (l : list A) : nat * list A :=
  match fuel with
  | O => (pos, l)
  | S fuel' =>
      if (2 * pos + 1 <? length l)%nat
      then let c := smaller_child l pos in sink fuel' c (swap l pos c)
      else (pos, l)
  end.

Definition siftup (pos : nat) (l : list A) : list A :=
  let '(p, l') := sink (length l) pos l in siftdown (length l) pos p l'.

Definition heappush (l : list A) (x : A) : list A :=
  siftdown (length l) 0 (length l) (l ++ [x]).

(** [None]: the heap is empty *)
Definition heappop (l : list A) : option (A * list A) :=
  match reverse l with
  | [] => None
  | lastelt :: rest =>
      match reverse rest with
      | [] => Some (lastelt, [])
      | returnitem :: tl => Some (returnitem, siftup 0 (lastelt :: tl))
      end
  end.

Definition heapify (l : list A) : list A :=
  foldl (λ l i, siftup i l) l (reverse (seq 0 (Nat.div2 (length l)))).

End Ops.

Example heapsort_run :
  heappop Z.ltb (heapify Z.ltb [5; 3; 8; 1; 9; 2]) = Some (1, [2; 3; 8; 5; 9]).
Proof. reflexivity. Qed.

End HeapQ.

(** ** Exchanges *)

Section Facts.
Context {A : Type} (lt : A → A → bool).
Implicit Types l : list A.

Lemma swap_perm l i j : HeapQ.swap l i j ≡ₚ l.
Proof.
  unfold HeapQ.swap. destruct (l !! i) as [x|] eqn:Ei, (l !! j) as [y|] eqn:Ej; try done.
  by apply Permutation_insert_swap.
Qed.

Lemma swap_length l i j : length (HeapQ.swap l i j) = length l.
Proof. apply Permutation_length, swap_perm. Qed.

Lemma lookup_swap l i j k :
  (i < length l)%nat → (j < length l)%nat →
  HeapQ.swap l i j !! k = l !! (if decide (k = i) then j else if decide (k = j) then i else k).
Proof.
  intros [x Ei]%lookup_lt_is_Some_2 [y Ej]%lookup_lt_is_Some_2.
  pose proof (lookup_lt_Some _ _ _ Ei). pose proof (lookup_lt_Some _ _ _ Ej).
  unfold HeapQ.swap. rewrite Ei, Ej. repeat case_decide; subst.
  - rewrite list_lookup_insert_eq; [done|]. by rewrite length_insert.
  - rewrite list_lookup_insert_ne, list_lookup_insert_eq by done. done.
  - by rewrite !list_lookup_insert_ne by done.
Qed.

Lemma siftdown_perm fuel s pos l : HeapQ.siftdown lt fuel s pos l ≡ₚ l.
Proof.
  revert pos l. induction fuel as [|fuel IH]; intros pos l; [done|]. cbn.
  destruct (_ && _); [|done]. by rewrite IH, swap_perm.
Qed.

Lemma sink_perm fuel pos l : (HeapQ.sink lt fuel pos l).2 ≡ₚ l.
Proof.
  revert pos l. induction fuel as [|fuel IH]; intros pos l; [done|]. cbn.
  case_match; [|done]. by rewrite IH, swap_perm.
Qed.

Lemma siftup_perm pos l : HeapQ.siftup lt pos l ≡ₚ l.
Proof.
  unfold HeapQ.siftup. pose proof (sink_perm (length l) pos l) as E.
  destruct (HeapQ.sink _ _ _ _) as [p l']. by rewrite siftdown_perm.
Qed.

Lemma heappush_perm l x : HeapQ.heappush lt l x ≡ₚ x :: l.
Proof. unfold HeapQ.heappush. rewrite siftdown_perm. by rewrite Permutation_app_comm. Qed.

Lemma heapify_perm l : HeapQ.heapify lt l ≡ₚ l.
Proof.
  unfold HeapQ.heapify. generalize (reverse (seq 0 (Nat.div2 (length l)))). intros js.
  revert l. induction js as [|i js IH]; intros l; [done|]. cbn. by rewrite IH, siftup_perm.
Qed.

Lemma heappop_perm l :
  match HeapQ.heappop lt l with None => l = [] | Some (x, l') => x :: l' ≡ₚ l end.
Proof.
  unfold HeapQ.heappop. destruct (reverse l) as [|z rest] eqn:E.
  { by rewrite <- (reverse_involutive l), E. }
  assert (El : l = reverse rest ++ [z]) by (by rewrite <- (reverse_involutive l), E, reverse_cons).
  destruct (reverse rest) as [|x tl]; rewrite El; [done|].
  rewrite siftup_perm. cbn. by rewrite (Permutation_app_comm tl).
Qed.

(** ** The heap order *)

Hypothesis lt_asym : ∀ x y, lt x y = true → lt y x = false.
Hypothesis le_trans : ∀ x y z, lt y x = false → lt z y = false → lt z x = false.

(** The item at [i] is not above the one at [j]. *)
Definition ordered l (i j : nat) : Prop :=
  ∀ x y, l !! i = Some x → l !! j = Some y → lt y x = false.

(** The heap order from position [s] on *)
Definition heap_from (s : nat) l : Prop :=
  ∀ i, (0 < i)%nat → (s ≤ HeapQ.up i)%nat → ordered l (HeapQ.up i) i.

(** [pos] is in the subtree of [s]. *)
Inductive below (s : nat) : nat → Prop :=
| below_self : below s s
| below_child p c : below s p → (0 < c)%nat → HeapQ.up c = p → below s c.

Lemma up_spec i : (0 < i)%nat → (i = 2 * HeapQ.up i + 1 ∨ i = 2 * HeapQ.up i + 2)%nat.
Proof.
  intros Hi. unfold HeapQ.up. pose proof (Nat.div2_odd (i - 1)) as E.
  destruct (Nat.odd (i - 1)); cbn [Nat.b2n] in E; lia.
Qed.

Lemma up_unique i p : (i = 2 * p + 1 ∨ i = 2 * p + 2)%nat → HeapQ.up i = p.
Proof. intros H. pose proof (up_spec i). lia. Qed.

Lemma below_up s pos : below s pos → (s < pos)%nat → below s (HeapQ.up pos) ∧ (s ≤ HeapQ.up pos)%nat.
Proof.
  intros Hb. destruct Hb as [|p c Hb Hc Hp]; [lia|]. intros _. rewrite Hp. split; [done|].
  clear c Hc Hp. induction Hb as [|p c Hb IH Hc Hp]; [done|]. pose proof (up_spec c Hc). lia.
Qed.

Lemma ordered_swap l i j a b :
  (i < length l)%nat → (j < length l)%nat →
  ordered l (if decide (a = i) then j else if decide (a = j) then i else a)
            (if decide (b = i) then j else if decide (b = j) then i else b) →
  ordered (HeapQ.swap l i j) a b.
Proof. intros Hi Hj H x y. rewrite !lookup_swap by done. apply H. Qed.

Lemma ordered_trans l i j k : (j < length l)%nat → ordered l i j → ordered l j k → ordered l i k.
Proof.
  intros [y Ej]%lookup_lt_is_Some_2 H1 H2 x z Ei Ek.
  eapply le_trans; [by apply (H1 x y)|by apply (H2 y z)].
Qed.

Lemma lt_at_true l i j : HeapQ.lt_at lt l i j = true → ordered l i j.
Proof. unfold HeapQ.lt_at, ordered. intros E x y Ei Ej. rewrite Ei, Ej in E. by apply lt_asym. Qed.

Lemma lt_at_false l i j : HeapQ.lt_at lt l i j = false → ordered l j i.
Proof. unfold HeapQ.lt_at, ordered. intros E x y Ei Ej. by rewrite Ei, Ej in E. Qed.

Lemma siftdown_heap fuel s pos l :
  (pos ≤ fuel)%nat → (pos < length l)%nat → below s pos →
  (∀ i, (0 < i)%nat → (s ≤ HeapQ.up i)%nat → i ≠ pos → ordered l (HeapQ.up i) i) →
  (∀ c, (0 < c)%nat → HeapQ.up c = pos → (s < pos)%nat → ordered l (HeapQ.up pos) c) →
  heap_from s (HeapQ.siftdown lt fuel s pos l).
Proof.
  revert pos l. induction fuel as [|fuel IH]; intros pos l Hf Hlen Hb Hpairs Hgrand.
  { cbn. intros i Hi Hs. apply Hpairs; lia. }
  cbn [HeapQ.siftdown]. destruct (Nat.ltb_spec s pos) as [Hsp|Hsp]; cbn [andb].
  2:{ intros i Hi Hs. destruct (decide (i = pos)) as [->|Hne]; [|by apply Hpairs].
      pose proof (up_spec pos Hi). lia. }
  destruct (HeapQ.lt_at lt l pos (HeapQ.up pos)) eqn:E.
  2:{ intros i Hi Hs. destruct (decide (i = pos)) as [->|Hne]; [|by apply Hpairs].
      by apply lt_at_false. }
  apply lt_at_true in E. pose proof (up_spec pos ltac:(lia)) as Hup.
  destruct (below_up s pos Hb Hsp) as [Hbu Hsu]. set (q := HeapQ.up pos) in *.
  assert (Hq : (q < length l)%nat) by lia.
  apply IH; [lia|by rewrite swap_length|done| |].
  - intros i Hi Hs Hne. apply ordered_swap; [done..|]. pose proof (up_spec i Hi).
    destruct (decide (i = pos)) as [->|Hip].
    { fold q. rewrite decide_False, decide_True by lia. done. }
    rewrite (decide_False (P := i = q)) by done.
    destruct (decide (HeapQ.up i = pos)) as [Ep|Ep].
    { apply (Hgrand i Hi Ep Hsp). }
    destruct (decide (HeapQ.up i = q)) as [Eq|Eq]; [|by apply Hpairs].
    apply (ordered_trans l pos q); [done..|]. rewrite <- Eq. by apply Hpairs; rewrite ?Eq.
  - intros c Hc Ec Hsq. destruct (below_up s q Hbu Hsq) as [_ Hsqq].
    pose proof (up_spec q ltac:(lia)). pose proof (up_spec c Hc).
    assert (Hqq : ordered l (HeapQ.up q) q) by (apply Hpairs; lia).
    apply ordered_swap; [done..|].
    rewrite (decide_False (P := HeapQ.up q = pos)), (decide_False (P := HeapQ.up q = q)) by lia.
    destruct (decide (c = pos)) as [->|Hcp]; [done|].
    rewrite decide_False by lia. apply (ordered_trans l _ q); [done..|].
    rewrite <- Ec. apply Hpairs; lia.
Qed.

Lemma smaller_child_spec l pos :
  (2 * pos + 1 < length l)%nat →
  let c := HeapQ.smaller_child lt l pos in
  (0 < c < length l)%nat ∧ HeapQ.up c = pos ∧
  ∀ i, (0 < i)%nat → HeapQ.up i = pos → i ≠ c → ordered l c i.
Proof.
  intros Hl. cbv zeta. unfold HeapQ.smaller_child. cbv zeta.
  destruct (Nat.ltb_spec (2 * pos + 1 + 1) (length l)) as [Hr|Hr]; cbn [andb].
  - destruct (HeapQ.lt_at lt l (2 * pos + 1) (2 * pos + 1 + 1)) eqn:E; cbn [negb];
      (split_and!; [lia..|apply up_unique; lia|]); intros i Hi Hu Hne;
      pose proof (up_spec i Hi).
    + assert (i = 2 * pos + 1 + 1)%nat as -> by lia. by apply lt_at_true.
    + assert (i = 2 * pos + 1)%nat as -> by lia. by apply lt_at_false.
  - split_and!; [lia..|apply up_unique; lia|]. intros i Hi Hu Hne x y _ Ey.
    apply lookup_lt_Some in Ey. pose proof (up_spec i Hi). lia.
Qed.

(** What holds while the item at [pos] sinks from [s]. *)
Definition sinking (s pos : nat) l : Prop :=
  (pos < length l)%nat ∧ below s pos ∧
  (∀ i, (0 < i)%nat → (s ≤ HeapQ.up i)%nat → i ≠ pos → HeapQ.up i ≠ pos → ordered l (HeapQ.up i) i) ∧
  (∀ c, (0 < c)%nat → HeapQ.up c = pos → (s < pos)%nat → ordered l (HeapQ.up pos) c).

Lemma sink_step s pos l :
  sinking s pos l → (2 * pos + 1 < length l)%nat →
  sinking s (HeapQ.smaller_child lt l pos) (HeapQ.swap l pos (HeapQ.smaller_child lt l pos)).
Proof.
  intros (Hlen & Hb & Hpairs & Hgrand) Hc. destruct (smaller_child_spec l pos Hc) as (Hcl & Hcu & Hmin).
  set (c := HeapQ.smaller_child lt l pos) in *. pose proof (up_spec c ltac:(lia)) as Hcs.
  assert (Hspos : (s ≤ pos)%nat).
  { destruct (decide (s = pos)); [lia|]. destruct (decide (pos < s)%nat) as [Hlt|]; [|lia].
    exfalso. clear -Hb Hlt. induction Hb as [|p c0 Hb IH Hc0 Hp]; [lia|]. pose proof (up_spec c0 Hc0). lia. }
  split_and!; [by rewrite swap_length; lia|by eapply below_child; [exact Hb|lia|]| |].
  - intros i Hi Hs Hne Hnu. apply ordered_swap; [lia..|]. pose proof (up_spec i Hi).
    rewrite (decide_False (P := i = c)), (decide_False (P := HeapQ.up i = c)) by done.
    destruct (decide (i = pos)) as [->|Hip].
    { rewrite decide_False by lia. apply Hgrand; lia. }
    destruct (decide (HeapQ.up i = pos)) as [Ep|Ep]; [by apply Hmin|by apply Hpairs].
  - intros i Hi Hu Hsc. pose proof (up_spec i Hi). apply ordered_swap; [lia..|].
    rewrite Hcu, decide_True by done. rewrite (decide_False (P := i = pos)), (decide_False (P := i = c)) by lia.
    rewrite <- Hu. apply Hpairs; lia.
Qed.

Lemma sink_ok fuel s pos l :
  (length l ≤ pos + fuel)%nat → sinking s pos l →
  let '(p, l') := HeapQ.sink lt fuel pos l in sinking s p l' ∧ length l' = length l ∧
    (length l' ≤ 2 * p + 1)%nat.
Proof.
  revert pos l. induction fuel as [|fuel IH]; intros pos l Hf Hs.
  { destruct Hs as [? _]. lia. }
  cbn [HeapQ.sink]. destruct (Nat.ltb_spec (2 * pos + 1) (length l)) as [Hc|Hc].
  - pose proof (sink_step s pos l Hs ltac:(lia)) as Hs'.
    destruct (smaller_child_spec l pos ltac:(lia)) as (Hcl & Hcu & _).
    pose proof (up_spec (HeapQ.smaller_child lt l pos) ltac:(lia)).
    set (c := HeapQ.smaller_child lt l pos) in *.
    specialize (IH c (HeapQ.swap l pos c) ltac:(rewrite swap_length; lia) Hs').
    cbv zeta. destruct (HeapQ.sink _ _ _ _) as [p l']. rewrite swap_length in IH. done.
  - split_and!; [done|done|lia].
Qed.

Lemma siftup_heap s l :
  (s < length l)%nat → heap_from (S s) l → heap_from s (HeapQ.siftup lt s l).
Proof.
  intros Hs Hh. unfold HeapQ.siftup.
  pose proof (sink_ok (length l) s s l ltac:(lia)) as H.
  destruct (HeapQ.sink _ _ _ _) as [p l'].
  destruct H as ((Hp & Hb & Hpairs & Hgrand) & El & Hleaf).
  { split_and!; [done|constructor| |lia]. intros i Hi Hsi Hne Hnu. apply Hh; lia. }
  rewrite <- El. apply siftdown_heap; [lia|done|done| |done].
  intros i Hi Hsi Hne. destruct (decide (HeapQ.up i = p)) as [Ep|]; [|by apply Hpairs].
  intros x y _ Ey. apply lookup_lt_Some in Ey. pose proof (up_spec i Hi). lia.
Qed.

Lemma heapify_heap l : heap_from 0 (HeapQ.heapify lt l).
Proof.
  unfold HeapQ.heapify. set (n := Nat.div2 (length l)).
  assert (Hn : heap_from n l ∧ (n ≤ length l)%nat).
  { pose proof (Nat.div2_odd (length l)) as E. fold n in E. split; [|lia].
    intros i Hi Hs x y _ Ey. apply lookup_lt_Some in Ey. pose proof (up_spec i Hi).
    destruct (Nat.odd (length l)); cbn [Nat.b2n] in E; lia. }
  clearbody n. revert l Hn. induction n as [|n IH]; intros l [Hh Hl]; [done|].
  rewrite seq_S, reverse_app. cbn. apply IH. split; [by apply siftup_heap|].
  rewrite (Permutation_length (siftup_perm n l)). lia.
Qed.

Lemma heappush_heap l x : heap_from 0 l → heap_from 0 (HeapQ.heappush lt l x).
Proof.
  intros Hh. unfold HeapQ.heappush. assert (Hb : ∀ n, below 0 n).
  { intros n. induction (lt_wf n) as [n _ IHn]. destruct (decide (n = 0%nat)) as [->|Hn]; [constructor|].
    pose proof (up_spec n ltac:(lia)). eapply below_child; [apply IHn|lia|done]. lia. }
  assert (Hlast : ∀ i, (length l < i)%nat → (l ++ [x]) !! i = None).
  { intros i Hi. apply lookup_ge_None_2. rewrite length_app. cbn. lia. }
  apply siftdown_heap; [done|rewrite length_app; cbn; lia|apply Hb| |].
  - intros i Hi _ Hne. destruct (decide (length l < i)%nat) as [Hi'|Hi'].
    { intros y z _ Ez. by rewrite Hlast in Ez. }
    pose proof (up_spec i Hi). intros y z. rewrite !lookup_app_l by lia. apply Hh; lia.
  - intros c Hc Ec Hl y z _ Ez. pose proof (up_spec c Hc). rewrite Hlast in Ez by lia. done.
Qed.

(** The root is a smallest item. *)
Lemma heap_root_min l x : heap_from 0 l → l !! 0%nat = Some x → ∀ y, y ∈ l → lt y x = false.
Proof.
  intros Hh Hx y [i Ei]%list_elem_of_lookup. revert y Ei.
  induction (lt_wf i) as [i _ IH]. intros y Ei.
  destruct (decide (i = 0%nat)) as [->|Hi].
  { assert (y = x) as -> by congruence. destruct (lt x x) eqn:E; [|done]. by rewrite <- (lt_asym _ _ E). }
  pose proof (up_spec i ltac:(lia)) as Hu.
  destruct (lookup_lt_is_Some_2 l (HeapQ.up i)) as [z Ez].
  { apply lookup_lt_Some in Ei. lia. }
  eapply le_trans; [apply (IH (HeapQ.up i) ltac:(lia) z Ez)|]. apply (Hh i ltac:(lia) ltac:(lia) z y Ez Ei).
Qed.

Lemma heappop_heap l x l' :
  heap_from 0 l → HeapQ.heappop lt l = Some (x, l') →
  heap_from 0 l' ∧ ∀ y, y ∈ l → lt y x = false.
Proof.
  intros Hh. unfold HeapQ.heappop. destruct (reverse l) as [|z rest] eqn:E; [done|].
  assert (El : l = reverse rest ++ [z]) by (by rewrite <- (reverse_involutive l), E, reverse_cons).
  destruct (reverse rest) as [|r tl]; intros [= <- <-]; subst l.
  - split; [intros i _ _ a b Ea; by rewrite lookup_nil in Ea|]. by apply heap_root_min.
  - split; [|by apply heap_root_min]. apply siftup_heap; [cbn; lia|].
    intros i Hi Hs a b Ea Eb. pose proof (up_spec i Hi). destruct (HeapQ.up i) as [|u] eqn:Eu; [lia|].
    destruct i as [|i]; [lia|]. cbn in Ea, Eb. apply (Hh (S i) ltac:(lia) ltac:(lia)).
    + rewrite Eu. cbn. apply lookup_app_l_Some. done.
    + cbn. apply lookup_app_l_Some. done.
Qed.
End Facts.
