(* ===== verification/PyFloat.v ===== *)
(** * Python numbers

    Python floats are IEEE 754 binary64 numbers, computed with the executable
    specification of the standard library ([SpecFloat], 53 bits of precision,
    maximal exponent 1024).  An expression that mixes integers and floats is
    a [num]. *)

From Stdlib Require Import SpecFloat.
From S2P Require Import Prelude.

Definition f64_of_Z (z : Z) : spec_float := binary_normalize 53 1024 z 0 false.
Definition f64_div : spec_float → spec_float → spec_float := SFdiv 53 1024.
Definition f64_mul : spec_float → spec_float → spec_float := SFmul 53 1024.
Definition f64_sub : spec_float → spec_float → spec_float := SFsub 53 1024.
Definition f64_add : spec_float → spec_float → spec_float := SFadd 53 1024.

(** [max(x, y)]: the first argument unless the second is larger *)
Definition f64_max (x y : spec_float) : spec_float := if SFltb x y then y else x.

(** [x <= y] *)
Definition f64_le (x y : spec_float) : bool := SFleb x y.

(** [math.ceil] *)
Definition math_ceil (x : spec_float) : res Z :=
  match x with
  | S754_zero _ => Ok 0
  | S754_infinity _ => Raise OverflowError
  | S754_nan => Raise ValueError
  | S754_finite s m e =>
      let v := if s then Zneg m else Zpos m in
      if 0 <=? e then Ok (v * 2 ^ e) else Ok (- ((- v) / 2 ^ (- e)))
  end.

(** [math.ceil(pct / 100.0 * n)] *)
Definition ceil_pct (pct : spec_float) (n : Z) : res Z :=
  math_ceil (f64_mul (f64_div pct (f64_of_Z 100)) (f64_of_Z n)).

Example ceil_pct_5_of_64 : ceil_pct (f64_of_Z 5) 64 = Ok 4.
Proof. reflexivity. Qed.
Example ceil_pct_50_of_64 : ceil_pct (f64_of_Z 50) 64 = Ok 32.
Proof. reflexivity. Qed.
(** 0.07 is not a binary fraction: 7% of 100 tokens is rounded up to 8. *)
Example ceil_pct_7_of_100 : ceil_pct (f64_of_Z 7) 100 = Ok 8.
Proof. reflexivity. Qed.

(** ** Integers and floats *)

Inductive num : Type := NInt (z : Z) | NFloat (f : spec_float).

Definition to_float (x : num) : spec_float :=
  match x with NInt z => f64_of_Z z | NFloat f => f end.

(** Integers stay exact; with a float the other operand is converted. *)
Definition arith (onZ : Z → Z → Z) (onF : spec_float → spec_float → spec_float) (x y : num) : num :=
  match x, y with
  | NInt a, NInt b => NInt (onZ a b)
  | _, _ => NFloat (onF (to_float x) (to_float y))
  end.

Definition num_add : num → num → num := arith Z.add f64_add.
Definition num_sub : num → num → num := arith Z.sub f64_sub.
Definition num_mul : num → num → num := arith Z.mul f64_mul.

(** An integer and a float are compared by their exact values. *)
Definition compare_Z_float (z : Z) (f : spec_float) : option comparison :=
  match f with
  | S754_nan => None
  | S754_infinity s => Some (if s then Gt else Lt)
  | S754_zero _ => Some (z ?= 0)
  | S754_finite s m e =>
      let v := if s then Zneg m else Zpos m in
      Some (if 0 <=? e then z ?= v * 2 ^ e else z * 2 ^ (- e) ?= v)
  end.

Definition num_compare (x y : num) : option comparison :=
  match x, y with
  | NInt a, NInt b => Some (a ?= b)
  | NInt a, NFloat g => compare_Z_float a g
  | NFloat f, NInt b => CompOpp <$> compare_Z_float b f
  | NFloat f, NFloat g => SFcompare f g
  end.

Definition num_lt (x y : num) : bool := match num_compare x y with Some Lt => true | _ => false end.
Definition num_le (x y : num) : bool :=
  match num_compare x y with Some Lt | Some Eq => true | _ => false end.

(** [min(x, y)]: the first argument unless the second is smaller *)
Definition num_min (x y : num) : num := if num_lt y x then y else x.

(** [int(x)]: towards zero *)
Definition num_int (x : num) : res Z :=
  match x with
  | NInt z => Ok z
  | NFloat (S754_zero _) => Ok 0
  | NFloat (S754_infinity _) => Raise OverflowError
  | NFloat S754_nan => Raise ValueError
  | NFloat (S754_finite s m e) =>
      let v := if 0 <=? e then Zpos m * 2 ^ e else Zpos m / 2 ^ (- e) in
      Ok (if s then - v else v)
  end.

(** [sum(xs)], from left to right as in CPython before 3.12 *)
Definition num_sum (xs : list num) : num := foldl num_add (NInt 0) xs.

Example num_half : num_lt (NInt 1) (num_mul (NInt 3) (NFloat (f64_div (f64_of_Z 1) (f64_of_Z 2)))) = true.
Proof. reflexivity. Qed.
