(* ===== verification/Allocator.v ===== *)
(** * KV-cache slot allocators (srt/mem_cache/allocator.py)

    [Allocator] is the state of an object of either concrete class; [cls]
    is its class, on which the method calls dispatch.  Index tensors are
    lists of [Z].  [torch.empty] is a list of [None]: a slot of an output
    tensor is [Some v] once a kernel stored [v] in it.  The programs of a
    Triton grid are run in increasing order of their id; they store to
    disjoint ranges.  A masked lane of [tl.load] reads 0 and stores of a
    masked lane are dropped. *)

From S2P Require Import Prelude.

(** ** State *)

Inductive AllocClass : Type :=
| TokenToKVPoolAllocator
| PagedTokenToKVPoolAllocator.

Record Allocator : Type := mkAllocator {
  cls : AllocClass;
  size : Z;
  page_size : Z;
  need_sort : bool;
  free_pages : list Z;
  release_pages : list Z;
  is_not_in_free_group : bool;
  free_group : list (list Z);
  num_pages : Z;
  debug_mode : bool;
  seen_max_num_extend_tokens_next_power_of_2 : Z
}.

#[export] Instance eta_Allocator : Eta Allocator := λ a,
  mkAllocator (cls a) (size a) (page_size a) (need_sort a) (free_pages a)
    (release_pages a) (is_not_in_free_group a) (free_group a) (num_pages a)
    (debug_mode a) (seen_max_num_extend_tokens_next_power_of_2 a).
#[export] Instance set_free_pages : Setter free_pages.
Proof. derive_setter. Defined.
#[export] Instance set_release_pages : Setter release_pages.
Proof. derive_setter. Defined.
#[export] Instance set_is_not_in_free_group : Setter is_not_in_free_group.
Proof. derive_setter. Defined.
#[export] Instance set_free_group : Setter free_group.
Proof. derive_setter. Defined.
#[export] Instance set_seen_max :
  Setter seen_max_num_extend_tokens_next_power_of_2.
Proof. derive_setter. Defined.

(** ** Helpers of srt/utils/common.py *)

Definition next_power_of_2 (n : Z) : Z :=
  if 0 <? n then Z.shiftl 1 (Z.log2_up n) else 1.

Definition ceil_div (x y : Z) : Z := (x + y - 1) / y.
Definition ceil_align (x y : Z) : Z := ceil_div x y * y.

Definition get_num_new_pages (seq_lens : list Z) (ps : Z)
    (prefix_lens : option (list Z)) (decode : bool) : res Z :=
  match prefix_lens, decode with
  | Some prefix_lens, false =>
      let num_pages_after := (λ s, (s + ps - 1) / ps) <$> seq_lens in
      let num_pages_before := (λ p, (p + ps - 1) / ps) <$> prefix_lens in
      Ok (zsum (zip_with Z.sub num_pages_after num_pages_before))
  | _, true => Ok (len (filter (λ s, s mod ps = 1) seq_lens))
  | None, false => Raise AssertionError
  end.

(** ** BaseTokenToKVPoolAllocator *)

Module Base.

Definition available_size (a : Allocator) : Z :=
  (len (free_pages a) + len (release_pages a)) * page_size a.

Definition restore_state (st : list Z * list Z) (a : Allocator) : Allocator :=
  a <| free_pages := st.1 |> <| release_pages := st.2 |>.

Definition backup_state (a : Allocator) : list Z * list Z :=
  (free_pages a, release_pages a).

Definition free_group_begin (a : Allocator) : Allocator :=
  a <| is_not_in_free_group := false |> <| free_group := [] |>.

Definition merge_and_sort_free (a : Allocator) : Allocator :=
  if 0 <? len (release_pages a)
  then a <| free_pages := tsort (free_pages a ++ release_pages a) |>
         <| release_pages := [] |>
  else a.

End Base.

(** ** TokenToKVPoolAllocator: one slot per page *)

Module Token.

Definition clear (a : Allocator) : Allocator :=
  a <| free_pages := range 1 (size a + 1) |>
    <| is_not_in_free_group := true |>
    <| free_group := [] |>
    <| release_pages := [] |>.

Definition init (size : Z) (need_sort : bool) : Allocator :=
  clear (mkAllocator TokenToKVPoolAllocator size 1 need_sort [] [] true [] 0 false 1).

Definition available_size (a : Allocator) : Z :=
  len (free_pages a) + len (release_pages a).

Definition alloc (need_size : Z) (a : Allocator) : option (list Z) * Allocator :=
  let a := if need_sort a && (len (free_pages a) <? need_size)
           then Base.merge_and_sort_free a else a in
  if len (free_pages a) <? need_size then (None, a)
  else (Some (slice_to (free_pages a) need_size),
        a <| free_pages := slice_from (free_pages a) need_size |>).

Definition free (free_index : list Z) (a : Allocator) : Allocator :=
  if len free_index =? 0 then a
  else if is_not_in_free_group a then
    if need_sort a
    then a <| release_pages := release_pages a ++ free_index |>
    else a <| free_pages := free_pages a ++ free_index |>
  else a <| free_group := free_group a ++ [free_index] |>.

End Token.

(** ** Kernels of the paged allocator *)

Module Kernel.

(** [out[start : start + len vals] = vals] on a preallocated tensor *)
Definition store (out : list (option Z)) (start : Z) (vals : list (option Z))
    : list (option Z) :=
  take (Z.to_nat start) out ++
  take (length out - Z.to_nat start) vals ++
  drop (Z.to_nat start + length vals) out.

Definition arange (n : Z) : list Z := range 0 n.

(** A slice assignment of torch: the right-hand side has the length of the
    slice, or one element that is broadcast. *)
Definition assign (out : list (option Z)) (i j : Z) (vals : list Z)
    : res (list (option Z)) :=
  let n := len (slice out i j) in
  if n =? len vals then Ok (store out i (Some <$> vals))
  else match vals with
       | [v] => Ok (store out i (times (Some v) n))
       | _ => Raise RuntimeError
       end.

(** One iteration of the loop of [alloc_extend_naive]; [continue] is the
    early return of the updated tensor. *)
Definition alloc_extend_naive_step (ps : Z) (free_pages : list Z)
    (out : list (option Z))
    (row : Z * Z * Z * (Z * Z) * (Z * Z * Z)) : res (list (option Z)) :=
  let '(pre, seq, last_loc, (start_pos, end_pos),
        (start_new_pages, end_new_pages, need_page)) := row in
  let pos_in_page := arange ps in
  let num1 := Z.min seq ((pre + ps - 1) / ps * ps) - pre in
  out ← (if num1 =? 0 then Ok out
         else assign out start_pos (start_pos + num1)
                ((λ p, last_loc + 1 + p) <$> slice_to pos_in_page num1));
  if pre + num1 =? seq then Ok out else
  let num2 := (seq / ps - (pre + ps - 1) / ps) * ps in
  out ← (if num2 =? 0 then Ok out
         else
           let pages := (λ p, p * ps) <$>
             slice free_pages start_new_pages (end_new_pages - need_page) in
           assign out (start_pos + num1) (start_pos + num1 + num2)
             (concat ((λ b, (λ p, b + p) <$> pos_in_page) <$> pages)));
  if pre + num1 + num2 =? seq then Ok out else
  let num3 := seq - seq / ps * ps in
  if num3 =? 0 then Ok out
  else
    pg ← getitem free_pages (end_new_pages - 1);
    assign out (end_pos - num3) end_pos
      ((λ p, pg * ps + p) <$> slice_to pos_in_page num3).

Definition alloc_extend_naive (prefix_lens seq_lens last_loc free_pages : list Z)
    (out_indices : list (option Z)) (ps : Z) : res (list (option Z)) :=
  let extend_lens := zip_with Z.sub seq_lens prefix_lens in
  let end_pos := cumsum extend_lens in
  let start_pos := zip_with Z.sub end_pos extend_lens in
  let num_new_pages := zip_with (λ s p, (s + ps - 1) / ps - (p + ps - 1) / ps)
                         seq_lens prefix_lens in
  let num_full_new_pages := zip_with (λ s p, s / ps - (p + ps - 1) / ps)
                              seq_lens prefix_lens in
  let need_page := zip_with Z.sub num_new_pages num_full_new_pages in
  let end_new_pages := cumsum num_new_pages in
  let start_new_pages := zip_with Z.sub end_new_pages num_new_pages in
  foldR (alloc_extend_naive_step ps free_pages) out_indices
    (zip (zip (zip (zip prefix_lens seq_lens) last_loc) (zip start_pos end_pos))
         (zip (zip start_new_pages end_new_pages) need_page)).

(** [tl.store(out + base + offset, vals(offset), mask = offset < bound)] for
    the offsets of [tl.arange(0, width)] *)
Definition masked_store (out : list (option Z)) (base width bound : Z)
    (vals : Z → option Z) : list (option Z) :=
  store out base (vals <$> range 0 (Z.min width bound)).

(** The program [pid] of the grid of [alloc_extend_kernel]. *)
Definition alloc_extend_kernel (pre_lens seq_lens last_locs free_page : list Z)
    (ps max_num_extend_tokens : Z) (pid : Z) (out : list (option Z))
    : list (option Z) :=
  let seen := Z.to_nat (pid + 1) in
  let extend_lens := take seen (zip_with Z.sub seq_lens pre_lens) in
  let seq_len := nth (Z.to_nat pid) seq_lens 0 in
  let pre_len := nth (Z.to_nat pid) pre_lens 0 in
  let extend_len := seq_len - pre_len in
  let output_start_loc := zsum extend_lens - extend_len in
  let num_new_pages :=
    take seen (zip_with (λ s p, (s + ps - 1) / ps - (p + ps - 1) / ps)
                 seq_lens pre_lens) in
  let num_page_start_loc_self := (seq_len + ps - 1) / ps - (pre_len + ps - 1) / ps in
  let new_page_start_loc := zsum num_new_pages - num_page_start_loc_self in
  (* Part 1: fill the old partial page *)
  let last_loc := nth (Z.to_nat pid) last_locs 0 in
  let num_part1 := Z.min seq_len ((pre_len + ps - 1) / ps * ps) - pre_len in
  let out := masked_store out output_start_loc ps num_part1
               (λ o, Some (last_loc + 1 + o)) in
  if pre_len + num_part1 =? seq_len then out else
  (* Part 2: fill the new full pages *)
  let num_part2 := seq_len / ps * ps - (pre_len + ps - 1) / ps * ps in
  let out := masked_store out (output_start_loc + num_part1)
               max_num_extend_tokens num_part2
               (λ o, (λ page_start, page_start * ps + o mod ps) <$>
                     free_page !! Z.to_nat (new_page_start_loc + o / ps)) in
  if pre_len + num_part1 + num_part2 =? seq_len then out else
  (* Part 3: fill the new partial page *)
  let num_part3 := seq_len - seq_len / ps * ps in
  masked_store out (output_start_loc + num_part1 + num_part2) ps num_part3
    (λ o, (λ start_loc, start_loc * ps + o) <$>
          free_page !! Z.to_nat (new_page_start_loc + num_page_start_loc_self - 1)).

(** The program [pid] of the grid of [alloc_decode_kernel]. *)
Definition alloc_decode_kernel (seq_lens last_locs free_page : list Z)
    (ps : Z) (pid : Z) (out : list (option Z)) : list (option Z) :=
  let seen := Z.to_nat (pid + 1) in
  let seq_len := nth (Z.to_nat pid) seq_lens 0 in
  let pre_len := seq_len - 1 in
  let num_new_pages :=
    take seen ((λ s, (s + ps - 1) / ps - (s - 1 + ps - 1) / ps) <$> seq_lens) in
  let num_page_start_loc_self := (seq_len + ps - 1) / ps - (pre_len + ps - 1) / ps in
  let new_page_start_loc := zsum num_new_pages - num_page_start_loc_self in
  if num_page_start_loc_self =? 0 then
    store out pid [Some (nth (Z.to_nat pid) last_locs 0 + 1)]
  else
    store out pid [(λ page, page * ps) <$> free_page !! Z.to_nat new_page_start_loc].

(** [kernel[(bs,)](...)] *)
Definition launch (bs : Z) (kernel : Z → list (option Z) → list (option Z))
    (out : list (option Z)) : list (option Z) :=
  foldl (λ out pid, kernel pid out) out (range 0 bs).

End Kernel.

(** ** PagedTokenToKVPoolAllocator *)

Module Paged.

(** [tl.core.TRITON_MAX_TENSOR_NUMEL] *)
Definition TRITON_MAX_TENSOR_NUMEL : Z := 1048576.

Definition clear (a : Allocator) : Allocator :=
  a <| free_pages := range 1 (num_pages a + 1) |>
    <| is_not_in_free_group := true |>
    <| free_group := [] |>
    <| release_pages := [] |>.

Definition init (size page_size : Z) (need_sort debug_mode : bool) : Allocator :=
  clear (mkAllocator PagedTokenToKVPoolAllocator size page_size need_sort [] [] true []
           (size / page_size) debug_mode 1).

(** The slots of a list of pages, in order. *)
Definition expand (ps : Z) (pages : list Z) : list Z :=
  concat ((λ p, (λ o, p * ps + o) <$> range 0 ps) <$> pages).

Definition alloc (need_size : Z) : M Allocator (option (list Z)) := λ a,
  if debug_mode a && negb (need_size mod page_size a =? 0)
  then (Raise AssertionError, a) else
  let num_pages := need_size / page_size a in
  let a := if need_sort a && (len (free_pages a) <? num_pages)
           then Base.merge_and_sort_free a else a in
  if len (free_pages a) <? num_pages then (Ok None, a)
  else
    let out_pages := slice_to (free_pages a) num_pages in
    (Ok (Some (expand (page_size a) out_pages)),
     a <| free_pages := slice_from (free_pages a) num_pages |>).

(** The tensor a kernel filled, when every element was written. *)
Definition initialised (out : list (option Z)) : option (list Z) := mapM id out.

Definition alloc_extend (prefix_lens prefix_lens_cpu seq_lens seq_lens_cpu last_loc : list Z)
    (extend_num_tokens : Z) : M Allocator (option (list (option Z))) := λ a,
  let ps := page_size a in
  if debug_mode a &&
     negb (forallb (λ '(l, p), (l + 1) mod ps =? p mod ps) (zip last_loc prefix_lens))
  then (Raise AssertionError, a) else
  let a := a <| seen_max_num_extend_tokens_next_power_of_2 ::=
    λ seen, Z.max seen (Z.min TRITON_MAX_TENSOR_NUMEL
                          (next_power_of_2 extend_num_tokens)) |> in
  let bs := len prefix_lens in
  let a := if need_sort a && (len (free_pages a) <? extend_num_tokens / ps + bs + 1)
           then Base.merge_and_sort_free a else a in
  let out_indices := times None extend_num_tokens in
  match
    (if extend_num_tokens <? TRITON_MAX_TENSOR_NUMEL
     then Ok (Kernel.launch bs
                (Kernel.alloc_extend_kernel prefix_lens seq_lens last_loc (free_pages a)
                   ps (seen_max_num_extend_tokens_next_power_of_2 a)) out_indices)
     else Kernel.alloc_extend_naive prefix_lens seq_lens last_loc (free_pages a)
            out_indices ps)
  with
  | Raise e => (Raise e, a)
  | Ok out_indices =>
      if debug_mode a && negb (bool_decide (NoDup out_indices))
      then (Raise AssertionError, a) else
      match get_num_new_pages seq_lens_cpu ps (Some prefix_lens_cpu) false with
      | Raise e => (Raise e, a)
      | Ok num_new_pages =>
          if len (free_pages a) <? num_new_pages then (Ok None, a)
          else (Ok (Some out_indices),
                a <| free_pages := slice_from (free_pages a) num_new_pages |>)
      end
  end.

Definition alloc_decode (seq_lens seq_lens_cpu last_loc : list Z)
    : M Allocator (option (list (option Z))) := λ a,
  let ps := page_size a in
  if debug_mode a &&
     negb (forallb (λ '(l, s), (l + 2) mod ps =? s mod ps) (zip last_loc seq_lens))
  then (Raise AssertionError, a) else
  let bs := len seq_lens in
  let a := if need_sort a && (len (free_pages a) <? bs)
           then Base.merge_and_sort_free a else a in
  let out_indices := Kernel.launch bs
    (Kernel.alloc_decode_kernel seq_lens last_loc (free_pages a) ps) (times None bs) in
  if debug_mode a && negb (bool_decide (NoDup out_indices))
  then (Raise AssertionError, a) else
  match get_num_new_pages seq_lens_cpu ps None true with
  | Raise e => (Raise e, a)
  | Ok num_new_pages =>
      if len (free_pages a) <? num_new_pages then (Ok None, a)
      else (Ok (Some out_indices),
            a <| free_pages := slice_from (free_pages a) num_new_pages |>)
  end.

Definition free (free_index : list Z) : M Allocator unit := λ a,
  if len free_index =? 0 then (Ok tt, a) else
  let a :=
    if is_not_in_free_group a then
      let free_page_indices := unique ((λ i, i / page_size a) <$> free_index) in
      if need_sort a
      then a <| release_pages := free_page_indices ++ release_pages a |>
      else a <| free_pages := free_page_indices ++ free_pages a |>
    else a <| free_group := free_group a ++ [free_index] |> in
  if debug_mode a && negb (bool_decide (NoDup (free_pages a)))
  then (Raise AssertionError, a) else (Ok tt, a).

End Paged.

(** ** The methods a client calls *)

Definition available_size (a : Allocator) : Z :=
  match cls a with
  | TokenToKVPoolAllocator => Token.available_size a
  | PagedTokenToKVPoolAllocator => Base.available_size a
  end.

Definition alloc (need_size : Z) : M Allocator (option (list Z)) := λ a,
  match cls a with
  | TokenToKVPoolAllocator => let '(o, a') := Token.alloc need_size a in (Ok o, a')
  | PagedTokenToKVPoolAllocator => Paged.alloc need_size a
  end.

Definition free (free_index : list Z) : M Allocator unit := λ a,
  match cls a with
  | TokenToKVPoolAllocator => (Ok tt, Token.free free_index a)
  | PagedTokenToKVPoolAllocator => Paged.free free_index a
  end.

Definition free_group_end : M Allocator unit := λ a,
  let a := a <| is_not_in_free_group := true |> in
  if bool_decide (free_group a = []) then (Ok tt, a)
  else free (concat (free_group a)) a.

Definition clear (a : Allocator) : Allocator :=
  match cls a with
  | TokenToKVPoolAllocator => Token.clear a
  | PagedTokenToKVPoolAllocator => Paged.clear a
  end.
