(* ===== verification/AllocatorFacts.v ===== *)
(** * Correctness of the KV-cache allocators

    - [KernelFacts]: both implementations of [alloc_extend] (the Triton
      kernel and the torch loop) and the decode kernel compute the slots
      of a per-token reference definition;
    - [PoolFacts]: slots are neither created, lost nor handed out twice. *)

From S2P Require Import Prelude Allocator.

(** ** Reference definition of an extension *)

Module KernelFacts.
Import Kernel.

(** The slot of position [t] of a request: the positions up to the next
    page boundary continue the last slot, the others go to new pages. *)
Definition slot_at (ps pre last : Z) (page : Z → Z) (t : Z) : Z :=
  if t <? ceil_align pre ps then last + 1 + (t - pre)
  else page (t / ps - ceil_div pre ps) * ps + t mod ps.

Definition row (ps pre seq last : Z) (page : Z → Z) : list Z :=
  slot_at ps pre last page <$> range pre seq.

(** The new pages of a request. *)
Definition new_pages (ps pre seq : Z) : Z := ceil_div seq ps - ceil_div pre ps.

(** The tensor for a batch: each request takes its pages from the front of
    what the previous ones left. *)
Fixpoint rows (ps : Z) (reqs : list (Z * Z * Z)) (pages : list Z) : list Z :=
  match reqs with
  | [] => []
  | (pre, seq, last) :: reqs' =>
      row ps pre seq last (λ k, nth (Z.to_nat k) pages 0) ++
      rows ps reqs' (drop (Z.to_nat (new_pages ps pre seq)) pages)
  end.

Definition total_pages (ps : Z) (reqs : list (Z * Z * Z)) : Z :=
  zsum ((λ '(pre, seq, _), new_pages ps pre seq) <$> reqs).

Definition total_tokens (reqs : list (Z * Z * Z)) : Z :=
  zsum ((λ '(pre, seq, _), seq - pre) <$> reqs).

Definition wf_reqs (reqs : list (Z * Z * Z)) : Prop :=
  Forall (λ '(pre, seq, _), 0 ≤ pre ≤ seq) reqs.

(** *** Arithmetic of pages *)

Lemma ceil_div_spec x ps : 0 < ps → 
  (ceil_div x ps - 1) * ps < x ≤ ceil_div x ps * ps.
Proof.
  intros H. unfold ceil_div.
  pose proof (Z.div_mod (x + ps - 1) ps) as E.
  pose proof (Z.mod_pos_bound (x + ps - 1) ps H). nia.
Qed.

Lemma ceil_div_mono x y ps : 0 < ps → x ≤ y → ceil_div x ps ≤ ceil_div y ps.
Proof. intros. unfold ceil_div. apply Z.div_le_mono; lia. Qed.

Lemma ceil_div_floor x ps : 0 < ps →
  ceil_div x ps = x / ps + (if x mod ps =? 0 then 0 else 1).
Proof.
  intros H. pose proof (ceil_div_spec x ps H).
  pose proof (Z.div_mod x ps). pose proof (Z.mod_pos_bound x ps H).
  destruct (Z.eqb_spec (x mod ps) 0); nia.
Qed.

Lemma new_pages_nonneg ps pre seq : 0 < ps → pre ≤ seq → 0 ≤ new_pages ps pre seq.
Proof. intros. unfold new_pages. pose proof (ceil_div_mono pre seq ps). lia. Qed.

Lemma total_pages_nonneg ps reqs : 0 < ps → wf_reqs reqs → 0 ≤ total_pages ps reqs.
Proof.
  intros H Hw. apply zsum_nonneg. apply Forall_fmap.
  eapply Forall_impl; [exact Hw|]. intros [[pre seq] l] ?. cbn in *.
  apply new_pages_nonneg; lia.
Qed.

(** *** The three parts of a row *)

Section Parts.
Context (ps pre seq last : Z) (page : Z → Z).
Context (Hps : 0 < ps) (Hpre : 0 ≤ pre ≤ seq).

Definition part1 : Z := Z.min seq (ceil_align pre ps) - pre.
Definition part2 : Z := seq / ps * ps - ceil_align pre ps.
Definition part3 : Z := seq - seq / ps * ps.

Lemma part1_bounds : 0 ≤ part1 ≤ ps ∧ part1 ≤ seq - pre.
Proof.
  unfold part1, ceil_align. pose proof (ceil_div_spec pre ps Hps). nia.
Qed.

Lemma row_part1 : pre + part1 = seq →
  row ps pre seq last page = (λ o, last + 1 + o) <$> range 0 part1.
Proof.
  intros E. unfold row. replace (range pre seq) with (range (0 + pre) (part1 + pre))
    by (f_equal; lia).
  rewrite fmap_range_shift. apply fmap_range_ext. intros x Hx. unfold slot_at.
  destruct (Z.ltb_spec (x + pre) (ceil_align pre ps)); [lia|]. unfold part1 in *. lia.
Qed.

Lemma part2_nonneg : pre + part1 ≠ seq →
  part1 = ceil_align pre ps - pre ∧ 0 ≤ part2 ∧
  part2 = (seq / ps - ceil_div pre ps) * ps.
Proof.
  intros E. unfold part1, part2, ceil_align in *.
  assert (ceil_div pre ps ≤ seq / ps) by (apply Z.div_le_lower_bound; lia).
  split; [lia|]. split; nia.
Qed.

Lemma part3_mod : part3 = seq mod ps.
Proof. unfold part3. pose proof (Z.div_mod seq ps). lia. Qed.

(** The row as the kernels write it. *)
Lemma row_parts : pre + part1 ≠ seq →
  row ps pre seq last page =
  ((λ o, last + 1 + o) <$> range 0 part1) ++
  ((λ o, page (o / ps) * ps + o mod ps) <$> range 0 part2) ++
  ((λ o, page (seq / ps - ceil_div pre ps) * ps + o) <$> range 0 part3).
Proof.
  intros E. destruct (part2_nonneg E) as (E1 & H2 & E2).
  pose proof part1_bounds as [B1 _]. pose proof part3_mod as E3.
  pose proof (Z.mod_pos_bound seq ps Hps) as B3.
  unfold row. rewrite (range_app pre (pre + part1)) by (unfold part2, part3 in *; lia).
  rewrite (range_app (pre + part1) (pre + part1 + part2)) by (unfold part2, part3 in *; lia).
  rewrite !fmap_app. f_equal; [|f_equal].
  - replace (range pre (pre + part1)) with (range (0 + pre) (part1 + pre)) by (f_equal; lia).
    rewrite fmap_range_shift. apply fmap_range_ext. intros x Hx. unfold slot_at.
    destruct (Z.ltb_spec (x + pre) (ceil_align pre ps)); lia.
  - replace (range (pre + part1) _) with (range (0 + (pre + part1)) (part2 + (pre + part1)))
      by (f_equal; lia).
    rewrite fmap_range_shift. apply fmap_range_ext. intros x Hx. unfold slot_at.
    rewrite E1. replace (x + (pre + (ceil_align pre ps - pre))) with (x + ceil_align pre ps) by lia.
    destruct (Z.ltb_spec (x + ceil_align pre ps) (ceil_align pre ps)); [lia|].
    unfold ceil_align. rewrite Z.div_add, Z.mod_add by lia. f_equal. f_equal. f_equal. lia.
  - replace (range (pre + part1 + part2) seq)
      with (range (0 + seq / ps * ps) (part3 + seq / ps * ps))
      by (unfold part2, part3 in *; f_equal; lia).
    rewrite fmap_range_shift. apply fmap_range_ext. intros x Hx. unfold slot_at.
    destruct (Z.ltb_spec (x + seq / ps * ps) (ceil_align pre ps)); [unfold part2 in *; lia|].
    rewrite Z.div_add, Z.mod_add by lia.
    rewrite (Z.div_small x), (Z.mod_small x) by lia. done.
Qed.
End Parts.

Lemma len_row ps pre seq last page : pre ≤ seq → len (row ps pre seq last page) = seq - pre.
Proof. intros. unfold row. rewrite len_fmap, len_range. lia. Qed.

(** *** Stores *)

Lemma store_mid (A B C vals : list (option Z)) start :
  start = len A → len vals = len B → store (A ++ B ++ C) start vals = A ++ vals ++ C.
Proof.
  intros -> E. unfold store, len in *. rewrite Nat2Z.id.
  rewrite take_app_length. f_equal.
  rewrite take_ge by (rewrite !length_app; lia). f_equal.
  rewrite app_assoc. rewrite drop_app_ge by (rewrite length_app; lia).
  rewrite length_app. replace (_ + _ - _)%nat with O by lia. done.
Qed.

(** A masked store overwrites the front of [B]. *)
Lemma masked_store_front (A B C : list (option Z)) base width n vals (g : Z → Z) :
  base = len A → 0 ≤ n ≤ width → n ≤ len B →
  (∀ o, 0 ≤ o < n → vals o = Some (g o)) →
  masked_store (A ++ B ++ C) base width n vals
  = (A ++ (Some <$> (g <$> range 0 n))) ++ drop (Z.to_nat n) B ++ C.
Proof.
  intros -> Hn HB Hg. unfold masked_store. rewrite Z.min_r by lia.
  rewrite <- (take_drop (Z.to_nat n) B) at 1. rewrite <- !app_assoc.
  rewrite store_mid; [|done|rewrite len_fmap, len_range, len_take; lia].
  f_equal. f_equal. rewrite <- list_fmap_compose. by apply fmap_range_ext.
Qed.

(** *** The batch as the columns the kernels read *)

Definition pres (reqs : list (Z * Z * Z)) : list Z := (λ '(p, _, _), p) <$> reqs.
Definition seqs (reqs : list (Z * Z * Z)) : list Z := (λ '(_, s, _), s) <$> reqs.
Definition lasts (reqs : list (Z * Z * Z)) : list Z := (λ '(_, _, l), l) <$> reqs.

Lemma total_tokens_app xs ys : total_tokens (xs ++ ys) = total_tokens xs + total_tokens ys.
Proof. unfold total_tokens. by rewrite fmap_app, zsum_app. Qed.

Lemma total_pages_app ps xs ys :
  total_pages ps (xs ++ ys) = total_pages ps xs + total_pages ps ys.
Proof. unfold total_pages. by rewrite fmap_app, zsum_app. Qed.

Lemma total_tokens_one p s l : total_tokens [(p, s, l)] = s - p.
Proof. unfold total_tokens. cbn. lia. Qed.

Lemma total_pages_one ps p s l : total_pages ps [(p, s, l)] = new_pages ps p s.
Proof. unfold total_pages. cbn. lia. Qed.

Lemma total_tokens_nonneg reqs : wf_reqs reqs → 0 ≤ total_tokens reqs.
Proof.
  intros Hw. apply zsum_nonneg, Forall_fmap. eapply Forall_impl; [exact Hw|].
  intros [[p s] l] ?. cbn in *. lia.
Qed.

(** What program [pid] sums over the requests before it. *)
Lemma columns_tokens done r rest :
  take (Z.to_nat (len done + 1))
    (zip_with Z.sub (seqs (done ++ r :: rest)) (pres (done ++ r :: rest)))
  = (λ '(p, s, _), s - p) <$> (done ++ [r]).
Proof.
  unfold seqs, pres. rewrite zip_with_fmap2.
  replace (Z.to_nat (len done + 1)) with (length (done ++ [r]))
    by (rewrite length_app; unfold len; cbn; lia).
  replace (done ++ r :: rest) with ((done ++ [r]) ++ rest) by (by rewrite <- app_assoc).
  rewrite fmap_app, take_app_length' by (by rewrite length_fmap).
  apply list_fmap_ext. by intros ? [[??]?] ?.
Qed.

Lemma columns_pages ps done r rest :
  take (Z.to_nat (len done + 1))
    (zip_with (λ s p, (s + ps - 1) / ps - (p + ps - 1) / ps)
       (seqs (done ++ r :: rest)) (pres (done ++ r :: rest)))
  = (λ '(p, s, _), new_pages ps p s) <$> (done ++ [r]).
Proof.
  unfold seqs, pres. rewrite zip_with_fmap2.
  replace (Z.to_nat (len done + 1)) with (length (done ++ [r]))
    by (rewrite length_app; unfold len; cbn; lia).
  replace (done ++ r :: rest) with ((done ++ [r]) ++ rest) by (by rewrite <- app_assoc).
  rewrite fmap_app, take_app_length' by (by rewrite length_fmap).
  apply list_fmap_ext. by intros ? [[??]?] ?.
Qed.

Lemma nth_middle_fmap {A} (f : A → Z) done r rest d :
  nth (Z.to_nat (len done)) (f <$> (done ++ r :: rest)) d = f r.
Proof.
  unfold len. rewrite Nat2Z.id, fmap_app.
  rewrite app_nth2 by (rewrite length_fmap; lia).
  rewrite length_fmap. by replace (_ - _)%nat with O by lia.
Qed.

Lemma lookup_pages (pages : list Z) i k :
  0 ≤ i → 0 ≤ k → i + k < len pages →
  pages !! Z.to_nat (i + k) = Some (nth (Z.to_nat k) (drop (Z.to_nat i) pages) 0).
Proof.
  intros Hi Hk Hl. replace (Z.to_nat (i + k)) with (Z.to_nat i + Z.to_nat k)%nat by lia.
  rewrite <- lookup_drop. destruct (lookup_lt_is_Some_2 (drop (Z.to_nat i) pages) (Z.to_nat k)) as [x E].
  { rewrite length_drop. unfold len in Hl. lia. }
  rewrite E. f_equal. symmetry. by apply nth_lookup_Some.
Qed.

Section ExtendKernel.
Context (ps maxn : Z) (pages : list Z) (Hps : 0 < ps).

(** The program of one request, with the sums over the requests before it
    evaluated. *)
Lemma extend_kernel_program done pre seq last rest out :
  let reqs := done ++ (pre, seq, last) :: rest in
  alloc_extend_kernel (pres reqs) (seqs reqs) (lasts reqs) pages ps maxn (len done) out =
  let start := total_tokens done in
  let page := total_pages ps done in
  let out := masked_store out start ps (part1 ps pre seq) (λ o, Some (last + 1 + o)) in
  if pre + part1 ps pre seq =? seq then out else
  let out := masked_store out (start + part1 ps pre seq) maxn (part2 ps pre seq)
               (λ o, (λ p, p * ps + o mod ps) <$> pages !! Z.to_nat (page + o / ps)) in
  if pre + part1 ps pre seq + part2 ps pre seq =? seq then out else
  masked_store out (start + part1 ps pre seq + part2 ps pre seq) ps (part3 ps seq)
    (λ o, (λ p, p * ps + o) <$> pages !! Z.to_nat (page + new_pages ps pre seq - 1)).
Proof.
  cbv zeta. unfold alloc_extend_kernel. rewrite columns_tokens, columns_pages.
  unfold seqs, pres, lasts. rewrite !nth_middle_fmap. cbv zeta.
  rewrite !fmap_app, !zsum_app. cbn [fmap list_fmap zsum foldr].
  change (zsum ((λ '(p, s, _), s - p) <$> done)) with (total_tokens done).
  change (zsum ((λ '(p, s, _), new_pages ps p s) <$> done)) with (total_pages ps done).
  change ((pre + ps - 1) / ps) with (ceil_div pre ps).
  change ((seq + ps - 1) / ps) with (ceil_div seq ps).
  change (ceil_div seq ps - ceil_div pre ps) with (new_pages ps pre seq).
  replace (total_tokens done + (seq - pre + 0) - (seq - pre)) with (total_tokens done) by lia.
  replace (total_pages ps done + (new_pages ps pre seq + 0) - new_pages ps pre seq)
    with (total_pages ps done) by lia.
  reflexivity.
Qed.

Lemma extend_kernel_step done pre seq last rest (A B C : list (option Z)) :
  wf_reqs (done ++ (pre, seq, last) :: rest) →
  total_pages ps done + new_pages ps pre seq ≤ len pages →
  seq - pre ≤ maxn →
  len A = total_tokens done → len B = seq - pre →
  let reqs := done ++ (pre, seq, last) :: rest in
  alloc_extend_kernel (pres reqs) (seqs reqs) (lasts reqs) pages ps maxn (len done) (A ++ B ++ C)
  = A ++ (Some <$> row ps pre seq last
            (λ k, nth (Z.to_nat k) (drop (Z.to_nat (total_pages ps done)) pages) 0)) ++ C.
Proof.
  intros Hw Hp Hm HA HB reqs. subst reqs. rewrite extend_kernel_program. cbv zeta.
  assert (Hr : 0 ≤ pre ≤ seq).
  { apply Forall_app in Hw as [_ Hw]. by inversion Hw. }
  assert (Hd : 0 ≤ total_pages ps done).
  { apply total_pages_nonneg; [done|]. by apply Forall_app in Hw as [??]. }
  destruct (part1_bounds ps pre seq Hps Hr) as [B1 B1'].
  set (pg := λ k, nth (Z.to_nat k) (drop (Z.to_nat (total_pages ps done)) pages) 0).
  rewrite (masked_store_front A B C) with (g := λ o, last + 1 + o); [|lia..|done].
  destruct (Z.eqb_spec (pre + part1 ps pre seq) seq) as [E|E].
  { rewrite (row_part1 ps pre seq last pg E), <- app_assoc.
    by rewrite drop_ge by (unfold len in *; lia). }
  destruct (part2_nonneg ps pre seq Hps E) as (E1 & H2 & E2).
  pose proof (part3_mod ps seq Hps) as E3. pose proof (Z.mod_pos_bound seq ps Hps).
  rewrite (row_parts ps pre seq last pg Hps Hr E), !fmap_app.
  set (v1 := Some <$> ((λ o, last + 1 + o) <$> range 0 (part1 ps pre seq))).
  assert (Hs : seq - pre = part1 ps pre seq + part2 ps pre seq + part3 ps seq)
    by (unfold part2, part3; lia).
  assert (H1 : len v1 = part1 ps pre seq) by (subst v1; rewrite !len_fmap, len_range; lia).
  pose proof (ceil_div_floor seq ps Hps) as Hc.
  rewrite (masked_store_front (A ++ v1)) with (g := λ o, pg (o / ps) * ps + o mod ps);
    [|rewrite len_app; lia|lia|rewrite len_drop; lia|].
  2:{ intros o Ho. rewrite lookup_pages; [done|done|apply Z.div_pos; lia|].
      assert (o / ps < seq / ps - ceil_div pre ps) by (apply Z.div_lt_upper_bound; lia).
      unfold new_pages in Hp. destruct (seq mod ps =? 0); lia. }
  set (v2 := Some <$> ((λ o, pg (o / ps) * ps + o mod ps) <$> range 0 (part2 ps pre seq))).
  assert (H2' : len v2 = part2 ps pre seq) by (subst v2; rewrite !len_fmap, len_range; lia).
  destruct (Z.eqb_spec (pre + part1 ps pre seq + part2 ps pre seq) seq) as [E'|E'].
  { rewrite (range_nil 0 (part3 ps seq)) by lia. cbn [fmap list_fmap].
    rewrite app_nil_r, <- !app_assoc, drop_drop. rewrite drop_ge; [done|].
    unfold len in *. lia. }
  rewrite (masked_store_front ((A ++ v1) ++ v2))
    with (g := λ o, pg (seq / ps - ceil_div pre ps) * ps + o);
    [|rewrite !len_app; lia|lia|rewrite !len_drop; lia|].
  2:{ intros o Ho. unfold new_pages in *.
      destruct (Z.eqb_spec (seq mod ps) 0); [lia|].
      assert (0 ≤ seq / ps - ceil_div pre ps) by nia.
      replace (total_pages ps done + (ceil_div seq ps - ceil_div pre ps) - 1)
        with (total_pages ps done + (seq / ps - ceil_div pre ps)) by lia.
      rewrite lookup_pages; [done|lia..]. }
  rewrite <- !app_assoc, !drop_drop. rewrite drop_ge; [done|]. unfold len in *. lia.
Qed.

Lemma len_rows reqs pgs : wf_reqs reqs → len (rows ps reqs pgs) = total_tokens reqs.
Proof.
  revert pgs. induction reqs as [|[[p s] l] reqs IH]; intros pgs Hw; [done|].
  inversion Hw; subst. cbn [rows]. rewrite len_app, IH by done.
  rewrite len_row by lia. change ((p, s, l) :: reqs) with ([(p, s, l)] ++ reqs).
  by rewrite total_tokens_app, total_tokens_one.
Qed.

Lemma extend_kernel_launch rest done (A B : list (option Z)) :
  let reqs := done ++ rest in
  wf_reqs reqs → total_pages ps reqs ≤ len pages → total_tokens rest ≤ maxn →
  len A = total_tokens done → len B = total_tokens rest →
  foldl (λ out pid, alloc_extend_kernel (pres reqs) (seqs reqs) (lasts reqs) pages ps maxn pid out)
    (A ++ B) (range (len done) (len reqs))
  = A ++ (Some <$> rows ps rest (drop (Z.to_nat (total_pages ps done)) pages)).
Proof.
  cbv zeta. revert done A B. induction rest as [|[[pre seq] last] rest IH];
    intros done A B Hw Hp Hm HA HB.
  { rewrite app_nil_r, range_nil by lia. by rewrite (len_zero B). }
  assert (Hw' := Hw). apply Forall_app in Hw' as [Hwd Hwr].
  assert (Hr : 0 ≤ pre ≤ seq) by (by inversion Hwr).
  assert (Hwr' : wf_reqs rest) by (by inversion Hwr).
  change ((pre, seq, last) :: rest) with ([(pre, seq, last)] ++ rest) in Hp, Hm, HB.
  rewrite !total_pages_app, total_pages_one in Hp.
  rewrite total_tokens_app, total_tokens_one in Hm, HB.
  pose proof (total_tokens_nonneg rest Hwr'). pose proof (total_pages_nonneg ps rest Hps Hwr').
  rewrite range_cons; [|rewrite len_app, len_cons; pose proof (len_nonneg rest); lia].
  cbn [foldl]. rewrite <- (take_drop (Z.to_nat (seq - pre)) B).
  rewrite extend_kernel_step; [|done|lia|lia|done|rewrite len_take; lia].
  replace (len done + 1) with (len (done ++ [(pre, seq, last)]))
    by llia.
  replace (done ++ (pre, seq, last) :: rest) with ((done ++ [(pre, seq, last)]) ++ rest)
    by (by rewrite <- app_assoc).
  rewrite app_assoc. rewrite IH; first last.
  - rewrite len_drop. lia.
  - rewrite len_app, len_fmap, len_row, total_tokens_app, total_tokens_one by lia. lia.
  - lia.
  - rewrite !total_pages_app, total_pages_one. lia.
  - by rewrite <- app_assoc.
  - rewrite <- app_assoc. f_equal. cbn [rows]. rewrite fmap_app. f_equal. f_equal.
    rewrite drop_drop, total_pages_app, total_pages_one. f_equal.
    pose proof (total_pages_nonneg ps done Hps Hwd).
    pose proof (new_pages_nonneg ps pre seq Hps). rewrite Z2Nat.inj_add by lia. done.
Qed.
End ExtendKernel.

(** *** The torch loop *)

Lemma assign_front (A B C : list (option Z)) i j vals :
  i = len A → j = i + len vals → len vals ≤ len B →
  assign (A ++ B ++ C) i j vals
  = Ok ((A ++ (Some <$> vals)) ++ drop (length vals) B ++ C).
Proof.
  intros -> -> HB.
  assert (HT : len (take (length vals) B) = len vals)
    by (rewrite len_take; unfold len in *; lia).
  pose proof (eq_sym (take_drop (length vals) B)) as EB. revert HT EB.
  generalize (take (length vals) B) as T, (drop (length vals) B) as D. intros T D HT ->.
  unfold assign. rewrite <- !app_assoc. rewrite slice_app by lia.
  cbv zeta. rewrite HT, Z.eqb_refl, store_mid; [done|done|]. by rewrite len_fmap.
Qed.

Lemma slice_to_range n m : 0 ≤ n ≤ m → slice_to (range 0 m) n = range 0 n.
Proof.
  intros H. rewrite slice_to_take by lia. rewrite (range_app 0 n m) by lia.
  rewrite take_app_length'; [done|]. pose proof (len_range 0 n). unfold len in *. lia.
Qed.

Lemma slice_as_nth (pages : list Z) i n :
  0 ≤ i → 0 ≤ n → i + n ≤ len pages →
  slice pages i (i + n) = (λ k, nth (Z.to_nat k) (drop (Z.to_nat i) pages) 0) <$> range 0 n.
Proof.
  intros Hi Hn Hl. rewrite slice_nonneg by lia.
  replace (Z.to_nat (i + n) - Z.to_nat i)%nat with (Z.to_nat n) by lia.
  apply list_eq. intros k. destruct (decide (k < Z.to_nat n)%nat) as [Hk|Hk].
  - rewrite lookup_take_lt by lia. rewrite list_lookup_fmap. unfold range.
    rewrite lookup_seqZ_lt by lia. cbn [fmap option_fmap option_map].
    rewrite lookup_drop. replace (Z.to_nat i + k)%nat with (Z.to_nat (i + Z.of_nat k)) by lia.
    rewrite lookup_pages by lia. by rewrite Z.add_0_l.
  - rewrite lookup_take_ge by lia. symmetry. apply lookup_ge_None.
    rewrite length_fmap. unfold range. rewrite length_seqZ. lia.
Qed.

Section ExtendNaive.
Context (ps : Z) (pages : list Z) (Hps : 0 < ps).

(** The rest of the partial page. *)
Lemma naive_part1 pre seq last (A B C : list (option Z)) :
  0 ≤ pre ≤ seq → len B = seq - pre →
  let v1 := (λ o, last + 1 + o) <$> range 0 (part1 ps pre seq) in
  len v1 = part1 ps pre seq ∧
  (if part1 ps pre seq =? 0 then Ok (A ++ B ++ C)
   else assign (A ++ B ++ C) (len A) (len A + part1 ps pre seq)
          ((λ p, last + 1 + p) <$> slice_to (arange ps) (part1 ps pre seq)))
  = Ok ((A ++ (Some <$> v1)) ++ drop (length v1) B ++ C).
Proof using Hps.
  intros Hr HB v1. destruct (part1_bounds ps pre seq Hps Hr) as [B1 B1'].
  assert (H1 : len v1 = part1 ps pre seq) by (subst v1; llia). split; [done|].
  unfold arange. rewrite slice_to_range by lia.
  change ((λ p, last + 1 + p) <$> range 0 (part1 ps pre seq)) with v1.
  destruct (Z.eqb_spec (part1 ps pre seq) 0) as [Z0|?].
  - rewrite (len_zero v1) by lia. cbn. by rewrite app_nil_r.
  - rewrite assign_front; [done|done|lia|lia].
Qed.

(** The pages that are filled. *)
Lemma naive_part2 pre seq pacc i (pg : Z → Z) (A B C : list (option Z)) :
  let v2 := (λ o, pg (o / ps) * ps + o mod ps) <$> range 0 (part2 ps pre seq) in
  (∀ n, 0 ≤ n → pacc + n ≤ len pages → slice pages pacc (pacc + n) = pg <$> range 0 n) →
  pacc + new_pages ps pre seq ≤ len pages → 0 ≤ part2 ps pre seq →
  part2 ps pre seq = (seq / ps - ceil_div pre ps) * ps → part2 ps pre seq ≤ len B → i = len A →
  len v2 = part2 ps pre seq ∧
  (if part2 ps pre seq =? 0 then Ok (A ++ B ++ C)
   else
     let pages' := (λ p, p * ps) <$> slice pages pacc (pacc + new_pages ps pre seq -
                     (new_pages ps pre seq - (seq / ps - ceil_div pre ps))) in
     assign (A ++ B ++ C) i (i + part2 ps pre seq) (concat ((λ b, (λ p, b + p) <$> arange ps) <$> pages')))
  = Ok ((A ++ (Some <$> v2)) ++ drop (length v2) B ++ C).
Proof using Hps.
  intros v2 Hpg Hp H2 E2 HB ->. assert (Hv2 : len v2 = part2 ps pre seq) by (subst v2; llia). split; [done|].
  destruct (Z.eqb_spec (part2 ps pre seq) 0) as [Z0|?].
  { rewrite (len_zero v2) by lia. cbn. by rewrite app_nil_r. }
  cbv zeta. pose proof (ceil_div_floor seq ps Hps) as Hc. assert (0 ≤ seq / ps - ceil_div pre ps) by nia.
  assert (Hfull : seq / ps - ceil_div pre ps ≤ new_pages ps pre seq)
    by (unfold new_pages; destruct (seq mod ps =? 0); lia).
  replace (pacc + new_pages ps pre seq - (new_pages ps pre seq - (seq / ps - ceil_div pre ps)))
    with (pacc + (seq / ps - ceil_div pre ps)) by lia.
  rewrite Hpg by lia. replace (concat _) with v2; first last.
  { subst v2. rewrite E2, <- concat_pages by lia. f_equal.
    rewrite <- !list_fmap_compose. apply list_fmap_ext. intros ? k _. cbn.
    apply fmap_range_ext. intros o Ho.
    rewrite Z.div_add_l, Z.div_small, Z.add_0_r by lia. f_equal.
    rewrite Z.add_comm, Z.mod_add, Z.mod_small by lia. done. }
  rewrite assign_front; [done|done|lia|lia].
Qed.

Lemma extend_naive_step pre seq last tacc pacc (A B C : list (option Z)) :
  0 ≤ pre ≤ seq → 0 ≤ pacc → pacc + new_pages ps pre seq ≤ len pages →
  len A = tacc → len B = seq - pre →
  alloc_extend_naive_step ps pages (A ++ B ++ C)
    (pre, seq, last, (tacc, tacc + (seq - pre)),
     (pacc, pacc + new_pages ps pre seq,
      new_pages ps pre seq - (seq / ps - ceil_div pre ps)))
  = Ok (A ++ (Some <$> row ps pre seq last
                (λ k, nth (Z.to_nat k) (drop (Z.to_nat pacc) pages) 0)) ++ C).
Proof.
  intros Hr Hpa Hp <- HB. unfold alloc_extend_naive_step. cbv zeta.
  change ((pre + ps - 1) / ps) with (ceil_div pre ps).
  change (ceil_div pre ps * ps) with (ceil_align pre ps).
  change (Z.min seq (ceil_align pre ps) - pre) with (part1 ps pre seq).
  change (seq - seq / ps * ps) with (part3 ps seq).
  set (pg := λ k, nth (Z.to_nat k) (drop (Z.to_nat pacc) pages) 0).
  destruct (part1_bounds ps pre seq Hps Hr) as [B1 B1'].
  destruct (naive_part1 pre seq last A B C Hr HB) as [H1 S1]. rewrite S1. cbn [mbind res_bind]. clear S1.
  set (v1 := (λ o, last + 1 + o) <$> range 0 (part1 ps pre seq)) in *.
  destruct (Z.eqb_spec (pre + part1 ps pre seq) seq) as [E|E].
  { rewrite (row_part1 ps pre seq last pg E), <- app_assoc. fold v1.
    by rewrite drop_ge by (unfold len in *; lia). }
  destruct (part2_nonneg ps pre seq Hps E) as (E1 & H2 & E2). rewrite <- E2.
  pose proof (part3_mod ps seq Hps) as E3. pose proof (Z.mod_pos_bound seq ps Hps) as B3.
  rewrite (row_parts ps pre seq last pg Hps Hr E), !fmap_app. fold v1.
  assert (Hs : seq - pre = part1 ps pre seq + part2 ps pre seq + part3 ps seq)
    by (unfold part2, part3; lia).
  pose proof (ceil_div_floor seq ps Hps) as Hc.
  destruct (naive_part2 pre seq pacc (len A + part1 ps pre seq) pg (A ++ (Some <$> v1)) (drop (length v1) B) C)
    as [Hv2 S2]; [intros; by apply slice_as_nth|done|done|done|rewrite len_drop; unfold len in *; lia|llia|].
  cbv zeta in S2. rewrite S2. cbn [mbind res_bind]. clear S2.
  set (v2 := (λ o, pg (o / ps) * ps + o mod ps) <$> range 0 (part2 ps pre seq)) in *.
  destruct (Z.eqb_spec (pre + part1 ps pre seq + part2 ps pre seq) seq) as [E'|E'].
  { rewrite (range_nil 0 (part3 ps seq)) by lia. cbn [fmap list_fmap].
    rewrite app_nil_r, <- !app_assoc, drop_drop. rewrite drop_ge; [done|]. unfold len in *. lia. }
  destruct (Z.eqb_spec (part3 ps seq) 0); [lia|]. destruct (Z.eqb_spec (seq mod ps) 0); [lia|].
  assert (0 ≤ seq / ps - ceil_div pre ps) by nia.
  rewrite (getitem_nth _ _ (pg (seq / ps - ceil_div pre ps))); first last.
  { unfold new_pages in *. replace (pacc + _ - 1) with (pacc + (seq / ps - ceil_div pre ps)) by lia.
    rewrite lookup_pages; [done|lia..]. }
  { unfold new_pages in *. lia. }
  cbn [mbind res_bind]. unfold arange. rewrite slice_to_range by lia.
  rewrite assign_front; first last.
  - rewrite !len_drop, len_fmap, len_range. unfold len in *. lia.
  - rewrite len_fmap, len_range. lia.
  - rewrite !len_app, !len_fmap. lia.
  - rewrite <- !app_assoc, !drop_drop, length_fmap. rewrite (drop_ge B); [done|].
    pose proof (len_range 0 (part3 ps seq)). unfold len in *. lia.
Qed.

(** The rows of the zipped columns, from the running sums of the requests
    before them. *)
Fixpoint naive_rows (reqs : list (Z * Z * Z)) (tacc pacc : Z) :=
  match reqs with
  | [] => []
  | (pre, seq, last) :: reqs' =>
      (pre, seq, last, (tacc, tacc + (seq - pre)),
       (pacc, pacc + new_pages ps pre seq,
        new_pages ps pre seq - (seq / ps - ceil_div pre ps)))
      :: naive_rows reqs' (tacc + (seq - pre)) (pacc + new_pages ps pre seq)
  end.

Lemma naive_columns reqs tacc pacc :
  let ext := zip_with Z.sub (seqs reqs) (pres reqs) in
  let new := zip_with (λ s p, (s + ps - 1) / ps - (p + ps - 1) / ps) (seqs reqs) (pres reqs) in
  let full := zip_with (λ s p, s / ps - (p + ps - 1) / ps) (seqs reqs) (pres reqs) in
  zip (zip (zip (zip (pres reqs) (seqs reqs)) (lasts reqs))
         (zip (zip_with Z.sub (cumsum_from tacc ext) ext) (cumsum_from tacc ext)))
      (zip (zip (zip_with Z.sub (cumsum_from pacc new) new) (cumsum_from pacc new))
         (zip_with Z.sub new full))
  = naive_rows reqs tacc pacc.
Proof.
  cbv zeta. revert tacc pacc. induction reqs as [|[[pre seq] last] reqs IH]; intros tacc pacc; [done|].
  cbn [pres seqs lasts fmap list_fmap zip_with cumsum_from naive_rows]. f_equal.
  - unfold new_pages, ceil_div. repeat f_equal; lia.
  - apply IH.
Qed.

Lemma extend_naive_rows rest tacc pacc (A B : list (option Z)) :
  wf_reqs rest → 0 ≤ pacc → pacc + total_pages ps rest ≤ len pages →
  len A = tacc → len B = total_tokens rest →
  foldR (alloc_extend_naive_step ps pages) (A ++ B) (naive_rows rest tacc pacc)
  = Ok (A ++ (Some <$> rows ps rest (drop (Z.to_nat pacc) pages))).
Proof.
  revert tacc pacc A B. induction rest as [|[[pre seq] last] rest IH];
    intros tacc pacc A B Hw Hpa Hp HA HB.
  { cbn. by rewrite (len_zero B). }
  inversion Hw as [|? ? Hr Hwr]; subst.
  change ((pre, seq, last) :: rest) with ([(pre, seq, last)] ++ rest) in Hp, HB.
  rewrite total_pages_app, total_pages_one in Hp.
  rewrite total_tokens_app, total_tokens_one in HB.
  pose proof (total_tokens_nonneg rest Hwr). pose proof (total_pages_nonneg ps rest Hps Hwr).
  pose proof (new_pages_nonneg ps pre seq Hps).
  cbn [naive_rows foldR]. rewrite <- (take_drop (Z.to_nat (seq - pre)) B).
  rewrite extend_naive_step; [|done|done|lia|done|rewrite len_take; lia].
  rewrite app_assoc, IH; [|done|lia|lia| |rewrite len_drop; lia].
  - rewrite <- app_assoc. cbn [rows]. rewrite fmap_app, drop_drop.
    rewrite Z2Nat.inj_add by lia. done.
  - rewrite len_app, len_fmap, len_row; lia.
Qed.
End ExtendNaive.

(** Both implementations of [alloc_extend] fill the output with the
    reference rows. *)
Lemma extend_naive_correct ps pages reqs :
  0 < ps → wf_reqs reqs → total_pages ps reqs ≤ len pages →
  alloc_extend_naive (pres reqs) (seqs reqs) (lasts reqs) pages
    (times None (total_tokens reqs)) ps
  = Ok (Some <$> rows ps reqs pages).
Proof.
  intros Hps Hw Hp. pose proof (total_tokens_nonneg reqs Hw).
  unfold alloc_extend_naive, cumsum. rewrite naive_columns.
  pose proof (extend_naive_rows ps pages Hps reqs 0 0 [] (times None (total_tokens reqs))) as E.
  cbn [app] in E. apply E; [done|lia|lia|done|]. rewrite len_times. lia.
Qed.

Lemma extend_kernel_correct ps maxn pages reqs :
  0 < ps → wf_reqs reqs → total_pages ps reqs ≤ len pages → total_tokens reqs ≤ maxn →
  launch (len (pres reqs))
    (alloc_extend_kernel (pres reqs) (seqs reqs) (lasts reqs) pages ps maxn)
    (times None (total_tokens reqs))
  = Some <$> rows ps reqs pages.
Proof.
  intros Hps Hw Hp Hm. pose proof (total_tokens_nonneg reqs Hw). unfold launch.
  replace (len (pres reqs)) with (len reqs) by (unfold pres; by rewrite len_fmap).
  pose proof (extend_kernel_launch ps maxn pages Hps reqs [] [] (times None (total_tokens reqs)))
    as E. cbv zeta in E. cbn [app] in E.
  apply E; [done..|]. rewrite len_times. lia.
Qed.

(** *** The decode kernel *)

(** The slot of the next token of each request. *)
Fixpoint decode_rows (ps : Z) (reqs : list (Z * Z)) (pages : list Z) : list Z :=
  match reqs with
  | [] => []
  | (seq, last) :: reqs' =>
      if seq mod ps =? 1
      then nth 0 pages 0 * ps :: decode_rows ps reqs' (drop 1 pages)
      else (last + 1) :: decode_rows ps reqs' pages
  end.

Definition decode_pages (ps : Z) (reqs : list (Z * Z)) : Z :=
  len (filter (λ s, s mod ps = 1) reqs.*1).

Lemma decode_new_page ps seq : 1 < ps → 1 ≤ seq →
  (seq + ps - 1) / ps - (seq - 1 + ps - 1) / ps = if seq mod ps =? 1 then 1 else 0.
Proof.
  intros Hps Hs.
  pose proof (ceil_div_floor seq ps) as H1. pose proof (ceil_div_floor (seq - 1) ps) as H2.
  unfold ceil_div in *. rewrite H1, H2 by lia. clear H1 H2.
  pose proof (Z.div_mod seq ps). pose proof (Z.mod_pos_bound seq ps).
  destruct (Z.eqb_spec (seq mod ps) 0) as [E|E].
  - assert (Eq : seq - 1 = ps * (seq / ps - 1) + (ps - 1)) by lia.
    rewrite <- (Z.div_unique (seq - 1) ps (seq / ps - 1) (ps - 1)) by lia.
    rewrite <- (Z.mod_unique (seq - 1) ps (seq / ps - 1) (ps - 1)) by lia.
    destruct (Z.eqb_spec (ps - 1) 0), (Z.eqb_spec (seq mod ps) 1); lia.
  - rewrite <- (Z.div_unique (seq - 1) ps (seq / ps) (seq mod ps - 1)) by lia.
    rewrite <- (Z.mod_unique (seq - 1) ps (seq / ps) (seq mod ps - 1)) by lia.
    destruct (Z.eqb_spec (seq mod ps - 1) 0), (Z.eqb_spec (seq mod ps) 1); lia.
Qed.

Lemma decode_pages_cons ps seq last reqs :
  decode_pages ps ((seq, last) :: reqs)
  = (if seq mod ps =? 1 then 1 else 0) + decode_pages ps reqs.
Proof.
  unfold decode_pages. cbn [fmap list_fmap fst]. rewrite filter_cons.
  destruct (Z.eqb_spec (seq mod ps) 1), (decide (seq mod ps = 1)); [llia|done|done|lia].
Qed.

Lemma decode_pages_app ps xs ys :
  decode_pages ps (xs ++ ys) = decode_pages ps xs + decode_pages ps ys.
Proof. unfold decode_pages. by rewrite fmap_app, filter_app, len_app. Qed.

Lemma decode_pages_sum ps reqs : 1 < ps → Forall (λ r, 1 ≤ r.1) reqs →
  zsum ((λ s, (s + ps - 1) / ps - (s - 1 + ps - 1) / ps) <$> reqs.*1) = decode_pages ps reqs.
Proof.
  intros Hps. induction 1 as [|[seq last] reqs Hr Hw IH]; [done|].
  rewrite decode_pages_cons, <- IH, <- decode_new_page by (cbn in Hr; lia). done.
Qed.

Section DecodeKernel.
Context (ps : Z) (pages : list Z) (Hps : 1 < ps).

Lemma decode_kernel_launch rest done (A B : list (option Z)) :
  let reqs := done ++ rest in
  Forall (λ r, 1 ≤ r.1) reqs → decode_pages ps reqs ≤ len pages →
  len A = len done → len B = len rest →
  foldl (λ out pid, alloc_decode_kernel reqs.*1 reqs.*2 pages ps pid out)
    (A ++ B) (range (len done) (len reqs))
  = A ++ (Some <$> decode_rows ps rest (drop (Z.to_nat (decode_pages ps done)) pages)).
Proof.
  cbv zeta. revert done A B. induction rest as [|[seq last] rest IH];
    intros done A B Hw Hp HA HB.
  { rewrite app_nil_r, range_nil by lia. by rewrite (len_zero B). }
  assert (Hw' := Hw). apply Forall_app in Hw' as [Hwd Hwr].
  assert (Hs : 1 ≤ seq) by (by inversion Hwr).
  rewrite range_cons by llia. cbn [foldl].
  destruct B as [|b B]; [exfalso; llia|].
  assert (Hstep : alloc_decode_kernel (done ++ (seq, last) :: rest).*1
      (done ++ (seq, last) :: rest).*2 pages ps (len done) (A ++ b :: B)
    = (A ++ [Some (if seq mod ps =? 1
             then nth 0 (drop (Z.to_nat (decode_pages ps done)) pages) 0 * ps
             else last + 1)]) ++ B).
  { unfold alloc_decode_kernel. rewrite !nth_middle_fmap. cbn [fst snd].
    rewrite <- list_fmap_compose.
    replace (Z.to_nat (len done + 1)) with (length (done ++ [(seq, last)]))
      by (rewrite length_app; unfold len; cbn; lia).
    replace (done ++ (seq, last) :: rest) with ((done ++ [(seq, last)]) ++ rest)
      by (by rewrite <- app_assoc).
    rewrite fmap_app, take_app_length' by (by rewrite length_fmap).
    rewrite list_fmap_compose, decode_pages_sum; [|done|].
    2:{ apply Forall_app; split; [done|]. repeat constructor; done. }
    cbv zeta. rewrite decode_new_page by lia. rewrite decode_pages_app, decode_pages_cons in *.
    change (decode_pages ps []) with 0 in *.
    change (A ++ b :: B) with (A ++ [b] ++ B).
    pose proof (len_nonneg (filter (λ s, s mod ps = 1) rest.*1)).
    pose proof (len_nonneg (filter (λ s, s mod ps = 1) done.*1)).
    unfold decode_pages in *.
    destruct (Z.eqb_spec (seq mod ps) 1) as [E|E]; cbn [Z.eqb].
    - rewrite store_mid; [|done|done]. rewrite <- app_assoc. do 3 f_equal.
      replace (_ + (1 + 0) - 1) with (len (filter (λ s, s mod ps = 1) done.*1) + 0) by lia.
      rewrite lookup_pages by lia. done.
    - rewrite store_mid; [|done|done]. by rewrite <- app_assoc. }
  rewrite Hstep. clear Hstep.
  replace (len done + 1) with (len (done ++ [(seq, last)])) by llia.
  replace (done ++ (seq, last) :: rest) with ((done ++ [(seq, last)]) ++ rest) in *
    by (by rewrite <- app_assoc).
  rewrite IH; [|done|done|llia|llia].
  rewrite <- app_assoc. f_equal. cbn [decode_rows].
  rewrite decode_pages_app, decode_pages_cons. change (decode_pages ps []) with 0.
  pose proof (len_nonneg (filter (λ s, s mod ps = 1) done.*1)). unfold decode_pages.
  destruct (seq mod ps =? 1); cbn [fmap list_fmap app]; f_equal; f_equal; f_equal.
  - rewrite drop_drop. f_equal. lia.
  - f_equal. lia.
Qed.
End DecodeKernel.

Lemma decode_kernel_correct ps pages reqs :
  1 < ps → Forall (λ r, 1 ≤ r.1) reqs → decode_pages ps reqs ≤ len pages →
  launch (len reqs.*1) (alloc_decode_kernel reqs.*1 reqs.*2 pages ps)
    (times None (len reqs.*1))
  = Some <$> decode_rows ps reqs pages.
Proof.
  intros Hps Hw Hp. unfold launch. rewrite len_fmap.
  pose proof (decode_kernel_launch ps pages Hps reqs [] [] (times None (len reqs))) as E.
  cbv zeta in E. cbn [app] in E. apply E; [done..|]. llia.
Qed.

End KernelFacts.

(** ** The pool of pages *)

Module PoolFacts.

(** Pages that are not handed out and not waiting in a free group. *)
Definition pool (a : Allocator) : list Z := free_pages a ++ release_pages a.

Definition capacity (a : Allocator) : Z :=
  match cls a with
  | TokenToKVPoolAllocator => size a
  | PagedTokenToKVPoolAllocator => num_pages a
  end.

Record wf (a : Allocator) : Prop := {
  wf_page_size : 1 ≤ page_size a;
  wf_token : cls a = TokenToKVPoolAllocator → page_size a = 1;
  wf_release : need_sort a = false → release_pages a = [];
  wf_nodup : NoDup (pool a);
  wf_range : Forall (λ p, 1 ≤ p ≤ capacity a) (pool a)
}.

(** *** Pages and their slots *)

#[local] Abbreviation expand := Paged.expand (only parsing).

Lemma elem_of_expand ps pages x :
  0 < ps → x ∈ expand ps pages ↔ x / ps ∈ pages.
Proof.
  intros Hps. unfold Paged.expand. rewrite list_elem_of_In, in_concat. split.
  - intros (xs & (p & -> & Hp)%list_elem_of_In%list_elem_of_fmap & (o & -> & Ho)%list_elem_of_In%list_elem_of_fmap).
    apply elem_of_range in Ho. rewrite Z.div_add_l, Z.div_small, Z.add_0_r by lia. done.
  - intros Hx. exists ((λ o, x / ps * ps + o) <$> range 0 ps). split.
    + apply list_elem_of_In, list_elem_of_fmap. by exists (x / ps).
    + apply list_elem_of_In, list_elem_of_fmap. exists (x mod ps).
      rewrite elem_of_range. pose proof (Z.div_mod x ps). pose proof (Z.mod_pos_bound x ps). lia.
Qed.

Lemma expand_app ps xs ys : expand ps (xs ++ ys) = expand ps xs ++ expand ps ys.
Proof. unfold Paged.expand. by rewrite fmap_app, concat_app. Qed.

Lemma expand_cons ps x xs :
  expand ps (x :: xs) = ((λ o, x * ps + o) <$> range 0 ps) ++ expand ps xs.
Proof. done. Qed.

Lemma len_expand ps pages : 0 ≤ ps → len (expand ps pages) = len pages * ps.
Proof.
  intros Hps. induction pages as [|p pages IH]; [done|].
  rewrite expand_cons, len_app, IH. llia.
Qed.

Lemma NoDup_expand ps pages : 0 < ps → NoDup pages → NoDup (expand ps pages).
Proof.
  intros Hps. induction 1 as [|p pages Hp Hd IH]; [constructor|].
  rewrite expand_cons. apply NoDup_app. split; [|split; [|done]].
  - apply NoDup_fmap_2; [intros ???; lia|]. apply NoDup_seqZ.
  - intros x (o & -> & Ho)%list_elem_of_fmap. rewrite elem_of_expand by done.
    apply elem_of_range in Ho. by rewrite Z.div_add_l, Z.div_small, Z.add_0_r by lia.
Qed.

Lemma expand_1 pages : expand 1 pages = pages.
Proof.
  induction pages as [|p pages IH]; [done|]. rewrite expand_cons, IH.
  rewrite range_cons, range_nil by lia. cbn [fmap list_fmap app]. f_equal. lia.
Qed.

Lemma expand_pages ps pages :
  0 < ps → NoDup pages → unique ((λ i, i / ps) <$> expand ps pages) ≡ₚ pages.
Proof.
  intros Hps Hd. apply unique_perm; [done|]. intros x. rewrite list_elem_of_fmap. split.
  - intros (y & -> & Hy). by rewrite elem_of_expand in Hy.
  - intros Hx. exists (x * ps). rewrite elem_of_expand by done.
    by rewrite Z.div_mul by lia.
Qed.

(** *** Reordering the pool *)

Lemma wf_perm a a' :
  wf a → cls a' = cls a → page_size a' = page_size a → need_sort a' = need_sort a →
  size a' = size a → num_pages a' = num_pages a →
  (need_sort a' = false → release_pages a' = []) → pool a' ⊆+ pool a → wf a'.
Proof.
  intros [] Hc Hp Hn Hs Hm Hr Hsub. constructor.
  - congruence.
  - rewrite Hc, Hp. done.
  - done.
  - apply submseteq_Permutation in Hsub as [k E]. rewrite E in wf_nodup0.
    by apply NoDup_app in wf_nodup0 as [? _].
  - apply Forall_forall. intros x Hx. unfold capacity in *. rewrite Hc, Hs, Hm.
    rewrite Forall_forall in wf_range0. apply wf_range0. by eapply elem_of_submseteq.
Qed.

Lemma merge_pool a : pool (Base.merge_and_sort_free a) ≡ₚ pool a.
Proof.
  unfold Base.merge_and_sort_free, pool. destruct (0 <? len (release_pages a)); [|done].
  rsimpl. by rewrite app_nil_r, tsort_perm.
Qed.

Lemma merge_wf a : wf a → wf (Base.merge_and_sort_free a).
Proof.
  intros Hw. eapply wf_perm; [exact Hw|..]; unfold Base.merge_and_sort_free;
    destruct (0 <? len (release_pages a)) eqn:E; try done.
  - apply (wf_release a Hw).
  - fold (Base.merge_and_sort_free a). unfold pool. rsimpl.
    by rewrite app_nil_r, tsort_perm.
Qed.

(** After the merge of a sorting allocator every free page is in
    [free_pages]. *)
Lemma merge_free_pages a : len (free_pages (Base.merge_and_sort_free a)) = len (pool a).
Proof.
  unfold Base.merge_and_sort_free, pool. destruct (Z.ltb_spec 0 (len (release_pages a))).
  - rsimpl. by rewrite (Permutation_len _ _ (tsort_perm _)).
  - rewrite len_app. pose proof (len_nonneg (release_pages a)). lia.
Qed.

(** Taking pages from the front of [free_pages]. *)
Lemma take_pages a n :
  wf a → 0 ≤ n ≤ len (free_pages a) →
  let a' := a <| free_pages := slice_from (free_pages a) n |> in
  wf a' ∧ pool a = slice_to (free_pages a) n ++ pool a'.
Proof.
  intros Hw Hn a'. assert (Ep : pool a = slice_to (free_pages a) n ++ pool a').
  { unfold pool, a'. rsimpl. by rewrite app_assoc, slice_to_from. }
  split; [|done]. eapply wf_perm; [exact Hw|done..| |].
  - apply (wf_release a Hw).
  - rewrite Ep. apply submseteq_inserts_l. done.
Qed.

(** *** The merge that precedes every allocation *)

Definition premerge (n : Z) (a : Allocator) : Allocator :=
  if need_sort a && (len (free_pages a) <? n) then Base.merge_and_sort_free a else a.

Lemma premerge_fields n a :
  cls (premerge n a) = cls a ∧ page_size (premerge n a) = page_size a ∧
  debug_mode (premerge n a) = debug_mode a ∧ need_sort (premerge n a) = need_sort a ∧
  is_not_in_free_group (premerge n a) = is_not_in_free_group a ∧
  free_group (premerge n a) = free_group a.
Proof.
  unfold premerge, Base.merge_and_sort_free.
  destruct (need_sort a && (len (free_pages a) <? n)); [|done].
  by destruct (0 <? len (release_pages a)).
Qed.

Lemma premerge_wf n a : wf a → wf (premerge n a).
Proof.
  intros. unfold premerge. destruct (need_sort a && _); [by apply merge_wf|done].
Qed.

Lemma premerge_pool n a : pool (premerge n a) ≡ₚ pool a.
Proof. unfold premerge. destruct (need_sort a && _); [apply merge_pool|done]. Qed.

Lemma premerge_enough n a : wf a → n ≤ len (pool a) → n ≤ len (free_pages (premerge n a)).
Proof.
  intros Hw Hn. unfold premerge. destruct (need_sort a) eqn:E; cbn [andb].
  - destruct (Z.ltb_spec (len (free_pages a)) n); [rewrite merge_free_pages; lia|lia].
  - unfold pool in Hn. rewrite (wf_release a Hw E), app_nil_r in Hn. done.
Qed.

Lemma premerge_short n a :
  wf a → len (free_pages (premerge n a)) < n → len (pool a) < n.
Proof.
  intros Hw Hn. destruct (Z.le_gt_cases n (len (pool a))) as [H|?]; [|done].
  pose proof (premerge_enough n a Hw H). lia.
Qed.

(** *** alloc *)

(** The body shared by both classes, on pages. *)
Definition alloc_pages (n : Z) (a : Allocator) : option (list Z) * Allocator :=
  let a := premerge n a in
  if len (free_pages a) <? n then (None, a)
  else (Some (slice_to (free_pages a) n),
        a <| free_pages := slice_from (free_pages a) n |>).

Lemma alloc_as_pages n a :
  wf a → n mod page_size a = 0 →
  alloc n a = (Ok (expand (page_size a) <$> (alloc_pages (n / page_size a) a).1),
               (alloc_pages (n / page_size a) a).2).
Proof.
  intros Hw Hd. unfold alloc, alloc_pages.
  destruct (premerge_fields (n / page_size a) a) as (Ec & Ep & Em & _).
  destruct (cls a) eqn:C.
  - rewrite (wf_token a Hw C), Z.div_1_r in *. unfold Token.alloc.
    change (if need_sort a && (len (free_pages a) <? n) then _ else a) with (premerge n a).
    destruct (len (free_pages (premerge n a)) <? n); cbn; [done|]. by rewrite expand_1.
  - unfold Paged.alloc. rewrite Hd, Z.eqb_refl, andb_false_r.
    change (if need_sort a && _ then _ else a) with (premerge (n / page_size a) a).
    rewrite Ep. by destruct (len (free_pages (premerge (n / page_size a) a)) <? n / page_size a).
Qed.

Lemma alloc_pages_spec n a :
  wf a → 0 ≤ n →
  match alloc_pages n a with
  | (Some pages, a') => wf a' ∧ len pages = n ∧ pool a ≡ₚ pages ++ pool a'
  | (None, a') => wf a' ∧ pool a' ≡ₚ pool a ∧ len (pool a) < n
  end.
Proof.
  intros Hw Hn. unfold alloc_pages.
  pose proof (premerge_wf n a Hw) as Hw'. pose proof (premerge_pool n a) as Hp.
  destruct (Z.ltb_spec (len (free_pages (premerge n a))) n) as [H|H].
  - split; [done|]. split; [done|]. by apply premerge_short in H.
  - destruct (take_pages (premerge n a) n Hw') as [Hw'' Ep]; [lia|].
    split; [done|]. split; [by apply len_slice_to|]. by rewrite <- Hp, <- Ep.
Qed.

(** An allocation of [n] slots, with [n] a multiple of the page size. *)
Lemma alloc_spec n a :
  wf a → 0 ≤ n → n mod page_size a = 0 →
  match alloc n a with
  | (Ok (Some locs), a') =>
      ∃ pages, locs = expand (page_size a) pages ∧ len locs = n ∧
               NoDup pages ∧ pool a ≡ₚ pages ++ pool a' ∧ wf a'
  | (Ok None, a') => pool a' ≡ₚ pool a ∧ available_size a < n ∧ wf a'
  | (Raise _, _) => False
  end.
Proof.
  intros Hw Hn Hd. rewrite alloc_as_pages by done.
  pose proof (wf_page_size a Hw) as Hp.
  assert (Hdiv : n = n / page_size a * page_size a)
    by (pose proof (Z.div_mod n (page_size a)); lia).
  pose proof (alloc_pages_spec (n / page_size a) a Hw) as H.
  assert (0 ≤ n / page_size a) by (apply Z.div_pos; lia).
  destruct (alloc_pages (n / page_size a) a) as [[pages|] a']; cbn [fst snd fmap option_fmap option_map].
  - destruct H as (Hw' & Hl & Hpool); [done|]. exists pages. split; [done|].
    split; [rewrite len_expand by lia; lia|]. split; [|done].
    pose proof (wf_nodup a Hw) as Hnd. rewrite Hpool in Hnd.
    by apply NoDup_app in Hnd as [? _].
  - destruct H as (Hw' & Hpool & Hl); [done|]. split; [done|]. split; [|done].
    unfold pool in Hl. rewrite len_app in Hl. unfold available_size.
    destruct (cls a) eqn:C.
    + unfold Token.available_size. rewrite (wf_token a Hw C) in *. lia.
    + unfold Base.available_size. nia.
Qed.

(** *** free *)

(** Frees outside a group put the pages back. *)
Lemma free_pool pages a :
  wf a → is_not_in_free_group a = true → debug_mode a = false → NoDup pages →
  ∃ a', free (expand (page_size a) pages) a = (Ok tt, a') ∧
        pool a' ≡ₚ pages ++ pool a ∧
        page_size a' = page_size a ∧ cls a' = cls a ∧ need_sort a' = need_sort a ∧
        size a' = size a ∧ num_pages a' = num_pages a ∧ debug_mode a' = debug_mode a ∧
        is_not_in_free_group a' = true ∧
        (need_sort a' = false → release_pages a' = []).
Proof.
  intros Hw Hg Hb Hd. pose proof (wf_page_size a Hw) as Hps. unfold free.
  destruct (Z.eqb_spec (len (expand (page_size a) pages)) 0) as [E0|E0].
  { rewrite len_expand in E0 by lia. assert (pages = []) as -> by (apply len_zero; nia).
    exists a. cbn. destruct (cls a) eqn:C; repeat split; try done; by apply wf_release. }
  destruct (cls a) eqn:C.
  - unfold Token.free. destruct (Z.eqb_spec (len (expand (page_size a) pages)) 0); [done|].
    rewrite Hg, (wf_token a Hw C), expand_1. unfold pool. destruct (need_sort a) eqn:N;
      (eexists; split; [reflexivity|]; rsimpl; repeat split; try done;
       try by apply (wf_token a Hw C)); try (intros; congruence).
    + rewrite app_assoc. apply Permutation_app_comm.
    + by rewrite (Permutation_app_comm (free_pages a)), <- app_assoc.
    + intros _. by apply wf_release.
  - unfold Paged.free. destruct (Z.eqb_spec (len (expand (page_size a) pages)) 0); [done|].
    rewrite Hg. pose proof (expand_pages (page_size a) pages) as E.
    unfold pool. destruct (need_sort a) eqn:N; rsimpl; rewrite Hb; cbn [andb];
      (eexists; split; [reflexivity|]; rsimpl; repeat split; try done);
      try (intros; congruence).
    + rewrite E by (done || lia). apply Permutation_app_swap_app.
    + rewrite E by (done || lia). by rewrite <- app_assoc.
    + intros _. by apply wf_release.
Qed.

Lemma free_wf pages a :
  wf a → is_not_in_free_group a = true → debug_mode a = false → NoDup (pages ++ pool a) →
  Forall (λ p, 1 ≤ p ≤ capacity a) pages →
  ∃ a', free (expand (page_size a) pages) a = (Ok tt, a') ∧ wf a' ∧ pool a' ≡ₚ pages ++ pool a.
Proof.
  intros Hw Hg Hb Hd Hr. assert (Hd' := Hd). apply NoDup_app in Hd' as (Hd' & _).
  destruct (free_pool pages a Hw Hg Hb Hd') as (a' & E & Hp & Eps & Ec & En & Es & Em & _ & _ & Hrel).
  exists a'. split; [done|]. split; [|done]. constructor.
  - rewrite Eps. by apply wf_page_size.
  - rewrite Eps, Ec. apply (wf_token a Hw).
  - done.
  - by rewrite Hp.
  - rewrite Hp. unfold capacity. rewrite Ec, Es, Em. apply Forall_app. split; [done|].
    apply (wf_range a Hw).
Qed.

(** *** Free groups *)

Lemma token_group_pending xss a :
  is_not_in_free_group a = false →
  foldl (λ a xs, Token.free xs a) a xss
  = a <| free_group := free_group a ++ filter (λ xs, xs ≠ []) xss |>.
Proof.
  revert a. induction xss as [|xs xss IH]; intros a Hg.
  { cbn. rewrite app_nil_r. by destruct a. }
  cbn [foldl]. rewrite filter_cons. unfold Token.free at 2.
  destruct (Z.eqb_spec (len xs) 0) as [E|E].
  - apply len_zero in E as ->. destruct (decide ([] ≠ [])); [done|]. by apply IH.
  - destruct (decide (xs ≠ [])) as [Hx|Hx].
    2:{ destruct Hx. intros ->. done. }
    rewrite Hg, IH by done. rsimpl. by rewrite <- app_assoc.
Qed.

Lemma concat_filter_nonempty {A} `{EqDecision A} (xss : list (list A)) :
  concat (filter (λ xs, xs ≠ []) xss) = concat xss.
Proof.
  induction xss as [|xs xss IH]; [done|]. rewrite filter_cons.
  destruct (decide (xs ≠ [])) as [Hx|Hx]; cbn; rewrite IH; [done|].
  destruct xs; [done|]. by destruct Hx.
Qed.

End PoolFacts.

(** ** The contract of the allocators *)

Module AllocatorSpec.
Import PoolFacts.

Lemma init_token_wf n ns : 0 ≤ n → wf (Token.init n ns).
Proof.
  intros Hn. constructor; [exact (Z.le_refl 1)|done|done| |].
  - unfold pool. cbn. rewrite app_nil_r. apply NoDup_seqZ.
  - apply Forall_forall. intros x Hx. change (x ∈ range 1 (n + 1) ++ []) in Hx.
    rewrite app_nil_r in Hx. apply elem_of_range in Hx. change (1 ≤ x ≤ n). lia.
Qed.

Lemma init_paged_wf n ps ns dbg : 1 ≤ ps → wf (Paged.init n ps ns dbg).
Proof.
  intros Hn. constructor; [exact Hn|done|done| |].
  - unfold pool. cbn. rewrite app_nil_r. apply NoDup_seqZ.
  - apply Forall_forall. intros x Hx. change (x ∈ range 1 (n / ps + 1) ++ []) in Hx.
    rewrite app_nil_r in Hx. apply elem_of_range in Hx. change (1 ≤ x ≤ n / ps). lia.
Qed.

Lemma available_pool a : wf a → available_size a = len (pool a) * page_size a.
Proof.
  intros Hw. unfold available_size, pool. rewrite len_app. destruct (cls a) eqn:C.
  - unfold Token.available_size. rewrite (wf_token a Hw C). lia.
  - done.
Qed.

(** What an allocation leaves alone. *)
Lemma alloc_keeps n a :
  wf a → n mod page_size a = 0 →
  let a' := (alloc n a).2 in
  page_size a' = page_size a ∧ is_not_in_free_group a' = is_not_in_free_group a ∧
  debug_mode a' = debug_mode a ∧ capacity a' = capacity a ∧ free_group a' = free_group a ∧
  cls a' = cls a.
Proof.
  intros Hw Hd. cbv zeta. rewrite alloc_as_pages by done. cbn [snd]. unfold alloc_pages.
  destruct (premerge_fields (n / page_size a) a) as (Ec & E1 & E2 & _ & E3 & E4).
  assert (Ecap : capacity (premerge (n / page_size a) a) = capacity a).
  { unfold capacity, premerge, Base.merge_and_sort_free.
    destruct (need_sort a && _); [|done]. by destruct (0 <? len (release_pages a)). }
  by destruct (len (free_pages (premerge (n / page_size a) a)) <? n / page_size a).
Qed.

(** Both allocators: a page-aligned request of [n] slots succeeds exactly
    when [n] slots are available; the slots handed out are [n] distinct
    ones, none of them lies in a page that is still free and none in the
    reserved page 0. *)
Lemma alloc_fresh n a :
  wf a → 0 ≤ n → n mod page_size a = 0 →
  match alloc n a with
  | (Ok (Some locs), a') =>
      n ≤ available_size a ∧ len locs = n ∧ NoDup locs ∧ wf a' ∧
      available_size a' = available_size a - n ∧
      (∀ x, x ∈ locs → page_size a ≤ x ∧ x / page_size a ∉ pool a')
  | (Ok None, a') => available_size a < n ∧ available_size a' = available_size a ∧ wf a'
  | (Raise _, _) => False
  end.
Proof.
  intros Hw Hn Hd. pose proof (alloc_spec n a Hw Hn Hd) as H.
  destruct (alloc_keeps n a Hw Hd) as (Eps & _).
  pose proof (wf_page_size a Hw) as Hps.
  destruct (alloc n a) as [[[locs|]|e] a']; cbn [snd] in Eps; [| |done].
  - destruct H as (pages & -> & Hl & Hnd & Hp & Hw').
    rewrite !available_pool, Eps by done. rewrite len_expand in Hl by lia.
    pose proof (Permutation_len _ _ Hp) as Hlen. rewrite len_app in Hlen.
    pose proof (len_nonneg (pool a')).
    split; [nia|]. split; [rewrite len_expand; lia|]. split; [apply NoDup_expand; [lia|done]|].
    split; [done|]. split; [nia|]. intros x Hx. rewrite elem_of_expand in Hx by lia.
    pose proof (wf_range a Hw) as Hr. pose proof (wf_nodup a Hw) as Hnd'. rewrite Hp in Hr, Hnd'.
    split.
    + apply Forall_app in Hr as [Hr _]. rewrite Forall_forall in Hr. specialize (Hr _ Hx).
      pose proof (Z.div_mod x (page_size a)). pose proof (Z.mod_pos_bound x (page_size a)). nia.
    + apply NoDup_app in Hnd' as (_ & Hdis & _). by apply Hdis.
  - destruct H as (Hp & Hav & Hw'). split; [done|].
    rewrite !available_pool, Eps, (Permutation_len _ _ Hp) by done. done.
Qed.

(** Freeing what [alloc] returned restores the set of free pages. *)
Lemma alloc_free n a locs a' :
  wf a → 0 ≤ n → n mod page_size a = 0 →
  is_not_in_free_group a = true → debug_mode a = false →
  alloc n a = (Ok (Some locs), a') →
  ∃ a'', free locs a' = (Ok tt, a'') ∧ wf a'' ∧ pool a'' ≡ₚ pool a.
Proof.
  intros Hw Hn Hd Hg Hb E. pose proof (alloc_spec n a Hw Hn Hd) as H.
  destruct (alloc_keeps n a Hw Hd) as (Eps & Hg' & Hb' & Ecap & _).
  rewrite E in Eps, Hg', Hb', Ecap. cbn [snd] in *. rewrite Hg in Hg'. rewrite Hb in Hb'.
  rewrite E in H. destruct H as (pages & -> & Hl & Hnd & Hp & Hw').
  rewrite <- Eps. destruct (free_wf pages a') as (a'' & Ef & Hw'' & Hp''); [done..| | |].
  - rewrite <- Hp. by apply wf_nodup.
  - rewrite Ecap. pose proof (wf_range a Hw) as Hr. rewrite Hp in Hr.
    by apply Forall_app in Hr as [? _].
  - exists a''. split; [done|]. split; [done|]. by rewrite Hp'', Hp.
Qed.

(** Inside a group the frees are collected and [free_group_end] applies
    them: the token allocator ends with the pages it would have had if
    every free had been immediate. *)
Lemma token_group_pool xss a :
  cls a = TokenToKVPoolAllocator → 
  ∃ a', free_group_end (foldl (λ a xs, Token.free xs a) (Base.free_group_begin a) xss)
        = (Ok tt, a') ∧ is_not_in_free_group a' = true ∧
        pool a' ≡ₚ pool a ++ concat xss.
Proof.
  intros C. rewrite token_group_pending by done. unfold free_group_end, Base.free_group_begin.
  rsimpl. cbn [app]. rewrite <- (concat_filter_nonempty xss).
  set (g := filter (λ xs, xs ≠ []) xss).
  destruct (bool_decide_reflect (g = [])) as [->|Hg].
  { eexists. split; [reflexivity|]. rsimpl. split; [done|]. unfold pool. rsimpl. cbn.
    by rewrite app_nil_r. }
  unfold free. rsimpl. rewrite C. eexists. split; [reflexivity|]. unfold Token.free. rsimpl.
  destruct (Z.eqb_spec (len (concat g)) 0) as [E|E].
  { rsimpl. split; [done|]. unfold pool. rsimpl. apply len_zero in E as ->. by rewrite app_nil_r. }
  unfold pool. destruct (need_sort a) eqn:N; rsimpl; (split; [done|]).
  - by rewrite app_assoc.
  - rewrite <- !app_assoc. f_equiv. apply Permutation_app_comm.
Qed.

Lemma token_immediate_pool xss a :
  cls a = TokenToKVPoolAllocator → is_not_in_free_group a = true →
  pool (foldl (λ a xs, Token.free xs a) a xss) ≡ₚ pool a ++ concat xss.
Proof.
  intros C. revert a C. induction xss as [|xs xss IH]; intros a C G; cbn [foldl concat].
  { by rewrite app_nil_r. }
  unfold Token.free at 2. destruct (Z.eqb_spec (len xs) 0) as [E|E].
  { apply len_zero in E as ->. by rewrite IH. }
  rewrite G. rewrite app_assoc. destruct (need_sort a); rewrite IH by done; unfold pool; rsimpl.
  - by rewrite !app_assoc.
  - rewrite <- !app_assoc. f_equiv. rewrite !app_assoc. f_equiv. apply Permutation_app_comm.
Qed.

End AllocatorSpec.

(** ** Extending the requests of a batch *)

Module ExtendSpec.
Import PoolFacts KernelFacts.

Lemma slot_at_ext ps pre seq last f g t :
  0 < ps → 0 ≤ pre → pre ≤ t < seq →
  (∀ k, 0 ≤ k < new_pages ps pre seq → f k = g k) →
  slot_at ps pre last f t = slot_at ps pre last g t.
Proof.
  intros Hps Hpre Ht H. unfold slot_at, ceil_align.
  destruct (Z.ltb_spec t (ceil_div pre ps * ps)); [done|]. do 2 f_equal. apply H.
  unfold new_pages. assert (ceil_div pre ps ≤ t / ps) by (apply Z.div_le_lower_bound; lia).
  split; [lia|]. assert (t / ps < ceil_div seq ps); [|lia].
  pose proof (ceil_div_spec seq ps Hps). apply Z.div_lt_upper_bound; lia.
Qed.

(** Only the first [total_pages] pages matter. *)
Lemma rows_prefix ps reqs xs ys :
  0 < ps → wf_reqs reqs → total_pages ps reqs ≤ len xs →
  rows ps reqs (xs ++ ys) = rows ps reqs xs.
Proof.
  intros Hps. revert xs. induction reqs as [|[[pre seq] last] reqs IH]; intros xs Hw Hp; [done|].
  inversion Hw as [|? ? Hr Hwr]; subst.
  change ((pre, seq, last) :: reqs) with ([(pre, seq, last)] ++ reqs) in Hp.
  rewrite total_pages_app, total_pages_one in Hp.
  pose proof (total_pages_nonneg ps reqs Hps Hwr). pose proof (new_pages_nonneg ps pre seq Hps).
  cbn [rows]. rewrite drop_app_le by (unfold len in *; lia). rewrite IH; [|done|llia].
  f_equal. apply fmap_range_ext. intros t Ht. apply (slot_at_ext ps pre seq); [lia..|].
  intros k Hk. apply app_nth1. unfold len in *. lia.
Qed.

(** A slot keeps the offset of its position in the page. *)
Lemma slot_at_offset ps pre last page t :
  0 < ps → 0 ≤ pre ≤ t → (last + 1) mod ps = pre mod ps →
  slot_at ps pre last page t mod ps = t mod ps.
Proof.
  intros Hps Ht Hl. unfold slot_at. destruct (t <? ceil_align pre ps).
  - replace (last + 1 + (t - pre)) with ((last + 1) + (t - pre)) by lia.
    rewrite Z.add_mod, Hl, <- Z.add_mod by lia. f_equal. lia.
  - rewrite Z.add_comm, Z.mod_add, Z.mod_mod by lia. done.
Qed.

(** The slots of a request are consecutive inside a page: the next
    position of the same page has the next slot. *)
Lemma slot_at_succ ps pre last page t :
  0 < ps → 0 ≤ pre ≤ t → (t + 1) mod ps ≠ 0 →
  slot_at ps pre last page (t + 1) = slot_at ps pre last page t + 1.
Proof.
  intros Hps Ht Hm.
  assert (Hdm : (t + 1) / ps = t / ps ∧ (t + 1) mod ps = t mod ps + 1).
  { pose proof (Z.div_mod t ps). pose proof (Z.mod_pos_bound t ps Hps).
    destruct (Z.eq_dec (t mod ps) (ps - 1)) as [E|E].
    - exfalso. apply Hm. symmetry. apply (Z.mod_unique _ _ (t / ps + 1)); lia.
    - split; symmetry;
        [apply (Z.div_unique _ _ _ (t mod ps + 1))|apply (Z.mod_unique _ _ (t / ps))]; lia. }
  destruct Hdm as [Hd Hmm]. unfold slot_at, ceil_align.
  assert (t + 1 ≠ ceil_div pre ps * ps).
  { intros E. apply Hm. rewrite E. by apply Z.mod_mul; lia. }
  destruct (Z.ltb_spec (t + 1) (ceil_div pre ps * ps)), (Z.ltb_spec t (ceil_div pre ps * ps));
    rewrite ?Hd, ?Hmm; lia.
Qed.

Lemma new_pages_bound ps pre seq : 0 < ps → pre ≤ seq →
  new_pages ps pre seq ≤ (seq - pre) / ps + 1.
Proof.
  intros Hps Hs. unfold new_pages.
  pose proof (ceil_div_spec seq ps Hps). pose proof (ceil_div_spec pre ps Hps).
  pose proof (Z.div_mod (seq - pre) ps). pose proof (Z.mod_pos_bound (seq - pre) ps Hps).
  assert ((ceil_div seq ps - 1 - ceil_div pre ps) * ps < ((seq - pre) / ps + 1) * ps) as Hlt by lia.
  apply Z.mul_lt_mono_pos_r in Hlt; lia.
Qed.

(** [extend_num_tokens // page_size + bs + 1] bounds the pages needed, so
    the merge is never skipped when it is needed. *)
Lemma total_pages_bound ps reqs : 0 < ps → wf_reqs reqs →
  total_pages ps reqs ≤ total_tokens reqs / ps + len reqs.
Proof.
  intros Hps. induction 1 as [|[[pre seq] last] reqs Hr Hw IH].
  { change (total_pages ps []) with 0. change (total_tokens []) with 0.
    rewrite Z.div_0_l by lia. done. }
  change ((pre, seq, last) :: reqs) with ([(pre, seq, last)] ++ reqs).
  rewrite total_pages_app, total_tokens_app, total_pages_one, total_tokens_one, len_app.
  cbn in Hr. pose proof (new_pages_bound ps pre seq Hps).
  assert ((seq - pre) / ps + total_tokens reqs / ps ≤ (seq - pre + total_tokens reqs) / ps).
  { apply Z.div_le_lower_bound; [lia|].
    pose proof (Z.mul_div_le (seq - pre) ps Hps).
    pose proof (Z.mul_div_le (total_tokens reqs) ps Hps). lia. }
  rewrite len_cons, len_nil. lia.
Qed.

Lemma next_power_of_2_ge n : n ≤ next_power_of_2 n.
Proof.
  unfold next_power_of_2. destruct (Z.ltb_spec 0 n); [|lia].
  rewrite Z.shiftl_1_l. destruct (Z.eq_dec n 1) as [->|]; [done|].
  pose proof (Z.log2_log2_up_spec n). lia.
Qed.

Lemma get_num_new_pages_extend ps reqs :
  get_num_new_pages (seqs reqs) ps (Some (pres reqs)) false = Ok (total_pages ps reqs).
Proof.
  unfold get_num_new_pages, seqs, pres, total_pages. rewrite <- !list_fmap_compose, zip_with_fmap2.
  do 2 f_equal. apply list_fmap_ext. by intros ? [[??]?] ?.
Qed.

(** The paged [alloc_extend], whichever implementation it launches. *)
Lemma alloc_extend_rows reqs a :
  wf a → debug_mode a = false → wf_reqs reqs →
  total_pages (page_size a) reqs ≤ len (pool a) →
  ∃ pages a',
    Paged.alloc_extend (pres reqs) (pres reqs) (seqs reqs) (seqs reqs) (lasts reqs)
      (total_tokens reqs) a
    = (Ok (Some (Some <$> rows (page_size a) reqs pages)), a') ∧
    len pages = total_pages (page_size a) reqs ∧
    pool a ≡ₚ pages ++ pool a' ∧ wf a'.
Proof.
  intros Hw Hb Hr Hp. pose proof (wf_page_size a Hw) as Hps.
  set (ps := page_size a) in *. set (n := total_tokens reqs).
  set (a0 := a <| seen_max_num_extend_tokens_next_power_of_2 ::=
    λ seen, Z.max seen (Z.min Paged.TRITON_MAX_TENSOR_NUMEL (next_power_of_2 n)) |>).
  assert (Hw0 : wf a0) by (by destruct Hw).
  set (b := premerge (n / ps + len (pres reqs) + 1) a0).
  assert (Hwb : wf b) by (by apply premerge_wf).
  assert (Hpb : pool b ≡ₚ pool a) by (apply (premerge_pool _ a0)).
  assert (Eb : page_size b = ps ∧ debug_mode b = false).
  { destruct (premerge_fields (n / ps + len (pres reqs) + 1) a0) as (_ & E1 & E2 & _).
    unfold b. rewrite E1, E2. done. }
  destruct Eb as [Epb Edb].
  assert (Hseen : n < Paged.TRITON_MAX_TENSOR_NUMEL →
                  n ≤ seen_max_num_extend_tokens_next_power_of_2 b).
  { intros Hn. assert (E : seen_max_num_extend_tokens_next_power_of_2 b
                           = seen_max_num_extend_tokens_next_power_of_2 a0).
    { unfold b, premerge, Base.merge_and_sort_free. destruct (need_sort a0 && _); [|done].
      by destruct (0 <? len (release_pages a0)). }
    rewrite E. unfold a0. rsimpl. pose proof (next_power_of_2_ge n). lia. }
  assert (Hfree : total_pages ps reqs ≤ len (free_pages b)).
  { assert (Hbd : total_pages ps reqs ≤ n / ps + len reqs) by (apply total_pages_bound; [lia|done]).
    assert (E : len (pres reqs) = len reqs) by (unfold pres; by rewrite len_fmap).
    destruct (Z.le_gt_cases (n / ps + len (pres reqs) + 1) (len (free_pages a0))) as [H|H].
    - unfold b, premerge. replace (len (free_pages a0) <? _) with false by (symmetry; lia).
      rewrite andb_false_r. cbv iota. lia.
    - unfold b, premerge. replace (len (free_pages a0) <? _) with true by (symmetry; lia).
      rewrite andb_true_r. destruct (need_sort a0) eqn:N; [by rewrite merge_free_pages|].
      pose proof (wf_release a0 Hw0 N) as E'. change (pool a) with (pool a0) in Hp.
      unfold pool in Hp. by rewrite E', app_nil_r in Hp. }
  assert (Htp : 0 ≤ total_pages ps reqs) by (apply total_pages_nonneg; [lia|done]).
  destruct (take_pages b (total_pages ps reqs) Hwb) as [Hw' Ep]; [lia|].
  exists (slice_to (free_pages b) (total_pages ps reqs)), (b <| free_pages := slice_from (free_pages b) (total_pages ps reqs) |>).
  split; [|split; [apply len_slice_to; lia|split; [by rewrite <- Ep|done]]].
  assert (Erows : rows ps reqs (free_pages b) = rows ps reqs (slice_to (free_pages b) (total_pages ps reqs))).
  { rewrite <- (slice_to_from (free_pages b) (total_pages ps reqs)) at 1. apply rows_prefix; [lia|done|].
    rewrite len_slice_to; [lia|]. lia. }
  unfold Paged.alloc_extend. fold ps. rewrite Hb. cbn [andb]. fold n a0.
  change (if need_sort a0 && _ then _ else a0) with b.
  rewrite get_num_new_pages_extend. fold ps n. rewrite Edb. cbn [andb].
  destruct (Z.ltb_spec n Paged.TRITON_MAX_TENSOR_NUMEL) as [Hn|Hn].
  - rewrite extend_kernel_correct; [|lia|done|done|by apply Hseen].
    replace (len (free_pages b) <? _) with false by (symmetry; lia). by rewrite Erows.
  - rewrite extend_naive_correct; [|lia|done|done].
    replace (len (free_pages b) <? _) with false by (symmetry; lia). by rewrite Erows.
Qed.

End ExtendSpec.

(** ** Properties *)

Module AllocatorClaims.
Import PoolFacts KernelFacts AllocatorSpec ExtendSpec.

(** a page-aligned request of [n] slots succeeds exactly when [n] slots
    are available; the slots handed out are [n] distinct ones, none lies in
    a page that is still free and none in the reserved page 0; the
    allocator stays well formed and loses exactly [n] available slots.  A
    refused request changes nothing. *)
Theorem alloc_hands_out_fresh_slots n a :
  wf a → 0 ≤ n → n mod page_size a = 0 →
  match alloc n a with
  | (Ok (Some locs), a') =>
      n ≤ available_size a ∧ len locs = n ∧ NoDup locs ∧ wf a' ∧
      available_size a' = available_size a - n ∧
      (∀ x, x ∈ locs → page_size a ≤ x ∧ x / page_size a ∉ pool a')
  | (Ok None, a') => available_size a < n ∧ available_size a' = available_size a ∧ wf a'
  | (Raise _, _) => False
  end.
Proof. apply alloc_fresh. Qed.

Lemma alloc_hands_out_fresh_slots_witness :
  (∃ locs a', alloc 8 (Paged.init 64 4 true false) = (Ok (Some locs), a') ∧
    locs = [4; 5; 6; 7; 8; 9; 10; 11]) ∧
  match alloc 8 (Paged.init 64 4 true false) with
  | (Ok (Some locs), a') => NoDup locs ∧ available_size a' = 56
  | _ => False
  end.
Proof.
  split; [eexists _, _; split; reflexivity|].
  pose proof (alloc_hands_out_fresh_slots 8 (Paged.init 64 4 true false)
    (init_paged_wf 64 4 true false ltac:(lia)) ltac:(lia) eq_refl) as H.
  revert H. cbn. intros (_ & _ & H & _ & E & _). split; [exact H|exact E].
Defined.

(** C29: freeing what [alloc] returned puts back exactly the pages it took. *)
Theorem alloc_free_roundtrip n a locs a' :
  wf a → 0 ≤ n → n mod page_size a = 0 →
  is_not_in_free_group a = true → debug_mode a = false →
  alloc n a = (Ok (Some locs), a') →
  ∃ a'', free locs a' = (Ok tt, a'') ∧ wf a'' ∧ pool a'' ≡ₚ pool a.
Proof. apply alloc_free. Qed.

Lemma alloc_free_roundtrip_witness :
  ∃ a'', free [1; 2; 3] (alloc 3 (Token.init 8 false)).2 = (Ok tt, a'') ∧
         pool a'' ≡ₚ pool (Token.init 8 false).
Proof.
  destruct (alloc_free_roundtrip 3 (Token.init 8 false) [1; 2; 3]
    (alloc 3 (Token.init 8 false)).2 (init_token_wf 8 false ltac:(lia)) ltac:(lia)
    eq_refl eq_refl eq_refl eq_refl) as (a'' & E & _ & H).
  exists a''. split; [exact E|exact H].
Defined.

(** a free group only delays the frees.  With the token allocator,
    [free_group_begin], any frees and [free_group_end] leave the same free
    pages as the same frees done immediately. *)
Theorem free_group_defers_frees xss a :
  cls a = TokenToKVPoolAllocator → is_not_in_free_group a = true →
  ∃ a', free_group_end (foldl (λ a xs, Token.free xs a) (Base.free_group_begin a) xss)
        = (Ok tt, a') ∧ is_not_in_free_group a' = true ∧
        pool a' ≡ₚ pool (foldl (λ a xs, Token.free xs a) a xss).
Proof.
  intros C G. destruct (token_group_pool xss a C) as (a' & E & Hg & Hp).
  exists a'. split; [done|]. split; [done|]. by rewrite Hp, token_immediate_pool.
Qed.

Lemma free_group_defers_frees_witness :
  ∃ a', free_group_end (foldl (λ a xs, Token.free xs a)
          (Base.free_group_begin (Token.init 4 false)) [[7]; []; [9; 8]]) = (Ok tt, a') ∧
        is_not_in_free_group a' = true ∧
        pool a' ≡ₚ pool (foldl (λ a xs, Token.free xs a) (Token.init 4 false) [[7]; []; [9; 8]]).
Proof. apply (free_group_defers_frees [[7]; []; [9; 8]] (Token.init 4 false)); reflexivity. Defined.

(** C30: the Triton kernel and the torch loop of [alloc_extend] compute the
    same tensor, and write every element of it. *)
Theorem alloc_extend_implementations_agree ps maxn pages reqs :
  0 < ps → wf_reqs reqs → total_pages ps reqs ≤ len pages → total_tokens reqs ≤ maxn →
  ∃ out, 
    Kernel.alloc_extend_naive (pres reqs) (seqs reqs) (lasts reqs) pages
      (times None (total_tokens reqs)) ps = Ok (Some <$> out) ∧
    Kernel.launch (len (pres reqs))
      (Kernel.alloc_extend_kernel (pres reqs) (seqs reqs) (lasts reqs) pages ps maxn)
      (times None (total_tokens reqs)) = Some <$> out ∧
    len out = total_tokens reqs.
Proof.
  intros Hps Hw Hp Hm. exists (rows ps reqs pages).
  split; [by apply extend_naive_correct|]. split; [by apply extend_kernel_correct|].
  by apply len_rows.
Qed.

Lemma alloc_extend_implementations_agree_witness :
  ∃ out, 
    Kernel.alloc_extend_naive [3; 0] [10; 5] [14; -1] [9; 5; 7; 2]
      (times None 12) 4 = Ok (Some <$> out) ∧
    Kernel.launch 2 (Kernel.alloc_extend_kernel [3; 0] [10; 5] [14; -1] [9; 5; 7; 2] 4 16)
      (times None 12) = Some <$> out ∧ len out = 12.
Proof.
  apply (alloc_extend_implementations_agree 4 16 [9; 5; 7; 2] [(3, 10, 14); (0, 5, -1)]).
  - lia.
  - repeat constructor; lia.
  - vm_compute. discriminate.
  - vm_compute. discriminate.
Defined.

(** C31: [alloc_extend] gives position [t] of every request the slot of a
    per-token reference definition: it continues the last slot up to the
    page boundary and takes fresh pages after it; every slot has the
    offset of its position in its page, and exactly the pages used leave
    the pool. *)
Theorem alloc_extend_follows_reference reqs a :
  wf a → debug_mode a = false → wf_reqs reqs →
  total_pages (page_size a) reqs ≤ len (pool a) →
  ∃ pages a',
    Paged.alloc_extend (pres reqs) (pres reqs) (seqs reqs) (seqs reqs) (lasts reqs)
      (total_tokens reqs) a
    = (Ok (Some (Some <$> rows (page_size a) reqs pages)), a') ∧
    len pages = total_pages (page_size a) reqs ∧
    pool a ≡ₚ pages ++ pool a' ∧ wf a' ∧
    (∀ pre last page t, 0 ≤ pre ≤ t → (last + 1) mod page_size a = pre mod page_size a →
       slot_at (page_size a) pre last page t mod page_size a = t mod page_size a).
Proof.
  intros Hw Hb Hr Hp. destruct (alloc_extend_rows reqs a Hw Hb Hr Hp) as (pages & a' & E & Hl & Hpp & Hw').
  exists pages, a'. split; [done|]. split; [done|]. split; [done|]. split; [done|].
  intros. apply slot_at_offset; [|done|done]. pose proof (wf_page_size a Hw). lia.
Qed.

Lemma alloc_extend_follows_reference_witness :
  ∃ pages a',
    Paged.alloc_extend [3; 0] [3; 0] [10; 5] [10; 5] [14; -1] 12 (Paged.init 64 4 false false)
    = (Ok (Some (Some <$> rows 4 [(3, 10, 14); (0, 5, -1)] pages)), a') ∧ len pages = 4.
Proof.
  destruct (alloc_extend_follows_reference [(3, 10, 14); (0, 5, -1)] (Paged.init 64 4 false false))
    as (pages & a' & E & H & _).
  - apply init_paged_wf. lia.
  - reflexivity.
  - repeat constructor; lia.
  - vm_compute. discriminate.
  - exists pages, a'. split; [exact E|exact H].
Defined.

(** the decode kernel gives each request the slot after its last one,
    or the first slot of a new page when the page of the last slot is
    full; the number of pages it takes is the number [get_num_new_pages]
    counts, so the pages removed from the pool are exactly those used. *)
Theorem alloc_decode_kernel_correct ps pages reqs :
  1 < ps → Forall (λ r, 1 ≤ r.1) reqs → decode_pages ps reqs ≤ len pages →
  Kernel.launch (len reqs.*1) (Kernel.alloc_decode_kernel reqs.*1 reqs.*2 pages ps)
    (times None (len reqs.*1)) = Some <$> decode_rows ps reqs pages ∧
  get_num_new_pages reqs.*1 ps None true = Ok (decode_pages ps reqs).
Proof. intros. split; [by apply decode_kernel_correct|done]. Qed.

Lemma alloc_decode_kernel_correct_witness :
  Kernel.launch 3 (Kernel.alloc_decode_kernel [5; 7; 9] [19; 41; 23] [8; 3] 4) (times None 3)
  = Some <$> [32; 42; 12].
Proof.
  apply (alloc_decode_kernel_correct 4 [8; 3] [(5, 19); (7, 41); (9, 23)]).
  - lia.
  - repeat constructor; cbn; lia.
  - vm_compute. discriminate.
Defined.

End AllocatorClaims.
