(* ===== verification/Request.v ===== *)
(** * Requests (srt/managers/schedule_batch.py, class Req)

    The state of a request and the methods that change it: the finish
    checks, the KV-length bookkeeping, incremental detokenization and the
    reset on retraction.

    What the code calls and the repository does not contain is a parameter
    ([Externals]): the tokenizer's [decode], the regular expression engine
    and the grammar engine.  A grammar object is the list of the tokens it
    accepted; the engine says whether that list is terminated and whether
    it accepts one more token.  The value of an element of a tensor that was
    never written is a parameter too. *)

From Stdlib Require Export SpecFloat.
From S2P Require Import Prelude.

Class Externals := {
  tok_decode : list Z → string;
  re_search : string → string → bool;
  gr_is_terminated : list Z → bool;
  gr_accepts : list Z → Z → bool;
  (* what an element of [torch.empty] holds before it is written *)
  uninit : Z
}.

(** Floating-point values (log-probabilities, sampling parameters) are
    IEEE 754 values as data. *)
Abbreviation float := spec_float.

(** ** Data *)

(** [http.HTTPStatus] *)
Definition BAD_REQUEST : Z := 400.

Inductive FinishReason : Type :=
| FINISH_MATCHED_TOKEN (matched : Z)
| FINISH_MATCHED_STR (matched : string)
| FINISHED_MATCHED_REGEX (matched : string)
| FINISH_LENGTH (length : Z)
| FINISH_ABORT (message : string) (status_code : option Z).

Record SamplingParams : Type := mkSamplingParams {
  max_new_tokens : Z;
  ignore_eos : bool;
  stop_token_ids : list Z;
  stop_strs : list string;
  stop_regex_strs : list string;
  stop_str_max_len : Z;
  stop_regex_max_len : Z;
  temperature : float;
  top_p : float;
  top_k : Z;
  min_p : float;
  sampling_seed : option Z;
  stream_interval : option Z;
  skip_special_tokens : bool;
  spaces_between_special_tokens : bool;
  no_stop_trim : bool
}.

Record Tokenizer : Type := mkTokenizer {
  eos_token_id : Z;
  additional_stop_token_ids : list Z
}.

Record Req : Type := mkReq {
  rid : string;
  origin_input_ids : list Z;
  origin_input_ids_unpadded : list Z;
  output_ids : list Z;
  fill_ids : list Z;
  (* memory management *)
  kv_committed_len : Z;
  kv_allocated_len : Z;
  kv_committed_freed : bool;
  kv_overallocated_freed : bool;
  extend_batch_idx : Z;
  decode_batch_idx : Z;
  sampling_params : SamplingParams;
  req_pool_idx : option Z;
  (* finish *)
  tokenizer : option Tokenizer;
  finished_reason : option FinishReason;
  finished_len : option Z;
  finished_output : bool;
  to_finish : option FinishReason;
  stream : bool;
  eos_token_ids : list Z;
  vocab_size : Z;
  (* incremental decoding *)
  surr_offset : option Z;
  read_offset : option Z;
  decoded_text : string;
  surr_and_decode_ids : list Z;
  cur_decode_ids_len : Z;
  (* prefix *)
  prefix_indices : list Z;
  extend_input_len : Z;
  extend_logprob_start_len : Z;
  last_node : option Z;
  cache_protected_len : Z;
  extra_key : option string;
  priority : option Z;
  is_chunked : Z;
  (* retraction *)
  is_retracted : bool;
  retracted_stain : bool;
  retraction_count : Z;
  already_computed : Z;
  (* streaming *)
  send_token_offset : Z;
  send_decode_id_offset : Z;
  send_output_token_logprobs_offset : Z;
  (* log-probabilities *)
  return_logprob : bool;
  logprob_start_len : Z;
  output_token_logprobs_val : option (list float);
  output_token_logprobs_idx : option (list Z);
  input_logprob_sent : bool;
  input_token_logprobs_val : option (list (option float));
  input_token_logprobs_idx : option (list Z);
  input_token_logprobs : option (list float);
  (* constrained decoding *)
  grammar : option (list Z);
  (* LLM-42 *)
  is_deterministic : bool;
  llm42_verified_tokens : Z;
  llm42_num_rollbacks : Z;
  llm42_tokens_rolled_back : Z;
  llm42_num_verification_windows : Z;
  (* time_stats.completion_time, 0 until the request completed *)
  completion_time : Z
}.

#[export] Instance eta_Req : Eta Req := λ r,
  mkReq (rid r) (origin_input_ids r) (origin_input_ids_unpadded r) (output_ids r)
    (fill_ids r) (kv_committed_len r) (kv_allocated_len r) (kv_committed_freed r)
    (kv_overallocated_freed r) (extend_batch_idx r) (decode_batch_idx r)
    (sampling_params r) (req_pool_idx r) (tokenizer r) (finished_reason r)
    (finished_len r) (finished_output r) (to_finish r) (stream r) (eos_token_ids r)
    (vocab_size r) (surr_offset r) (read_offset r) (decoded_text r)
    (surr_and_decode_ids r) (cur_decode_ids_len r) (prefix_indices r)
    (extend_input_len r) (extend_logprob_start_len r) (last_node r)
    (cache_protected_len r) (extra_key r) (priority r) (is_chunked r) (is_retracted r) (retracted_stain r)
    (retraction_count r) (already_computed r) (send_token_offset r)
    (send_decode_id_offset r) (send_output_token_logprobs_offset r)
    (return_logprob r) (logprob_start_len r) (output_token_logprobs_val r)
    (output_token_logprobs_idx r) (input_logprob_sent r) (input_token_logprobs_val r)
    (input_token_logprobs_idx r) (input_token_logprobs r) (grammar r) (is_deterministic r)
    (llm42_verified_tokens r) (llm42_num_rollbacks r) (llm42_tokens_rolled_back r)
    (llm42_num_verification_windows r) (completion_time r).
#[export] Instance set_origin_input_ids : Setter origin_input_ids.
Proof. derive_setter. Defined.
#[export] Instance set_output_ids : Setter output_ids.
Proof. derive_setter. Defined.
#[export] Instance set_fill_ids : Setter fill_ids.
Proof. derive_setter. Defined.
#[export] Instance set_kv_committed_len : Setter kv_committed_len.
Proof. derive_setter. Defined.
#[export] Instance set_kv_allocated_len : Setter kv_allocated_len.
Proof. derive_setter. Defined.
#[export] Instance set_kv_committed_freed : Setter kv_committed_freed.
Proof. derive_setter. Defined.
#[export] Instance set_kv_overallocated_freed : Setter kv_overallocated_freed.
Proof. derive_setter. Defined.
#[export] Instance set_extend_batch_idx : Setter extend_batch_idx.
Proof. derive_setter. Defined.
#[export] Instance set_decode_batch_idx : Setter decode_batch_idx.
Proof. derive_setter. Defined.
#[export] Instance set_req_pool_idx : Setter req_pool_idx.
Proof. derive_setter. Defined.
#[export] Instance set_finished_reason : Setter finished_reason.
Proof. derive_setter. Defined.
#[export] Instance set_finished_len : Setter finished_len.
Proof. derive_setter. Defined.
#[export] Instance set_finished_output : Setter finished_output.
Proof. derive_setter. Defined.
#[export] Instance set_to_finish : Setter to_finish.
Proof. derive_setter. Defined.
#[export] Instance set_surr_offset : Setter surr_offset.
Proof. derive_setter. Defined.
#[export] Instance set_read_offset : Setter read_offset.
Proof. derive_setter. Defined.
#[export] Instance set_decoded_text : Setter decoded_text.
Proof. derive_setter. Defined.
#[export] Instance set_surr_and_decode_ids : Setter surr_and_decode_ids.
Proof. derive_setter. Defined.
#[export] Instance set_cur_decode_ids_len : Setter cur_decode_ids_len.
Proof. derive_setter. Defined.
#[export] Instance set_prefix_indices : Setter prefix_indices.
Proof. derive_setter. Defined.
#[export] Instance set_extend_input_len : Setter extend_input_len.
Proof. derive_setter. Defined.
#[export] Instance set_extend_logprob_start_len : Setter extend_logprob_start_len.
Proof. derive_setter. Defined.
#[export] Instance set_last_node : Setter last_node.
Proof. derive_setter. Defined.
#[export] Instance set_cache_protected_len : Setter cache_protected_len.
Proof. derive_setter. Defined.
#[export] Instance set_is_chunked : Setter is_chunked.
Proof. derive_setter. Defined.
#[export] Instance set_is_retracted : Setter is_retracted.
Proof. derive_setter. Defined.
#[export] Instance set_retracted_stain : Setter retracted_stain.
Proof. derive_setter. Defined.
#[export] Instance set_retraction_count : Setter retraction_count.
Proof. derive_setter. Defined.
#[export] Instance set_already_computed : Setter already_computed.
Proof. derive_setter. Defined.
#[export] Instance set_send_token_offset : Setter send_token_offset.
Proof. derive_setter. Defined.
#[export] Instance set_send_decode_id_offset : Setter send_decode_id_offset.
Proof. derive_setter. Defined.
#[export] Instance set_send_output_token_logprobs_offset : Setter send_output_token_logprobs_offset.
Proof. derive_setter. Defined.
#[export] Instance set_return_logprob : Setter return_logprob.
Proof. derive_setter. Defined.
#[export] Instance set_logprob_start_len : Setter logprob_start_len.
Proof. derive_setter. Defined.
#[export] Instance set_output_token_logprobs_val : Setter output_token_logprobs_val.
Proof. derive_setter. Defined.
#[export] Instance set_output_token_logprobs_idx : Setter output_token_logprobs_idx.
Proof. derive_setter. Defined.
#[export] Instance set_input_logprob_sent : Setter input_logprob_sent.
Proof. derive_setter. Defined.
#[export] Instance set_input_token_logprobs_val : Setter input_token_logprobs_val.
Proof. derive_setter. Defined.
#[export] Instance set_input_token_logprobs_idx : Setter input_token_logprobs_idx.
Proof. derive_setter. Defined.
#[export] Instance set_input_token_logprobs : Setter input_token_logprobs.
Proof. derive_setter. Defined.
#[export] Instance set_grammar : Setter grammar.
Proof. derive_setter. Defined.
#[export] Instance set_llm42_verified_tokens : Setter llm42_verified_tokens.
Proof. derive_setter. Defined.
#[export] Instance set_llm42_num_rollbacks : Setter llm42_num_rollbacks.
Proof. derive_setter. Defined.
#[export] Instance set_llm42_tokens_rolled_back : Setter llm42_tokens_rolled_back.
Proof. derive_setter. Defined.
#[export] Instance set_llm42_num_verification_windows : Setter llm42_num_verification_windows.
Proof. derive_setter. Defined.
#[export] Instance set_completion_time : Setter completion_time.
Proof. derive_setter. Defined.

(** ** Properties of a request *)

Definition seqlen (r : Req) : Z := len (origin_input_ids r) + len (output_ids r).

Definition finished (r : Req) : bool :=
  match finished_reason r with Some _ => true | None => false end.

(** No token is to be generated; [max_new_tokens] alone decides, without
    speculative decoding. *)
Definition is_prefill_only (r : Req) : bool := max_new_tokens (sampling_params r) =? 0.

(** The output through the stop position, which is included. *)
Definition output_ids_through_stop (r : Req) : list Z :=
  match finished_len r with
  | Some n => slice_to (output_ids r) n
  | None => output_ids r
  end.

Definition pop_committed_kv_cache (r : Req) : res (Z * Req) :=
  if kv_committed_freed r then Raise AssertionError
  else Ok (kv_committed_len r, r <| kv_committed_freed := true |>).

Definition pop_overallocated_kv_cache (r : Req) : res (Z * Z * Req) :=
  if kv_overallocated_freed r then Raise AssertionError
  else Ok (kv_committed_len r, kv_allocated_len r, r <| kv_overallocated_freed := true |>).

Definition set_extend_input_len_ (extend_input_len_ : Z) (r : Req) : Req :=
  let r := r <| extend_input_len := extend_input_len_ |> in
  let logprob_start_len_ :=
    if logprob_start_len r =? -1 then len (fill_ids r) - 1
    else Z.max (logprob_start_len r) (len (prefix_indices r)) in
  r <| extend_logprob_start_len :=
         Z.min (logprob_start_len_ - len (prefix_indices r)) (extend_input_len r) |>.

Definition set_finish_with_abort (error_msg : string) (r : Req) : Req :=
  r <| grammar := None |>
    <| origin_input_ids := [0] |>
    <| return_logprob := false |>
    <| logprob_start_len := -1 |>
    <| to_finish := Some (FINISH_ABORT error_msg (Some BAD_REQUEST)) |>.

Definition reset_for_retract (r : Req) : Req :=
  r <| retraction_count ::= λ n, n + 1 |>
    <| prefix_indices := [] |>
    <| last_node := None |>
    <| extend_input_len := 0 |>
    <| is_retracted := true |>
    <| retracted_stain := true |>
    <| input_token_logprobs := None |>
    <| extend_logprob_start_len := 0 |>
    <| is_chunked := 0 |>
    <| already_computed := 0 |>
    <| kv_allocated_len := 0 |>
    <| kv_committed_len := 0 |>
    <| kv_committed_freed := false |>
    <| kv_overallocated_freed := false |>
    <| extend_batch_idx := 0 |>
    <| decode_batch_idx := 0 |>.

(** ** Incremental detokenization *)

Definition INIT_INCREMENTAL_DETOKENIZATION_OFFSET : Z := 5.

(** Returns the ids for the detokenizer, the read offset and the request. *)
Definition init_incremental_detokenize (needs_verification : bool) (r : Req)
    : list Z * Z * Req :=
  let output_ids_ := output_ids_through_stop r in
  let r :=
    match surr_offset r, read_offset r with
    | Some _, Some _ =>
        if needs_verification then
          r <| surr_and_decode_ids ::= λ ids, ids ++
                 slice output_ids_ (cur_decode_ids_len r) (llm42_verified_tokens r) |>
            <| cur_decode_ids_len := llm42_verified_tokens r |>
        else
          r <| surr_and_decode_ids ::= λ ids, ids ++
                 slice_from output_ids_ (cur_decode_ids_len r) |>
            <| cur_decode_ids_len := len output_ids_ |>
    | _, _ =>
        let ro := len (origin_input_ids_unpadded r) in
        let so := Z.max (ro - INIT_INCREMENTAL_DETOKENIZATION_OFFSET) 0 in
        let r := r <| read_offset := Some ro |> <| surr_offset := Some so |> in
        if needs_verification then
          r <| surr_and_decode_ids :=
                 slice_from (origin_input_ids_unpadded r) so ++
                 slice_to output_ids_ (llm42_verified_tokens r) |>
            <| cur_decode_ids_len := llm42_verified_tokens r |>
        else
          r <| surr_and_decode_ids :=
                 slice_from (origin_input_ids_unpadded r) so ++ output_ids_ |>
            <| cur_decode_ids_len := len output_ids_ |>
    end in
  (surr_and_decode_ids r,
   default 0 (read_offset r) - default 0 (surr_offset r), r).

(** ** Finish checks *)

(** [sub in s] on strings *)
Fixpoint str_in (sub s : string) : bool :=
  String.prefix sub s ||
  match s with
  | EmptyString => false
  | String _ s' => str_in sub s'
  end.

Section Finish.
Context `{Externals}.

(** [tail_str] is called only with a non-empty set of stop patterns. *)
Definition tail_str (r : Req) : string :=
  let sp := sampling_params r in
  let max_len_tail_str := Z.max (stop_str_max_len sp + 1) (stop_regex_max_len sp + 1) in
  let tail_len := Z.min (max_len_tail_str + 1) (len (output_ids r)) in
  tok_decode (slice_from (output_ids r) (- tail_len)).

Fixpoint str_len (s : string) : Z :=
  match s with EmptyString => 0 | String _ s' => 1 + str_len s' end.
Definition str_slice_to (s : string) (i : Z) : string := String.substring 0 (Z.to_nat i) s.
(** [s[-i:]] for [1 <= i <= len s] *)
Definition str_last (s : string) (i : Z) : string :=
  String.substring (Z.to_nat (str_len s - i)) (Z.to_nat i) s.

Definition check_match_stop_str_prefix (r : Req) : bool :=
  let stops := stop_strs (sampling_params r) in
  match stops with
  | [] => false
  | _ =>
      let tail := tail_str r in
      if String.eqb tail EmptyString then false
      else existsb (λ stop_str,
        if String.eqb stop_str EmptyString then false
        else str_in stop_str tail ||
             existsb (λ i, String.eqb (str_last tail i) (str_slice_to stop_str i))
               (range 1 (Z.min (str_len tail) (str_len stop_str) + 1))) stops
  end.

Definition zmem (x : Z) (xs : list Z) : bool := existsb (Z.eqb x) xs.

(** The test of one token by [_check_token_based_finish] *)
Definition matches_eos (r : Req) (token_id : Z) : bool :=
  zmem token_id (stop_token_ids (sampling_params r)) ||
  zmem token_id (eos_token_ids r) ||
  match tokenizer r with
  | Some t => (token_id =? eos_token_id t) || zmem token_id (additional_stop_token_ids t)
  | None => false
  end.

Definition _check_token_based_finish (new_accepted_tokens : list Z) (r : Req) : bool * Req :=
  if ignore_eos (sampling_params r) then (false, r)
  else
    match list_find (λ t, matches_eos r t = true) new_accepted_tokens with
    | Some (i, token_id) =>
        let matched_pos := len (output_ids r) - len new_accepted_tokens + Z.of_nat i in
        (true, r <| finished_reason := Some (FINISH_MATCHED_TOKEN token_id) |>
                 <| finished_len := Some (matched_pos + 1) |>)
    | None => (false, r)
    end.

Definition _check_str_based_finish (r : Req) : bool * Req :=
  let sp := sampling_params r in
  match stop_strs sp, stop_regex_strs sp with
  | [], [] => (false, r)
  | _, _ =>
      let tail := tail_str r in
      match find (λ s, str_in s tail || str_in s (decoded_text r)) (stop_strs sp) with
      | Some s => (true, r <| finished_reason := Some (FINISH_MATCHED_STR s) |>)
      | None =>
          match find (λ s, re_search s tail) (stop_regex_strs sp) with
          | Some s => (true, r <| finished_reason := Some (FINISHED_MATCHED_REGEX s) |>)
          | None => (false, r)
          end
      end
  end.

Definition _check_vocab_boundary_finish (new_accepted_tokens : list Z) (r : Req) : bool * Req :=
  match list_find (λ t, (vocab_size r <? t) || (t <? 0) = true) new_accepted_tokens with
  | Some (i, _) =>
      let offset := len (output_ids r) - len new_accepted_tokens + Z.of_nat i in
      let set_at (v : Z) (r : Req) :=
        r <| output_ids ::= λ ids, <[Z.to_nat offset := v]> ids |> in
      let r := match stop_token_ids (sampling_params r) with v :: _ => set_at v r | [] => r end in
      let r := match eos_token_ids r with v :: _ => set_at v r | [] => r end in
      (true, r <| finished_reason := Some (FINISH_MATCHED_STR "NaN happened") |>
               <| finished_len := Some (offset + 1) |>)
  | None => (false, r)
  end.

(** The checks on the newly accepted tokens, the last part of
    [check_finished]. *)
Definition check_new_tokens (new_accepted_len : Z) (r : Req) : Req :=
  let new_accepted_tokens := slice_from (output_ids r) (- new_accepted_len) in
  let '(b, r) := _check_token_based_finish new_accepted_tokens r in
  if b then r else
  let '(b, r) := _check_vocab_boundary_finish new_accepted_tokens r in
  if b then r else (_check_str_based_finish r).2.

Definition check_finished (new_accepted_len : Z) (r : Req) : res Req :=
  if finished r then Ok r else
  match to_finish r with
  | Some reason => Ok (r <| finished_reason := Some reason |> <| to_finish := None |>)
  | None =>
      if max_new_tokens (sampling_params r) <=? len (output_ids r)
      then Ok (r <| finished_reason := Some (FINISH_LENGTH (max_new_tokens (sampling_params r))) |>
                 <| finished_len := Some (max_new_tokens (sampling_params r)) |>)
      else
        match grammar r with
        | Some g =>
            if gr_is_terminated g
            then matched ← getitem (output_ids r) (-1);
                 Ok (r <| finished_reason := Some (FINISH_MATCHED_TOKEN matched) |>)
            else Ok (check_new_tokens new_accepted_len r)
        | None => Ok (check_new_tokens new_accepted_len r)
        end
  end.
End Finish.
