(* ===== verification/ReqPool.v ===== *)
(** * The request-to-token table (srt/mem_cache/memory_pool.py, ReqToTokenPool)

    [req_to_token] is the int32 table whose row [i] holds the KV slots of
    the tokens of the request in pool slot [i]. *)

From S2P Require Import Prelude Request.

Record ReqToTokenPool : Type := mkReqToTokenPool {
  pool_size : Z;
  max_context_len : Z;
  req_to_token : list (list Z);
  free_slots : list Z
}.

#[export] Instance eta_ReqToTokenPool : Eta ReqToTokenPool := λ p,
  mkReqToTokenPool (pool_size p) (max_context_len p) (req_to_token p) (free_slots p).
#[export] Instance set_req_to_token : Setter req_to_token.
Proof. derive_setter. Defined.
#[export] Instance set_free_slots : Setter free_slots.
Proof. derive_setter. Defined.

Module Pool.

Definition init (size max_context_len : Z) : ReqToTokenPool :=
  mkReqToTokenPool size max_context_len (times (times 0 max_context_len) size) (range 0 size).

(** [req_to_token[row, a:b]] *)
Definition read_row (p : ReqToTokenPool) (row a b : Z) : res (list Z) :=
  r ← getitem (req_to_token p) row; Ok (slice r a b).

(** [req_to_token[row, col]] *)
Definition read (p : ReqToTokenPool) (row col : Z) : res Z :=
  r ← getitem (req_to_token p) row; getitem r col.

(** Overwrites [xs[a:b]]: the values have the length of the slice, or are a
    single one that is broadcast. *)
Definition set_slice (xs : list Z) (a b : Z) (vals : list Z) : res (list Z) :=
  let n := len (slice xs a b) in
  let lo := Z.to_nat (adj (len xs) a) in
  let put vals := take lo xs ++ vals ++ drop (lo + Z.to_nat n) xs in
  if n =? len vals then Ok (put vals)
  else match vals with
       | [v] => Ok (put (times v n))
       | _ => Raise RuntimeError
       end.

(** [write((row, slice(a, b)), values)] *)
Definition write (row a b : Z) (vals : list Z) (p : ReqToTokenPool) : res ReqToTokenPool :=
  r ← getitem (req_to_token p) row;
  r' ← set_slice r a b (to_int32 <$> vals);
  rows' ← setitem (req_to_token p) row r';
  Ok (p <| req_to_token := rows' |>).

(** [write((row, col), value)] *)
Definition write_one (row col v : Z) (p : ReqToTokenPool) : res ReqToTokenPool :=
  r ← getitem (req_to_token p) row;
  r' ← setitem r col (to_int32 v);
  rows' ← setitem (req_to_token p) row r';
  Ok (p <| req_to_token := rows' |>).

Definition available_size (p : ReqToTokenPool) : Z := len (free_slots p).

(** Gives the requests without a slot the selected ones, in order. *)
Fixpoint assign_slots (reqs : list Req) (select_index : list Z) : list Req :=
  match reqs with
  | [] => []
  | r :: reqs' =>
      match req_pool_idx r, select_index with
      | None, i :: rest => (r <| req_pool_idx := Some i |>) :: assign_slots reqs' rest
      | _, _ => r :: assign_slots reqs' select_index
      end
  end.

(** [alloc(reqs)] for requests that are not diffusion ones: the updated
    requests, whose [req_pool_idx] are the indices returned. *)
Definition alloc (reqs : list Req) (p : ReqToTokenPool)
    : res (option (list Req * ReqToTokenPool)) :=
  let chunked := filter (λ r, is_Some (req_pool_idx r)) reqs in
  if negb (len chunked <=? 1) then Raise AssertionError else
  if negb (forallb (λ r, (0 <? is_chunked r) || (0 <? kv_committed_len r)) chunked)
  then Raise AssertionError else
  let need_size := len reqs - len chunked in
  if len (free_slots p) <? need_size then Ok None
  else
    let select_index := slice_to (free_slots p) need_size in
    Ok (Some (assign_slots reqs select_index,
              p <| free_slots := slice_from (free_slots p) need_size |>)).

Definition free (r : Req) (p : ReqToTokenPool) : res (Req * ReqToTokenPool) :=
  match req_pool_idx r with
  | None => Raise AssertionError
  | Some i => Ok (r <| req_pool_idx := None |>, p <| free_slots ::= λ fs, fs ++ [i] |>)
  end.

Definition clear (p : ReqToTokenPool) : ReqToTokenPool :=
  p <| free_slots := range 0 (pool_size p) |>.

End Pool.
