(* ===== verification/LLM42Info.v ===== *)
(** * Verification batches (srt/llm42/llm42_info.py)

    [LLM42Info] is the metadata of one verification pass.  [from_requests]
    builds it, [prepare_verify_batch] builds the batch that replays the
    windows, [verify_and_compare] compares its tokens with the decoded ones
    and rolls back.  Requests are passed by value and the updated ones are
    returned; log messages are left out. *)

From S2P Require Import Prelude PyFloat Allocator Request ReqPool.

(** ** Metadata *)

Record LLM42Info : Type := mkLLM42Info {
  original_outputs : list Z;
  output_lens : list Z;
  padded_lens : list Z;
  padding_masks : list (list bool);
  padding_counts : list Z;
  num_real_requests : Z;
  num_dummy_requests : Z;
  padding_cache_slots : list Z;
  total_padding_cache_slots : Z;
  padding_cache_locs : option (list Z);
  padding_cache_locs_allocated : option (list Z)
}.

#[export] Instance eta_LLM42Info : Eta LLM42Info := λ i,
  mkLLM42Info (original_outputs i) (output_lens i) (padded_lens i) (padding_masks i)
    (padding_counts i) (num_real_requests i) (num_dummy_requests i) (padding_cache_slots i)
    (total_padding_cache_slots i) (padding_cache_locs i) (padding_cache_locs_allocated i).
#[export] Instance set_original_outputs : Setter original_outputs.
Proof. derive_setter. Defined.
#[export] Instance set_output_lens : Setter output_lens.
Proof. derive_setter. Defined.
#[export] Instance set_padded_lens : Setter padded_lens.
Proof. derive_setter. Defined.
#[export] Instance set_padding_masks : Setter padding_masks.
Proof. derive_setter. Defined.
#[export] Instance set_padding_counts : Setter padding_counts.
Proof. derive_setter. Defined.
#[export] Instance set_num_dummy_requests : Setter num_dummy_requests.
Proof. derive_setter. Defined.
#[export] Instance set_padding_cache_slots : Setter padding_cache_slots.
Proof. derive_setter. Defined.
#[export] Instance set_total_padding_cache_slots : Setter total_padding_cache_slots.
Proof. derive_setter. Defined.
#[export] Instance set_padding_cache_locs : Setter padding_cache_locs.
Proof. derive_setter. Defined.
#[export] Instance set_padding_cache_locs_allocated : Setter padding_cache_locs_allocated.
Proof. derive_setter. Defined.

Definition DUMMY_TOKEN_ID : Z := 32.

Module Info.

(** [LLM42Info.__init__] *)
Definition init (original_outputs output_lens padded_lens : list Z)
    (padding_masks : list (list bool)) (padding_counts : list Z) : LLM42Info :=
  let slots := (λ padded_len, Z.max 0 (padded_len - 1)) <$> padded_lens in
  mkLLM42Info original_outputs output_lens padded_lens padding_masks padding_counts
    (len output_lens) 0 slots (zsum slots) None None.

Definition append_dummy_entries (num_dummies window_size : Z) (i : LLM42Info) : LLM42Info :=
  i <| output_lens ::= λ l, l ++ times 0 num_dummies |>
    <| padded_lens ::= λ l, l ++ times window_size num_dummies |>
    <| padding_masks ::= λ l, l ++ times (times false window_size) num_dummies |>
    <| padding_counts ::= λ l, l ++ times window_size num_dummies |>
    <| num_dummy_requests := num_dummies |>.

(** What one iteration of the loop of [from_requests] appends: the tokens
    with their padding, [actual_len], [padded_len], the mask and the number
    of padding tokens. *)
Record Entry : Type := mkEntry {
  e_outputs : list Z;
  e_actual : Z;
  e_padded : Z;
  e_mask : list bool;
  e_count : Z
}.

Definition entry (always_align force_include_all : bool) (window_size : option Z)
    (r : Req) : option Entry :=
  let unverified := slice_from (output_ids r) (llm42_verified_tokens r) in
  let actual_len := len unverified in
  if actual_len =? 0 then None else
  let '(unverified, actual_len) :=
    match window_size with
    | Some w => if force_include_all && (w <? actual_len)
                then (slice_to unverified w, w) else (unverified, actual_len)
    | None => (unverified, actual_len)
    end in
  let is_finished := finished r in
  match window_size with
  | Some w =>
      if always_align && (actual_len <? w) && (is_finished || force_include_all) then
        let padding_needed := w - actual_len in
        Some (mkEntry (unverified ++ times DUMMY_TOKEN_ID padding_needed) actual_len w
                (times true actual_len ++ times false padding_needed) padding_needed)
      else Some (mkEntry unverified actual_len actual_len (times true actual_len) 0)
  | None => Some (mkEntry unverified actual_len actual_len (times true actual_len) 0)
  end.

Definition from_requests (reqs : list Req) (always_align force_include_all : bool)
    (window_size : option Z) : LLM42Info :=
  let es := omap (entry always_align force_include_all window_size) reqs in
  init (concat (e_outputs <$> es)) (e_actual <$> es) (e_padded <$> es)
    (e_mask <$> es) (e_count <$> es).

Definition set_padding_cache_locs (padding_locs : list Z) (i : LLM42Info) : LLM42Info :=
  i <| padding_cache_locs := Some (slice_to padding_locs (total_padding_cache_slots i)) |>
    <| padding_cache_locs_allocated := None |>.

(** The tokens without their padding. *)
Fixpoint strip_padding (outputs : list Z) (lens : list (Z * Z)) (offset : Z) : list Z :=
  match lens with
  | [] => []
  | (padded_len, actual_len) :: lens' =>
      slice outputs offset (offset + actual_len) ++
      strip_padding outputs lens' (offset + padded_len)
  end.

Definition allocate_padding_kv_cache (i : LLM42Info) : M Allocator (bool * LLM42Info) := λ a,
  if total_padding_cache_slots i =? 0 then (Ok (true, i), a) else
  let ps := page_size a in
  let slots_to_allocate :=
    if 1 <? ps then (total_padding_cache_slots i + ps - 1) / ps * ps
    else total_padding_cache_slots i in
  match alloc slots_to_allocate a with
  | (Raise e, a) => (Raise e, a)
  | (Ok allocated_locs, a) =>
      let i := i <| padding_cache_locs_allocated := allocated_locs |> in
      let i := match allocated_locs with
               | Some locs =>
                   if 0 <? len locs then
                     if total_padding_cache_slots i <? len locs
                     then i <| padding_cache_locs :=
                                 Some (slice_to locs (total_padding_cache_slots i)) |>
                     else i <| padding_cache_locs := Some locs |>
                   else i <| padding_cache_locs := None |>
               | None => i <| padding_cache_locs := None |>
               end in
      match padding_cache_locs i with
      | Some (_ :: _) => (Ok (true, i), a)
      | _ =>
          (Ok (false,
             i <| original_outputs := strip_padding (original_outputs i)
                    (zip (padded_lens i) (output_lens i)) 0 |>
               <| padded_lens := output_lens i |>
               <| padding_counts := times 0 (len (padding_counts i)) |>
               <| padding_cache_slots := times 0 (len (padding_cache_slots i)) |>
               <| padding_masks := (λ l, times true l) <$> output_lens i |>
               <| total_padding_cache_slots := 0 |>), a)
      end
  end.

Definition free_padding_kv_cache (i : LLM42Info) : M Allocator LLM42Info := λ a,
  match padding_cache_locs_allocated i with
  | Some locs =>
      if 0 <? len locs then
        match free locs a with
        | (Ok _, a) => (Ok (i <| padding_cache_locs_allocated := None |>
                              <| padding_cache_locs := None |>), a)
        | (Raise e, a) => (Raise e, a)
        end
      else (Ok i, a)
  | None => (Ok i, a)
  end.

End Info.

(** ** The verification batch *)

Inductive ForwardMode : Type :=
| EXTEND | DECODE | MIXED | IDLE | TARGET_VERIFY | TARGET_LLM42_VERIFY
| DRAFT_EXTEND | DRAFT_EXTEND_V2 | PREBUILT | SPLIT_PREFILL | DLLM_EXTEND.

(** The per-token sampling tensors of [SamplingBatchInfo]; the penalty,
    logit-bias and custom-processor objects are not modelled. *)
Record SamplingInfo : Type := mkSamplingInfo {
  temperatures : list float;
  top_ps : list float;
  top_ks : list Z;
  min_ps : list float;
  sampling_seeds : option (list Z);
  deterministic_indices : list Z;
  force_pytorch_backend : bool
}.

Record VerifyBatch : Type := mkVerifyBatch {
  vb_reqs : list Req;
  vb_forward_mode : ForwardMode;
  vb_input_ids : list Z;
  vb_out_cache_loc : list Z;
  vb_req_pool_indices : list Z;
  vb_extend_lens : list Z;
  vb_prefix_lens : list Z;
  vb_seq_lens : list Z;
  vb_extend_logprob_start_lens : list Z;
  vb_extend_num_tokens : Z;
  vb_seq_lens_sum : Z;
  vb_orig_seq_lens : list Z;
  vb_return_logprob : bool;
  vb_top_logprobs_nums : list Z;
  vb_sampling_info : SamplingInfo
}.

(** The dummy arguments of [prepare_verify_batch]. *)
Record DummySampling : Type := mkDummySampling {
  d_temps : list float;
  d_top_ps : list float;
  d_top_ks : list Z;
  d_min_ps : list float;
  d_seeds : list Z;
  d_det_indices : list Z;
  d_prefix_lens : list Z;
  d_output_lens : list Z
}.

Record DummyArgs : Type := mkDummyArgs {
  da_input_ids : option (list Z);
  da_cache_locs : option (list Z);
  da_req_pool_indices : option (list Z);
  da_num_dummies : Z;
  da_window_size : option Z;
  da_sampling : option DummySampling
}.

Definition no_dummies : DummyArgs := mkDummyArgs None None None 0 None None.

Definition f_zero : float := S754_zero false.
Definition f_one : float := f64_of_Z 1.

(** [t1 + t2] on tensors of one length *)
Definition tadd (xs ys : list Z) : res (list Z) :=
  if decide (length xs = length ys) then Ok (zip_with Z.add xs ys) else Raise RuntimeError.

Module Verify.

(** [SamplingBatchInfo.from_schedule_batch], the per-request tensors.
    Seeds are present when [enable_deterministic] is set. *)
Definition sampling_of (enable_deterministic : bool) (reqs : list Req) : SamplingInfo :=
  mkSamplingInfo
    ((λ r, temperature (sampling_params r)) <$> reqs)
    ((λ r, top_p (sampling_params r)) <$> reqs)
    ((λ r, top_k (sampling_params r)) <$> reqs)
    ((λ r, min_p (sampling_params r)) <$> reqs)
    (if enable_deterministic
     then Some ((λ r, default 42 (sampling_seed (sampling_params r))) <$> reqs)
     else None)
    ((λ r, Z.b2z (is_deterministic r)) <$> reqs)
    false.

(** The context token a window starts from.  The request has no
    [input_ids] attribute, so the third alternative of the code raises. *)
Definition context_token (r : Req) : res Z :=
  if 0 <? llm42_verified_tokens r
  then getitem (output_ids r) (llm42_verified_tokens r - 1)
  else match origin_input_ids r with
       | [] => Raise AttributeError
       | _ => getitem (origin_input_ids r) (-1)
       end.

(** The inputs of one request. *)
Definition window_inputs (padded_len actual_len ctx : Z) (r : Req) : list Z :=
  let actual_unverified := slice_from (output_ids r) (llm42_verified_tokens r) in
  if actual_len <? padded_len then
    let tokens_after_context :=
      if 1 <? actual_len then slice_to actual_unverified (-1) else [] in
    let padding_needed := padded_len - 1 - len tokens_after_context in
    ctx :: tokens_after_context ++ times DUMMY_TOKEN_ID padding_needed
  else ctx :: slice_to actual_unverified (-1).

(** The locals of the first loop. *)
Record Inputs : Type := mkInputs {
  in_ids : list Z;
  in_pool : list Z;
  in_lens : list Z;
  in_prefix : list Z
}.

Definition input_step (i : LLM42Info) (acc : Inputs) (ir : Z * Req) : res Inputs :=
  let '(k, r) := ir in
  padded_len ← getitem (padded_lens i) k;
  actual_len ← getitem (output_lens i) k;
  if padded_len =? 0 then Ok acc else
  ctx ← context_token r;
  let ids := in_ids acc ++ window_inputs padded_len actual_len ctx r in
  match req_pool_idx r with
  | None => Ok (mkInputs ids (in_pool acc) (in_lens acc) (in_prefix acc))
  | Some idx =>
      Ok (mkInputs ids (in_pool acc ++ [idx]) (in_lens acc ++ [padded_len])
            (in_prefix acc ++ [len (origin_input_ids r) + llm42_verified_tokens r - 1]))
  end.

(** The KV slots of one request: the slot of the context token, the slots
    decode wrote, then padding slots from [padding_offset] on. *)
Definition cache_step (i : LLM42Info) (pool : ReqToTokenPool)
    (acc : list Z * Z) (ir : Z * Req) : res (list Z * Z) :=
  let '(k, r) := ir in
  let '(locs, padding_offset) := acc in
  let current_seq_len := len (origin_input_ids r) + len (output_ids r) - 1 in
  let context_idx := len (origin_input_ids r) + llm42_verified_tokens r - 1 in
  _ ← getitem (output_lens i) k;
  padded_len ← getitem (padded_lens i) k;
  _ ← getitem (padding_counts i) k;
  if current_seq_len <=? context_idx then Raise RuntimeError else
  idx ← of_option RuntimeError (req_pool_idx r);
  context_cache_loc ← Pool.read pool idx context_idx;
  let start_idx := len (origin_input_ids r) + llm42_verified_tokens r in
  let num_cache_after_context := padded_len - 1 in
  let end_idx := Z.min (start_idx + num_cache_after_context) current_seq_len in
  output_cache_locs ← (if start_idx <? end_idx
                       then Pool.read_row pool idx start_idx end_idx else Ok []);
  let remaining_needed := num_cache_after_context - (end_idx - start_idx) in
  let locs := locs ++ context_cache_loc :: output_cache_locs in
  match padding_cache_locs i with
  | Some plocs =>
      if 0 <? remaining_needed
      then Ok (locs ++ slice plocs padding_offset (padding_offset + remaining_needed),
               padding_offset + remaining_needed)
      else Ok (locs, padding_offset)
  | None => Ok (locs, padding_offset)
  end.

(** The sampling tensors with one element per token. *)
Definition repeat_sampling (si : SamplingInfo) (tokens_per_request : list Z) : res SamplingInfo :=
  ts ← repeat_interleave (temperatures si) tokens_per_request;
  ks ← repeat_interleave (top_ks si) tokens_per_request;
  ps ← repeat_interleave (top_ps si) tokens_per_request;
  ms ← repeat_interleave (min_ps si) tokens_per_request;
  seeds ← match sampling_seeds si with
          | Some s => s' ← repeat_interleave s tokens_per_request; Ok (Some s')
          | None => Ok None
          end;
  ds ← repeat_interleave (deterministic_indices si) tokens_per_request;
  Ok (mkSamplingInfo ts ps ks ms seeds ds true).

(** The sampling tensors extended with those of the dummies. *)
Definition extend_sampling (si : SamplingInfo) (n : Z) (d : option DummySampling) : SamplingInfo :=
  match d with
  | Some d =>
      mkSamplingInfo (temperatures si ++ d_temps d) (top_ps si ++ d_top_ps d)
        (top_ks si ++ d_top_ks d) (min_ps si ++ d_min_ps d)
        ((λ s, s ++ d_seeds d) <$> sampling_seeds si)
        (deterministic_indices si ++ d_det_indices d) (force_pytorch_backend si)
  | None =>
      mkSamplingInfo (temperatures si ++ times f_zero n) (top_ps si ++ times f_one n)
        (top_ks si ++ times (-1) n) (min_ps si ++ times f_zero n)
        ((λ s, s ++ times 0 n) <$> sampling_seeds si)
        (deterministic_indices si ++ times 1 n) (force_pytorch_backend si)
  end.

(** The row indices of the dummies. *)
Definition dummy_pool_indices (d : DummyArgs) (real : list Z) : list Z :=
  match da_req_pool_indices d with
  | Some l => slice_to l (da_num_dummies d)
  | None => times (match real with x :: _ => x | [] => 0 end) (da_num_dummies d)
  end.

(** The final consistency check. *)
Definition checked (b : VerifyBatch) : res VerifyBatch :=
  if len (vb_out_cache_loc b) =? len (vb_input_ids b) then Ok b else Raise RuntimeError.

(** The branch that appends the dummies. *)
Definition with_dummies (reqs : list Req) (acc : Inputs) (locs : list Z) (si : SamplingInfo)
    (d : DummyArgs) (d_ids d_locs : list Z) : res VerifyBatch :=
  w ← of_option ValueError (da_window_size d);
  let n := da_num_dummies d in
  let dummy_tokens_needed := n * w in
  let ids := in_ids acc ++ slice_to d_ids dummy_tokens_needed in
  let out_locs := locs ++ slice_to d_locs dummy_tokens_needed in
  let '(dpre, dext) :=
    match da_sampling d with
    | Some s => (d_prefix_lens s, d_output_lens s)
    | None => (times 0 n, times w n)
    end in
  let pre := in_prefix acc ++ dpre in
  let ext := in_lens acc ++ dext in
  seq ← tadd pre ext;
  checked (mkVerifyBatch reqs TARGET_LLM42_VERIFY ids out_locs
    (in_pool acc ++ dummy_pool_indices d (in_pool acc)) ext pre seq
    (times 1 (len reqs + n)) (len ids) (zsum seq) seq true (times 0 (len reqs + n))
    (extend_sampling si dummy_tokens_needed (da_sampling d))).

Definition without_dummies (reqs : list Req) (acc : Inputs) (locs : list Z) (si : SamplingInfo)
    : res VerifyBatch :=
  seq ← tadd (in_prefix acc) (in_lens acc);
  checked (mkVerifyBatch reqs TARGET_LLM42_VERIFY (in_ids acc) locs (in_pool acc)
    (in_lens acc) (in_prefix acc) seq (times 1 (len reqs)) (len (in_ids acc)) (zsum seq) seq
    true (times 0 (len reqs)) si).

Definition prepare_verify_batch (i : LLM42Info) (enable_deterministic : bool)
    (pool : ReqToTokenPool) (reqs : list Req) (d : DummyArgs) : res VerifyBatch :=
  acc ← foldR (input_step i) (mkInputs [] [] [] []) (enumerate reqs);
  si ← repeat_sampling (sampling_of enable_deterministic reqs) (in_lens acc);
  '(locs, _) ← foldR (cache_step i pool) ([], 0) (enumerate reqs);
  match da_input_ids d, da_cache_locs d with
  | Some d_ids, Some d_locs =>
      if 0 <? da_num_dummies d then with_dummies reqs acc locs si d d_ids d_locs
      else without_dummies reqs acc locs si
  | _, _ => without_dummies reqs acc locs si
  end.

(** ** Comparison and rollback *)

(** [np.where(orig != verify)[0]], the positions that differ *)
Definition mismatches (xs ys : list Z) : list Z :=
  (filter (λ '(k, (x, y)), x ≠ y) (enumerate (zip xs ys))).*1.

Definition first_mismatch_position (original_ids verified_ids : list Z) : Z :=
  let min_len := Z.min (len original_ids) (len verified_ids) in
  if min_len =? 0 then 0 else
  match mismatches (slice_to original_ids min_len) (slice_to verified_ids min_len) with
  | m :: _ => m
  | [] => min_len
  end.

(** [[xs[j] for j in range(padded_len) if mask[j]]] *)
Definition masked {A} (xs : list A) (padded_len : Z) (mask : list bool) : res (list A) :=
  foldR (λ acc j,
    b ← getitem mask j;
    if (b : bool) then x ← getitem xs j; Ok (acc ++ [x]) else Ok acc)
    [] (range 0 padded_len).

(** [[original_ids[offset + j] for j in range(padded_len) if mask[j]]] *)
Definition masked_at {A} (xs : list A) (offset padded_len : Z) (mask : list bool) : res (list A) :=
  foldR (λ acc j,
    b ← getitem mask j;
    if (b : bool) then x ← getitem xs (offset + j); Ok (acc ++ [x]) else Ok acc)
    [] (range 0 padded_len).

(** The log-probabilities of a verified window replace those of decode.
    [output_token_logprobs_val] and [output_token_logprobs_idx] are [None]
    together ([Req.__init__] sets both), so the index list is there whenever
    the value list is. *)
Definition replace_logprobs (actual_len : Z) (vals : list float) (idx : list Z) (r : Req) : Req :=
  match output_token_logprobs_val r with
  | Some old =>
      r <| output_token_logprobs_val := Some (slice_to old (- actual_len) ++ vals) |>
        <| output_token_logprobs_idx ::= λ o, (λ l, slice_to l (- actual_len) ++ idx) <$> o |>
  | None => r
  end.

(** The rollback branch: truncate, drop the finish, append the verifier's
    token. *)
Definition rollback (actual_len mismatch_pos tokens_to_rollback : Z)
    (verify_output : list Z) (verify_logprobs : option (list float)) (r : Req)
    : res (Req * (Z * Z)) :=
  let r := r <| output_ids := slice_to (output_ids r) (- tokens_to_rollback) |> in
  let r := match verify_logprobs with
           | Some lps => replace_logprobs actual_len (slice_to lps mismatch_pos)
                           (slice_to verify_output mismatch_pos) r
           | None => r
           end in
  let r := r <| finished_reason := None |> in
  if mismatch_pos <? len verify_output then
    t ← getitem verify_output mismatch_pos;
    let r := r <| output_ids ::= λ ids, ids ++ [t] |> in
    r ← match verify_logprobs, output_token_logprobs_val r with
        | Some lps, Some _ =>
            lp ← getitem lps mismatch_pos;
            Ok (r <| output_token_logprobs_val ::= λ o, (λ l, l ++ [lp]) <$> o |>
                  <| output_token_logprobs_idx ::= λ o, (λ l, l ++ [t]) <$> o |>)
        | _, _ => Ok r
        end;
    Ok (r, (mismatch_pos, tokens_to_rollback - 1))
  else Ok (r, (mismatch_pos, tokens_to_rollback)).

(** One iteration of the loop of [verify_and_compare]. *)
Definition compare_one (i : LLM42Info) (verified_token_ids : list Z)
    (verified_logprobs : option (list float)) (mismatch_percentage : option float)
    (k offset : Z) (r : Req) : res (Req * (Z * Z) * Z) :=
  padded_len ← getitem (padded_lens i) k;
  actual_len ← getitem (output_lens i) k;
  mask ← getitem (padding_masks i) k;
  orig_output ← masked_at (original_outputs i) offset padded_len mask;
  verify_output ← masked (slice verified_token_ids offset (offset + padded_len)) padded_len mask;
  verify_logprobs ←
    match verified_logprobs with
    | Some l => x ← masked (slice l offset (offset + padded_len)) padded_len mask; Ok (Some x)
    | None => Ok None
    end;
  let mismatch_pos := first_mismatch_position orig_output verify_output in
  let tokens_to_rollback := len orig_output - mismatch_pos in
  '(mismatch_pos, tokens_to_rollback) ←
    match mismatch_percentage with
    | Some pct =>
        if 0 <? len orig_output then
          t ← ceil_pct pct (len orig_output);
          Ok (len orig_output - t, t)
        else Ok (mismatch_pos, tokens_to_rollback)
    | None => Ok (mismatch_pos, tokens_to_rollback)
    end;
  '(r, info) ←
    (if 0 <? tokens_to_rollback
     then rollback actual_len mismatch_pos tokens_to_rollback verify_output verify_logprobs r
     else Ok (match verify_logprobs with
              | Some lps => replace_logprobs actual_len lps verify_output r
              | None => r
              end, (mismatch_pos, 0)));
  let r := match verify_logprobs, output_token_logprobs_val r with
           | Some _, Some vals => r <| send_output_token_logprobs_offset := len vals |>
           | _, _ => r
           end in
  Ok (r, info, offset + padded_len).

(** The loop over the real requests; the ones beyond [num_to_process] are
    untouched. *)
Fixpoint compare_loop (i : LLM42Info) (verified_token_ids : list Z)
    (verified_logprobs : option (list float)) (mismatch_percentage : option float)
    (n : nat) (k offset : Z) (reqs : list Req) : res (list Req * list (Z * Z)) :=
  match n, reqs with
  | S n', r :: reqs' =>
      '(r, info, offset) ←
        compare_one i verified_token_ids verified_logprobs mismatch_percentage k offset r;
      '(reqs', infos) ←
        compare_loop i verified_token_ids verified_logprobs mismatch_percentage
          n' (k + 1) offset reqs';
      Ok (r :: reqs', info :: infos)
  | _, _ => Ok (reqs, [])
  end.

Definition verify_and_compare (i : LLM42Info) (reqs : list Req) (verified_token_ids : list Z)
    (verified_logprobs : option (list float)) (mismatch_percentage : option float)
    : res (list Req * list (Z * Z)) :=
  let num_to_process := Z.min (len reqs) (num_real_requests i) in
  compare_loop i verified_token_ids verified_logprobs mismatch_percentage
    (Z.to_nat num_to_process) 0 0 reqs.

End Verify.
