(* ===== verification/Demo.v ===== *)
(** * Concrete requests and pools

    Small inputs at which the hypotheses of the theorems hold. *)

From S2P Require Import Prelude PyFloat Allocator Request ReqPool LLM42Info.

Module Demo.

Definition params (max_new : Z) (stops : list Z) : SamplingParams :=
  mkSamplingParams max_new false stops [] [] 0 0 f_one f_one (-1) f_zero (Some 7) None true true false.

(** A deterministic request in row [row] with its prompt, its outputs and
    the number of verified ones; its KV covers all tokens but the last. *)
Definition req (id : string) (row : option Z) (prompt outs : list Z) (verified : Z) : Req :=
  let kv := len prompt + len outs - 1 in
  mkReq id prompt prompt outs [] kv kv false false 0 0 (params 8 [2]) row
    None None None false None true [] 1000 None None "" [] 0 [] 0 0 None 0 None None 0
    false false 0 0 0 0 0 false (-1) None None false None None None None true verified 0 0 0 0.

(** Two requests: one with a full window of three unverified tokens, one
    with a single unverified token. *)
Definition req_a : Req := req "a" (Some 0) [11; 12] [20; 21; 22; 23] 1.
Definition req_b : Req := req "b" (Some 1) [15] [30; 31] 1.
Definition reqs : list Req := [req_a; req_b].

(** The slots of [req_a] are 1 to 5, those of [req_b] 6 and 7; rows 2 and 3
    belong to the dummies. *)
Definition pool : ReqToTokenPool :=
  mkReqToTokenPool 4 8
    [[1; 2; 3; 4; 5; 0; 0; 0]; [6; 7; 0; 0; 0; 0; 0; 0];
     [8; 9; 10; 0; 0; 0; 0; 0]; [11; 12; 13; 0; 0; 0; 0; 0]] [].

(** One dummy of a pool whose windows are three tokens long. *)
Definition dummy_sampling : DummySampling :=
  mkDummySampling (times f_zero 3) (times f_one 3) (times (-1) 3) (times f_zero 3)
    (times 0 3) (times 1 3) (times 0 1) (times 3 1).
Definition dummies : DummyArgs :=
  mkDummyArgs (Some (times DUMMY_TOKEN_ID 3)) (Some [8; 9; 10]) (Some [2]) 1 (Some 3)
    (Some dummy_sampling).
Definition plocs : list Z := [14; 15; 16; 17; 18; 19].

End Demo.
