(* ===== verification/InfoFacts.v ===== *)
(** * Theorems on verification batches (srt/llm42/llm42_info.py)

    [Window] has the data of one window: its shape, its inputs, its KV slots.
    [Batch] lifts it to the loops over the requests.  [Compare] relates the
    comparison to the longest common prefix and gives the state of a request
    after verification. *)

From S2P Require Import Prelude PyFloat Allocator AllocatorFacts Request ReqPool LLM42Info Demo.

(** ** Loops *)

Lemma foldR_app {A B} (f : B → A → res B) xs ys b :
  foldR f b (xs ++ ys) = b' ← foldR f b xs; foldR f b' ys.
Proof.
  revert b. induction xs as [|x xs IH]; intros b; [done|]. cbn [foldR app].
  destruct (f b x); [apply IH|done].
Qed.

Lemma foldR_ext {A B} (f g : B → A → res B) xs b :
  (∀ b x, x ∈ xs → f b x = g b x) → foldR f b xs = foldR g b xs.
Proof.
  revert b. induction xs as [|x xs IH]; intros b E; [done|]. cbn [foldR].
  rewrite E by set_solver. destruct (g b x); [|done]. apply IH. set_solver.
Qed.

Lemma foldR_id {A B} (f : B → A → res B) xs b :
  (∀ b x, x ∈ xs → f b x = Ok b) → foldR f b xs = Ok b.
Proof.
  revert b. induction xs as [|x xs IH]; intros b E; [done|]. cbn [foldR].
  rewrite E by set_solver. apply IH. set_solver.
Qed.

(** [enumerate] from an index on. *)
Definition enum_from {A} (k : Z) (xs : list A) : list (Z * A) :=
  zip (range k (k + len xs)) xs.

Lemma enumerate_from {A} (xs : list A) : enumerate xs = enum_from 0 xs.
Proof. done. Qed.

Lemma enum_from_cons {A} k x (xs : list A) :
  enum_from k (x :: xs) = (k, x) :: enum_from (k + 1) xs.
Proof.
  unfold enum_from. rewrite range_cons by llia. cbn. f_equal.
  f_equal. f_equal. llia.
Qed.

Lemma enum_from_nil {A} k : enum_from k (@nil A) = [].
Proof. unfold enum_from. by rewrite zip_with_nil_r. Qed.

Module Compare.

(** ** The first mismatch *)

(** The length of the longest common prefix. *)
Fixpoint lcp (xs ys : list Z) : nat :=
  match xs, ys with
  | x :: xs', y :: ys' => if decide (x = y) then S (lcp xs' ys') else 0
  | _, _ => 0
  end.

Lemma lcp_le xs ys : (lcp xs ys ≤ length xs)%nat ∧ (lcp xs ys ≤ length ys)%nat.
Proof.
  revert ys. induction xs as [|x xs IH]; intros [|y ys]; cbn; try lia.
  destruct (decide (x = y)); [|lia]. specialize (IH ys). lia.
Qed.

Lemma lcp_take xs ys : take (lcp xs ys) xs = take (lcp xs ys) ys.
Proof.
  revert ys. induction xs as [|x xs IH]; intros [|y ys]; cbn; try done.
  destruct (decide (x = y)) as [->|]; [|done]. cbn. by rewrite IH.
Qed.

Lemma lcp_neq xs ys : xs !! lcp xs ys ≠ ys !! lcp xs ys ∨
  (xs !! lcp xs ys = None ∧ ys !! lcp xs ys = None).
Proof.
  revert ys. induction xs as [|x xs IH]; intros [|y ys]; cbn [lcp].
  - by right.
  - by left.
  - by left.
  - destruct (decide (x = y)) as [->|]; cbn; [apply IH|]. left. congruence.
Qed.

(** The positions that differ, from an index on. *)
Definition mism_from (k : Z) (xs ys : list Z) : list Z :=
  (filter (λ '(k, (x, y)), x ≠ y) (enum_from k (zip xs ys))).*1.

Lemma mism_from_head k xs ys :
  head (mism_from k xs ys) =
  if decide (lcp xs ys = Nat.min (length xs) (length ys))
  then None else Some (k + Z.of_nat (lcp xs ys)).
Proof.
  revert k ys. induction xs as [|x xs IH]; intros k [|y ys];
    unfold mism_from; try (cbn [zip_with]; by rewrite enum_from_nil).
  unfold mism_from. cbn [zip_with lcp length]. rewrite enum_from_cons.
  rewrite filter_cons. destruct (decide (x = y)) as [->|Hn].
  - rewrite decide_False by auto. fold (mism_from (k + 1) xs ys). rewrite IH.
    rewrite <- Nat.succ_min_distr. repeat case_decide; try lia; [done|].
    f_equal. lia.
  - rewrite decide_True by done. cbn. f_equal. lia.
Qed.

Lemma first_mismatch_lcp xs ys :
  Verify.first_mismatch_position xs ys = Z.of_nat (lcp xs ys).
Proof.
  unfold Verify.first_mismatch_position. pose proof (lcp_le xs ys) as Hl.
  destruct (Z.eqb_spec (Z.min (len xs) (len ys)) 0) as [E|E].
  { unfold len in E. lia. }
  rewrite !slice_to_take by llia.
  set (n := Z.to_nat (Z.min (len xs) (len ys))).
  assert (Hn : n = Nat.min (length xs) (length ys)) by (unfold n, len; lia).
  assert (Et : lcp (take n xs) (take n ys) = lcp xs ys).
  { rewrite Hn. clear. revert ys. induction xs as [|x xs IH]; intros [|y ys]; cbn; try done.
    case_decide; [|done]. by rewrite IH. }
  pose proof (mism_from_head 0 (take n xs) (take n ys)) as H.
  unfold mism_from in H. rewrite <- enumerate_from in H.
  fold (Verify.mismatches (take n xs) (take n ys)) in H.
  rewrite Et, !length_take in H. unfold len.
  destruct (Verify.mismatches _ _); case_decide; cbn in H; simplify_eq; lia.
Qed.

(** ** Masks *)

Definition window_mask (actual padded : Z) : list bool :=
  times true actual ++ times false (padded - actual).

Lemma getitem_window_mask actual padded j :
  0 ≤ actual ≤ padded → 0 ≤ j < padded →
  getitem (window_mask actual padded) j = Ok (bool_decide (j < actual)).
Proof.
  intros Ha Hj. apply getitem_nth; [lia|]. unfold window_mask, times.
  destruct (decide (j < actual)).
  - rewrite lookup_app_l by (rewrite length_replicate; lia).
    rewrite lookup_replicate_2 by lia. by rewrite bool_decide_true.
  - rewrite lookup_app_r by (rewrite length_replicate; lia).
    rewrite lookup_replicate_2 by (rewrite length_replicate; lia).
    by rewrite bool_decide_false.
Qed.

Lemma masked_at_window {A} (xs : list A) offset actual padded :
  0 ≤ offset → 0 ≤ actual ≤ padded → offset + actual ≤ len xs →
  Verify.masked_at xs offset padded (window_mask actual padded)
  = Ok (slice xs offset (offset + actual)).
Proof.
  intros Ho Ha Hl. unfold Verify.masked_at.
  rewrite (range_app 0 actual padded), foldR_app by lia.
  assert (E : ∀ n : nat, Z.of_nat n ≤ actual →
    foldR (λ acc j, b ← getitem (window_mask actual padded) j;
      if (b : bool) then x ← getitem xs (offset + j); Ok (acc ++ [x]) else Ok acc)
      [] (range 0 (Z.of_nat n)) = Ok (take n (drop (Z.to_nat offset) xs))).
  { induction n as [|n IH]; intros Hn; [done|].
    rewrite Nat2Z.inj_succ. unfold Z.succ. rewrite range_snoc, foldR_app, IH by lia.
    cbn [foldR mbind res_bind]. rewrite getitem_window_mask by lia.
    rewrite bool_decide_true by lia. cbn.
    destruct (getitem_lt xs (offset + Z.of_nat n)) as (x & E1 & E2); [lia|].
    rewrite E1. cbn. f_equal. symmetry. apply take_S_r.
    rewrite lookup_drop. rewrite <- E2. f_equal. lia. }
  specialize (E (Z.to_nat actual)). rewrite Z2Nat.id in E by lia.
  rewrite E by lia. cbn [mbind res_bind]. rewrite foldR_id.
  { f_equal. rewrite slice_nonneg by lia. f_equal. lia. }
  intros b j Hj%elem_of_range. rewrite getitem_window_mask by lia.
  by rewrite bool_decide_false by lia.
Qed.

Lemma masked_masked_at {A} (xs : list A) padded mask :
  Verify.masked xs padded mask = Verify.masked_at xs 0 padded mask.
Proof. done. Qed.

Lemma masked_window {A} (xs : list A) offset actual padded :
  0 ≤ offset → 0 ≤ actual ≤ padded → offset + actual ≤ len xs →
  Verify.masked (slice xs offset (offset + padded)) padded (window_mask actual padded)
  = Ok (slice xs offset (offset + actual)).
Proof.
  intros Ho Ha Hl. rewrite masked_masked_at, masked_at_window; [|lia|lia|].
  - f_equal. rewrite !slice_nonneg by lia. change (Z.to_nat 0) with 0%nat.
    rewrite drop_0, take_take. f_equal. lia.
  - rewrite slice_nonneg, len_take, len_drop by lia. lia.
Qed.

(** ** The outcome of one window *)

(** What verification changes of a request, and nothing else. *)
Definition frame (r r' : Req) : Prop :=
  r' = r <| output_ids := output_ids r' |>
         <| finished_reason := finished_reason r' |>
         <| output_token_logprobs_val := output_token_logprobs_val r' |>
         <| output_token_logprobs_idx := output_token_logprobs_idx r' |>
         <| send_output_token_logprobs_offset := send_output_token_logprobs_offset r' |>.

(** The number of tokens a window commits: the agreeing ones and, after a
    mismatch, the verifier's token. *)
Definition commit_len (u vs : list Z) : nat := Nat.min (length u) (S (lcp u vs)).

(** The window [u], the verifier's tokens [vs] and log-probabilities [lps]
    for it: the request [r] becomes [r'] and [info] is reported. *)
Record outcome (u vs : list Z) (lps : option (list float)) (r r' : Req) (info : Z * Z)
    : Prop := {
  oc_ids : output_ids r' =
    take (length (output_ids r) - length u) (output_ids r) ++ take (commit_len u vs) vs;
  oc_info : info = (Z.of_nat (lcp u vs), Z.of_nat (length u - commit_len u vs));
  oc_finished : finished_reason r' =
    if decide (lcp u vs = length u) then finished_reason r else None;
  oc_vals : output_token_logprobs_val r' =
    match lps, output_token_logprobs_val r with
    | Some l, Some old => Some (take (length old - length u) old ++ take (commit_len u vs) l)
    | _, o => o
    end;
  oc_frame : frame r r'
}.

Lemma commit_len_full u vs : lcp u vs = length u → commit_len u vs = length u.
Proof. unfold commit_len. lia. Qed.

Lemma commit_len_part u vs :
  lcp u vs ≠ length u → commit_len u vs = S (lcp u vs) ∧ (S (lcp u vs) ≤ length u)%nat.
Proof. unfold commit_len. pose proof (lcp_le u vs). lia. Qed.

Lemma take_commit_len u vs :
  (length u ≤ length vs)%nat → lcp u vs ≠ length u →
  ∃ t, vs !! lcp u vs = Some t ∧ take (commit_len u vs) vs = take (lcp u vs) u ++ [t].
Proof.
  intros Hl Hne. destruct (commit_len_part u vs Hne) as [-> ?].
  destruct (lookup_lt_is_Some_2 vs (lcp u vs)) as [t E]; [lia|].
  exists t. split; [done|]. rewrite lcp_take. by apply take_S_r.
Qed.

Lemma slice_to_minus {A B} (xs : list A) (u : list B) :
  (0 < length u)%nat → slice_to xs (- len u) = take (length xs - length u) xs.
Proof. intros. rewrite slice_to_neg by (unfold len; lia). f_equal. unfold len. lia. Qed.

(** The whole window agrees. *)
Lemma outcome_agree u vs lps r :
  lcp u vs = length u → length vs = length u → (0 < length u)%nat →
  (∃ x, output_ids r = x ++ u) →
  (∀ l, lps = Some l → length l = length u) →
  let r1 := match lps with
            | Some l => Verify.replace_logprobs (len u) l vs r
            | None => r
            end in
  outcome u vs lps r
    (match lps, output_token_logprobs_val r1 with
     | Some _, Some vals => r1 <| send_output_token_logprobs_offset := len vals |>
     | _, _ => r1
     end) (Z.of_nat (lcp u vs), 0).
Proof.
  intros He Hv Hp [x Hx] Hlp.
  assert (Hids : output_ids r =
    take (length (output_ids r) - length u) (output_ids r) ++ take (commit_len u vs) vs).
  { rewrite (commit_len_full u vs He), Hx, length_app.
    rewrite Nat.add_sub, take_app_length. f_equal.
    pose proof (lcp_take u vs) as E. rewrite He, firstn_all in E. done. }
  unfold Verify.replace_logprobs.
  destruct lps as [l|]; cbv zeta; [|].
  - specialize (Hlp l eq_refl).
    destruct (output_token_logprobs_val r) as [old|] eqn:Eo; cbv beta zeta; rsimpl.
    + split; rsimpl.
      * done.
      * by rewrite commit_len_full, Nat.sub_diag.
      * by rewrite decide_True.
      * rewrite Eo, (commit_len_full u vs He), <- Hlp, firstn_all, Hlp.
        by rewrite slice_to_minus.
      * destruct r; reflexivity.
    + rewrite Eo. split.
      * done.
      * by rewrite commit_len_full, Nat.sub_diag.
      * by rewrite decide_True.
      * by rewrite Eo.
      * destruct r; reflexivity.
  - split; [done| |by rewrite decide_True|done|by destruct r].
    by rewrite commit_len_full, Nat.sub_diag.
Qed.

(** The rollback branch. *)
Lemma rollback_outcome u vs lps r :
  lcp u vs ≠ length u → length vs = length u →
  (∃ x, output_ids r = x ++ u) →
  (∀ l, lps = Some l → length l = length u) →
  ∃ r1 info,
    Verify.rollback (len u) (Z.of_nat (lcp u vs)) (len u - Z.of_nat (lcp u vs)) vs lps r
      = Ok (r1, info) ∧
    outcome u vs lps r
      (match lps, output_token_logprobs_val r1 with
       | Some _, Some vals => r1 <| send_output_token_logprobs_offset := len vals |>
       | _, _ => r1
       end) info.
Proof.
  intros Hne Hv [x Hx] Hlp.
  destruct (commit_len_part u vs Hne) as [Hc Hle].
  destruct (take_commit_len u vs) as (t & Et & Htk); [lia|done|].
  assert (Hids : slice_to (output_ids r) (- (len u - Z.of_nat (lcp u vs))) ++ [t] =
    take (length (output_ids r) - length u) (output_ids r) ++ take (commit_len u vs) vs).
  { rewrite Htk, slice_to_neg by (unfold len; lia). rewrite Hx, length_app, app_assoc.
    f_equal. rewrite Nat.add_sub, take_app_length.
    rewrite take_app_ge by (unfold len; lia). f_equal. f_equal. unfold len; lia. }
  assert (Hgv : getitem vs (Z.of_nat (lcp u vs)) = Ok t).
  { apply getitem_nth; [lia|]. by rewrite Nat2Z.id. }
  assert (Hinfo : (Z.of_nat (lcp u vs), len u - Z.of_nat (lcp u vs) - 1)
    = (Z.of_nat (lcp u vs), Z.of_nat (length u - commit_len u vs))).
  { f_equal. unfold len. lia. }
  unfold Verify.rollback, Verify.replace_logprobs.
  destruct (Z.ltb_spec (Z.of_nat (lcp u vs)) (len vs)); [|unfold len in *; lia].
  destruct lps as [l|].
  - specialize (Hlp l eq_refl).
    destruct (lookup_lt_is_Some_2 l (lcp u vs)) as [lp El]; [lia|].
    assert (Hgl : getitem l (Z.of_nat (lcp u vs)) = Ok lp).
    { apply getitem_nth; [lia|]. by rewrite Nat2Z.id. }
    cbv zeta. rsimpl. destruct (output_token_logprobs_val r) as [old|] eqn:Eo; cbv beta iota zeta.
    + rewrite Hgv. cbn [mbind res_bind]. rsimpl. rewrite Hgl. cbn [mbind res_bind].
      eexists _, _. split; [reflexivity|]. rsimpl. cbn [fmap option_fmap option_map].
      split; rsimpl; [exact Hids|exact Hinfo|by rewrite decide_False| |destruct r; reflexivity].
      rewrite Eo, Hc, (take_S_r l _ _ El), app_assoc. cbn [fmap option_fmap option_map].
      rewrite slice_to_minus, slice_to_take, Nat2Z.id by lia. done.
    + rewrite Hgv. cbn [mbind res_bind]. rsimpl. rewrite Eo. cbn [mbind res_bind].
      eexists _, _. split; [reflexivity|]. rsimpl. rewrite Eo.
      split; rsimpl; [exact Hids|exact Hinfo|by rewrite decide_False|by rewrite Eo|destruct r; reflexivity].
  - cbv zeta. rewrite Hgv. cbn [mbind res_bind].
    eexists _, _. split; [reflexivity|].
    split; rsimpl; [exact Hids|exact Hinfo|by rewrite decide_False|done|destruct r; reflexivity].
Qed.

(** ** One iteration of the comparison *)

(** Entry [k] of the metadata is the window [u], [padded] tokens long with
    its padding, at [offset]. *)
Record window_at (i : LLM42Info) (k offset : Z) (u : list Z) (padded : Z) : Prop := {
  wa_padded : getitem (padded_lens i) k = Ok padded;
  wa_actual : getitem (output_lens i) k = Ok (len u);
  wa_mask : getitem (padding_masks i) k = Ok (window_mask (len u) padded);
  wa_bounds : 0 ≤ offset ∧ len u ≤ padded ∧ 0 < len u;
  wa_tokens : slice (original_outputs i) offset (offset + len u) = u
}.

Lemma window_at_len i k offset u padded :
  window_at i k offset u padded → offset + len u ≤ len (original_outputs i).
Proof.
  intros [_ _ _ Hb E]. apply (f_equal len) in E.
  rewrite slice_nonneg, len_take, len_drop in E by lia. lia.
Qed.

Lemma compare_one_outcome i vts vlps k offset u padded r :
  window_at i k offset u padded →
  (∃ x, output_ids r = x ++ u) →
  offset + padded ≤ len vts →
  (∀ l, vlps = Some l → offset + padded ≤ len l) →
  ∃ r' info,
    Verify.compare_one i vts vlps None k offset r = Ok (r', info, offset + padded) ∧
    outcome u (slice vts offset (offset + len u))
      ((λ l, slice l offset (offset + len u)) <$> vlps) r r' info.
Proof.
  intros Hw Hx Hv Hl. pose proof (window_at_len _ _ _ _ _ Hw) as Hlen.
  destruct Hw as [Hp Ha Hm [Ho [Hup Hu]] Ht].
  unfold Verify.compare_one. rewrite Hp, Ha, Hm. cbn [mbind res_bind].
  rewrite masked_at_window, masked_window, Ht by lia. cbn [mbind res_bind].
  set (vs := slice vts offset (offset + len u)).
  set (lps := (λ l, slice l offset (offset + len u)) <$> vlps).
  assert (Hvs : length vs = length u).
  { unfold vs. rewrite slice_nonneg, length_take, length_drop by lia. unfold len in *. lia. }
  assert (Elp : match vlps with
    | Some l => x ← Verify.masked (slice l offset (offset + padded)) padded
                      (window_mask (len u) padded); Ok (Some x)
    | None => Ok None
    end = Ok lps).
  { destruct vlps as [l|]; [|done]. specialize (Hl l eq_refl).
    by rewrite masked_window by lia. }
  rewrite Elp. cbn [mbind res_bind]. rewrite first_mismatch_lcp.
  assert (Hlps : ∀ l, lps = Some l → length l = length u).
  { unfold lps. destruct vlps as [l|]; cbn; [|done]. intros ? [= <-].
    specialize (Hl l eq_refl).
    rewrite slice_nonneg, length_take, length_drop by lia. unfold len in *. lia. }
  pose proof (lcp_le u vs) as Hle.
  destruct (Z.ltb_spec 0 (len u - Z.of_nat (lcp u vs))).
  - destruct (rollback_outcome u vs lps r) as (r1 & info & E & O); [unfold len in *; lia|done..|].
    rewrite E. cbn [mbind res_bind]. eauto.
  - cbn [mbind res_bind]. eexists _, _. split; [reflexivity|].
    apply outcome_agree; [unfold len in *; lia..|done|done].
Qed.

End Compare.

(** ** The loops over the requests *)

Module Batch.
Import Compare.

Definition unverified (r : Req) : list Z :=
  slice_from (output_ids r) (llm42_verified_tokens r).

(** The tokens of [r] that a pass verifies, and the length they are padded to. *)
Definition window (force_include_all : bool) (window_size : option Z) (r : Req) : list Z :=
  match window_size with
  | Some w => if force_include_all then take (Z.to_nat w) (unverified r) else unverified r
  | None => unverified r
  end.

Definition padded (always_align force_include_all : bool) (window_size : option Z)
    (r : Req) : Z :=
  let n := len (window force_include_all window_size r) in
  match window_size with
  | Some w => if always_align && (n <? w) && (finished r || force_include_all) then w else n
  | None => n
  end.

(** ** The comparison loop *)

Inductive windows_at (i : LLM42Info) : Z → Z → list (list Z * Z) → Prop :=
| windows_nil k offset : windows_at i k offset []
| windows_cons k offset u p ws :
    window_at i k offset u p → windows_at i (k + 1) (offset + p) ws →
    windows_at i k offset ((u, p) :: ws).

Inductive outcomes (vts : list Z) (vlps : option (list float))
    : Z → list (list Z * Z) → list Req → list Req → list (Z * Z) → Prop :=
| outcomes_nil offset : outcomes vts vlps offset [] [] [] []
| outcomes_cons offset u p ws r r' info reqs reqs' infos :
    outcome u (slice vts offset (offset + len u))
      ((λ l, slice l offset (offset + len u)) <$> vlps) r r' info →
    outcomes vts vlps (offset + p) ws reqs reqs' infos →
    outcomes vts vlps offset ((u, p) :: ws) (r :: reqs) (r' :: reqs') (info :: infos).

Lemma windows_at_nonneg i k offset ws :
  windows_at i k offset ws → Forall (λ x, 0 ≤ x) ws.*2.
Proof.
  induction 1 as [|??? p ws [_ _ _ ? _] _ IH]; [constructor|]. cbn. constructor; [lia|done].
Qed.

Lemma compare_loop_outcomes i vts vlps k offset ws reqs :
  windows_at i k offset ws →
  Forall2 (λ w r, ∃ x, output_ids r = x ++ w.1) ws reqs →
  offset + zsum ws.*2 ≤ len vts →
  (∀ l, vlps = Some l → offset + zsum ws.*2 ≤ len l) →
  ∃ reqs' infos,
    Verify.compare_loop i vts vlps None (length reqs) k offset reqs = Ok (reqs', infos) ∧
    outcomes vts vlps offset ws reqs reqs' infos.
Proof.
  intros Hw. revert reqs. induction Hw as [k offset|k offset u p ws Hw Hws IH];
    intros reqs Hf Hv Hl.
  { apply Forall2_nil_inv_l in Hf as ->. eexists _, _. split; [done|constructor]. }
  apply Forall2_cons_inv_l in Hf as (r & reqs' & Hx & Hf & ->).
  pose proof (zsum_nonneg _ (windows_at_nonneg _ _ _ _ Hws)) as Hnn.
  change (zsum ((u, p) :: ws).*2) with (p + zsum ws.*2) in *.
  destruct (compare_one_outcome i vts vlps k offset u p r) as (r' & info & E & O);
    [done|done|lia|intros l El; specialize (Hl l El); lia|].
  destruct (IH reqs' Hf) as (rs & infos & E' & O'); [lia|intros l El; specialize (Hl l El); lia|].
  cbn [length Verify.compare_loop]. rewrite E. cbn [mbind res_bind]. rewrite E'.
  cbn [mbind res_bind]. eexists _, _. split; [done|]. by constructor.
Qed.

Section FromRequests.
Context (always_align force_include_all : bool) (window_size : option Z).
Hypothesis window_size_pos : ∀ w, window_size = Some w → 0 < w.

Local Abbreviation win := (window force_include_all window_size).
Local Abbreviation pad := (padded always_align force_include_all window_size).

Lemma window_prefix r : win r `prefix_of` unverified r.
Proof.
  unfold window. destruct window_size, force_include_all; try done. apply prefix_take.
Qed.

Lemma window_pos r : 0 < len (unverified r) → 0 < len (win r).
Proof.
  intros H. unfold window. destruct window_size as [w|] eqn:E; [|done].
  pose proof (window_size_pos w eq_refl).
  destruct force_include_all; [|done]. rewrite len_take. lia.
Qed.

Lemma len_window_le r : len (win r) ≤ pad r.
Proof.
  unfold padded. destruct window_size as [w|]; [|lia].
  destruct (Z.ltb_spec (len (window force_include_all (Some w) r)) w);
    [|rewrite andb_false_r; cbn; lia].
  destruct (_ && _); lia.
Qed.

(** What one iteration of [from_requests] appends. *)
Lemma entry_spec r :
  0 < len (unverified r) →
  Info.entry always_align force_include_all window_size r =
  Some (Info.mkEntry (win r ++ times DUMMY_TOKEN_ID (pad r - len (win r))) (len (win r))
          (pad r) (window_mask (len (win r)) (pad r)) (pad r - len (win r))).
Proof.
  intros Hu. unfold Info.entry. fold (unverified r).
  destruct (Z.eqb_spec (len (unverified r)) 0); [lia|].
  assert (Hw : ∀ w, window_size = Some w →
    (if force_include_all && (w <? len (unverified r))
     then (slice_to (unverified r) w, w) else (unverified r, len (unverified r)))
    = (win r, len (win r))).
  { intros w E. pose proof (window_size_pos w E). unfold window. rewrite E.
    destruct force_include_all; [|done]. cbn [andb].
    destruct (Z.ltb_spec w (len (unverified r))).
    - rewrite slice_to_take, len_take by lia. f_equal. lia.
    - rewrite take_ge; [done|]. unfold len in *. lia. }
  unfold padded. destruct window_size as [w|] eqn:E.
  - rewrite (Hw w eq_refl). destruct (_ && _ && _); [done|].
    rewrite Z.sub_diag. unfold window_mask. rewrite Z.sub_diag.
    unfold times. cbn [Z.to_nat replicate]. by rewrite !app_nil_r.
  - unfold window. rewrite Z.sub_diag. unfold window_mask. rewrite Z.sub_diag.
    unfold times. cbn [Z.to_nat replicate]. by rewrite !app_nil_r.
Qed.

Lemma entries_spec reqs :
  Forall (λ r, 0 < len (unverified r)) reqs →
  omap (Info.entry always_align force_include_all window_size) reqs =
  (λ r, Info.mkEntry (win r ++ times DUMMY_TOKEN_ID (pad r - len (win r))) (len (win r))
          (pad r) (window_mask (len (win r)) (pad r)) (pad r - len (win r))) <$> reqs.
Proof.
  induction 1 as [|r reqs Hr _ IH]; [done|]. cbn. rewrite entry_spec by done.
  by rewrite IH.
Qed.

(** The metadata as lists over the requests. *)
Lemma from_requests_spec reqs :
  Forall (λ r, 0 < len (unverified r)) reqs →
  Info.from_requests reqs always_align force_include_all window_size =
  Info.init
    (concat ((λ r, win r ++ times DUMMY_TOKEN_ID (pad r - len (win r))) <$> reqs))
    ((λ r, len (win r)) <$> reqs) (pad <$> reqs)
    ((λ r, window_mask (len (win r)) (pad r)) <$> reqs)
    ((λ r, pad r - len (win r)) <$> reqs).
Proof.
  intros H. unfold Info.from_requests. rewrite entries_spec by done.
  by rewrite <- !list_fmap_compose.
Qed.

(** ** Metadata that describes a list of requests

    [from_requests] builds such metadata; appending dummies and assigning
    padding slots keep it. *)
Definition tokens_of (r : Req) : list Z :=
  win r ++ times DUMMY_TOKEN_ID (pad r - len (win r)).

Record describes (i : LLM42Info) (reqs : list Req) : Prop := {
  ds_outputs : original_outputs i = concat (tokens_of <$> reqs);
  ds_lens : ∃ t, output_lens i = ((λ r, len (win r)) <$> reqs) ++ t;
  ds_padded : ∃ t, padded_lens i = (pad <$> reqs) ++ t;
  ds_masks : ∃ t, padding_masks i = ((λ r, window_mask (len (win r)) (pad r)) <$> reqs) ++ t;
  ds_counts : ∃ t, padding_counts i = ((λ r, pad r - len (win r)) <$> reqs) ++ t;
  ds_real : num_real_requests i = len reqs;
  ds_slots : total_padding_cache_slots i = zsum ((λ r, Z.max 0 (pad r - 1)) <$> reqs)
}.

Lemma from_requests_describes reqs :
  Forall (λ r, 0 < len (unverified r)) reqs →
  describes (Info.from_requests reqs always_align force_include_all window_size) reqs.
Proof.
  intros H. rewrite from_requests_spec by done.
  split; cbn; try (eexists []; by rewrite app_nil_r); [done|by rewrite len_fmap|].
  by rewrite <- list_fmap_compose.
Qed.

Lemma append_dummies_describes i reqs n w :
  describes i reqs → describes (Info.append_dummy_entries n w i) reqs.
Proof.
  intros [? [? E1] [? E2] [? E3] [? E4] ? ?]. unfold Info.append_dummy_entries.
  split; rsimpl; try done; eexists; rewrite ?E1, ?E2, ?E3, ?E4, <- app_assoc; reflexivity.
Qed.

Lemma set_padding_describes i reqs locs :
  describes i reqs → describes (Info.set_padding_cache_locs locs i) reqs.
Proof. intros []. unfold Info.set_padding_cache_locs. split; rsimpl; done. Qed.

Lemma len_tokens_of r : len (tokens_of r) = pad r.
Proof. unfold tokens_of. pose proof (len_window_le r). llia. Qed.

Lemma len_concat_tokens reqs : len (concat (tokens_of <$> reqs)) = zsum (pad <$> reqs).
Proof.
  rewrite len_concat, <- list_fmap_compose. f_equal.
  apply list_fmap_ext. intros ? r _. apply len_tokens_of.
Qed.

Lemma getitem_mid {A B} (f : A → B) pre x post t :
  getitem ((f <$> pre ++ x :: post) ++ t) (len pre) = Ok (f x).
Proof.
  apply getitem_nth; [llia|]. unfold len. rewrite Nat2Z.id, fmap_app, <- app_assoc.
  rewrite lookup_app_r by (rewrite length_fmap; lia).
  by rewrite length_fmap, Nat.sub_diag.
Qed.

Lemma describes_at i pre r reqs :
  describes i (pre ++ r :: reqs) →
  getitem (output_lens i) (len pre) = Ok (len (win r)) ∧
  getitem (padded_lens i) (len pre) = Ok (pad r) ∧
  getitem (padding_masks i) (len pre) = Ok (window_mask (len (win r)) (pad r)) ∧
  getitem (padding_counts i) (len pre) = Ok (pad r - len (win r)).
Proof.
  intros [_ [? ->] [? ->] [? ->] [? ->] _ _]. split_and!.
  - apply (getitem_mid (λ r, len (win r))).
  - apply getitem_mid.
  - apply (getitem_mid (λ r, window_mask (len (win r)) (pad r))).
  - apply (getitem_mid (λ r, pad r - len (win r))).
Qed.

Lemma describes_windows_from i pre reqs :
  describes i (pre ++ reqs) → Forall (λ r, 0 < len (unverified r)) reqs →
  windows_at i (len pre) (zsum (pad <$> pre)) ((λ r, (win r, pad r)) <$> reqs).
Proof.
  revert pre. induction reqs as [|r reqs IH]; intros pre D H; [constructor|].
  apply Forall_cons in H as [Hr H]. cbn [fmap list_fmap].
  pose proof (ds_outputs _ _ D) as Ho.
  destruct (describes_at i pre r reqs D) as (E1 & E2 & E3 & _).
  assert (Hnn : 0 ≤ zsum (pad <$> pre)).
  { apply zsum_nonneg, Forall_fmap, Forall_forall. intros x _.
    pose proof (len_window_le x). cbn. llia. }
  constructor.
  - split; [exact E2|exact E1|exact E3|..].
    + pose proof (len_window_le r). pose proof (window_pos r Hr). lia.
    + rewrite Ho, fmap_app, concat_app. cbn [fmap list_fmap concat].
      unfold tokens_of at 2. rewrite <- !app_assoc. rewrite <- len_concat_tokens.
      by apply slice_app.
  - specialize (IH (pre ++ [r])). rewrite <- app_assoc in IH. specialize (IH D H).
    rewrite fmap_app, zsum_app, len_app in IH. cbn [fmap list_fmap] in IH.
    rewrite len_cons, len_nil in IH. cbn [zsum foldr] in IH. rewrite !Z.add_0_r in IH. done.
Qed.

Lemma describes_windows i reqs :
  describes i reqs → Forall (λ r, 0 < len (unverified r)) reqs →
  windows_at i 0 0 ((λ r, (win r, pad r)) <$> reqs).
Proof. intros D H. apply (describes_windows_from i [] reqs D H). Qed.

(** The comparison of a pass that verifies every unverified token. *)
Lemma verify_and_compare_outcomes i reqs vts vlps :
  describes i reqs → Forall (λ r, 0 < len (unverified r) ∧ win r = unverified r) reqs →
  zsum (pad <$> reqs) ≤ len vts →
  (∀ l, vlps = Some l → zsum (pad <$> reqs) ≤ len l) →
  ∃ reqs' infos,
    Verify.verify_and_compare i reqs vts vlps None = Ok (reqs', infos) ∧
    outcomes vts vlps 0 ((λ r, (win r, pad r)) <$> reqs) reqs reqs' infos.
Proof.
  intros D H Hv Hl. unfold Verify.verify_and_compare. rewrite (ds_real _ _ D), Z.min_id.
  unfold len at 1. rewrite Nat2Z.id.
  assert (Ep : zsum ((λ r, (win r, pad r)) <$> reqs).*2 = zsum (pad <$> reqs)).
  { by rewrite <- list_fmap_compose. }
  apply compare_loop_outcomes; rewrite ?Ep; [|clear -H|lia|by intros l El; specialize (Hl l El); lia].
  - apply describes_windows; [done|]. eapply Forall_impl; [exact H|]. by intros ? [? _].
  - induction H as [|r reqs [_ Hr] _ IH]; [constructor|]. cbn. constructor; [|done].
    cbn. rewrite Hr. unfold unverified. eexists. symmetry. apply slice_to_from.
Qed.

(** ** The verification batch *)

(** The tokens that are final: the prompt and the verified outputs. *)
Definition history (r : Req) : list Z :=
  origin_input_ids r ++ slice_to (output_ids r) (llm42_verified_tokens r).

(** The row of the table that belongs to [r]. *)
Definition row_of (pool : ReqToTokenPool) (r : Req) : list Z :=
  match req_pool_idx r with
  | Some idx => match getitem (req_to_token pool) idx with Ok row => row | Raise _ => [] end
  | None => []
  end.

(** What [check_and_verify_deterministic_requests] and the KV bookkeeping
    guarantee of a request that is verified. *)
Record ready (pool : ReqToTokenPool) (r : Req) : Prop := {
  rd_verified : 0 ≤ llm42_verified_tokens r < len (output_ids r);
  rd_prompt : 0 < len (origin_input_ids r);
  rd_idx : is_Some (req_pool_idx r);
  rd_row : seqlen r - 1 ≤ len (row_of pool r)
}.

(** Its inputs: the last final token, the unverified ones but the last, and
    the padding. *)
Definition inputs_of (r : Req) : list Z :=
  default 0 (last (history r)) :: take (length (win r) - 1) (win r) ++
  times DUMMY_TOKEN_ID (pad r - len (win r)).

(** The slots decode wrote for these inputs. *)
Definition slots_of (pool : ReqToTokenPool) (r : Req) : list Z :=
  slice (row_of pool r) (len (origin_input_ids r) + llm42_verified_tokens r - 1) (seqlen r - 1).

Fixpoint cache_segments (pool : ReqToTokenPool) (plocs : list Z) (off : Z) (reqs : list Req)
    : list Z :=
  match reqs with
  | [] => []
  | r :: reqs' =>
      slots_of pool r ++ slice plocs off (off + (pad r - len (win r))) ++
      cache_segments pool plocs (off + (pad r - len (win r))) reqs'
  end.

Lemma len_unverified r :
  0 ≤ llm42_verified_tokens r ≤ len (output_ids r) →
  len (unverified r) = len (output_ids r) - llm42_verified_tokens r.
Proof. apply len_slice_from. Qed.

Lemma getitem_last {A} (xs : list A) x d : last xs = Some x → getitem xs (-1) = Ok (default d (last xs)).
Proof.
  intros E. rewrite E. cbn [default]. rewrite last_lookup in E.
  unfold getitem. cbn [Z.ltb Z.compare]. pose proof (lookup_lt_Some _ _ _ E).
  cbv zeta. destruct (Z.ltb_spec (-1 + len xs) 0); [unfold len in *; lia|].
  replace (Z.to_nat (-1 + len xs)) with (pred (length xs)) by (unfold len; lia).
  by rewrite E.
Qed.

Lemma context_token_spec pool r :
  ready pool r → Verify.context_token r = Ok (default 0 (last (history r))).
Proof.
  intros [Hv Hp _ _]. unfold Verify.context_token, history.
  destruct (Z.ltb_spec 0 (llm42_verified_tokens r)).
  - destruct (getitem_lt (output_ids r) (llm42_verified_tokens r - 1)) as (x & -> & E); [lia|].
    f_equal. rewrite slice_to_take, last_app by lia. rewrite last_lookup, length_take.
    rewrite lookup_take_lt; [|unfold len in *; lia].
    replace (pred _) with (Z.to_nat (llm42_verified_tokens r - 1)) by (unfold len in *; lia).
    by rewrite E.
  - replace (llm42_verified_tokens r) with 0 by lia. rewrite slice_to_take by lia.
    cbn [Z.to_nat take]. rewrite app_nil_r. destruct (origin_input_ids r) as [|y ys] eqn:E; [done|].
    destruct (last (y :: ys)) as [x|] eqn:El; [by erewrite getitem_last, El|].
    by apply last_None in El.
Qed.

Lemma window_inputs_spec r :
  0 < len (unverified r) → win r = unverified r →
  Verify.window_inputs (pad r) (len (win r)) (default 0 (last (history r))) r = inputs_of r.
Proof.
  intros Hu Hw. unfold Verify.window_inputs, inputs_of. fold (unverified r).
  rewrite Hw. pose proof (len_window_le r) as Hle. rewrite Hw in Hle.
  assert (E1 : slice_to (unverified r) (-1) = take (length (unverified r) - 1) (unverified r)).
  { apply slice_to_last. }
  destruct (Z.ltb_spec (len (unverified r)) (pad r)).
  - f_equal.
    assert (Et : (if 1 <? len (unverified r) then slice_to (unverified r) (-1) else [])
      = take (length (unverified r) - 1) (unverified r)).
    { destruct (Z.ltb_spec 1 (len (unverified r))); [done|].
      replace (length (unverified r) - 1)%nat with 0%nat by (unfold len in *; lia). done. }
    rewrite Et. f_equal. f_equal. rewrite len_take. unfold len in *. lia.
  - rewrite E1. replace (pad r - len (unverified r)) with 0 by lia.
    unfold times. cbn [Z.to_nat replicate]. by rewrite app_nil_r.
Qed.

Lemma len_inputs_of r : 0 < len (win r) → len (inputs_of r) = pad r.
Proof.
  intros H. unfold inputs_of. pose proof (len_window_le r). lens. unfold len in *. lia.
Qed.

(** A request whose unverified tokens all fit the window. *)
Definition verifiable (pool : ReqToTokenPool) (r : Req) : Prop :=
  ready pool r ∧ win r = unverified r.

Lemma ready_unverified pool r : ready pool r → 0 < len (unverified r).
Proof. intros [? _ _ _]. rewrite len_unverified; lia. Qed.

Lemma verifiable_win pool r :
  verifiable pool r →
  len (win r) = len (output_ids r) - llm42_verified_tokens r ∧ 0 < len (win r) ≤ pad r.
Proof.
  intros [Hr E]. pose proof (len_window_le r). pose proof (ready_unverified _ _ Hr).
  rewrite E in *. destruct Hr. rewrite len_unverified in *; lia.
Qed.

Lemma input_loop i pool pre reqs a b c d :
  describes i (pre ++ reqs) → Forall (verifiable pool) reqs →
  foldR (Verify.input_step i) (Verify.mkInputs a b c d) (enum_from (len pre) reqs) =
  Ok (Verify.mkInputs (a ++ concat (inputs_of <$> reqs))
        (b ++ ((λ r, default 0 (req_pool_idx r)) <$> reqs)) (c ++ (pad <$> reqs))
        (d ++ ((λ r, len (origin_input_ids r) + llm42_verified_tokens r - 1) <$> reqs))).
Proof.
  revert pre a b c d. induction reqs as [|r reqs IH]; intros pre a b c d D H.
  { rewrite enum_from_nil. cbn. by rewrite !app_nil_r. }
  apply Forall_cons in H as [Hr H].
  destruct (describes_at i pre r reqs D) as (E1 & E2 & _ & _).
  pose proof (verifiable_win pool r Hr) as Hw.
  rewrite enum_from_cons. cbn [foldR Verify.input_step].
  rewrite E1, E2. cbn [mbind res_bind].
  destruct (Z.eqb_spec (pad r) 0); [lia|]. destruct Hr as [Hr Hwin].
  rewrite (context_token_spec pool r Hr). cbn [mbind res_bind].
  rewrite window_inputs_spec; [|by eapply ready_unverified|done].
  destruct (rd_idx _ _ Hr) as [idx Hidx]. rewrite Hidx. cbn [Verify.in_ids Verify.in_pool
    Verify.in_lens Verify.in_prefix].
  specialize (IH (pre ++ [r])). rewrite <- app_assoc, len_app, len_cons, len_nil, Z.add_0_r in IH.
  rewrite (IH _ _ _ _ D H). cbn [fmap list_fmap concat]. by rewrite Hidx, <- !app_assoc.
Qed.

(** The slots decode wrote for the inputs of one request. *)
Lemma slots_of_split pool r :
  verifiable pool r →
  ∃ idx x, req_pool_idx r = Some idx ∧
    Pool.read pool idx (len (origin_input_ids r) + llm42_verified_tokens r - 1) = Ok x ∧
    Pool.read_row pool idx (len (origin_input_ids r) + llm42_verified_tokens r) (seqlen r - 1)
      = Ok (slice (row_of pool r) (len (origin_input_ids r) + llm42_verified_tokens r)
              (seqlen r - 1)) ∧
    slots_of pool r = x :: slice (row_of pool r)
      (len (origin_input_ids r) + llm42_verified_tokens r) (seqlen r - 1).
Proof.
  intros [[Hv Hp [idx Hidx] Hrow] _]. unfold slots_of, Pool.read, Pool.read_row.
  unfold row_of in *. rewrite Hidx in *. unfold seqlen in *.
  destruct (getitem (req_to_token pool) idx) as [row|e] eqn:Eg;
    [|rewrite len_nil in Hrow; llia].
  destruct (getitem_lt row (len (origin_input_ids r) + llm42_verified_tokens r - 1))
    as (x & Ex & Ex'); [llia|].
  exists idx, x. rewrite Eg. cbn [mbind res_bind]. split_and!; [done..|].
  rewrite !slice_nonneg by llia.
  rewrite (drop_S row x _ Ex'). set (z := len (origin_input_ids r)) in *.
  replace (Z.to_nat (z + len (output_ids r) - 1) -
    Z.to_nat (z + llm42_verified_tokens r - 1))%nat
    with (S (Z.to_nat (z + len (output_ids r) - 1) -
    Z.to_nat (z + llm42_verified_tokens r))) by lia.
  cbn [take]. f_equal. f_equal. f_equal. lia.
Qed.

Lemma len_slots_of pool r :
  verifiable pool r → len (slots_of pool r) = len (win r).
Proof.
  intros H. pose proof (verifiable_win pool r H) as Hw. destruct H as [[Hv Hp _ Hrow] _].
  unfold slots_of, seqlen in *. rewrite slice_nonneg, len_take, len_drop by llia. llia.
Qed.

Lemma cache_loop i pool plocs pre reqs locs off :
  describes i (pre ++ reqs) → Forall (verifiable pool) reqs → 0 ≤ off →
  (padding_cache_locs i = Some plocs ∨ Forall (λ r, pad r = len (win r)) reqs) →
  foldR (Verify.cache_step i pool) (locs, off) (enum_from (len pre) reqs) =
  Ok (locs ++ cache_segments pool plocs off reqs,
      off + zsum ((λ r, pad r - len (win r)) <$> reqs)).
Proof.
  revert pre locs off. induction reqs as [|r reqs IH]; intros pre locs off D H Hoff Hpl.
  { rewrite enum_from_nil. cbn. by rewrite app_nil_r, Z.add_0_r. }
  apply Forall_cons in H as [Hr H].
  destruct (describes_at i pre r reqs D) as (E1 & E2 & _ & E4).
  pose proof (verifiable_win pool r Hr) as Hw.
  destruct (slots_of_split pool r Hr) as (idx & x & Hidx & Hrd & Hrow & Hs).
  assert (Hlen : pad r - 1 - (seqlen r - 1 - (len (origin_input_ids r) + llm42_verified_tokens r))
    = pad r - len (win r)) by (unfold seqlen; lia).
  assert (Hmin : Z.min (len (origin_input_ids r) + llm42_verified_tokens r + (pad r - 1))
    (seqlen r - 1) = seqlen r - 1) by (unfold seqlen; lia).
  rewrite enum_from_cons. cbn [foldR Verify.cache_step]. fold (seqlen r).
  rewrite E1, E2, E4. cbn [mbind res_bind].
  destruct (Z.leb_spec (seqlen r - 1) (len (origin_input_ids r) + llm42_verified_tokens r - 1));
    [unfold seqlen in *; lia|].
  rewrite Hidx. cbn [of_option mbind res_bind]. rewrite Hrd, Hmin. cbn [mbind res_bind].
  assert (Hread : (if len (origin_input_ids r) + llm42_verified_tokens r <? seqlen r - 1
    then Pool.read_row pool idx (len (origin_input_ids r) + llm42_verified_tokens r) (seqlen r - 1)
    else Ok []) = Ok (slice (row_of pool r)
      (len (origin_input_ids r) + llm42_verified_tokens r) (seqlen r - 1))).
  { rewrite Hrow. destruct (Z.ltb_spec (len (origin_input_ids r) + llm42_verified_tokens r)
      (seqlen r - 1)); [done|].
    rewrite slice_nonneg by (destruct Hr as [[] _]; unfold seqlen in *; llia).
    replace (_ - _)%nat with 0%nat by lia. done. }
  rewrite Hread, Hlen. cbn [mbind res_bind].
  assert (Hstep : ∀ locs', match padding_cache_locs i with
    | Some pl => if 0 <? pad r - len (win r)
        then Ok (locs' ++ slice pl off (off + (pad r - len (win r))), off + (pad r - len (win r)))
        else Ok (locs', off)
    | None => Ok (locs', off)
    end = Ok (locs' ++ slice plocs off (off + (pad r - len (win r))),
              off + (pad r - len (win r)))).
  { intros locs'. destruct (Z.ltb_spec 0 (pad r - len (win r))).
    - destruct Hpl as [->|Hf]; [done|]. apply Forall_cons in Hf as [? _]. lia.
    - replace (pad r - len (win r)) with 0 by lia. rewrite Z.add_0_r, slice_nonneg by lia.
      rewrite Nat.sub_diag. cbn [take]. rewrite app_nil_r. by destruct (padding_cache_locs i). }
  rewrite Hstep. replace (len pre + 1) with (len (pre ++ [r])) by llia.
  rewrite IH; [|by rewrite <- app_assoc|done|lia|destruct Hpl as [?|Hf]; [by left|right; by apply Forall_cons in Hf as []]].
  cbn [cache_segments fmap list_fmap]. rewrite Hs. f_equal. f_equal.
  - rewrite <- !app_assoc. done.
  - change (zsum (?x :: ?l)) with (x + zsum l). lia.
Qed.

Lemma padding_bound pool reqs :
  Forall (verifiable pool) reqs → 0 ≤ zsum ((λ r, pad r - len (win r)) <$> reqs).
Proof.
  intros H. apply zsum_nonneg, Forall_fmap. eapply Forall_impl; [exact H|].
  intros r Hr. pose proof (verifiable_win pool r Hr). cbn. lia.
Qed.

Lemma len_cache_segments pool plocs off reqs :
  Forall (verifiable pool) reqs → 0 ≤ off →
  off + zsum ((λ r, pad r - len (win r)) <$> reqs) ≤ len plocs →
  len (cache_segments pool plocs off reqs) = zsum (pad <$> reqs).
Proof.
  intros H. revert off. induction H as [|r reqs Hr H IH]; intros off Ho Hl; [done|].
  pose proof (verifiable_win pool r Hr) as Hw. pose proof (padding_bound pool reqs H) as Hb.
  cbn [cache_segments fmap list_fmap] in *.
  change (zsum (?x :: ?l)) with (x + zsum l) in *.
  rewrite !len_app, len_slots_of, IH by (done || lia).
  rewrite slice_nonneg, len_take, len_drop by lia. lia.
Qed.

Lemma len_concat_inputs pool reqs :
  Forall (verifiable pool) reqs → len (concat (inputs_of <$> reqs)) = zsum (pad <$> reqs).
Proof.
  induction 1 as [|r reqs Hr H IH]; [done|]. cbn [fmap list_fmap concat].
  rewrite len_app, IH, len_inputs_of; [done|]. pose proof (verifiable_win pool r Hr). lia.
Qed.

End FromRequests.

(** ** Sampling tensors *)

(** Every sampling tensor has [n] entries. *)
Definition sampling_len (si : SamplingInfo) (n : Z) : Prop :=
  len (temperatures si) = n ∧ len (top_ps si) = n ∧ len (top_ks si) = n ∧
  len (min_ps si) = n ∧ len (deterministic_indices si) = n ∧
  ∀ s, sampling_seeds si = Some s → len s = n.

Lemma repeat_interleave_ok {A} (xs : list A) counts :
  length xs = length counts → Forall (λ c, 0 ≤ c) counts →
  ∃ ys, repeat_interleave xs counts = Ok ys ∧ len ys = zsum counts.
Proof.
  intros E H. unfold repeat_interleave. rewrite decide_True by done.
  eexists. split; [done|]. revert xs E.
  induction H as [|c counts Hc _ IH]; intros [|x xs] E; try done.
  cbn [zip_with concat]. change (zsum (c :: counts)) with (c + zsum counts).
  rewrite len_app, len_times, IH by (by injection E). lia.
Qed.

Lemma repeat_sampling_ok ed reqs lens :
  length lens = length reqs → Forall (λ c, 0 ≤ c) lens →
  ∃ si, Verify.repeat_sampling (Verify.sampling_of ed reqs) lens = Ok si ∧
        sampling_len si (zsum lens) ∧ force_pytorch_backend si = true.
Proof.
  intros E H. unfold Verify.repeat_sampling, Verify.sampling_of. cbn [temperatures top_ps top_ks
    min_ps sampling_seeds deterministic_indices].
  assert (R : ∀ A (f : Req → A), ∃ ys, repeat_interleave (f <$> reqs) lens = Ok ys ∧
    len ys = zsum lens).
  { intros A f. apply repeat_interleave_ok; [by rewrite length_fmap|done]. }
  edestruct R as (? & -> & ?). edestruct R as (? & -> & ?). edestruct R as (? & -> & ?).
  edestruct R as (? & -> & ?). cbn [mbind res_bind]. destruct ed.
  - edestruct R as (? & -> & ?). edestruct R as (? & -> & ?). cbn [mbind res_bind].
    eexists. split_and!; [done|repeat split; cbn; try done|done]. by intros ? [= <-].
  - edestruct R as (? & -> & ?). cbn [mbind res_bind].
    eexists. split_and!; [done|repeat split; cbn; done|done].
Qed.

Section Prepare.
Context (always_align force_include_all : bool) (window_size : option Z).
Hypothesis window_size_pos : ∀ w, window_size = Some w → 0 < w.

Local Abbreviation win := (window force_include_all window_size).
Local Abbreviation pad := (padded always_align force_include_all window_size).
Local Abbreviation inputs_of := (inputs_of always_align force_include_all window_size).
Local Abbreviation describes := (describes always_align force_include_all window_size).
Local Abbreviation verifiable := (verifiable force_include_all window_size).
Local Abbreviation segments := (cache_segments always_align force_include_all window_size).

(** The padding slots a pass may use: enough of them, or none is needed. *)
Definition padding_ok (i : LLM42Info) (plocs : list Z) (reqs : list Req) : Prop :=
  (padding_cache_locs i = Some plocs ∨ Forall (λ r, pad r = len (win r)) reqs) ∧
  zsum ((λ r, pad r - len (win r)) <$> reqs) ≤ len plocs.

(** The dummies of a pass: [n] windows of [w] tokens. *)
Record dummies_ok (d : DummyArgs) (n w : Z) (dids dlocs dpool : list Z) (s : DummySampling)
    : Prop := {
  dm_ids : da_input_ids d = Some dids ∧ len dids = n * w;
  dm_locs : da_cache_locs d = Some dlocs ∧ len dlocs = n * w;
  dm_pool : da_req_pool_indices d = Some dpool ∧ len dpool = n;
  dm_num : da_num_dummies d = n ∧ 0 < n ∧ 0 ≤ w;
  dm_window : da_window_size d = Some w;
  dm_sampling : da_sampling d = Some s;
  dm_prefix : d_prefix_lens s = times 0 n;
  dm_lens : d_output_lens s = times w n;
  dm_tensors : len (d_temps s) = n * w ∧ len (d_top_ps s) = n * w ∧ len (d_top_ks s) = n * w ∧
    len (d_min_ps s) = n * w ∧ len (d_seeds s) = n * w ∧ len (d_det_indices s) = n * w
}.

Lemma pads_nonneg pool reqs :
  Forall (verifiable pool) reqs → Forall (λ c, 0 ≤ c) (pad <$> reqs).
Proof.
  intros H. apply Forall_fmap. eapply Forall_impl; [exact H|]. intros r Hr.
  pose proof (verifiable_win always_align _ _ window_size_pos pool r Hr). cbn. lia.
Qed.

Lemma prepare_common i ed pool plocs reqs d :
  describes i reqs → Forall (verifiable pool) reqs → padding_ok i plocs reqs →
  ∃ si, sampling_len si (zsum (pad <$> reqs)) ∧ force_pytorch_backend si = true ∧
    let acc := Verify.mkInputs (concat (inputs_of <$> reqs))
      ((λ r, default 0 (req_pool_idx r)) <$> reqs) (pad <$> reqs)
      ((λ r, len (origin_input_ids r) + llm42_verified_tokens r - 1) <$> reqs) in
    Verify.prepare_verify_batch i ed pool reqs d =
    match da_input_ids d, da_cache_locs d with
    | Some d_ids, Some d_locs =>
        if 0 <? da_num_dummies d
        then Verify.with_dummies reqs acc (segments pool plocs 0 reqs) si d d_ids d_locs
        else Verify.without_dummies reqs acc (segments pool plocs 0 reqs) si
    | _, _ => Verify.without_dummies reqs acc (segments pool plocs 0 reqs) si
    end.
Proof.
  intros D H [Hp Hl]. unfold Verify.prepare_verify_batch.
  rewrite !enumerate_from. change 0 with (len (@nil Req)) at 1 2.
  rewrite (input_loop _ _ _ window_size_pos i pool [] reqs) by done.
  rewrite (cache_loop _ _ _ window_size_pos i pool plocs [] reqs) by done.
  cbn [mbind res_bind app].
  destruct (repeat_sampling_ok ed reqs (pad <$> reqs)) as (si & E & Hs & Hf);
    [by rewrite length_fmap|by eapply pads_nonneg|].
  exists si. split_and!; [done|done|]. cbn [Verify.in_lens]. rewrite E. done.
Qed.

(** The batch without dummies. *)
Lemma prepare_without_dummies i ed pool plocs reqs :
  describes i reqs → Forall (verifiable pool) reqs → padding_ok i plocs reqs →
  ∃ b, Verify.prepare_verify_batch i ed pool reqs no_dummies = Ok b ∧
    vb_input_ids b = concat (inputs_of <$> reqs) ∧
    vb_out_cache_loc b = segments pool plocs 0 reqs ∧
    vb_extend_lens b = pad <$> reqs ∧
    vb_req_pool_indices b = (λ r, default 0 (req_pool_idx r)) <$> reqs ∧
    sampling_len (vb_sampling_info b) (zsum (pad <$> reqs)) ∧
    vb_reqs b = reqs ∧
    vb_prefix_lens b = (λ r, len (origin_input_ids r) + llm42_verified_tokens r - 1) <$> reqs.
Proof.
  intros D H Hp.
  destruct (prepare_common i ed pool plocs reqs no_dummies D H Hp) as (si & Hs & _ & E).
  cbv zeta in E. rewrite E. cbn [no_dummies da_input_ids].
  unfold Verify.without_dummies, tadd. cbn [Verify.in_prefix Verify.in_lens Verify.in_ids].
  rewrite decide_True by (by rewrite !length_fmap). cbn [mbind res_bind].
  unfold Verify.checked. cbn [vb_out_cache_loc vb_input_ids].
  destruct Hp as [_ Hl].
  rewrite (len_cache_segments _ _ _ window_size_pos) by (done || lia).
  rewrite (len_concat_inputs _ _ _ window_size_pos pool) by done.
  rewrite Z.eqb_refl. eexists. split; [done|]. cbn. done.
Qed.

(** The batch with dummies: they follow the real requests. *)
Lemma prepare_with_dummies i ed pool plocs reqs d n w dids dlocs dpool s :
  describes i reqs → Forall (verifiable pool) reqs → padding_ok i plocs reqs →
  dummies_ok d n w dids dlocs dpool s →
  ∃ b, Verify.prepare_verify_batch i ed pool reqs d = Ok b ∧
    vb_input_ids b = concat (inputs_of <$> reqs) ++ dids ∧
    vb_out_cache_loc b = segments pool plocs 0 reqs ++ dlocs ∧
    vb_extend_lens b = (pad <$> reqs) ++ times w n ∧
    vb_req_pool_indices b = ((λ r, default 0 (req_pool_idx r)) <$> reqs) ++ dpool ∧
    sampling_len (vb_sampling_info b) (zsum (pad <$> reqs) + n * w) ∧
    vb_reqs b = reqs ∧
    vb_prefix_lens b =
      ((λ r, len (origin_input_ids r) + llm42_verified_tokens r - 1) <$> reqs) ++ times 0 n.
Proof.
  intros D H Hp [[Ei Li] [El Ll] [Epo Lpo] [En [Hn Hw]] Ew Es Epre Eout Ht].
  destruct (prepare_common i ed pool plocs reqs d D H Hp) as (si & Hs & _ & E).
  cbv zeta in E. rewrite E, Ei, El, En. destruct (Z.ltb_spec 0 n); [|lia].
  unfold Verify.with_dummies, tadd, Verify.dummy_pool_indices.
  rewrite Ew, Es, En, Epo, Epre, Eout. cbn [of_option mbind res_bind Verify.in_prefix
    Verify.in_lens Verify.in_ids Verify.in_pool].
  rewrite decide_True
    by (rewrite !length_app, !length_fmap; unfold times; by rewrite !length_replicate).
  cbn [mbind res_bind]. unfold Verify.checked. cbn [vb_out_cache_loc vb_input_ids].
  rewrite !slice_to_take by lia.
  rewrite !take_ge by (unfold len in *; lia).
  destruct Hp as [_ Hl]. rewrite !len_app, Li, Ll.
  rewrite (len_cache_segments _ _ _ window_size_pos) by (done || lia).
  rewrite (len_concat_inputs _ _ _ window_size_pos pool) by done.
  rewrite Z.eqb_refl. eexists. split; [done|]. cbn. split_and!; try done.
  destruct Hs as (S1 & S2 & S3 & S4 & S5 & S6), Ht as (T1 & T2 & T3 & T4 & T5 & T6).
  unfold sampling_len. cbn. rewrite !len_app, S1, S2, S3, S4, S5, T1, T2, T3, T4, T6.
  split_and!; try done. intros s'. destruct (sampling_seeds si) as [l|]; cbn; [|done].
  intros [= <-]. rewrite len_app, T5. by rewrite (S6 l eq_refl).
Qed.

End Prepare.

End Batch.

(** ** Fixed-shape passes *)

Module Fixed.
Import Compare Batch.

Section Fixed.
Context (w : Z) (w_pos : 0 < w).

Local Abbreviation win := (window true (Some w)).
Local Abbreviation pad := (padded true true (Some w)).
Local Abbreviation inputs := (inputs_of true true (Some w)).

Lemma some_w_pos : ∀ w', Some w = Some w' → 0 < w'.
Proof using w_pos. by intros ? [= <-]. Qed.

Lemma fixed_pad r : pad r = w.
Proof using w_pos.
  unfold padded, window. rewrite orb_true_r, len_take. cbn [andb].
  destruct (Z.ltb_spec (Z.min (Z.of_nat (Z.to_nat w)) (len (unverified r))) w); cbn; llia.
Qed.

Lemma fixed_win r : len (unverified r) ≤ w → win r = unverified r.
Proof using. clear w_pos. intros H. unfold window. apply take_ge. unfold len in H. lia. Qed.

Lemma fixed_pads reqs : pad <$> reqs = times w (len reqs).
Proof using w_pos.
  unfold times, len. rewrite Nat2Z.id. induction reqs as [|r reqs IH]; [done|].
  cbn [fmap list_fmap length replicate]. by rewrite fixed_pad, IH.
Qed.

Lemma fixed_verifiable pool reqs :
  Forall (ready pool) reqs → Forall (λ r, len (unverified r) ≤ w) reqs →
  Forall (verifiable true (Some w) pool) reqs.
Proof using.
  intros H1 H2. apply Forall_forall. rewrite Forall_forall in *. intros r Hr.
  split; [auto|]. apply fixed_win. auto.
Qed.

Lemma ready_pos pool reqs : Forall (ready pool) reqs → Forall (λ r, 0 < len (unverified r)) reqs.
Proof. intros H. eapply Forall_impl; [exact H|]. intros r. apply ready_unverified. Qed.

(** Segments of equal length. *)
Lemma slice_block {A} (bs : list (list A)) t k b :
  Forall (λ b, len b = w) bs → bs !! k = Some b →
  slice (concat bs ++ t) (Z.of_nat k * w) (Z.of_nat k * w + w) = b.
Proof using w_pos.
  intros H Hk. apply list_elem_of_split_length in Hk as (l1 & l2 & -> & Hk).
  apply Forall_app in H as [H1 H2]. apply Forall_cons in H2 as [Hb _].
  rewrite concat_app. cbn [concat]. rewrite <- !app_assoc.
  assert (E : len (concat l1) = Z.of_nat k * w).
  { rewrite Hk. clear -H1. induction H1 as [|x l Hx _ IH]; [done|].
    cbn [concat length]. rewrite len_app, Hx, IH. lia. }
  apply slice_app; lia.
Qed.

Lemma cache_segments_blocks pool plocs off reqs :
  Forall (verifiable true (Some w) pool) reqs → 0 ≤ off →
  off + zsum ((λ r, pad r - len (win r)) <$> reqs) ≤ len plocs →
  ∃ bs, cache_segments true true (Some w) pool plocs off reqs = concat bs ∧
        Forall2 (λ r b, len b = w ∧ slots_of pool r `prefix_of` b) reqs bs.
Proof using w_pos.
  intros H. revert off. induction H as [|r reqs Hr H IH]; intros off Ho Hl.
  { exists []. split; [done|constructor]. }
  pose proof (verifiable_win true true (Some w) some_w_pos pool r Hr) as Hw.
  pose proof (padding_bound true true (Some w) some_w_pos pool reqs H) as Hb.
  cbn [cache_segments fmap list_fmap] in *. change (zsum (?x :: ?l)) with (x + zsum l) in *.
  destruct (IH (off + (pad r - len (win r)))) as (bs & E & F); [lia|lia|].
  exists ((slots_of pool r ++ slice plocs off (off + (pad r - len (win r)))) :: bs).
  rewrite E. cbn [concat]. rewrite <- app_assoc. split; [done|]. constructor; [|done].
  split; [|by apply prefix_app_r]. rewrite len_app, (len_slots_of true true (Some w) some_w_pos) by done.
  rewrite slice_nonneg, len_take, len_drop by lia. rewrite fixed_pad in *. lia.
Qed.

(** The metadata of a fixed-shape pass, with its dummies and its padding
    slots. *)
Definition fixed_info (n : Z) (plocs : list Z) (reqs : list Req) : LLM42Info :=
  Info.set_padding_cache_locs plocs
    (Info.append_dummy_entries n w (Info.from_requests reqs true true (Some w))).

Lemma fixed_info_describes n plocs reqs :
  Forall (λ r, 0 < len (unverified r)) reqs →
  describes true true (Some w) (fixed_info n plocs reqs) reqs.
Proof using w_pos.
  intros H. apply set_padding_describes, append_dummies_describes.
  by apply (from_requests_describes _ _ _ some_w_pos).
Qed.

Lemma fixed_slots i reqs :
  describes true true (Some w) i reqs → total_padding_cache_slots i = len reqs * (w - 1).
Proof using w_pos.
  intros D. rewrite (ds_slots _ _ _ _ _ D). clear -w_pos.
  induction reqs as [|r reqs IH]; [done|]. cbn [fmap list_fmap].
  change (zsum (?x :: ?l)) with (x + zsum l). rewrite IH, fixed_pad, len_cons. lia.
Qed.

Lemma fixed_padding_sum pool reqs :
  Forall (verifiable true (Some w) pool) reqs →
  zsum ((λ r, pad r - len (win r)) <$> reqs) ≤ len reqs * (w - 1).
Proof using w_pos.
  induction 1 as [|r reqs Hr H IH]; [done|]. cbn [fmap list_fmap].
  change (zsum (?x :: ?l)) with (x + zsum l).
  pose proof (verifiable_win true true (Some w) some_w_pos pool r Hr).
  rewrite fixed_pad, len_cons in *. lia.
Qed.

(** Slots assigned by [set_padding_cache_locs]. *)
Lemma fixed_set_padding_ok pool i plocs reqs :
  describes true true (Some w) i reqs → Forall (verifiable true (Some w) pool) reqs →
  len reqs * (w - 1) ≤ len plocs →
  padding_ok true true (Some w) (Info.set_padding_cache_locs plocs i)
    (slice_to plocs (len reqs * (w - 1))) reqs.
Proof using w_pos.
  intros D H Hl. split.
  - left. unfold Info.set_padding_cache_locs. rsimpl. by rewrite (fixed_slots i reqs D).
  - rewrite len_slice_to by (pose proof (len_nonneg reqs); nia).
    by eapply fixed_padding_sum.
Qed.

Lemma fixed_padding_ok n plocs reqs pool :
  Forall (verifiable true (Some w) pool) reqs → len reqs * (w - 1) ≤ len plocs →
  padding_ok true true (Some w) (fixed_info n plocs reqs)
    (slice_to plocs (len reqs * (w - 1))) reqs.
Proof using w_pos.
  intros H Hl. apply (fixed_set_padding_ok pool); [|done|done].
  apply append_dummies_describes, (from_requests_describes _ _ _ some_w_pos).
  eapply Forall_impl; [exact H|]. intros r [Hr _]. by eapply ready_unverified.
Qed.

(** The dummies of a pass: none, or [n] windows of [w] tokens. *)
Definition dummy_args (d : DummyArgs) (n : Z) : Prop :=
  (n = 0 ∧ d = no_dummies) ∨ ∃ dids dlocs dpool s, dummies_ok d n w dids dlocs dpool s.

(** The batch of a fixed-shape pass over [reqs] and [n] dummies. *)
Record fixed_batch (i : LLM42Info) (ed : bool) (pool : ReqToTokenPool) (reqs : list Req)
    (d : DummyArgs) (n : Z) (b : VerifyBatch) : Prop := {
  fb_ok : Verify.prepare_verify_batch i ed pool reqs d = Ok b;
  fb_lens : vb_extend_lens b = times w (len reqs + n);
  fb_ids : len (vb_input_ids b) = (len reqs + n) * w;
  fb_locs : len (vb_out_cache_loc b) = (len reqs + n) * w;
  fb_rows : len (vb_req_pool_indices b) = len reqs + n;
  fb_sampling : sampling_len (vb_sampling_info b) ((len reqs + n) * w);
  fb_reqs : vb_reqs b = reqs;
  fb_prefix : ∃ t, vb_prefix_lens b =
    ((λ r, len (origin_input_ids r) + llm42_verified_tokens r - 1) <$> reqs) ++ t;
  fb_segments : ∀ k r, reqs !! k = Some r →
    slice (vb_input_ids b) (Z.of_nat k * w) (Z.of_nat k * w + w) = inputs r ∧
    slots_of pool r `prefix_of`
      slice (vb_out_cache_loc b) (Z.of_nat k * w) (Z.of_nat k * w + w)
}.

Lemma segments_of pool plocs reqs tids tlocs :
  Forall (verifiable true (Some w) pool) reqs →
  zsum ((λ r, pad r - len (win r)) <$> reqs) ≤ len plocs →
  ∀ k r, reqs !! k = Some r →
    slice (concat (inputs <$> reqs) ++ tids) (Z.of_nat k * w) (Z.of_nat k * w + w) = inputs r ∧
    slots_of pool r `prefix_of`
      slice (cache_segments true true (Some w) pool plocs 0 reqs ++ tlocs)
        (Z.of_nat k * w) (Z.of_nat k * w + w).
Proof using w_pos.
  intros Hv Hp k r Hk. split.
  - apply slice_block; [|by rewrite list_lookup_fmap, Hk].
    apply Forall_fmap. eapply Forall_impl; [exact Hv|]. intros x Hx. cbn.
    rewrite (len_inputs_of _ _ _ some_w_pos), fixed_pad; [done|].
    pose proof (verifiable_win true _ _ some_w_pos pool x Hx). lia.
  - destruct (cache_segments_blocks pool plocs 0 reqs) as (bs & -> & F); [done|lia|lia|].
    destruct (Forall2_lookup_l _ _ _ _ _ F Hk) as (bk & Hbk & _ & Hpre).
    rewrite (slice_block _ _ k bk); [done| |done].
    clear -F. induction F as [|? ? ? ? [? _] _ IH]; constructor; done.
Qed.

Lemma fixed_prepare i ed pool plocs reqs d n :
  describes true true (Some w) i reqs → Forall (verifiable true (Some w) pool) reqs →
  padding_ok true true (Some w) i plocs reqs → dummy_args d n →
  ∃ b, fixed_batch i ed pool reqs d n b.
Proof using w_pos.
  intros D Hv Hp Hd.
  assert (Hz : zsum (pad <$> reqs) = len reqs * w) by (rewrite fixed_pads, zsum_times; llia).
  destruct Hd as [[-> ->]|(dids & dlocs & dpool & s & Hd)].
  - destruct (prepare_without_dummies _ _ _ some_w_pos i ed pool plocs reqs D Hv Hp)
      as (b & E & Ei & El & Ee & Epo & Es & Er & Epre).
    exists b. destruct Hp as [_ Hp]. rewrite Hz in Es.
    split; rewrite ?Z.add_0_r; [done|by rewrite Ee, fixed_pads|..].
    + rewrite Ei, (len_concat_inputs _ _ _ some_w_pos pool), Hz; done.
    + rewrite El, (len_cache_segments _ _ _ some_w_pos), Hz; done || lia.
    + by rewrite Epo, len_fmap.
    + done.
    + done.
    + exists []. by rewrite app_nil_r.
    + rewrite Ei, El. pose proof (segments_of pool plocs reqs [] [] Hv Hp) as Hs.
      rewrite !app_nil_r in Hs. done.
  - destruct (prepare_with_dummies _ _ _ some_w_pos i ed pool plocs reqs d n w dids dlocs dpool s
      D Hv Hp Hd) as (b & E & Ei & El & Ee & Epo & Es & Er & Epre).
    exists b. destruct Hp as [_ Hp]. rewrite Hz in Es.
    destruct Hd as [[_ Li] [_ Ll] [_ Lp] [_ [Hn _]] _ _ _ _ _].
    split; [done|..].
    + rewrite Ee, fixed_pads. unfold times, len. rewrite <- replicate_add. f_equal. lia.
    + rewrite Ei, len_app, (len_concat_inputs _ _ _ some_w_pos pool), Hz by done. lia.
    + rewrite El, len_app, (len_cache_segments _ _ _ some_w_pos), Hz by (done || lia). lia.
    + rewrite Epo, len_app, len_fmap. lia.
    + by rewrite Z.mul_add_distr_r.
    + done.
    + eauto.
    + rewrite Ei, El. by apply segments_of.
Qed.

(** The outcome of request [k] of a fixed-shape pass. *)
Lemma outcomes_lookup vts vlps off reqs reqs' infos k r :
  outcomes vts vlps off ((λ r, (win r, pad r)) <$> reqs) reqs reqs' infos →
  reqs !! k = Some r →
  ∃ r' info, reqs' !! k = Some r' ∧ infos !! k = Some info ∧
    let o := off + Z.of_nat k * w in
    outcome (win r) (slice vts o (o + len (win r)))
      ((λ l, slice l o (o + len (win r))) <$> vlps) r r' info.
Proof using w_pos.
  revert k off reqs' infos. induction reqs as [|r0 reqs IH]; intros k off reqs' infos O Hk; [done|].
  cbn [fmap list_fmap] in O.
  inversion O as [|? ? ? ? ? r1 i1 ? rs1 is1 Ho Hos]; subst. destruct k as [|k]; cbn in Hk.
  - simplify_eq. eexists _, _. split_and!; [done|done|]. cbn. rewrite Z.add_0_r. done.
  - destruct (IH k (off + pad r0) rs1 is1) as (r' & info & E1 & E2 & O'); [done|done|].
    exists r', info. split_and!; [done|done|]. cbv zeta in *. rewrite fixed_pad in O'.
    replace (off + Z.of_nat (S k) * w) with (off + w + Z.of_nat k * w) by lia. done.
Qed.

Lemma outcomes_length vts vlps off ws reqs reqs' infos :
  outcomes vts vlps off ws reqs reqs' infos →
  length reqs' = length reqs ∧ length infos = length reqs.
Proof. induction 1; cbn; lia. Qed.

End Fixed.
End Fixed.

(** ** Claims *)

Module InfoClaims.
Import Compare Batch Fixed.

(** [first_mismatch_position] returns the length of the longest common
    prefix: the tokens before it agree and, when it is smaller than both
    lengths, the tokens at it differ. *)
Theorem first_mismatch_position_correct (xs ys : list Z) :
  let m := Verify.first_mismatch_position xs ys in
  0 ≤ m ≤ Z.min (len xs) (len ys) ∧
  slice_to xs m = slice_to ys m ∧
  (m = Z.min (len xs) (len ys) ∨ getitem xs m ≠ getitem ys m).
Proof.
  cbv zeta. rewrite first_mismatch_lcp. pose proof (lcp_le xs ys) as Hl.
  rewrite !slice_to_take, !Nat2Z.id by lia.
  split_and!; [lia|unfold len; lia|apply lcp_take|].
  destruct (decide (Z.of_nat (lcp xs ys) = Z.min (len xs) (len ys))); [by left|right].
  destruct (getitem_lt xs (Z.of_nat (lcp xs ys))) as (x & -> & Ex); [unfold len in *; lia|].
  destruct (getitem_lt ys (Z.of_nat (lcp xs ys))) as (y & -> & Ey); [unfold len in *; lia|].
  rewrite Nat2Z.id in *. intros [= ->]. destruct (lcp_neq xs ys) as [?|[? _]]; congruence.
Qed.

(** C13: A fixed-shape pass over requests with at most [w] unverified tokens
    each, completed with [n] dummies, always builds a batch, and its shape is
    a function of the number of requests and of [w] alone: every segment is
    [w] tokens long and the inputs, the KV slots, the row indices and the
    sampling tensors have one entry per token (per request).  Segment [k]
    holds the last final token of request [k], its unverified tokens but the
    last, and dummy tokens; its slots start with the ones decode wrote. *)
Theorem fixed_batch_shape w n ed pool plocs reqs d dids dlocs dpool s :
  0 < w →
  Forall (ready pool) reqs → Forall (λ r, len (unverified r) ≤ w) reqs →
  len reqs * (w - 1) ≤ len plocs →
  dummies_ok d n w dids dlocs dpool s →
  ∃ b, Verify.prepare_verify_batch (fixed_info w n plocs reqs) ed pool reqs d = Ok b ∧
    vb_extend_lens b = times w (len reqs + n) ∧
    len (vb_input_ids b) = (len reqs + n) * w ∧
    len (vb_out_cache_loc b) = (len reqs + n) * w ∧
    len (vb_req_pool_indices b) = len reqs + n ∧
    sampling_len (vb_sampling_info b) ((len reqs + n) * w) ∧
    ∀ k r, reqs !! k = Some r →
      slice (vb_input_ids b) (Z.of_nat k * w) (Z.of_nat k * w + w)
        = default 0 (last (history r)) :: slice_to (unverified r) (-1) ++
          times DUMMY_TOKEN_ID (w - len (unverified r)) ∧
      slots_of pool r `prefix_of`
        slice (vb_out_cache_loc b) (Z.of_nat k * w) (Z.of_nat k * w + w).
Proof.
  intros Hw Hr Hu Hl Hd. pose proof (fixed_verifiable w pool reqs Hr Hu) as Hv.
  destruct (fixed_prepare w Hw (fixed_info w n plocs reqs) ed pool
    (slice_to plocs (len reqs * (w - 1))) reqs d n) as [b Hb].
  - apply (fixed_info_describes w Hw), (ready_pos pool), Hr.
  - exact Hv.
  - by apply (fixed_padding_ok w Hw n plocs reqs pool).
  - right. eauto 10.
  - exists b. destruct Hb as [E Ee Ei El Ep Es _ _ Eseg].
    split_and!; [done..|]. intros k r Hk. destruct (Eseg k r Hk) as [-> ?]. split; [|done].
    unfold inputs_of. rewrite (fixed_pad w Hw), fixed_win, slice_to_last
      by (by apply (Forall_lookup_1 _ _ _ _ Hu Hk)). done.
Qed.

Lemma fixed_batch_shape_witness :
  ∃ b, Verify.prepare_verify_batch (fixed_info 3 1 Demo.plocs Demo.reqs) true Demo.pool
         Demo.reqs Demo.dummies = Ok b ∧
    vb_extend_lens b = times 3 3 ∧ len (vb_input_ids b) = 9.
Proof.
  destruct (fixed_batch_shape 3 1 true Demo.pool Demo.plocs Demo.reqs Demo.dummies
    (times DUMMY_TOKEN_ID 3) [8; 9; 10] [2] Demo.dummy_sampling) as (b & E1 & E2 & E3 & _).
  - lia.
  - repeat constructor; cbn; try done; vm_compute; congruence.
  - repeat constructor; vm_compute; congruence.
  - vm_compute; congruence.
  - repeat constructor; vm_compute; congruence.
  - exists b. split_and!; [exact E1|exact E2|exact E3].
Defined.

(** The outcomes of the windows of a fixed-shape pass *)
Lemma fixed_outcomes w n plocs pool reqs vts vlps :
  0 < w →
  Forall (ready pool) reqs → Forall (λ r, len (unverified r) ≤ w) reqs →
  len reqs * w ≤ len vts → (∀ l, vlps = Some l → len reqs * w ≤ len l) →
  ∃ reqs' infos,
    Verify.verify_and_compare (fixed_info w n plocs reqs) reqs vts vlps None = Ok (reqs', infos) ∧
    length reqs' = length reqs ∧
    ∀ k r, reqs !! k = Some r →
      let o := Z.of_nat k * w in
      let vs := slice vts o (o + len (unverified r)) in
      ∃ r' info, reqs' !! k = Some r' ∧ infos !! k = Some info ∧ len vs = len (unverified r) ∧
        outcome (unverified r) vs ((λ l, slice l o (o + len (unverified r))) <$> vlps) r r' info.
Proof.
  intros Hw Hr Hu Hv Hl. pose proof (fixed_verifiable w pool reqs Hr Hu) as Hver.
  destruct (verify_and_compare_outcomes true true (Some w) (some_w_pos w Hw) (fixed_info w n plocs reqs)
    reqs vts vlps) as (reqs' & infos & E & O).
  { apply (fixed_info_describes w Hw), (ready_pos pool), Hr. }
  { eapply Forall_impl; [exact Hver|]. intros r [Hrr Hwin]. split; [by eapply ready_unverified|done]. }
  { rewrite (fixed_pads w Hw), zsum_times by llia. done. }
  { rewrite (fixed_pads w Hw), zsum_times by llia. done. }
  exists reqs', infos. split_and!; [done|by apply outcomes_length in O as []|].
  intros k r Hk. destruct (outcomes_lookup w Hw _ _ _ _ _ _ k r O Hk) as (r' & info & E1 & E2 & Oc).
  pose proof (Forall_lookup_1 _ _ _ _ Hu Hk) as Hur. cbv beta in Hur.
  cbv zeta in Oc. rewrite fixed_win, Z.add_0_l in Oc by done. exists r', info. split_and!; try done.
  assert (Z.of_nat k < len reqs) by (apply lookup_lt_Some in Hk; unfold len; lia).
  assert (Z.of_nat k * w + w ≤ len reqs * w) by nia. assert (0 ≤ Z.of_nat k * w) by nia. len_pos.
  rewrite slice_nonneg, len_take, len_drop by lia. lia.
Qed.

(** C12: The comparison of a fixed-shape pass never fails and commits only
    tokens of the verifier: with [vs] the verifier's tokens for the [n]
    unverified tokens [u] of request [k], and [m] the length of their common
    prefix, the outputs become the verified ones followed by the first
    [min n (m + 1)] tokens of [vs], at least one of them; the reported
    rollback is the number of tokens dropped; a mismatch clears the finish
    reason; the fields that do not belong to the outputs keep their values. *)
Theorem verification_commits_verifier_tokens w n plocs pool reqs vts vlps :
  0 < w →
  Forall (ready pool) reqs → Forall (λ r, len (unverified r) ≤ w) reqs →
  len reqs * w ≤ len vts → (∀ l, vlps = Some l → len reqs * w ≤ len l) →
  ∃ reqs' infos,
    Verify.verify_and_compare (fixed_info w n plocs reqs) reqs vts vlps None
      = Ok (reqs', infos) ∧
    length reqs' = length reqs ∧
    ∀ k r, reqs !! k = Some r →
      ∃ r' c, reqs' !! k = Some r' ∧
        let u := unverified r in
        let vs := slice vts (Z.of_nat k * w) (Z.of_nat k * w + len u) in
        let m := Verify.first_mismatch_position u vs in
        c = Z.min (len u) (m + 1) ∧ 0 < c ∧
        output_ids r' = slice_to (output_ids r) (llm42_verified_tokens r) ++ slice_to vs c ∧
        len (output_ids r') = llm42_verified_tokens r + c ∧
        infos !! k = Some (m, len (output_ids r) - len (output_ids r')) ∧
        finished_reason r' = (if m =? len u then finished_reason r else None) ∧
        frame r r'.
Proof.
  intros Hw Hr Hu Hv Hl. destruct (fixed_outcomes w n plocs pool reqs vts vlps Hw Hr Hu Hv Hl) as (reqs' & infos & E & El & Ho).
  exists reqs', infos. split_and!; [done..|]. intros k r Hk. destruct (Ho k r Hk) as (r' & info & E1 & E2 & Hvs & Oc).
  pose proof (Forall_lookup_1 _ _ _ _ Hr Hk) as Hrr. pose proof (ready_unverified _ _ Hrr) as Hpos. destruct Hrr as [Hvr _ _ _].
  set (vs := slice vts _ _) in *. destruct Oc as [Oi Oinf Of _ Ofr].
  pose proof (lcp_le (unverified r) vs) as Hlcp.
  exists r', (Z.of_nat (commit_len (unverified r) vs)).
  cbv zeta. fold vs. rewrite first_mismatch_lcp.
  assert (Hout : output_ids r' = slice_to (output_ids r) (llm42_verified_tokens r) ++
    slice_to vs (Z.of_nat (commit_len (unverified r) vs))).
  { rewrite Oi, !slice_to_take, Nat2Z.id by lia. f_equal. f_equal.
    pose proof (len_unverified r). unfold len in *. lia. }
  assert (Hlo : len (output_ids r') =
    llm42_verified_tokens r + Z.of_nat (commit_len (unverified r) vs)).
  { rewrite Hout, len_app, !len_slice_to; [done|unfold commit_len, len in *; lia|lia]. }
  split_and!; [done|unfold commit_len, len; lia|unfold commit_len, len in *; lia|done|done| | |done].
  - rewrite E2, Oinf. f_equal. f_equal. rewrite Hlo. pose proof (len_unverified r).
    unfold commit_len, len in *. lia.
  - rewrite Of. destruct (Z.eqb_spec (Z.of_nat (lcp (unverified r) vs)) (len (unverified r)));
      case_decide; unfold len in *; try done; lia.
Qed.

Lemma verification_commits_verifier_tokens_witness :
  ∃ reqs' infos,
    Verify.verify_and_compare (fixed_info 3 1 Demo.plocs Demo.reqs) Demo.reqs
      [21; 99; 7; 31; 0; 0] None None = Ok (reqs', infos).
Proof.
  destruct (verification_commits_verifier_tokens 3 1 Demo.plocs Demo.pool Demo.reqs
    [21; 99; 7; 31; 0; 0] None) as (reqs' & infos & E & _).
  - lia.
  - repeat constructor; cbn; try done; vm_compute; congruence.
  - repeat constructor; vm_compute; congruence.
  - vm_compute; congruence.
  - done.
  - exists reqs', infos. exact E.
Defined.

(** *** Windows that do not fit

    The lengths of the inputs and of the slots in a fixed-shape pass, whether
    the unverified tokens of its requests fit into the window or not. *)
Section Overfull.
Context (w : Z) (w_pos : 0 < w).

Lemma len_fixed_win r : len (window true (Some w) r) = Z.min w (len (unverified r)).
Proof using w_pos. unfold window. rewrite len_take. pose proof (len_nonneg (unverified r)). lia. Qed.

Lemma len_window_inputs ctx r :
  0 < len (unverified r) →
  len (Verify.window_inputs w (Z.min w (len (unverified r))) ctx r) = Z.max w (len (unverified r)).
Proof using w_pos.
  intros Hu. unfold Verify.window_inputs. fold (unverified r). set (u := unverified r) in *.
  assert (E1 : len (slice_to u (-1)) = len u - 1) by (rewrite slice_to_last, len_take; unfold len in *; lia).
  destruct (Z.ltb_spec (Z.min w (len u)) w); rewrite len_cons, ?len_app, ?E1; [|lia].
  destruct (Z.ltb_spec 1 (Z.min w (len u))); rewrite ?E1, ?len_nil, len_times; lia.
Qed.

Lemma input_loop_len i pool pre reqs acc :
  describes true true (Some w) i (pre ++ reqs) → Forall (ready pool) reqs →
  ∃ ids rows ps, foldR (Verify.input_step i) acc (enum_from (len pre) reqs) =
      Ok (Verify.mkInputs (Verify.in_ids acc ++ ids) (Verify.in_pool acc ++ rows)
        (Verify.in_lens acc ++ (padded true true (Some w) <$> reqs)) (Verify.in_prefix acc ++ ps)) ∧
    len ids = zsum ((λ r, Z.max w (len (unverified r))) <$> reqs) ∧ length ps = length reqs.
Proof using w_pos.
  revert pre acc. induction reqs as [|r reqs IH]; intros pre acc D H.
  { exists [], [], []. rewrite enum_from_nil. cbn. rewrite !app_nil_r. by destruct acc. }
  apply Forall_cons in H as [Hr H]. destruct (describes_at _ _ _ i pre r reqs D) as (E1 & E2 & _ & _).
  rewrite (fixed_pad w w_pos), len_fixed_win in *. pose proof (ready_unverified pool r Hr) as Hu.
  rewrite enum_from_cons. cbn [foldR Verify.input_step]. rewrite E1, E2. cbn [mbind res_bind].
  destruct (Z.eqb_spec w 0); [lia|]. rewrite (context_token_spec pool r Hr). cbn [mbind res_bind].
  destruct (rd_idx _ _ Hr) as [idx Hidx]. rewrite Hidx. replace (len pre + 1) with (len (pre ++ [r])) by llia.
  rewrite cons_middle, app_assoc in D.
  edestruct (IH (pre ++ [r])) as (ids & rows & ps & -> & Hl & Hp); [done|done|].
  cbn [Verify.in_ids Verify.in_pool Verify.in_lens Verify.in_prefix]. rewrite <- !app_assoc.
  eexists _, _, _. split; [rewrite fmap_cons, (fixed_pad w w_pos); reflexivity|]. cbn [fmap list_fmap length app].
  split; [|by rewrite Hp]. rewrite len_app, len_window_inputs, Hl by done. done.
Qed.

Lemma cache_loop_len i pool pre reqs locs off :
  describes true true (Some w) i (pre ++ reqs) → Forall (ready pool) reqs → 0 ≤ off →
  ∃ locs' off', foldR (Verify.cache_step i pool) (locs, off) (enum_from (len pre) reqs) = Ok (locs', off') ∧
    len locs' ≤ len locs + len reqs * w.
Proof using w_pos.
  revert pre locs off. induction reqs as [|r reqs IH]; intros pre locs off D H Hoff.
  { exists locs, off. rewrite enum_from_nil. split; [done|]. change (len (@nil Req)) with 0. lia. }
  apply Forall_cons in H as [Hr H]. destruct (describes_at _ _ _ i pre r reqs D) as (E1 & E2 & _ & E4).
  rewrite (fixed_pad w w_pos) in *. pose proof Hr as [Hv Hp [idx Hidx] Hrow].
  rewrite enum_from_cons. cbn [foldR Verify.cache_step]. fold (seqlen r). rewrite E1, E2, E4, Hidx. cbn [mbind res_bind of_option].
  set (z := len (origin_input_ids r) + llm42_verified_tokens r) in *. unfold row_of in Hrow. rewrite Hidx in Hrow.
  destruct (Z.leb_spec (seqlen r - 1) (z - 1)); [unfold seqlen in *; lia|]. unfold Pool.read, Pool.read_row.
  destruct (getitem (req_to_token pool) idx) as [row|e]; [|rewrite len_nil in Hrow; unfold seqlen in *; llia]. cbn [mbind res_bind].
  destruct (getitem_lt row (z - 1)) as (x & -> & _); [lia|]. cbn [mbind res_bind].
  set (e := Z.min (z + (w - 1)) (seqlen r - 1)) in *.
  assert (Hread : ∃ l, (if z <? e then Ok (slice row z e) else Ok []) = Ok l ∧ len l ≤ Z.max 0 (e - z)).
  { destruct (Z.ltb_spec z e); eexists; (split; [reflexivity|]); [|rewrite len_nil; lia].
    rewrite slice_nonneg, len_take by lia. lia. }
  destruct Hread as (l & -> & Hl). cbn [mbind res_bind]. replace (len pre + 1) with (len (pre ++ [r])) by llia.
  rewrite cons_middle, app_assoc in D. rewrite len_cons. set (rest := w - 1 - (e - z)) in *.
  assert (He : z ≤ e) by (unfold e, seqlen in *; lia).
  assert (Hgo : ∀ locs1 off1, 0 ≤ off1 → len locs1 ≤ len locs + w →
    ∃ locs' off', foldR (Verify.cache_step i pool) (locs1, off1) (enum_from (len (pre ++ [r])) reqs) = Ok (locs', off') ∧
      len locs' ≤ len locs + (1 + len reqs) * w).
  { intros locs1 off1 Ho H1. destruct (IH (pre ++ [r]) locs1 off1 D H Ho) as (locs' & off' & E & H2). exists locs', off'. split; [done|lia]. }
  destruct (padding_cache_locs i) as [plocs|]; [destruct (Z.ltb_spec 0 rest)|]; cbv beta iota; apply Hgo; try lia;
    rewrite ?len_app, len_cons; [|lia..]. rewrite slice_nonneg, len_take by lia. lia.
Qed.

(** More inputs than slots *)
Lemma overfull_raises reqs acc locs si d n :
  dummy_args w d n → len locs < len (Verify.in_ids acc) → length (Verify.in_prefix acc) = length (Verify.in_lens acc) →
  match da_input_ids d, da_cache_locs d with
  | Some d_ids, Some d_locs =>
      if 0 <? da_num_dummies d then Verify.with_dummies reqs acc locs si d d_ids d_locs
      else Verify.without_dummies reqs acc locs si
  | _, _ => Verify.without_dummies reqs acc locs si
  end = Raise RuntimeError.
Proof using w_pos.
  intros Hd Hl Hp. destruct Hd as [[-> ->]|(dids & dlocs & dpool & s & [[Ei Li] [El Ll] _ [En [Hn Hw]] Ew Es Epre Eout _])].
  - cbn. unfold Verify.without_dummies, tadd, Verify.checked. rewrite decide_True by done. cbn [mbind res_bind vb_out_cache_loc vb_input_ids].
    by rewrite (proj2 (Z.eqb_neq _ _)) by lia.
  - rewrite Ei, El, En. destruct (Z.ltb_spec 0 n); [|lia]. unfold Verify.with_dummies, tadd, Verify.checked.
    rewrite Ew, Es, En, Epre, Eout. cbn [of_option mbind res_bind].
    rewrite decide_True by (rewrite !length_app, Hp; unfold times; by rewrite !length_replicate). cbn [mbind res_bind vb_out_cache_loc vb_input_ids].
    rewrite (proj2 (Z.eqb_neq _ _)); [done|]. rewrite !len_app, !len_slice_to; [lia|split; nia..].
Qed.
End Overfull.

Lemma overfull_sum w reqs r :
  r ∈ reqs → w < len (unverified r) → len reqs * w < zsum ((λ r, Z.max w (len (unverified r))) <$> reqs).
Proof.
  intros Hin Hr. assert (Hge : ∀ l : list Req, len l * w ≤ zsum ((λ r, Z.max w (len (unverified r))) <$> l)).
  { induction l as [|x l IH]; [done|]. rewrite len_cons, fmap_cons. change (zsum (?x :: ?l)) with (x + zsum l). lia. }
  apply list_elem_of_split in Hin as (l1 & l2 & ->). rewrite len_app, len_cons, fmap_app, fmap_cons, zsum_app.
  change (zsum (?x :: ?l)) with (x + zsum l). pose proof (Hge l1). pose proof (Hge l2). lia.
Qed.

(** C32: A request with more than [w] unverified tokens cannot be verified by a
    fixed-shape pass.  [from_requests] cuts its window to [w] tokens but
    [prepare_verify_batch] feeds all unverified tokens but the last.  Whatever
    the other requests of the pass, the dummies and the padding slots are,
    the batch has more inputs than KV slots and the code raises. *)
Theorem truncated_window_raises w n ed pool plocs reqs d :
  0 < w → Forall (ready pool) reqs → Exists (λ r, w < len (unverified r)) reqs → dummy_args w d n →
  Verify.prepare_verify_batch (fixed_info w n plocs reqs) ed pool reqs d = Raise RuntimeError.
Proof.
  intros Hw Hr (r & Hin & Hu)%Exists_exists Hd.
  pose proof (fixed_info_describes w Hw n plocs reqs (ready_pos pool reqs Hr)) as D.
  unfold Verify.prepare_verify_batch. rewrite !enumerate_from.
  destruct (input_loop_len w Hw (fixed_info w n plocs reqs) pool [] reqs (Verify.mkInputs [] [] [] []) D Hr)
    as (ids & rows & ps & Ein & Hids & Hps). change (len (@nil Req)) with 0 in Ein. rewrite Ein. cbn [mbind res_bind Verify.in_ids Verify.in_pool Verify.in_lens Verify.in_prefix app].
  destruct (repeat_sampling_ok ed reqs (padded true true (Some w) <$> reqs)) as (si & -> & _); [by rewrite length_fmap| |].
  { rewrite (fixed_pads w Hw). apply Forall_forall. intros x Hx. apply elem_of_replicate_inv in Hx. lia. }
  destruct (cache_loop_len w Hw (fixed_info w n plocs reqs) pool [] reqs [] 0 D Hr) as (locs & off & Ec & Hlocs); [done|].
  change (len (@nil Req)) with 0 in Ec. cbn [mbind res_bind]. rewrite Ec. cbn [mbind res_bind]. eapply (overfull_raises w Hw); [exact Hd| |].
  - cbn [Verify.in_ids]. rewrite Hids. pose proof (overfull_sum w reqs r Hin Hu). rewrite len_nil in Hlocs. lia.
  - cbn [Verify.in_prefix Verify.in_lens]. by rewrite length_fmap.
Qed.

(** Two requests and a dummy, with a window of two tokens; the first request
    has three unverified ones. *)
Lemma truncated_window_raises_witness :
  Verify.prepare_verify_batch (fixed_info 2 1 Demo.plocs Demo.reqs) true Demo.pool Demo.reqs
    (mkDummyArgs (Some (times DUMMY_TOKEN_ID 2)) (Some [8; 9]) (Some [2]) 1 (Some 2)
      (Some (mkDummySampling (times f_zero 2) (times f_one 2) (times (-1) 2) (times f_zero 2) (times 0 2) (times 1 2)
        (times 0 1) (times 2 1)))) = Raise RuntimeError.
Proof.
  apply truncated_window_raises.
  - lia.
  - repeat constructor; cbn; try done; vm_compute; congruence.
  - left. by vm_compute.
  - right. eexists _, _, _, _. by repeat split.
Defined.

End InfoClaims.
