(* ===== verification/World.v ===== *)
(** * The state the scheduler, the worker and the prefix cache share

    Requests are objects: the running batch, the waiting queue and the
    batches of a verification pass hold references to them.  [World] keeps
    them in a store and the batches hold their keys.  The allocator, the
    request-to-token table and the prefix cache are components of the same
    state, because every operation that releases memory changes them all.

    [PrefixCache] is the interface of srt/mem_cache/base_prefix_cache.py that
    the scheduler uses; the type of the cache is a parameter of [World]. *)

From S2P Require Import Prelude PyFloat Allocator Request ReqPool LLM42Info.

(** ** Batches (srt/managers/schedule_batch.py, class ScheduleBatch)

    The fields that carry a batch without speculative decoding, multimodal
    inputs, encoder-decoder models, Mamba states and data parallelism. *)

Record ScheduleBatch : Type := mkScheduleBatch {
  b_reqs : list nat;
  b_forward_mode : option ForwardMode;
  b_enable_overlap : bool;
  b_batch_is_full : bool;
  b_chunked_req : option nat;
  b_sampling_info : option SamplingInfo;
  b_input_ids : option (list Z);
  b_req_pool_indices : list Z;
  b_seq_lens : list Z;
  b_seq_lens_cpu : list Z;
  b_out_cache_loc : option (list Z);
  b_output_ids : option (list Z);
  b_seq_lens_sum : Z;
  b_orig_seq_lens : list Z;
  b_return_logprob : bool;
  b_top_logprobs_nums : option (list Z);
  b_prefix_lens : list Z;
  b_extend_lens : list Z;
  b_extend_num_tokens : Z;
  b_decoding_reqs : option (list nat);
  b_extend_logprob_start_lens : list Z;
  b_has_stream : bool;
  b_has_grammar : bool;
  b_is_prefill_only : bool
}.

#[export] Instance eta_ScheduleBatch : Eta ScheduleBatch := λ b,
  mkScheduleBatch (b_reqs b) (b_forward_mode b) (b_enable_overlap b) (b_batch_is_full b) (b_chunked_req b)
    (b_sampling_info b) (b_input_ids b) (b_req_pool_indices b) (b_seq_lens b)
    (b_seq_lens_cpu b) (b_out_cache_loc b) (b_output_ids b) (b_seq_lens_sum b)
    (b_orig_seq_lens b) (b_return_logprob b) (b_top_logprobs_nums b) (b_prefix_lens b)
    (b_extend_lens b) (b_extend_num_tokens b) (b_decoding_reqs b)
    (b_extend_logprob_start_lens b) (b_has_stream b) (b_has_grammar b) (b_is_prefill_only b).
#[export] Instance set_b_reqs : Setter b_reqs.
Proof. derive_setter. Defined.
#[export] Instance set_b_forward_mode : Setter b_forward_mode.
Proof. derive_setter. Defined.
#[export] Instance set_b_enable_overlap : Setter b_enable_overlap.
Proof. derive_setter. Defined.
#[export] Instance set_b_batch_is_full : Setter b_batch_is_full.
Proof. derive_setter. Defined.
#[export] Instance set_b_chunked_req : Setter b_chunked_req.
Proof. derive_setter. Defined.
#[export] Instance set_b_sampling_info : Setter b_sampling_info.
Proof. derive_setter. Defined.
#[export] Instance set_b_input_ids : Setter b_input_ids.
Proof. derive_setter. Defined.
#[export] Instance set_b_req_pool_indices : Setter b_req_pool_indices.
Proof. derive_setter. Defined.
#[export] Instance set_b_seq_lens : Setter b_seq_lens.
Proof. derive_setter. Defined.
#[export] Instance set_b_seq_lens_cpu : Setter b_seq_lens_cpu.
Proof. derive_setter. Defined.
#[export] Instance set_b_out_cache_loc : Setter b_out_cache_loc.
Proof. derive_setter. Defined.
#[export] Instance set_b_output_ids : Setter b_output_ids.
Proof. derive_setter. Defined.
#[export] Instance set_b_seq_lens_sum : Setter b_seq_lens_sum.
Proof. derive_setter. Defined.
#[export] Instance set_b_orig_seq_lens : Setter b_orig_seq_lens.
Proof. derive_setter. Defined.
#[export] Instance set_b_return_logprob : Setter b_return_logprob.
Proof. derive_setter. Defined.
#[export] Instance set_b_top_logprobs_nums : Setter b_top_logprobs_nums.
Proof. derive_setter. Defined.
#[export] Instance set_b_prefix_lens : Setter b_prefix_lens.
Proof. derive_setter. Defined.
#[export] Instance set_b_extend_lens : Setter b_extend_lens.
Proof. derive_setter. Defined.
#[export] Instance set_b_extend_num_tokens : Setter b_extend_num_tokens.
Proof. derive_setter. Defined.
#[export] Instance set_b_decoding_reqs : Setter b_decoding_reqs.
Proof. derive_setter. Defined.
#[export] Instance set_b_extend_logprob_start_lens : Setter b_extend_logprob_start_lens.
Proof. derive_setter. Defined.
#[export] Instance set_b_has_stream : Setter b_has_stream.
Proof. derive_setter. Defined.
#[export] Instance set_b_has_grammar : Setter b_has_grammar.
Proof. derive_setter. Defined.
#[export] Instance set_b_is_prefill_only : Setter b_is_prefill_only.
Proof. derive_setter. Defined.

(** ** The shared state *)

Record World (C : Type) : Type := mkWorld {
  heap : gmap nat Req;
  kv : Allocator;
  rtp : ReqToTokenPool;
  cache : C;
  batch : ScheduleBatch
}.
Arguments mkWorld {C}.
Arguments heap {C} w.
Arguments kv {C} w.
Arguments rtp {C} w.
Arguments cache {C} w.
Arguments batch {C} w.

#[export] Instance eta_World {C} : Eta (World C) := λ w,
  mkWorld (heap w) (kv w) (rtp w) (cache w) (batch w).
#[export] Instance set_heap {C} : Setter (@heap C).
Proof. derive_setter. Defined.
#[export] Instance set_kv {C} : Setter (@kv C).
Proof. derive_setter. Defined.
#[export] Instance set_rtp {C} : Setter (@rtp C).
Proof. derive_setter. Defined.
#[export] Instance set_cache {C} : Setter (@cache C).
Proof. derive_setter. Defined.
#[export] Instance set_batch {C} : Setter (@batch C).
Proof. derive_setter. Defined.

Section Heap.
Context {C : Type}.

(** The request a reference stands for. *)
Definition req_at (id : nat) : M (World C) Req := λ w,
  (of_option AttributeError (heap w !! id), w).

Definition set_req (id : nat) (r : Req) : M (World C) unit :=
  modify (λ w, w <| heap ::= <[id := r]> |>).

Definition upd_req (id : nat) (f : Req → Req) : M (World C) unit :=
  r ← req_at id; set_req id (f r).

Definition reqs_at (ids : list nat) : M (World C) (list Req) :=
  foldM (λ acc id, r ← req_at id; mret (acc ++ [r])) [] ids.

(** Operations of the components of the state. *)
Definition on_kv {A} (m : M Allocator A) : M (World C) A := λ w,
  let '(r, a) := m (kv w) in (r, w <| kv := a |>).

Definition on_rtp (f : ReqToTokenPool → res ReqToTokenPool) : M (World C) unit := λ w,
  match f (rtp w) with
  | Ok p => (Ok tt, w <| rtp := p |>)
  | Raise e => (Raise e, w)
  end.

Definition upd_batch (f : ScheduleBatch → ScheduleBatch) : M (World C) unit :=
  modify (λ w, w <| batch ::= f |>).
End Heap.

(** ** The prefix cache *)

(** [cache_finished_req id is_insert], [cache_unfinished_req id chunked] and
    [evict num_tokens] are the methods of the same names; [match_prefix
    token_ids extra_key] answers with the device indices and the last device
    node of its [MatchResult], the other fields of which belong to
    hierarchical and Mamba caches.  [cache_disabled] is the attribute
    [disable]. *)
Class PrefixCache (C : Type) := {
  is_chunk_cache : bool;
  cache_disabled : C → bool;
  tree_page_size : C → Z;
  match_prefix : list Z → option string → M (World C) (list Z * option Z);
  cache_finished_req : nat → bool → M (World C) unit;
  cache_unfinished_req : nat → bool → M (World C) unit;
  evict : Z → M (World C) Z;
  inc_lock_ref : option Z → M (World C) Z;
  dec_lock_ref : option Z → M (World C) Z;
  evictable_size : C → Z
}.
