(* ===== verification/MemCommon.v ===== *)
(** * Memory of requests (srt/mem_cache/common.py, srt/mem_cache/chunk_cache.py)

    The functions that give a batch its KV slots and rows and that release
    them, against the [PrefixCache] interface, and the [ChunkCache] that
    implements it.  Mamba states, sliding-window attention and hierarchical
    caches are not modelled. *)

From S2P Require Import Prelude PyFloat Allocator Request ReqPool LLM42Info World.

(** ** [ChunkCache] *)

Record ChunkCache : Type := mkChunkCache { cc_page_size : Z }.

Module Chunk.

Definition nonzero (kv_indices : list Z) : list Z := filter (λ x, x ≠ 0) kv_indices.

(** The slots of the committed tokens go back to the allocator; slot 0 is
    left out. *)
Definition cache_finished_req (id : nat) (is_insert : bool) : M (World ChunkCache) unit :=
  r ← req_at id;
  '(kv_committed_len, r) ← lift (pop_committed_kv_cache r);
  set_req id r;;
  idx ← lift (of_option TypeError (req_pool_idx r));
  p ← gets rtp;
  kv_indices ← lift (Pool.read_row p idx 0 kv_committed_len);
  if forallb (λ x, negb (x =? 0)) kv_indices then on_kv (free kv_indices)
  else
    let valid_indices := nonzero kv_indices in
    if 0 <? len valid_indices then on_kv (free valid_indices) else mret tt.

Definition cache_unfinished_req (id : nat) (chunked : bool) : M (World ChunkCache) unit :=
  r ← req_at id;
  idx ← lift (of_option TypeError (req_pool_idx r));
  p ← gets rtp;
  kv_indices ← lift (Pool.read_row p idx 0 (len (fill_ids r)));
  set_req id (r <| prefix_indices := kv_indices |>).

Definition evict (num_tokens : Z) : M (World ChunkCache) Z := mret 0.

(** Nothing is shared between requests. *)
Definition match_prefix (token_ids : list Z) (extra_key : option string)
    : M (World ChunkCache) (list Z * option Z) := mret ([], None).
Definition inc_lock_ref (node : option Z) : M (World ChunkCache) Z := mret 0.
Definition dec_lock_ref (node : option Z) : M (World ChunkCache) Z := mret 0.

End Chunk.

#[export] Instance chunk_cache : PrefixCache ChunkCache := {
  is_chunk_cache := true;
  cache_disabled _ := true;
  tree_page_size := cc_page_size;
  match_prefix := Chunk.match_prefix;
  cache_finished_req := Chunk.cache_finished_req;
  cache_unfinished_req := Chunk.cache_unfinished_req;
  evict := Chunk.evict;
  inc_lock_ref := Chunk.inc_lock_ref;
  dec_lock_ref := Chunk.dec_lock_ref;
  evictable_size _ := 0
}.

Module Mem.

Section Mem.
Context `{Externals} {C : Type} `{PC : PrefixCache C}.

(** ** Eviction and allocation *)

Definition evict_from_tree_cache (num_tokens : Z) : M (World C) unit :=
  if is_chunk_cache then mret tt
  else
    a ← gets kv;
    if available_size a <? num_tokens then _ ← evict num_tokens; mret tt else mret tt.

(** [None] of the allocator is the out-of-memory error. *)
Definition or_oom {A} (o : option A) : M (World C) A := lift (of_option RuntimeError o).

Definition alloc_token_slots (num_tokens : Z) : M (World C) (list Z) :=
  evict_from_tree_cache num_tokens;;
  o ← on_kv (alloc num_tokens);
  or_oom o.

(** The contents of a tensor a kernel filled. *)
Definition tensor (out : list (option Z)) : list Z := default uninit <$> out.

Definition alloc_paged_token_slots_extend (prefix_lens seq_lens seq_lens_cpu last_loc : list Z)
    (extend_num_tokens : Z) : M (World C) (list Z) :=
  a ← gets kv;
  evict_from_tree_cache (extend_num_tokens + len seq_lens_cpu * page_size a);;
  o ← on_kv (Paged.alloc_extend prefix_lens prefix_lens seq_lens seq_lens_cpu last_loc
               extend_num_tokens);
  out ← or_oom o;
  mret (tensor out).

Definition alloc_paged_token_slots_decode (seq_lens seq_lens_cpu last_loc : list Z) : M (World C) (list Z) :=
  a ← gets kv;
  evict_from_tree_cache (len seq_lens * page_size a);;
  o ← on_kv (Paged.alloc_decode seq_lens seq_lens_cpu last_loc);
  out ← or_oom o;
  mret (tensor out).

(** [alloc_req_slots]: a row for every request without one. *)
Fixpoint set_reqs (ids : list nat) (rs : list Req) : M (World C) unit :=
  match ids, rs with
  | id :: ids', r :: rs' => set_req id r;; set_reqs ids' rs'
  | _, _ => mret tt
  end.

Definition alloc_req_slots (ids : list nat) : M (World C) (list Z) :=
  rs ← reqs_at ids;
  p ← gets rtp;
  o ← lift (Pool.alloc rs p);
  '(rs, p) ← or_oom o;
  modify (λ w, w <| rtp := p |>);;
  set_reqs ids rs;;
  lift (mapM (λ r, of_option TypeError (req_pool_idx r)) rs).

(** ** Writing the table *)

(** One request of [write_cache_indices]: its cached prefix, then the new
    slots.  This is the branch without Triton; the kernel of the other branch
    writes the same entries. *)
Definition write_one_req (out_cache_loc : list Z) (pt : Z)
    (row : Z * Z * Z * Z * list Z) : M (World C) Z :=
  let '(req_idx, prefix_len, seq_len, extend_len, prefix) := row in
  on_rtp (Pool.write req_idx 0 prefix_len prefix);;
  on_rtp (Pool.write req_idx prefix_len seq_len (slice out_cache_loc pt (pt + extend_len)));;
  mret (pt + extend_len).

Definition write_cache_indices (out_cache_loc req_pool_indices prefix_lens seq_lens extend_lens
    : list Z) (prefix_tensors : list (list Z)) : M (World C) unit :=
  _ ← foldM (write_one_req out_cache_loc) 0
        (zip (zip (zip (zip req_pool_indices prefix_lens) seq_lens) extend_lens) prefix_tensors);
  mret tt.

(** ** Extend and decode batches *)

Definition alloc_for_extend : M (World C) (list Z * list Z) :=
  b ← gets batch;
  rs ← reqs_at (b_reqs b);
  let prefix_tensors := prefix_indices <$> rs in
  req_pool_indices ← alloc_req_slots (b_reqs b);
  c ← gets cache;
  out_cache_loc ←
    (if tree_page_size c =? 1 then alloc_token_slots (b_extend_num_tokens b)
     else
       let last_loc := (λ t, default (-1) (last t)) <$> prefix_tensors in
       alloc_paged_token_slots_extend (b_prefix_lens b) (b_seq_lens b) (b_seq_lens_cpu b)
         last_loc (b_extend_num_tokens b));
  write_cache_indices out_cache_loc req_pool_indices (b_prefix_lens b) (b_seq_lens b)
    (b_extend_lens b) prefix_tensors;;
  mret (out_cache_loc, req_pool_indices).

(** [req_to_token[req_pool_indices, seq_lens - 1]] *)
Definition last_locs (p : ReqToTokenPool) (req_pool_indices seq_lens : list Z) : res (list Z) :=
  mapM (λ '(row, s), Pool.read p row (s - 1)) (zip req_pool_indices seq_lens).

(** [req_to_token_pool.write((req_pool_indices, locs), values)] *)
Definition write_points (req_pool_indices locs values : list Z) : M (World C) unit :=
  for_ (zip (zip req_pool_indices locs) values)
    (λ '(row, col, v), on_rtp (Pool.write_one row col v)).

Definition alloc_for_decode (token_per_req : Z) : M (World C) (list Z) :=
  b ← gets batch;
  c ← gets cache;
  let bs := len (b_seq_lens b) in
  out_cache_loc ←
    (if tree_page_size c =? 1 then alloc_token_slots (bs * token_per_req)
     else
       p ← gets rtp;
       last_loc ← lift (last_locs p (b_req_pool_indices b) (b_seq_lens b));
       alloc_paged_token_slots_decode ((λ s, s + token_per_req) <$> b_seq_lens b)
         ((λ s, s + token_per_req) <$> b_seq_lens_cpu b) last_loc);
  write_points (b_req_pool_indices b) (b_seq_lens b) out_cache_loc;;
  mret out_cache_loc.

(** ** Release *)

Definition release_kv_cache (id : nat) (is_insert : bool) : M (World C) unit :=
  r ← req_at id;
  match req_pool_idx r with
  | None => throw AssertionError
  | Some _ =>
      cache_finished_req id is_insert;;
      r ← req_at id;
      '(start_p, end_p, r) ← lift (pop_overallocated_kv_cache r);
      set_req id r;;
      assert_ (start_p =? end_p);;
      a ← gets kv;
      let start_p := if 1 <? page_size a then ceil_align start_p (page_size a) else start_p in
      p ← gets rtp;
      (if start_p <? end_p then
         idx ← lift (of_option TypeError (req_pool_idx r));
         indices_to_free ← lift (Pool.read_row p idx start_p end_p);
         let valid_indices := Chunk.nonzero indices_to_free in
         if 0 <? len valid_indices then on_kv (free valid_indices) else mret tt
       else mret tt);;
      r ← req_at id;
      p ← gets rtp;
      '(r, p) ← lift (Pool.free r p);
      set_req id r;;
      modify (λ w, w <| rtp := p |>)
  end.

End Mem.
End Mem.
