(* ===== verification/CacheLaws.v ===== *)
(** * What the scheduler relies on of a prefix cache

    [CacheLaws] is the contract of [cache_finished_req] for a request whose
    bookkeeping is in order: the call succeeds, marks the request and hands
    slots back to the allocator, and touches nothing else of the shared
    state.  [ChunkCache] satisfies it.  [release_kv_cache] is proved against
    the contract. *)

From S2P Require Import Prelude PyFloat Allocator AllocatorFacts Request ReqPool LLM42Info World MemCommon.

(** Several calls of [free], one after the other. *)
Definition frees (xss : list (list Z)) (a : Allocator) : Allocator :=
  foldl (λ a xs, (free xs a).2) a xss.

Lemma frees_app xss yss a : frees (xss ++ yss) a = frees yss (frees xss a).
Proof. apply foldl_app. Qed.

(** Outside debug mode [free] does not fail. *)
Lemma free_ok xs a :
  debug_mode a = false →
  free xs a = (Ok tt, (free xs a).2) ∧ debug_mode (free xs a).2 = false.
Proof.
  intros Hd. unfold free. destruct (cls a).
  - split; [done|]. cbn. unfold Token.free.
    destruct (len xs =? 0); [done|]. destruct (is_not_in_free_group a); [destruct (need_sort a)|];
      by rsimpl.
  - unfold Paged.free. destruct (len xs =? 0); [done|].
    set (b := if is_not_in_free_group a then _ else _).
    assert (Hb : debug_mode b = false).
    { unfold b. destruct (is_not_in_free_group a); [destruct (need_sort a)|]; by rsimpl. }
    rewrite Hb. done.
Qed.

Lemma frees_debug xss a : debug_mode a = false → debug_mode (frees xss a) = false.
Proof.
  revert a. induction xss as [|xs xss IH]; intros a Hd; [done|]. cbn. apply IH. by apply free_ok.
Qed.

Lemma free_nil a : (free [] a).2 = a.
Proof. unfold free. by destruct (cls a). Qed.

(** With the token allocator. *)
Lemma frees_token xss a :
  cls a = TokenToKVPoolAllocator → frees xss a = foldl (λ a xs, Token.free xs a) a xss.
Proof.
  revert a. induction xss as [|xs xss IH]; intros a Hc; [done|]. cbn [frees foldl].
  fold (frees xss (free xs a).2). unfold free. rewrite Hc. cbn [snd]. apply IH.
  unfold Token.free. destruct (len xs =? 0); [done|].
  destruct (is_not_in_free_group a); [destruct (need_sort a)|]; by rsimpl.
Qed.

(** ** The contract *)

(** The fields by which a cache knows a request that holds memory. *)
Definition same_cache (r r' : Req) : Prop :=
  (req_pool_idx r' = req_pool_idx r ∧ last_node r' = last_node r ∧
   cache_protected_len r' = cache_protected_len r ∧ prefix_indices r' = prefix_indices r ∧
   origin_input_ids r' = origin_input_ids r ∧
   kv_committed_freed r' = kv_committed_freed r) ∨
  (kv_committed_freed r = true ∧ kv_committed_freed r' = true).

Lemma same_cache_refl r : same_cache r r.
Proof. by left. Qed.

(** A request whose memory can be released: its row holds its slots. *)
Record releasable (tbl : list (list Z)) (r : Req) : Prop := {
  rl_row : ∃ row l, req_pool_idx r = Some row ∧ 0 ≤ row ∧ tbl !! Z.to_nat row = Some l ∧
                    kv_committed_len r ≤ len l;
  rl_len : 0 ≤ kv_committed_len r ≤ seqlen r;
  rl_alloc : kv_allocated_len r = kv_committed_len r;
  rl_freed : kv_committed_freed r = false ∧ kv_overallocated_freed r = false
}.

Class CacheLaws (C : Type) `{PrefixCache C} := {
  (* the cache is consistent with the requests that hold memory *)
  cache_live : World C → Prop;
  (* the slots it hands back when a request finishes *)
  released : World C → Req → bool → list (list Z);
  cache_live_frame : ∀ wd wd', cache_live wd → cache wd' = cache wd →
    req_to_token (rtp wd') = req_to_token (rtp wd) →
    (∀ id r, heap wd !! id = Some r → ∃ r', heap wd' !! id = Some r' ∧ same_cache r r') →
    (∀ id, is_Some (heap wd' !! id) → is_Some (heap wd !! id)) →
    cache_live wd';
  cache_finished_ok : ∀ wd id r is_insert, cache_live wd → heap wd !! id = Some r →
    releasable (req_to_token (rtp wd)) r → debug_mode (kv wd) = false →
    ∃ wd', cache_finished_req id is_insert wd = (Ok tt, wd') ∧
      heap wd' = <[id := r <| kv_committed_freed := true |>]> (heap wd) ∧
      rtp wd' = rtp wd ∧ batch wd' = batch wd ∧
      kv wd' = frees (released wd r is_insert) (kv wd) ∧ cache_live wd' ∧
      tree_page_size (cache wd') = tree_page_size (cache wd)
}.

(** One request changes. *)
Lemma cache_live_insert `{CacheLaws C} (wd wd' : World C) id r r' :
  cache_live wd → cache wd' = cache wd → req_to_token (rtp wd') = req_to_token (rtp wd) →
  heap wd !! id = Some r → heap wd' = <[id := r']> (heap wd) → same_cache r r' → cache_live wd'.
Proof.
  intros Hl Hc Ht Hr Hh Hs. eapply cache_live_frame; [exact Hl|done|done|..]; rewrite Hh.
  - intros i r0 Hi. destruct (decide (i = id)) as [->|Hne].
    + rewrite lookup_insert_eq. exists r'. split; [done|]. by simplify_eq.
    + rewrite lookup_insert_ne by done. exists r0. split; [done|apply same_cache_refl].
  - intros i. destruct (decide (i = id)) as [->|Hne]; [by rewrite Hr|by rewrite lookup_insert_ne].
Qed.

(** ** [ChunkCache] *)

(** The slots of the committed tokens of a request. *)
Definition committed_slots (tbl : list (list Z)) (r : Req) : list Z :=
  match req_pool_idx r with
  | Some row => match tbl !! Z.to_nat row with
                | Some l => slice_to l (kv_committed_len r)
                | None => []
                end
  | None => []
  end.

Lemma nonzero_all xs : forallb (λ x, negb (x =? 0)) xs = true → Chunk.nonzero xs = xs.
Proof.
  induction xs as [|x xs IH]; [done|]. cbn [forallb]. intros [Hx Hs]%andb_prop.
  unfold Chunk.nonzero. rewrite filter_cons, decide_True by lia. f_equal. by apply IH.
Qed.

(** The two branches of the method free the same slots. *)
Lemma free_nonzero {C} (xs : list Z) (wd : World C) :
  debug_mode (kv wd) = false →
  (if forallb (λ x, negb (x =? 0)) xs then on_kv (free xs)
   else if 0 <? len (Chunk.nonzero xs) then on_kv (free (Chunk.nonzero xs)) else mret tt) wd
  = (Ok tt, wd <| kv := frees [Chunk.nonzero xs] (kv wd) |>).
Proof.
  intros Hd. cbn [frees foldl].
  destruct (forallb _ xs) eqn:E.
  - rewrite (nonzero_all _ E). unfold on_kv. by rewrite (proj1 (free_ok xs _ Hd)).
  - destruct (Z.ltb_spec 0 (len (Chunk.nonzero xs))) as [Hl|Hl].
    + unfold on_kv. by rewrite (proj1 (free_ok (Chunk.nonzero xs) _ Hd)).
    + rewrite (len_zero (Chunk.nonzero xs)) by llia. rewrite free_nil. by destruct wd.
Qed.

Lemma read_row_ok p row l a b :
  0 ≤ row → req_to_token p !! Z.to_nat row = Some l → Pool.read_row p row a b = Ok (slice l a b).
Proof.
  intros Hr Hl. unfold Pool.read_row, getitem.
  destruct (Z.ltb_spec row 0); [lia|]. destruct (Z.ltb_spec row 0); [lia|]. by rewrite Hl.
Qed.

Lemma slice_zero {A} (l : list A) n : 0 ≤ n → slice l 0 n = slice_to l n.
Proof. intros Hn. rewrite slice_nonneg, slice_to_take by lia. cbn. f_equal. lia. Qed.

#[export] Program Instance chunk_laws : CacheLaws ChunkCache := {
  cache_live _ := True;
  released wd r _ := [Chunk.nonzero (committed_slots (req_to_token (rtp wd)) r)]
}.
Next Obligation. done. Qed.
Next Obligation.
  intros wd id r ins _ Hr [(row & l & Er & H0 & El & Hl) [Hk Hk'] Ha [Hf Hf']] Hd.
  unfold cache_finished_req. cbn [chunk_cache]. unfold Chunk.cache_finished_req.
  assert (E1 : req_at id wd = (Ok r, wd)) by (unfold req_at; by rewrite Hr).
  step E1. unfold pop_committed_kv_cache. rewrite Hf.
  rewrite (bind_ok _ _ wd (kv_committed_len r, r <| kv_committed_freed := true |>) wd) by done.
  cbv beta iota.
  set (r1 := r <| kv_committed_freed := true |>). set (w1 := wd <| heap ::= <[id := r1]> |>).
  rewrite (bind_ok _ _ wd tt w1) by done.
  rewrite (bind_ok _ _ w1 row w1) by (unfold lift; change (req_pool_idx r1) with (req_pool_idx r); by rewrite Er).
  rewrite (bind_ok _ _ w1 (rtp wd) w1) by done.
  rewrite (bind_ok _ _ w1 (slice_to l (kv_committed_len r)) w1).
  2:{ unfold lift. rewrite (read_row_ok _ _ _ _ _ H0 El), slice_zero by lia. done. }
  rewrite free_nonzero by done. eexists. split; [done|].
  split_and!; try done. unfold w1, committed_slots. rsimpl. by rewrite Er, El.
Qed.

(** ** Release *)

Section Release.
Context `{Externals} {C : Type} `{CacheLaws C}.

(** The request after its memory was released. *)
Definition released_req (r : Req) : Req :=
  r <| kv_committed_freed := true |> <| kv_overallocated_freed := true |>
    <| req_pool_idx := None |>.

Lemma release_kv_cache_ok wd id r is_insert :
  cache_live wd → heap wd !! id = Some r → releasable (req_to_token (rtp wd)) r →
  debug_mode (kv wd) = false →
  ∃ wd', Mem.release_kv_cache id is_insert wd = (Ok tt, wd') ∧
    heap wd' = <[id := released_req r]> (heap wd) ∧ batch wd' = batch wd ∧
    req_to_token (rtp wd') = req_to_token (rtp wd) ∧
    kv wd' = frees (released wd r is_insert) (kv wd) ∧ cache_live wd' ∧
    tree_page_size (cache wd') = tree_page_size (cache wd).
Proof.
  intros Hlive Hr Hrel Hd. pose proof Hrel as [(row & l & Er & H0' & El & Hl) Hk Ha [Hf Hf']].
  unfold Mem.release_kv_cache.
  assert (E1 : req_at id wd = (Ok r, wd)) by (unfold req_at; by rewrite Hr).
  step E1. rewrite Er.
  destruct (cache_finished_ok wd id r is_insert Hlive Hr Hrel Hd) as (w1 & E2 & Eh & Ep & Eb & Ek & Hl1 & Epg).
  rewrite (bind_ok _ _ _ _ _ E2).
  set (r1 := r <| kv_committed_freed := true |>) in *.
  assert (E3 : req_at id w1 = (Ok r1, w1)) by (unfold req_at; by rewrite Eh, lookup_insert_eq).
  step E3. unfold pop_overallocated_kv_cache. change (kv_overallocated_freed r1) with (kv_overallocated_freed r).
  rewrite Hf'. set (r2 := r1 <| kv_overallocated_freed := true |>).
  rewrite (bind_ok _ _ w1 (kv_committed_len r1, kv_allocated_len r1, r2) w1) by done.
  cbv beta iota. set (w2 := w1 <| heap ::= <[id := r2]> |>).
  rewrite (bind_ok _ _ w1 tt w2) by done.
  change (kv_committed_len r1) with (kv_committed_len r).
  change (kv_allocated_len r1) with (kv_allocated_len r). rewrite Ha.
  rewrite (bind_ok _ _ w2 tt w2) by (unfold assert_; by rewrite Z.eqb_refl).
  rewrite (bind_ok _ _ w2 (kv w2) w2) by done. cbv beta zeta.
  rewrite (bind_ok _ _ w2 (rtp w2) w2) by done.
  replace (_ <? _) with false.
  2:{ symmetry. apply Z.ltb_ge. destruct (Z.ltb_spec 1 (page_size (kv w2))); [|lia].
      unfold ceil_align. pose proof (KernelFacts.ceil_div_spec (kv_committed_len r) (page_size (kv w2)) ltac:(lia)).
      unfold ceil_div in *. lia. }
  rewrite (bind_ok _ _ w2 tt w2) by done.
  assert (E4 : req_at id w2 = (Ok r2, w2)).
  { unfold req_at, w2. rsimpl. by rewrite lookup_insert_eq. }
  step E4. rewrite (bind_ok _ _ w2 (rtp w2) w2) by done.
  unfold Pool.free. change (req_pool_idx r2) with (req_pool_idx r). rewrite Er.
  set (p' := (rtp w2) <| free_slots ::= λ fs, fs ++ [row] |>).
  rewrite (bind_ok _ _ w2 (r2 <| req_pool_idx := None |>, p') w2) by done. cbv beta iota.
  eexists. split; [reflexivity|]. split_and!; rsimpl.
  - unfold w2. rsimpl. rewrite Eh, !insert_insert_eq. done.
  - done.
  - unfold p', w2. rsimpl. by rewrite Ep.
  - done.
  - eapply (cache_live_insert w1 _ id r1 (r2 <| req_pool_idx := None |>)); [exact Hl1|by rsimpl|by rsimpl; unfold p', w2; rsimpl| | |].
    + by rewrite Eh, lookup_insert_eq.
    + rsimpl. unfold w2. rsimpl. by rewrite insert_insert_eq.
    + right. by unfold r1, r2; rsimpl.
  - done.
Qed.

End Release.
