(* ===== verification/Radix.v ===== *)
(** * The radix cache (srt/mem_cache/radix_cache.py, srt/mem_cache/evict_policy.py)

    Tree nodes are objects that point to each other: they live in a store,
    and the fields hold their identifiers.  A node that was deleted from the
    tree stays in the store.  The cache is modelled without EAGLE's bigram
    keys, host memory (HiCache) and metrics.

    [Runtime] is what the cache takes from the Python runtime: the readings
    of [time.monotonic], the order in which a set is listed, and SHA-256.  *)

From S2P Require Import Prelude HeapQ PyFloat Allocator Request ReqPool LLM42Info World.

Class Runtime := {
  (* the n-th reading of the clock *)
  monotonic : nat → Z;
  (* [list(s)] of a set of nodes: some order of its elements, here the same
     for equal sets *)
  set_order : gset Z → list Z;
  set_order_perm : ∀ s, set_order s ≡ₚ elements s;
  (* the digest of a sequence of bytes *)
  sha256 : list Z → list Z
}.

(** ** Keys *)

Record RadixKey : Type := mkKey { token_ids : list Z; key_extra : option string }.

#[export] Instance RadixKey_eq_dec : EqDecision RadixKey.
Proof. solve_decision. Defined.

(** The keys of [children]: the first page of a key and its namespace.  A
    page of one token stands for the token. *)
Definition ChildKey : Type := (option string * list Z)%type.

Module Key.

Definition len (k : RadixKey) : Z := Prelude.len (token_ids k).
(** [key[:i]] and [key[i:]] *)
Definition upto (k : RadixKey) (i : Z) : RadixKey := mkKey (slice_to (token_ids k) i) (key_extra k).
Definition from (k : RadixKey) (i : Z) : RadixKey := mkKey (slice_from (token_ids k) i) (key_extra k).

End Key.

Definition _check_extra_key (key0 key1 : RadixKey) : res unit :=
  if bool_decide (key_extra key0 = key_extra key1) then Ok tt else Raise ValueError.

Fixpoint common_prefix (xs ys : list Z) : Z :=
  match xs, ys with
  | x :: xs', y :: ys' => if x =? y then 1 + common_prefix xs' ys' else 0
  | _, _ => 0
  end.

Definition _key_match_page_size1 (key0 key1 : RadixKey) : res Z :=
  _ ← _check_extra_key key0 key1;
  Ok (common_prefix (token_ids key0) (token_ids key1)).

(** The loop takes at least one token per page. *)
Fixpoint match_pages (fuel : nat) (page_size min_len i : Z) (xs ys : list Z) : Z :=
  match fuel with
  | O => i
  | S fuel' =>
      if i <? min_len then
        if bool_decide (slice xs i (i + page_size) = slice ys i (i + page_size))
        then match_pages fuel' page_size min_len (i + page_size) xs ys else i
      else i
  end.

Definition _key_match_paged (key0 key1 : RadixKey) (page_size : Z) : res Z :=
  _ ← _check_extra_key key0 key1;
  let min_len := Z.min (Key.len key0) (Key.len key1) in
  Ok (match_pages (Z.to_nat min_len) page_size min_len 0 (token_ids key0) (token_ids key1)).

(** [self.key_match_fn] *)
Definition key_match_fn (page_size : Z) (key0 key1 : RadixKey) : res Z :=
  if page_size =? 1 then _key_match_page_size1 key0 key1
  else _key_match_paged key0 key1 page_size.

Definition get_child_key (key : RadixKey) (page_size : Z) : res ChildKey :=
  plain_key ← (if page_size =? 1 then t ← getitem (token_ids key) 0; Ok [t]
               else Ok (slice_to (token_ids key) page_size));
  Ok (key_extra key, plain_key).

(** ** Hashes of pages (get_hash_str and hash_str_to_int64 of
    srt/mem_cache/hicache_storage.py)

    A hash is kept as the bytes of the digest, the code keeps its hexadecimal
    form. *)

Definition digest : Type := list Z.

(** [t.to_bytes(4, byteorder="little", signed=False)] *)
Definition to_bytes4 (t : Z) : res (list Z) :=
  if (0 <=? t) && (t <? 2 ^ 32)
  then Ok [t mod 256; t / 256 mod 256; t / 65536 mod 256; t / 16777216]
  else Raise OverflowError.

(** [range(0, len(xs), page_size)], the pages that start there *)
Definition pages {A} (page_size : Z) (xs : list A) : list (list A) :=
  (λ i, slice xs (i * page_size) (i * page_size + page_size))
    <$> range 0 ((len xs + page_size - 1) / page_size).

Section Hash.
Context `{Runtime}.

Definition get_hash_str (toks : list Z) (prior_hash : option digest) : res digest :=
  bs ← mapM to_bytes4 toks;
  Ok (sha256 (default [] prior_hash ++ concat bs)).

Definition hash_str_to_int64 (h : digest) : res Z :=
  match h with
  | [] => Raise ValueError
  | _ =>
      let uint64_val := foldl (λ n b, n * 256 + b) 0 (slice_to h 8) in
      Ok (if 2 ^ 63 <=? uint64_val then uint64_val - 2 ^ 64 else uint64_val)
  end.

(** The loop of [compute_node_hash_values] *)
Definition hash_pages (parent_hash : option digest) (ps : list (list Z)) : res (list digest) :=
  '(hs, _) ← foldR (λ '(hs, prior) p, h ← get_hash_str p prior; Ok (hs ++ [h], Some h))
               ([], parent_hash) ps;
  Ok hs.
End Hash.

Definition split_node_hash_value (child_hash_value : option (list digest)) (split_len page_size : Z)
    : option (list digest) * option (list digest) :=
  match child_hash_value with
  | None => (None, None)
  | Some h =>
      let split_pages := if page_size =? 1 then split_len else split_len / page_size in
      (Some (slice_to h split_pages), Some (slice_from h split_pages))
  end.

(** ** Nodes *)

Record TreeNode : Type := mkNode {
  n_children : gmap ChildKey Z;
  n_parent : option Z;
  n_key : RadixKey;
  n_value : option (list Z);
  n_lock_ref : Z;
  n_last_access_time : Z;
  n_creation_time : Z;
  n_hit_count : Z;
  n_hash_value : option (list digest);
  n_priority : Z
}.

#[export] Instance eta_TreeNode : Eta TreeNode := λ n,
  mkNode (n_children n) (n_parent n) (n_key n) (n_value n) (n_lock_ref n) (n_last_access_time n)
    (n_creation_time n) (n_hit_count n) (n_hash_value n) (n_priority n).
#[export] Instance set_n_children : Setter n_children.
Proof. derive_setter. Defined.
#[export] Instance set_n_parent : Setter n_parent.
Proof. derive_setter. Defined.
#[export] Instance set_n_key : Setter n_key.
Proof. derive_setter. Defined.
#[export] Instance set_n_value : Setter n_value.
Proof. derive_setter. Defined.
#[export] Instance set_n_lock_ref : Setter n_lock_ref.
Proof. derive_setter. Defined.
#[export] Instance set_n_last_access_time : Setter n_last_access_time.
Proof. derive_setter. Defined.
#[export] Instance set_n_hash_value : Setter n_hash_value.
Proof. derive_setter. Defined.
#[export] Instance set_n_priority : Setter n_priority.
Proof. derive_setter. Defined.

Definition evicted (n : TreeNode) : bool := match n_value n with None => true | Some _ => false end.

(** ** Eviction strategies *)

Inductive EvictionStrategy : Type :=
| LRUStrategy | LFUStrategy | FIFOStrategy | MRUStrategy | FILOStrategy | PriorityStrategy.

(** A number is a tuple of one. *)
Definition get_priority (s : EvictionStrategy) (n : TreeNode) : list Z :=
  match s with
  | LRUStrategy => [n_last_access_time n]
  | LFUStrategy => [n_hit_count n; n_last_access_time n]
  | FIFOStrategy => [n_creation_time n]
  | MRUStrategy => [- n_last_access_time n]
  | FILOStrategy => [- n_creation_time n]
  | PriorityStrategy => [n_priority n; n_last_access_time n]
  end.

(** [str.lower] on ASCII letters *)
Definition lower_char (a : Ascii.ascii) : Ascii.ascii :=
  let n := Ascii.nat_of_ascii a in
  if (65 <=? n)%nat && (n <=? 90)%nat then Ascii.ascii_of_nat (n + 32) else a.
Fixpoint lower (s : string) : string :=
  match s with
  | EmptyString => EmptyString
  | String a s' => String (lower_char a) (lower s')
  end.

Definition strategy_of (eviction_policy : string) : res EvictionStrategy :=
  let p := lower eviction_policy in
  if String.eqb p "lru" then Ok LRUStrategy
  else if String.eqb p "lfu" then Ok LFUStrategy
  else if String.eqb p "fifo" then Ok FIFOStrategy
  else if String.eqb p "mru" then Ok MRUStrategy
  else if String.eqb p "filo" then Ok FILOStrategy
  else if String.eqb p "priority" then Ok PriorityStrategy
  else Raise ValueError.

(** Entries of the eviction heap, [(priority, node)]: tuples compare by the
    first component that differs, nodes by [TreeNode.__lt__], the order of
    their access times ([e_time], which does not change while the heap is
    used). *)
Record Entry : Type := mkEntry { e_priority : list Z; e_time : Z; e_node : Z }.

Fixpoint tuple_lt (xs ys : list Z) : bool :=
  match xs, ys with
  | x :: xs', y :: ys' => if x =? y then tuple_lt xs' ys' else x <? y
  | [], _ :: _ => true
  | _, [] => false
  end.

Definition entry_lt (a b : Entry) : bool :=
  if bool_decide (e_priority a = e_priority b) then e_time a <? e_time b
  else tuple_lt (e_priority a) (e_priority b).

(** ** The cache *)

Inductive KVCacheEvent : Type :=
| BlockStored (block_hashes : list Z) (parent_block_hash : option Z) (toks : list Z) (block_size : Z)
| BlockRemoved (block_hashes : list Z)
| AllBlocksCleared.

Record RadixCache : Type := mkRadixCache {
  rc_disable : bool;
  rc_page_size : Z;
  rc_enable_kv_cache_events : bool;
  rc_disable_finished_insert : bool;
  rc_strategy : EvictionStrategy;
  (* the store of nodes, [TreeNode.counter] and the readings of the clock *)
  rc_nodes : gmap Z TreeNode;
  rc_counter : Z;
  rc_clock : nat;
  rc_root : Z;
  rc_evictable_size : Z;
  rc_protected_size : Z;
  rc_evictable_leaves : gset Z;
  rc_kv_event_queue : list KVCacheEvent
}.

#[export] Instance eta_RadixCache : Eta RadixCache := λ c,
  mkRadixCache (rc_disable c) (rc_page_size c) (rc_enable_kv_cache_events c)
    (rc_disable_finished_insert c) (rc_strategy c) (rc_nodes c) (rc_counter c) (rc_clock c)
    (rc_root c) (rc_evictable_size c) (rc_protected_size c) (rc_evictable_leaves c)
    (rc_kv_event_queue c).
#[export] Instance set_rc_nodes : Setter rc_nodes.
Proof. derive_setter. Defined.
#[export] Instance set_rc_counter : Setter rc_counter.
Proof. derive_setter. Defined.
#[export] Instance set_rc_clock : Setter rc_clock.
Proof. derive_setter. Defined.
#[export] Instance set_rc_root : Setter rc_root.
Proof. derive_setter. Defined.
#[export] Instance set_rc_evictable_size : Setter rc_evictable_size.
Proof. derive_setter. Defined.
#[export] Instance set_rc_protected_size : Setter rc_protected_size.
Proof. derive_setter. Defined.
#[export] Instance set_rc_evictable_leaves : Setter rc_evictable_leaves.
Proof. derive_setter. Defined.
#[export] Instance set_rc_kv_event_queue : Setter rc_kv_event_queue.
Proof. derive_setter. Defined.

(** [sys.maxsize] *)
Definition maxsize : Z := 2 ^ 63 - 1.

Module Radix.

Section Radix.
Context `{Runtime}.

(** ** The store *)

Definition node_at (n : Z) : M RadixCache TreeNode := λ c,
  (of_option AttributeError (rc_nodes c !! n), c).
Definition upd_node (n : Z) (f : TreeNode → TreeNode) : M RadixCache unit :=
  x ← node_at n; modify (λ c, c <| rc_nodes ::= <[n := f x]> |>).
Definition tick : M RadixCache Z := λ c, (Ok (monotonic (rc_clock c)), c <| rc_clock ::= S |>).

(** [TreeNode(priority=...)]; the key is assigned after the creation. *)
Definition new_node (prio : Z) : M RadixCache Z :=
  t0 ← tick;
  t1 ← tick;
  n ← gets rc_counter;
  modify (λ c, c <| rc_counter := n + 1 |>
                 <| rc_nodes ::= <[n := mkNode ∅ None (mkKey [] None) None 0 t0 t1 0 None prio]> |>);;
  mret n.

(** ** Events *)

Definition compute_node_hash_values (node : Z) : M RadixCache (list digest) :=
  x ← node_at node;
  parent_hash ←
    (match n_parent x with
     | None => mret None
     | Some p =>
         px ← node_at p;
         match n_hash_value px with
         | Some hs => mret (if (0 <? Key.len (n_key px)) && (0 <? len hs) then last hs else None)
         | None => mret None
         end
     end);
  page_size ← gets rc_page_size;
  lift (hash_pages parent_hash (pages page_size (token_ids (n_key x)))).

(** The hash values of a node, computed when they are missing *)
Definition ensure_hash (node : Z) : M RadixCache (list digest) :=
  x ← node_at node;
  match n_hash_value x with
  | Some hs => mret hs
  | None =>
      hs ← compute_node_hash_values node;
      upd_node node (λ x, x <| n_hash_value := Some hs |>);;
      mret hs
  end.

Definition emit (e : KVCacheEvent) : M RadixCache unit :=
  modify (λ c, c <| rc_kv_event_queue ::= λ q, q ++ [e] |>).

Definition _record_store_event (node : Z) : M RadixCache unit :=
  c ← get;
  if rc_enable_kv_cache_events c then
    hs ← ensure_hash node;
    x ← node_at node;
    parent_block_hash ←
      (match n_parent x with
       | Some p =>
           if p =? rc_root c then mret None
           else
             px ← node_at p;
             match last (default [] (n_hash_value px)) with
             | Some h => b ← lift (hash_str_to_int64 h); mret (Some b)
             | None => mret None
             end
       | None => mret None
       end);
    _ ← foldM (λ parent_block_hash '(page_index, page_tokens),
                 h ← lift (getitem hs page_index);
                 block_hash ← lift (hash_str_to_int64 h);
                 emit (BlockStored [block_hash] parent_block_hash page_tokens (len page_tokens));;
                 mret (Some block_hash))
          parent_block_hash (enumerate (pages (rc_page_size c) (token_ids (n_key x))));
    mret tt
  else mret tt.

Definition _record_remove_event (node : Z) : M RadixCache unit :=
  c ← get;
  if rc_enable_kv_cache_events c then
    hs ← ensure_hash node;
    x ← node_at node;
    for_ (enumerate (pages (rc_page_size c) (token_ids (n_key x))))
      (λ '(page_index, _),
         h ← lift (getitem hs page_index);
         block_hash ← lift (hash_str_to_int64 h);
         emit (BlockRemoved [block_hash]))
  else mret tt.

Definition _record_all_cleared_event : M RadixCache unit :=
  c ← get;
  if rc_enable_kv_cache_events c then emit AllBlocksCleared else mret tt.

Definition take_events : M RadixCache (list KVCacheEvent) :=
  c ← get;
  if rc_enable_kv_cache_events c then
    put (c <| rc_kv_event_queue := [] |>);; mret (rc_kv_event_queue c)
  else mret [].

(** ** Construction *)

Definition reset : M RadixCache unit :=
  root ← new_node (- maxsize);
  upd_node root (λ x, x <| n_value := Some [] |> <| n_lock_ref := 1 |> <| n_hash_value := Some [] |>);;
  modify (λ c, c <| rc_root := root |> <| rc_evictable_size := 0 |> <| rc_protected_size := 0 |>
                 <| rc_evictable_leaves := ∅ |>);;
  _record_all_cleared_event.

(** [RadixCache(params)]; [counter] and [clock] are those of the process. *)
Definition init (disable : bool) (page_size : Z) (enable_kv_cache_events disable_finished_insert : bool)
    (eviction_policy : string) (counter : Z) (clock : nat) : res RadixCache :=
  s ← strategy_of eviction_policy;
  let '(r, c) := reset (mkRadixCache disable page_size enable_kv_cache_events disable_finished_insert
                          s ∅ counter clock (-1) 0 0 ∅ []) in
  _ ← r; Ok c.

(** ** Leaves *)

Definition any_child (c : RadixCache) (x : TreeNode) : bool :=
  existsb (λ ch, match rc_nodes c !! ch with Some y => negb (evicted y) | None => false end)
    (map_to_list (n_children x)).*2.

Definition _update_leaf_status (node : Z) : M RadixCache unit :=
  x ← node_at node;
  c ← get;
  if evicted x || (0 <? n_lock_ref x) || any_child c x
  then modify (λ c, c <| rc_evictable_leaves ::= λ s, s ∖ {[node]} |>)
  else modify (λ c, c <| rc_evictable_leaves ::= λ s, {[node]} ∪ s |>).

Definition _delete_leaf (node : Z) : M RadixCache unit :=
  x ← node_at node;
  page_size ← gets rc_page_size;
  key ← lift (get_child_key (n_key x) page_size);
  p ← lift (of_option AttributeError (n_parent x));
  px ← node_at p;
  upd_node p (λ px, px <| n_children ::= delete key |>);;
  assert_ (bool_decide (n_children px !! key = Some node));;
  modify (λ c, c <| rc_evictable_size ::= λ n, n - Key.len (n_key x) |>
                 <| rc_evictable_leaves ::= λ s, s ∖ {[node]} |>);;
  _update_leaf_status p.

(** ** Matching and insertion *)

Definition _split_node (key : RadixKey) (child : Z) (split_len : Z) : M RadixCache Z :=
  x ← node_at child;
  new ← new_node (n_priority x);
  page_size ← gets rc_page_size;
  rest_key ← lift (get_child_key (Key.from key split_len) page_size);
  v ← lift (of_option TypeError (n_value x));
  upd_node new (λ y, y <| n_children := {[rest_key := child]} |> <| n_parent := n_parent x |>
                       <| n_lock_ref := n_lock_ref x |> <| n_key := Key.upto (n_key x) split_len |>
                       <| n_value := Some (slice_to v split_len) |>);;
  upd_node child (λ y, y <| n_parent := Some new |> <| n_key := Key.from (n_key x) split_len |>
                         <| n_value := Some (slice_from v split_len) |>);;
  p ← lift (of_option AttributeError (n_parent x));
  child_key ← lift (get_child_key key page_size);
  upd_node p (λ y, y <| n_children ::= <[child_key := new]> |>);;
  let '(h, h') := split_node_hash_value (n_hash_value x) split_len page_size in
  upd_node new (λ y, y <| n_hash_value := h |>);;
  upd_node child (λ y, y <| n_hash_value := h' |>);;
  mret new.

(** [child_key = self.get_child_key_fn(key)] when the key is not empty *)
Definition next_child_key (key : RadixKey) (child_key : ChildKey) : M RadixCache ChildKey :=
  page_size ← gets rc_page_size;
  if 0 <? Key.len key then lift (get_child_key key page_size) else mret child_key.

(** The loops below consume a part of the key in every iteration but the
    last one: the length of the key bounds their number. *)
Fixpoint match_loop (fuel : nat) (access_time node : Z) (key : RadixKey) (child_key : ChildKey)
    (value : list (option (list Z))) : M RadixCache (list (option (list Z)) * Z) :=
  match fuel with
  | O => throw RuntimeError
  | S fuel' =>
      x ← node_at node;
      match (if 0 <? Key.len key then n_children x !! child_key else None) with
      | None => mret (value, node)
      | Some child =>
          upd_node child (λ y, y <| n_last_access_time := access_time |>);;
          y ← node_at child;
          page_size ← gets rc_page_size;
          prefix_len ← lift (key_match_fn page_size (n_key y) key);
          if prefix_len <? Key.len (n_key y) then
            new ← _split_node (n_key y) child prefix_len;
            z ← node_at new;
            mret (value ++ [n_value z], new)
          else
            let key := Key.from key prefix_len in
            child_key ← next_child_key key child_key;
            match_loop fuel' access_time child key child_key (value ++ [n_value y])
      end
  end.

Definition _match_prefix_helper (node : Z) (key : RadixKey) : M RadixCache (list (option (list Z)) * Z) :=
  access_time ← tick;
  upd_node node (λ x, x <| n_last_access_time := access_time |>);;
  page_size ← gets rc_page_size;
  child_key ← lift (get_child_key key page_size);
  match_loop (S (length (token_ids key))) access_time node key child_key [].

(** [len(key) // page_size * page_size] *)
Definition aligned_len (page_size n : Z) : Z := n / page_size * page_size.

Definition match_prefix (key : RadixKey) : M RadixCache (list Z * Z) :=
  c ← get;
  if rc_disable c || (Key.len key =? 0) then mret ([], rc_root c)
  else
    let key := if rc_page_size c =? 1 then key
               else Key.upto key (aligned_len (rc_page_size c) (Key.len key)) in
    if Key.len key =? 0 then mret ([], rc_root c)
    else
      '(value, last_node) ← _match_prefix_helper (rc_root c) key;
      vs ← lift (mapM (of_option TypeError) value);
      mret (concat vs, last_node).

Fixpoint insert_loop (fuel : nat) (access_time prio node : Z) (key : RadixKey) (value : list Z)
    (child_key : ChildKey) (total_prefix_length : Z)
    : M RadixCache (Z * RadixKey * list Z * ChildKey * Z) :=
  match fuel with
  | O => throw RuntimeError
  | S fuel' =>
      x ← node_at node;
      match (if 0 <? Key.len key then n_children x !! child_key else None) with
      | None => mret (node, key, value, child_key, total_prefix_length)
      | Some child =>
          upd_node child (λ y, y <| n_last_access_time := access_time |>);;
          y ← node_at child;
          page_size ← gets rc_page_size;
          prefix_len ← lift (key_match_fn page_size (n_key y) key);
          let key := Key.from key prefix_len in
          let value := slice_from value prefix_len in
          node ←
            (if prefix_len <? Key.len (n_key y) then
               new ← _split_node (n_key y) child prefix_len;
               upd_node new (λ z, z <| n_priority ::= λ q, Z.max q prio |>);;
               mret new
             else
               upd_node child (λ z, z <| n_priority ::= λ q, Z.max q prio |>);;
               mret child);
          child_key ← next_child_key key child_key;
          insert_loop fuel' access_time prio node key value child_key
            (total_prefix_length + prefix_len)
      end
  end.

Definition _insert_helper (node : Z) (key : RadixKey) (value : list Z) (prio : Z) : M RadixCache Z :=
  access_time ← tick;
  upd_node node (λ x, x <| n_last_access_time := access_time |>
                        <| n_priority ::= λ q, Z.max q prio |>);;
  if Key.len key =? 0 then mret 0
  else
    page_size ← gets rc_page_size;
    child_key ← lift (get_child_key key page_size);
    '(node, key, value, child_key, total_prefix_length) ←
      insert_loop (S (length (token_ids key))) access_time prio node key value child_key 0;
    (if 0 <? Key.len key then
       new ← new_node prio;
       upd_node new (λ y, y <| n_parent := Some node |> <| n_key := key |> <| n_value := Some value |>);;
       upd_node node (λ y, y <| n_children ::= <[child_key := new]> |>);;
       modify (λ c, c <| rc_evictable_size ::= λ n, n + Key.len key |>);;
       _update_leaf_status node;;
       _update_leaf_status new;;
       _record_store_event new
     else mret tt);;
    mret total_prefix_length.

Definition insert (key : RadixKey) (value : option (list Z)) (prio : option Z) : M RadixCache Z :=
  c ← get;
  if rc_disable c then mret 0
  else _insert_helper (rc_root c) key (default (token_ids key) value) (default 0 prio).

(** ** Locks *)

(** Every iteration goes to the parent: the number of nodes bounds them. *)
Fixpoint inc_loop (fuel : nat) (node : option Z) (delta : Z) : M RadixCache Z :=
  match fuel with
  | O => throw RuntimeError
  | S fuel' =>
      c ← get;
      if bool_decide (node = Some (rc_root c)) then mret delta
      else
        n ← lift (of_option AttributeError node);
        x ← node_at n;
        delta ←
          (if n_lock_ref x =? 0 then
             modify (λ c, c <| rc_evictable_size ::= λ s, s - Key.len (n_key x) |>
                            <| rc_protected_size ::= λ s, s + Key.len (n_key x) |>);;
             mret (delta - Key.len (n_key x))
           else mret delta);
        upd_node n (λ x, x <| n_lock_ref ::= λ k, k + 1 |>);;
        _update_leaf_status n;;
        inc_loop fuel' (n_parent x) delta
  end.

Definition inc_lock_ref (node : option Z) : M RadixCache Z :=
  c ← get;
  if rc_disable c then mret 0 else inc_loop (S (base.size (rc_nodes c))) node 0.

Fixpoint dec_loop (fuel : nat) (node : option Z) (delta : Z) : M RadixCache Z :=
  match fuel with
  | O => throw RuntimeError
  | S fuel' =>
      c ← get;
      if bool_decide (node = Some (rc_root c)) then mret delta
      else
        n ← lift (of_option AttributeError node);
        x ← node_at n;
        delta ←
          (if n_lock_ref x =? 1 then
             modify (λ c, c <| rc_evictable_size ::= λ s, s + Key.len (n_key x) |>
                            <| rc_protected_size ::= λ s, s - Key.len (n_key x) |>);;
             mret (delta + Key.len (n_key x))
           else mret delta);
        upd_node n (λ x, x <| n_lock_ref ::= λ k, k - 1 |>);;
        _update_leaf_status n;;
        match n_parent x with
        | None => throw AssertionError
        | Some _ => dec_loop fuel' (n_parent x) delta
        end
  end.

Definition dec_lock_ref (node : option Z) : M RadixCache Z :=
  c ← get;
  if rc_disable c then mret 0 else dec_loop (S (base.size (rc_nodes c))) node 0.

(** ** Eviction *)

Definition on_cache {A} (m : M RadixCache A) : M (World RadixCache) A := λ w,
  let '(r, c) := m (cache w) in (r, w <| cache := c |>).

Definition entry (s : EvictionStrategy) (n : Z) : M RadixCache Entry :=
  x ← node_at n;
  mret (mkEntry (get_priority s x) (n_last_access_time x) n).

(** Every iteration deletes a node. *)
Fixpoint evict_loop (fuel : nat) (num_tokens num_evicted : Z) (eviction_heap : list Entry)
    : M (World RadixCache) Z :=
  match fuel with
  | O => throw RuntimeError
  | S fuel' =>
      if num_evicted <? num_tokens then
        match HeapQ.heappop entry_lt eviction_heap with
        | None => mret num_evicted
        | Some (e, eviction_heap) =>
            x ← on_cache (node_at (e_node e));
            v ← lift (of_option TypeError (n_value x));
            on_kv (free v);;
            on_cache (_delete_leaf (e_node e));;
            p ← lift (of_option AttributeError (n_parent x));
            px ← on_cache (node_at p);
            eviction_heap ←
              (if bool_decide (n_children px = ∅) && (n_lock_ref px =? 0) then
                 s ← gets (λ w, rc_strategy (cache w));
                 e' ← on_cache (entry s p);
                 mret (HeapQ.heappush entry_lt eviction_heap e')
               else mret eviction_heap);
            on_cache (_record_remove_event (e_node e));;
            evict_loop fuel' num_tokens (num_evicted + len v) eviction_heap
        end
      else mret num_evicted
  end.

Definition evict (num_tokens : Z) : M (World RadixCache) Z :=
  c ← gets cache;
  if rc_disable c then mret 0
  else
    let leaves := set_order (rc_evictable_leaves c) in
    entries ← foldM (λ acc n, e ← on_cache (entry (rc_strategy c) n); mret (acc ++ [e])) [] leaves;
    evict_loop (S (base.size (rc_nodes c))) num_tokens 0 (HeapQ.heapify entry_lt entries).

(** ** Requests *)

Definition _page_align_keys (page_size : Z) (key : list Z) : list Z :=
  if page_size =? 1 then key else slice_to key (aligned_len page_size (len key)).

(** [getattr(req, "priority", 0) or 0] *)
Definition req_priority (r : Req) : Z := default 0 (priority r).

Definition cache_finished_req (id : nat) (is_insert : bool) : M (World RadixCache) unit :=
  c ← gets cache;
  let is_insert := if rc_disable_finished_insert c then false else is_insert in
  r ← req_at id;
  '(kv_committed_len, r) ← lift (pop_committed_kv_cache r);
  set_req id r;;
  idx ← lift (of_option TypeError (req_pool_idx r));
  p ← gets rtp;
  if rc_disable c then
    kv_indices ← lift (Pool.read_row p idx 0 kv_committed_len);
    on_kv (free kv_indices)
  else
    let toks := slice_to (origin_input_ids r ++ output_ids r) kv_committed_len in
    kv_indices ← lift (Pool.read_row p idx 0 (len toks));
    let keys := _page_align_keys (rc_page_size c) toks in
    let values := slice_to kv_indices (len keys) in
    let radix_key := mkKey keys (extra_key r) in
    (if is_insert then
       new_prefix_len ← on_cache (insert radix_key (Some values) (Some (req_priority r)));
       on_kv (free (slice kv_indices (cache_protected_len r) new_prefix_len))
     else on_kv (free (slice kv_indices (cache_protected_len r) (len keys))));;
    on_kv (free (slice_from kv_indices (len keys)));;
    _ ← on_cache (dec_lock_ref (last_node r));
    mret tt.

(** [kv_indices] is a view of the row, which is overwritten further down.
    Its values are read before that: [free] copies them, unless a free group
    is open.  The scheduler has none open here. *)
Definition cache_unfinished_req (id : nat) (chunked : bool) : M (World RadixCache) unit :=
  c ← gets cache;
  if rc_disable c then mret tt
  else
    r ← req_at id;
    let toks := fill_ids r in
    idx ← lift (of_option TypeError (req_pool_idx r));
    p ← gets rtp;
    kv_indices ← lift (Pool.read_row p idx 0 (len toks));
    let keys := _page_align_keys (rc_page_size c) toks in
    let values := slice_to kv_indices (len keys) in
    let radix_key := mkKey keys (extra_key r) in
    new_prefix_len ← on_cache (insert radix_key (Some values) (Some (req_priority r)));
    on_kv (free (slice kv_indices (cache_protected_len r) new_prefix_len));;
    '(new_indices, new_last_node) ← on_cache (match_prefix radix_key);
    assert_ (len new_indices =? len keys);;
    on_rtp (Pool.write idx (cache_protected_len r) (len new_indices)
              (slice_from new_indices (cache_protected_len r)));;
    set_req id (r <| cache_protected_len := len new_indices |>);;
    _ ← on_cache (dec_lock_ref (last_node r));
    _ ← on_cache (inc_lock_ref (Some new_last_node));
    let prefix := if len new_indices <? len kv_indices
                  then new_indices ++ slice_from kv_indices (len new_indices) else new_indices in
    upd_req id (λ r, r <| prefix_indices := prefix |> <| last_node := Some new_last_node |>).

End Radix.
End Radix.

#[export] Instance radix_cache `{Runtime} : PrefixCache RadixCache := {
  is_chunk_cache := false;
  cache_disabled := rc_disable;
  tree_page_size := rc_page_size;
  match_prefix toks extra :=
    '(value, node) ← Radix.on_cache (Radix.match_prefix (mkKey toks extra));
    mret (value, Some node);
  cache_finished_req := Radix.cache_finished_req;
  cache_unfinished_req := Radix.cache_unfinished_req;
  evict := Radix.evict;
  inc_lock_ref n := Radix.on_cache (Radix.inc_lock_ref n);
  dec_lock_ref n := Radix.on_cache (Radix.dec_lock_ref n);
  evictable_size := rc_evictable_size
}.
