(* ===== verification/RadixTree.v ===== *)
(** * The tree behind the radix cache

    The nodes in the store form a tree whose paths spell cached token
    sequences.  A ghost map [P] gives every node of the tree the namespace,
    the tokens and the slots on its way from the root; [tree] says that the
    store agrees with it.  Two nodes whose edges cover the same page of the
    same sequence are equal ([edge_unique]), from which everything else
    follows.  [cached] is what the tree means to its users: a partial
    function from page-aligned token sequences to slots. *)

From S2P Require Import Prelude HeapQ PyFloat Allocator Request ReqPool LLM42Info World Radix.

(** The fields that make up the tree *)
Record Shape : Type := mkShape {
  s_children : gmap ChildKey Z;
  s_parent : option Z;
  s_key : RadixKey;
  s_value : option (list Z);
  s_lock : Z
}.

#[export] Instance eta_Shape : Eta Shape := λ s,
  mkShape (s_children s) (s_parent s) (s_key s) (s_value s) (s_lock s).
#[export] Instance set_s_children : Setter s_children.
Proof. derive_setter. Defined.
#[export] Instance set_s_parent : Setter s_parent.
Proof. derive_setter. Defined.
#[export] Instance set_s_lock : Setter s_lock.
Proof. derive_setter. Defined.

Definition shape (x : TreeNode) : Shape :=
  mkShape (n_children x) (n_parent x) (n_key x) (n_value x) (n_lock_ref x).

(** The way from the root to a node *)
Record Path : Type := mkPath { p_extra : option string; p_toks : list Z; p_slots : list Z }.

#[export] Instance Path_eq_dec : EqDecision Path.
Proof. solve_decision. Defined.

Definition root_path : Path := mkPath None [] [].

Definition extend (pp : Path) (k : RadixKey) (v : list Z) : Path :=
  mkPath (key_extra k) (p_toks pp ++ token_ids k) (p_slots pp ++ v).

(** A node with path [q] is on the way to a node with path [h]. *)
Definition covers (q h : Path) : Prop := p_extra q = p_extra h ∧ p_toks q `prefix_of` p_toks h.
#[export] Instance covers_dec q h : Decision (covers q h).
Proof. unfold covers. apply _. Defined.

Section Tree.
Context (ps root : Z).

Definition ck (k : RadixKey) : ChildKey := (key_extra k, take (Z.to_nat ps) (token_ids k)).

Implicit Types (S : gmap Z Shape) (P : gmap Z Path).

(** The node [n] hangs below its parent: the node's shape, its parent, the
    parent's shape and path, and the slots on the edge. *)
Record Link : Type := mkLink {
  l_s : Shape; l_p : Z; l_ps : Shape; l_pp : Path; l_v : list Z
}.

Record linked S P (n : Z) (pn : Path) (l : Link) : Prop := {
  ln_shape : S !! n = Some (l_s l);
  ln_parent : s_parent (l_s l) = Some (l_p l);
  ln_pshape : S !! l_p l = Some (l_ps l);
  ln_ppath : P !! l_p l = Some (l_pp l);
  ln_child : s_children (l_ps l) !! ck (s_key (l_s l)) = Some n;
  ln_value : s_value (l_s l) = Some (l_v l);
  ln_vlen : len (l_v l) = Key.len (s_key (l_s l));
  ln_pos : 0 < Key.len (s_key (l_s l));
  ln_page : (ps | Key.len (s_key (l_s l)));
  ln_path : pn = extend (l_pp l) (s_key (l_s l)) (l_v l);
  ln_extra : l_p l = root ∨ p_extra (l_pp l) = key_extra (s_key (l_s l))
}.
#[local] Arguments ln_shape {_ _ _ _ _} _.
#[local] Arguments ln_parent {_ _ _ _ _} _.
#[local] Arguments ln_pshape {_ _ _ _ _} _.
#[local] Arguments ln_ppath {_ _ _ _ _} _.
#[local] Arguments ln_child {_ _ _ _ _} _.
#[local] Arguments ln_value {_ _ _ _ _} _.
#[local] Arguments ln_vlen {_ _ _ _ _} _.
#[local] Arguments ln_pos {_ _ _ _ _} _.
#[local] Arguments ln_page {_ _ _ _ _} _.
#[local] Arguments ln_path {_ _ _ _ _} _.
#[local] Arguments ln_extra {_ _ _ _ _} _.

Record tree S P : Prop := {
  tree_ps : 0 < ps;
  tree_root : P !! root = Some root_path;
  tree_root_shape : ∃ s, S !! root = Some s ∧ s_parent s = None ∧ s_value s = Some [] ∧
                         s_key s = mkKey [] None ∧ s_lock s = 1;
  tree_linked : ∀ n pn, P !! n = Some pn → n ≠ root → ∃ l, linked S P n pn l;
  tree_children : ∀ p pp sp k c, P !! p = Some pp → S !! p = Some sp → s_children sp !! k = Some c →
    c ≠ root ∧ is_Some (P !! c) ∧ ∃ s, S !! c = Some s ∧ s_parent s = Some p ∧ ck (s_key s) = k
}.

(** ** Pages *)

Lemma divide_lt_add a b : 0 < ps → (ps | a) → (ps | b) → a < b → a + ps ≤ b.
Proof. intros H0 [i ->] [j ->] Hlt. assert (i < j) by nia. nia. Qed.

Lemma take_agree {A} (xs ys : list A) q q' :
  take (Z.to_nat q) xs = take (Z.to_nat q) ys → q' ≤ q → take (Z.to_nat q') xs = take (Z.to_nat q') ys.
Proof.
  intros E Hq. apply (f_equal (take (Z.to_nat q'))) in E. rewrite !take_take in E.
  by replace (Z.to_nat q' `min` Z.to_nat q)%nat with (Z.to_nat q') in E by lia.
Qed.

Lemma take_below {A} (xs ys : list A) q :
  0 ≤ q → take (Z.to_nat (len xs + q)) (xs ++ ys) = xs ++ take (Z.to_nat q) ys.
Proof.
  intros Hq. rewrite Z2Nat.inj_add by (try apply len_nonneg; lia). unfold len. rewrite Nat2Z.id.
  apply take_app_add.
Qed.

Lemma take_len {A} (xs ys : list A) : take (Z.to_nat (len xs)) (xs ++ ys) = xs.
Proof. unfold len. rewrite Nat2Z.id. apply take_app_length. Qed.

(** Equal on the first page below a node *)
Lemma same_ck pp pp' (k1 k2 : RadixKey) q :
  0 < ps → len pp = len pp' → len pp + ps ≤ q → key_extra k1 = key_extra k2 →
  take (Z.to_nat q) (pp ++ token_ids k1) = take (Z.to_nat q) (pp' ++ token_ids k2) → ck k1 = ck k2.
Proof.
  intros H0 Hl Hq He Ht. unfold ck. f_equal; [done|].
  apply (take_agree _ _ _ (len pp + ps)) in Ht; [|lia]. rewrite Hl in Ht at 2.
  rewrite !take_below in Ht by lia. apply app_inj_1 in Ht; [by destruct Ht|unfold len in Hl; lia].
Qed.

(** ** Paths *)

Section Paths.
Context S P (HT : tree S P).

Lemma linked_det n pn l pn' l' : linked S P n pn l → linked S P n pn' l' → l = l' ∧ pn = pn'.
Proof.
  intros H1 H2. destruct l as [s p sp pp v], l' as [s' p' sp' pp' v'], H1, H2. cbn in *.
  simplify_eq. done.
Qed.

Lemma linked_len n pn l :
  linked S P n pn l → len (p_toks pn) = len (p_toks (l_pp l)) + Key.len (s_key (l_s l)).
Proof. intros HL. rewrite (ln_path HL). cbn. unfold Key.len. llia. Qed.

(** Induction from the root to the leaves *)
Lemma path_ind (Q : Z → Path → Prop) :
  Q root root_path →
  (∀ n pn l, P !! n = Some pn → n ≠ root → linked S P n pn l → Q (l_p l) (l_pp l) → Q n pn) →
  ∀ n pn, P !! n = Some pn → Q n pn.
Proof.
  intros Hroot Hstep n pn. remember (Z.to_nat (len (p_toks pn))) as k eqn:Ek. revert n pn Ek.
  induction (lt_wf k) as [k _ IH]. intros n pn -> Hn. destruct (decide (n = root)) as [->|Hne].
  { rewrite (tree_root _ _ HT) in Hn. by injection Hn as <-. }
  destruct (tree_linked _ _ HT n pn Hn Hne) as (l & HL).
  eapply Hstep; [done..|]. pose proof (linked_len _ _ _ HL). pose proof (ln_pos HL).
  eapply IH; [|done|by eapply ln_ppath]. pose proof (len_nonneg (p_toks (l_pp l))). lia.
Qed.

Lemma path_aligned n pn : P !! n = Some pn → (ps | len (p_toks pn)) ∧ len (p_slots pn) = len (p_toks pn).
Proof.
  revert n pn. apply path_ind.
  - split; [apply Z.divide_0_r|done].
  - intros n pn l _ _ HL [IH1 IH2]. rewrite (linked_len _ _ _ HL). split.
    + apply Z.divide_add_r; [done|apply (ln_page HL)].
    + rewrite (ln_path HL). cbn. pose proof (ln_vlen HL). llia.
Qed.

Lemma path_nonroot n pn : P !! n = Some pn → n ≠ root → ps ≤ len (p_toks pn).
Proof.
  intros Hn Hne. destruct (tree_linked _ _ HT n pn Hn Hne) as (l & HL).
  pose proof (linked_len _ _ _ HL). pose proof (ln_pos HL). pose proof (len_nonneg (p_toks (l_pp l))).
  apply Z.divide_pos_le; [lia|]. by eapply path_aligned.
Qed.

Lemma path_root n pn : P !! n = Some pn → len (p_toks pn) = 0 → n = root ∧ pn = root_path.
Proof.
  intros Hn Hl. destruct (decide (n = root)) as [->|Hne].
  - rewrite (tree_root _ _ HT) in Hn. by injection Hn as <-.
  - pose proof (path_nonroot _ _ Hn Hne). pose proof (tree_ps _ _ HT). lia.
Qed.

Lemma parent_nonroot n pn l : linked S P n pn l → 0 < len (p_toks (l_pp l)) → l_p l ≠ root.
Proof.
  intros HL Hl E. pose proof (ln_ppath HL) as E'. rewrite E, (tree_root _ _ HT) in E'. injection E' as E'.
  by rewrite <- E' in Hl.
Qed.

Lemma parent_covers n pn l : linked S P n pn l → l_p l ≠ root → covers (l_pp l) pn.
Proof.
  intros HL Hp. rewrite (ln_path HL). split; cbn.
  - by destruct (ln_extra HL).
  - by apply prefix_app_r.
Qed.

(** ** Edges do not overlap *)

(** The edge of [n] covers position [q]. *)
Definition edge_at (q : Z) (n : Z) (pn : Path) (l : Link) : Prop :=
  linked S P n pn l ∧ len (p_toks (l_pp l)) < q ≤ len (p_toks pn).

Definition agree (q : Z) (pa pb : Path) : Prop :=
  p_extra pa = p_extra pb ∧ take (Z.to_nat q) (p_toks pa) = take (Z.to_nat q) (p_toks pb).

Definition unique_at (q : Z) : Prop := ∀ a pa la b pb lb,
  edge_at q a pa la → edge_at q b pb lb → (ps | q) → agree q pa pb → a = b.

Lemma agree_parent q n pn l :
  linked S P n pn l → l_p l ≠ root → q ≤ len (p_toks (l_pp l)) → agree q (l_pp l) pn.
Proof.
  intros HL Hp Hq. destruct (parent_covers _ _ _ HL Hp) as [He [k Hk]]. split; [done|].
  rewrite Hk. rewrite take_app_le; [done|]. unfold len in Hq. lia.
Qed.

Lemma agree_le q q' pa pb : agree q pa pb → q' ≤ q → agree q' pa pb.
Proof. intros [He Ht] Hq. split; [done|]. by eapply take_agree. Qed.

Lemma agree_trans q pa pb pc : agree q pa pb → agree q pb pc → agree q pa pc.
Proof. intros [E1 E2] [E3 E4]. split; congruence. Qed.

Lemma agree_sym q pa pb : agree q pa pb → agree q pb pa.
Proof. intros [E1 E2]. by split. Qed.

(** A parent's edge does not end inside another edge. *)
Lemma edge_shorter q a pa la b pb lb :
  (∀ q', 0 < q' < q → unique_at q') → edge_at q a pa la → edge_at q b pb lb → agree q pa pb →
  len (p_toks (l_pp lb)) ≤ len (p_toks (l_pp la)).
Proof.
  intros IH [La Ha] [Lb Hb] Hag. apply Z.nlt_ge. intros Hlt.
  pose proof (len_nonneg (p_toks (l_pp la))).
  assert (Hb' : l_p lb ≠ root) by (apply (parent_nonroot _ _ _ Lb); lia).
  destruct (tree_linked _ _ HT _ _ (ln_ppath Lb) Hb') as (l & Ll).
  pose proof (linked_len _ _ _ Ll). pose proof (ln_pos Ll).
  assert (a = l_p lb) as ->.
  { eapply (IH (len (p_toks (l_pp lb))) ltac:(lia) _ _ la _ _ l).
    - split; [done|lia].
    - split; [exact Ll|lia].
    - eapply path_aligned, Lb.
    - eapply agree_trans; [eapply agree_le; [exact Hag|lia]|]. apply agree_sym. by apply (agree_parent _ _ _ _ Lb). }
  destruct (linked_det _ _ _ _ _ La Ll) as [-> ->]. lia.
Qed.

Lemma edge_unique q : unique_at q.
Proof.
  remember (Z.to_nat q) as k eqn:Ek. revert q Ek. induction (lt_wf k) as [k _ IH]. intros q -> a pa la b pb lb Ha Hb Hq Hag.
  assert (IH' : ∀ q', 0 < q' < q → unique_at q').
  { intros q' Hq'. eapply (IH (Z.to_nat q')); [lia|done]. }
  pose proof (edge_shorter _ _ _ _ _ _ _ IH' Ha Hb Hag) as Hs1.
  pose proof (edge_shorter _ _ _ _ _ _ _ IH' Hb Ha (agree_sym _ _ _ Hag)) as Hs2.
  destruct Ha as [La Ha], Hb as [Lb Hb]. pose proof (tree_ps _ _ HT) as H0.
  pose proof (path_aligned _ _ (ln_ppath La)) as [Hda _].
  pose proof (divide_lt_add _ _ H0 Hda Hq ltac:(lia)) as Hp.
  assert (Hl : len (p_toks (l_pp la)) = len (p_toks (l_pp lb))) by lia.
  assert (E : l_p la = l_p lb).
  { destruct (decide (len (p_toks (l_pp la)) = 0)) as [E0|E0].
    - destruct (path_root _ _ (ln_ppath La) E0) as [-> _].
      by destruct (path_root _ _ (ln_ppath Lb) ltac:(lia)) as [-> _].
    - pose proof (len_nonneg (p_toks (l_pp la))).
      assert (Hna : l_p la ≠ root) by (apply (parent_nonroot _ _ _ La); lia).
      assert (Hnb : l_p lb ≠ root) by (apply (parent_nonroot _ _ _ Lb); lia).
      destruct (tree_linked _ _ HT _ _ (ln_ppath La) Hna) as (l1 & L1).
      destruct (tree_linked _ _ HT _ _ (ln_ppath Lb) Hnb) as (l2 & L2).
      pose proof (linked_len _ _ _ L1). pose proof (ln_pos L1). pose proof (linked_len _ _ _ L2). pose proof (ln_pos L2).
      eapply (IH' (len (p_toks (l_pp la))) ltac:(lia)); [split; [exact L1|lia]|split; [exact L2|lia]|done|].
      eapply agree_trans; [apply (agree_parent _ _ _ _ La Hna); lia|].
      eapply agree_trans; [eapply agree_le; [exact Hag|lia]|]. apply agree_sym, (agree_parent _ _ _ _ Lb Hnb). lia. }
  pose proof (ln_pshape La) as E1. rewrite E, (ln_pshape Lb) in E1. injection E1 as E1.
  pose proof (ln_child La) as C1. pose proof (ln_child Lb) as C2. rewrite <- E1 in C1.
  destruct Hag as [He Ht]. rewrite (ln_path La), (ln_path Lb) in He, Ht. cbn in He, Ht.
  rewrite (same_ck _ _ _ _ q H0 Hl ltac:(lia) He Ht), C2 in C1. congruence.
Qed.

(** Some edge on the way to a node covers every position of it. *)
Lemma edge_exists n pn : P !! n = Some pn → ∀ q, 0 < q ≤ len (p_toks pn) →
  ∃ a pa la, P !! a = Some pa ∧ edge_at q a pa la ∧ covers pa pn.
Proof.
  revert n pn. apply (path_ind (λ n pn, ∀ q, 0 < q ≤ len (p_toks pn) →
    ∃ a pa la, P !! a = Some pa ∧ edge_at q a pa la ∧ covers pa pn)).
  - intros q Hq. change (len (p_toks root_path)) with 0 in Hq. lia.
  - intros n pn l Hn Hne HL IH q Hq. destruct (decide (q ≤ len (p_toks (l_pp l)))) as [Hle|Hgt].
    + destruct (IH q ltac:(lia)) as (a & pa & la & Ha & Hea & [He Ht]). exists a, pa, la. split_and!; [done..|].
      assert (Hp : l_p l ≠ root) by (apply (parent_nonroot _ _ _ HL); lia).
      destruct (parent_covers _ _ _ HL Hp) as [He' Ht']. split; [congruence|by etrans].
    + exists n, pn, l. split_and!; [done|split; [done|lia]|split; done].
Qed.

(** Two nodes that agree on a page have the edge there in common. *)
Lemma edge_shared a pa la n pn q :
  edge_at q a pa la → P !! n = Some pn → (ps | q) → q ≤ len (p_toks pn) → agree q pa pn → covers pa pn.
Proof.
  intros Ha Hn Hq Hl Hag. destruct Ha as [La Ha]. pose proof (len_nonneg (p_toks (l_pp la))).
  destruct (edge_exists _ _ Hn q ltac:(lia)) as (b & pb & lb & Hb & [Lb Hqb] & Hc).
  assert (a = b) as ->.
  { eapply (edge_unique q); [split; [exact La|lia]|split; [exact Lb|lia]|done|].
    eapply agree_trans; [done|]. destruct Hc as [He [k Hk]]. split; [done|].
    rewrite Hk, take_app_le by (unfold len in *; lia). done. }
  by destruct (linked_det _ _ _ _ _ La Lb) as [_ ->].
Qed.

Lemma path_inj a b pn : P !! a = Some pn → P !! b = Some pn → a = b.
Proof.
  intros Ha Hb. destruct (decide (len (p_toks pn) = 0)) as [E0|E0].
  { destruct (path_root _ _ Ha E0) as [-> _]. by destruct (path_root _ _ Hb E0) as [-> _]. }
  assert (Hne : ∀ n, P !! n = Some pn → n ≠ root).
  { intros n Hn ->. rewrite (tree_root _ _ HT) in Hn. by injection Hn as <-. }
  destruct (tree_linked _ _ HT _ _ Ha (Hne _ Ha)) as (la & La).
  destruct (tree_linked _ _ HT _ _ Hb (Hne _ Hb)) as (lb & Lb).
  pose proof (linked_len _ _ _ La). pose proof (ln_pos La). pose proof (linked_len _ _ _ Lb). pose proof (ln_pos Lb).
  eapply (edge_unique (len (p_toks pn))); [split; [exact La|lia]|split; [exact Lb|lia]| |done].
  by eapply path_aligned.
Qed.

(** On the way to a node are itself and what is on the way to its parent. *)
Lemma covers_step n pn l a pa :
  P !! n = Some pn → n ≠ root → linked S P n pn l → P !! a = Some pa → a ≠ root →
  covers pa pn ↔ a = n ∨ covers pa (l_pp l) ∧ l_p l ≠ root.
Proof.
  intros Hn Hne HL Ha Hane. split.
  - intros [He [k Hk]]. destruct (decide (a = n)) as [->|Han]; [by left|right].
    destruct (tree_linked _ _ HT _ _ Ha Hane) as (la & La).
    pose proof (linked_len _ _ _ La). pose proof (ln_pos La). pose proof (len_nonneg (p_toks (l_pp la))).
    pose proof (path_aligned _ _ Ha) as [Hd _].
    assert (Hlen : len (p_toks pa) ≤ len (p_toks pn)) by (rewrite Hk; llia).
    assert (Hle : len (p_toks pa) ≤ len (p_toks (l_pp l))).
    { apply Z.nlt_ge. intros Hlt. apply Han.
      eapply (edge_unique (len (p_toks pa))); [split; [exact La|lia]|split; [exact HL|lia]|done|].
      split; [done|]. rewrite Hk, take_len. unfold len. by rewrite Nat2Z.id, firstn_all. }
    assert (Hp : l_p l ≠ root) by (apply (parent_nonroot _ _ _ HL); lia).
    split; [|done]. destruct (parent_covers _ _ _ HL Hp) as [He' [k' Hk']]. split; [congruence|].
    exists (drop (length (p_toks pa)) (p_toks (l_pp l))).
    rewrite Hk' in Hk. apply (f_equal (take (length (p_toks pa)))) in Hk.
    rewrite take_app_le, take_app_length in Hk by (unfold len in *; lia).
    rewrite <- Hk at 1. by rewrite take_drop.
  - intros [->|[[He Ht] Hp]].
    + rewrite Ha in Hn. injection Hn as ->. by split.
    + destruct (parent_covers _ _ _ HL Hp) as [He' Ht']. split; [congruence|by etrans].
Qed.
End Paths.

(** ** Changes of the tree *)

Lemma linked_frame S P S' P' n pn l s' sp' :
  linked S P n pn l → S' !! n = Some s' → s_parent s' = s_parent (l_s l) → s_key s' = s_key (l_s l) →
  s_value s' = s_value (l_s l) → S' !! l_p l = Some sp' → s_children sp' !! ck (s_key (l_s l)) = Some n →
  P' !! l_p l = Some (l_pp l) → linked S' P' n pn (mkLink s' (l_p l) sp' (l_pp l) (l_v l)).
Proof. intros HL H1 H2 H3 H4 H5 H6 H7. destruct HL. split; cbn; rewrite ?H2, ?H3, ?H4; done. Qed.

(** Equal but for the children *)
Definition alike (t t' : Shape) : Prop :=
  s_parent t' = s_parent t ∧ s_key t' = s_key t ∧ s_value t' = s_value t ∧ s_lock t' = s_lock t.

Lemma tree_shape S P n pn : tree S P → P !! n = Some pn → is_Some (S !! n).
Proof.
  intros HT Hn. destruct (decide (n = root)) as [->|Hne].
  - destruct (tree_root_shape _ _ HT) as (s & -> & _). done.
  - destruct (tree_linked _ _ HT _ _ Hn Hne) as (l & HL). rewrite (ln_shape HL). done.
Qed.

Lemma parent_ne S P n pn l : tree S P → linked S P n pn l → P !! n = Some pn → l_p l ≠ n.
Proof.
  intros HT HL Hn E. pose proof (linked_len _ _ _ _ _ HL). pose proof (ln_pos HL).
  pose proof (ln_ppath HL) as E'. rewrite E, Hn in E'. injection E' as E'. rewrite <- E' in *. lia.
Qed.

(** Siblings have different first pages. *)
Lemma sibling_ck S P a pa la b pb lb :
  linked S P a pa la → linked S P b pb lb → l_p la = l_p lb → a ≠ b →
  ck (s_key (l_s la)) ≠ ck (s_key (l_s lb)).
Proof.
  intros La Lb Ep Hne E. apply Hne. pose proof (ln_pshape La) as E1. rewrite Ep, (ln_pshape Lb) in E1.
  injection E1 as E1. pose proof (ln_child La) as C1. rewrite <- E1, E, (ln_child Lb) in C1. congruence.
Qed.

(** The lock counts are not part of the tree. *)
Lemma tree_lock S P n s k : tree S P → S !! n = Some s → n ≠ root → tree (<[n := s <| s_lock := k |>]> S) P.
Proof.
  intros HT Hs Hne.
  assert (Hlk : ∀ m t, S !! m = Some t → ∃ t', <[n := s <| s_lock := k |>]> S !! m = Some t' ∧
    s_children t' = s_children t ∧ s_parent t' = s_parent t ∧ s_key t' = s_key t ∧ s_value t' = s_value t).
  { intros m t Ht. destruct (decide (m = n)) as [->|Hm].
    - rewrite lookup_insert_eq. eexists. split; [done|]. rewrite Hs in Ht. injection Ht as ->. by rsimpl.
    - rewrite lookup_insert_ne by done. by exists t. }
  split; [apply HT|apply HT| | |].
  - destruct (tree_root_shape _ _ HT) as (t & Ht & Hrest). exists t. by rewrite lookup_insert_ne.
  - intros m pm Hm Hmr. destruct (tree_linked _ _ HT _ _ Hm Hmr) as (l & HL).
    destruct (Hlk _ _ (ln_shape HL)) as (t & Et & Ec & Ep & Ek & Ev).
    destruct (Hlk _ _ (ln_pshape HL)) as (tp & Etp & Ecp & _).
    eexists. eapply (linked_frame _ _ _ _ _ _ _ _ _ HL); [done..|by rewrite Ecp, (ln_child HL)|apply HL].
  - intros p pp sp key c Hp Hsp Hc.
    destruct (tree_shape _ _ _ _ HT Hp) as [tp Htp]. destruct (Hlk _ _ Htp) as (sp' & E & Ec & _).
    rewrite Hsp in E. injection E as <-. rewrite Ec in Hc.
    destruct (tree_children _ _ HT _ _ _ _ _ Hp Htp Hc) as (H1 & H2 & t & Ht & Hpar & Hk).
    destruct (Hlk _ _ Ht) as (t' & Et' & _ & Ep' & Ek' & _).
    split_and!; [done..|]. exists t'. by rewrite Ep', Ek'.
Qed.

(** ** A new leaf *)

Section AddLeaf.
Context S P (HT : tree S P) (p new : Z) (sp : Shape) (pp : Path) (k : RadixKey) (v : list Z).
Context (Hp : P !! p = Some pp) (Hsp : S !! p = Some sp) (Hnew : S !! new = None)
  (Hfree : s_children sp !! ck k = None) (Hk : 0 < Key.len k) (Hpg : (ps | Key.len k))
  (Hv : len v = Key.len k) (Hx : p = root ∨ p_extra pp = key_extra k).

Definition leaf_shapes : gmap Z Shape :=
  <[p := sp <| s_children ::= <[ck k := new]> |>]> (<[new := mkShape ∅ (Some p) k (Some v) 0]> S).
Definition leaf_paths : gmap Z Path := <[new := extend pp k v]> P.

Lemma leaf_fresh n pn : P !! n = Some pn → n ≠ new.
Proof. intros Hn ->. destruct (tree_shape _ _ _ _ HT Hn) as [s Hs]. congruence. Qed.

Lemma leaf_lookup m t : S !! m = Some t → ∃ t', leaf_shapes !! m = Some t' ∧ alike t t' ∧
  (∀ key c, s_children t !! key = Some c → s_children t' !! key = Some c).
Proof.
  intros Ht. unfold leaf_shapes. destruct (decide (m = p)) as [->|Hm].
  - rewrite lookup_insert_eq. eexists. split; [done|]. rewrite Hsp in Ht. injection Ht as <-.
    split; [by unfold alike; rsimpl|]. rsimpl. intros key c Hc. rewrite lookup_insert_ne; [done|congruence].
  - rewrite lookup_insert_ne by done. exists t. rewrite lookup_insert_ne; [done|]. congruence.
Qed.

Lemma tree_add_leaf : tree leaf_shapes leaf_paths.
Proof.
  pose proof (leaf_fresh _ _ Hp) as Hpn. pose proof leaf_lookup as Hlk.
  assert (Hroot : new ≠ root) by (intros ->; destruct (tree_root_shape _ _ HT) as (? & ? & _); congruence).
  split; [apply HT| | | |].
  - unfold leaf_paths. rewrite lookup_insert_ne by done. apply HT.
  - destruct (tree_root_shape _ _ HT) as (t & Ht & E1 & E2 & E3 & E4).
    destruct (Hlk _ _ Ht) as (t' & Ht' & (F1 & F2 & F3 & F4) & _). exists t'. split_and!; congruence.
  - intros m pm Hm Hmr. unfold leaf_paths in Hm. destruct (decide (m = new)) as [->|Hmn].
    + rewrite lookup_insert_eq in Hm. injection Hm as <-.
      exists (mkLink (mkShape ∅ (Some p) k (Some v) 0) p (sp <| s_children ::= <[ck k := new]> |>) pp v).
      unfold leaf_shapes, leaf_paths. split; cbn; try done.
      * by rewrite lookup_insert_ne, lookup_insert_eq.
      * by rewrite lookup_insert_eq.
      * by rewrite lookup_insert_ne.
      * rsimpl. by rewrite lookup_insert_eq.
    + rewrite lookup_insert_ne in Hm by done. destruct (tree_linked _ _ HT _ _ Hm Hmr) as (l & HL).
      destruct (Hlk _ _ (ln_shape HL)) as (t & Et & (Ep & Ek & Ev & _) & _).
      destruct (Hlk _ _ (ln_pshape HL)) as (tp & Etp & _ & Ecp).
      eexists. eapply (linked_frame _ _ _ _ _ _ _ _ _ HL); [done..|apply Ecp, HL|].
      unfold leaf_paths. rewrite lookup_insert_ne; [apply HL|]. apply not_eq_sym, (leaf_fresh _ _ (ln_ppath HL)).
  - intros q pq sq key c Hq Hsq Hc. unfold leaf_paths in Hq. destruct (decide (q = new)) as [->|Hqn].
    { unfold leaf_shapes in Hsq. rewrite lookup_insert_ne, lookup_insert_eq in Hsq by done.
      injection Hsq as <-. cbn [s_children] in Hc. by rewrite lookup_empty in Hc. }
    rewrite lookup_insert_ne in Hq by done.
    destruct (decide (q = p ∧ key = ck k)) as [[-> ->]|Hnk].
    { unfold leaf_shapes in Hsq. rewrite lookup_insert_eq in Hsq. injection Hsq as <-. rsimpl.
      rewrite lookup_insert_eq in Hc. injection Hc as <-. unfold leaf_paths, leaf_shapes.
      rewrite lookup_insert_eq, lookup_insert_ne, lookup_insert_eq by done. split_and!; [done..|]. by eexists. }
    destruct (tree_shape _ _ _ _ HT Hq) as [tq Htq].
    assert (Hc' : s_children tq !! key = Some c).
    { unfold leaf_shapes in Hsq. destruct (decide (q = p)) as [->|Hqp].
      - rewrite lookup_insert_eq in Hsq. injection Hsq as <-. rsimpl.
        rewrite lookup_insert_ne in Hc by naive_solver. congruence.
      - rewrite !lookup_insert_ne in Hsq by done. congruence. }
    destruct (tree_children _ _ HT _ _ _ _ _ Hq Htq Hc') as (H1 & [pc Hpc] & t & Ht & Hpar & Hck).
    destruct (Hlk _ _ Ht) as (t' & Et' & (Ep' & Ek' & _) & _).
    split_and!; [done| |exists t'; by rewrite Ep', Ek'].
    unfold leaf_paths. rewrite lookup_insert_ne by (apply not_eq_sym, (leaf_fresh _ _ Hpc)). done.
Qed.
End AddLeaf.

(** ** A leaf less *)

Section DeleteLeaf.
Context S P (HT : tree S P) (n : Z) (pn : Path) (l : Link).
Context (Hn : P !! n = Some pn) (Hne : n ≠ root) (HL : linked S P n pn l)
  (Hleaf : s_children (l_s l) = ∅).

Definition pruned_shapes : gmap Z Shape :=
  <[l_p l := (l_ps l) <| s_children ::= delete (ck (s_key (l_s l))) |>]> S.
Definition pruned_paths : gmap Z Path := delete n P.

Lemma pruned_lookup m t : S !! m = Some t → ∃ t', pruned_shapes !! m = Some t' ∧ alike t t' ∧
  (∀ key c, c ≠ n → s_children t !! key = Some c → s_children t' !! key = Some c).
Proof.
  intros Ht. unfold pruned_shapes. destruct (decide (m = l_p l)) as [->|Hm].
  - rewrite lookup_insert_eq. eexists. split; [done|]. rewrite (ln_pshape HL) in Ht. injection Ht as <-.
    split; [by unfold alike; rsimpl|]. rsimpl. intros key c Hcn Hc. rewrite lookup_delete_ne; [done|].
    intros <-. rewrite (ln_child HL) in Hc. congruence.
  - rewrite lookup_insert_ne by done. by exists t.
Qed.

Lemma tree_delete_leaf : tree pruned_shapes pruned_paths.
Proof.
  pose proof pruned_lookup as Hlk. split; [apply HT| | | |].
  - unfold pruned_paths. rewrite lookup_delete_ne by done. apply HT.
  - destruct (tree_root_shape _ _ HT) as (t & Ht & E1 & E2 & E3 & E4).
    destruct (Hlk _ _ Ht) as (t' & Ht' & (F1 & F2 & F3 & F4) & _). exists t'. split_and!; congruence.
  - intros m pm Hm Hmr. unfold pruned_paths in Hm. apply lookup_delete_Some in Hm as [Hmn Hm].
    destruct (tree_linked _ _ HT _ _ Hm Hmr) as (lm & Lm).
    destruct (Hlk _ _ (ln_shape Lm)) as (t & Et & (Ep & Ek & Ev & _) & _).
    destruct (Hlk _ _ (ln_pshape Lm)) as (tp & Etp & _ & Ecp).
    eexists. eapply (linked_frame _ _ _ _ _ _ _ _ _ Lm); [done..|apply Ecp; [done|apply Lm]|].
    unfold pruned_paths. rewrite lookup_delete_ne; [apply Lm|]. intros E.
    pose proof (ln_child Lm) as C. pose proof (ln_pshape Lm) as C'. rewrite <- E, (ln_shape HL) in C'.
    injection C' as C'. rewrite <- C', Hleaf, lookup_empty in C. done.
  - intros q pq sq key c Hq Hsq Hc. unfold pruned_paths in Hq. apply lookup_delete_Some in Hq as [Hqn Hq].
    destruct (tree_shape _ _ _ _ HT Hq) as [tq Htq].
    assert (Hc' : s_children tq !! key = Some c ∧ c ≠ n).
    { unfold pruned_shapes in Hsq. destruct (decide (q = l_p l)) as [->|Hqp].
      - rewrite lookup_insert_eq in Hsq. injection Hsq as <-. rsimpl.
        rewrite (ln_pshape HL) in Htq. injection Htq as <-. apply lookup_delete_Some in Hc as [Hkn Hc].
        split; [done|]. intros ->.
        destruct (tree_children _ _ HT _ _ _ _ _ Hq (ln_pshape HL) Hc) as (_ & _ & t & Ht & _ & Hck).
        rewrite (ln_shape HL) in Ht. congruence.
      - rewrite !lookup_insert_ne in Hsq by done. rewrite Htq in Hsq. injection Hsq as <-. split; [done|]. intros ->.
        destruct (tree_children _ _ HT _ _ _ _ _ Hq Htq Hc) as (_ & _ & t & Ht & Hpar & _).
        rewrite (ln_shape HL) in Ht. injection Ht as <-. rewrite (ln_parent HL) in Hpar. congruence. }
    destruct Hc' as [Hc' Hcn].
    destruct (tree_children _ _ HT _ _ _ _ _ Hq Htq Hc') as (H1 & [pc Hpc] & t & Ht & Hpar & Hck).
    destruct (Hlk _ _ Ht) as (t' & Et' & (Ep' & Ek' & _) & _).
    split_and!; [done| |exists t'; by rewrite Ep', Ek'].
    unfold pruned_paths. by rewrite lookup_delete_ne.
Qed.
End DeleteLeaf.

(** ** Splitting an edge *)

Section Split.
Context S P (HT : tree S P) (c new : Z) (pc : Path) (l : Link) (k : Z).
Context (Hc : P !! c = Some pc) (Hcr : c ≠ root) (HL : linked S P c pc l) (Hnew : S !! new = None)
  (Hk : 0 < k < Key.len (s_key (l_s l))) (Hpg : (ps | k)).

Definition upper : Shape :=
  mkShape {[ck (Key.from (s_key (l_s l)) k) := c]} (Some (l_p l)) (Key.upto (s_key (l_s l)) k)
    (Some (slice_to (l_v l) k)) (s_lock (l_s l)).
Definition lower_part : Shape :=
  mkShape (s_children (l_s l)) (Some new) (Key.from (s_key (l_s l)) k)
    (Some (slice_from (l_v l) k)) (s_lock (l_s l)).
Definition upper_path : Path := extend (l_pp l) (Key.upto (s_key (l_s l)) k) (slice_to (l_v l) k).

Definition split_shapes : gmap Z Shape :=
  <[l_p l := (l_ps l) <| s_children ::= <[ck (s_key (l_s l)) := new]> |>]>
    (<[c := lower_part]> (<[new := upper]> S)).
Definition split_paths : gmap Z Path := <[new := upper_path]> P.

Lemma split_ck : ck (Key.upto (s_key (l_s l)) k) = ck (s_key (l_s l)).
Proof.
  unfold ck, Key.upto. cbn. f_equal. pose proof (tree_ps _ _ HT).
  rewrite slice_to_take, take_take by lia. f_equal. apply Z.divide_pos_le in Hpg; lia.
Qed.

Lemma split_lookup m t : S !! m = Some t → m ≠ c → ∃ t', split_shapes !! m = Some t' ∧ alike t t' ∧
  (∀ key d, d ≠ c → s_children t !! key = Some d → s_children t' !! key = Some d).
Proof.
  intros Ht Hmc. unfold split_shapes. destruct (decide (m = l_p l)) as [->|Hm].
  - rewrite lookup_insert_eq. eexists. split; [done|]. rewrite (ln_pshape HL) in Ht. injection Ht as <-.
    split; [by unfold alike; rsimpl|]. rsimpl. intros key d Hdc Hd. rewrite lookup_insert_ne; [done|].
    intros <-. rewrite (ln_child HL) in Hd. congruence.
  - rewrite !lookup_insert_ne by congruence. by exists t.
Qed.

Lemma split_new : new ≠ c ∧ new ≠ l_p l ∧ new ≠ root.
Proof.
  pose proof (ln_shape HL). pose proof (ln_pshape HL).
  destruct (tree_root_shape _ _ HT) as (t & Ht & _). split_and!; congruence.
Qed.

Lemma split_at_new : split_shapes !! new = Some upper.
Proof. destruct split_new as (H1 & H2 & _). unfold split_shapes. by rewrite 2!lookup_insert_ne, lookup_insert_eq. Qed.

Lemma split_at_child : split_shapes !! c = Some lower_part.
Proof.
  pose proof (parent_ne _ _ _ _ _ HT HL Hc). unfold split_shapes.
  by rewrite lookup_insert_ne, lookup_insert_eq.
Qed.

Lemma split_lower_path : extend upper_path (Key.from (s_key (l_s l)) k) (slice_from (l_v l) k) = pc.
Proof.
  rewrite (ln_path HL). unfold upper_path, extend, Key.upto, Key.from. cbn.
  by rewrite <- !app_assoc, !slice_to_from.
Qed.

Lemma split_paths_old m pm : P !! m = Some pm → split_paths !! m = Some pm.
Proof.
  intros Hm. unfold split_paths. rewrite lookup_insert_ne; [done|]. intros <-.
  destruct (tree_shape _ _ _ _ HT Hm) as [s Hs]. congruence.
Qed.

Lemma split_linked_new : ∃ l', linked split_shapes split_paths new upper_path l'.
Proof.
  destruct split_new as (H1 & H2 & H3). pose proof (ln_vlen HL). unfold Key.len in *.
  exists (mkLink upper (l_p l) ((l_ps l) <| s_children ::= <[ck (s_key (l_s l)) := new]> |>) (l_pp l) (slice_to (l_v l) k)).
  split; cbn [l_s l_p l_ps l_pp l_v upper s_parent s_key s_value]; try done.
  - apply split_at_new.
  - unfold split_shapes. by rewrite lookup_insert_eq.
  - apply split_paths_old, HL.
  - rsimpl. by rewrite split_ck, lookup_insert_eq.
  - unfold Key.len, Key.upto. cbn. rewrite !len_slice_to; lia.
  - unfold Key.len, Key.upto. cbn. rewrite len_slice_to; lia.
  - unfold Key.len, Key.upto. cbn. rewrite len_slice_to by lia. done.
  - apply HL.
Qed.

Lemma split_linked_child : ∃ l', linked split_shapes split_paths c pc l'.
Proof.
  pose proof (ln_vlen HL). unfold Key.len in *.
  exists (mkLink lower_part new upper upper_path (slice_from (l_v l) k)).
  split; cbn [l_s l_p l_ps l_pp l_v lower_part s_parent s_key s_value]; try done.
  - apply split_at_child.
  - apply split_at_new.
  - unfold split_paths. by rewrite lookup_insert_eq.
  - unfold upper. cbn [s_children]. by rewrite lookup_singleton_eq.
  - unfold Key.len, Key.from. cbn. rewrite !len_slice_from; lia.
  - unfold Key.len, Key.from. cbn. rewrite len_slice_from; lia.
  - unfold Key.len, Key.from. cbn. rewrite len_slice_from by lia. apply Z.divide_sub_r; [apply HL|done].
  - symmetry. apply split_lower_path.
  - by right.
Qed.

Lemma split_linked_other m pm : P !! m = Some pm → m ≠ root → m ≠ c →
  ∃ l', linked split_shapes split_paths m pm l'.
Proof.
  intros Hm Hmr Hmc. destruct (tree_linked _ _ HT _ _ Hm Hmr) as (lm & Lm).
  destruct (split_lookup _ _ (ln_shape Lm) Hmc) as (t & Et & (Ep & Ek & Ev & _) & _).
  destruct (decide (l_p lm = c)) as [Ec|Ec].
  - eexists. eapply (linked_frame _ _ _ _ _ _ _ _ lower_part Lm); [done..| | |apply split_paths_old, Lm].
    + rewrite Ec. apply split_at_child.
    + pose proof (ln_child Lm) as C. pose proof (ln_pshape Lm) as C'. rewrite Ec, (ln_shape HL) in C'.
      injection C' as C'. by rewrite <- C' in C.
  - destruct (split_lookup _ _ (ln_pshape Lm) Ec) as (tp & Etp & _ & Ecp).
    eexists. eapply (linked_frame _ _ _ _ _ _ _ _ _ Lm); [done..| |apply split_paths_old, Lm].
    apply Ecp; [done|apply Lm].
Qed.

Lemma split_children q pq sq key d :
  split_paths !! q = Some pq → split_shapes !! q = Some sq → s_children sq !! key = Some d →
  d ≠ root ∧ is_Some (split_paths !! d) ∧
  ∃ s, split_shapes !! d = Some s ∧ s_parent s = Some q ∧ ck (s_key s) = key.
Proof.
  intros Hq Hsq Hd. destruct split_new as (N1 & N2 & N3).
  assert (Hpc : is_Some (split_paths !! c)) by (by rewrite (split_paths_old _ _ Hc)).
  destruct (decide (q = new)) as [->|Hqn].
  { rewrite split_at_new in Hsq. injection Hsq as <-. unfold upper in Hd. cbn [s_children] in Hd.
    apply lookup_singleton_Some in Hd as [<- <-]. split_and!; [done..|]. eexists. by rewrite split_at_child. }
  unfold split_paths in Hq. rewrite lookup_insert_ne in Hq by done.
  destruct (decide (q = l_p l ∧ key = ck (s_key (l_s l)))) as [[-> ->]|Hnk].
  { unfold split_shapes in Hsq. rewrite lookup_insert_eq in Hsq. injection Hsq as <-. rsimpl.
    rewrite lookup_insert_eq in Hd. injection Hd as <-. split_and!; [done|by unfold split_paths; rewrite lookup_insert_eq|].
    exists upper. rewrite split_at_new. split_and!; [done..|apply split_ck]. }
  destruct (tree_shape _ _ _ _ HT Hq) as [tq Htq].
  assert (Hd' : s_children tq !! key = Some d).
  { unfold split_shapes in Hsq. destruct (decide (q = l_p l)) as [->|Hqp].
    - rewrite lookup_insert_eq in Hsq. injection Hsq as <-. rsimpl. rewrite (ln_pshape HL) in Htq.
      injection Htq as <-. rewrite lookup_insert_ne in Hd by naive_solver. done.
    - rewrite lookup_insert_ne in Hsq by done. destruct (decide (q = c)) as [->|Hqc].
      + rewrite lookup_insert_eq in Hsq. injection Hsq as <-. rewrite (ln_shape HL) in Htq. by injection Htq as <-.
      + rewrite !lookup_insert_ne in Hsq by done. congruence. }
  destruct (tree_children _ _ HT _ _ _ _ _ Hq Htq Hd') as (H1 & [pd Hpd] & t & Ht & Hpar & Hck).
  assert (Hdc : d ≠ c).
  { intros ->. rewrite (ln_shape HL) in Ht. injection Ht as <-. rewrite (ln_parent HL) in Hpar.
    injection Hpar as <-. naive_solver. }
  destruct (split_lookup _ _ Ht Hdc) as (t' & Et' & (Ep' & Ek' & _) & _).
  split_and!; [done|by rewrite (split_paths_old _ _ Hpd)|]. exists t'. by rewrite Ep', Ek'.
Qed.

Lemma tree_split : tree split_shapes split_paths.
Proof.
  destruct split_new as (N1 & N2 & N3). split; [apply HT|apply split_paths_old, HT| | |exact split_children].
  - destruct (tree_root_shape _ _ HT) as (t & Ht & E1 & E2 & E3 & E4).
    destruct (split_lookup _ _ Ht (not_eq_sym Hcr)) as (t' & Ht' & (F1 & F2 & F3 & F4) & _).
    exists t'. split_and!; congruence.
  - intros m pm Hm Hmr. unfold split_paths in Hm. destruct (decide (m = new)) as [->|Hmn].
    + rewrite lookup_insert_eq in Hm. injection Hm as <-. apply split_linked_new.
    + rewrite lookup_insert_ne in Hm by done. destruct (decide (m = c)) as [->|Hmc].
      * rewrite Hc in Hm. injection Hm as <-. apply split_linked_child.
      * by apply split_linked_other.
Qed.
End Split.
End Tree.
