(* ===== verification/RadixState.v ===== *)
(** * The state of the radix cache

    [cached] is the abstract state: which token sequences the cache knows,
    and their slots.  [core] ties the counters, the lock counts and the set of
    evictable leaves to the tree. *)

From S2P Require Import Prelude HeapQ PyFloat Allocator Request ReqPool LLM42Info World Radix RadixTree.

(** ** What is cached *)

(** The page-aligned sequence [ts] of the namespace [e] is cached in the slots
    [ss]. *)
Definition cached (ps : Z) (P : gmap Z Path) (e : option string) (ts ss : list Z) : Prop :=
  (ps | len ts) ∧
  (ts = [] ∧ ss = [] ∨
   ∃ n pn, P !! n = Some pn ∧ p_extra pn = e ∧ ts `prefix_of` p_toks pn ∧
           ss = take (length ts) (p_slots pn)).

Section Cached.
Context (ps root : Z) (S : gmap Z Shape) (P : gmap Z Path) (HT : tree ps root S P).

Lemma covers_slots a pa n pn :
  P !! a = Some pa → a ≠ root → P !! n = Some pn → covers pa pn → p_slots pa `prefix_of` p_slots pn.
Proof.
  intros Ha Hr Hn. revert n pn Hn.
  apply (path_ind ps root S P HT (λ n pn, covers pa pn → p_slots pa `prefix_of` p_slots pn)).
  - intros [_ Hp]. cbn in Hp. apply prefix_nil_inv in Hp.
    pose proof (path_nonroot _ _ _ _ HT _ _ Ha Hr) as Hl. rewrite Hp, len_nil in Hl.
    pose proof (tree_ps _ _ _ _ HT). lia.
  - intros n pn l Hn Hne HL IH Hc.
    apply (covers_step _ _ _ _ HT n pn l a pa Hn Hne HL Ha Hr) in Hc as [->|[Hc _]].
    + assert (pa = pn) as -> by congruence. done.
    + rewrite (ln_path _ _ _ _ _ _ _ HL). cbn. apply prefix_app_r. by apply IH.
Qed.

(** A sequence has one list of slots. *)
Lemma cached_fun e ts ss ss' : cached ps P e ts ss → cached ps P e ts ss' → ss = ss'.
Proof.
  intros [Hd [[-> ->]|(n & pn & Hn & He & Hp & ->)]] [_ [[E ->]|(m & pm & Hm & He' & Hp' & ->)]];
    [done|done|by subst|].
  destruct (decide (ts = [])) as [->|Hts]; [done|].
  assert (Hl : 0 < len ts) by (destruct ts; [done|]; llia).
  destruct Hp as [k Hk], Hp' as [k' Hk'].
  destruct (edge_exists _ _ _ _ HT _ _ Hn (len ts)) as (a & pa & la & Ha & Hea & Hc).
  { rewrite Hk. llia. }
  assert (Hr : a ≠ root).
  { intros ->. destruct Hea as [_ Hb]. rewrite (tree_root _ _ _ _ HT) in Ha. injection Ha as <-.
    change (len (p_toks root_path)) with 0 in Hb. lia. }
  assert (Hla : (length ts ≤ length (p_slots pa))%nat).
  { destruct Hea as [_ Hb]. pose proof (path_aligned _ _ _ _ HT _ _ Ha) as [_ El]. unfold len in *. lia. }
  assert (Hc' : covers pa pm).
  { eapply (edge_shared _ _ _ _ HT _ _ _ _ _ _ Hea Hm); [done|rewrite Hk'; llia|].
    destruct Hc as [Hce [k2 Hk2]]. split; [congruence|]. rewrite Hk', take_len.
    rewrite Hk in Hk2. apply (f_equal (take (Z.to_nat (len ts)))) in Hk2. rewrite take_len in Hk2.
    rewrite take_app_le in Hk2 by (destruct Hea as [_ Hb]; unfold len in *; lia). done. }
  destruct (covers_slots _ _ _ _ Ha Hr Hn Hc) as [k3 ->], (covers_slots _ _ _ _ Ha Hr Hm Hc') as [k4 ->].
  by rewrite !take_app_le.
Qed.

(** A leaf covers nothing but itself. *)
Lemma leaf_covers n pn s h ph :
  P !! n = Some pn → n ≠ root → S !! n = Some s → s_children s = ∅ →
  P !! h = Some ph → covers pn ph → h = n.
Proof.
  intros Hn Hr Hs Hleaf Hh. revert h ph Hh.
  apply (path_ind ps root S P HT (λ h ph, covers pn ph → h = n)).
  - intros [_ Hp]. cbn in Hp. apply prefix_nil_inv in Hp.
    pose proof (path_nonroot _ _ _ _ HT _ _ Hn Hr) as Hl. rewrite Hp, len_nil in Hl.
    pose proof (tree_ps _ _ _ _ HT). lia.
  - intros m pm l Hm Hmr HL IH Hc.
    apply (covers_step _ _ _ _ HT m pm l n pn Hm Hmr HL Hn Hr) in Hc as [->|[Hc Hp]]; [done|].
    specialize (IH Hc). pose proof (ln_child _ _ _ _ _ _ _ HL) as C.
    pose proof (ln_pshape _ _ _ _ _ _ _ HL) as C'. rewrite IH, Hs in C'. injection C' as C'.
    rewrite <- C', Hleaf, lookup_empty in C. done.
Qed.

(** Splitting does not change what is cached. *)
Lemma cached_split c pc l new k e ts ss :
  P !! c = Some pc → linked ps root S P c pc l → S !! new = None → 0 ≤ k →
  cached ps (split_paths P new l k) e ts ss ↔ cached ps P e ts ss.
Proof.
  intros Hc HL Hnew Hk. unfold cached. apply and_iff_compat_l. apply or_iff_compat_l. split.
  - intros (n & pn & Hn & He & [t Ht] & ->). unfold split_paths in Hn.
    destruct (decide (n = new)) as [->|Hnn].
    + rewrite lookup_insert_eq in Hn. injection Hn as <-.
      pose proof (split_lower_path _ _ _ _ _ _ _ k HL) as Hlow.
      exists c, pc. split_and!; [done| | |].
      * by rewrite <- He, <- Hlow.
      * rewrite <- Hlow. cbn [extend p_toks]. rewrite Ht, <- app_assoc. by apply prefix_app_r.
      * rewrite <- Hlow. cbn [extend p_slots]. rewrite take_app_le; [done|].
        pose proof (ln_vlen _ _ _ _ _ _ _ HL) as Hv. unfold Key.len in Hv.
        pose proof (path_aligned _ _ _ _ HT _ _ (ln_ppath _ _ _ _ _ _ _ HL)) as [_ El].
        apply (f_equal len) in Ht. unfold upper_path, extend, Key.upto in *. cbn [p_toks p_slots token_ids] in *.
        rewrite slice_to_take in * by done. rewrite !length_app, !length_take in *. 
        unfold len in *. rewrite !length_app, !length_take in Ht. lia.
    + rewrite lookup_insert_ne in Hn by done. exists n, pn. split_and!; [done..|by eexists|done].
  - intros (n & pn & Hn & Hrest). exists n, pn. split; [|done]. by eapply split_paths_old.
Qed.
End Cached.

Lemma cached_leaf ps P new pp k v e ts ss :
  (∀ n pn, P !! n = Some pn → n ≠ new) →
  cached ps (leaf_paths P new pp k v) e ts ss ↔
  cached ps P e ts ss ∨
  ((ps | len ts) ∧ e = key_extra k ∧ ts `prefix_of` p_toks (extend pp k v) ∧
   ss = take (length ts) (p_slots (extend pp k v))).
Proof.
  intros Hfr. unfold cached, leaf_paths. split.
  - intros [Hd [?|(n & pn & Hn & He & Hp & Hs)]]; [by left; split; [|left]|].
    destruct (decide (n = new)) as [->|Hnn].
    + rewrite lookup_insert_eq in Hn. injection Hn as <-. right. by split_and!.
    + rewrite lookup_insert_ne in Hn by done. left. split; [done|right]. by exists n, pn.
  - intros [[Hd [?|(n & pn & Hn & Hrest)]]|(Hd & He & Hp & Hs)].
    + by split; [|left].
    + split; [done|right]. exists n, pn. split; [|done]. rewrite lookup_insert_ne; [done|].
      apply not_eq_sym. by eapply Hfr.
    + split; [done|right]. exists new, (extend pp k v). by rewrite lookup_insert_eq.
Qed.

Lemma cached_pruned ps P n e ts ss : cached ps (pruned_paths P n) e ts ss → cached ps P e ts ss.
Proof.
  unfold cached, pruned_paths. intros [Hd [?|(m & pm & Hm & Hrest)]]; (split; [done|]); [by left|right].
  apply lookup_delete_Some in Hm as [_ Hm]. by exists m, pm.
Qed.

Lemma cached_nil ps P e : cached ps P e [] [].
Proof. split; [apply Z.divide_0_r|by left]. Qed.

Lemma cached_node ps root S P n pn :
  tree ps root S P → P !! n = Some pn → cached ps P (p_extra pn) (p_toks pn) (p_slots pn).
Proof.
  intros HT Hn. pose proof (path_aligned _ _ _ _ HT _ _ Hn) as [Hd Hl]. split; [done|right].
  exists n, pn. split_and!; [done..|]. rewrite take_ge; [done|]. unfold len in Hl. lia.
Qed.

(** ** Handles and lock counts *)

Definition holds (P : gmap Z Path) (q : Path) (h : Z) : bool :=
  match P !! h with Some ph => bool_decide (covers q ph) | None => false end.

(** How many of the handles [H] are below the node with path [q] *)
Definition count (P : gmap Z Path) (H : list Z) (q : Path) : Z := len (filter (λ h, holds P q h = true) H).

Lemma count_nonneg P H q : 0 ≤ count P H q.
Proof. apply len_nonneg. Qed.

Lemma count_cons P h H q : count P (h :: H) q = (if holds P q h then 1 else 0) + count P H q.
Proof.
  unfold count. rewrite filter_cons. destruct (decide (holds P q h = true)) as [->|Hn]; [llia|].
  destruct (holds P q h); [done|llia].
Qed.

Lemma count_perm P H H' q : H ≡ₚ H' → count P H q = count P H' q.
Proof. intros E. unfold count. apply Permutation_len. by rewrite E. Qed.

Lemma count_ext P P' H q q' :
  (∀ h, h ∈ H → holds P q h = holds P' q' h) → count P H q = count P' H q'.
Proof.
  intros E. induction H as [|h H IH]; [done|]. rewrite !count_cons, E, IH; [done| |].
  - intros h' Hh'. apply E. by apply list_elem_of_further.
  - apply list_elem_of_here.
Qed.

Lemma count_zero P H q : count P H q = 0 ↔ ∀ h, h ∈ H → holds P q h = false.
Proof.
  induction H as [|h H IH]; [split; [|done]; intros _ h Hh; by apply not_elem_of_nil in Hh|].
  rewrite count_cons. pose proof (count_nonneg P H q). split.
  - intros E h' [->|Hh']%elem_of_cons; destruct (holds P q h) eqn:Eh; try lia. apply IH; [lia|done].
  - intros E. rewrite (E h) by apply list_elem_of_here. rewrite (proj2 IH); [done|].
    intros h' Hh'. apply E. by apply list_elem_of_further.
Qed.

Lemma holds_self P h ph : P !! h = Some ph → holds P ph h = true.
Proof. intros Hh. unfold holds. rewrite Hh. apply bool_decide_eq_true. by split. Qed.

(** ** Sums over the nodes *)

Definition ids (P : gmap Z Path) : list Z := (map_to_list P).*1.

Lemma elem_of_ids P n : n ∈ ids P ↔ is_Some (P !! n).
Proof.
  unfold ids. rewrite list_elem_of_fmap. split.
  - intros ([m q] & -> & Hm%elem_of_map_to_list). by exists q.
  - intros [q Hq]. exists (n, q). by rewrite elem_of_map_to_list.
Qed.

Lemma ids_insert P n q : P !! n = None → ids (<[n := q]> P) ≡ₚ n :: ids P.
Proof. intros Hn. unfold ids. by rewrite map_to_list_insert. Qed.

Lemma ids_delete P n q : P !! n = Some q → n :: ids (delete n P) ≡ₚ ids P.
Proof.
  intros Hn. rewrite <- (ids_insert _ n q) by (by rewrite lookup_delete_eq).
  by rewrite insert_delete_id.
Qed.

Definition total (f : Z → Z) (P : gmap Z Path) : Z := zsum (f <$> ids P).

Lemma zsum_perm xs ys : xs ≡ₚ ys → zsum xs = zsum ys.
Proof. unfold zsum. induction 1; cbn in *; lia. Qed.

Lemma total_insert f P n q : P !! n = None → total f (<[n := q]> P) = f n + total f P.
Proof. intros Hn. unfold total. by rewrite (zsum_perm _ _ (fmap_Permutation f _ _ (ids_insert P n q Hn))). Qed.

Lemma total_delete f P n q : P !! n = Some q → total f P = f n + total f (delete n P).
Proof. intros Hn. unfold total. by rewrite <- (zsum_perm _ _ (fmap_Permutation f _ _ (ids_delete P n q Hn))). Qed.

Lemma total_ext f g P : (∀ n q, P !! n = Some q → f n = g n) → total f P = total g P.
Proof.
  intros E. unfold total. f_equal. apply list_fmap_ext. intros i n Hn.
  apply list_elem_of_lookup_2, elem_of_ids in Hn as [q Hq]. by eapply E.
Qed.

(** One node changes. *)
Lemma total_change f g P n q :
  P !! n = Some q → (∀ m, m ≠ n → f m = g m) → total g P = total f P - f n + g n.
Proof.
  intros Hn E. rewrite (total_delete f P n q Hn), (total_delete g P n q Hn).
  rewrite (total_ext f g (delete n P)); [lia|]. intros m r [Hm _]%lookup_delete_Some. by apply E.
Qed.

Lemma total_nonneg f P : (∀ n q, P !! n = Some q → 0 ≤ f n) → 0 ≤ total f P.
Proof.
  intros Hf. apply zsum_nonneg, Forall_forall. intros x (n & -> & Hn)%list_elem_of_fmap.
  apply elem_of_ids in Hn as [q Hq]. by eapply Hf.
Qed.

(** The slots in the nodes of the tree *)
Definition node_slots (S : gmap Z Shape) (n : Z) : list Z := default [] (S !! n ≫= s_value).
Definition tree_slots (S : gmap Z Shape) (P : gmap Z Path) : list Z := concat (node_slots S <$> ids P).

Lemma concat_perm {A} (xss yss : list (list A)) : xss ≡ₚ yss → concat xss ≡ₚ concat yss.
Proof.
  induction 1 as [|xs xss yss _ IH|xs ys xss|xss yss zss _ IH1 _ IH2]; cbn; [done|by rewrite IH| |by etrans].
  by rewrite !app_assoc, (Permutation_app_comm xs).
Qed.

Lemma tree_slots_insert S P n q :
  P !! n = None → tree_slots S (<[n := q]> P) ≡ₚ node_slots S n ++ tree_slots S P.
Proof. intros Hn. unfold tree_slots. by rewrite (concat_perm _ _ (fmap_Permutation _ _ _ (ids_insert P n q Hn))). Qed.

Lemma tree_slots_delete S P n q :
  P !! n = Some q → tree_slots S P ≡ₚ node_slots S n ++ tree_slots S (delete n P).
Proof.
  intros Hn. unfold tree_slots.
  by rewrite <- (concat_perm _ _ (fmap_Permutation (node_slots S) _ _ (ids_delete P n q Hn))).
Qed.

Lemma tree_slots_ext S S' P :
  (∀ n q, P !! n = Some q → node_slots S n = node_slots S' n) → tree_slots S P = tree_slots S' P.
Proof.
  intros E. unfold tree_slots. f_equal. apply list_fmap_ext. intros i n Hn.
  apply list_elem_of_lookup_2, elem_of_ids in Hn as [q Hq]. by eapply E.
Qed.

(** ** The observable state *)

(** The part of the cache the tree is made of; access times, priorities,
    hashes and events are left out. *)
Record State : Type := mkState {
  st_S : gmap Z Shape;
  st_root : Z;
  st_ps : Z;
  st_counter : Z;
  st_evictable : Z;
  st_protected : Z;
  st_leaves : gset Z;
  st_disable : bool;
  st_events : bool;
  st_no_insert : bool;
  st_strategy : EvictionStrategy
}.

#[export] Instance eta_State : Eta State := λ s,
  mkState (st_S s) (st_root s) (st_ps s) (st_counter s) (st_evictable s) (st_protected s) (st_leaves s)
    (st_disable s) (st_events s) (st_no_insert s) (st_strategy s).
#[export] Instance set_st_S : Setter st_S.
Proof. derive_setter. Defined.
#[export] Instance set_st_counter : Setter st_counter.
Proof. derive_setter. Defined.
#[export] Instance set_st_evictable : Setter st_evictable.
Proof. derive_setter. Defined.
#[export] Instance set_st_protected : Setter st_protected.
Proof. derive_setter. Defined.
#[export] Instance set_st_leaves : Setter st_leaves.
Proof. derive_setter. Defined.

Lemma state_ext (s s' : State) :
  st_S s = st_S s' → st_root s = st_root s' → st_ps s = st_ps s' → st_counter s = st_counter s' →
  st_evictable s = st_evictable s' → st_protected s = st_protected s' → st_leaves s = st_leaves s' →
  st_disable s = st_disable s' → st_events s = st_events s' → st_no_insert s = st_no_insert s' →
  st_strategy s = st_strategy s' → s = s'.
Proof. destruct s, s'. cbn. congruence. Qed.

Definition st (c : RadixCache) : State :=
  mkState (shape <$> rc_nodes c) (rc_root c) (rc_page_size c) (rc_counter c) (rc_evictable_size c)
    (rc_protected_size c) (rc_evictable_leaves c) (rc_disable c) (rc_enable_kv_cache_events c)
    (rc_disable_finished_insert c) (rc_strategy c).

(** The tokens in a node, when its lock count is selected *)
Definition weight (sel : Z → bool) (S : gmap Z Shape) (n : Z) : Z :=
  match S !! n with Some s => if sel (s_lock s) then Key.len (s_key s) else 0 | None => 0 end.

Definition unlocked (k : Z) : bool := k =? 0.
Definition is_locked (k : Z) : bool := negb (unlocked k).

Lemma weight_alike sel S S' n t t' :
  S !! n = Some t → S' !! n = Some t' → alike t t' → weight sel S n = weight sel S' n.
Proof. intros Ht Ht' (_ & Ek & _ & El). unfold weight. by rewrite Ht, Ht', Ek, El. Qed.

(** A node [evict] may take *)
Definition evictable_leaf (s : State) (P : gmap Z Path) (n : Z) : Prop :=
  n ≠ st_root s ∧ is_Some (P !! n) ∧ ∃ t, st_S s !! n = Some t ∧ s_lock t = 0 ∧ s_children t = ∅.

(** [lk] is the number of locks a node with a given path should have. *)
Record core (s : State) (P : gmap Z Path) (lk : Path → Z) : Prop := {
  co_tree : tree (st_ps s) (st_root s) (st_S s) P;
  co_lock : ∀ n pn t, P !! n = Some pn → st_S s !! n = Some t → n ≠ st_root s → s_lock t = lk pn;
  co_evictable : st_evictable s = total (weight unlocked (st_S s)) P;
  co_protected : st_protected s = total (weight is_locked (st_S s)) P;
  co_leaves : ∀ n, n ∈ st_leaves s ↔ evictable_leaf s P n;
  co_fresh : ∀ n, is_Some (st_S s !! n) → n < st_counter s;
  co_on : st_disable s = false ∧ st_events s = false
}.

Section Core.
Context (s : State) (P : gmap Z Path) (lk : Path → Z) (HC : core s P lk).
Let HT := co_tree _ _ _ HC.

Lemma core_live n pn : P !! n = Some pn → ∃ t, st_S s !! n = Some t.
Proof. intros Hn. by destruct (tree_shape _ _ _ _ _ _ HT Hn) as [t Ht]; exists t. Qed.

Lemma core_unused : st_S s !! st_counter s = None.
Proof.
  destruct (st_S s !! st_counter s) as [t|] eqn:E; [|done].
  pose proof (co_fresh _ _ _ HC (st_counter s) ltac:(by rewrite E)). lia.
Qed.

Lemma core_new : P !! st_counter s = None.
Proof.
  destruct (P !! st_counter s) as [q|] eqn:E; [|done]. destruct (core_live _ _ E) as [t Ht].
  by rewrite core_unused in Ht.
Qed.

(** Sums of weights after the change of one shape *)
Lemma total_weight_insert sel n pn t t' :
  P !! n = Some pn → st_S s !! n = Some t →
  total (weight sel (<[n := t']> (st_S s))) P =
  total (weight sel (st_S s)) P - (if sel (s_lock t) then Key.len (s_key t) else 0)
    + (if sel (s_lock t') then Key.len (s_key t') else 0).
Proof.
  intros Hn Ht. rewrite (total_change (weight sel (st_S s)) _ P n pn Hn).
  - unfold weight at 2 3. by rewrite Ht, lookup_insert_eq.
  - intros m Hm. unfold weight. by rewrite lookup_insert_ne.
Qed.

(** ** Locks *)

Definition relock (n : Z) (t : Shape) (k : Z) : State :=
  s <| st_S ::= <[n := t <| s_lock := k |>]> |>
    <| st_evictable := total (weight unlocked (<[n := t <| s_lock := k |>]> (st_S s))) P |>
    <| st_protected := total (weight is_locked (<[n := t <| s_lock := k |>]> (st_S s))) P |>
    <| st_leaves ::= λ L, if bool_decide (k = 0 ∧ s_children t = ∅) then {[n]} ∪ L else L ∖ {[n]} |>.

Lemma core_relock n pn t k :
  P !! n = Some pn → n ≠ st_root s → st_S s !! n = Some t →
  core (relock n t k) P (λ q, if decide (q = pn) then k else lk q).
Proof.
  intros Hn Hr Ht. unfold relock. split; rsimpl; try apply HC.
  - by apply tree_lock.
  - intros m pm t' Hm Ht' Hmr. destruct (decide (m = n)) as [->|Hmn].
    + rewrite lookup_insert_eq in Ht'. injection Ht' as <-. rsimpl. rewrite decide_True by congruence. done.
    + rewrite lookup_insert_ne in Ht' by done. rewrite decide_False; [by eapply co_lock|].
      intros ->. apply Hmn. by eapply (path_inj _ _ _ _ HT).
  - done.
  - done.
  - intros m. unfold evictable_leaf. rsimpl. destruct (decide (m = n)) as [->|Hmn].
    + rewrite lookup_insert_eq. case_bool_decide as Hb.
      * split; [|set_solver]. intros _. split_and!; [done|by eexists|]. eexists. split; [done|]. by rsimpl.
      * split; [set_solver|]. intros (_ & _ & t' & [= <-] & Hk & Hch). rsimpl. naive_solver.
    + rewrite lookup_insert_ne by done. etrans; [|apply (co_leaves _ _ _ HC m)].
      case_bool_decide; set_solver.
  - intros m. destruct (decide (m = n)) as [->|Hmn]; [|rewrite lookup_insert_ne by done]; intros H; apply HC; [by rewrite Ht|done].
Qed.

Lemma core_ext lk' : (∀ n pn, P !! n = Some pn → n ≠ st_root s → lk pn = lk' pn) → core s P lk'.
Proof.
  intros E. split; try apply HC. intros n pn t Hn Ht Hr. rewrite <- (E n pn Hn Hr). by eapply co_lock.
Qed.

(** ** Insertion *)

Definition with_leaf (p : Z) (sp : Shape) (k : RadixKey) (v : list Z) : State :=
  s <| st_S := leaf_shapes (st_ps s) (st_S s) p (st_counter s) sp k v |>
    <| st_counter ::= λ n, n + 1 |>
    <| st_evictable ::= λ n, n + Key.len k |>
    <| st_leaves ::= λ L, {[st_counter s]} ∪ L ∖ {[p]} |>.

Section AddLeaf.
Context (p : Z) (sp : Shape) (pp : Path) (k : RadixKey) (v : list Z).
Context (Hp : P !! p = Some pp) (Hsp : st_S s !! p = Some sp)
  (Hfree : s_children sp !! ck (st_ps s) k = None) (Hk : 0 < Key.len k) (Hpg : (st_ps s | Key.len k))
  (Hv : len v = Key.len k) (Hx : p = st_root s ∨ p_extra pp = key_extra k)
  (Hlk : lk (extend pp k v) = 0).

Lemma with_leaf_lookup m t : st_S s !! m = Some t →
  ∃ t', st_S (with_leaf p sp k v) !! m = Some t' ∧ alike t t' ∧ (m ≠ p → t' = t).
Proof.
  intros Ht. unfold with_leaf. rsimpl.
  destruct (leaf_lookup _ _ p (st_counter s) sp k v Hsp core_unused Hfree m t Ht) as (t' & Ht' & Ha & _).
  exists t'. split_and!; [done..|]. intros Hm. unfold leaf_shapes in Ht'.
  rewrite !lookup_insert_ne in Ht'; [congruence| |done]. intros <-. by rewrite core_unused in Ht.
Qed.

Lemma core_add_leaf : core (with_leaf p sp k v) (leaf_paths P (st_counter s) pp k v) lk.
Proof.
  pose proof core_unused as Hun. pose proof core_new as Hnew. pose proof with_leaf_lookup as Hlook.
  assert (Hpn : p ≠ st_counter s) by congruence.
  assert (Hat : st_S (with_leaf p sp k v) !! st_counter s = Some (mkShape ∅ (Some p) k (Some v) 0)).
  { unfold with_leaf, leaf_shapes. rsimpl. by rewrite lookup_insert_ne, lookup_insert_eq. }
  assert (Htot : ∀ sel, total (weight sel (st_S (with_leaf p sp k v))) P = total (weight sel (st_S s)) P).
  { intros sel. symmetry. apply total_ext. intros m q Hm. destruct (core_live _ _ Hm) as [t Ht].
    destruct (Hlook _ _ Ht) as (t' & Ht' & Ha & _). by eapply weight_alike. }
  split.
  - unfold with_leaf. rsimpl. by apply tree_add_leaf.
  - intros m pm t Hm Ht Hmr. unfold leaf_paths in Hm. destruct (decide (m = st_counter s)) as [->|Hmn].
    + rewrite lookup_insert_eq in Hm. injection Hm as <-. rewrite Hat in Ht. injection Ht as <-. done.
    + rewrite lookup_insert_ne in Hm by done. destruct (core_live _ _ Hm) as [t0 Ht0].
      destruct (Hlook _ _ Ht0) as (t' & Ht' & (_ & _ & _ & El) & _). rewrite Ht in Ht'. injection Ht' as <-.
      rewrite El. by eapply (co_lock _ _ _ HC).
  - unfold leaf_paths. rewrite total_insert, Htot by done. unfold weight at 1. rewrite Hat. cbn.
    unfold with_leaf. rsimpl. rewrite (co_evictable _ _ _ HC). lia.
  - unfold leaf_paths. rewrite total_insert, Htot by done. unfold weight at 1. rewrite Hat. cbn.
    unfold with_leaf. rsimpl. rewrite (co_protected _ _ _ HC). lia.
  - intros m. unfold evictable_leaf. change (st_root (with_leaf p sp k v)) with (st_root s).
    change (st_leaves (with_leaf p sp k v)) with ({[st_counter s]} ∪ st_leaves s ∖ {[p]}).
    destruct (decide (m = st_counter s)) as [->|Hmn].
    { split; [|set_solver]. intros _. split_and!.
      - intros E. pose proof (tree_root _ _ _ _ HT) as E'. rewrite <- E, Hnew in E'. done.
      - unfold leaf_paths. by rewrite lookup_insert_eq.
      - by eexists. }
    unfold leaf_paths. rewrite lookup_insert_ne by done.
    destruct (decide (m = p)) as [->|Hmp].
    { split; [set_solver|]. intros (_ & _ & t & Ht & _ & Hch). unfold with_leaf, leaf_shapes in Ht. rsimpl.
      rewrite lookup_insert_eq in Ht. injection Ht as <-. exfalso. revert Hch. rsimpl. apply insert_non_empty. }
    assert (E : st_S (with_leaf p sp k v) !! m = st_S s !! m).
    { unfold with_leaf, leaf_shapes. rsimpl. by rewrite !lookup_insert_ne. }
    rewrite E. etrans; [|apply (co_leaves _ _ _ HC m)]. set_solver.
  - intros m [t Ht]. unfold with_leaf, leaf_shapes in Ht. unfold with_leaf. rsimpl.
    destruct (decide (m = p)) as [->|Hmp]; [pose proof (co_fresh _ _ _ HC p ltac:(by rewrite Hsp)); lia|].
    rewrite lookup_insert_ne in Ht by done. destruct (decide (m = st_counter s)) as [->|Hmn]; [lia|].
    rewrite lookup_insert_ne in Ht by done. pose proof (co_fresh _ _ _ HC m ltac:(by rewrite Ht)). lia.
  - apply HC.
Qed.
End AddLeaf.

(** ** Splitting *)

Section Split.
Context (c : Z) (pc : Path) (l : Link) (k : Z).
Context (Hc : P !! c = Some pc) (Hcr : c ≠ st_root s)
  (HL : linked (st_ps s) (st_root s) (st_S s) P c pc l)
  (Hk : 0 < k < Key.len (s_key (l_s l))) (Hpg : (st_ps s | k))
  (Hlk : lk (upper_path l k) = lk pc).

Definition with_split : State :=
  s <| st_S := split_shapes (st_ps s) (st_S s) c (st_counter s) l k |> <| st_counter ::= λ n, n + 1 |>.

Lemma with_split_lookup m t : st_S s !! m = Some t → m ≠ c →
  ∃ t', st_S with_split !! m = Some t' ∧ alike t t' ∧ (m ≠ l_p l → t' = t).
Proof.
  intros Ht Hmc. unfold with_split. rsimpl.
  destruct (split_lookup _ _ _ _ c (st_counter s) pc l k HL core_unused m t Ht Hmc) as (t' & Ht' & Ha & _).
  exists t'. split_and!; [done..|]. intros Hm. unfold split_shapes in Ht'.
  rewrite !lookup_insert_ne in Ht'; [congruence| |done..]. intros <-. by rewrite core_unused in Ht.
Qed.

Lemma with_split_total sel :
  total (weight sel (st_S with_split)) (split_paths P (st_counter s) l k) = total (weight sel (st_S s)) P.
Proof.
  pose proof core_unused as Hun. pose proof core_new as Hnew.
  unfold split_paths. rewrite total_insert by done.
  assert (Eu : weight sel (st_S with_split) (st_counter s) = if sel (s_lock (l_s l)) then k else 0).
  { unfold weight, with_split. rsimpl. rewrite (split_at_new _ _ _ _ HT _ _ _ _ _ HL Hun).
    unfold upper. cbn. unfold Key.len, Key.upto. cbn. rewrite len_slice_to by (unfold Key.len in Hk; lia). done. }
  assert (El : weight sel (st_S with_split) c = weight sel (st_S s) c - if sel (s_lock (l_s l)) then k else 0).
  { unfold weight, with_split. rsimpl. rewrite (split_at_child _ _ _ _ HT _ _ _ _ _ Hc HL).
    rewrite (ln_shape _ _ _ _ _ _ _ HL). unfold lower_part. cbn [s_lock s_key].
    destruct (sel (s_lock (l_s l))); [|lia]. unfold Key.len, Key.from. cbn.
    rewrite len_slice_from by (unfold Key.len in Hk; lia). done. }
  rewrite Eu, (total_delete _ P c pc Hc), (total_delete (weight sel (st_S s)) P c pc Hc), El.
  rewrite (total_ext (weight sel (st_S with_split)) (weight sel (st_S s)) (delete c P)); [lia|].
  intros m q [Hmc Hm]%lookup_delete_Some. destruct (core_live _ _ Hm) as [t Ht].
  destruct (with_split_lookup _ _ Ht (not_eq_sym Hmc)) as (t' & Ht' & Ha & _). symmetry. by eapply weight_alike.
Qed.

Lemma with_split_leaves m :
  m ∈ st_leaves s ↔ evictable_leaf with_split (split_paths P (st_counter s) l k) m.
Proof.
  pose proof core_unused as Hun. pose proof core_new as Hnew. unfold evictable_leaf.
  change (st_root with_split) with (st_root s). unfold split_paths.
  destruct (decide (m = st_counter s)) as [->|Hmn].
  { split; [intros (_ & [q Hq] & _)%(co_leaves _ _ _ HC); congruence|].
    intros (_ & _ & t & Ht & _ & Hch). unfold with_split in Ht. rsimpl.
    rewrite (split_at_new _ _ _ _ HT _ _ _ _ _ HL Hun) in Ht. injection Ht as <-. unfold upper in Hch. cbn in Hch.
    by apply insert_non_empty in Hch. }
  rewrite lookup_insert_ne by done. etrans; [apply (co_leaves _ _ _ HC m)|]. unfold evictable_leaf.
  do 2 apply and_iff_compat_l. unfold with_split. rsimpl.
  destruct (decide (m = c)) as [->|Hmc].
  { rewrite (split_at_child _ _ _ _ HT _ _ _ _ _ Hc HL), (ln_shape _ _ _ _ _ _ _ HL). unfold lower_part. naive_solver. }
  destruct (decide (m = l_p l)) as [->|Hmp].
  - unfold split_shapes. rewrite lookup_insert_eq, (ln_pshape _ _ _ _ _ _ _ HL). split.
    + intros (t & [= <-] & _ & Hch). pose proof (ln_child _ _ _ _ _ _ _ HL) as E. by rewrite Hch, lookup_empty in E.
    + intros (t & [= <-] & _ & Hch). exfalso. revert Hch. rsimpl. apply insert_non_empty.
  - unfold split_shapes. by rewrite !lookup_insert_ne.
Qed.

Lemma core_split : core with_split (split_paths P (st_counter s) l k) lk.
Proof.
  pose proof core_unused as Hun. pose proof core_new as Hnew. split.
  - unfold with_split. rsimpl. by eapply tree_split.
  - intros m pm t Hm Ht Hmr. unfold split_paths in Hm. change (st_root with_split) with (st_root s) in Hmr.
    destruct (decide (m = st_counter s)) as [->|Hmn].
    + rewrite lookup_insert_eq in Hm. injection Hm as <-. unfold with_split in Ht. rsimpl.
      rewrite (split_at_new _ _ _ _ HT _ _ _ _ _ HL Hun) in Ht. injection Ht as <-. cbn. rewrite Hlk.
      eapply (co_lock _ _ _ HC); [done|by apply HL|done].
    + rewrite lookup_insert_ne in Hm by done. destruct (decide (m = c)) as [->|Hmc].
      * unfold with_split in Ht. rsimpl. rewrite (split_at_child _ _ _ _ HT _ _ _ _ _ Hc HL) in Ht.
        injection Ht as <-. cbn. eapply (co_lock _ _ _ HC); [done|by apply HL|done].
      * destruct (core_live _ _ Hm) as [t0 Ht0].
        destruct (with_split_lookup _ _ Ht0 Hmc) as (t' & Ht' & (_ & _ & _ & El) & _).
        rewrite Ht in Ht'. injection Ht' as <-. rewrite El. by eapply (co_lock _ _ _ HC).
  - rewrite with_split_total. apply HC.
  - rewrite with_split_total. apply HC.
  - intros m. apply with_split_leaves.
  - intros m [t Ht]. unfold with_split, split_shapes in Ht. unfold with_split. rsimpl.
    apply lookup_insert_Some in Ht as [[<- _]|[_ Ht]].
    { pose proof (co_fresh _ _ _ HC (l_p l) ltac:(by rewrite (ln_pshape _ _ _ _ _ _ _ HL))). lia. }
    apply lookup_insert_Some in Ht as [[<- _]|[_ Ht]].
    { pose proof (co_fresh _ _ _ HC c ltac:(by rewrite (ln_shape _ _ _ _ _ _ _ HL))). lia. }
    apply lookup_insert_Some in Ht as [[<- _]|[_ Ht]]; [lia|].
    pose proof (co_fresh _ _ _ HC m ltac:(by rewrite Ht)). lia.
  - apply HC.
Qed.
End Split.

(** ** Deletion *)

Section Prune.
Context (n : Z) (pn : Path) (l : Link).
Context (Hn : P !! n = Some pn) (Hr : n ≠ st_root s)
  (HL : linked (st_ps s) (st_root s) (st_S s) P n pn l)
  (Hleaf : s_children (l_s l) = ∅) (Hlock : s_lock (l_s l) = 0).

(** The parent's children without the leaf *)
Definition rest_children : gmap ChildKey Z := delete (ck (st_ps s) (s_key (l_s l))) (s_children (l_ps l)).

Definition pruned : State :=
  s <| st_S := pruned_shapes (st_ps s) (st_S s) l |>
    <| st_evictable ::= λ k, k - Key.len (s_key (l_s l)) |>
    <| st_leaves ::= λ L, if bool_decide (s_lock (l_ps l) = 0 ∧ rest_children = ∅)
                          then {[l_p l]} ∪ L ∖ {[n]} else (L ∖ {[n]}) ∖ {[l_p l]} |>.

Lemma pruned_alike m t : st_S s !! m = Some t →
  ∃ t', st_S pruned !! m = Some t' ∧ alike t t' ∧ (m ≠ l_p l → t' = t).
Proof.
  intros Ht. unfold pruned. rsimpl. destruct (pruned_lookup _ _ _ _ n pn l HL m t Ht) as (t' & Ht' & Ha & _).
  exists t'. split_and!; [done..|]. intros Hm. unfold pruned_shapes in Ht'.
  rewrite lookup_insert_ne in Ht' by done. congruence.
Qed.

Lemma pruned_total sel :
  total (weight sel (st_S pruned)) (pruned_paths P n)
  = total (weight sel (st_S s)) P - if sel 0 then Key.len (s_key (l_s l)) else 0.
Proof.
  rewrite (total_delete (weight sel (st_S s)) P n pn Hn). unfold pruned_paths.
  unfold weight at 2. rewrite (ln_shape _ _ _ _ _ _ _ HL), Hlock.
  rewrite (total_ext (weight sel (st_S pruned)) (weight sel (st_S s)) (delete n P)); [lia|].
  intros m q [_ Hm]%lookup_delete_Some. destruct (core_live _ _ Hm) as [t Ht].
  destruct (pruned_alike _ _ Ht) as (t' & Ht' & Ha & _). symmetry. by eapply weight_alike.
Qed.

Lemma pruned_leaves m : m ∈ st_leaves pruned ↔ evictable_leaf pruned (pruned_paths P n) m.
Proof.
  unfold evictable_leaf. change (st_root pruned) with (st_root s).
  pose proof (parent_ne _ _ _ _ _ _ _ HT HL Hn) as Hpn. unfold pruned_paths.
  destruct (decide (m = n)) as [->|Hmn].
  { rewrite lookup_delete_eq. split; [|by intros (_ & [] & _)].
    unfold pruned. rsimpl. case_bool_decide; set_solver. }
  rewrite lookup_delete_ne by done. destruct (decide (m = l_p l)) as [->|Hmp].
  - unfold pruned, pruned_shapes. rsimpl. rewrite lookup_insert_eq. case_bool_decide as Hb.
    + split; [|set_solver]. intros _. destruct Hb as [Hb1 Hb2]. split_and!.
      * intros E. destruct (tree_root_shape _ _ _ _ HT) as (t & Ht & _ & _ & _ & Ht1).
        rewrite <- E, (ln_pshape _ _ _ _ _ _ _ HL) in Ht. injection Ht as <-. lia.
      * by rewrite (ln_ppath _ _ _ _ _ _ _ HL).
      * eexists. split; [done|]. by rsimpl.
    + split; [set_solver|]. intros (_ & _ & t & [= <-] & Hb1 & Hb2). exfalso. apply Hb. revert Hb1 Hb2. by rsimpl.
  - assert (E : st_S pruned !! m = st_S s !! m).
    { unfold pruned, pruned_shapes. rsimpl. by rewrite lookup_insert_ne. }
    rewrite E. etrans; [|apply (co_leaves _ _ _ HC m)]. unfold pruned. rsimpl. case_bool_decide; set_solver.
Qed.

Lemma core_pruned : core pruned (pruned_paths P n) lk.
Proof.
  split.
  - unfold pruned. rsimpl. by eapply tree_delete_leaf.
  - intros m pm t Hm Ht Hmr. unfold pruned_paths in Hm. apply lookup_delete_Some in Hm as [_ Hm].
    destruct (core_live _ _ Hm) as [t0 Ht0]. destruct (pruned_alike _ _ Ht0) as (t' & Ht' & (_ & _ & _ & El) & _).
    rewrite Ht in Ht'. injection Ht' as <-. rewrite El. by eapply (co_lock _ _ _ HC).
  - rewrite pruned_total. unfold pruned. rsimpl. rewrite (co_evictable _ _ _ HC). cbn. lia.
  - rewrite pruned_total. unfold pruned. rsimpl. rewrite (co_protected _ _ _ HC). cbn. lia.
  - apply pruned_leaves.
  - intros m [t Ht]. unfold pruned, pruned_shapes in Ht. unfold pruned. rsimpl.
    apply lookup_insert_Some in Ht as [[<- _]|[_ Ht]]; apply (co_fresh _ _ _ HC).
    + by rewrite (ln_pshape _ _ _ _ _ _ _ HL).
    + by rewrite Ht.
  - apply HC.
Qed.
End Prune.

End Core.
