(* ===== verification/RadixFacts.v ===== *)
(** * Operations of the radix cache

    The handles [H] are the nodes that requests hold: the lock count of a
    node is the number of handles below it.  [radix_ok] is the invariant of
    the cache; matching, insertion and the locks keep it. *)

From S2P Require Import Prelude HeapQ PyFloat Allocator Request ReqPool LLM42Info World Radix RadixTree RadixState.

(** ** Matching keys *)

(** [m] is the length of the common pages of [xs] and [ys]. *)
Record matched (ps : Z) (xs ys : list Z) (m : Z) : Prop := {
  ma_range : 0 ≤ m ≤ len xs ∧ m ≤ len ys;
  ma_page : (ps | m);
  ma_take : take (Z.to_nat m) xs = take (Z.to_nat m) ys;
  ma_stop : m < len xs → m < len ys →
            take (Z.to_nat ps) (drop (Z.to_nat m) xs) ≠ take (Z.to_nat ps) (drop (Z.to_nat m) ys)
}.

Lemma common_prefix_spec xs ys : matched 1 xs ys (common_prefix xs ys).
Proof.
  revert ys. induction xs as [|x xs IH]; intros [|y ys]; cbn [common_prefix];
    try (split; [llia|apply Z.divide_1_l|done|intros; llia]).
  destruct (Z.eqb_spec x y) as [->|Hne].
  - destruct (IH ys) as [[H1 H2] _ H3 H4].
    assert (E : Z.to_nat (1 + common_prefix xs ys) = S (Z.to_nat (common_prefix xs ys))) by lia.
    split; [llia|apply Z.divide_1_l| |]; rewrite E; cbn [firstn skipn].
    + by rewrite H3.
    + intros ? ?. apply H4; llia.
  - split; [llia|apply Z.divide_1_l|done|]. cbn. intros _ _ [= E]. done.
Qed.

Lemma take_page {A} (xs : list A) i ps :
  0 ≤ i → 0 ≤ ps → take (Z.to_nat (i + ps)) xs = take (Z.to_nat i) xs ++ take (Z.to_nat ps) (drop (Z.to_nat i) xs).
Proof. intros Hi Hps. rewrite Z2Nat.inj_add by done. by rewrite take_take_drop. Qed.

Lemma slice_page {A} (xs : list A) i ps :
  0 ≤ i → 0 ≤ ps → slice xs i (i + ps) = take (Z.to_nat ps) (drop (Z.to_nat i) xs).
Proof. intros Hi Hps. rewrite slice_nonneg by lia. f_equal. lia. Qed.

Lemma match_pages_spec fuel ps xs ys i :
  0 < ps → (ps | len xs) → (ps | len ys) → (ps | i) → 0 ≤ i ≤ Z.min (len xs) (len ys) →
  Z.min (len xs) (len ys) ≤ i + Z.of_nat fuel → take (Z.to_nat i) xs = take (Z.to_nat i) ys →
  matched ps xs ys (match_pages fuel ps (Z.min (len xs) (len ys)) i xs ys).
Proof.
  intros Hps Hx Hy. revert i. induction fuel as [|fuel IH]; intros i Hi Hr Hf Ht.
  { cbn. split; [lia|done|done|lia]. }
  cbn [match_pages]. destruct (Z.ltb_spec i (Z.min (len xs) (len ys))) as [Hlt|Hge].
  2:{ split; [lia|done|done|lia]. }
  pose proof (divide_lt_add ps _ _ Hps Hi Hx ltac:(lia)). pose proof (divide_lt_add ps _ _ Hps Hi Hy ltac:(lia)).
  rewrite !slice_page by lia. case_bool_decide as Hb.
  - apply IH; [by apply Z.divide_add_r|lia|lia|]. rewrite !take_page by lia. by rewrite Ht, Hb.
  - by split; [lia|..].
Qed.

Lemma key_match_ok ps k0 k1 :
  0 < ps → key_extra k0 = key_extra k1 → (ps | Key.len k0) → (ps | Key.len k1) →
  ∃ m, key_match_fn ps k0 k1 = Ok m ∧ matched ps (token_ids k0) (token_ids k1) m.
Proof.
  intros Hps He H0 H1. unfold key_match_fn, _key_match_page_size1, _key_match_paged, _check_extra_key.
  rewrite bool_decide_true by done. cbn. destruct (Z.eqb_spec ps 1) as [->|Hne].
  - eexists. split; [done|]. apply common_prefix_spec.
  - eexists. split; [done|]. unfold Key.len in *.
    apply match_pages_spec; [done..|apply Z.divide_0_r|len_pos; lia|len_pos; lia|done].
Qed.

Lemma get_child_key_ok ps k : 0 < ps → 0 < Key.len k → get_child_key k ps = Ok (ck ps k).
Proof.
  intros Hps Hk. unfold get_child_key, ck, Key.len in *. destruct (Z.eqb_spec ps 1) as [->|Hne]; cbn.
  - destruct (token_ids k) as [|x xs]; [done|]. done.
  - by rewrite slice_to_take by lia.
Qed.

(** ** The invariant *)

Definition radix_ok (s : State) (P : gmap Z Path) (H : list Z) : Prop :=
  core s P (count P H) ∧ ∀ h, h ∈ H → is_Some (P !! h).

Section Ok.
Context (s : State) (P : gmap Z Path) (H : list Z) (HO : radix_ok s P H).
Let HC : core s P (count P H) := proj1 HO.
Let HT := co_tree _ _ _ HC.

Lemma count_sub P' : P ⊆ P' → ∀ q, count P' H q = count P H q.
Proof.
  intros Hsub q. symmetry. apply count_ext. intros h Hh. destruct (proj2 HO h Hh) as [ph Eh].
  unfold holds. by rewrite Eh, (lookup_weaken _ _ _ _ Eh Hsub).
Qed.

Lemma ok_split c pc l k :
  P !! c = Some pc → c ≠ st_root s → linked (st_ps s) (st_root s) (st_S s) P c pc l →
  0 < k < Key.len (s_key (l_s l)) → (st_ps s | k) →
  radix_ok (with_split s c l k) (split_paths P (st_counter s) l k) H.
Proof.
  intros Hc Hcr HL Hk Hpg.
  assert (Hsub : P ⊆ split_paths P (st_counter s) l k) by (by apply insert_subseteq, (core_new s P _ HC)).
  split.
  - eapply core_ext; [apply (core_split s P (count P H) HC c pc l k); try done|].
    + apply count_ext. intros h Hh. destruct (proj2 HO h Hh) as [ph Eh]. unfold holds. rewrite Eh.
      apply bool_decide_ext. pose proof (split_lower_path _ _ _ _ _ _ _ k HL) as Hlow. split.
      * intros [He Hp].
        assert (Hlen : len (p_toks (upper_path l k)) = len (p_toks (l_pp l)) + k).
        { unfold upper_path, extend, Key.upto. cbn. rewrite len_app, len_slice_to; [done|]. unfold Key.len in Hk. lia. }
        pose proof (linked_len _ _ _ _ _ _ _ HL).
        eapply (edge_shared _ _ _ _ HT c pc l h ph (len (p_toks (upper_path l k)))); [split; [done|lia]|done| | |].
        -- rewrite Hlen. apply Z.divide_add_r; [|done]. eapply (path_aligned _ _ _ _ HT), HL.
        -- destruct Hp as [t Ht]. rewrite Ht. llia.
        -- destruct Hp as [t Ht]. split; [by rewrite <- He, <- Hlow|]. rewrite Ht, <- Hlow. cbn [extend p_toks].
           by rewrite !take_len.
      * intros [He Hp]. rewrite <- Hlow in He, Hp. split; [exact He|]. cbn [extend p_toks] in Hp.
        etrans; [|exact Hp]. by apply prefix_app_r.
    + intros n pn _ _. symmetry. by apply count_sub.
  - intros h Hh. destruct (proj2 HO h Hh) as [ph Eh]. rewrite (lookup_weaken _ _ _ _ Eh Hsub). done.
Qed.

Lemma ok_leaf p sp pp k v :
  P !! p = Some pp → st_S s !! p = Some sp → s_children sp !! ck (st_ps s) k = None →
  0 < Key.len k → (st_ps s | Key.len k) → len v = Key.len k → (p = st_root s ∨ p_extra pp = key_extra k) →
  radix_ok (with_leaf s p sp k v) (leaf_paths P (st_counter s) pp k v) H.
Proof.
  intros Hp Hsp Hfree Hk Hpg Hv Hx.
  assert (Hsub : P ⊆ leaf_paths P (st_counter s) pp k v) by (by apply insert_subseteq, (core_new s P _ HC)).
  split.
  - eapply core_ext; [apply (core_add_leaf s P (count P H) HC p sp pp k v); try done|].
    + pose proof (tree_add_leaf _ _ _ _ HT _ _ _ _ _ _ Hp Hsp (core_unused s P _ HC) Hfree Hk Hpg Hv Hx) as HT'.
      apply count_zero. intros h Hh. destruct (proj2 HO h Hh) as [ph Eh]. unfold holds. rewrite Eh.
      apply bool_decide_eq_false. intros Hcov.
      assert (h = st_counter s) as ->; [|by rewrite (core_new s P _ HC) in Eh].
      eapply (leaf_covers _ _ _ _ HT' (st_counter s) (extend pp k v) (mkShape ∅ (Some p) k (Some v) 0) h ph);
        [| | |done|by eapply lookup_weaken|done].
      * unfold leaf_paths. by rewrite lookup_insert_eq.
      * intros E. pose proof (tree_root _ _ _ _ HT) as E'. by rewrite <- E, (core_new s P _ HC) in E'.
      * unfold leaf_shapes. rewrite lookup_insert_ne, lookup_insert_eq; [done|].
        intros ->. by rewrite (core_new s P _ HC) in Hp.
    + intros n pn _ _. symmetry. by apply count_sub.
  - intros h Hh. destruct (proj2 HO h Hh) as [ph Eh]. rewrite (lookup_weaken _ _ _ _ Eh Hsub). done.
Qed.

(** A leaf without locks is nobody's handle. *)
Lemma unlocked_not_held n pn t :
  P !! n = Some pn → n ≠ st_root s → st_S s !! n = Some t → s_lock t = 0 → n ∉ H.
Proof.
  intros Hn Hr Ht Hl Hin. rewrite (co_lock _ _ _ HC n pn t Hn Ht Hr) in Hl.
  pose proof (proj1 (count_zero _ _ _) Hl n Hin) as E.
  by rewrite (holds_self _ _ _ Hn) in E.
Qed.

Lemma ok_pruned n pn l :
  P !! n = Some pn → n ≠ st_root s → linked (st_ps s) (st_root s) (st_S s) P n pn l →
  s_children (l_s l) = ∅ → s_lock (l_s l) = 0 →
  radix_ok (pruned s n l) (pruned_paths P n) H.
Proof.
  intros Hn Hr HL Hleaf Hlock.
  pose proof (unlocked_not_held n pn _ Hn Hr (ln_shape _ _ _ _ _ _ _ HL) Hlock) as Hnh.
  assert (Heq : ∀ h, h ∈ H → pruned_paths P n !! h = P !! h).
  { intros h Hh. unfold pruned_paths. rewrite lookup_delete_ne; [done|]. congruence. }
  split.
  - eapply core_ext; [by eapply (core_pruned s P (count P H) HC)|]. intros m pm _ _. apply count_ext.
    intros h Hh. unfold holds. by rewrite Heq.
  - intros h Hh. rewrite Heq by done. by apply HO.
Qed.
End Ok.

(** ** Refinement of the tree: a split changes no meaning *)

Record finer (s : State) (P : gmap Z Path) (s' : State) (P' : gmap Z Path) : Prop := {
  fi_same : st_root s' = st_root s ∧ st_ps s' = st_ps s ∧ st_leaves s' = st_leaves s ∧
            st_disable s' = st_disable s ∧ st_events s' = st_events s ∧
            st_no_insert s' = st_no_insert s ∧ st_strategy s' = st_strategy s;
  fi_size : st_evictable s' = st_evictable s ∧ st_protected s' = st_protected s;
  fi_sub : P ⊆ P';
  fi_cached : ∀ e ts ss, cached (st_ps s) P' e ts ss ↔ cached (st_ps s) P e ts ss;
  fi_slots : tree_slots (st_S s') P' ≡ₚ tree_slots (st_S s) P
}.

Lemma finer_refl s P : finer s P s P.
Proof. by split. Qed.

Lemma finer_trans s P s1 P1 s2 P2 : finer s P s1 P1 → finer s1 P1 s2 P2 → finer s P s2 P2.
Proof.
  intros [A1 A2 A3 A4 A5] [B1 B2 B3 B4 B5]. destruct_and!. split.
  - split_and!; congruence.
  - split; congruence.
  - by etrans.
  - intros e ts ss. rewrite <- A4. replace (st_ps s) with (st_ps s1) by congruence. done.
  - by rewrite B5.
Qed.

Lemma finer_split s P H c pc l k :
  radix_ok s P H → P !! c = Some pc → linked (st_ps s) (st_root s) (st_S s) P c pc l →
  0 < k < Key.len (s_key (l_s l)) →
  finer s P (with_split s c l k) (split_paths P (st_counter s) l k).
Proof.
  intros [HC _] Hc HL Hk. pose proof (co_tree _ _ _ HC) as HT.
  pose proof (core_new s P _ HC) as Hnew. pose proof (core_unused s P _ HC) as Hun. split; [done|done| | |].
  - by apply insert_subseteq.
  - intros e ts ss. eapply cached_split; [done..|lia].
  - unfold split_paths. rewrite tree_slots_insert by done.
    rewrite (tree_slots_delete _ P c pc Hc), (tree_slots_delete (st_S s) P c pc Hc), app_assoc.
    assert (E : node_slots (st_S (with_split s c l k)) (st_counter s) ++ node_slots (st_S (with_split s c l k)) c
                = node_slots (st_S s) c).
    { unfold node_slots, with_split. rsimpl.
      rewrite (split_at_new _ _ _ _ HT _ _ _ _ _ HL Hun), (split_at_child _ _ _ _ HT _ _ _ _ _ Hc HL).
      rewrite (ln_shape _ _ _ _ _ _ _ HL). cbn. rewrite (ln_value _ _ _ _ _ _ _ HL). apply slice_to_from. }
    rewrite E. rewrite (tree_slots_ext _ (st_S s)); [done|].
    intros m q [Hmc Hm]%lookup_delete_Some. destruct (core_live s P _ HC _ _ Hm) as [t Ht].
    destruct (with_split_lookup s P _ HC c pc l k HL m t Ht (not_eq_sym Hmc)) as (t' & Ht' & (_ & _ & Ev & _) & _).
    unfold node_slots. rewrite Ht, Ht'. cbn. by rewrite Ev.
Qed.

(** ** One level down *)

Section Descend.
Context (s : State) (P : gmap Z Path) (H : list Z) (HO : radix_ok s P H).
Let HC : core s P (count P H) := proj1 HO.
Let HT := co_tree _ _ _ HC.

(** [node] is where a search for a key of [key]'s namespace has come. *)
Definition at_node (node : Z) (pn : Path) (t : Shape) (key : RadixKey) : Prop :=
  P !! node = Some pn ∧ st_S s !! node = Some t ∧ (node = st_root s ∨ p_extra pn = key_extra key) ∧
  (st_ps s | Key.len key).

Record descent (node : Z) (pn : Path) (key : RadixKey) (d : Z) (pd : Path) (l : Link) (m : Z) : Prop := {
  de_live : P !! d = Some pd;
  de_ne : d ≠ st_root s;
  de_link : linked (st_ps s) (st_root s) (st_S s) P d pd l;
  de_parent : l_p l = node ∧ l_pp l = pn;
  de_match : key_match_fn (st_ps s) (s_key (l_s l)) key = Ok m;
  de_pos : 0 < m;
  de_spec : matched (st_ps s) (token_ids (s_key (l_s l))) (token_ids key) m;
  de_extra : key_extra (s_key (l_s l)) = key_extra key
}.

Lemma descend node pn t key d :
  at_node node pn t key → 0 < Key.len key → s_children t !! ck (st_ps s) key = Some d →
  ∃ pd l m, descent node pn key d pd l m.
Proof.
  intros (Hn & Ht & Hx & Hpg) Hk Hd. pose proof (tree_ps _ _ _ _ HT) as Hps.
  destruct (tree_children _ _ _ _ HT _ _ _ _ _ Hn Ht Hd) as (Hdr & [pd Hpd] & u & Hu & Hpar & Hck).
  destruct (tree_linked _ _ _ _ HT _ _ Hpd Hdr) as (l & HL).
  assert (l_s l = u) as El by (pose proof (ln_shape _ _ _ _ _ _ _ HL); congruence).
  assert (l_p l = node) as Ep by (pose proof (ln_parent _ _ _ _ _ _ _ HL); congruence).
  assert (l_pp l = pn) as Epp by (pose proof (ln_ppath _ _ _ _ _ _ _ HL); congruence).
  rewrite <- El in Hck. unfold ck in Hck. injection Hck as Ee Et.
  destruct (key_match_ok (st_ps s) (s_key (l_s l)) key Hps Ee (ln_page _ _ _ _ _ _ _ HL) Hpg) as (m & Em & Hm).
  exists pd, l, m. split; try done.
  destruct (decide (0 < m)) as [|Hm0]; [done|exfalso]. destruct Hm as [Hr _ _ Hs].
  assert (m = 0) as -> by lia. pose proof (ln_pos _ _ _ _ _ _ _ HL). unfold Key.len in *.
  apply Hs; [lia|lia|]. done.
Qed.

(** The rests of the two keys start with different pages. *)
Lemma descent_rest node pn key d pd l m :
  descent node pn key d pd l m → m < Key.len (s_key (l_s l)) → m < Key.len key →
  ck (st_ps s) (Key.from (s_key (l_s l)) m) ≠ ck (st_ps s) (Key.from key m).
Proof.
  intros [_ _ _ _ _ _ [Hr _ _ Hs] He] H1 H2. unfold ck, Key.from, Key.len in *. cbn. intros [= _ E].
  apply (Hs H1 H2). by rewrite !slice_from_drop in E by lia.
Qed.

(** ** The longest match *)

(** An edge that covers the first page after a node, on a way that passes
    the node, starts at the node. *)
Lemma edge_parent node pn a pa la :
  P !! node = Some pn → (node = st_root s ∨ p_extra pn = p_extra pa) →
  edge_at (st_ps s) (st_root s) (st_S s) P (len (p_toks pn) + st_ps s) a pa la → P !! a = Some pa →
  take (Z.to_nat (len (p_toks pn))) (p_toks pa) = p_toks pn → l_p la = node ∧ l_pp la = pn.
Proof.
  intros Hn Hx [La Hpa] Ha Htake. pose proof (tree_ps _ _ _ _ HT) as Hps.
  pose proof (path_aligned _ _ _ _ HT _ _ Hn) as [Hdn _]. pose proof (len_nonneg (p_toks (l_pp la))) as Hnn.
  assert (Hap : len (p_toks (l_pp la)) ≤ len (p_toks pn)).
  { pose proof (path_aligned _ _ _ _ HT _ _ (ln_ppath _ _ _ _ _ _ _ La)) as [Hda _].
    pose proof (divide_lt_add _ _ _ Hps Hda (Z.divide_add_r _ _ _ Hdn (Z.divide_refl _)) ltac:(lia)). lia. }
  assert (Hpar : l_p la = node).
  2:{ split; [done|]. pose proof (ln_ppath _ _ _ _ _ _ _ La). congruence. }
  destruct (decide (node = st_root s)) as [->|Hnr].
  { rewrite (tree_root _ _ _ _ HT) in Hn. injection Hn as <-. change (len (p_toks root_path)) with 0 in Hap.
    eapply (path_root _ _ _ _ HT); [apply La|lia]. }
  destruct (tree_linked _ _ _ _ HT _ _ Hn Hnr) as (ln & Ln). pose proof (linked_len _ _ _ _ _ _ _ Ln).
  pose proof (ln_pos _ _ _ _ _ _ _ Ln). pose proof (len_nonneg (p_toks (l_pp ln))).
  assert (Hag : agree (len (p_toks pn)) pa pn).
  { split; [destruct Hx; [done|congruence]|]. rewrite Htake. unfold len. by rewrite Nat2Z.id, firstn_all. }
  destruct (decide (len (p_toks (l_pp la)) = len (p_toks pn))) as [El|El].
  - assert (Har : l_p la ≠ st_root s) by (apply (parent_nonroot _ _ _ _ HT _ _ _ La); lia).
    destruct (tree_linked _ _ _ _ HT _ _ (ln_ppath _ _ _ _ _ _ _ La) Har) as (lp & Lp).
    pose proof (linked_len _ _ _ _ _ _ _ Lp). pose proof (ln_pos _ _ _ _ _ _ _ Lp).
    eapply (edge_unique _ _ _ _ HT (len (p_toks pn))); [split; [exact Lp|lia]|split; [exact Ln|lia]|done|].
    eapply agree_trans; [|exact Hag]. apply (agree_parent _ _ _ _ _ _ _ _ La Har). lia.
  - exfalso. assert (a = node) as ->; [|assert (pa = pn) as -> by congruence; lia].
    eapply (edge_unique _ _ _ _ HT (len (p_toks pn))); [split; [exact La|lia]|split; [exact Ln|lia]|done..].
Qed.

(** No child continues the key: nothing longer is cached. *)
Lemma stop_longest node pn t key :
  at_node node pn t key → (0 < Key.len key → s_children t !! ck (st_ps s) key = None) →
  ∀ n q ts, P !! n = Some q → p_extra q = key_extra key → ts `prefix_of` token_ids key →
  (st_ps s | len ts) → p_toks pn ++ ts `prefix_of` p_toks q → ts = [].
Proof.
  intros (Hn & Ht & Hx & Hpg) Hstop n q ts Hq He [r Hr] Hd [r' Hr'].
  destruct (decide (0 < len ts)) as [Hpos|]; [exfalso|by apply len_zero; pose proof (len_nonneg ts); lia].
  pose proof (tree_ps _ _ _ _ HT) as Hps.
  pose proof (divide_lt_add _ _ _ Hps (Z.divide_0_r _) Hd Hpos) as Hle.
  pose proof (len_nonneg (p_toks pn)) as Hnn.
  destruct (edge_exists _ _ _ _ HT _ _ Hq (len (p_toks pn) + st_ps s)) as (a & pa & la & Ha & Hea & [Hce [r2 Hr2]]).
  { rewrite Hr'. llia. }
  pose proof Hea as [La Hpa].
  assert (Htake : ∀ i, i ≤ len (p_toks pn) + st_ps s →
    take (Z.to_nat i) (p_toks pa) = take (Z.to_nat i) (p_toks pn ++ ts)).
  { intros i Hi. apply (f_equal (take (Z.to_nat i))) in Hr2. rewrite Hr' in Hr2.
    rewrite (take_app_le (p_toks pn ++ ts)), (take_app_le (p_toks pa)) in Hr2;
      [done|..]; rewrite ?length_app; clear -Hi Hpa Hle Hnn; unfold len in *; lia. }
  destruct (edge_parent node pn a pa la Hn) as [Hpar Hpp]; [|done|done| |].
  { destruct Hx as [Hx|Hx]; [by left|right; congruence]. }
  { rewrite Htake by lia. apply take_len. }
  pose proof (ln_child _ _ _ _ _ _ _ La) as C. pose proof (ln_pshape _ _ _ _ _ _ _ La) as C'.
  rewrite Hpar, Ht in C'. injection C' as C'. rewrite <- C' in C.
  assert (E : ck (st_ps s) (s_key (l_s la)) = ck (st_ps s) key).
  { pose proof (ln_path _ _ _ _ _ _ _ La) as Hpath. rewrite Hpp in Hpath.
    apply (same_ck _ (p_toks pn) (p_toks pn) _ _ (len (p_toks pn) + st_ps s)); [done|done|lia| |].
    - rewrite Hpath in Hce. cbn in Hce. congruence.
    - apply (f_equal p_toks) in Hpath. cbn in Hpath. rewrite <- Hpath, Htake, Hr, app_assoc by lia.
      symmetry. apply take_app_le. rewrite length_app. clear -Hle Hnn. unfold len in *. lia. }
  rewrite E in C. assert (Hkl : 0 < Key.len key) by (unfold Key.len; rewrite Hr; llia).
  by rewrite (Hstop Hkl) in C.
Qed.
End Descend.

(** ** Running the operations *)

Section Run.
Context `{Runtime}.
Implicit Types c : RadixCache.

Lemma node_of_shape c n t : st_S (st c) !! n = Some t → ∃ x, rc_nodes c !! n = Some x ∧ shape x = t.
Proof. cbn. rewrite lookup_fmap. intros (x & Hx & ->)%fmap_Some. by exists x. Qed.

Lemma node_at_ok n x c : rc_nodes c !! n = Some x → Radix.node_at n c = (Ok x, c).
Proof. intros Hx. unfold Radix.node_at. by rewrite Hx. Qed.

Lemma upd_node_ok n f x c :
  rc_nodes c !! n = Some x → Radix.upd_node n f c = (Ok tt, c <| rc_nodes ::= <[n := f x]> |>).
Proof. intros Hx. unfold Radix.upd_node. by rewrite (bind_ok _ _ _ _ _ (node_at_ok _ _ _ Hx)). Qed.

Lemma upd_node_bind {B} n f x c (k : unit → M RadixCache B) :
  rc_nodes c !! n = Some x →
  (Radix.upd_node n f ≫= k) c = k tt (c <| rc_nodes ::= <[n := f x]> |>).
Proof. intros Hx. by rewrite (bind_ok _ _ _ _ _ (upd_node_ok n f x c Hx)). Qed.

Lemma st_nodes c n y : st (c <| rc_nodes ::= <[n := y]> |>) = (st c) <| st_S ::= <[n := shape y]> |>.
Proof. unfold st. rsimpl. by rewrite fmap_insert. Qed.

Lemma st_S_id (s : State) n t : st_S s !! n = Some t → s <| st_S ::= <[n := t]> |> = s.
Proof. destruct s. cbn. intros Ht. cbv [upd set_st_S]. cbn. f_equal. by apply insert_id. Qed.

(** An update the tree does not see *)
Lemma touch_ok n f t c :
  st_S (st c) !! n = Some t → (∀ x, shape (f x) = shape x) →
  ∃ c', Radix.upd_node n f c = (Ok tt, c') ∧ st c' = st c.
Proof.
  intros Ht Hf. destruct (node_of_shape _ _ _ Ht) as (x & Hx & Es). eexists. split; [by apply upd_node_ok|].
  rewrite st_nodes, Hf, Es. by apply st_S_id.
Qed.

Lemma node_at_shape c n t : st_S (st c) !! n = Some t → ∃ x, Radix.node_at n c = (Ok x, c) ∧ shape x = t.
Proof. intros (x & Hx & Es)%node_of_shape. exists x. split; [by apply node_at_ok|done]. Qed.

Lemma tick_ok c : ∃ t c', Radix.tick c = (Ok t, c') ∧ st c' = st c ∧ rc_nodes c' = rc_nodes c.
Proof. do 2 eexists. split; [done|]. done. Qed.

Definition fresh_node (t0 t1 prio : Z) : TreeNode := mkNode ∅ None (mkKey [] None) None 0 t0 t1 0 None prio.

Lemma new_node_ok prio c :
  ∃ t0 t1 c', Radix.new_node prio c = (Ok (rc_counter c), c') ∧
    rc_nodes c' = <[rc_counter c := fresh_node t0 t1 prio]> (rc_nodes c) ∧
    st c' = (st c) <| st_S ::= <[rc_counter c := shape (fresh_node t0 t1 prio)]> |>
                   <| st_counter ::= λ n, n + 1 |>.
Proof.
  exists (monotonic (rc_clock c)), (monotonic (S (rc_clock c))). eexists. split; [reflexivity|].
  split; [done|]. unfold st. rsimpl. by rewrite fmap_insert.
Qed.

(** The shapes of the three nodes a split writes. *)
Lemma split_shapes_run ps ch l k new x px f :
  shape x = l_s l → shape px = l_ps l → n_parent x = Some (l_p l) → n_key x = s_key (l_s l) →
  shape f <| n_children := {[ck ps (Key.from (s_key (l_s l)) k) := ch]} |> <| n_parent := n_parent x |>
          <| n_lock_ref := n_lock_ref x |> <| n_key := Key.upto (n_key x) k |>
          <| n_value := Some (slice_to (l_v l) k) |> = upper ps ch l k ∧
  shape x <| n_parent := Some new |> <| n_key := Key.from (n_key x) k |>
          <| n_value := Some (slice_from (l_v l) k) |> = lower_part new l k ∧
  shape px <| n_children ::= <[ck ps (s_key (l_s l)) := new]> |>
    = (l_ps l) <| s_children ::= <[ck ps (s_key (l_s l)) := new]> |>.
Proof.
  intros Ex Epx Ep Ek. rewrite Ep, Ek. split_and!.
  - unfold upper. by rewrite <- Ex.
  - unfold lower_part. by rewrite <- Ex.
  - by rewrite <- Epx.
Qed.

Lemma split_node_ok c P Hs ch pc l k :
  radix_ok (st c) P Hs → P !! ch = Some pc → ch ≠ rc_root c →
  linked (rc_page_size c) (rc_root c) (st_S (st c)) P ch pc l →
  0 < k < Key.len (s_key (l_s l)) →
  ∃ c', Radix._split_node (s_key (l_s l)) ch k c = (Ok (rc_counter c), c') ∧ st c' = with_split (st c) ch l k.
Proof.
  intros [HC _] Hch Hr HL Hk. pose proof (co_tree _ _ _ HC) as HT. pose proof (tree_ps _ _ _ _ HT) as Hps.
  change (st_ps (st c)) with (rc_page_size c) in *. change (st_root (st c)) with (rc_root c) in *.
  destruct (split_new _ _ _ _ HT _ _ _ _ HL (core_unused _ _ _ HC)) as (N1 & N2 & _).
  change (st_counter (st c)) with (rc_counter c) in *.
  pose proof (parent_ne _ _ _ _ _ _ _ HT HL Hch) as N3.
  destruct (node_of_shape _ _ _ (ln_shape _ _ _ _ _ _ _ HL)) as (x & Hx & Ex).
  destruct (node_of_shape _ _ _ (ln_pshape _ _ _ _ _ _ _ HL)) as (px & Hpx & Epx).
  assert (Ev : n_value x = Some (l_v l)) by (rewrite <- (ln_value _ _ _ _ _ _ _ HL), <- Ex; done).
  assert (Ep : n_parent x = Some (l_p l)) by (rewrite <- (ln_parent _ _ _ _ _ _ _ HL), <- Ex; done).
  assert (Ek : n_key x = s_key (l_s l)) by (by rewrite <- Ex).
  unfold Radix._split_node. rewrite (bind_ok _ _ _ _ _ (node_at_ok _ _ _ Hx)).
  destruct (new_node_ok (n_priority x) c) as (t0 & t1 & c1 & E1 & En1 & Es1). step E1.
  rewrite (bind_ok _ _ c1 (rc_page_size c) c1).
  2:{ unfold gets. f_equal. f_equal. change (rc_page_size c1) with (st_ps (st c1)). by rewrite Es1. }
  rewrite (bind_ok _ _ c1 (ck (rc_page_size c) (Key.from (s_key (l_s l)) k)) c1).
  2:{ unfold lift. rewrite get_child_key_ok; [done|done|]. unfold Key.from, Key.len in *. cbn.
      rewrite len_slice_from; lia. }
  rewrite (bind_ok _ _ c1 (l_v l) c1) by (by rewrite Ev).
  set (nd := rc_nodes c) in *. set (new := rc_counter c) in *.
  rewrite (upd_node_bind new _ (fresh_node t0 t1 (n_priority x)) c1) by (by rewrite En1, lookup_insert_eq).
  match goal with |- context [upd rc_nodes ?f c1] => set (c2 := upd rc_nodes f c1) end.
  assert (H2 : rc_nodes c2 !! ch = Some x).
  { unfold c2. rsimpl. rewrite En1. by rewrite !lookup_insert_ne. }
  rewrite (upd_node_bind ch _ _ c2 _ H2).
  match goal with |- context [upd rc_nodes ?f c2] => set (c3 := upd rc_nodes f c2) end.
  rewrite (bind_ok _ _ c3 (l_p l) c3) by (by rewrite Ep).
  rewrite (bind_ok _ _ c3 (ck (rc_page_size c) (s_key (l_s l))) c3).
  2:{ unfold lift. rewrite get_child_key_ok; [done|done|lia]. }
  assert (H3 : rc_nodes c3 !! l_p l = Some px).
  { unfold c3, c2. rsimpl. rewrite En1. by rewrite !lookup_insert_ne. }
  rewrite (upd_node_bind (l_p l) _ _ c3 _ H3).
  match goal with |- context [upd rc_nodes ?f c3] => set (c4 := upd rc_nodes f c3) end.
  destruct (split_node_hash_value _ _ _) as [h h'].
  assert (Es4 : st c4 = with_split (st c) ch l k).
  { unfold c4, c3, c2. rewrite !st_nodes, Es1.
    destruct (split_shapes_run (rc_page_size c) ch l k new x px (fresh_node t0 t1 (n_priority x)) Ex Epx Ep Ek) as (F1 & F2 & F3).
    rewrite F1, F2, F3. unfold with_split, split_shapes, st. cbv [upd set_st_S set_st_counter]. cbn.
    f_equal. f_equal. f_equal. apply insert_insert_eq. }
  assert (H4 : st_S (st c4) !! new = Some (upper (rc_page_size c) ch l k)).
  { rewrite Es4. unfold with_split. rsimpl. by apply (split_at_new _ _ _ _ HT _ _ pc _ _ HL), (core_unused _ _ _ HC). }
  destruct (touch_ok new (λ y, y <| n_hash_value := h |>) _ c4 H4) as (c5 & E5 & Es5); [done|]. step E5.
  assert (H5 : st_S (st c5) !! ch = Some (lower_part new l k)).
  { rewrite Es5, Es4. unfold with_split. rsimpl. by eapply (split_at_child _ _ _ _ HT). }
  destruct (touch_ok ch (λ y, y <| n_hash_value := h' |>) _ c5 H5) as (c6 & E6 & Es6); [done|]. step E6.
  exists c6. split; [done|]. congruence.
Qed.
End Run.

(** ** The search for a key *)

(** [node] is reached from [node0] along the first [m] tokens of [key], and
    its slots are [vs] more; no child continues the key. *)
Record arrived (s : State) (P : gmap Z Path) (pn0 : Path) (key : RadixKey) (node : Z) (pn : Path)
    (t : Shape) (m : Z) (vs : list Z) : Prop := {
  ar_at : at_node s P node pn t (Key.from key m);
  ar_range : 0 ≤ m ≤ Key.len key;
  ar_page : (st_ps s | m);
  ar_toks : p_toks pn = p_toks pn0 ++ take (Z.to_nat m) (token_ids key);
  ar_slots : p_slots pn = p_slots pn0 ++ vs;
  ar_stop : m < Key.len key → s_children t !! ck (st_ps s) (Key.from key m) = None
}.

Lemma key_from_len k m : 0 ≤ m ≤ Key.len k → Key.len (Key.from k m) = Key.len k - m.
Proof. intros Hm. unfold Key.len, Key.from in *. cbn. by rewrite len_slice_from. Qed.

Lemma key_from_from k m m' : 0 ≤ m → 0 ≤ m' → Key.from (Key.from k m) m' = Key.from k (m + m').
Proof.
  intros Hm Hm'. unfold Key.from. cbn. f_equal. rewrite !slice_from_drop by lia. rewrite drop_drop. f_equal. lia.
Qed.

Lemma key_from_0 k : Key.from k 0 = k.
Proof. destruct k. unfold Key.from. cbn. f_equal. by rewrite slice_from_drop. Qed.

(** Going on after the first [m] tokens *)
Lemma arrived_trans s P pn0 pn1 key m node pn t m' vs vs' :
  0 ≤ m ≤ Key.len key → (st_ps s | m) →
  p_toks pn1 = p_toks pn0 ++ take (Z.to_nat m) (token_ids key) → p_slots pn1 = p_slots pn0 ++ vs →
  arrived s P pn1 (Key.from key m) node pn t m' vs' → arrived s P pn0 key node pn t (m + m') (vs ++ vs').
Proof.
  intros Hm Hd Ht Hs [A1 A2 A3 A4 A5 A6]. rewrite key_from_len in A2 by done.
  rewrite key_from_from in * by lia. split; [done|lia|by apply Z.divide_add_r| | |].
  - rewrite A4, Ht, <- app_assoc. f_equal. rewrite take_page by lia. f_equal. unfold Key.from. cbn.
    by rewrite slice_from_drop by lia.
  - by rewrite A5, Hs, app_assoc.
  - intros Hlt. apply A6. rewrite key_from_len by done. lia.
Qed.

Lemma arrived_here s P node pn t key :
  at_node s P node pn t key → (0 < Key.len key → s_children t !! ck (st_ps s) key = None) →
  arrived s P pn key node pn t 0 [].
Proof.
  intros Hat Hstop. split; rewrite ?key_from_0; [done|unfold Key.len; len_pos; lia|apply Z.divide_0_r| | |done].
  - cbn. by rewrite app_nil_r.
  - by rewrite app_nil_r.
Qed.

Section Steps.
Context (s : State) (P : gmap Z Path) (H : list Z) (HO : radix_ok s P H).
Context (node : Z) (pn : Path) (key : RadixKey) (d : Z) (pd : Path) (l : Link) (m : Z).
Context (HD : descent s P node pn key d pd l m) (Hpg : (st_ps s | Key.len key)).

Lemma descent_range : 0 < m ≤ Key.len key ∧ m ≤ Key.len (s_key (l_s l)) ∧ (st_ps s | m).
Proof. destruct HD as [_ _ _ _ _ Hpos [Hr Hp _ _] _]. unfold Key.len. split_and!; [lia..|done]. Qed.

Lemma from_aligned : (st_ps s | Key.len (Key.from key m)).
Proof.
  pose proof descent_range as (H1 & _ & H2). rewrite key_from_len by lia. by apply Z.divide_sub_r.
Qed.

Lemma descent_full : m = Key.len (s_key (l_s l)) →
  at_node s P d pd (l_s l) (Key.from key m) ∧
  p_toks pd = p_toks pn ++ take (Z.to_nat m) (token_ids key) ∧ p_slots pd = p_slots pn ++ l_v l.
Proof.
  intros Em. pose proof from_aligned as Hal. destruct HD as [H1 H2 H3 [H4 H5] H6 H7 [Hr Hp Ht _] H8].
  pose proof (ln_path _ _ _ _ _ _ _ H3) as Hpath. rewrite H5 in Hpath. split_and!.
  - split_and!; [done|by apply H3| |done]. right. by rewrite Hpath.
  - rewrite Hpath. cbn. rewrite <- Ht. f_equal. rewrite Em. unfold Key.len, len.
    by rewrite Nat2Z.id, firstn_all.
  - by rewrite Hpath.
Qed.

Lemma descent_split : m < Key.len (s_key (l_s l)) →
  let s' := with_split s d l m in let P' := split_paths P (st_counter s) l m in
  radix_ok s' P' H ∧ finer s P s' P' ∧
  arrived s' P' pn key (st_counter s) (upper_path l m) (upper (st_ps s) d l m) m (slice_to (l_v l) m).
Proof.
  intros Hm. pose proof descent_range as (R1 & R2 & R3). pose proof from_aligned as Hal.
  pose proof (descent_rest _ _ _ _ _ _ _ _ _ HD Hm) as Hrest. pose proof HD as [H1 H2 H3 [H4 H5] H6 H7 [Hr Hp Ht _] H8].
  pose proof (co_tree _ _ _ (proj1 HO)) as HT. pose proof (core_unused _ _ _ (proj1 HO)) as Hun. cbv zeta. split_and!.
  - by apply (ok_split s P H HO d pd).
  - by eapply finer_split.
  - split; [|lia|done| | |].
    + split_and!; [by unfold split_paths; rewrite lookup_insert_eq| | |done].
      * unfold with_split. rsimpl. by eapply split_at_new.
      * right. done.
    + unfold upper_path, extend, Key.upto. cbn. rewrite H5, slice_to_take by lia. by rewrite Ht.
    + unfold upper_path, extend. cbn. by rewrite H5.
    + intros Hlt. unfold upper. cbn [s_children]. change (st_ps (with_split s d l m)) with (st_ps s).
      apply lookup_singleton_None. by apply Hrest.
Qed.
End Steps.

Section Loops.
Context `{Runtime}.

Lemma next_child_key_ok c key ck0 :
  0 < rc_page_size c → ∃ k', Radix.next_child_key key ck0 c = (Ok k', c) ∧
    (0 < Key.len key → k' = ck (rc_page_size c) key).
Proof.
  intros Hps. unfold Radix.next_child_key. rewrite (bind_ok _ _ c (rc_page_size c) c) by done.
  destruct (Z.ltb_spec 0 (Key.len key)) as [Hl|Hl].
  - unfold lift. rewrite get_child_key_ok by done. by eexists.
  - eexists. split; [done|]. lia.
Qed.

(** The child is looked at, and its key compared. *)
Lemma visit_ok c P Hs node pn t key d t0 :
  radix_ok (st c) P Hs → at_node (st c) P node pn t key → 0 < Key.len key →
  s_children t !! ck (rc_page_size c) key = Some d →
  ∃ c1 y pd l m,
    Radix.upd_node d (λ y, y <| n_last_access_time := t0 |>) c = (Ok tt, c1) ∧ st c1 = st c ∧
    Radix.node_at d c1 = (Ok y, c1) ∧ n_key y = s_key (l_s l) ∧ n_value y = Some (l_v l) ∧
    key_match_fn (rc_page_size c1) (n_key y) key = Ok m ∧ descent (st c1) P node pn key d pd l m.
Proof.
  intros HO Hat Hkl Hd.
  destruct (descend _ _ _ HO node pn t key d Hat Hkl Hd) as (pd & l & m & HD).
  pose proof (de_link _ _ _ _ _ _ _ _ _ HD) as HL.
  destruct (touch_ok d (λ y, y <| n_last_access_time := t0 |>) _ c (ln_shape _ _ _ _ _ _ _ HL)) as (c1 & E1 & Es1); [done|].
  rewrite <- Es1 in HD, HL.
  destruct (node_at_shape c1 d _ (ln_shape _ _ _ _ _ _ _ HL)) as (y & Ey & Esy).
  assert (Hky : n_key y = s_key (l_s l)) by (by rewrite <- Esy).
  exists c1, y, pd, l, m. rewrite Hky. split_and!; try done.
  - rewrite <- (ln_value _ _ _ _ _ _ _ HL), <- Esy. done.
  - apply HD.
Qed.

Lemma match_loop_ok fuel : ∀ c P Hs t0 node pn t key k0 value,
  radix_ok (st c) P Hs → at_node (st c) P node pn t key → (length (token_ids key) < fuel)%nat →
  (0 < Key.len key → k0 = ck (rc_page_size c) key) →
  ∃ c' P' node' pn' t' m vs,
    Radix.match_loop fuel t0 node key k0 value c = (Ok (value ++ (Some <$> vs), node'), c') ∧
    radix_ok (st c') P' Hs ∧ finer (st c) P (st c') P' ∧
    arrived (st c') P' pn key node' pn' t' m (concat vs).
Proof.
  induction fuel as [|fuel IH]; intros c P Hs t0 node pn t key k0 value HO Hat Hf Hk0; [lia|].
  pose proof Hat as (Hn & Ht & Hx & Hpg). pose proof (tree_ps _ _ _ _ (co_tree _ _ _ (proj1 HO))) as Hps.
  cbn [Radix.match_loop]. destruct (node_at_shape _ _ _ Ht) as (x & Ex & Es). step Ex.
  assert (Hch : n_children x = s_children t) by (by rewrite <- Es).
  destruct (Z.ltb_spec 0 (Key.len key)) as [Hkl|Hkl].
  2:{ exists c, P, node, pn, t, 0, []. rewrite app_nil_r.
      split_and!; [done..|apply finer_refl|]. apply arrived_here; [done|lia]. }
  rewrite (Hk0 Hkl), Hch. destruct (s_children t !! ck (rc_page_size c) key) as [d|] eqn:Hd.
  2:{ exists c, P, node, pn, t, 0, []. rewrite app_nil_r.
      split_and!; [done..|apply finer_refl|]. by apply arrived_here. }
  destruct (visit_ok c P Hs node pn t key d t0 HO Hat Hkl Hd) as (c1 & y & pd & l & m & E1 & Es1 & Ey & Hky & Hvy & Em & HD).
  step E1. step Ey. rewrite (bind_ok _ _ c1 (rc_page_size c1) c1) by done.
  rewrite (bind_ok _ _ c1 m c1) by (unfold lift; by rewrite Em).
  rewrite Hky. rewrite <- Es1 in HO, Hat, Hps, Hpg |- *. pose proof (de_link _ _ _ _ _ _ _ _ _ HD) as HL.
  destruct (descent_range _ _ _ _ _ _ _ _ _ HD) as (Rm & Rm' & Rd).
  destruct (Z.ltb_spec m (Key.len (s_key (l_s l)))) as [Hlt|Hge].
  - destruct (descent_split _ _ _ HO _ _ _ _ _ _ _ HD Hpg Hlt) as (HO2 & Hfi & Har).
    destruct (split_node_ok c1 P Hs d pd l m HO (de_live _ _ _ _ _ _ _ _ _ HD) (de_ne _ _ _ _ _ _ _ _ _ HD) HL ltac:(lia)) as (c2 & E2 & Es2).
    step E2. rewrite <- Es2 in *.
    destruct (node_at_shape c2 _ _ (proj1 (proj2 (ar_at _ _ _ _ _ _ _ _ _ Har)))) as (z & Ez & Esz). step Ez.
    assert (Hvz : n_value z = Some (slice_to (l_v l) m)) by (change (n_value z) with (s_value (shape z)); by rewrite Esz).
    exists c2, (split_paths P (rc_counter c1) l m), (rc_counter c1), (upper_path l m),
      (upper (rc_page_size c1) d l m), m, [slice_to (l_v l) m].
    rewrite Hvz. split_and!; [done..|]. cbn [concat]. by rewrite app_nil_r.
  - destruct (descent_full _ _ _ _ _ _ _ _ _ HD Hpg ltac:(lia)) as (Hat' & Htk & Hsl).
    destruct (next_child_key_ok c1 (Key.from key m) (ck (rc_page_size c) key) Hps) as (k1 & Ek1 & Hk1). step Ek1.
    destruct (IH c1 P Hs t0 d pd (l_s l) (Key.from key m) k1 (value ++ [n_value y]) HO Hat') as (c' & P' & node' & pn' & t' & m' & vs & E' & HO' & Hfi & Har); [|done|].
    { unfold Key.from. cbn. rewrite slice_from_drop, length_drop by lia. unfold Key.len, len in *. lia. }
    exists c', P', node', pn', t', (m + m'), (l_v l :: vs). split_and!; [|done|done|].
    + rewrite E', Hvy. by rewrite <- app_assoc.
    + cbn [concat]. eapply arrived_trans; [lia| |done|done|done].
      destruct (fi_same _ _ _ _ Hfi) as (_ & -> & _). done.
Qed.

(** The node the search goes on from, after a split when it is needed *)
Lemma go_on_ok c1 P Hs prio node pn key d pd l m :
  radix_ok (st c1) P Hs → descent (st c1) P node pn key d pd l m → (rc_page_size c1 | Key.len key) →
  ∃ c2 P2 d2 pd2 t2 v2,
  (if m <? Key.len (s_key (l_s l)) then
     new ← Radix._split_node (s_key (l_s l)) d m;
     Radix.upd_node new (λ z, z <| n_priority ::= λ q, Z.max q prio |>);; mret new
   else Radix.upd_node d (λ z, z <| n_priority ::= λ q, Z.max q prio |>);; mret d) c1 = (Ok d2, c2) ∧
  radix_ok (st c2) P2 Hs ∧ finer (st c1) P (st c2) P2 ∧ at_node (st c2) P2 d2 pd2 t2 (Key.from key m) ∧
  p_toks pd2 = p_toks pn ++ take (Z.to_nat m) (token_ids key) ∧ p_slots pd2 = p_slots pn ++ v2.
Proof.
  intros HO HD Hpg. pose proof (de_link _ _ _ _ _ _ _ _ _ HD) as HL.
  destruct (descent_range _ _ _ _ _ _ _ _ _ HD) as (Rm & Rm' & Rd).
  destruct (Z.ltb_spec m (Key.len (s_key (l_s l)))) as [Hlt|Hge].
  - destruct (descent_split _ _ _ HO _ _ _ _ _ _ _ HD Hpg Hlt) as (HO2 & Hfi & Har).
    destruct (split_node_ok c1 P Hs d pd l m HO (de_live _ _ _ _ _ _ _ _ _ HD) (de_ne _ _ _ _ _ _ _ _ _ HD) HL ltac:(lia)) as (c2 & E2 & Es2).
    step E2. rewrite <- Es2 in *. pose proof (ar_at _ _ _ _ _ _ _ _ _ Har) as Hat2.
    destruct (touch_ok (rc_counter c1) (λ z, z <| n_priority ::= λ q, Z.max q prio |>) _ c2 (proj1 (proj2 Hat2))) as (c3 & E3 & Es3); [done|].
    step E3. exists c3. rewrite Es3. do 5 eexists. split; [reflexivity|]. split_and!; [exact HO2|exact Hfi|exact Hat2|apply Har..].
  - destruct (descent_full _ _ _ _ _ _ _ _ _ HD Hpg ltac:(lia)) as (Hat' & Htk & Hsl).
    destruct (touch_ok d (λ z, z <| n_priority ::= λ q, Z.max q prio |>) _ c1 (proj1 (proj2 Hat'))) as (c3 & E3 & Es3); [done|].
    step E3. exists c3. rewrite Es3. do 5 eexists. split; [reflexivity|]. split_and!; [exact HO|apply finer_refl|exact Hat'|exact Htk|exact Hsl].
Qed.

Lemma insert_loop_ok fuel : ∀ c P Hs t0 prio node pn t key value k0 total0,
  radix_ok (st c) P Hs → at_node (st c) P node pn t key → (length (token_ids key) < fuel)%nat →
  (0 < Key.len key → k0 = ck (rc_page_size c) key) →
  ∃ c' P' node' pn' t' m vs k',
    Radix.insert_loop fuel t0 prio node key value k0 total0 c
    = (Ok (node', Key.from key m, slice_from value m, k', total0 + m), c') ∧
    radix_ok (st c') P' Hs ∧ finer (st c) P (st c') P' ∧
    arrived (st c') P' pn key node' pn' t' m vs ∧
    (m < Key.len key → k' = ck (rc_page_size c') (Key.from key m)).
Proof.
  induction fuel as [|fuel IH]; intros c P Hs t0 prio node pn t key value k0 total0 HO Hat Hf Hk0; [lia|].
  pose proof Hat as (Hn & Ht & Hx & Hpg). pose proof (tree_ps _ _ _ _ (co_tree _ _ _ (proj1 HO))) as Hps.
  cbn [Radix.insert_loop]. destruct (node_at_shape _ _ _ Ht) as (x & Ex & Es). step Ex.
  assert (Hch : n_children x = s_children t) by (by rewrite <- Es).
  assert (Hstay : (0 < Key.len key → s_children t !! ck (rc_page_size c) key = None) →
    ∃ c' P' node' pn' t' m vs k',
      (mret (node, key, value, k0, total0) : M RadixCache _) c
      = (Ok (node', Key.from key m, slice_from value m, k', total0 + m), c') ∧
      radix_ok (st c') P' Hs ∧ finer (st c) P (st c') P' ∧ arrived (st c') P' pn key node' pn' t' m vs ∧
      (m < Key.len key → k' = ck (rc_page_size c') (Key.from key m))).
  { intros Hstop. exists c, P, node, pn, t, 0, [], k0. rewrite key_from_0, Z.add_0_r, slice_from_drop by done.
    split_and!; [done..|apply finer_refl|by apply arrived_here|done]. }
  destruct (Z.ltb_spec 0 (Key.len key)) as [Hkl|Hkl]; [|apply Hstay; lia].
  rewrite (Hk0 Hkl) in Hstay |- *. rewrite Hch.
  destruct (s_children t !! ck (rc_page_size c) key) as [d|] eqn:Hd; [|by apply Hstay]. clear Hstay.
  destruct (visit_ok c P Hs node pn t key d t0 HO Hat Hkl Hd) as (c1 & y & pd & l & m & E1 & Es1 & Ey & Hky & Hvy & Em & HD).
  step E1. step Ey. rewrite (bind_ok _ _ c1 (rc_page_size c1) c1) by done.
  rewrite (bind_ok _ _ c1 m c1) by (unfold lift; by rewrite Em).
  rewrite Hky. rewrite <- Es1 in HO, Hat, Hps, Hpg |- *. pose proof (de_link _ _ _ _ _ _ _ _ _ HD) as HL.
  destruct (descent_range _ _ _ _ _ _ _ _ _ HD) as (Rm & Rm' & Rd).
  destruct (go_on_ok c1 P Hs prio node pn key d pd l m HO HD Hpg) as (c2 & P2 & d2 & pd2 & t2 & v2 & E2 & HO2 & Hfi2 & Hat2 & Htk2 & Hsl2). step E2.
  assert (Eps : rc_page_size c2 = rc_page_size c1) by (by destruct (fi_same _ _ _ _ Hfi2) as (_ & ? & _)).
  destruct (next_child_key_ok c2 (Key.from key m) (ck (rc_page_size c) key)) as (k1 & Ek1 & Hk1); [by rewrite Eps|]. step Ek1.
  destruct (IH c2 P2 Hs t0 prio d2 pd2 t2 (Key.from key m) (slice_from value m) k1 (total0 + m) HO2 Hat2)
    as (c' & P' & node' & pn' & t' & m' & vs & k' & E' & HO' & Hfi & Har & Hk'); [|done|].
  { unfold Key.from. cbn. rewrite slice_from_drop, length_drop by lia. unfold Key.len, len in *. lia. }
  pose proof (ar_range _ _ _ _ _ _ _ _ _ Har) as Hrm. rewrite key_from_len in Hrm by lia.
  exists c', P', node', pn', t', (m + m'), (v2 ++ vs), k'. split_and!.
  - rewrite E', key_from_from by lia. rewrite !slice_from_drop, drop_drop, Z.add_assoc by lia. 
    rewrite Z2Nat.inj_add by lia. done.
  - done.
  - by eapply finer_trans.
  - eapply arrived_trans; [lia| |done|done|done].
    destruct (fi_same _ _ _ _ Hfi) as (_ & -> & _). change (st_ps (st c2)) with (rc_page_size c2). by rewrite Eps.
  - intros Hlt. rewrite <- key_from_from by lia. apply Hk'. rewrite key_from_len by lia. lia.
Qed.

End Loops.

(** ** Leaf status *)

Section Leaf.
Context `{Runtime}.

Definition childless (t : Shape) : Prop := s_lock t ≤ 0 ∧ s_children t = ∅.
#[export] Instance childless_dec t : Decision (childless t).
Proof. unfold childless. apply _. Defined.

Lemma any_child_spec c x :
  (∀ k d, n_children x !! k = Some d → ∃ u v, st_S (st c) !! d = Some u ∧ s_value u = Some v) →
  Radix.any_child c x = negb (bool_decide (n_children x = ∅)).
Proof.
  intros Hch. unfold Radix.any_child. case_bool_decide as He; cbn.
  - rewrite He, map_to_list_empty. done.
  - apply existsb_exists. destruct (map_choose _ He) as (k & d & Hd).
    destruct (Hch k d Hd) as (u & v & Hu & Hv). destruct (node_of_shape _ _ _ Hu) as (y & Hy & <-).
    exists d. split.
    + apply list_elem_of_In, list_elem_of_fmap. exists (k, d). split; [done|]. by apply elem_of_map_to_list.
    + rewrite Hy. unfold evicted. cbn in Hv. by rewrite Hv.
Qed.

Lemma update_leaf_ok c n t v :
  st_S (st c) !! n = Some t → s_value t = Some v →
  (∀ k d, s_children t !! k = Some d → ∃ u w, st_S (st c) !! d = Some u ∧ s_value u = Some w) →
  ∃ c', Radix._update_leaf_status n c = (Ok tt, c') ∧ rc_nodes c' = rc_nodes c ∧
    st c' = (st c) <| st_leaves ::= λ L, if bool_decide (childless t) then {[n]} ∪ L else L ∖ {[n]} |>.
Proof.
  intros Ht Hv Hch. destruct (node_of_shape _ _ _ Ht) as (x & Hx & Es).
  unfold Radix._update_leaf_status. rewrite (bind_ok _ _ _ _ _ (node_at_ok _ _ _ Hx)).
  rewrite (bind_ok _ _ c c c) by done. rewrite (any_child_spec c x).
  2:{ intros k d Hd. apply (Hch k d). by rewrite <- Es. }
  assert (Ev : evicted x = false) by (unfold evicted; rewrite <- Es in Hv; cbn in Hv; by rewrite Hv).
  rewrite Ev. cbn [orb].
  assert (Eb : (0 <? n_lock_ref x) || negb (bool_decide (n_children x = ∅)) = negb (bool_decide (childless t))).
  { rewrite <- Es. unfold childless. cbn [s_lock s_children shape].
    destruct (Z.ltb_spec 0 (n_lock_ref x)); repeat case_bool_decide; cbn; try done; naive_solver lia. }
  rewrite Eb. destruct (bool_decide (childless t)); cbn [negb]; eexists; (split; [reflexivity|]); done.
Qed.
End Leaf.
