(* ===== verification/RadixOps.v ===== *)
(** * Matching, insertion and locks of the radix cache

    Each operation succeeds on a cache in order, keeps it in order, and does
    to [cached] what its caller relies on. *)

From S2P Require Import Prelude HeapQ PyFloat Allocator Request ReqPool LLM42Info World Radix RadixTree RadixState RadixFacts.

Section Ops.
Context `{Runtime}.
Implicit Types c : RadixCache.

(** The search starts at the root. *)
Lemma at_root s P Hs key : radix_ok s P Hs → (st_ps s | Key.len key) →
  ∃ t, at_node s P (st_root s) root_path t key.
Proof.
  intros [HC _] Hpg. pose proof (co_tree _ _ _ HC) as HT.
  destruct (tree_root_shape _ _ _ _ HT) as (t & Ht & _). exists t.
  split_and!; [apply HT|done|by left|done].
Qed.

(** The first [m] tokens of the key are cached in [ss], and no more. *)
Record longest (ps : Z) (P : gmap Z Path) (key : RadixKey) (m : Z) (ss : list Z) : Prop := {
  lo_cached : cached ps P (key_extra key) (take (Z.to_nat m) (token_ids key)) ss;
  lo_range : 0 ≤ m ≤ Key.len key;
  lo_page : (ps | m);
  lo_len : len ss = m;
  lo_max : ∀ ts ss', cached ps P (key_extra key) ts ss' → ts `prefix_of` token_ids key → len ts ≤ m
}.

(** The node a search from the root has come to *)
Definition reached (s : State) (P : gmap Z Path) (key : RadixKey) (node m : Z) (ss : list Z) : Prop :=
  ∃ pn, P !! node = Some pn ∧ p_toks pn = take (Z.to_nat m) (token_ids key) ∧ p_slots pn = ss ∧
        (node = st_root s ∧ m = 0 ∨ p_extra pn = key_extra key).

Lemma longest_iff ps P P' key m ss :
  (∀ e ts ss, cached ps P' e ts ss ↔ cached ps P e ts ss) → longest ps P' key m ss → longest ps P key m ss.
Proof.
  intros E [H1 H2 H3 H4 H5]. split; [by apply E|done|done|done|].
  intros ts ss' Hc. eapply H5. by apply E.
Qed.

Lemma arrived_found s P Hs key node pn t m ss :
  radix_ok s P Hs → arrived s P root_path key node pn t m ss →
  longest (st_ps s) P key m ss ∧ reached s P key node m ss.
Proof.
  intros HO [Hat Hr Hd Htk Hsl Hstop]. pose proof (co_tree _ _ _ (proj1 HO)) as HT.
  pose proof Hat as (Hn & Ht & Hx & Hpg). cbn [p_toks p_slots root_path app] in Htk, Hsl.
  pose proof (path_aligned _ _ _ _ HT _ _ Hn) as [Hal Hls].
  assert (Hlm : len (p_toks pn) = m).
  { rewrite Htk, len_take. unfold Key.len in Hr. lia. }
  assert (Hroot : node = st_root s → m = 0).
  { intros ->. rewrite (tree_root _ _ _ _ HT) in Hn. injection Hn as <-. done. }
  assert (Hc : cached (st_ps s) P (key_extra key) (take (Z.to_nat m) (token_ids key)) ss).
  { rewrite <- Htk, <- Hsl. destruct Hx as [Hx|Hx].
    - rewrite Hx, (tree_root _ _ _ _ HT) in Hn. injection Hn as <-. apply cached_nil.
    - change (key_extra key) with (key_extra (Key.from key m)). rewrite <- Hx. by eapply cached_node. }
  split.
  2:{ exists pn. split_and!; [done..|]. destruct Hx as [Hx|Hx]; [left; auto|by right]. }
  split; [done|done|done|rewrite <- Hsl; lia|].
  - intros ts ss' [Hdts [[-> _]|(n & q & Hq & He & Hp & _)]] Hts; [rewrite len_nil; lia|].
    apply Z.nlt_ge. intros Hlt. destruct Hts as [r Hr'].
    assert (Ets : take (Z.to_nat m) ts = p_toks pn).
    { rewrite Htk, Hr', take_app_le; [done|]. unfold len in *. lia. }
    assert (E : drop (Z.to_nat m) ts = []).
    { eapply (stop_longest s P Hs HO node pn t (Key.from key m) Hat); [|exact Hq|exact He| | |].
      - intros Hpos. apply Hstop. rewrite key_from_len in Hpos by lia. lia.
      - unfold Key.from. cbn. rewrite slice_from_drop, Hr', drop_app_le by (unfold len in *; lia).
        by apply prefix_app_r.
      - rewrite len_drop. replace (Z.max 0 _) with (len ts - m) by lia. by apply Z.divide_sub_r.
      - rewrite <- Ets, take_drop. done. }
    apply (f_equal length) in E. rewrite length_drop in E. cbn in E. unfold len in *. lia.
Qed.

(** ** match_prefix *)

Lemma mapM_Some (vs : list (list Z)) : mapM (M := res) (of_option TypeError) (Some <$> vs) = Ok vs.
Proof. induction vs as [|v vs IH]; [done|]. cbn in *. by rewrite IH. Qed.

(** The key a lookup uses *)
Definition align (ps : Z) (key : RadixKey) : RadixKey :=
  if ps =? 1 then key else Key.upto key (Radix.aligned_len ps (Key.len key)).

Lemma aligned_spec ps n : 0 < ps → 0 ≤ n → 0 ≤ Radix.aligned_len ps n ≤ n ∧ (ps | Radix.aligned_len ps n).
Proof.
  intros Hps Hn. unfold Radix.aligned_len. pose proof (Z.mul_div_le n ps Hps). pose proof (Z.div_pos n ps Hn Hps).
  split; [nia|]. by exists (n / ps).
Qed.

Lemma align_spec ps key : 0 < ps →
  (ps | Key.len (align ps key)) ∧ key_extra (align ps key) = key_extra key ∧
  token_ids (align ps key) = take (Z.to_nat (Radix.aligned_len ps (Key.len key))) (token_ids key).
Proof.
  intros Hps. pose proof (len_nonneg (token_ids key)) as Hn. fold (Key.len key) in Hn.
  destruct (aligned_spec ps (Key.len key) Hps Hn) as [Hr Hd]. unfold align.
  destruct (Z.eqb_spec ps 1) as [->|Hne].
  - split_and!; [apply Z.divide_1_l|done|]. unfold Radix.aligned_len. rewrite Z.div_1_r, Z.mul_1_r.
    unfold Key.len, len. by rewrite Nat2Z.id, firstn_all.
  - unfold Key.upto. cbn. split_and!; [|done|by rewrite slice_to_take by lia].
    unfold Key.len at 1. cbn. rewrite len_slice_to; [done|]. unfold Key.len in *. lia.
Qed.

Lemma match_prefix_ok c P Hs key :
  radix_ok (st c) P Hs →
  ∃ c' P' node m ss, Radix.match_prefix key c = (Ok (ss, node), c') ∧
    radix_ok (st c') P' Hs ∧ finer (st c) P (st c') P' ∧
    longest (rc_page_size c) P (align (rc_page_size c) key) m ss ∧
    reached (st c') P' (align (rc_page_size c) key) node m ss.
Proof.
  intros HO. pose proof (tree_ps _ _ _ _ (co_tree _ _ _ (proj1 HO))) as Hps. cbn in Hps.
  destruct (align_spec (rc_page_size c) key Hps) as (Hpg & He & Htk).
  destruct (co_on _ _ _ (proj1 HO)) as [Hdis _]. cbn in Hdis.
  assert (Hempty : Key.len (align (rc_page_size c) key) = 0 →
    ∃ c' P' node m ss, (mret ([], rc_root c) : M RadixCache _) c = (Ok (ss, node), c') ∧
    radix_ok (st c') P' Hs ∧ finer (st c) P (st c') P' ∧
    longest (rc_page_size c) P (align (rc_page_size c) key) m ss ∧
    reached (st c') P' (align (rc_page_size c) key) node m ss).
  { intros E0. exists c, P, (rc_root c), 0, []. destruct (at_root _ _ _ _ HO Hpg) as (t & Hat).
    split; [done|]. split; [done|]. split; [apply finer_refl|].
    apply (arrived_found (st c) P Hs _ _ root_path t); [done|]. apply arrived_here; [done|lia]. }
  unfold Radix.match_prefix. rewrite (bind_ok _ _ c c c) by done. rewrite Hdis. cbn [orb].
  destruct (Z.eqb_spec (Key.len key) 0) as [Ek|Ek].
  { apply Hempty. unfold Key.len. rewrite Htk. unfold Key.len in Ek. apply len_zero in Ek. by rewrite Ek, take_nil. }
  fold (align (rc_page_size c) key). destruct (Z.eqb_spec (Key.len (align (rc_page_size c) key)) 0) as [E0|E0]; [by apply Hempty|].
  clear Hempty. set (k := align (rc_page_size c) key) in *.
  assert (Hk0 : 0 < Key.len k) by (unfold Key.len in *; len_pos; lia).
  unfold Radix._match_prefix_helper. destruct (tick_ok c) as (t0 & c1 & E1 & Es1 & _).
  destruct (at_root _ _ _ k HO Hpg) as (t & Hat). pose proof (proj1 (proj2 Hat)) as Hrt.
  change (st_root (st c)) with (rc_root c) in Hat, Hrt. rewrite <- Es1 in HO, Hat, Hrt |- *.
  destruct (touch_ok (rc_root c) (λ x, x <| n_last_access_time := t0 |>) t c1 Hrt) as (c2 & E2 & Es2); [done|].
  rewrite <- Es2 in HO, Hat |- *. assert (Eps : rc_page_size c2 = rc_page_size c).
  { change (st_ps (st c2) = st_ps (st c)). by rewrite Es2, Es1. }
  destruct (match_loop_ok (S (length (token_ids k))) c2 P Hs t0 (rc_root c) root_path t k (ck (rc_page_size c2) k) [] HO Hat)
    as (c' & P' & node & pn & t' & m & vs & E3 & HO' & Hfi & Har); [lia|done|].
  destruct (arrived_found _ _ _ _ _ _ _ _ _ HO' Har) as [Hlo Hre].
  assert (Eps' : st_ps (st c') = rc_page_size c).
  { destruct (fi_same _ _ _ _ Hfi) as (_ & -> & _). done. }
  assert (Hlo' : longest (rc_page_size c) P k m (concat vs)).
  { rewrite Eps' in Hlo. eapply longest_iff; [|exact Hlo]. rewrite <- Eps. apply Hfi. }
  exists c', P', node, m, (concat vs). split_and!; [|done..].
  match goal with |- (?mm ≫= _) c = _ => assert (Em : mm c = (Ok (Some <$> vs, node), c')) end.
  { step E1. step E2. rewrite (bind_ok _ _ c2 (rc_page_size c2) c2) by done.
    rewrite (bind_ok _ _ c2 (ck (rc_page_size c2) k) c2); [exact E3|].
    unfold lift. by rewrite get_child_key_ok; [|rewrite Eps|]. }
  step Em. rewrite (bind_ok _ _ c' vs c') by (unfold lift; by rewrite mapM_Some). done.
Qed.

(** ** insert *)

Lemma live_value ps root S P n pn t : tree ps root S P → P !! n = Some pn → S !! n = Some t → is_Some (s_value t).
Proof.
  intros HT Hn Ht. destruct (decide (n = root)) as [->|Hne].
  - destruct (tree_root_shape _ _ _ _ HT) as (t' & Ht' & _ & Hv & _). rewrite Ht in Ht'. injection Ht' as <-. by rewrite Hv.
  - destruct (tree_linked _ _ _ _ HT _ _ Hn Hne) as (l & HL). pose proof (ln_shape _ _ _ _ _ _ _ HL) as E.
    rewrite Ht in E. injection E as ->. by rewrite (ln_value _ _ _ _ _ _ _ HL).
Qed.

Lemma child_value ps root S P n pn t k d :
  tree ps root S P → P !! n = Some pn → S !! n = Some t → s_children t !! k = Some d →
  ∃ u w, S !! d = Some u ∧ s_value u = Some w.
Proof.
  intros HT Hn Ht Hd. destruct (tree_children _ _ _ _ HT _ _ _ _ _ Hn Ht Hd) as (_ & [pd Hpd] & u & Hu & _).
  destruct (live_value _ _ _ _ _ _ _ HT Hpd Hu) as [w Hw]. by exists u, w.
Qed.

(** A new leaf below [node] *)
Lemma add_leaf_ok c P Hs node pn t key v prio :
  radix_ok (st c) P Hs → at_node (st c) P node pn t key → 0 < Key.len key → len v = Key.len key →
  s_children t !! ck (rc_page_size c) key = None →
  ∃ c', (new ← Radix.new_node prio;
         Radix.upd_node new (λ y, y <| n_parent := Some node |> <| n_key := key |> <| n_value := Some v |>);;
         Radix.upd_node node (λ y, y <| n_children ::= <[ck (rc_page_size c) key := new]> |>);;
         modify (λ c, c <| rc_evictable_size ::= λ n, n + Key.len key |>);;
         Radix._update_leaf_status node;;
         Radix._update_leaf_status new;;
         Radix._record_store_event new) c = (Ok tt, c') ∧ st c' = with_leaf (st c) node t key v.
Proof.
  intros HO (Hn & Ht & Hx & Hpg) Hk Hv Hfree. pose proof (proj1 HO) as HC. pose proof (co_tree _ _ _ HC) as HT.
  pose proof (core_unused _ _ _ HC) as Hun. set (new := rc_counter c) in *.
  change (st_counter (st c)) with new in Hun. assert (Hne : node ≠ new) by congruence.
  destruct (new_node_ok prio c) as (t0 & t1 & c1 & E1 & En1 & Es1). step E1.
  rewrite (upd_node_bind new _ (fresh_node t0 t1 prio) c1) by (by rewrite En1, lookup_insert_eq).
  match goal with |- context [upd rc_nodes ?f c1] => set (c2 := upd rc_nodes f c1) end.
  destruct (node_of_shape _ _ _ Ht) as (x & Hnx & Ex).
  assert (Hnx2 : rc_nodes c2 !! node = Some x).
  { unfold c2. rsimpl. rewrite En1. by rewrite !lookup_insert_ne. }
  rewrite (upd_node_bind node _ x c2 _ Hnx2).
  match goal with |- context [upd rc_nodes ?f c2] => set (c3 := upd rc_nodes f c2) end.
  set (c4 := c3 <| rc_evictable_size ::= λ n, n + Key.len key |>). rewrite (bind_ok _ _ c3 tt c4) by done.
  assert (ES : st_S (st c4) = leaf_shapes (rc_page_size c) (st_S (st c)) node new t key v).
  { change (st_S (st c4)) with (st_S (st c3)). unfold c3, c2. rewrite !st_nodes, Es1. unfold leaf_shapes. rsimpl.
    rewrite insert_insert_eq. f_equal. by rewrite <- Ex. }
  pose proof (tree_add_leaf _ _ _ _ HT node new t pn key v Hn Ht Hun Hfree Hk Hpg Hv Hx) as HT'.
  assert (Hch : ∀ m pm s k d, leaf_paths P new pn key v !! m = Some pm → st_S (st c4) !! m = Some s →
    s_children s !! k = Some d → ∃ u w, st_S (st c4) !! d = Some u ∧ s_value u = Some w).
  { intros m pm s k d Hm Hms Hd. rewrite ES in Hms |- *. by eapply child_value. }
  assert (Hat4 : ∃ t', st_S (st c4) !! node = Some t' ∧ s_children t' ≠ ∅ ∧ is_Some (s_value t')).
  { rewrite ES. unfold leaf_shapes. rewrite lookup_insert_eq. eexists. split; [done|]. rsimpl.
    split; [apply insert_non_empty|]. apply (live_value _ _ _ _ _ _ _ HT Hn Ht). }
  destruct Hat4 as (t4 & Ht4 & Hne4 & [v4 Hv4]).
  destruct (update_leaf_ok c4 node t4 v4 Ht4 Hv4) as (c5 & E5 & En5 & Es5).
  { intros k d Hd. eapply (Hch node); [|done|done]. unfold leaf_paths. by rewrite lookup_insert_ne. }
  step E5. rewrite bool_decide_false in Es5 by (by intros [_ ?]).
  assert (ES5 : st_S (st c5) = st_S (st c4)) by (by rewrite Es5).
  destruct (update_leaf_ok c5 new (mkShape ∅ (Some node) key (Some v) 0) v) as (c6 & E6 & En6 & Es6).
  { rewrite ES5, ES. unfold leaf_shapes. by rewrite lookup_insert_ne, lookup_insert_eq. }
  { done. }
  { intros k d Hd. cbn [s_children] in Hd. by rewrite lookup_empty in Hd. }
  step E6. rewrite bool_decide_true in Es6 by (by split).
  exists c6. split.
  - unfold Radix._record_store_event. rewrite (bind_ok _ _ c6 c6 c6) by done.
    replace (rc_enable_kv_cache_events c6) with (st_events (st c6)) by done. rewrite Es6, Es5.
    rsimpl. change (st_events (st c4)) with (st_events (st c1)). rewrite Es1. rsimpl.
    by destruct (co_on _ _ _ HC) as [_ ->].
  - rewrite Es6, Es5. apply state_ext; unfold with_leaf; rsimpl; try exact ES;
      change (st c4) with ((st c3) <| st_evictable ::= λ n, n + Key.len key |>); rsimpl;
      unfold c3, c2; rewrite !st_nodes, Es1; by rsimpl.
Qed.

(** The effect of an insertion: the first [m] tokens were cached in [ss]
    already, the others are now in the slots they came with. *)
Record inserted (s : State) (P : gmap Z Path) (s' : State) (P' : gmap Z Path) (key : RadixKey)
    (value : list Z) (m : Z) (ss : list Z) : Prop := {
  in_longest : longest (st_ps s) P key m ss;
  in_same : st_root s' = st_root s ∧ st_ps s' = st_ps s ∧ st_disable s' = st_disable s ∧
            st_events s' = st_events s ∧ st_no_insert s' = st_no_insert s ∧ st_strategy s' = st_strategy s;
  in_sub : P ⊆ P';
  in_cached : ∀ e ts ss', cached (st_ps s) P' e ts ss' ↔
    cached (st_ps s) P e ts ss' ∨
    ((st_ps s | len ts) ∧ e = key_extra key ∧ ts `prefix_of` token_ids key ∧
     ss' = take (length ts) (ss ++ drop (Z.to_nat m) value));
  in_slots : tree_slots (st_S s') P' ≡ₚ drop (Z.to_nat m) value ++ tree_slots (st_S s) P;
  in_size : st_evictable s' = st_evictable s + (Key.len key - m) ∧ st_protected s' = st_protected s
}.

Lemma cached_prefix ps P e ts ts' ss :
  cached ps P e ts ss → ts' `prefix_of` ts → (ps | len ts') → cached ps P e ts' (take (length ts') ss).
Proof.
  intros [_ [[-> ->]|(n & pn & Hn & He & Hp & ->)]] Hp' Hd; (split; [done|]).
  - left. apply prefix_nil_inv in Hp'. by subst.
  - right. exists n, pn. split_and!; [done..|by etrans|]. rewrite take_take. f_equal.
    apply prefix_length in Hp'. lia.
Qed.

(** Everything was cached. *)
Lemma inserted_all s P Hs s' P' key value ss :
  radix_ok s P Hs → finer s P s' P' → longest (st_ps s) P key (Key.len key) ss → len value = Key.len key →
  inserted s P s' P' key value (Key.len key) ss.
Proof.
  intros HO Hfi Hlo Hv. destruct (fi_same _ _ _ _ Hfi) as (F1 & F2 & F3 & F4 & F5 & F6 & F7).
  assert (Hdr : drop (Z.to_nat (Key.len key)) value = []) by (apply drop_ge; unfold len in Hv; lia).
  pose proof (lo_cached _ _ _ _ _ Hlo) as Hc.
  assert (Etk : take (Z.to_nat (Key.len key)) (token_ids key) = token_ids key).
  { unfold Key.len, len. by rewrite Nat2Z.id, firstn_all. }
  split; [done|by split_and!|apply Hfi| | |].
  - intros e ts ss'. rewrite (fi_cached _ _ _ _ Hfi). split; [by left|]. intros [?|(Hd & -> & Hp & ->)]; [done|].
    rewrite Hdr, app_nil_r. eapply cached_prefix; [exact Hc|by rewrite Etk|done].
  - rewrite Hdr. apply Hfi.
  - destruct (fi_size _ _ _ _ Hfi) as [-> ->]. split; lia.
Qed.

(** A part was not. *)
Lemma inserted_rest s P Hs s1 P1 key value node pn t m ss :
  radix_ok s P Hs → radix_ok s1 P1 Hs → finer s P s1 P1 → longest (st_ps s) P key m ss →
  arrived s1 P1 root_path key node pn t m ss → len value = Key.len key → m < Key.len key →
  inserted s P (with_leaf s1 node t (Key.from key m) (slice_from value m))
    (leaf_paths P1 (st_counter s1) pn (Key.from key m) (slice_from value m)) key value m ss.
Proof.
  intros HO HO1 Hfi Hlo Har Hv Hm. destruct (fi_same _ _ _ _ Hfi) as (F1 & F2 & F3 & F4 & F5 & F6 & F7).
  pose proof (proj1 HO1) as HC. pose proof (core_new _ _ _ HC) as Hnew.
  destruct Har as [Hat Hr Hd Htk Hsl Hstop]. pose proof Hat as (Hn & Ht & Hx & Hpg).
  cbn [p_toks p_slots root_path app] in Htk, Hsl.
  assert (Hsv : slice_from value m = drop (Z.to_nat m) value) by (by rewrite slice_from_drop by lia).
  assert (Hext : extend pn (Key.from key m) (slice_from value m)
    = mkPath (key_extra key) (token_ids key) (ss ++ drop (Z.to_nat m) value)).
  { unfold extend, Key.from. cbn. rewrite Htk, Hsl, Hsv, slice_from_drop, take_drop by lia. done. }
  split.
  - done.
  - unfold with_leaf. rsimpl. by split_and!.
  - etrans; [apply Hfi|]. by apply insert_subseteq.
  - intros e ts ss'. rewrite (cached_leaf (st_ps s) P1), Hext, (fi_cached _ _ _ _ Hfi); [done|].
    intros n q Hq ->. congruence.
  - unfold leaf_paths. rewrite tree_slots_insert by done.
    destruct (core_live _ _ _ HC _ _ Hn) as [_ _].
    assert (E : node_slots (st_S (with_leaf s1 node t (Key.from key m) (slice_from value m))) (st_counter s1)
                = drop (Z.to_nat m) value).
    { unfold node_slots, with_leaf, leaf_shapes. rsimpl.
      rewrite lookup_insert_ne, lookup_insert_eq; [done|]. intros ->. congruence. }
    rewrite E. apply Permutation_app_head. rewrite <- (fi_slots _ _ _ _ Hfi).
    rewrite (tree_slots_ext _ (st_S s1)); [done|]. intros n q Hq. destruct (core_live _ _ _ HC _ _ Hq) as [u Hu].
    assert (Hfree : s_children t !! ck (st_ps s1) (Key.from key m) = None) by auto.
    destruct (with_leaf_lookup s1 P1 _ HC node t _ (slice_from value m) Ht Hfree n u Hu) as (u' & Hu' & (_ & _ & Ev & _) & _).
    unfold node_slots. rewrite Hu, Hu'. cbn. by rewrite Ev.
  - unfold with_leaf. rsimpl. rewrite key_from_len by lia. destruct (fi_size _ _ _ _ Hfi) as [-> ->]. done.
Qed.

Lemma insert_ok c P Hs key value prio :
  radix_ok (st c) P Hs → (rc_page_size c | Key.len key) → len value = Key.len key →
  ∃ c' P' m ss, Radix.insert key (Some value) prio c = (Ok m, c') ∧ radix_ok (st c') P' Hs ∧
    inserted (st c) P (st c') P' key value m ss.
Proof.
  intros HO Hpg Hv. pose proof (tree_ps _ _ _ _ (co_tree _ _ _ (proj1 HO))) as Hps. cbn in Hps.
  destruct (co_on _ _ _ (proj1 HO)) as [Hdis _]. cbn in Hdis.
  unfold Radix.insert. rewrite (bind_ok _ _ c c c) by done. rewrite Hdis. cbn [default].
  unfold Radix._insert_helper. destruct (tick_ok c) as (t0 & c1 & E1 & Es1 & _). step E1.
  destruct (at_root _ _ _ key HO Hpg) as (t & Hat). pose proof (proj1 (proj2 Hat)) as Hrt.
  change (st_root (st c)) with (rc_root c) in Hat, Hrt. rewrite <- Es1 in Hrt.
  destruct (touch_ok (rc_root c) (λ x, x <| n_last_access_time := t0 |> <| n_priority ::= λ q, Z.max q (default 0 prio) |>) t c1 Hrt)
    as (c2 & E2 & Es2); [done|]. step E2. rewrite Es1 in Es2. rewrite <- Es2 in HO, Hat |- *.
  assert (Eps : rc_page_size c2 = rc_page_size c) by (change (st_ps (st c2) = st_ps (st c)); by rewrite Es2).
  destruct (Z.eqb_spec (Key.len key) 0) as [Ek|Ek].
  { exists c2, P, 0, []. split_and!; [done..|]. rewrite <- Ek. eapply inserted_all; [done|apply finer_refl| |done].
    rewrite Ek. eapply (arrived_found _ _ _ _ _ root_path t _ _ HO). apply arrived_here; [exact Hat|lia]. }
  assert (Hk0 : 0 < Key.len key) by (unfold Key.len in *; len_pos; lia).
  rewrite (bind_ok _ _ c2 (rc_page_size c2) c2) by done.
  rewrite (bind_ok _ _ c2 (ck (rc_page_size c2) key) c2).
  2:{ unfold lift. by rewrite get_child_key_ok; [|rewrite Eps|]. }
  destruct (insert_loop_ok (S (length (token_ids key))) c2 P Hs t0 (default 0 prio) (rc_root c) root_path t key value (ck (rc_page_size c2) key) 0 HO Hat)
    as (c3 & P3 & node & pn & t' & m & ss & k' & E3 & HO3 & Hfi & Har & Hk'); [lia|done|]. step E3.
  assert (Eps3 : st_ps (st c3) = st_ps (st c2)) by (by destruct (fi_same _ _ _ _ Hfi) as (_ & ? & _)).
  assert (Hlo : longest (st_ps (st c2)) P key m ss).
  { destruct (arrived_found _ _ _ _ _ _ _ _ _ HO3 Har) as [Hlo _]. rewrite Eps3 in Hlo.
    eapply longest_iff; [|exact Hlo]. apply Hfi. }
  pose proof (ar_range _ _ _ _ _ _ _ _ _ Har) as Hr.
  pose proof (key_from_len key m Hr) as Hkl.
  destruct (Z.ltb_spec 0 (Key.len (Key.from key m))) as [Hlt|Hge]; rewrite Hkl in Hlt || rewrite Hkl in Hge.
  - rewrite (Hk' ltac:(lia)).
    destruct (add_leaf_ok c3 P3 Hs node pn t' (Key.from key m) (slice_from value m) (default 0 prio)) as (c4 & E4 & Es4); try done.
    { apply Har. }
    { rewrite key_from_len by done. lia. }
    { rewrite key_from_len, len_slice_from by (done || lia). lia. }
    { apply (ar_stop _ _ _ _ _ _ _ _ _ Har). lia. }
    step E4. exists c4, (leaf_paths P3 (rc_counter c3) pn (Key.from key m) (slice_from value m)), m, ss.
    split; [done|]. rewrite Es4. split; [|eapply inserted_rest; try done; lia].
    destruct (ar_at _ _ _ _ _ _ _ _ _ Har) as (B1 & B2 & B3 & B4).
    eapply ok_leaf; try done.
    { apply (ar_stop _ _ _ _ _ _ _ _ _ Har). lia. }
    { rewrite key_from_len by done. lia. }
    { rewrite key_from_len, len_slice_from by (done || lia). lia. }
  - assert (m = Key.len key) as -> by lia. exists c3, P3, (Key.len key), ss. split_and!; [done..|].
    by eapply inserted_all.
Qed.
End Ops.
