(* ===== verification/RadixLocks.v ===== *)
(** * Locks of the radix cache

    [inc_lock_ref] and [dec_lock_ref] walk from a node to the root.  One more
    or one less handle below every node of the way: the counters, the sizes
    and the set of evictable leaves follow. *)

From S2P Require Import Prelude HeapQ PyFloat Allocator Request ReqPool LLM42Info World Radix RadixTree RadixState RadixFacts RadixOps.

(** ** The walk to the root is shorter than the number of nodes *)

Definition walk_rank (P : gmap Z Path) (pn : Path) : nat :=
  length (filter (λ q : Z * Path, len (p_toks q.2) ≤ len (p_toks pn)) (map_to_list P)).

Lemma filter_length_lt {A} (Q R : A → Prop) `{∀ x, Decision (Q x), ∀ x, Decision (R x)} (xs : list A) y :
  (∀ x, Q x → R x) → y ∈ xs → R y → ¬ Q y → (length (filter Q xs) < length (filter R xs))%nat.
Proof.
  intros HQR Hy HRy HQy. assert (Hle : ∀ ys, (length (filter Q ys) ≤ length (filter R ys))%nat).
  { intros ys. induction ys as [|z ys IH]; [done|]. rewrite !filter_cons.
    destruct (decide (Q z)); destruct (decide (R z)); cbn; [lia|naive_solver|lia|lia]. }
  induction xs as [|z xs IH]; [by apply not_elem_of_nil in Hy|]. rewrite !filter_cons.
  apply elem_of_cons in Hy as [->|Hy].
  - rewrite decide_False, decide_True by done. cbn. specialize (Hle xs). lia.
  - specialize (IH Hy). destruct (decide (Q z)); destruct (decide (R z)); cbn; [lia|naive_solver|lia|lia].
Qed.

Lemma walk_parent P n pn pp :
  P !! n = Some pn → len (p_toks pp) < len (p_toks pn) → (walk_rank P pp < walk_rank P pn)%nat.
Proof.
  intros Hn Hlt. unfold walk_rank. apply (filter_length_lt _ _ _ (n, pn)).
  - intros [m q]. cbn. lia.
  - by apply elem_of_map_to_list.
  - cbn. lia.
  - cbn. lia.
Qed.

Lemma walk_pos P n pn : P !! n = Some pn → (0 < walk_rank P pn)%nat.
Proof.
  intros Hn. unfold walk_rank. assert (Hin : (n, pn) ∈ filter (λ q : Z * Path, len (p_toks q.2) ≤ len (p_toks pn)) (map_to_list P)).
  { apply list_elem_of_filter. split; [done|]. by apply elem_of_map_to_list. }
  destruct (filter _ _); [by apply not_elem_of_nil in Hin|]. cbn. lia.
Qed.

Lemma walk_le c P lk pn : core (st c) P lk → (walk_rank P pn ≤ base.size (rc_nodes c))%nat.
Proof.
  intros HC. unfold walk_rank. trans (length (map_to_list P)).
  { apply length_filter. }
  change (length (map_to_list P)) with (base.size P) || rewrite length_map_to_list.
  rewrite <- !size_dom. apply subseteq_size. intros n [q Hq]%elem_of_dom.
  destruct (core_live _ _ _ HC _ _ Hq) as [t Ht]. destruct (node_of_shape _ _ _ Ht) as (x & Hx & _).
  by apply elem_of_dom.
Qed.

(** ** One node *)

(** What a change of locks leaves alone *)
Record relocked (s s' : State) : Prop := {
  rk_same : st_root s' = st_root s ∧ st_ps s' = st_ps s ∧ st_counter s' = st_counter s ∧
            st_disable s' = st_disable s ∧ st_events s' = st_events s ∧
            st_no_insert s' = st_no_insert s ∧ st_strategy s' = st_strategy s;
  rk_slots : ∀ n, node_slots (st_S s') n = node_slots (st_S s) n;
  rk_size : st_evictable s' + st_protected s' = st_evictable s + st_protected s
}.

Lemma relocked_refl s : relocked s s.
Proof. by split. Qed.

Lemma relocked_trans s s1 s2 : relocked s s1 → relocked s1 s2 → relocked s s2.
Proof.
  intros [A1 A2 A3] [B1 B2 B3]. destruct_and!. split; [split_and!; congruence| |lia].
  intros n. by rewrite B2.
Qed.

Lemma seq_ok {S A B D} (m : M S A) (n : M S B) (k : B → M S D) s b s' :
  (m;; n) s = (Ok b, s') → (m;; (n ≫= k)) s = k b s'.
Proof. unfold mbind, M_bind. destruct (m s) as [[a|e] s1]; [|done]. by intros ->. Qed.

Section Locks.
Context `{Runtime}.
Implicit Types c : RadixCache.

(** The sizes after the lock count of [n] went from [j] to [k] *)
Lemma relock_sizes s P lk n pn t k :
  core s P lk → P !! n = Some pn → st_S s !! n = Some t →
  st_evictable (relock s P n t k)
  = st_evictable s - (if unlocked (s_lock t) then Key.len (s_key t) else 0) + (if unlocked k then Key.len (s_key t) else 0) ∧
  st_protected (relock s P n t k)
  = st_protected s - (if is_locked (s_lock t) then Key.len (s_key t) else 0) + (if is_locked k then Key.len (s_key t) else 0).
Proof.
  intros HC Hn Ht. unfold relock. rsimpl.
  rewrite !(total_weight_insert s P _ n pn t _ Hn Ht), (co_evictable _ _ _ HC), (co_protected _ _ _ HC). by rsimpl.
Qed.

Lemma relock_relocked s P lk n pn t k :
  core s P lk → P !! n = Some pn → st_S s !! n = Some t → relocked s (relock s P n t k).
Proof.
  intros HC Hn Ht. destruct (relock_sizes s P lk n pn t k HC Hn Ht) as [E1 E2]. split.
  - unfold relock. rsimpl. done.
  - intros m. unfold relock, node_slots. rsimpl. destruct (decide (m = n)) as [->|Hm].
    + rewrite lookup_insert_eq, Ht. cbn. by rsimpl.
    + by rewrite lookup_insert_ne.
  - rewrite E1, E2. unfold is_locked. destruct (unlocked (s_lock t)), (unlocked k); cbn; lia.
Qed.

(** The lock count is written and the leaf status brought up to date, when
    the sizes already are. *)
Lemma set_lock_ok c c1 P lk n pn t k f :
  core (st c) P lk → P !! n = Some pn → n ≠ rc_root c → st_S (st c) !! n = Some t → 0 ≤ k →
  (∀ x, shape x = t → shape (f x) = t <| s_lock := k |>) →
  st c1 = (st c) <| st_evictable := st_evictable (relock (st c) P n t k) |>
                 <| st_protected := st_protected (relock (st c) P n t k) |> →
  ∃ c', (Radix.upd_node n f;; Radix._update_leaf_status n) c1 = (Ok tt, c') ∧ st c' = relock (st c) P n t k.
Proof.
  intros HC Hn Hr Ht Hk Hf Es1. pose proof (co_tree _ _ _ HC) as HT.
  assert (Ht1 : st_S (st c1) !! n = Some t) by (by rewrite Es1).
  destruct (node_of_shape _ _ _ Ht1) as (x & Hx & Ex).
  rewrite (upd_node_bind n f x c1 _ Hx).
  match goal with |- context [upd rc_nodes ?g c1] => set (c2 := upd rc_nodes g c1) end.
  assert (Es2 : st c2 = (st c1) <| st_S ::= <[n := t <| s_lock := k |>]> |>).
  { unfold c2. rewrite st_nodes. by rewrite (Hf x Ex). }
  assert (ES2 : st_S (st c2) = <[n := t <| s_lock := k |>]> (st_S (st c))) by (by rewrite Es2, Es1).
  pose proof (tree_lock _ _ _ _ n t k HT Ht Hr) as HT2.
  destruct (live_value _ _ _ _ _ _ _ HT Hn Ht) as [v Hv].
  assert (Ht2 : st_S (st c2) !! n = Some (t <| s_lock := k |>)) by (by rewrite ES2, lookup_insert_eq).
  destruct (update_leaf_ok c2 n (t <| s_lock := k |>) v Ht2 Hv) as (c3 & E3 & _ & Es3).
  { intros key d Hd. rewrite ES2 in Ht2 |- *. by eapply (child_value _ _ _ _ _ _ _ _ _ HT2 Hn Ht2). }
  exists c3. split; [done|]. rewrite Es3, Es2, Es1. unfold relock. apply state_ext; rsimpl; try done.
  assert (Eb : bool_decide (childless (t <| s_lock := k |>)) = bool_decide (k = 0 ∧ s_children t = ∅)).
  { apply bool_decide_ext. unfold childless. rsimpl. split; intros [? ?]; (split; [lia|done]). }
  by rewrite Eb.
Qed.

(** ** The walks *)

(** [lk] with one more handle at a node with path [pn] *)
Definition bump (d : Z) (pn : Path) (lk : Path → Z) : Path → Z :=
  λ q, lk q + if decide (covers q pn) then d else 0.

(** The locks of the node itself, then those of the way to its parent *)
Lemma bump_step s P lk n pn l d :
  tree (st_ps s) (st_root s) (st_S s) P → P !! n = Some pn → n ≠ st_root s →
  linked (st_ps s) (st_root s) (st_S s) P n pn l →
  ∀ a pa, P !! a = Some pa → a ≠ st_root s →
  bump d (l_pp l) (λ q, if decide (q = pn) then lk pn + d else lk q) pa = bump d pn lk pa.
Proof.
  intros HT Hn Hr HL a pa Ha Har. unfold bump.
  pose proof (covers_step _ _ _ _ HT n pn l a pa Hn Hr HL Ha Har) as Hcs.
  pose proof (linked_len _ _ _ _ _ _ _ HL) as Hlen. pose proof (ln_pos _ _ _ _ _ _ _ HL) as Hpos.
  destruct (decide (pa = pn)) as [->|Hne].
  - rewrite (decide_True (P := covers pn pn)) by (by split).
    rewrite decide_False; [lia|]. intros [_ [r E]]. apply (f_equal len) in E. rewrite len_app in E.
    pose proof (len_nonneg r). lia.
  - destruct (decide (covers pa pn)) as [Hc|Hc].
    + rewrite decide_True; [done|]. apply Hcs in Hc as [->|[? _]]; [congruence|done].
    + rewrite decide_False; [done|]. intros Hc'. apply Hc, Hcs. right. split; [done|]. intros E.
      pose proof (ln_ppath _ _ _ _ _ _ _ HL) as Ep. rewrite E, (tree_root _ _ _ _ HT) in Ep. injection Ep as Ep.
      rewrite <- Ep in Hc'. destruct Hc' as [_ Hp]. cbn in Hp. apply prefix_nil_inv in Hp.
      pose proof (path_nonroot _ _ _ _ HT _ _ Ha Har) as Hl. rewrite Hp, len_nil in Hl.
      pose proof (tree_ps _ _ _ _ HT). lia.
Qed.

Lemma bump_root s P lk d :
  tree (st_ps s) (st_root s) (st_S s) P →
  ∀ a pa, P !! a = Some pa → a ≠ st_root s → lk pa = bump d root_path lk pa.
Proof.
  intros HT a pa Ha Har. unfold bump. rewrite decide_False; [lia|]. intros [_ Hp]. cbn in Hp.
  apply prefix_nil_inv in Hp. pose proof (path_nonroot _ _ _ _ HT _ _ Ha Har) as Hl. rewrite Hp, len_nil in Hl.
  pose proof (tree_ps _ _ _ _ HT). lia.
Qed.

(** What is on the way to the parent is on the way to the node. *)
Lemma covers_up s P n pn l a pa :
  tree (st_ps s) (st_root s) (st_S s) P → P !! n = Some pn → n ≠ st_root s →
  linked (st_ps s) (st_root s) (st_S s) P n pn l → P !! a = Some pa → a ≠ st_root s →
  covers pa (l_pp l) → covers pa pn ∧ pa ≠ pn.
Proof.
  intros HT Hn Hr HL Ha Har Hc. pose proof (linked_len _ _ _ _ _ _ _ HL) as Hlen.
  pose proof (ln_pos _ _ _ _ _ _ _ HL) as Hpos. destruct Hc as [He [r Er]].
  pose proof (path_nonroot _ _ _ _ HT _ _ Ha Har) as Hl. pose proof (tree_ps _ _ _ _ HT) as Hps.
  assert (Hll : len (p_toks pa) ≤ len (p_toks (l_pp l))) by (rewrite Er; llia). split.
  - apply (covers_step _ _ _ _ HT n pn l a pa Hn Hr HL Ha Har). right. split; [by split; [|exists r]|].
    apply (parent_nonroot _ _ _ _ HT _ _ _ HL). lia.
  - intros ->. lia.
Qed.

(** The state after one node, where the walk goes on *)
Lemma walk_up c c2 P lk n pn l d :
  core (st c) P lk → P !! n = Some pn → n ≠ rc_root c →
  linked (rc_page_size c) (rc_root c) (st_S (st c)) P n pn l →
  st c2 = relock (st c) P n (l_s l) (lk pn + d) →
  core (st c2) P (λ q, if decide (q = pn) then lk pn + d else lk q) ∧ relocked (st c) (st c2) ∧
  P !! l_p l = Some (l_pp l) ∧ (walk_rank P (l_pp l) < walk_rank P pn)%nat ∧
  ∀ c3, core (st c3) P (bump d (l_pp l) (λ q, if decide (q = pn) then lk pn + d else lk q)) →
        relocked (st c2) (st c3) → core (st c3) P (bump d pn lk).
Proof.
  intros HC Hn Hr HL Es2. pose proof (co_tree _ _ _ HC) as HT. pose proof (ln_shape _ _ _ _ _ _ _ HL) as Ht.
  pose proof (linked_len _ _ _ _ _ _ _ HL). pose proof (ln_pos _ _ _ _ _ _ _ HL).
  assert (Hrk : relocked (st c) (st c2)) by (rewrite Es2; by eapply relock_relocked).
  split_and!; [|done|by apply HL|by apply (walk_parent P n); [|lia]|].
  - rewrite Es2. by apply core_relock.
  - intros c3 HC3 Hrk3. eapply core_ext; [exact HC3|]. intros a pa Ha Har.
    destruct (rk_same _ _ (relocked_trans _ _ _ Hrk Hrk3)) as (Er & _). rewrite Er in Har.
    by apply (bump_step (st c) P lk n pn l d HT Hn Hr HL a pa Ha Har).
Qed.

Lemma inc_loop_ok fuel : ∀ c P lk n pn delta,
  core (st c) P lk → P !! n = Some pn → (walk_rank P pn ≤ fuel)%nat →
  (∀ a pa, P !! a = Some pa → a ≠ rc_root c → covers pa pn → 0 ≤ lk pa) →
  ∃ c', Radix.inc_loop fuel (Some n) delta c
        = (Ok (delta + (st_evictable (st c') - st_evictable (st c))), c') ∧
    core (st c') P (bump 1 pn lk) ∧ relocked (st c) (st c').
Proof.
  induction fuel as [|fuel IH]; intros c P lk n pn delta HC Hn Hf Hlk.
  { pose proof (walk_pos P n pn Hn). lia. }
  pose proof (co_tree _ _ _ HC) as HT. cbn [Radix.inc_loop]. rewrite (bind_ok _ _ c c c) by done.
  destruct (decide (n = rc_root c)) as [->|Hr].
  { rewrite bool_decide_true by done. exists c. split; [by rewrite Z.sub_diag, Z.add_0_r|].
    split; [|apply relocked_refl]. change (rc_root c) with (st_root (st c)) in Hn.
    rewrite (tree_root _ _ _ _ HT) in Hn. injection Hn as <-. eapply core_ext; [exact HC|]. by apply bump_root. }
  rewrite bool_decide_false by congruence.
  destruct (tree_linked _ _ _ _ HT n pn Hn Hr) as (l & HL). pose proof (ln_shape _ _ _ _ _ _ _ HL) as Ht.
  rewrite (bind_ok _ _ c n c) by done. destruct (node_at_shape _ _ _ Ht) as (x & Ex & Esx). step Ex.
  assert (Ek : n_key x = s_key (l_s l)) by (by rewrite <- Esx).
  assert (El : n_lock_ref x = s_lock (l_s l)) by (by rewrite <- Esx).
  assert (Ep : n_parent x = Some (l_p l)) by (rewrite <- (ln_parent _ _ _ _ _ _ _ HL), <- Esx; done).
  pose proof (co_lock _ _ _ HC n pn _ Hn Ht Hr) as Hlock.
  assert (H0 : 0 ≤ s_lock (l_s l)) by (rewrite Hlock; apply (Hlk n pn Hn Hr); by split).
  destruct (relock_sizes (st c) P lk n pn _ (s_lock (l_s l) + 1) HC Hn Ht) as [Se Sp].
  unfold is_locked, unlocked in Se, Sp. rewrite El, Ek.
  match goal with |- (?mm ≫= _) c = _ => idtac | |- ∃ c', (?mm ≫= _) c = _ ∧ _ =>
    assert (Hm : ∃ c1, mm c = (Ok (delta + (st_evictable (relock (st c) P n (l_s l) (s_lock (l_s l) + 1)) - st_evictable (st c))), c1) ∧
      st c1 = (st c) <| st_evictable := st_evictable (relock (st c) P n (l_s l) (s_lock (l_s l) + 1)) |>
                     <| st_protected := st_protected (relock (st c) P n (l_s l) (s_lock (l_s l) + 1)) |>) end.
  { rewrite Se, Sp. destruct (Z.eqb_spec (s_lock (l_s l)) 0) as [E0|E0]; destruct (Z.eqb_spec (s_lock (l_s l) + 1) 0); try lia;
      cbn [negb]; eexists; (split; [apply (f_equal2 pair); [apply (f_equal Ok); lia|reflexivity]|]);
      apply state_ext; rsimpl; unfold st; rsimpl; cbn; try done; lia. }
  destruct Hm as (c1 & E1 & Es1). step E1.
  destruct (set_lock_ok c c1 P lk n pn (l_s l) (s_lock (l_s l) + 1) (λ x, x <| n_lock_ref ::= λ k, k + 1 |>) HC Hn Hr Ht ltac:(lia)) as (c2 & E2 & Es2).
  { intros y Ey. rewrite <- Ey. done. }
  { done. }
  rewrite (seq_ok _ _ _ _ _ _ E2), Ep.
  destruct (walk_up c c2 P lk n pn l 1 HC Hn Hr HL) as (HC2 & Hrk & Hn2 & Hrank & Hcore); [by rewrite Es2, Hlock|].
  destruct (IH c2 P (λ q, if decide (q = pn) then lk pn + 1 else lk q) (l_p l) (l_pp l)
    (delta + (st_evictable (relock (st c) P n (l_s l) (s_lock (l_s l) + 1)) - st_evictable (st c))) HC2 Hn2 ltac:(lia))
    as (c3 & E3 & HC3 & Hrk3).
  { intros a pa Ha Har Hc. assert (Har' : a ≠ st_root (st c)) by (destruct (rk_same _ _ Hrk) as (<- & _); exact Har).
    destruct (covers_up (st c) P n pn l a pa HT Hn Hr HL Ha Har' Hc) as [Hc' Hne].
    rewrite decide_False by done. by apply (Hlk a pa Ha). }
  exists c3. split_and!; [|by apply Hcore|by eapply relocked_trans].
  rewrite E3, Es2. f_equal. f_equal. lia.
Qed.

Lemma dec_loop_ok fuel : ∀ c P lk n pn delta,
  core (st c) P lk → P !! n = Some pn → (walk_rank P pn ≤ fuel)%nat →
  (∀ a pa, P !! a = Some pa → a ≠ rc_root c → covers pa pn → 1 ≤ lk pa) →
  ∃ c', Radix.dec_loop fuel (Some n) delta c
        = (Ok (delta + (st_evictable (st c') - st_evictable (st c))), c') ∧
    core (st c') P (bump (-1) pn lk) ∧ relocked (st c) (st c').
Proof.
  induction fuel as [|fuel IH]; intros c P lk n pn delta HC Hn Hf Hlk.
  { pose proof (walk_pos P n pn Hn). lia. }
  pose proof (co_tree _ _ _ HC) as HT. cbn [Radix.dec_loop]. rewrite (bind_ok _ _ c c c) by done.
  destruct (decide (n = rc_root c)) as [->|Hr].
  { rewrite bool_decide_true by done. exists c. split; [by rewrite Z.sub_diag, Z.add_0_r|].
    split; [|apply relocked_refl]. change (rc_root c) with (st_root (st c)) in Hn.
    rewrite (tree_root _ _ _ _ HT) in Hn. injection Hn as <-. eapply core_ext; [exact HC|]. by apply bump_root. }
  rewrite bool_decide_false by congruence.
  destruct (tree_linked _ _ _ _ HT n pn Hn Hr) as (l & HL). pose proof (ln_shape _ _ _ _ _ _ _ HL) as Ht.
  rewrite (bind_ok _ _ c n c) by done. destruct (node_at_shape _ _ _ Ht) as (x & Ex & Esx). step Ex.
  assert (Ek : n_key x = s_key (l_s l)) by (by rewrite <- Esx).
  assert (El : n_lock_ref x = s_lock (l_s l)) by (by rewrite <- Esx).
  assert (Ep : n_parent x = Some (l_p l)) by (rewrite <- (ln_parent _ _ _ _ _ _ _ HL), <- Esx; done).
  pose proof (co_lock _ _ _ HC n pn _ Hn Ht Hr) as Hlock.
  assert (H0 : 1 ≤ s_lock (l_s l)) by (rewrite Hlock; apply (Hlk n pn Hn Hr); by split).
  destruct (relock_sizes (st c) P lk n pn _ (s_lock (l_s l) + -1) HC Hn Ht) as [Se Sp].
  unfold is_locked, unlocked in Se, Sp. rewrite El, Ek.
  match goal with |- ∃ c', (?mm ≫= _) c = _ ∧ _ =>
    assert (Hm : ∃ c1, mm c = (Ok (delta + (st_evictable (relock (st c) P n (l_s l) (s_lock (l_s l) + -1)) - st_evictable (st c))), c1) ∧
      st c1 = (st c) <| st_evictable := st_evictable (relock (st c) P n (l_s l) (s_lock (l_s l) + -1)) |>
                     <| st_protected := st_protected (relock (st c) P n (l_s l) (s_lock (l_s l) + -1)) |>) end.
  { rewrite Se, Sp. destruct (Z.eqb_spec (s_lock (l_s l)) 1) as [E0|E0]; destruct (Z.eqb_spec (s_lock (l_s l) + -1) 0);
      destruct (Z.eqb_spec (s_lock (l_s l)) 0); try lia;
      cbn [negb]; eexists; (split; [apply (f_equal2 pair); [apply (f_equal Ok); lia|reflexivity]|]);
      apply state_ext; rsimpl; unfold st; rsimpl; cbn; try done; lia. }
  destruct Hm as (c1 & E1 & Es1). step E1.
  destruct (set_lock_ok c c1 P lk n pn (l_s l) (s_lock (l_s l) + -1) (λ x, x <| n_lock_ref ::= λ k, k - 1 |>) HC Hn Hr Ht ltac:(lia)) as (c2 & E2 & Es2).
  { intros y Ey. rewrite <- Ey. done. }
  { done. }
  rewrite (seq_ok _ _ _ _ _ _ E2), Ep.
  destruct (walk_up c c2 P lk n pn l (-1) HC Hn Hr HL) as (HC2 & Hrk & Hn2 & Hrank & Hcore); [by rewrite Es2, Hlock|].
  destruct (IH c2 P (λ q, if decide (q = pn) then lk pn + -1 else lk q) (l_p l) (l_pp l)
    (delta + (st_evictable (relock (st c) P n (l_s l) (s_lock (l_s l) + -1)) - st_evictable (st c))) HC2 Hn2 ltac:(lia))
    as (c3 & E3 & HC3 & Hrk3).
  { intros a pa Ha Har Hc. assert (Har' : a ≠ st_root (st c)) by (destruct (rk_same _ _ Hrk) as (<- & _); exact Har).
    destruct (covers_up (st c) P n pn l a pa HT Hn Hr HL Ha Har' Hc) as [Hc' Hne].
    rewrite decide_False by done. by apply (Hlk a pa Ha). }
  exists c3. split_and!; [|by apply Hcore|by eapply relocked_trans].
  rewrite E3, Es2. f_equal. f_equal. lia.
Qed.

Lemma radix_ok_perm s P Hs Hs' : radix_ok s P Hs → Hs ≡ₚ Hs' → radix_ok s P Hs'.
Proof.
  intros [HC HH] E. split; [|intros h Hh; apply HH; by rewrite E].
  eapply core_ext; [exact HC|]. intros n pn _ _. by apply count_perm.
Qed.

Lemma bump_count P Hs n pn q : P !! n = Some pn → bump 1 pn (count P Hs) q = count P (n :: Hs) q.
Proof.
  intros Hn. unfold bump. rewrite count_cons. unfold holds. rewrite Hn, Z.add_comm. f_equal.
  destruct (decide (covers q pn)) as [Hc|Hc]; [by rewrite bool_decide_true|by rewrite bool_decide_false].
Qed.

Lemma inc_lock_ref_ok c P Hs n pn :
  radix_ok (st c) P Hs → P !! n = Some pn →
  ∃ c', Radix.inc_lock_ref (Some n) c = (Ok (st_evictable (st c') - st_evictable (st c)), c') ∧
    radix_ok (st c') P (n :: Hs) ∧ relocked (st c) (st c').
Proof.
  intros [HC HH] Hn. destruct (co_on _ _ _ HC) as [Hdis _]. cbn in Hdis.
  unfold Radix.inc_lock_ref. rewrite (bind_ok _ _ c c c) by done. rewrite Hdis.
  destruct (inc_loop_ok (S (base.size (rc_nodes c))) c P _ n pn 0 HC Hn) as (c' & E & HC' & Hrk).
  { pose proof (walk_le _ _ _ pn HC). lia. }
  { intros a pa _ _ _. apply count_nonneg. }
  exists c'. split_and!; [done| |done]. split.
  - eapply core_ext; [exact HC'|]. intros a pa _ _. by apply bump_count.
  - intros h [->|Hh]%elem_of_cons; [by rewrite Hn|by apply HH].
Qed.

Lemma dec_lock_ref_ok c P Hs n :
  radix_ok (st c) P (n :: Hs) →
  ∃ c', Radix.dec_lock_ref (Some n) c = (Ok (st_evictable (st c') - st_evictable (st c)), c') ∧
    radix_ok (st c') P Hs ∧ relocked (st c) (st c').
Proof.
  intros [HC HH]. destruct (HH n) as [pn Hn]; [apply list_elem_of_here|].
  destruct (co_on _ _ _ HC) as [Hdis _]. cbn in Hdis.
  unfold Radix.dec_lock_ref. rewrite (bind_ok _ _ c c c) by done. rewrite Hdis.
  destruct (dec_loop_ok (S (base.size (rc_nodes c))) c P _ n pn 0 HC Hn) as (c' & E & HC' & Hrk).
  { pose proof (walk_le _ _ _ pn HC). lia. }
  { intros a pa Ha _ Hc. rewrite <- (bump_count P Hs n pn pa Hn). unfold bump. rewrite decide_True by done.
    pose proof (count_nonneg P Hs pa). lia. }
  exists c'. split_and!; [done| |done]. split.
  - eapply core_ext; [exact HC'|]. intros a pa _ _. unfold bump at 1.
    rewrite <- (bump_count P Hs n pn pa Hn). unfold bump. destruct (decide (covers pa pn)); lia.
  - intros h Hh. apply HH. by apply list_elem_of_further.
Qed.
End Locks.
