(* ===== verification/RadixEvict.v ===== *)
(** * Eviction from the radix cache

    [evict] takes evictable leaves in the order of the eviction strategy: it
    refines the relation [evicts], which at each step deletes a leaf that no
    other evictable leaf comes before.  The heap is an implementation
    detail. *)

From S2P Require Import Prelude HeapQ PyFloat Allocator AllocatorFacts Request ReqPool LLM42Info World MemCommon CacheLaws Radix RadixTree RadixState RadixFacts RadixOps RadixLocks.

(** ** The order of entries *)

Lemma tuple_lt_irrefl xs : tuple_lt xs xs = false.
Proof. induction xs as [|x xs IH]; [done|]. cbn. by rewrite Z.eqb_refl. Qed.

Lemma tuple_lt_asym xs ys : tuple_lt xs ys = true → tuple_lt ys xs = false.
Proof.
  revert ys. induction xs as [|x xs IH]; intros [|y ys]; cbn; try done.
  rewrite (Z.eqb_sym y x). destruct (Z.eqb_spec x y); [apply IH|lia].
Qed.

Lemma tuple_lt_total xs ys : tuple_lt xs ys = false → tuple_lt ys xs = false → xs = ys.
Proof.
  revert ys. induction xs as [|x xs IH]; intros [|y ys]; cbn; try done.
  rewrite (Z.eqb_sym y x). destruct (Z.eqb_spec x y) as [->|Hne]; [|lia]. intros H1 H2. f_equal. by apply IH.
Qed.

Lemma tuple_lt_trans xs ys zs : tuple_lt xs ys = true → tuple_lt ys zs = true → tuple_lt xs zs = true.
Proof.
  revert ys zs. induction xs as [|x xs IH]; intros [|y ys] [|z zs]; cbn; try done.
  destruct (Z.eqb_spec x y) as [->|Hxy], (Z.eqb_spec y z) as [->|Hyz]; rewrite ?Z.eqb_refl.
  - apply IH.
  - intros _ Hlt. destruct (Z.eqb_spec y z); [lia|done].
  - intros Hlt _. destruct (Z.eqb_spec x z); [lia|done].
  - intros H1 H2. destruct (Z.eqb_spec x z); lia.
Qed.

Lemma entry_lt_asym a b : entry_lt a b = true → entry_lt b a = false.
Proof.
  unfold entry_lt. destruct (decide (e_priority a = e_priority b)) as [E|E].
  - rewrite !bool_decide_true by done. lia.
  - rewrite !bool_decide_false by done. apply tuple_lt_asym.
Qed.

Lemma entry_le_trans a b d : entry_lt b a = false → entry_lt d b = false → entry_lt d a = false.
Proof.
  unfold entry_lt. destruct (decide (e_priority b = e_priority a)) as [E1|E1]; destruct (decide (e_priority d = e_priority b)) as [E2|E2].
  - rewrite !bool_decide_true by congruence. lia.
  - rewrite bool_decide_true, !bool_decide_false by congruence. by rewrite E1.
  - rewrite bool_decide_false, bool_decide_true, bool_decide_false by congruence. intros H1 _. by rewrite E2.
  - rewrite !(bool_decide_false (_ = _)) by congruence. intros H1 H2. case_bool_decide as E3.
    + exfalso. apply E1. rewrite E3 in H2. by apply tuple_lt_total.
    + destruct (tuple_lt (e_priority d) (e_priority a)) eqn:E; [|done].
      destruct (tuple_lt (e_priority a) (e_priority b)) eqn:E'.
      * by rewrite (tuple_lt_trans _ _ _ E E') in H2.
      * exfalso. apply E1. by apply tuple_lt_total.
Qed.

(** ** Deleting a leaf *)

Section Evict.
Context `{Runtime}.
Implicit Types c : RadixCache.

(** The entry of a node in the eviction heap *)
Definition entry_of c (n : Z) : option Entry :=
  (λ x, mkEntry (get_priority (rc_strategy c) x) (n_last_access_time x) n) <$> rc_nodes c !! n.

Lemma leaf_link c P Hs n :
  radix_ok (st c) P Hs → n ∈ rc_evictable_leaves c →
  ∃ pn l, P !! n = Some pn ∧ n ≠ rc_root c ∧ linked (rc_page_size c) (rc_root c) (st_S (st c)) P n pn l ∧
    s_children (l_s l) = ∅ ∧ s_lock (l_s l) = 0.
Proof.
  intros [HC _] Hn. apply (co_leaves _ _ _ HC n) in Hn as (Hr & [pn Hpn] & t & Ht & Hl & Hc).
  destruct (tree_linked _ _ _ _ (co_tree _ _ _ HC) _ _ Hpn Hr) as (l & HL).
  pose proof (ln_shape _ _ _ _ _ _ _ HL) as E. rewrite Ht in E. injection E as ->. by exists pn, l.
Qed.

Lemma delete_leaf_ok c P Hs n pn l :
  radix_ok (st c) P Hs → P !! n = Some pn → n ≠ rc_root c →
  linked (rc_page_size c) (rc_root c) (st_S (st c)) P n pn l →
  s_children (l_s l) = ∅ → s_lock (l_s l) = 0 →
  ∃ c', Radix._delete_leaf n c = (Ok tt, c') ∧ st c' = pruned (st c) n l ∧
    ∀ m, entry_of c' m = entry_of c m.
Proof.
  intros HO Hn Hr HL Hch Hlk. pose proof (proj1 HO) as HC. pose proof (co_tree _ _ _ HC) as HT.
  pose proof (tree_ps _ _ _ _ HT) as Hps. cbn in Hps.
  pose proof (parent_ne _ _ _ _ _ _ _ HT HL Hn) as Hpn.
  destruct (node_of_shape _ _ _ (ln_shape _ _ _ _ _ _ _ HL)) as (x & Hx & Ex).
  destruct (node_of_shape _ _ _ (ln_pshape _ _ _ _ _ _ _ HL)) as (px & Hpx & Epx).
  assert (Ep : n_parent x = Some (l_p l)) by (rewrite <- (ln_parent _ _ _ _ _ _ _ HL), <- Ex; done).
  assert (Ek : n_key x = s_key (l_s l)) by (by rewrite <- Ex).
  assert (Epc : n_children px = s_children (l_ps l)) by (by rewrite <- Epx).
  unfold Radix._delete_leaf. rewrite (bind_ok _ _ _ _ _ (node_at_ok _ _ _ Hx)).
  rewrite (bind_ok _ _ c (rc_page_size c) c) by done. rewrite Ek.
  rewrite (bind_ok _ _ c (ck (rc_page_size c) (s_key (l_s l))) c).
  2:{ unfold lift. rewrite get_child_key_ok; [done|done|apply HL]. }
  rewrite (bind_ok _ _ c (l_p l) c) by (by rewrite Ep).
  rewrite (bind_ok _ _ _ _ _ (node_at_ok _ _ _ Hpx)). rewrite (upd_node_bind (l_p l) _ px c _ Hpx).
  match goal with |- context [upd rc_nodes ?g c] => set (c1 := upd rc_nodes g c) end.
  rewrite (bind_ok _ _ c1 tt c1).
  2:{ unfold assert_. rewrite Epc, (ln_child _ _ _ _ _ _ _ HL). by rewrite bool_decide_true. }
  set (c2 := c1 <| rc_evictable_size ::= λ k, k - Key.len (s_key (l_s l)) |>
                <| rc_evictable_leaves ::= λ s, s ∖ {[n]} |>).
  rewrite (bind_ok _ _ c1 tt c2) by done.
  assert (ES : st_S (st c2) = pruned_shapes (rc_page_size c) (st_S (st c)) l).
  { change (st_S (st c2)) with (st_S (st c1)). unfold c1. rewrite st_nodes. unfold pruned_shapes. rsimpl.
    f_equal. by rewrite <- Epx. }
  pose proof (tree_delete_leaf _ _ _ _ HT n pn l Hr HL Hch) as HT'.
  assert (Htp : st_S (st c2) !! l_p l = Some ((l_ps l) <| s_children ::= delete (ck (rc_page_size c) (s_key (l_s l))) |>)).
  { rewrite ES. unfold pruned_shapes. by rewrite lookup_insert_eq. }
  assert (Hpp : pruned_paths P n !! l_p l = Some (l_pp l)).
  { unfold pruned_paths. rewrite lookup_delete_ne; [apply HL|done]. }
  rewrite ES in Htp. destruct (live_value _ _ _ _ _ _ _ HT' Hpp Htp) as [v Hv].
  destruct (update_leaf_ok c2 (l_p l) _ v ltac:(rewrite ES; exact Htp) Hv) as (c3 & E3 & En3 & Es3).
  { rewrite ES. intros k d. by apply (child_value _ _ _ _ _ _ _ _ _ HT' Hpp Htp). }
  exists c3. split_and!; [done| |].
  - rewrite Es3. assert (0 ≤ s_lock (l_ps l)).
    { destruct (decide (l_p l = rc_root c)) as [E|E].
      - destruct (tree_root_shape _ _ _ _ HT) as (t & Ht & _ & _ & _ & H1). change (st_root (st c)) with (rc_root c) in Ht.
        rewrite <- E, (ln_pshape _ _ _ _ _ _ _ HL) in Ht. injection Ht as ->. lia.
      - rewrite (co_lock _ _ _ HC _ _ _ (ln_ppath _ _ _ _ _ _ _ HL) (ln_pshape _ _ _ _ _ _ _ HL) E). apply count_nonneg. }
    apply state_ext; unfold pruned; rsimpl; try exact ES; try done.
    match goal with |- context [bool_decide (childless ?t)] => assert (Eb : bool_decide (childless t) = bool_decide (s_lock (l_ps l) = 0 ∧ rest_children (st c) l = ∅)) end.
    { apply bool_decide_ext. unfold childless, rest_children. rsimpl. split; intros [? ?]; (split; [lia|done]). }
    rewrite Eb. done.
  - intros m. unfold entry_of. rewrite En3. change (rc_nodes c2) with (rc_nodes c1).
    replace (rc_strategy c3) with (rc_strategy c) by (change (st_strategy (st c) = st_strategy (st c3)); by rewrite Es3).
    unfold c1. rsimpl. destruct (decide (m = l_p l)) as [->|Hm].
    + rewrite lookup_insert_eq, Hpx. cbn. by destruct (rc_strategy c).
    + by rewrite lookup_insert_ne.
Qed.

(** ** The policy *)

(** No evictable leaf comes before [n]. *)
Definition first_leaf c (n : Z) : Prop :=
  n ∈ rc_evictable_leaves c ∧
  ∀ m em en, m ∈ rc_evictable_leaves c → entry_of c m = Some em → entry_of c n = Some en →
             entry_lt em en = false.

(** The leaves [ns] are deleted one after the other, each the first of its
    time. *)
Inductive evicts : RadixCache → list Z → RadixCache → Prop :=
| evicts_done c : evicts c [] c
| evicts_leaf c n c1 ns c2 :
    first_leaf c n → Radix._delete_leaf n c = (Ok tt, c1) → evicts c1 ns c2 → evicts c (n :: ns) c2.

(** The heap holds the entries of the evictable leaves. *)
Definition heap_ok c (h : list Entry) : Prop :=
  heap_from entry_lt 0 h ∧ e_node <$> h ≡ₚ elements (rc_evictable_leaves c) ∧
  ∀ e, e ∈ h → entry_of c (e_node e) = Some e.

Lemma heap_ok_first c h e h' :
  heap_ok c h → HeapQ.heappop entry_lt h = Some (e, h') →
  first_leaf c (e_node e) ∧ heap_from entry_lt 0 h' ∧
  e_node e :: (e_node <$> h') ≡ₚ elements (rc_evictable_leaves c) ∧ e ∈ h ∧ (∀ e', e' ∈ h' → e' ∈ h).
Proof.
  intros (Hh & Hp & He) Epop. pose proof (heappop_perm entry_lt h) as Hperm. rewrite Epop in Hperm.
  destruct (heappop_heap entry_lt entry_lt_asym entry_le_trans h e h' Hh Epop) as [Hh' Hmin].
  assert (Hin : e ∈ h) by (rewrite <- Hperm; apply list_elem_of_here). split_and!.
  - split.
    + apply elem_of_elements. rewrite <- Hp. by apply list_elem_of_fmap_2.
    + intros m em en Hm Em En. apply elem_of_elements in Hm. rewrite <- Hp in Hm.
      apply list_elem_of_fmap in Hm as (e' & -> & He'). rewrite (He e' He') in Em. injection Em as <-.
      rewrite (He e Hin) in En. injection En as <-. by apply Hmin.
  - done.
  - rewrite <- Hp, <- Hperm. done.
  - done.
  - intros e' He'. rewrite <- Hperm. by apply list_elem_of_further.
Qed.

(** What eviction does to the cache *)
Record drained (s : State) (P : gmap Z Path) (s' : State) (P' : gmap Z Path) (vss : list (list Z)) : Prop := {
  dr_same : st_root s' = st_root s ∧ st_ps s' = st_ps s ∧ st_disable s' = st_disable s ∧
            st_events s' = st_events s ∧ st_no_insert s' = st_no_insert s ∧
            st_strategy s' = st_strategy s ∧ st_protected s' = st_protected s;
  dr_sub : P' ⊆ P;
  dr_slots : concat vss ++ tree_slots (st_S s') P' ≡ₚ tree_slots (st_S s) P;
  dr_size : st_evictable s' = st_evictable s - len (concat vss)
}.

Lemma drained_refl s P : drained s P s P [].
Proof. split; [done|done|done|cbn; rewrite len_nil; lia]. Qed.

Lemma drained_step s P Hs n pn l s' P' vss :
  radix_ok s P Hs → P !! n = Some pn → n ≠ st_root s →
  linked (st_ps s) (st_root s) (st_S s) P n pn l → s_children (l_s l) = ∅ → s_lock (l_s l) = 0 →
  drained (pruned s n l) (pruned_paths P n) s' P' vss → drained s P s' P' (l_v l :: vss).
Proof.
  intros [HC _] Hn Hr HL Hch Hlk [A1 A2 A3 A4]. split.
  - by unfold pruned in A1; rsimpl.
  - etrans; [exact A2|]. apply delete_subseteq.
  - cbn [concat]. rewrite <- app_assoc, A3. rewrite (tree_slots_delete (st_S s) P n pn Hn).
    unfold node_slots at 1. rewrite (ln_shape _ _ _ _ _ _ _ HL). cbn. rewrite (ln_value _ _ _ _ _ _ _ HL). cbn.
    apply Permutation_app_head. rewrite (tree_slots_ext _ (st_S s)); [done|].
    intros m q Hm. unfold pruned_paths in Hm. apply lookup_delete_Some in Hm as [_ Hm]. destruct (core_live _ _ _ HC _ _ Hm) as [t Ht].
    destruct (pruned_alike s P n pn l HL m t Ht) as (t' & Ht' & (_ & _ & Ev & _) & _).
    unfold node_slots. rewrite Ht, Ht'. cbn. by rewrite Ev.
  - rewrite A4. unfold pruned. rsimpl. cbn [concat]. rewrite len_app, (ln_vlen _ _ _ _ _ _ _ HL). lia.
Qed.

(** The heap follows the leaves. *)
Lemma heap_ok_next c c1 P Hs pn l e h h' :
  radix_ok (st c) P Hs → heap_ok c h → HeapQ.heappop entry_lt h = Some (e, h') →
  P !! e_node e = Some pn → linked (rc_page_size c) (rc_root c) (st_S (st c)) P (e_node e) pn l →
  st c1 = pruned (st c) (e_node e) l → (∀ m, entry_of c1 m = entry_of c m) →
  if bool_decide (s_lock (l_ps l) = 0 ∧ rest_children (st c) l = ∅)
  then ∀ e', e_node e' = l_p l → entry_of c1 (l_p l) = Some e' → heap_ok c1 (HeapQ.heappush entry_lt h' e')
  else heap_ok c1 h'.
Proof.
  intros HO Hh Epop Hn HL Es1 Hent. pose proof (proj1 HO) as HC.
  destruct (heap_ok_first c h e h' Hh Epop) as ([Hin _] & Hh' & Hperm & _ & Hsub). destruct Hh as (_ & _ & Hents).
  set (n := e_node e) in *.
  assert (Hpl : l_p l ∉ rc_evictable_leaves c).
  { intros (_ & _ & t & Ht & _ & Hc)%(co_leaves _ _ _ HC). rewrite (ln_pshape _ _ _ _ _ _ _ HL) in Ht. injection Ht as <-.
    pose proof (ln_child _ _ _ _ _ _ _ HL) as E. by rewrite Hc, lookup_empty in E. }
  assert (Hrest : e_node <$> h' ≡ₚ elements (rc_evictable_leaves c ∖ {[n]})).
  { apply (Permutation_cons_inv (a := n)). rewrite Hperm.
    rewrite <- (elements_union_singleton (rc_evictable_leaves c ∖ {[n]})) by set_solver.
    f_equiv. intros y. destruct (decide (y = n)); set_solver. }
  assert (Hl1 : rc_evictable_leaves c1 = if bool_decide (s_lock (l_ps l) = 0 ∧ rest_children (st c) l = ∅)
     then {[l_p l]} ∪ rc_evictable_leaves c ∖ {[n]} else (rc_evictable_leaves c ∖ {[n]}) ∖ {[l_p l]}).
  { change (rc_evictable_leaves c1) with (st_leaves (st c1)). rewrite Es1. unfold pruned. by rsimpl. }
  case_bool_decide as Hb.
  - intros e' Ee' Ee1. split_and!.
    + apply heappush_heap; [apply entry_lt_asym|apply entry_le_trans|done].
    + rewrite (fmap_Permutation e_node _ _ (heappush_perm entry_lt h' e')), fmap_cons, Ee', Hl1, Hrest.
      rewrite elements_union_singleton by set_solver. done.
    + intros d Hd. rewrite heappush_perm in Hd. apply elem_of_cons in Hd as [->|Hd]; [by rewrite Ee'|].
      rewrite Hent. auto.
  - split_and!; [done| |].
    + rewrite Hl1, Hrest. f_equiv. set_solver.
    + intros d Hd. rewrite Hent. auto.
Qed.

(** ** The loop *)

(** [ns] were evicted from the cache of [w] in the order of the policy, their
    slots [vss] freed, and nothing else happened. *)
Record evicted_to (w : World RadixCache) (P : gmap Z Path) (w' : World RadixCache) (P' : gmap Z Path)
    (ns : list Z) (vss : list (list Z)) : Prop := {
  ev_policy : evicts (cache w) ns (cache w');
  ev_drained : drained (st (cache w)) P (st (cache w')) P' vss;
  ev_kv : kv w' = frees vss (kv w);
  ev_rest : heap w' = heap w ∧ rtp w' = rtp w ∧ batch w' = batch w
}.

Lemma on_cache_ok {A} (m : M RadixCache A) (w : World RadixCache) a c' :
  m (cache w) = (Ok a, c') → Radix.on_cache m w = (Ok a, w <| cache := c' |>).
Proof. intros E. unfold Radix.on_cache. by rewrite E. Qed.

Lemma entry_of_ok c n e : entry_of c n = Some e → Radix.entry (rc_strategy c) n c = (Ok e, c).
Proof.
  unfold entry_of, Radix.entry. intros (x & Hx & ->)%fmap_Some.
  by rewrite (bind_ok _ _ _ _ _ (node_at_ok _ _ _ Hx)).
Qed.

Lemma entry_of_live c P Hs n pn : radix_ok (st c) P Hs → P !! n = Some pn → ∃ e, entry_of c n = Some e ∧ e_node e = n.
Proof.
  intros [HC _] Hn. destruct (core_live _ _ _ HC _ _ Hn) as [t Ht].
  destruct (node_of_shape _ _ _ Ht) as (x & Hx & _). unfold entry_of. rewrite Hx. by eexists.
Qed.

Lemma world_cache_id (w : World RadixCache) : w <| cache := cache w |> = w.
Proof. by destruct w. Qed.

(** The parent enters the heap when it has become a leaf. *)
Lemma push_parent_ok (w : World RadixCache) c P Hs pn l e h h' :
  radix_ok (st c) P Hs → heap_ok c h → HeapQ.heappop entry_lt h = Some (e, h') →
  P !! e_node e = Some pn → e_node e ≠ rc_root c →
  linked (rc_page_size c) (rc_root c) (st_S (st c)) P (e_node e) pn l →
  s_children (l_s l) = ∅ → s_lock (l_s l) = 0 →
  st (cache w) = pruned (st c) (e_node e) l → (∀ m, entry_of (cache w) m = entry_of c m) →
  ∃ px h2, Radix.on_cache (Radix.node_at (l_p l)) w = (Ok px, w) ∧ heap_ok (cache w) h2 ∧
    (if bool_decide (n_children px = ∅) && (n_lock_ref px =? 0) then
       s ← gets (λ w, rc_strategy (cache w));
       e' ← Radix.on_cache (Radix.entry s (l_p l));
       mret (HeapQ.heappush entry_lt h' e')
     else mret h') w = (Ok h2, w).
Proof.
  intros HO Hh Epop Hn Hr HL Hch Hlk Es1 Hent.
  pose proof (heap_ok_next c (cache w) P Hs pn l e h h' HO Hh Epop Hn HL Es1 Hent) as Hnext.
  pose proof (ok_pruned _ _ _ HO _ _ _ Hn Hr HL Hch Hlk) as HO1. rewrite <- Es1 in HO1.
  assert (Hsp : st_S (st (cache w)) !! l_p l
    = Some ((l_ps l) <| s_children ::= delete (ck (rc_page_size c) (s_key (l_s l))) |>)).
  { rewrite Es1. unfold pruned, pruned_shapes. rsimpl. by rewrite lookup_insert_eq. }
  destruct (node_of_shape _ _ _ Hsp) as (px & Hpx & Epx). exists px.
  assert (Ecl : bool_decide (n_children px = ∅) && (n_lock_ref px =? 0)
                = bool_decide (s_lock (l_ps l) = 0 ∧ rest_children (st c) l = ∅)).
  { change (n_children px) with (s_children (shape px)). change (n_lock_ref px) with (s_lock (shape px)).
    rewrite Epx. rsimpl. unfold rest_children. change (st_ps (st c)) with (rc_page_size c).
    destruct (Z.eqb_spec (s_lock (l_ps l)) 0); repeat case_bool_decide; cbn; try done; naive_solver. }
  assert (Epx1 : Radix.on_cache (Radix.node_at (l_p l)) w = (Ok px, w)).
  { rewrite (on_cache_ok _ w px (cache w)), world_cache_id; [done|]. by apply node_at_ok. }
  rewrite Ecl. destruct (bool_decide _).
  - assert (Hpp : pruned_paths P (e_node e) !! l_p l = Some (l_pp l)).
    { unfold pruned_paths. rewrite lookup_delete_ne; [apply HL|].
      apply not_eq_sym. by apply (parent_ne _ _ _ _ _ _ _ (co_tree _ _ _ (proj1 HO)) HL Hn). }
    destruct (entry_of_live _ _ _ _ _ HO1 Hpp) as (e' & Ee' & En').
    exists (HeapQ.heappush entry_lt h' e'). split_and!; [done|by apply Hnext|].
    rewrite (bind_ok _ _ w (rc_strategy (cache w)) w) by done.
    rewrite (bind_ok _ _ w e' w); [done|].
    rewrite (on_cache_ok _ w e' (cache w)), world_cache_id; [done|]. by apply entry_of_ok.
  - by exists h'.
Qed.

(** One iteration *)
Lemma evict_one_ok fuel w P Hs num k h e h' :
  radix_ok (st (cache w)) P Hs → heap_ok (cache w) h → debug_mode (kv w) = false → k < num →
  HeapQ.heappop entry_lt h = Some (e, h') →
  ∃ pn l c1 h2, P !! e_node e = Some pn ∧ e_node e ≠ rc_root (cache w) ∧
    linked (rc_page_size (cache w)) (rc_root (cache w)) (st_S (st (cache w))) P (e_node e) pn l ∧
    s_children (l_s l) = ∅ ∧ s_lock (l_s l) = 0 ∧ first_leaf (cache w) (e_node e) ∧
    Radix._delete_leaf (e_node e) (cache w) = (Ok tt, c1) ∧ st c1 = pruned (st (cache w)) (e_node e) l ∧
    heap_ok c1 h2 ∧
    Radix.evict_loop (S fuel) num k h w
    = Radix.evict_loop fuel num (k + len (l_v l)) h2 (w <| kv := (free (l_v l) (kv w)).2 |> <| cache := c1 |>).
Proof.
  intros HO Hh Hd Hk Epop. cbn [Radix.evict_loop]. destruct (Z.ltb_spec k num); [|lia]. rewrite Epop.
  destruct (heap_ok_first _ _ _ _ Hh Epop) as (Hfirst & _ & _ & _ & _).
  destruct (leaf_link _ _ _ _ HO (proj1 Hfirst)) as (pn & l & Hn & Hr & HL & Hch & Hlk).
  destruct (node_of_shape _ _ _ (ln_shape _ _ _ _ _ _ _ HL)) as (x & Hx & Ex).
  assert (Ep : n_parent x = Some (l_p l)) by (rewrite <- (ln_parent _ _ _ _ _ _ _ HL), <- Ex; done).
  assert (Ev : n_value x = Some (l_v l)) by (rewrite <- (ln_value _ _ _ _ _ _ _ HL), <- Ex; done).
  assert (Ex1 : Radix.on_cache (Radix.node_at (e_node e)) w = (Ok x, w)).
  { rewrite (on_cache_ok _ w x (cache w)), world_cache_id; [done|]. by apply node_at_ok. }
  step Ex1. rewrite (bind_ok _ _ w (l_v l) w) by (by rewrite Ev).
  set (w1 := w <| kv := (free (l_v l) (kv w)).2 |>).
  rewrite (bind_ok _ _ w tt w1) by (unfold on_kv; by rewrite (proj1 (free_ok _ _ Hd))).
  destruct (delete_leaf_ok (cache w) P Hs (e_node e) pn l HO Hn Hr HL Hch Hlk) as (c1 & E1 & Es1 & Hent).
  set (w2 := w1 <| cache := c1 |>).
  rewrite (bind_ok _ _ w1 tt w2) by (by apply on_cache_ok).
  rewrite (bind_ok _ _ w2 (l_p l) w2) by (by rewrite Ep).
  destruct (push_parent_ok w2 (cache w) P Hs pn l e h h' HO Hh Epop Hn Hr HL Hch Hlk Es1 Hent) as (px & h2 & Epx & Hh2 & Eh2).
  step Epx. step Eh2.
  rewrite (bind_ok _ _ w2 tt w2); [by exists pn, l, c1, h2|].
  rewrite (on_cache_ok _ w2 tt (cache w2)), world_cache_id; [done|]. unfold Radix._record_remove_event.
  rewrite (bind_ok _ _ (cache w2) (cache w2) (cache w2)) by done.
  replace (rc_enable_kv_cache_events (cache w2)) with false; [done|]. symmetry.
  change (st_events (st c1) = false). rewrite Es1. apply (co_on _ _ _ (proj1 HO)).
Qed.

(** Nothing is evicted once [num] tokens are. *)
Definition frugal (num k : Z) (vss : list (list Z)) : Prop :=
  ∀ vs v, vss = vs ++ [v] → k + len (concat vs) < num.

Lemma frugal_cons num k v vss : k < num → frugal num (k + len v) vss → frugal num k (v :: vss).
Proof.
  intros Hk Hf [|v' vs] u E; injection E as <- E; [cbn; rewrite len_nil; lia|].
  specialize (Hf _ _ E). cbn [concat]. rewrite len_app. lia.
Qed.

Lemma evict_loop_ok fuel : ∀ w P Hs num k h,
  radix_ok (st (cache w)) P Hs → heap_ok (cache w) h → debug_mode (kv w) = false →
  (base.size P ≤ fuel)%nat →
  ∃ w' P' ns vss, Radix.evict_loop fuel num k h w = (Ok (k + len (concat vss)), w') ∧
    radix_ok (st (cache w')) P' Hs ∧ evicted_to w P w' P' ns vss ∧ frugal num k vss ∧
    (num ≤ k + len (concat vss) ∨ rc_evictable_leaves (cache w') = ∅).
Proof.
  induction fuel as [|fuel IH]; intros w P Hs num k h HO Hh Hd Hf.
  { exfalso. pose proof (tree_root _ _ _ _ (co_tree _ _ _ (proj1 HO))) as E.
    rewrite (map_size_empty_inv P) in E by lia. by rewrite lookup_empty in E. }
  assert (Hstay : num ≤ k ∨ rc_evictable_leaves (cache w) = ∅ →
    ∃ w' P' ns vss, (mret k : M (World RadixCache) Z) w = (Ok (k + len (concat vss)), w') ∧
    radix_ok (st (cache w')) P' Hs ∧ evicted_to w P w' P' ns vss ∧ frugal num k vss ∧
    (num ≤ k + len (concat vss) ∨ rc_evictable_leaves (cache w') = ∅)).
  { intros Hs0. exists w, P, [], []. cbn [concat]. rewrite len_nil, Z.add_0_r. split_and!; [done..| | |done].
    - split; [constructor|apply drained_refl|done|done].
    - intros [|] v; by intros [=]. }
  destruct (Z.ltb_spec k num) as [Hk|Hk].
  2:{ cbn [Radix.evict_loop]. destruct (Z.ltb_spec k num); [lia|]. by apply Hstay; left. }
  destruct (HeapQ.heappop entry_lt h) as [[e h']|] eqn:Epop.
  2:{ cbn [Radix.evict_loop]. destruct (Z.ltb_spec k num); [|lia]. rewrite Epop. apply Hstay. right.
      pose proof (heappop_perm entry_lt h) as E. rewrite Epop in E. destruct Hh as (_ & Hp & _).
      rewrite E in Hp. cbn in Hp. symmetry in Hp. apply Permutation_nil_r in Hp. by apply elements_empty_inv in Hp; apply leibniz_equiv. }
  clear Hstay. destruct (evict_one_ok fuel w P Hs num k h e h' HO Hh Hd Hk Epop)
    as (pn & l & c1 & h2 & Hn & Hr & HL & Hch & Hlk & Hfirst & E1 & Es1 & Hh2 & ->).
  set (w2 := w <| kv := _ |> <| cache := c1 |>).
  pose proof (ok_pruned _ _ _ HO _ _ _ Hn Hr HL Hch Hlk) as HO1. rewrite <- Es1 in HO1.
  destruct (IH w2 (pruned_paths P (e_node e)) Hs num (k + len (l_v l)) h2 HO1 Hh2)
    as (w' & P' & ns & vss & E' & HO' & [V1 V2 V3 (V4 & V5 & V6)] & Hfr & Hfin).
  { by apply free_ok. } { unfold pruned_paths. rewrite map_size_delete_Some by eauto. lia. }
  exists w', P', (e_node e :: ns), (l_v l :: vss). cbn [concat]. rewrite len_app.
  split_and!; [rewrite E'; f_equal; f_equal; lia|done| |by apply frugal_cons|destruct Hfin; [left; lia|by right]].
  split; [by eapply evicts_leaf| |done|done]. eapply drained_step; [done..|]. by rewrite <- Es1.
Qed.

(** ** All that is evictable *)

Lemma count_mono P Hs q q' : (∀ h ph, P !! h = Some ph → covers q ph → covers q' ph) → count P Hs q ≤ count P Hs q'.
Proof.
  intros Hc. induction Hs as [|h Hs IH]; [done|]. rewrite !count_cons.
  assert (Hh : (if holds P q h then 1 else 0) ≤ (if holds P q' h then 1 else 0)); [|lia].
  unfold holds. destruct (P !! h) as [ph|] eqn:E; [|lia].
  destruct (decide (covers q ph)) as [Hq|Hq].
  - rewrite !bool_decide_true; [lia|by eapply Hc|done].
  - rewrite (bool_decide_false (covers q ph)) by done. case_bool_decide; lia.
Qed.

(** Below an unlocked node is an evictable leaf. *)
Lemma unlocked_leaf s P Hs n pn t :
  radix_ok s P Hs → P !! n = Some pn → n ≠ st_root s → st_S s !! n = Some t → s_lock t = 0 →
  ∃ m, m ∈ st_leaves s.
Proof.
  intros [HC HH]. pose proof (co_tree _ _ _ HC) as HT.
  remember (length (filter (λ q : Z * Path, len (p_toks pn) < len (p_toks q.2)) (map_to_list P))) as k eqn:Ek.
  revert n pn t Ek. induction (lt_wf k) as [k _ IH]. intros n pn t -> Hn Hr Ht Hl.
  destruct (decide (s_children t = ∅)) as [Hc|Hc].
  { exists n. apply (co_leaves _ _ _ HC). split_and!; [done|by eexists|by exists t]. }
  destruct (map_choose _ Hc) as (ky & d & Hd).
  destruct (tree_children _ _ _ _ HT _ _ _ _ _ Hn Ht Hd) as (Hdr & [pd Hpd] & u & Hu & Hpar & _).
  destruct (tree_linked _ _ _ _ HT _ _ Hpd Hdr) as (l & HL). pose proof (ln_shape _ _ _ _ _ _ _ HL) as E.
  rewrite Hu in E. injection E as ->. rewrite (ln_parent _ _ _ _ _ _ _ HL) in Hpar. injection Hpar as Hpar.
  pose proof (ln_ppath _ _ _ _ _ _ _ HL) as Epp. rewrite Hpar, Hn in Epp. injection Epp as Epp.
  pose proof (linked_len _ _ _ _ _ _ _ HL) as Hlen. rewrite <- Epp in Hlen. pose proof (ln_pos _ _ _ _ _ _ _ HL).
  eapply (IH _) with (n := d) (pn := pd); [|reflexivity|done|done|done|].
  - apply (filter_length_lt _ _ _ (d, pd)); [intros [m q]; cbn; lia|by apply elem_of_map_to_list|cbn; lia|cbn; lia].
  - rewrite (co_lock _ _ _ HC _ _ _ Hpd Hu Hdr). rewrite (co_lock _ _ _ HC _ _ _ Hn Ht Hr) in Hl.
    pose proof (count_nonneg P Hs pd). assert (count P Hs pd ≤ count P Hs pn); [|lia].
    apply count_mono. intros h ph Hh [He Hp]. rewrite <- Hpar in Hr.
    destruct (parent_covers _ _ _ _ _ _ _ HL Hr) as [He' Hp']. rewrite <- Epp in He', Hp'. split; [congruence|by etrans].
Qed.

Lemma no_leaves s P Hs : radix_ok s P Hs → st_leaves s = ∅ → st_evictable s = 0.
Proof.
  intros HO Hl. pose proof (proj1 HO) as HC. rewrite (co_evictable _ _ _ HC).
  rewrite (total_ext _ (λ _, 0)).
  { unfold total, zsum. induction (ids P) as [|i is_ IH]; [done|]. cbn in *. lia. }
  intros n q Hn. unfold weight. destruct (core_live _ _ _ HC _ _ Hn) as [t Ht]. rewrite Ht.
  destruct (decide (n = st_root s)) as [->|Hr].
  - destruct (tree_root_shape _ _ _ _ (co_tree _ _ _ HC)) as (t' & Ht' & _ & _ & Ek & _).
    rewrite Ht in Ht'. injection Ht' as ->. rewrite Ek. by destruct (unlocked _).
  - destruct (unlocked (s_lock t)) eqn:E; [|done]. unfold unlocked in E. apply Z.eqb_eq in E.
    destruct (unlocked_leaf _ _ _ _ _ _ HO Hn Hr Ht E) as (m & Hm). rewrite Hl in Hm. set_solver.
Qed.

(** The heap at the start *)
Lemma entries_ok w P Hs ns :
  radix_ok (st (cache w)) P Hs → (∀ n, n ∈ ns → is_Some (P !! n)) → ∀ acc,
  ∃ es, foldM (λ acc n, e ← Radix.on_cache (Radix.entry (rc_strategy (cache w)) n); mret (acc ++ [e])) acc ns w
        = (Ok (acc ++ es), w) ∧ e_node <$> es = ns ∧ ∀ e, e ∈ es → entry_of (cache w) (e_node e) = Some e.
Proof.
  intros HO. induction ns as [|n ns IH]; intros Hns acc.
  { exists []. split_and!; [by rewrite app_nil_r|done|]. intros e He. by apply not_elem_of_nil in He. }
  destruct (Hns n) as [pn Hn]; [apply list_elem_of_here|].
  destruct (entry_of_live _ _ _ _ _ HO Hn) as (e & Ee & En).
  destruct (IH ltac:(intros m Hm; apply Hns; by apply list_elem_of_further) (acc ++ [e])) as (es & E & Enodes & Hes).
  exists (e :: es). split_and!.
  - cbn [foldM]. rewrite (bind_ok _ _ w e w).
    2:{ rewrite (on_cache_ok _ w e (cache w)), world_cache_id; [done|]. by apply entry_of_ok. }
    rewrite <- app_assoc in E. exact E.
  - cbn. by rewrite En, Enodes.
  - intros d [->|Hd]%elem_of_cons; [by rewrite En|by apply Hes].
Qed.

Lemma evict_ok w P Hs num :
  radix_ok (st (cache w)) P Hs → debug_mode (kv w) = false →
  ∃ w' P' ns vss, Radix.evict num w = (Ok (len (concat vss)), w') ∧
    radix_ok (st (cache w')) P' Hs ∧ evicted_to w P w' P' ns vss ∧ frugal num 0 vss ∧
    Z.min num (rc_evictable_size (cache w)) ≤ len (concat vss).
Proof.
  intros HO Hd. pose proof (proj1 HO) as HC. destruct (co_on _ _ _ HC) as [Hdis _]. cbn in Hdis.
  unfold Radix.evict. rewrite (bind_ok _ _ w (cache w) w) by done. rewrite Hdis.
  destruct (entries_ok w P Hs (set_order (rc_evictable_leaves (cache w))) HO) with (acc := @nil Entry) as (es & E & Enodes & Hes).
  { intros n Hn. rewrite set_order_perm in Hn. apply elem_of_elements in Hn.
    by apply (co_leaves _ _ _ HC n) in Hn as (_ & Hn & _). }
  step E. cbn [app].
  destruct (evict_loop_ok (S (base.size (rc_nodes (cache w)))) w P Hs num 0 (HeapQ.heapify entry_lt es) HO)
    as (w' & P' & ns & vss & E' & HO' & Hev & Hfr & Hfin); [|done| |].
  - split_and!.
    + apply heapify_heap; [apply entry_lt_asym|apply entry_le_trans].
    + rewrite (fmap_Permutation e_node _ _ (heapify_perm entry_lt es)), Enodes. apply set_order_perm.
    + intros e He. rewrite heapify_perm in He. by apply Hes.
  - trans (base.size (rc_nodes (cache w))); [|lia]. rewrite <- !size_dom. apply subseteq_size.
    intros n [q Hq]%elem_of_dom. destruct (core_live _ _ _ HC _ _ Hq) as [t Ht].
    destruct (node_of_shape _ _ _ Ht) as (x & Hx & _). by apply elem_of_dom.
  - exists w', P', ns, vss. split_and!; [done..|]. destruct Hfin as [Hfin|Hfin]; [lia|].
    pose proof (no_leaves _ _ _ HO' Hfin) as E0. pose proof (dr_size _ _ _ _ _ (ev_drained _ _ _ _ _ _ Hev)) as E1.
    change (rc_evictable_size (cache w)) with (st_evictable (st (cache w))). lia.
Qed.
End Evict.
