(* ===== verification/RadixReqs.v ===== *)
(** * Requests and the radix cache

    A request that holds memory holds a lock on its [last_node]: the handles
    of the cache are those of the requests in the store.  Under this
    invariant [RadixCache] satisfies [CacheLaws], and finishing a request
    loses and doubles no slot. *)

From S2P Require Import Prelude HeapQ PyFloat Allocator AllocatorFacts Request ReqPool LLM42Info World MemCommon CacheLaws Radix RadixTree RadixState RadixFacts RadixOps RadixLocks RadixEvict.

(** ** Handles *)

Definition holding (r : Req) : bool :=
  match req_pool_idx r with Some _ => negb (kv_committed_freed r) | None => false end.

Definition handle_of (r : Req) : option Z := if holding r then last_node r else None.

Definition handles (hp : gmap nat Req) : list Z := omap (λ q : nat * Req, handle_of q.2) (map_to_list hp).

Lemma omap_perm {A B} (f : A → option B) xs ys : xs ≡ₚ ys → omap f xs ≡ₚ omap f ys.
Proof. intros E. by rewrite E. Qed.

Lemma handles_delete hp id r : hp !! id = Some r →
  handles hp ≡ₚ option_list (handle_of r) ++ handles (delete id hp).
Proof.
  intros Hr. unfold handles. rewrite <- (omap_perm _ _ _ (map_to_list_delete hp id r Hr)). cbn.
  by destruct (handle_of r).
Qed.

Lemma handles_insert hp id r' : handles (<[id := r']> hp) ≡ₚ option_list (handle_of r') ++ handles (delete id hp).
Proof.
  rewrite (handles_delete _ id r') by (by rewrite lookup_insert_eq). by rewrite delete_insert_eq.
Qed.

Lemma handles_ext hp hp' : handle_of <$> hp = handle_of <$> hp' → handles hp ≡ₚ handles hp'.
Proof.
  intros E. assert (F : ∀ h : gmap nat Req, handles h ≡ₚ omap (λ q : nat * option Z, q.2) (map_to_list (handle_of <$> h))).
  { intros h. unfold handles. rewrite map_to_list_fmap.
    generalize (map_to_list h). intros l. induction l as [|[i r] l IH]; [done|]. cbn.
    destruct (handle_of r); by rewrite IH. }
  by rewrite (F hp), (F hp'), E.
Qed.

Lemma same_cache_handle r r' : same_cache r r' → holding r' = holding r ∧ handle_of r' = handle_of r.
Proof.
  intros [(E1 & E2 & _ & _ & _ & E3)|[E1 E2]]; unfold handle_of, holding.
  - by rewrite E1, E2, E3.
  - rewrite E1, E2. by destruct (req_pool_idx r), (req_pool_idx r').
Qed.

(** The cache is in order, and every request that holds memory holds a lock. *)
Definition radix_live (wd : World RadixCache) : Prop :=
  (∃ P, radix_ok (st (cache wd)) P (handles (heap wd))) ∧
  ∀ id r, heap wd !! id = Some r → holding r = true → is_Some (last_node r).

Lemma radix_live_frame (wd wd' : World RadixCache) :
  radix_live wd → cache wd' = cache wd →
  (∀ id r, heap wd !! id = Some r → ∃ r', heap wd' !! id = Some r' ∧ same_cache r r') →
  (∀ id, is_Some (heap wd' !! id) → is_Some (heap wd !! id)) → radix_live wd'.
Proof.
  intros [[P HO] Hl] Hc Hsame Hdom. split.
  - exists P. rewrite Hc. eapply radix_ok_perm; [exact HO|]. apply handles_ext, map_eq. intros id.
    rewrite !lookup_fmap. destruct (heap wd !! id) as [r|] eqn:E.
    + destruct (Hsame id r E) as (r' & -> & Hs). cbn. f_equal. symmetry. by apply same_cache_handle.
    + destruct (heap wd' !! id) as [r'|] eqn:E'; [|done]. specialize (Hdom id). rewrite E, E' in Hdom.
      destruct Hdom as [x Hx]; done.
  - intros id r' Hr' Hh. destruct (Hdom id) as [r Hr]; [by rewrite Hr'|].
    destruct (Hsame id r Hr) as (r2 & Hr2 & Hs). rewrite Hr' in Hr2. injection Hr2 as <-.
    destruct (same_cache_handle _ _ Hs) as [E1 E2]. rewrite E1 in Hh. unfold handle_of in E2. rewrite E1, Hh in E2.
    rewrite E2. by eapply Hl.
Qed.

(** ** Finishing a request *)

Section Finish.
Context `{Runtime}.

(** The committed tokens of a request, those of whole pages, and their slots *)
Definition committed_toks (r : Req) : list Z := slice_to (origin_input_ids r ++ output_ids r) (kv_committed_len r).
Definition page_keys (ps : Z) (r : Req) : list Z := Radix._page_align_keys ps (committed_toks r).
Definition finish_key (ps : Z) (r : Req) : RadixKey := mkKey (page_keys ps r) (extra_key r).

(** How much of the request the tree keeps as it is: what was cached
    already, or, without an insertion, all its pages *)
Definition kept_len (wd : World RadixCache) (r : Req) (is_insert : bool) : Z :=
  let c := cache wd in
  let slots := committed_slots (req_to_token (rtp wd)) r in
  if is_insert && negb (rc_disable_finished_insert c) then
    match (Radix.insert (finish_key (rc_page_size c) r) (Some (slice_to slots (len (page_keys (rc_page_size c) r))))
             (Some (Radix.req_priority r)) c).1 with
    | Ok m => m
    | Raise _ => 0
    end
  else len (page_keys (rc_page_size c) r).

Definition radix_released (wd : World RadixCache) (r : Req) (is_insert : bool) : list (list Z) :=
  let slots := committed_slots (req_to_token (rtp wd)) r in
  [slice slots (cache_protected_len r) (kept_len wd r is_insert);
   slice_from slots (len (page_keys (rc_page_size (cache wd)) r))].

Lemma page_keys_align ps r : page_keys ps r = token_ids (align ps (mkKey (committed_toks r) (extra_key r))).
Proof. unfold page_keys, Radix._page_align_keys, align. by destruct (ps =? 1). Qed.

Lemma page_keys_spec ps r : 0 < ps →
  (ps | len (page_keys ps r)) ∧ 0 ≤ len (page_keys ps r) ≤ len (committed_toks r) ∧
  page_keys ps r = take (Z.to_nat (Radix.aligned_len ps (len (committed_toks r)))) (committed_toks r) ∧
  len (page_keys ps r) = Radix.aligned_len ps (len (committed_toks r)).
Proof.
  intros Hps. pose proof (len_nonneg (committed_toks r)) as Hn.
  destruct (align_spec ps (mkKey (committed_toks r) (extra_key r)) Hps) as (Hd & _ & Et).
  destruct (aligned_spec ps (len (committed_toks r)) Hps Hn) as [Hr _].
  rewrite <- page_keys_align in Et. unfold Key.len in Hd. rewrite <- page_keys_align in Hd.
  change (Key.len (mkKey (committed_toks r) (extra_key r))) with (len (committed_toks r)) in Et.
  cbn [token_ids] in Et.
  assert (El : len (page_keys ps r) = Radix.aligned_len ps (len (committed_toks r))).
  { rewrite Et, len_take. lia. }
  split_and!; [done|lia|lia|done|done].
Qed.

Lemma on_cache_bind {A B} (m : M RadixCache A) (k : A → M (World RadixCache) B) (w : World RadixCache) a c' :
  m (cache w) = (Ok a, c') → (Radix.on_cache m ≫= k) w = k a (w <| cache := c' |>).
Proof. intros E. by rewrite (bind_ok _ _ _ _ _ (on_cache_ok m w a c' E)). Qed.

Lemma on_kv_free {B} xs (k : unit → M (World RadixCache) B) (w : World RadixCache) :
  debug_mode (kv w) = false → (on_kv (free xs) ≫= k) w = k tt (w <| kv := frees [xs] (kv w) |>).
Proof.
  intros Hd. rewrite (bind_ok _ _ w tt (w <| kv := frees [xs] (kv w) |>)); [done|].
  unfold on_kv. by rewrite (proj1 (free_ok xs (kv w) Hd)).
Qed.

(** The tree takes the pages of the request, or is left alone. *)
Definition taken (s : State) (P : gmap Z Path) (s1 : State) (P1 : gmap Z Path) (key : RadixKey)
    (values : list Z) (insert : bool) (m : Z) : Prop :=
  if insert then ∃ ss, inserted s P s1 P1 key values m ss else s1 = s ∧ P1 = P ∧ m = Key.len key.

Lemma releasable_slots tbl r :
  releasable tbl r → ∃ row l, req_pool_idx r = Some row ∧ 0 ≤ row ∧ tbl !! Z.to_nat row = Some l ∧
    committed_slots tbl r = slice_to l (kv_committed_len r) ∧ len (committed_slots tbl r) = kv_committed_len r ∧
    len (committed_toks r) = kv_committed_len r.
Proof.
  intros [(row & l & Er & H0 & El & Hl) Hk _ _]. exists row, l. unfold committed_slots, committed_toks.
  rewrite Er, El. split_and!; [done..| |].
  - rewrite len_slice_to; lia.
  - rewrite len_slice_to; [done|]. rewrite len_app. unfold seqlen in Hk. lia.
Qed.

(** The first part of [cache_finished_req]: the insertion, and the slots the
    tree does not take *)
Lemma take_pages_ok wd w1 r ins P Hs :
  radix_ok (st (cache wd)) P Hs → releasable (req_to_token (rtp wd)) r →
  cache w1 = cache wd → debug_mode (kv w1) = false →
  let c := cache wd in
  let slots := committed_slots (req_to_token (rtp wd)) r in
  let keys := page_keys (rc_page_size c) r in
  ∃ c1 P1, radix_ok (st c1) P1 Hs ∧
    taken (st c) P (st c1) P1 (finish_key (rc_page_size c) r) (slice_to slots (len keys))
      (ins && negb (rc_disable_finished_insert c)) (kept_len wd r ins) ∧
    (if if rc_disable_finished_insert c then false else ins then
       new_prefix_len ← Radix.on_cache (Radix.insert (finish_key (rc_page_size c) r)
                                          (Some (slice_to slots (len keys))) (Some (Radix.req_priority r)));
       on_kv (free (slice slots (cache_protected_len r) new_prefix_len))
     else on_kv (free (slice slots (cache_protected_len r) (len keys)))) w1
    = (Ok tt, w1 <| cache := c1 |>
                 <| kv := frees [slice slots (cache_protected_len r) (kept_len wd r ins)] (kv w1) |>).
Proof.
  intros HO Hrel Hc Hd. cbv zeta.
  pose proof (tree_ps _ _ _ _ (co_tree _ _ _ (proj1 HO))) as Hps. cbn in Hps.
  destruct (releasable_slots _ _ Hrel) as (row & l & _ & _ & _ & _ & Hls & Hlt).
  destruct (page_keys_spec (rc_page_size (cache wd)) r Hps) as (Hpd & Hpr & _ & _).
  unfold kept_len. cbv zeta. destruct (rc_disable_finished_insert (cache wd)); [rewrite andb_false_r|rewrite andb_true_r; destruct ins].
  - exists (cache wd), P. split_and!; [done|done|]. unfold on_kv. rewrite (proj1 (free_ok _ _ Hd)).
    rewrite <- Hc. by destruct w1.
  - set (slots := committed_slots (req_to_token (rtp wd)) r) in *. set (keys := page_keys (rc_page_size (cache wd)) r) in *.
    destruct (insert_ok (cache wd) P Hs (finish_key (rc_page_size (cache wd)) r) (slice_to slots (len keys)) (Some (Radix.req_priority r)) HO)
      as (c1 & P1 & m & ss & E & HO1 & Hin); [done| |].
    { change (Key.len (finish_key (rc_page_size (cache wd)) r)) with (len keys). rewrite len_slice_to; [done|]. lia. }
    exists c1, P1. rewrite E. cbn [fst]. split_and!; [done|by exists ss|].
    rewrite (on_cache_bind _ _ w1 m c1) by (by rewrite Hc). unfold on_kv. rsimpl.
    rewrite (proj1 (free_ok _ _ Hd)). done.
  - exists (cache wd), P. split_and!; [done|done|]. unfold on_kv. rewrite (proj1 (free_ok _ _ Hd)).
    rewrite <- Hc. by destruct w1.
Qed.

Lemma cache_finished_radix wd id r ins n P :
  radix_ok (st (cache wd)) P (handles (heap wd)) → heap wd !! id = Some r →
  releasable (req_to_token (rtp wd)) r → debug_mode (kv wd) = false → last_node r = Some n →
  ∃ wd' s1 P1, Radix.cache_finished_req id ins wd = (Ok tt, wd') ∧
    heap wd' = <[id := r <| kv_committed_freed := true |>]> (heap wd) ∧
    rtp wd' = rtp wd ∧ batch wd' = batch wd ∧ kv wd' = frees (radix_released wd r ins) (kv wd) ∧
    radix_ok (st (cache wd')) P1 (handles (heap wd')) ∧
    taken (st (cache wd)) P s1 P1 (finish_key (rc_page_size (cache wd)) r)
      (slice_to (committed_slots (req_to_token (rtp wd)) r) (len (page_keys (rc_page_size (cache wd)) r)))
      (ins && negb (rc_disable_finished_insert (cache wd))) (kept_len wd r ins) ∧
    relocked s1 (st (cache wd')).
Proof.
  intros HO Hr Hrel Hd Hn. pose proof (proj1 HO) as HC.
  pose proof (tree_ps _ _ _ _ (co_tree _ _ _ HC)) as Hps. cbn in Hps.
  destruct (co_on _ _ _ HC) as [Hdis _]. cbn in Hdis. pose proof (rl_freed _ _ Hrel) as [Hf _].
  destruct (releasable_slots _ _ Hrel) as (row & l & Er & H0 & El & Es & Hls & Hlt).
  set (c := cache wd) in *. set (slots := committed_slots (req_to_token (rtp wd)) r) in *.
  destruct (page_keys_spec (rc_page_size c) r Hps) as (Hpd & Hpr & _ & _).
  set (keys := page_keys (rc_page_size c) r) in *.
  unfold Radix.cache_finished_req. rewrite (bind_ok _ _ wd c wd) by done.
  rewrite (bind_ok _ _ wd r wd) by (unfold req_at; by rewrite Hr).
  unfold pop_committed_kv_cache. rewrite Hf.
  rewrite (bind_ok _ _ wd (kv_committed_len r, r <| kv_committed_freed := true |>) wd) by done. cbv beta iota.
  set (r1 := r <| kv_committed_freed := true |>). set (w1 := wd <| heap ::= <[id := r1]> |>).
  rewrite (bind_ok _ _ wd tt w1) by done.
  rewrite (bind_ok _ _ w1 row w1) by (unfold lift; change (req_pool_idx r1) with (req_pool_idx r); by rewrite Er).
  rewrite (bind_ok _ _ w1 (rtp wd) w1) by done. rewrite Hdis.
  change (slice_to (origin_input_ids r1 ++ output_ids r1) (kv_committed_len r)) with (committed_toks r).
  rewrite (bind_ok _ _ w1 slots w1).
  2:{ unfold lift. rewrite Hlt, (read_row_ok _ _ _ _ _ H0 El), slice_zero by (rewrite <- Hls; apply len_nonneg). by rewrite Es. }
  change (Radix._page_align_keys (rc_page_size c) (committed_toks r)) with keys.
  change (extra_key r1) with (extra_key r). change (cache_protected_len r1) with (cache_protected_len r).
  change (last_node r1) with (last_node r). change (Radix.req_priority r1) with (Radix.req_priority r).
  change (mkKey keys (extra_key r)) with (finish_key (rc_page_size c) r).
  (* the handles once the request has finished *)
  assert (Hhs : handles (heap wd) ≡ₚ n :: handles (<[id := r1]> (heap wd))).
  { rewrite (handles_delete _ id r Hr), handles_insert.
    unfold handle_of, holding. rewrite Er, Hf, Hn. unfold r1. rsimpl. by rewrite Er. }
  pose proof (radix_ok_perm _ _ _ _ HO Hhs) as HO1.
  destruct (take_pages_ok wd w1 r ins P _ HO1 Hrel ltac:(done) Hd) as (c1 & P1 & HO2 & Htaken & E2).
  fold c slots keys in E2, Htaken. step E2.
  set (w2 := w1 <| cache := c1 |> <| kv := frees [slice slots (cache_protected_len r) (kept_len wd r ins)] (kv w1) |>).
  rewrite on_kv_free by (by apply frees_debug). rewrite Hn.
  set (w3 := w2 <| kv := frees [slice_from slots (len keys)] (kv w2) |>).
  destruct (dec_lock_ref_ok c1 P1 _ n HO2) as (c2 & E3 & HO3 & Hrk).
  rewrite (on_cache_bind _ _ w3 _ c2 E3).
  exists (w3 <| cache := c2 |>), (st c1), P1. split_and!; done.
Qed.
End Finish.

(** ** [RadixCache] satisfies [CacheLaws] *)

Lemma taken_same s P s1 P1 key values b m :
  taken s P s1 P1 key values b m → st_ps s1 = st_ps s ∧ st_root s1 = st_root s.
Proof. unfold taken. destruct b; [|by intros (-> & _)]. intros [ss Hin]. by destruct (in_same _ _ _ _ _ _ _ _ Hin) as (? & ? & _). Qed.

#[export] Program Instance radix_laws `{Runtime} : CacheLaws RadixCache := {
  cache_live := radix_live;
  released := radix_released
}.
Next Obligation. intros ? wd wd' Hl Hc _. by apply radix_live_frame. Qed.
Next Obligation.
  intros ? wd id r ins [[P HO] Hl] Hr Hrel Hd.
  assert (Hh : holding r = true).
  { unfold holding. destruct (rl_row _ _ Hrel) as (row & l & -> & _). by destruct (rl_freed _ _ Hrel) as [-> _]. }
  destruct (Hl id r Hr Hh) as [n Hn].
  destruct (cache_finished_radix wd id r ins n P HO Hr Hrel Hd Hn)
    as (wd' & s1 & P1 & E & Eh & Ep & Eb & Ek & HO1 & Htk & Hrk).
  exists wd'. split_and!; [done..| |].
  - split; [by exists P1|]. rewrite Eh. intros i r' Hi Hh'. destruct (decide (i = id)) as [->|Hne].
    + rewrite lookup_insert_eq in Hi. injection Hi as <-. unfold holding in Hh'. rsimpl. by destruct (req_pool_idx r).
    + rewrite lookup_insert_ne in Hi by done. by eapply Hl.
  - destruct (taken_same _ _ _ _ _ _ _ _ Htk) as [E1 _]. destruct (rk_same _ _ Hrk) as (_ & E2 & _).
    change (st_ps (st (cache wd')) = st_ps (st (cache wd))). congruence.
Qed.
