(* ===== verification/RadixHold.v ===== *)
(** * What requests hold in the radix cache

    A request is anchored at its [last_node]: the way to the node spells the
    first [cache_protected_len] tokens of the request, and the row of the
    request lists the slots of the way.  [cache_unfinished_req] moves the
    anchor to the end of the request's pages, [cache_finished_req] lifts it;
    neither loses nor doubles a slot. *)

From S2P Require Import Prelude HeapQ PyFloat Allocator AllocatorFacts Request ReqPool LLM42Info World MemCommon CacheLaws Radix RadixTree RadixState RadixFacts RadixOps RadixLocks RadixEvict RadixReqs.

(** ** A new cache *)

Definition root_shape : Shape := mkShape ∅ None (mkKey [] None) (Some []) 1.

Definition new_state (page_size root : Z) (no_insert : bool) (strategy : EvictionStrategy) : State :=
  mkState {[root := root_shape]} root page_size (root + 1) 0 0 ∅ false false no_insert strategy.

Definition root_only (root : Z) : gmap Z Path := {[root := root_path]}.

(** The root alone is a tree, whatever deleted nodes are in the store. *)
Lemma root_state_ok s :
  st_S s !! st_root s = Some root_shape → 0 < st_ps s → st_evictable s = 0 → st_protected s = 0 → st_leaves s = ∅ →
  (∀ n, is_Some (st_S s !! n) → n < st_counter s) → st_disable s = false → st_events s = false →
  radix_ok s (root_only (st_root s)) [].
Proof.
  intros Hr Hps He Hp Hl Hf Hd Hev.
  assert (Hone : ∀ sel, total (weight sel (st_S s)) (root_only (st_root s)) = 0).
  { intros sel. unfold total, ids, root_only. rewrite map_to_list_singleton. cbn. unfold weight.
    rewrite Hr. cbn. by destruct (sel 1). }
  split; [|by intros h Hh%elem_of_nil]. unfold root_only in *. split.
  - split; [done|by rewrite lookup_singleton_eq| | |].
    + exists root_shape. by split_and!.
    + intros n pn [<- <-]%lookup_singleton_Some. done.
    + intros p pp sp k c [<- <-]%lookup_singleton_Some. rewrite Hr. by intros [= <-].
  - intros n pn t [<- <-]%lookup_singleton_Some. done.
  - by rewrite Hone.
  - by rewrite Hone.
  - intros n. rewrite Hl. split; [set_solver|]. intros (Hne & [q [<- _]%lookup_singleton_Some] & _). done.
  - done.
  - done.
Qed.

Lemma new_state_ok page_size root no_insert strategy :
  0 < page_size →
  radix_ok (new_state page_size root no_insert strategy) (root_only root) [] ∧
  tree_slots {[root := root_shape]} (root_only root) = [].
Proof.
  intros Hps. split.
  - apply (root_state_ok (new_state page_size root no_insert strategy)); try done; cbn.
    + apply lookup_singleton_eq.
    + intros n [t [<- _]%lookup_singleton_Some]. lia.
  - unfold tree_slots, ids, root_only. rewrite map_to_list_singleton. cbn. unfold node_slots.
    by rewrite lookup_singleton_eq.
Qed.

(** [reset] makes a new root; the old nodes stay in the store. *)
Lemma reset_state `{Runtime} c :
  rc_enable_kv_cache_events c = false →
  ∃ c', Radix.reset c = (Ok tt, c') ∧
    st c' = mkState (<[rc_counter c := root_shape]> (shape <$> rc_nodes c)) (rc_counter c) (rc_page_size c)
              (rc_counter c + 1) 0 0 ∅ (rc_disable c) false (rc_disable_finished_insert c) (rc_strategy c).
Proof.
  intros Hev. unfold Radix.reset.
  destruct (new_node_ok (- maxsize) c) as (t0 & t1 & c1 & E1 & En & Ec). step E1.
  rewrite (upd_node_bind _ _ (fresh_node t0 t1 (- maxsize)) c1) by (by rewrite En, lookup_insert_eq).
  set (c2 := c1 <| rc_nodes ::= _ |>).
  set (c3 := c2 <| rc_root := rc_counter c |> <| rc_evictable_size := 0 |> <| rc_protected_size := 0 |>
                <| rc_evictable_leaves := ∅ |>).
  rewrite (bind_ok _ _ c2 tt c3) by done.
  injection Ec as _ _ Eps Ecn _ _ _ Edis Eev Eni Est. rewrite Hev in Eev.
  unfold Radix._record_all_cleared_event. rewrite (bind_ok _ _ c3 c3 c3) by done.
  change (rc_enable_kv_cache_events c3) with (rc_enable_kv_cache_events c1). rewrite Eev.
  exists c3. split; [done|]. apply state_ext; try done.
  unfold c3, c2. cbn. rsimpl. rewrite En, insert_insert_eq. by rewrite fmap_insert.
Qed.

Lemma init_state `{Runtime} page_size no_insert policy s counter clock :
  strategy_of policy = Ok s →
  ∃ c, Radix.init false page_size false no_insert policy counter clock = Ok c ∧
    st c = new_state page_size counter no_insert s.
Proof.
  intros Es. unfold Radix.init. rewrite Es. cbn [mbind res_bind].
  set (c0 := mkRadixCache _ _ _ _ _ _ _ _ _ _ _ _ _). destruct (reset_state c0 eq_refl) as (c & E & Est).
  rewrite E. exists c. split; [done|]. rewrite Est. unfold c0. cbn [rc_nodes rc_counter]. by rewrite fmap_empty.
Qed.

Lemma reset_ok `{Runtime} c :
  (∀ n, is_Some (rc_nodes c !! n) → n < rc_counter c) → 0 < rc_page_size c → rc_disable c = false →
  rc_enable_kv_cache_events c = false →
  ∃ c', Radix.reset c = (Ok tt, c') ∧ rc_page_size c' = rc_page_size c ∧
    radix_ok (st c') (root_only (rc_root c')) [].
Proof.
  intros Hf Hps Hd Hev. destruct (reset_state c Hev) as (c' & E & Est). exists c'. split; [done|].
  split; [exact (f_equal st_ps Est)|].
  change (rc_root c') with (st_root (st c')). rewrite Est.
  apply root_state_ok; try done; cbn [st_S st_root st_counter].
  - apply lookup_insert_eq.
  - intros n [t Ht]. apply lookup_insert_Some in Ht as [[<- _]|[_ Ht]]; [lia|].
    rewrite lookup_fmap in Ht. destruct (rc_nodes c !! n) eqn:Hn; [|done].
    specialize (Hf n ltac:(by rewrite Hn)). lia.
Qed.

(** Nothing is cached below the root alone. *)
Lemma root_cached ps root e ts ss : cached ps (root_only root) e ts ss → ts = [].
Proof.
  intros [_ [[-> _]|(n & pn & Hn & _ & Hp & _)]]; [done|].
  unfold root_only in Hn. apply lookup_singleton_Some in Hn as [_ <-]. by apply prefix_nil_inv in Hp.
Qed.

(** ** Anchors *)

(** The first [cache_protected_len] tokens [toks] of a request are those on
    the way to its node, the first slots of its row those of the way. *)
Definition anchored (s : State) (P : gmap Z Path) (toks row : list Z) (r : Req) : Prop :=
  0 ≤ cache_protected_len r ≤ len toks ∧
  ∃ n, last_node r = Some n ∧
    reached s P (mkKey toks (extra_key r)) n (cache_protected_len r)
      (take (Z.to_nat (cache_protected_len r)) row).

Lemma reached_cached s P Hs key n m ss :
  radix_ok s P Hs → reached s P key n m ss → 0 ≤ m ≤ Key.len key →
  (st_ps s | m) ∧ cached (st_ps s) P (key_extra key) (take (Z.to_nat m) (token_ids key)) ss.
Proof.
  intros [HC _] (pn & Hn & Et & Es & Hx) Hm. pose proof (co_tree _ _ _ HC) as HT.
  destruct (path_aligned _ _ _ _ HT _ _ Hn) as [Hd Hl].
  assert (El : len (p_toks pn) = m).
  { rewrite Et, len_take. change (len (token_ids key)) with (Key.len key). lia. }
  rewrite El in Hd. split; [done|]. destruct Hx as [[-> ->]|<-].
  - rewrite <- Es. destruct (path_root _ _ _ _ HT _ _ Hn El) as [_ ->]. apply cached_nil.
  - rewrite <- Et, <- Es. by eapply cached_node.
Qed.

(** Only the first tokens of a key matter. *)
Lemma reached_take s P toks toks' e n m ss :
  reached s P (mkKey toks e) n m ss → take (Z.to_nat m) toks = take (Z.to_nat m) toks' →
  reached s P (mkKey toks' e) n m ss.
Proof. intros (pn & Hn & Et & Es & Hx) E. exists pn. cbn in *. by rewrite <- E. Qed.

(** The slots of a way are in the tree. *)
Lemma path_slots ps root S P n pn : tree ps root S P → P !! n = Some pn → p_slots pn ⊆ tree_slots S P.
Proof.
  intros HT. revert n pn. apply (path_ind _ _ _ _ HT); [set_solver|].
  intros n pn l Hn Hne HL IH. rewrite (ln_path _ _ _ _ _ _ _ HL). cbn. intros x [Hx|Hx]%elem_of_app; [by apply IH|].
  unfold tree_slots. apply list_elem_of_In, in_concat. exists (l_v l). split; [|by apply list_elem_of_In].
  apply list_elem_of_In, list_elem_of_fmap. exists n. split; [|by apply elem_of_ids; rewrite Hn].
  unfold node_slots. rewrite (ln_shape _ _ _ _ _ _ _ HL). cbn. by rewrite (ln_value _ _ _ _ _ _ _ HL).
Qed.

(** An insertion of a sequence whose first [k] tokens are cached in the slots
    it comes with: the slots before [k] stay, those from [k] to the cached
    length are doubles, the others are in the tree now. *)
Lemma inserted_conserves s P Hs s' P' key value m ss k :
  radix_ok s P Hs → inserted s P s' P' key value m ss → len value = Key.len key →
  0 ≤ k ≤ Key.len key →
  cached (st_ps s) P (key_extra key) (take (Z.to_nat k) (token_ids key)) (take (Z.to_nat k) value) →
  k ≤ m ∧ take (Z.to_nat k) ss = take (Z.to_nat k) value ∧
  tree_slots (st_S s') P' ++ slice value k m ≡ₚ tree_slots (st_S s) P ++ drop (Z.to_nat k) value.
Proof.
  intros [HC _] Hin Hv Hk Hck. pose proof (in_longest _ _ _ _ _ _ _ _ Hin) as HL.
  pose proof (lo_range _ _ _ _ _ HL) as Hm. pose proof (proj1 Hck) as Hkd.
  assert (Hkt : len (take (Z.to_nat k) (token_ids key)) = k).
  { rewrite len_take. change (len (token_ids key)) with (Key.len key). lia. }
  assert (Hkm : k ≤ m).
  { pose proof (lo_max _ _ _ _ _ HL _ _ Hck (prefix_take _ _)). lia. }
  split; [done|]. split.
  - rewrite Hkt in Hkd.
    assert (Hp : take (Z.to_nat k) (token_ids key) `prefix_of` take (Z.to_nat m) (token_ids key)).
    { replace (take (Z.to_nat k) (token_ids key)) with (take (Z.to_nat k) (take (Z.to_nat m) (token_ids key)))
        by (rewrite take_take; f_equal; lia). apply prefix_take. }
    pose proof (cached_prefix _ _ _ _ _ _ (lo_cached _ _ _ _ _ HL) Hp ltac:(by rewrite Hkt)) as Hc2.
    pose proof (cached_fun _ _ _ _ (co_tree _ _ _ HC) _ _ _ _ Hck Hc2) as E.
    rewrite E. f_equal. unfold len in Hkt. lia.
  - rewrite (in_slots _ _ _ _ _ _ _ _ Hin), slice_nonneg by lia.
    replace (drop (Z.to_nat m) value)
      with (drop (Z.to_nat m - Z.to_nat k) (drop (Z.to_nat k) value)) by (rewrite drop_drop; f_equal; lia).
    rewrite <- (take_drop (Z.to_nat m - Z.to_nat k) (drop (Z.to_nat k) value)) at 3.
    generalize (take (Z.to_nat m - Z.to_nat k) (drop (Z.to_nat k) value)).
    generalize (drop (Z.to_nat m - Z.to_nat k) (drop (Z.to_nat k) value)). intros a b.
    generalize (tree_slots (st_S s) P). intros d. solve_Permutation.
Qed.

Lemma relocked_slots s s' P : relocked s s' → tree_slots (st_S s') P = tree_slots (st_S s) P.
Proof. intros Hr. apply tree_slots_ext. intros n q _. by apply rk_slots. Qed.

(** A whole page before the end is before the last whole page. *)
Lemma aligned_max ps k n : 0 < ps → (ps | k) → k ≤ n → k ≤ Radix.aligned_len ps n.
Proof. intros Hps [q ->] Hk. unfold Radix.aligned_len. apply Z.mul_le_mono_nonneg_r; [lia|]. by apply Z.div_le_lower_bound; lia. Qed.

Lemma align_whole ps key : 0 < ps → (ps | Key.len key) → align ps key = key.
Proof.
  intros Hps Hd. unfold align. destruct (ps =? 1); [done|]. destruct key as [ts e]. unfold Key.upto. cbn. f_equal.
  unfold Radix.aligned_len. unfold Key.len in *. cbn in *. destruct Hd as [q Hq]. rewrite Hq, Z.div_mul by lia. rewrite <- Hq.
  rewrite slice_to_take by apply len_nonneg. apply take_ge. unfold len. lia.
Qed.

Lemma slice_drop {A} (xs : list A) i j : 0 ≤ i ≤ j → slice xs i j ++ drop (Z.to_nat j) xs = drop (Z.to_nat i) xs.
Proof.
  intros Hi. rewrite slice_nonneg by lia.
  replace (drop (Z.to_nat j) xs) with (drop (Z.to_nat j - Z.to_nat i) (drop (Z.to_nat i) xs)) by (rewrite drop_drop; f_equal; lia).
  apply take_drop.
Qed.

Lemma slice_take {A} (xs : list A) i j k : 0 ≤ i → 0 ≤ j ≤ k → slice (take (Z.to_nat k) xs) i j = slice xs i j.
Proof.
  intros Hi Hj. rewrite !slice_nonneg by lia. rewrite skipn_firstn_comm, take_take. f_equal. lia.
Qed.

(** The pages of an anchored request are inserted. *)
Lemma anchored_insert s P Hs s' P' toks row r m ss :
  let k := Radix.aligned_len (st_ps s) (len toks) in
  let cpl := cache_protected_len r in
  radix_ok s P Hs → anchored s P toks row r → len toks ≤ len row →
  inserted s P s' P' (mkKey (take (Z.to_nat k) toks) (extra_key r)) (take (Z.to_nat k) row) m ss →
  cpl ≤ m ≤ k ∧ take (Z.to_nat cpl) ss = take (Z.to_nat cpl) row ∧
  tree_slots (st_S s') P' ++ slice row cpl m ≡ₚ tree_slots (st_S s) P ++ slice row cpl k.
Proof.
  cbv zeta. intros HO [Hcpl (n & Hn & Hreach)] Hlen Hin.
  pose proof (tree_ps _ _ _ _ (co_tree _ _ _ (proj1 HO))) as Hps.
  destruct (reached_cached _ _ _ _ _ _ _ HO Hreach Hcpl) as [Hkd Hc]. cbn [key_extra token_ids] in Hc.
  pose proof (aligned_max _ _ _ Hps Hkd (proj2 Hcpl)) as Hmax.
  destruct (aligned_spec (st_ps s) (len toks) Hps (len_nonneg _)) as [Hal _].
  set (k := Radix.aligned_len _ _) in *. set (cpl := cache_protected_len r) in *.
  set (key := mkKey (take (Z.to_nat k) toks) (extra_key r)) in *.
  assert (Hkl : Key.len key = k) by (unfold Key.len; cbn; rewrite len_take; lia).
  pose proof (lo_range _ _ _ _ _ (in_longest _ _ _ _ _ _ _ _ Hin)) as Hm. rewrite Hkl in Hm.
  destruct (inserted_conserves _ _ _ _ _ _ _ _ _ cpl HO Hin) as (Hkm & Es & Hperm).
  - rewrite len_take, Hkl. lia.
  - lia.
  - cbn [key_extra token_ids key]. rewrite !take_take, !Nat.min_l by lia. exact Hc.
  - rewrite take_take, Nat.min_l in Es by lia. rewrite slice_take in Hperm by lia.
    split_and!; [lia|lia|done|]. rewrite Hperm. f_equiv. rewrite slice_nonneg, skipn_firstn_comm by lia. done.
Qed.

Section Hold.
Context `{Runtime}.

(** ** Finishing *)

Lemma finish_conserves wd id r ins P :
  radix_ok (st (cache wd)) P (handles (heap wd)) → heap wd !! id = Some r →
  releasable (req_to_token (rtp wd)) r → debug_mode (kv wd) = false →
  anchored (st (cache wd)) P (committed_toks r) (committed_slots (req_to_token (rtp wd)) r) r →
  ∃ wd' P', Radix.cache_finished_req id ins wd = (Ok tt, wd') ∧
    heap wd' = <[id := r <| kv_committed_freed := true |>]> (heap wd) ∧
    kv wd' = frees (radix_released wd r ins) (kv wd) ∧
    radix_ok (st (cache wd')) P' (handles (heap wd')) ∧
    tree_slots (st_S (st (cache wd'))) P' ++ concat (radix_released wd r ins)
    ≡ₚ tree_slots (st_S (st (cache wd))) P
       ++ drop (Z.to_nat (cache_protected_len r)) (committed_slots (req_to_token (rtp wd)) r).
Proof.
  intros HO Hr Hrel Hd Han. pose proof Han as [Hcpl (n & Hn & Hreach)].
  pose proof (tree_ps _ _ _ _ (co_tree _ _ _ (proj1 HO))) as Hps. cbn in Hps.
  destruct (cache_finished_radix wd id r ins n P HO Hr Hrel Hd Hn)
    as (wd' & s1 & P1 & E & Eh & _ & _ & Ek & HO1 & Htk & Hrk).
  exists wd', P1. split_and!; [done..|]. rewrite (relocked_slots _ _ _ Hrk).
  destruct (releasable_slots _ _ Hrel) as (row & l & _ & _ & _ & _ & Hls & Hlt).
  destruct (page_keys_spec (rc_page_size (cache wd)) r Hps) as (_ & Hpr & Ept & Epl).
  unfold radix_released. cbn [concat]. rewrite app_nil_r, slice_from_drop by lia.
  unfold taken in Htk. case_match.
  - destruct Htk as [ss Hin]. rewrite slice_to_take in Hin by lia. unfold finish_key in Hin.
    rewrite Ept in Hin at 1. rewrite Epl in Hin. 
    destruct (anchored_insert _ _ _ _ _ _ _ _ _ _ HO Han ltac:(lia) Hin) as (Hkm & _ & Hperm).
    cbn [st_ps st] in Hkm. rewrite app_assoc, Hperm, <- app_assoc. cbn [st_ps st]. rewrite <- Epl, slice_drop by lia. done.
  - destruct Htk as (-> & -> & ->). change (Key.len (finish_key _ r)) with (len (page_keys (rc_page_size (cache wd)) r)).
    destruct (reached_cached _ _ _ _ _ _ _ HO Hreach Hcpl) as [Hkd _].
    pose proof (aligned_max _ _ _ Hps Hkd (proj2 Hcpl)). rewrite slice_drop by lia. done.
Qed.

(** ** Keeping a request *)

(** What was inserted is found again, all of it. *)
Lemma insert_match c P Hs key value prio :
  radix_ok (st c) P Hs → (rc_page_size c | Key.len key) → len value = Key.len key →
  ∃ c1 P1 m ss c2 P2 node,
    Radix.insert key (Some value) prio c = (Ok m, c1) ∧ inserted (st c) P (st c1) P1 key value m ss ∧
    Radix.match_prefix key c1 = (Ok (ss ++ drop (Z.to_nat m) value, node), c2) ∧
    radix_ok (st c2) P2 Hs ∧ finer (st c1) P1 (st c2) P2 ∧
    reached (st c2) P2 key node (Key.len key) (ss ++ drop (Z.to_nat m) value).
Proof.
  intros HO Hd Hv. pose proof (tree_ps _ _ _ _ (co_tree _ _ _ (proj1 HO))) as Hps. cbn in Hps.
  destruct (insert_ok c P Hs key value prio HO Hd Hv) as (c1 & P1 & m & ss & E1 & HO1 & Hin).
  destruct (match_prefix_ok c1 P1 Hs key HO1) as (c2 & P2 & node & m' & ss' & E2 & HO2 & Hf & Hlo & Hre).
  destruct (in_same _ _ _ _ _ _ _ _ Hin) as (_ & Eps & _). cbn in Eps. rewrite Eps in *.
  rewrite align_whole in Hlo, Hre by done.
  pose proof (in_longest _ _ _ _ _ _ _ _ Hin) as HL. pose proof (lo_range _ _ _ _ _ HL) as Hm.
  assert (Hall : cached (rc_page_size c) P1 (key_extra key) (token_ids key) (ss ++ drop (Z.to_nat m) value)).
  { apply (in_cached _ _ _ _ _ _ _ _ Hin). right. split_and!; [done|done|done|]. rewrite take_ge; [done|].
    pose proof (lo_len _ _ _ _ _ HL). unfold Key.len, len in *. rewrite length_app, length_drop. lia. }
  pose proof (lo_max _ _ _ _ _ Hlo _ _ Hall (reflexivity _)) as Hge.
  pose proof (lo_range _ _ _ _ _ Hlo) as Hle. change (len (token_ids key)) with (Key.len key) in Hge.
  assert (m' = Key.len key) as -> by lia.
  pose proof (lo_cached _ _ _ _ _ Hlo) as Hc'. rewrite take_ge in Hc' by (unfold Key.len, len; lia).
  pose proof (co_tree _ _ _ (proj1 HO1)) as HT1. cbn in HT1. rewrite Eps in HT1.
  pose proof (cached_fun _ _ _ _ HT1 _ _ _ _ Hall Hc') as <-.
  exists c1, P1, m, ss, c2, P2, node. by split_and!.
Qed.

Lemma finer_sub s P s1 P1 s2 P2 key value m ss :
  inserted s P s1 P1 key value m ss → finer s1 P1 s2 P2 → P ⊆ P2.
Proof. intros Hin Hf. etrans; [by eapply in_sub|by eapply fi_sub]. Qed.

Definition fits32 (xs : list Z) : Prop := Forall (λ x, to_int32 x = x) xs.

(** The row once the pages are those of the tree *)
Definition shared_row (row slots : list Z) : list Z := slots ++ drop (length slots) row.

Lemma write_shared p i row slots k :
  0 ≤ i → req_to_token p !! Z.to_nat i = Some row → 0 ≤ k ≤ len slots → len slots ≤ len row →
  take (Z.to_nat k) slots = take (Z.to_nat k) row → fits32 slots →
  Pool.write i k (len slots) (slice_from slots k) p
  = Ok (p <| req_to_token ::= <[Z.to_nat i := shared_row row slots]> |>).
Proof.
  intros Hi Hrow Hk Hl Et Hf. unfold Pool.write.
  rewrite (getitem_nth _ _ _ Hi Hrow). cbn [mbind res_bind].
  assert (Em : to_int32 <$> slice_from slots k = slice_from slots k).
  { rewrite slice_from_drop by lia. apply (Forall_drop _ (Z.to_nat k)) in Hf. unfold fits32 in Hf.
    induction Hf as [|x xs Hx _ IH]; [done|]. cbn. by rewrite Hx, IH. }
  rewrite Em. unfold Pool.set_slice.
  assert (En : len (slice row k (len slots)) = len slots - k)
    by (rewrite slice_nonneg, len_take, len_drop by lia; lia).
  rewrite En, len_slice_from, Z.eqb_refl by lia. cbn [mbind res_bind].
  apply lookup_lt_Some in Hrow as Hlt.
  replace i with (Z.of_nat (Z.to_nat i)) at 1 by lia. rewrite setitem_ok by (unfold len; lia). cbn [mbind res_bind].
  assert (E : take (Z.to_nat (adj (len row) k)) row ++ slice_from slots k ++
                drop (Z.to_nat (adj (len row) k) + Z.to_nat (len slots - k)) row = shared_row row slots).
  { unfold shared_row. rewrite adj_in, slice_from_drop by lia. rewrite <- Et, app_assoc, take_drop.
    do 2 f_equal. unfold len in *. lia. }
  rewrite E. by destruct p.
Qed.

Lemma page_align_take ps toks : 0 < ps →
  Radix._page_align_keys ps toks = take (Z.to_nat (Radix.aligned_len ps (len toks))) toks.
Proof.
  intros Hps. destruct (align_spec ps (mkKey toks None) Hps) as (_ & _ & E). etrans; [|exact E].
  unfold Radix._page_align_keys, align. by destruct (ps =? 1).
Qed.

(** The request afterwards: its pages are those on the way to [node]. *)
Definition kept_req (r : Req) (row' : list Z) (k node : Z) : Req :=
  r <| cache_protected_len := k |> <| prefix_indices := take (length (fill_ids r)) row' |>
    <| last_node := Some node |>.

(** The slots of what was inserted fit into the row. *)
Lemma inserted_fits s P s1 P1 s2 P2 Hs key value m ss node n2 :
  radix_ok s2 P2 Hs → inserted s P s1 P1 key value m ss → finer s1 P1 s2 P2 →
  reached s2 P2 key node n2 (ss ++ drop (Z.to_nat m) value) →
  fits32 (tree_slots (st_S s) P) → fits32 value → fits32 (ss ++ drop (Z.to_nat m) value).
Proof.
  intros HO2 Hin Hf (pn & Hpn & _ & <- & _) Ht Hv. apply Forall_forall. intros x Hx.
  apply (path_slots _ _ _ _ _ _ (co_tree _ _ _ (proj1 HO2)) Hpn) in Hx.
  rewrite (fi_slots _ _ _ _ Hf), (in_slots _ _ _ _ _ _ _ _ Hin) in Hx.
  apply elem_of_app in Hx as [Hx|Hx].
  - eapply Forall_forall in Hv; [exact Hv|]. by eapply subseteq_drop.
  - by eapply Forall_forall in Ht.
Qed.

(** The shared row starts with the slots, and the request reads its prefix
    there. *)
Lemma shared_row_spec row slots n :
  len slots ≤ n ≤ len row →
  take (length slots) (shared_row row slots) = slots ∧
  drop (length slots) (shared_row row slots) = drop (length slots) row ∧
  (if len slots <? len (take (Z.to_nat n) row)
   then slots ++ slice_from (take (Z.to_nat n) row) (len slots) else slots)
  = take (Z.to_nat n) (shared_row row slots).
Proof.
  intros Hn. pose proof (len_nonneg slots). unfold shared_row. rewrite take_app_length, drop_app_length.
  split_and!; [done..|]. rewrite slice_from_drop, len_take by lia.
  replace (Z.to_nat (len slots)) with (length slots) by (unfold len; lia).
  rewrite take_app, (take_ge slots) by (unfold len in *; lia). rewrite skipn_firstn_comm.
  destruct (Z.ltb_spec (len slots) (Z.min (Z.of_nat (Z.to_nat n)) (len row))); [done|].
  replace (Z.to_nat n - length slots)%nat with 0%nat by (unfold len in *; lia). by rewrite take_0, app_nil_r.
Qed.

(** The lock goes from one node to the other. *)
Lemma move_lock_ok c P Hs n node pn :
  radix_ok (st c) P (n :: Hs) → P !! node = Some pn →
  ∃ c1 c2 a b, Radix.dec_lock_ref (Some n) c = (Ok a, c1) ∧ Radix.inc_lock_ref (Some node) c1 = (Ok b, c2) ∧
    radix_ok (st c2) P (node :: Hs) ∧ relocked (st c) (st c2).
Proof.
  intros HO Hn. destruct (dec_lock_ref_ok c P Hs n HO) as (c1 & E1 & HO1 & R1).
  destruct (inc_lock_ref_ok c1 P Hs node pn HO1 Hn) as (c2 & E2 & HO2 & R2).
  exists c1, c2. do 2 eexists. split_and!; [done..|]. by eapply relocked_trans.
Qed.

Lemma reached_relocked s s' P key node m ss :
  relocked s s' → reached s P key node m ss → reached s' P key node m ss.
Proof. intros Hr (pn & ? & ? & ? & Hx). exists pn. by rewrite (proj1 (rk_same _ _ Hr)). Qed.

(** The steps of [cache_unfinished_req], from those of the tree *)
Lemma unfinished_run wd id r i row chunked slots m node c1 c2 c3 c4 a b :
  let k := Radix.aligned_len (rc_page_size (cache wd)) (len (fill_ids r)) in
  let key := mkKey (take (Z.to_nat k) (fill_ids r)) (extra_key r) in
  let row' := shared_row row slots in
  0 < rc_page_size (cache wd) → rc_disable (cache wd) = false →
  heap wd !! id = Some r → debug_mode (kv wd) = false → req_pool_idx r = Some i → 0 ≤ i →
  req_to_token (rtp wd) !! Z.to_nat i = Some row → len (fill_ids r) ≤ len row →
  Radix.insert key (Some (take (Z.to_nat k) row)) (Some (Radix.req_priority r)) (cache wd) = (Ok m, c1) →
  Radix.match_prefix key c1 = (Ok (slots, node), c2) →
  Radix.dec_lock_ref (last_node r) c2 = (Ok a, c3) → Radix.inc_lock_ref (Some node) c3 = (Ok b, c4) →
  len slots = k → 0 ≤ cache_protected_len r ≤ m → m ≤ k → fits32 slots →
  take (Z.to_nat (cache_protected_len r)) slots = take (Z.to_nat (cache_protected_len r)) row →
  Radix.cache_unfinished_req id chunked wd
  = (Ok tt, mkWorld (<[id := kept_req r row' k node]> (heap wd)) (frees [slice row (cache_protected_len r) m] (kv wd))
              ((rtp wd) <| req_to_token ::= <[Z.to_nat i := row']> |>) c4 (batch wd)).
Proof.
  cbv zeta. intros Hps Hdis Hr Hd Hi H0 Hrow Hlen E1 E2 E3 E4 Hsl Hm Hmk Hfit Htk.
  destruct (aligned_spec (rc_page_size (cache wd)) (len (fill_ids r)) Hps (len_nonneg _)) as [Hal _].
  set (k := Radix.aligned_len _ _) in *.
  destruct (shared_row_spec row slots (len (fill_ids r)) ltac:(lia)) as (_ & _ & Epre).
  unfold Radix.cache_unfinished_req. rewrite (bind_ok _ _ wd (cache wd) wd) by done. rewrite Hdis.
  rewrite (bind_ok _ _ wd r wd) by (unfold req_at; by rewrite Hr).
  rewrite (bind_ok _ _ wd i wd) by (unfold lift; by rewrite Hi).
  rewrite (bind_ok _ _ wd (rtp wd) wd) by done.
  rewrite (bind_ok _ _ wd (take (Z.to_nat (len (fill_ids r))) row) wd).
  2:{ unfold lift. rewrite (read_row_ok _ _ _ _ _ H0 Hrow), slice_zero by lia. by rewrite slice_to_take by lia. }
  rewrite page_align_take by done. fold k. cbv zeta.
  replace (len (take (Z.to_nat k) (fill_ids r))) with k by (rewrite len_take; lia).
  rewrite (slice_to_take _ k), take_take, Nat.min_l by lia.
  rewrite (on_cache_bind _ _ wd m c1 E1), on_kv_free by done. set (w1 := wd <| cache := c1 |>).
  rewrite slice_take by lia. set (w2 := w1 <| kv := _ |>).
  rewrite (on_cache_bind _ _ w2 _ c2 E2), Hsl. set (w3 := w2 <| cache := c2 |>).
  rewrite (bind_ok _ _ w3 tt w3) by (unfold assert_; by rewrite Z.eqb_refl).
  set (w4 := w3 <| rtp ::= λ p, p <| req_to_token ::= <[Z.to_nat i := shared_row row slots]> |> |>).
  rewrite (bind_ok _ _ w3 tt w4).
  2:{ unfold on_rtp. rewrite <- Hsl, (write_shared _ i row slots) by (done || lia). done. }
  set (r1 := r <| cache_protected_len := k |>). set (w5 := w4 <| heap ::= <[id := r1]> |>).
  rewrite (bind_ok _ _ w4 tt w5) by done.
  rewrite (on_cache_bind _ _ w5 _ c3 E3). set (w6 := w5 <| cache := c3 |>).
  rewrite (on_cache_bind _ _ w6 _ c4 E4). set (w7 := w6 <| cache := c4 |>).
  unfold upd_req. rewrite (bind_ok _ _ w7 r1 w7).
  2:{ unfold req_at, w7, w6, w5. rsimpl. by rewrite lookup_insert_eq. }
  rewrite Hsl in Epre. rewrite Epre. unfold set_req, modify, w7, w6, w5, w4, w3, w2, w1. rsimpl.
  unfold len. rewrite Nat2Z.id. by rewrite <- (insert_insert_eq (heap wd) id (kept_req _ _ _ _) r1).
Qed.

Lemma unfinished_ok wd id r P i row chunked :
  let k := Radix.aligned_len (rc_page_size (cache wd)) (len (fill_ids r)) in
  let cpl := cache_protected_len r in
  radix_ok (st (cache wd)) P (handles (heap wd)) → heap wd !! id = Some r → debug_mode (kv wd) = false →
  kv_committed_freed r = false → req_pool_idx r = Some i → 0 ≤ i →
  req_to_token (rtp wd) !! Z.to_nat i = Some row → len (fill_ids r) ≤ len row →
  anchored (st (cache wd)) P (fill_ids r) row r →
  fits32 (tree_slots (st_S (st (cache wd))) P) → fits32 row →
  ∃ wd' P' row' m node, Radix.cache_unfinished_req id chunked wd = (Ok tt, wd') ∧
    heap wd' = <[id := kept_req r row' k node]> (heap wd) ∧
    rtp wd' = (rtp wd) <| req_to_token ::= <[Z.to_nat i := row']> |> ∧ batch wd' = batch wd ∧
    kv wd' = frees [slice row cpl m] (kv wd) ∧
    radix_ok (st (cache wd')) P' (handles (heap wd')) ∧ P ⊆ P' ∧
    anchored (st (cache wd')) P' (fill_ids r) row' (kept_req r row' k node) ∧
    drop (Z.to_nat k) row' = drop (Z.to_nat k) row ∧
    tree_slots (st_S (st (cache wd'))) P' ++ slice row cpl m
    ≡ₚ tree_slots (st_S (st (cache wd))) P ++ slice row cpl k.
Proof.
  cbv zeta. intros HO Hr Hd Hf Hi H0 Hrow Hlen Han Hft Hfr.
  pose proof Han as [Hcpl (n & Hn & Hreach)]. pose proof (proj1 HO) as HC.
  pose proof (tree_ps _ _ _ _ (co_tree _ _ _ HC)) as Hps. cbn in Hps.
  destruct (co_on _ _ _ HC) as [Hdis _]. cbn in Hdis.
  destruct (aligned_spec (rc_page_size (cache wd)) (len (fill_ids r)) Hps (len_nonneg _)) as [Hal Hpd].
  set (k := Radix.aligned_len _ _) in *.
  assert (Hhs : handles (heap wd) ≡ₚ n :: handles (delete id (heap wd))).
  { rewrite (handles_delete _ id r Hr). unfold handle_of, holding. by rewrite Hi, Hf, Hn. }
  set (key := mkKey (take (Z.to_nat k) (fill_ids r)) (extra_key r)).
  set (value := take (Z.to_nat k) row).
  assert (Hkl : Key.len key = k) by (unfold Key.len; cbn; rewrite len_take; lia).
  destruct (insert_match (cache wd) P _ key value (Some (Radix.req_priority r)) HO)
    as (c1 & P1 & m & ss & c2 & P2 & node & E1 & Hin & E2 & HO2 & Hfi & Hre).
  { by rewrite Hkl. } { unfold value. rewrite len_take, Hkl. lia. }
  destruct (anchored_insert _ _ _ _ _ _ _ _ _ _ HO Han Hlen Hin) as (Hkm & Ess & Hperm).
  cbn [st_ps st] in Hkm, Hperm. fold k in Hkm, Hperm.
  set (slots := ss ++ drop (Z.to_nat m) value) in *.
  pose proof (lo_len _ _ _ _ _ (in_longest _ _ _ _ _ _ _ _ Hin)) as Hss.
  assert (Hsl : len slots = k).
  { unfold slots, value. rewrite len_app, len_drop, len_take. lia. }
  assert (Hfit : fits32 slots).
  { eapply inserted_fits; [exact HO2|exact Hin|exact Hfi|exact Hre|exact Hft|]. by apply Forall_take. }
  assert (Htk : take (Z.to_nat (cache_protected_len r)) slots = take (Z.to_nat (cache_protected_len r)) row).
  { unfold slots. rewrite take_app_le by (unfold len in Hss; lia). exact Ess. }
  destruct (shared_row_spec row slots (len (fill_ids r)) ltac:(lia)) as (Ert & Erd & Epre).
  set (row' := shared_row row slots) in *.
  pose proof Hre as (pn & Hpn & _).
  destruct (move_lock_ok c2 P2 (handles (delete id (heap wd))) n node pn) as (c3 & c4 & x & y & E3 & E4 & HO4 & Hrk); [|done|].
  { eapply radix_ok_perm; [exact HO2|done]. }
  eexists _, P2, row', m, node. split.
  { eapply unfinished_run; try done; [by rewrite Hn|lia|lia]. }
  cbn [heap rtp batch kv cache]. split_and!; try done.
  - eapply radix_ok_perm; [exact HO4|]. rewrite handles_insert. unfold handle_of, holding, kept_req. rsimpl.
    by rewrite Hi, Hf.
  - by eapply finer_sub.
  - split; [change (cache_protected_len (kept_req r row' k node)) with k; lia|]. exists node. split; [done|]. unfold kept_req. rsimpl.
    replace (take (Z.to_nat k) row') with slots.
    2:{ rewrite <- Ert at 1. f_equal. unfold len in Hsl. lia. }
    eapply reached_relocked; [exact Hrk|]. rewrite Hkl in Hre. eapply reached_take; [exact Hre|].
    by rewrite take_take, Nat.min_id.
  - replace (Z.to_nat k) with (length slots) by (unfold len in Hsl; lia). done.
  - rewrite (relocked_slots _ _ _ Hrk), (fi_slots _ _ _ _ Hfi). exact Hperm.
Qed.
End Hold.
