(* ===== verification/RadixClaims.v ===== *)
(** * Theorems on the radix cache

    The promises of [RadixCache] to its callers: lookups return the longest
    cached prefix, what is inserted is found again, locks keep what requests
    use, eviction frees what nobody uses in the order of the policy, and
    requests come and go without losing slots. *)

From S2P Require Import Prelude HeapQ PyFloat Allocator AllocatorFacts Request ReqPool LLM42Info Demo World MemCommon CacheLaws Radix RadixTree RadixState RadixFacts RadixOps RadixLocks RadixEvict RadixReqs RadixHold.

(** ** Runs of the cache *)

(** The cache and the nodes its users hold *)
Definition Users : Type := (World RadixCache * list Z)%type.

(** The calls users make: lookups, insertions of whole pages, locks on the
    node of a lookup, their release, and evictions *)
Inductive call `{Runtime} : Users → Users → Prop :=
| call_match w Hs key x c' :
    Radix.match_prefix key (cache w) = (Ok x, c') → call (w, Hs) (w <| cache := c' |>, Hs)
| call_insert w Hs key value prio m c' :
    (rc_page_size (cache w) | Key.len key) → len value = Key.len key →
    Radix.insert key (Some value) prio (cache w) = (Ok m, c') → call (w, Hs) (w <| cache := c' |>, Hs)
| call_lock w Hs key ss node c1 d c2 :
    Radix.match_prefix key (cache w) = (Ok (ss, node), c1) →
    Radix.inc_lock_ref (Some node) c1 = (Ok d, c2) → call (w, Hs) (w <| cache := c2 |>, node :: Hs)
| call_unlock w Hs node Hs' d c' :
    Hs ≡ₚ node :: Hs' → Radix.dec_lock_ref (Some node) (cache w) = (Ok d, c') →
    call (w, Hs) (w <| cache := c' |>, Hs')
| call_evict w Hs num n w' :
    Radix.evict num w = (Ok n, w') → call (w, Hs) (w', Hs).

(** The cache is in order, and the held nodes have the paths [P]. *)
Definition users_ok (P : gmap Z Path) (u : Users) : Prop :=
  debug_mode (kv u.1) = false ∧ radix_ok (st (cache u.1)) P u.2.

Lemma reached_live s P key node m ss : reached s P key node m ss → ∃ pn, P !! node = Some pn.
Proof. intros (pn & Hn & _). by exists pn. Qed.

(** A call keeps the cache in order, and a node that stays held keeps its
    path. *)
Lemma call_ok `{Runtime} u u' P :
  call u u' → users_ok P u →
  ∃ P', users_ok P' u' ∧ rc_page_size (cache u'.1) = rc_page_size (cache u.1) ∧
        rc_root (cache u'.1) = rc_root (cache u.1) ∧
        ∀ h ph, h ∈ u'.2 → P !! h = Some ph → P' !! h = Some ph.
Proof.
  intros Hc. destruct Hc; intros [Hd HO]; cbn in *.
  - destruct (match_prefix_ok _ _ _ key HO) as (c2 & P2 & n & m & ss & E & HO2 & Hf & _). rewrite E in *. simplify_eq.
    exists P2. destruct (fi_same _ _ _ _ Hf) as (? & ? & _). split_and!; [done..|].
    intros h ph _ Hh. eapply lookup_weaken; [exact Hh|by eapply fi_sub].
  - destruct (insert_ok _ _ _ key value prio HO) as (c2 & P2 & m2 & ss & E & HO2 & Hin); [done..|].
    rewrite E in *. simplify_eq. exists P2. destruct (in_same _ _ _ _ _ _ _ _ Hin) as (? & ? & _). split_and!; [done..|].
    intros h ph _ Hh. eapply lookup_weaken; [exact Hh|by eapply in_sub].
  - destruct (match_prefix_ok _ _ _ key HO) as (c3 & P2 & n & m & ss2 & E & HO2 & Hf & _ & Hre). rewrite E in *. simplify_eq.
    destruct (reached_live _ _ _ _ _ _ Hre) as [pn Hn].
    destruct (inc_lock_ref_ok _ _ _ _ _ HO2 Hn) as (c3 & E3 & HO3 & Hrk). rewrite E3 in *. simplify_eq.
    exists P2. destruct (fi_same _ _ _ _ Hf) as (Er & Eps & _). destruct (rk_same _ _ Hrk) as (Er' & Eps' & _). cbn in *.
    split_and!; [done|by trans (rc_page_size c1)|by trans (rc_root c1)|].
    intros h ph _ Hh. eapply lookup_weaken; [exact Hh|by eapply fi_sub].
  - apply (radix_ok_perm _ _ _ (node :: Hs')) in HO; [|done].
    destruct (dec_lock_ref_ok _ _ _ _ HO) as (c3 & E3 & HO3 & Hrk). rewrite E3 in *. simplify_eq.
    exists P. destruct (rk_same _ _ Hrk) as (? & ? & _). by split_and!.
  - destruct (evict_ok w P Hs num HO Hd) as (w2 & P2 & ns & vss & E & HO2 & Hev & _). rewrite E in *. simplify_eq.
    exists P2. destruct (dr_same _ _ _ _ _ (ev_drained _ _ _ _ _ _ Hev)) as (? & ? & _). split_and!; [|done..|].
    + split; [|done]. cbn. rewrite (ev_kv _ _ _ _ _ _ Hev). by apply frees_debug.
    + intros h ph Hin Hh. destruct (proj2 HO2 h Hin) as [q Hq].
      pose proof (lookup_weaken _ _ _ _ Hq (dr_sub _ _ _ _ _ (ev_drained _ _ _ _ _ _ Hev))). congruence.
Qed.

Lemma calls_ok `{Runtime} u u' : rtc call u u' → (∃ P, users_ok P u) → ∃ P, users_ok P u'.
Proof. induction 1 as [|u u1 u' Hc _ IH]; [done|]. intros [P HP]. destruct (call_ok _ _ _ Hc HP) as (P1 & HP1 & _). eauto. Qed.

(** While [node] is held. *)
Definition call_holding `{Runtime} (node : Z) (u u' : Users) : Prop := call u u' ∧ node ∈ u'.2.

Lemma held_path `{Runtime} node u u' P pn :
  rtc (call_holding node) u u' → users_ok P u → P !! node = Some pn →
  ∃ P', users_ok P' u' ∧ P' !! node = Some pn ∧ rc_page_size (cache u'.1) = rc_page_size (cache u.1) ∧
        rc_root (cache u'.1) = rc_root (cache u.1).
Proof.
  intros Hr. revert P. induction Hr as [u|u u1 u' [Hc Hn] _ IH]; intros P HP Hpn; [by exists P|].
  destruct (call_ok _ _ _ Hc HP) as (P1 & HP1 & E1 & E2 & Hk).
  destruct (IH P1 HP1 (Hk _ _ Hn Hpn)) as (P2 & HP2 & Hpn2 & E3 & E4). exists P2.
  split_and!; [done|done|congruence|congruence].
Qed.

(** A lookup along a way in the tree comes at least to the end of it. *)
Lemma match_along c P Hs key node m ss `{Runtime} :
  radix_ok (st c) P Hs → reached (st c) P (align (rc_page_size c) key) node m ss →
  0 ≤ m ≤ Key.len (align (rc_page_size c) key) →
  ∃ ss' node' c', Radix.match_prefix key c = (Ok (ss ++ ss', node'), c').
Proof.
  intros HO Hre Hm. destruct (reached_cached _ _ _ _ _ _ _ HO Hre Hm) as [Hd Hc]. cbn [st_ps st] in Hd, Hc.
  destruct (match_prefix_ok c P Hs key HO) as (c' & P' & node' & m' & ss' & E & _ & _ & Hlo & _).
  set (k := align _ key) in *.
  assert (Hl : len (take (Z.to_nat m) (token_ids k)) = m) by (rewrite len_take; unfold Key.len in Hm; lia).
  pose proof (lo_max _ _ _ _ _ Hlo _ _ Hc (prefix_take _ _)) as Hge.
  assert (Hp : take (Z.to_nat m) (token_ids k) `prefix_of` take (Z.to_nat m') (token_ids k)).
  { replace (take (Z.to_nat m) (token_ids k)) with (take (Z.to_nat m) (take (Z.to_nat m') (token_ids k)))
      by (rewrite take_take; f_equal; lia). apply prefix_take. }
  pose proof (cached_prefix _ _ _ _ _ _ (lo_cached _ _ _ _ _ Hlo) Hp ltac:(by rewrite Hl)) as Hc2.
  pose proof (cached_fun _ _ _ _ (co_tree _ _ _ (proj1 HO)) _ _ _ _ Hc Hc2) as Ess.
  exists (drop (length (take (Z.to_nat m) (token_ids k))) ss'), node', c'. rewrite E. rewrite Ess at 1. by rewrite take_drop.
Qed.

(** ** Sizes *)

(** The two sizes cover the slots in the tree. *)
Lemma sizes_total s P Hs : radix_ok s P Hs → st_evictable s + st_protected s = len (tree_slots (st_S s) P).
Proof.
  intros [HC _]. rewrite (co_evictable _ _ _ HC), (co_protected _ _ _ HC). unfold total, tree_slots.
  assert (Hn : ∀ n, n ∈ ids P → weight unlocked (st_S s) n + weight is_locked (st_S s) n = len (node_slots (st_S s) n)).
  { intros n [pn Hn]%elem_of_ids. pose proof (co_tree _ _ _ HC) as HT. unfold weight, node_slots.
    destruct (decide (n = st_root s)) as [->|Hne].
    - destruct (tree_root_shape _ _ _ _ HT) as (t & -> & _ & Ev & Ek & El). cbn. rewrite Ev, Ek, El. done.
    - destruct (tree_linked _ _ _ _ HT n pn Hn Hne) as (l & HL). rewrite (ln_shape _ _ _ _ _ _ _ HL). cbn.
      rewrite (ln_value _ _ _ _ _ _ _ HL). cbn. rewrite (ln_vlen _ _ _ _ _ _ _ HL). unfold is_locked.
      destruct (unlocked _); cbn; lia. }
  revert Hn. generalize (ids P). intros xs Hn. induction xs as [|x xs IH]; [done|]. cbn [fmap list_fmap concat].
  rewrite len_app, <- (Hn x) by apply list_elem_of_here. unfold zsum in *. cbn.
  rewrite <- IH by (intros; apply Hn; by apply list_elem_of_further). lia.
Qed.

(** Nothing is protected when nobody holds a node. *)
Lemma nothing_held s P : radix_ok s P [] → st_protected s = 0.
Proof.
  intros [HC _]. rewrite (co_protected _ _ _ HC). unfold total.
  assert (Hn : ∀ n, n ∈ ids P → weight is_locked (st_S s) n = 0).
  { intros n [pn Hn]%elem_of_ids. unfold weight. destruct (core_live _ _ _ HC _ _ Hn) as [t Ht]. rewrite Ht.
    destruct (decide (n = st_root s)) as [->|Hne].
    - destruct (tree_root_shape _ _ _ _ (co_tree _ _ _ HC)) as (t' & Ht' & _ & _ & Ek & _).
      rewrite Ht in Ht'. injection Ht' as <-. rewrite Ek. by destruct (is_locked _).
    - by rewrite (co_lock _ _ _ HC _ _ _ Hn Ht Hne). }
  revert Hn. generalize (ids P). intros xs Hn. induction xs as [|x xs IH]; [done|]. cbn.
  rewrite Hn by apply list_elem_of_here. unfold zsum in *. cbn. rewrite IH; [done|]. intros; apply Hn. by apply list_elem_of_further.
Qed.

(** ** A concrete cache *)

Module DemoRadix.

#[export] Program Instance runtime : Runtime := {| monotonic := Z.of_nat; set_order := elements; sha256 bs := bs |}.
Next Obligation. done. Qed.

Definition run {A} (m : M RadixCache A) (c : RadixCache) : RadixCache := (m c).2.

Definition empty : RadixCache :=
  match Radix.init false 2 false false "lru" 0 0 with
  | Ok c => c
  | Raise _ => mkRadixCache true 0 false false LRUStrategy ∅ 0 0 0 0 0 ∅ []
  end.

Definition key1 : RadixKey := mkKey [1; 2; 3; 4] None.
Definition key2 : RadixKey := mkKey [1; 2; 5; 6] None.

(** Two sequences with a page in common *)
Definition shared : RadixCache :=
  run (Radix.insert key2 (Some [20; 21; 22; 23]) None) (run (Radix.insert key1 (Some [10; 11; 12; 13]) None) empty).

Definition in_order (c : RadixCache) (Hs : list Z) : Prop :=
  ∃ P, radix_ok (st c) P Hs ∧ rc_page_size c = 2 ∧ fits32 (tree_slots (st_S (st c)) P).

Lemma empty_ok : in_order empty [].
Proof.
  destruct (init_state 2 false "lru" LRUStrategy 0 0 eq_refl) as (c & E & Es). unfold in_order, empty. rewrite E.
  destruct (new_state_ok 2 0 false LRUStrategy ltac:(done)) as [HO Ht]. exists (root_only 0). rewrite Es.
  split_and!; [done| |cbn; rewrite Ht; constructor]. change (st_ps (st c) = 2). by rewrite Es.
Qed.

Lemma insert_in_order c Hs key value :
  in_order c Hs → (2 | Key.len key) → len value = Key.len key → fits32 value →
  in_order (run (Radix.insert key (Some value) None) c) Hs.
Proof.
  intros (P & HO & Hps & Hf) Hd Hl Hv. rewrite <- Hps in Hd.
  destruct (insert_ok c P Hs key value None HO Hd Hl) as (c' & P' & m & ss & E & HO' & Hin).
  unfold run. rewrite E. exists P'. destruct (in_same _ _ _ _ _ _ _ _ Hin) as (_ & Eps & _). cbn in Eps.
  split_and!; [done|cbn; congruence|]. unfold fits32. cbn [snd]. rewrite (in_slots _ _ _ _ _ _ _ _ Hin).
  apply Forall_app. split; [by apply Forall_drop|done].
Qed.

Lemma shared_ok : in_order shared [].
Proof.
  apply insert_in_order; [|by exists 2|done|by repeat constructor].
  apply insert_in_order; [apply empty_ok|by exists 2|done|by repeat constructor].
Qed.

(** A request that found its first page in the cache and computed three
    more tokens *)
Definition prompt : list Z := [1; 2; 7; 8; 9].
Definition the_row : list Z := [10; 11; 30; 31; 32; 0].
Definition found : RadixCache := run (Radix.match_prefix (mkKey prompt None)) shared.
Definition node : Z := Eval vm_compute in
  match (Radix.match_prefix (mkKey prompt None) shared).1 with Ok (_, n) => n | Raise _ => -1 end.
Definition locked : RadixCache := run (Radix.inc_lock_ref (Some node)) found.

Definition the_req : Req :=
  (Demo.req "r" (Some 0) prompt [] 0) <| kv_committed_len := 5 |> <| kv_allocated_len := 5 |>
    <| fill_ids := prompt |> <| cache_protected_len := 2 |> <| last_node := Some node |>.

Definition the_batch : ScheduleBatch :=
  mkScheduleBatch [0%nat] (Some DECODE) false false None None None [0]
    [5] [5] None None 5 [5] false None [] [] 0 None [] true false false.

Definition the_world : World RadixCache :=
  mkWorld {[0%nat := the_req]} (Token.init 64 false) (mkReqToTokenPool 1 6 [the_row] []) locked the_batch.

Lemma world_ok : ∃ P, radix_ok (st locked) P [node] ∧ fits32 (tree_slots (st_S (st locked)) P) ∧
  anchored (st locked) P prompt the_row the_req.
Proof.
  destruct shared_ok as (P & HO & Hps & Hf).
  destruct (match_prefix_ok shared P [] (mkKey prompt None) HO) as (c & P1 & n & m & ss & E & HO1 & Hfi & Hlo & Hre).
  assert (E' : (Radix.match_prefix (mkKey prompt None) shared).1 = Ok ([10; 11], node)) by by vm_compute.
  assert (Ec : c = found) by (unfold found, run; by rewrite E). subst c. rewrite E in E'. injection E' as -> ->.
  pose proof (lo_len _ _ _ _ _ Hlo) as Hm. rewrite <- Hm in *. rewrite Hps in Hre.
  destruct (reached_live _ _ _ _ _ _ Hre) as [pn Hn].
  destruct (inc_lock_ref_ok found P1 [] node pn HO1 Hn) as (c & E2 & HO2 & Hrk).
  assert (Ec : c = locked) by (unfold locked, run; by rewrite E2). subst c.
  exists P1. split_and!; [done| |].
  - rewrite (relocked_slots _ _ _ Hrk). unfold fits32. by rewrite (fi_slots _ _ _ _ Hfi).
  - unfold anchored. split; [change (0 ≤ 2 ≤ 5); lia|]. exists node. split; [reflexivity|]. eapply reached_relocked; [exact Hrk|].
    replace (align 2 (mkKey prompt None)) with (mkKey [1; 2; 7; 8] None) in Hre by (by vm_compute).
    change (reached (st found) P1 (mkKey prompt None) node (len [10; 11]) [10; 11]).
    eapply reached_take; [exact Hre|]. by vm_compute.
Qed.
#[global] Opaque locked found shared empty.
End DemoRadix.

Module RadixClaims.

#[local] Existing Instance DemoRadix.runtime | 100.

(** C23: [match_prefix] on a cache in order succeeds and returns the slots of
    the longest prefix of whole pages of the key that is cached in the key's
    namespace, and a node whose way from the root spells that prefix.  The
    lookup may split a node; it changes neither what is cached, nor the
    slots in the tree, nor who holds what. *)
Theorem match_prefix_returns_longest `{Runtime} c P Hs key :
  radix_ok (st c) P Hs →
  ∃ c' P' node m ss, Radix.match_prefix key c = (Ok (ss, node), c') ∧
    longest (rc_page_size c) P (align (rc_page_size c) key) m ss ∧
    reached (st c') P' (align (rc_page_size c) key) node m ss ∧
    radix_ok (st c') P' Hs ∧
    (∀ e ts ss', cached (rc_page_size c) P' e ts ss' ↔ cached (rc_page_size c) P e ts ss') ∧
    tree_slots (st_S (st c')) P' ≡ₚ tree_slots (st_S (st c)) P.
Proof.
  intros HO. destruct (match_prefix_ok c P Hs key HO) as (c' & P' & node & m & ss & E & HO' & Hf & Hlo & Hre).
  exists c', P', node, m, ss. split_and!; [done..| |].
  - apply (fi_cached _ _ _ _ Hf).
  - apply (fi_slots _ _ _ _ Hf).
Qed.

Lemma match_prefix_returns_longest_witness :
  ∃ P, radix_ok (st DemoRadix.shared) P [] ∧
  ∃ c' ss node m, Radix.match_prefix (mkKey [1; 2; 5; 6; 9] None) DemoRadix.shared = (Ok (ss, node), c') ∧
    longest (rc_page_size DemoRadix.shared) P (align (rc_page_size DemoRadix.shared) (mkKey [1; 2; 5; 6; 9] None)) m ss ∧
    ss = [10; 11; 22; 23].
Proof.
  destruct DemoRadix.shared_ok as (P & HO & _). exists P. split; [exact HO|].
  destruct (match_prefix_returns_longest DemoRadix.shared P [] (mkKey [1; 2; 5; 6; 9] None) HO)
    as (c' & P' & node & m & ss & E & Hlo & _).
  exists c', ss, node, m. split; [exact E|]. split; [exact Hlo|].
  assert (E' : match (Radix.match_prefix (mkKey [1; 2; 5; 6; 9] None) DemoRadix.shared).1 with
               | Ok (s, _) => s | Raise _ => [] end = [10; 11; 22; 23]) by (vm_compute; reflexivity).
  rewrite E in E'. exact E'.
Defined.

(** C24: An insertion of whole pages succeeds and returns how many tokens
    were cached before.  A lookup of the same key right after it finds all
    of the key: the old slots for what was cached, the slots given for the
    rest.  Beyond the prefixes of the key nothing is cached that was not
    before, nothing that was cached is lost or moved, and the tree takes
    over exactly the slots of the new part. *)
Theorem insert_then_match `{Runtime} c P Hs key value prio :
  radix_ok (st c) P Hs → (rc_page_size c | Key.len key) → len value = Key.len key →
  ∃ c1 m ss c2 P2 node,
    Radix.insert key (Some value) prio c = (Ok m, c1) ∧ longest (rc_page_size c) P key m ss ∧
    Radix.match_prefix key c1 = (Ok (ss ++ drop (Z.to_nat m) value, node), c2) ∧
    radix_ok (st c2) P2 Hs ∧
    (∀ e ts ss', cached (rc_page_size c) P2 e ts ss' ↔
       cached (rc_page_size c) P e ts ss' ∨
       ((rc_page_size c | len ts) ∧ e = key_extra key ∧ ts `prefix_of` token_ids key ∧
        ss' = take (length ts) (ss ++ drop (Z.to_nat m) value))) ∧
    tree_slots (st_S (st c2)) P2 ≡ₚ drop (Z.to_nat m) value ++ tree_slots (st_S (st c)) P.
Proof.
  intros HO Hd Hv. destruct (insert_match c P Hs key value prio HO Hd Hv)
    as (c1 & P1 & m & ss & c2 & P2 & node & E1 & Hin & E2 & HO2 & Hf & _).
  exists c1, m, ss, c2, P2, node. split_and!; [done|exact (in_longest _ _ _ _ _ _ _ _ Hin)|done|done| |].
  - intros e ts ss'. destruct (in_same _ _ _ _ _ _ _ _ Hin) as (_ & Eps & _).
    pose proof (fi_cached _ _ _ _ Hf e ts ss') as Hc. rewrite Eps in Hc. cbn [st_ps st] in Hc. rewrite Hc.
    apply (in_cached _ _ _ _ _ _ _ _ Hin).
  - rewrite (fi_slots _ _ _ _ Hf). apply (in_slots _ _ _ _ _ _ _ _ Hin).
Qed.

Lemma insert_then_match_witness :
  ∃ P, radix_ok (st DemoRadix.shared) P [] ∧
  ∃ c1 m ss c2 node,
    Radix.insert (mkKey [1; 2; 7; 8] None) (Some [40; 41; 42; 43]) None DemoRadix.shared = (Ok m, c1) ∧
    Radix.match_prefix (mkKey [1; 2; 7; 8] None) c1 = (Ok (ss ++ drop (Z.to_nat m) [40; 41; 42; 43], node), c2).
Proof.
  destruct DemoRadix.shared_ok as (P & HO & Hps & _). exists P. split; [exact HO|].
  destruct (insert_then_match DemoRadix.shared P [] (mkKey [1; 2; 7; 8] None) [40; 41; 42; 43] None HO)
    as (c1 & m & ss & c2 & P2 & node & E1 & _ & E2 & _).
  - rewrite Hps. exists 2. reflexivity.
  - reflexivity.
  - exists c1, m, ss, c2, node. split; [exact E1|exact E2].
Defined.

(** C20: A prefix in use is never lost: after a request looked up a key and
    locked the node it got, every later lookup of the key returns at least
    the same slots, whatever lookups, insertions, locks, releases and
    evictions happen in between, as long as the node stays held. *)
Theorem held_prefix_stays_cached `{Runtime} w P Hs key ss node c1 d c2 w' Hs' :
  debug_mode (kv w) = false → radix_ok (st (cache w)) P Hs →
  Radix.match_prefix key (cache w) = (Ok (ss, node), c1) →
  Radix.inc_lock_ref (Some node) c1 = (Ok d, c2) →
  rtc (call_holding node) (w <| cache := c2 |>, node :: Hs) (w', Hs') →
  ∃ ss' node' c', Radix.match_prefix key (cache w') = (Ok (ss ++ ss', node'), c').
Proof.
  intros Hd HO E1 E2 Hr.
  destruct (match_prefix_ok _ _ _ key HO) as (c & P1 & n & m & ss0 & E & HO1 & Hf & Hlo & Hre).
  rewrite E in E1. injection E1 as -> -> ->. pose proof Hre as (pn & Hn & Et & Es & Hx).
  destruct (inc_lock_ref_ok _ _ _ _ _ HO1 Hn) as (c & E3 & HO2 & Hrk). rewrite E3 in E2. injection E2 as _ ->.
  destruct (held_path node _ _ P1 pn Hr) as (P2 & [_ HO3] & Hn2 & Eps & Ert); [by split|done|]. cbn in HO3, Eps, Ert.
  destruct (fi_same _ _ _ _ Hf) as (Er1 & Ep1 & _). destruct (rk_same _ _ Hrk) as (Er2 & Ep2 & _). cbn in Er1, Ep1, Er2, Ep2.
  assert (Eps' : rc_page_size (cache w') = rc_page_size (cache w)) by (rewrite Eps, <- Ep1; exact Ep2).
  assert (Ert' : rc_root (cache w') = rc_root c1) by (rewrite Ert; exact Er2).
  eapply (match_along (cache w') P2 Hs' key node m ss HO3).
  - rewrite Eps'. exists pn. split_and!; [done..|]. cbn [st_root st]. rewrite Ert'. exact Hx.
  - rewrite Eps'. apply (lo_range _ _ _ _ _ Hlo).
Qed.

Lemma held_prefix_stays_cached_witness :
  ∃ w P ss node c1 d c2 w', debug_mode (kv w) = false ∧ radix_ok (st (cache w)) P [] ∧
    Radix.match_prefix DemoRadix.key2 (cache w) = (Ok (ss, node), c1) ∧
    Radix.inc_lock_ref (Some node) c1 = (Ok d, c2) ∧
    Radix.evict 100 (w <| cache := c2 |>) = (Ok 2, w') ∧
    ∃ ss' node' c', Radix.match_prefix DemoRadix.key2 (cache w') = (Ok (ss ++ ss', node'), c').
Proof.
  destruct DemoRadix.shared_ok as (P & HO & _).
  set (w := DemoRadix.the_world <| cache := DemoRadix.shared |>).
  assert (Hw : cache w = DemoRadix.shared) by reflexivity. rewrite <- Hw in HO.
  assert (Hd : debug_mode (kv w) = false) by reflexivity.
  set (x := Radix.match_prefix DemoRadix.key2 (cache w)).
  assert (Ex : x = (Ok ([10; 11; 22; 23], 3), x.2)) by (vm_compute; reflexivity).
  set (y := Radix.inc_lock_ref (Some 3) x.2). assert (Ey : y = (Ok (-4), y.2)) by (vm_compute; reflexivity).
  set (z := Radix.evict 100 (w <| cache := y.2 |>)). assert (Ez : z = (Ok 2, z.2)) by (vm_compute; reflexivity).
  clearbody w. exists w, P, [10; 11; 22; 23], 3, x.2, (-4), y.2, z.2.
  split; [exact Hd|]. split; [exact HO|]. split; [exact Ex|]. split; [exact Ey|]. split; [exact Ez|].
  apply (held_prefix_stays_cached w P [] DemoRadix.key2 [10; 11; 22; 23] 3 x.2 (-4) y.2 z.2 [3] Hd HO Ex Ey).
  apply rtc_once. split; [|apply list_elem_of_here]. apply (call_evict _ _ 100 2). exact Ez.
Defined.

(** C25: [evict] succeeds and frees at least the requested number of tokens,
    or all that is evictable if that is less.  It deletes leaves that nobody
    uses one at a time, always one that comes first in the eviction policy,
    and none once the number is reached; their slots go back to the
    allocator, each once, and everything held stays. *)
Theorem evict_follows_policy `{Runtime} w P Hs num :
  radix_ok (st (cache w)) P Hs → debug_mode (kv w) = false →
  ∃ w' P' ns vss, Radix.evict num w = (Ok (len (concat vss)), w') ∧
    Z.min num (rc_evictable_size (cache w)) ≤ len (concat vss) ∧
    (∀ vs v, vss = vs ++ [v] → len (concat vs) < num) ∧
    evicts (cache w) ns (cache w') ∧
    kv w' = frees vss (kv w) ∧
    concat vss ++ tree_slots (st_S (st (cache w'))) P' ≡ₚ tree_slots (st_S (st (cache w))) P ∧
    rc_evictable_size (cache w') = rc_evictable_size (cache w) - len (concat vss) ∧
    radix_ok (st (cache w')) P' Hs ∧ P' ⊆ P ∧
    heap w' = heap w ∧ rtp w' = rtp w ∧ batch w' = batch w.
Proof.
  intros HO Hd. destruct (evict_ok w P Hs num HO Hd) as (w' & P' & ns & vss & E & HO' & [V1 V2 V3 V4] & Hf & Hmin).
  exists w', P', ns, vss. destruct V2 as [D1 D2 D3 D4]. split_and!; [done..|exact D4|done|done|apply V4|apply V4|apply V4].
Qed.

Lemma evict_follows_policy_witness :
  ∃ w P w' P' vss, radix_ok (st (cache w)) P [] ∧ debug_mode (kv w) = false ∧
    Radix.evict 3 w = (Ok (len (concat vss)), w') ∧ Z.min 3 (rc_evictable_size (cache w)) ≤ len (concat vss) ∧
    kv w' = frees vss (kv w) ∧ radix_ok (st (cache w')) P' [].
Proof.
  destruct DemoRadix.shared_ok as (P & HO & _).
  set (w := DemoRadix.the_world <| cache := DemoRadix.shared |>). exists w, P.
  destruct (evict_follows_policy w P [] 3 HO eq_refl) as (w' & P' & ns & vss & E & Hm & _ & _ & Ek & _ & _ & HO' & _).
  exists w', P', vss. split_and!; [exact HO|reflexivity|exact E|exact Hm|exact Ek|exact HO'].
Defined.

(** C26: Any run of the cache from its construction, with lookups,
    insertions, locks, releases and evictions in any order, leaves it well
    formed: the nodes form a tree of keys, every lock count is the number of
    holders below the node, the evictable leaves and both sizes are what
    they should be, and together the sizes count the slots in the tree.
    Without holders nothing is protected.  Whatever has happened, every call
    a user may make next succeeds: a lookup, an insertion of whole pages, a
    lock on the node of a lookup, the release of a node that is held, and an
    eviction. *)
Theorem runs_keep_cache_in_order `{Runtime} page_size no_insert policy s counter clock w w' Hs :
  0 < page_size → strategy_of policy = Ok s →
  Radix.init false page_size false no_insert policy counter clock = Ok (cache w) →
  debug_mode (kv w) = false → rtc call (w, []) (w', Hs) →
  ∃ P, radix_ok (st (cache w')) P Hs ∧
    rc_evictable_size (cache w') + rc_protected_size (cache w') = len (tree_slots (st_S (st (cache w'))) P) ∧
    (Hs = [] → rc_protected_size (cache w') = 0) ∧
    (∀ key, ∃ x c', Radix.match_prefix key (cache w') = (Ok x, c')) ∧
    (∀ key value prio, (rc_page_size (cache w') | Key.len key) → len value = Key.len key →
       ∃ m c', Radix.insert key (Some value) prio (cache w') = (Ok m, c')) ∧
    (∀ key, ∃ ss node c1 d c2, Radix.match_prefix key (cache w') = (Ok (ss, node), c1) ∧
       Radix.inc_lock_ref (Some node) c1 = (Ok d, c2)) ∧
    (∀ node, node ∈ Hs → ∃ d c', Radix.dec_lock_ref (Some node) (cache w') = (Ok d, c')) ∧
    (∀ num, ∃ n w2, Radix.evict num w' = (Ok n, w2)).
Proof.
  intros Hps Hs0 Ei Hd Hr. destruct (init_state page_size no_insert policy s counter clock Hs0) as (c & E & Est).
  rewrite Ei in E. injection E as <-. destruct (new_state_ok page_size counter no_insert s Hps) as [HO0 _].
  rewrite <- Est in HO0. destruct (calls_ok _ _ Hr) as (P & Hd' & HO); [by exists (root_only counter)|]. cbn in Hd', HO.
  exists P. split_and!; [done|exact (sizes_total _ _ _ HO)| | | | | |].
  - intros ->. exact (nothing_held _ _ HO).
  - intros key. destruct (match_prefix_ok _ _ _ key HO) as (c' & _ & node & _ & ss & E & _). eauto.
  - intros key value prio Hd1 Hl. destruct (insert_ok _ _ _ key value prio HO) as (c2 & _ & m & _ & E & _); [done..|]. eauto.
  - intros key. destruct (match_prefix_ok _ _ _ key HO) as (c1 & P1 & node & m & ss & E & HO1 & _ & _ & Hre).
    destruct (reached_live _ _ _ _ _ _ Hre) as [pn Hn].
    destruct (inc_lock_ref_ok _ _ _ _ _ HO1 Hn) as (c2 & E2 & _). exists ss, node, c1. eauto.
  - intros node Hin. apply list_elem_of_split in Hin as (l1 & l2 & ->).
    apply (radix_ok_perm _ _ _ (node :: l1 ++ l2)) in HO; [|by rewrite Permutation_middle].
    destruct (dec_lock_ref_ok _ _ _ _ HO) as (c' & E & _). eauto.
  - intros num. destruct (evict_ok w' P Hs num HO Hd') as (w2 & _ & _ & vss & E & _). eauto.
Qed.

Lemma runs_keep_cache_in_order_witness :
  ∃ w w', Radix.init false 2 false false "lru" 0 0 = Ok (cache w) ∧
    rtc call (w, []) (w', []) ∧ ∃ P, radix_ok (st (cache w')) P [] ∧ rc_protected_size (cache w') = 0.
Proof.
  set (w := DemoRadix.the_world <| cache := DemoRadix.empty |>).
  set (x := Radix.insert DemoRadix.key1 (Some [10; 11; 12; 13]) None DemoRadix.empty).
  assert (Ex : x = (Ok 0, x.2)) by (vm_compute; reflexivity).
  assert (Ei : Radix.init false 2 false false "lru" 0 0 = Ok (cache w)) by (vm_compute; reflexivity).
  exists w, (w <| cache := x.2 |>). split; [exact Ei|].
  assert (Hr : rtc call (w, []) (w <| cache := x.2 |>, [])).
  { apply rtc_once. apply (call_insert w [] DemoRadix.key1 [10; 11; 12; 13] None 0); [|reflexivity|exact Ex].
    exists 2. vm_compute. reflexivity. }
  split; [exact Hr|].
  destruct (runs_keep_cache_in_order 2 false "lru" LRUStrategy 0 0 w (w <| cache := x.2 |>) [] ltac:(lia) eq_refl Ei eq_refl Hr)
    as (P & HO & _ & Hz & _).
  exists P. split; [exact HO|apply Hz; reflexivity].
Defined.

(** C22: [cache_unfinished_req] on a request that is anchored in the cache
    succeeds and moves the anchor to the end of the request's whole pages:
    all of them are cached now, the row lists the cached slots, the rest of
    the row is as before, and the lock moved from the old node to the new
    one.  The slots the request held twice are freed, and no slot is lost:
    tree and freed slots are together the tree before and the pages the
    request had computed. *)
Theorem unfinished_request_moves_anchor `{Runtime} wd id r P i row chunked :
  let k := Radix.aligned_len (rc_page_size (cache wd)) (len (fill_ids r)) in
  let cpl := cache_protected_len r in
  radix_ok (st (cache wd)) P (handles (heap wd)) → heap wd !! id = Some r →
  debug_mode (kv wd) = false → kv_committed_freed r = false →
  req_pool_idx r = Some i → 0 ≤ i → req_to_token (rtp wd) !! Z.to_nat i = Some row →
  len (fill_ids r) ≤ len row → anchored (st (cache wd)) P (fill_ids r) row r →
  fits32 (tree_slots (st_S (st (cache wd))) P) → fits32 row →
  ∃ wd' P' row' m node, Radix.cache_unfinished_req id chunked wd = (Ok tt, wd') ∧
    heap wd' = <[id := kept_req r row' k node]> (heap wd) ∧
    rtp wd' = (rtp wd) <| req_to_token ::= <[Z.to_nat i := row']> |> ∧ batch wd' = batch wd ∧
    kv wd' = frees [slice row cpl m] (kv wd) ∧
    radix_ok (st (cache wd')) P' (handles (heap wd')) ∧ P ⊆ P' ∧
    anchored (st (cache wd')) P' (fill_ids r) row' (kept_req r row' k node) ∧
    drop (Z.to_nat k) row' = drop (Z.to_nat k) row ∧
    tree_slots (st_S (st (cache wd'))) P' ++ slice row cpl m
    ≡ₚ tree_slots (st_S (st (cache wd))) P ++ slice row cpl k.
Proof. exact (unfinished_ok wd id r P i row chunked). Qed.

Lemma unfinished_request_moves_anchor_witness :
  ∃ P wd', radix_ok (st (cache DemoRadix.the_world)) P (handles (heap DemoRadix.the_world)) ∧
    anchored (st (cache DemoRadix.the_world)) P DemoRadix.prompt DemoRadix.the_row DemoRadix.the_req ∧
    Radix.cache_unfinished_req 0 false DemoRadix.the_world = (Ok tt, wd').
Proof.
  destruct DemoRadix.world_ok as (P & HO & Hf & Ha).
  assert (HO' : radix_ok (st (cache DemoRadix.the_world)) P (handles (heap DemoRadix.the_world))) by exact HO.
  destruct (unfinished_request_moves_anchor DemoRadix.the_world 0 DemoRadix.the_req P 0 DemoRadix.the_row false HO')
    as (wd' & P' & row' & m & node & E & _); [reflexivity|reflexivity|reflexivity|reflexivity|lia|reflexivity| |exact Ha|exact Hf| |].
  - vm_compute. discriminate.
  - repeat constructor.
  - exists P, wd'. split; [exact HO'|]. split; [exact Ha|exact E].
Defined.

(** C21: [cache_finished_req] on an anchored request succeeds, takes its
    whole pages into the tree when it may, and releases its lock.  The slots
    it hands back and those in the tree are together the slots in the tree
    before and those of the request beyond its anchor: none is lost, none
    freed twice. *)
Theorem finished_request_conserves_slots `{Runtime} wd id r is_insert P :
  radix_ok (st (cache wd)) P (handles (heap wd)) → heap wd !! id = Some r →
  releasable (req_to_token (rtp wd)) r → debug_mode (kv wd) = false →
  anchored (st (cache wd)) P (committed_toks r) (committed_slots (req_to_token (rtp wd)) r) r →
  ∃ wd' P', Radix.cache_finished_req id is_insert wd = (Ok tt, wd') ∧
    heap wd' = <[id := r <| kv_committed_freed := true |>]> (heap wd) ∧
    kv wd' = frees (radix_released wd r is_insert) (kv wd) ∧
    radix_ok (st (cache wd')) P' (handles (heap wd')) ∧
    tree_slots (st_S (st (cache wd'))) P' ++ concat (radix_released wd r is_insert)
    ≡ₚ tree_slots (st_S (st (cache wd))) P
       ++ drop (Z.to_nat (cache_protected_len r)) (committed_slots (req_to_token (rtp wd)) r).
Proof. exact (finish_conserves wd id r is_insert P). Qed.

Lemma finished_request_conserves_slots_witness :
  ∃ P wd', radix_ok (st (cache DemoRadix.the_world)) P (handles (heap DemoRadix.the_world)) ∧
    releasable (req_to_token (rtp DemoRadix.the_world)) DemoRadix.the_req ∧
    Radix.cache_finished_req 0 true DemoRadix.the_world = (Ok tt, wd') ∧
    radix_released DemoRadix.the_world DemoRadix.the_req true = [[]; [32]].
Proof.
  destruct DemoRadix.world_ok as (P & HO & Hf & Ha).
  assert (HO' : radix_ok (st (cache DemoRadix.the_world)) P (handles (heap DemoRadix.the_world))) by exact HO.
  assert (Hrel : releasable (req_to_token (rtp DemoRadix.the_world)) DemoRadix.the_req).
  { split; [|vm_compute; split; discriminate|reflexivity|split; reflexivity].
    exists 0, DemoRadix.the_row. split; [reflexivity|]. split; [lia|]. split; [reflexivity|]. vm_compute. discriminate. }
  destruct (finished_request_conserves_slots DemoRadix.the_world 0 DemoRadix.the_req true P HO')
    as (wd' & P' & E & _); [reflexivity|exact Hrel|reflexivity| |].
  - exact Ha.
  - exists P, wd'. split; [exact HO'|]. split; [exact Hrel|]. split; [exact E|]. vm_compute. reflexivity.
Defined.
End RadixClaims.
