(* ===== verification/Policy.v ===== *)
(** * Admission to a prefill batch (srt/managers/schedule_policy.py)

    [PrefillAdder] decides which waiting requests enter the next prefill
    batch and how many of their tokens: it keeps budgets for the input
    tokens, the chunk and the memory.  The order of the queue is that of
    [SchedulePolicy] for the policies that do not depend on the tree.

    Requests carry no priorities, so none is preempted; hierarchical caches,
    sliding-window and Mamba caches, the prefill delayer and diffusion models
    are left out. *)

From S2P Require Import Prelude PyFloat Allocator Request ReqPool LLM42Info World MemCommon.

Inductive Policy : Type := FCFS | LOF.

Inductive AddReqResult : Type := CONTINUE | NO_TOKEN | OTHER.

#[export] Instance addreqresult_dec : EqDecision AddReqResult.
Proof. solve_decision. Defined.

Definition CLIP_MAX_NEW_TOKENS : Z := 4096.
Definition IGNORE_EOS_RESERVE_TOKENS : Z := 1.

(** ** The order of the queue *)

Module SchedulePolicy.

(** A stable sort by the longest output. *)
Fixpoint insert_longest (x : nat * Req) (q : list (nat * Req)) : list (nat * Req) :=
  match q with
  | [] => [x]
  | y :: q' =>
      if max_new_tokens (sampling_params y.2) <? max_new_tokens (sampling_params x.2)
      then x :: q else y :: insert_longest x q'
  end.

Definition _sort_by_longest_output (q : list (nat * Req)) : list (nat * Req) :=
  foldl (λ acc x, insert_longest x acc) [] q.

Definition calc_priority (p : Policy) (q : list (nat * Req)) : list (nat * Req) :=
  match p with FCFS => q | LOF => _sort_by_longest_output q end.

End SchedulePolicy.

(** ** [Req.init_next_round_input] *)

Section NextRound.
Context {C : Type} `{PC : PrefixCache C}.

Definition max_prefix_len (r : Req) : Z :=
  let n := len (fill_ids r) - 1 in
  let n := if return_logprob r && (0 <=? logprob_start_len r) then Z.min n (logprob_start_len r) else n in
  Z.max n 0.

(** [with_cache] says whether the method gets the tree cache. *)
Definition init_next_round_input (with_cache : bool) (id : nat) : M (World C) unit :=
  r ← req_at id;
  let r := r <| fill_ids := origin_input_ids r ++ output_ids r |> in
  set_req id r;;
  (if with_cache then
     '(device_indices, last_device_node) ←
        match_prefix (slice_to (fill_ids r) (max_prefix_len r)) (extra_key r);
     upd_req id (λ r, r <| prefix_indices := device_indices |> <| last_node := last_device_node |>
                        <| cache_protected_len := len device_indices |>)
   else mret tt);;
  upd_req id (λ r, set_extend_input_len_ (len (fill_ids r) - len (prefix_indices r)) r).
End NextRound.

(** ** [PrefillAdder] *)

Record PrefillAdder : Type := mkAdder {
  pa_page_size : Z;
  pa_running : list nat;
  pa_ratio : spec_float;
  rem_input_tokens : Z;
  rem_chunk_tokens : option Z;
  rem_total_token_offset : num;
  cur_rem_token_offset : Z;
  req_states : option (list (num * Z));
  can_run_list : list nat;
  new_chunked_req : option nat;
  log_hit_tokens : Z;
  log_input_tokens : Z;
  pa_max_requests : option Z
}.

#[export] Instance eta_Adder : Eta PrefillAdder := λ a,
  mkAdder (pa_page_size a) (pa_running a) (pa_ratio a) (rem_input_tokens a) (rem_chunk_tokens a)
    (rem_total_token_offset a) (cur_rem_token_offset a) (req_states a) (can_run_list a)
    (new_chunked_req a) (log_hit_tokens a) (log_input_tokens a) (pa_max_requests a).
#[export] Instance set_rem_input_tokens : Setter rem_input_tokens.
Proof. derive_setter. Defined.
#[export] Instance set_rem_chunk_tokens : Setter rem_chunk_tokens.
Proof. derive_setter. Defined.
#[export] Instance set_rem_total_token_offset : Setter rem_total_token_offset.
Proof. derive_setter. Defined.
#[export] Instance set_cur_rem_token_offset : Setter cur_rem_token_offset.
Proof. derive_setter. Defined.
#[export] Instance set_req_states : Setter req_states.
Proof. derive_setter. Defined.
#[export] Instance set_can_run_list : Setter can_run_list.
Proof. derive_setter. Defined.
#[export] Instance set_new_chunked_req : Setter new_chunked_req.
Proof. derive_setter. Defined.
#[export] Instance set_log_hit_tokens : Setter log_hit_tokens.
Proof. derive_setter. Defined.
#[export] Instance set_log_input_tokens : Setter log_input_tokens.
Proof. derive_setter. Defined.

Module Adder.

Section Adder.
Context {C : Type} `{PC : PrefixCache C}.

(** *** Budgets *)

Definition _get_running_request_total_token_offset (ratio : spec_float) (r : Req) : num :=
  num_mul (NInt (Z.min (max_new_tokens (sampling_params r) - len (output_ids r)) CLIP_MAX_NEW_TOKENS))
    (NFloat ratio).

Definition init (page_size_ : Z) (running : list nat) (running_reqs : list Req) (ratio : spec_float)
    (max_prefill_tokens : Z) (chunk : option Z) (mixed_with_decode_tokens : Z)
    (prefill_max_requests : option Z) : PrefillAdder :=
  mkAdder page_size_ running ratio (max_prefill_tokens - mixed_with_decode_tokens)
    ((λ n, n - mixed_with_decode_tokens) <$> chunk)
    (num_add (NInt mixed_with_decode_tokens)
       (num_sum (_get_running_request_total_token_offset ratio <$> running_reqs)))
    mixed_with_decode_tokens None [] None 0 0 prefill_max_requests.

Definition available_and_evictable (w : World C) : Z := available_size (kv w) + evictable_size (cache w).

Definition rem_total_tokens (a : PrefillAdder) (w : World C) : num :=
  num_sub (NInt (available_and_evictable w)) (rem_total_token_offset a).

Definition cur_rem_tokens (a : PrefillAdder) (w : World C) : Z :=
  available_and_evictable w - cur_rem_token_offset a.

Definition ceil_paged_tokens (a : PrefillAdder) (tokens : Z) : Z :=
  - (- tokens / pa_page_size a) * pa_page_size a.

Definition budget_state (a : PrefillAdder) (w : World C) : AddReqResult :=
  if num_le (rem_total_tokens a w) (NInt 0) || (cur_rem_tokens a w <=? 0) then NO_TOKEN
  else if rem_input_tokens a <=? 0 then OTHER
  else match rem_chunk_tokens a with
       | Some n => if n <=? 0 then OTHER else CONTINUE
       | None => CONTINUE
       end.

Definition _update_prefill_budget (prefix_len extend_input_len_ max_new : Z) (a : PrefillAdder)
    : PrefillAdder :=
  let n := ceil_paged_tokens a extend_input_len_ in
  a <| rem_total_token_offset ::= λ x, num_add x (NInt (n + max_new)) |>
    <| cur_rem_token_offset ::= λ x, x + n |>
    <| rem_input_tokens ::= λ x, x - n |>
    <| rem_chunk_tokens ::= fmap (λ x, x - n) |>
    <| log_hit_tokens ::= λ x, x + prefix_len |>
    <| log_input_tokens ::= λ x, x + n |>.

Definition clipped_max_new (r : Req) : Z :=
  Z.min (max_new_tokens (sampling_params r)) CLIP_MAX_NEW_TOKENS.

Definition enlist (id : nat) (a : PrefillAdder) : PrefillAdder :=
  a <| can_run_list ::= λ l, l ++ [id] |>.

(** *** A request in the middle of its prompt *)

(** It must be added; what remains of the chunk is used if the memory budget
    is exhausted.  The answer is the request if its prompt goes on. *)
Definition add_chunked_req (a : PrefillAdder) (id : nat) : M (World C) (PrefillAdder * option nat) :=
  w ← get;
  chunk ← lift (of_option TypeError (rem_chunk_tokens a));
  total ← lift (num_int (rem_total_tokens a w));
  let _rem_tokens := Z.min chunk total in
  let _rem_tokens := if _rem_tokens <=? 0 then chunk else _rem_tokens in
  r ← req_at id;
  let truncated := _rem_tokens <? extend_input_len r in
  let r := set_extend_input_len_ (Z.min (extend_input_len r) _rem_tokens) r in
  let r := r <| fill_ids ::= λ l, slice_to l (len (prefix_indices r) + extend_input_len r) |> in
  set_req id r;;
  let a := _update_prefill_budget 0 (extend_input_len r)
             (if truncated then 0 else clipped_max_new r) (enlist id a) in
  mret (a, if truncated then Some id else None).

(** *** Requests that ignore the end of sequence, without prefix caching *)

(** [add_req_state]: [None] when the request adds nothing. *)
Definition req_state (a : PrefillAdder) (r : Req) : option (num * Z) :=
  let ratio := if ignore_eos (sampling_params r) then f64_of_Z 1 else pa_ratio a in
  let tokens_left :=
    num_sub (num_mul (NInt (max_new_tokens (sampling_params r))) (NFloat ratio)) (NInt (len (output_ids r))) in
  if num_le tokens_left (NInt 0) then None
  else Some (tokens_left, len (origin_input_ids r) + len (output_ids r)).

(** [self.req_states.sort(key=lambda x: x[0])] *)
Fixpoint insert_state (x : num * Z) (l : list (num * Z)) : list (num * Z) :=
  match l with
  | [] => [x]
  | y :: l' => if num_lt x.1 y.1 then x :: l else y :: insert_state x l'
  end.
Definition sort_states (l : list (num * Z)) : list (num * Z) := foldl (λ acc x, insert_state x acc) [] l.

(** The index of the loop [for i in range(len(states))] with its [break]: the
    last one when the loop runs to its end. *)
Fixpoint state_position (x : num * Z) (l : list (num * Z)) : nat :=
  match l with
  | [] => 0
  | y :: l' => if num_le x.1 y.1 then 0 else match l' with [] => 0 | _ => S (state_position x l') end
  end.
Definition insert_at {A} (i : nat) (x : A) (l : list A) : list A := take i l ++ x :: drop i l.

Definition states_with (a : PrefillAdder) (r : Req) (running_reqs can_run_reqs : list Req) : list (num * Z) :=
  match req_states a with
  | None => sort_states (omap (req_state a) (r :: running_reqs ++ can_run_reqs))
  | Some l =>
      match req_state a r with
      | Some x => insert_at (state_position x l) x l
      | None => l
      end
  end.

(** Whether the memory lasts when the requests end in the order of their
    remaining tokens. *)
Fixpoint lasts (cur_rem tokens_freed : Z) (states : list (num * Z)) : bool :=
  match states with
  | [] => true
  | (tokens_left, tokens_occupied) :: states' =>
      let bs := len states in
      let min_free_tokens :=
        num_sub (NInt (cur_rem + tokens_freed)) (num_mul tokens_left (NInt bs)) in
      if num_le min_free_tokens (NInt (IGNORE_EOS_RESERVE_TOKENS * bs)) then false
      else lasts cur_rem (tokens_freed + tokens_occupied) states'
  end.

Definition add_one_req_ignore_eos (a : PrefillAdder) (id : nat) : M (World C) (PrefillAdder * AddReqResult) :=
  w ← get;
  r ← req_at id;
  let need := ceil_paged_tokens a (extend_input_len r) in
  if num_lt (num_min (NInt (cur_rem_tokens a w)) (rem_total_tokens a w)) (NInt need) then mret (a, NO_TOKEN)
  else
    running_reqs ← reqs_at (pa_running a);
    can_run_reqs ← reqs_at (can_run_list a);
    let states := states_with a r running_reqs can_run_reqs in
    let a := a <| req_states := Some states |> in
    if negb (lasts (cur_rem_tokens a w - need) 0 states) then mret (a, NO_TOKEN)
    else
      match rem_chunk_tokens a with
      | Some n =>
          if extend_input_len r <=? n then
            let a := _update_prefill_budget 0 (extend_input_len r) (clipped_max_new r) (enlist id a) in
            mret (a, budget_state a w)
          else if n <=? 0 then mret (a, OTHER)
          else
            let r := set_extend_input_len_ n r in
            set_req id (r <| fill_ids ::= λ l, slice_to l n |>);;
            let a := _update_prefill_budget 0 n 0 ((enlist id a) <| new_chunked_req := Some id |>) in
            mret (a, budget_state a w)
      | None =>
          let a := _update_prefill_budget 0 (extend_input_len r) (clipped_max_new r) (enlist id a) in
          mret (a, budget_state a w)
      end.

(** *** Other requests *)

(** [with self._lock_node(req.last_node): ...] *)
Definition with_lock {A} (node : option Z) (m : M (World C) A) : M (World C) A := λ w,
  match inc_lock_ref node w with
  | (Raise e, w1) => (Raise e, w1)
  | (Ok _, w1) =>
      let '(x, w2) := m w1 in
      match dec_lock_ref node w2 with
      | (Raise e, w3) => (Raise e, w3)
      | (Ok _, w3) => (x, w3)
      end
  end.

(** The length of the first chunk, [None] when no chunk fits. *)
Definition chunk_length (page_size_ n : Z) (truncation_align_size : option Z) : option Z :=
  let trunc_len := n / page_size_ * page_size_ in
  if trunc_len <=? 0 then None
  else match truncation_align_size with
       | Some k => if trunc_len <? k then None else Some (k * (trunc_len / k))
       | None => Some trunc_len
       end.

(** The body of the [with] statement; an early [return] is [inr]. *)
Definition add_locked (a : PrefillAdder) (id : nat) (total_tokens prefix_len : Z)
    (truncation_align_size : option Z) : M (World C) (PrefillAdder + PrefillAdder * AddReqResult) :=
  w ← get;
  if num_le (rem_total_tokens a w) (NInt total_tokens) then mret (inr (a, NO_TOKEN))
  else
    r ← req_at id;
    let input_tokens := ceil_paged_tokens a (extend_input_len r) in
    if (rem_input_tokens a <=? input_tokens) && negb (len (can_run_list a) =? 0) then mret (inr (a, OTHER))
    else
      match rem_chunk_tokens a with
      | Some n =>
          if input_tokens <=? n then
            _ ← inc_lock_ref (last_node r);
            mret (inl (_update_prefill_budget prefix_len input_tokens (clipped_max_new r) (enlist id a)))
          else
            match chunk_length (pa_page_size a) n truncation_align_size with
            | None => mret (inr (a, OTHER))
            | Some trunc_len =>
                let r := set_extend_input_len_ trunc_len r in
                set_req id (r <| fill_ids ::= λ l, slice_to l (len (prefix_indices r) + trunc_len) |>);;
                _ ← inc_lock_ref (last_node r);
                mret (inl (_update_prefill_budget prefix_len trunc_len 0
                             ((enlist id a) <| new_chunked_req := Some id |>)))
            end
      | None =>
          _ ← inc_lock_ref (last_node r);
          mret (inl (_update_prefill_budget prefix_len input_tokens (clipped_max_new r) (enlist id a)))
      end.

Definition add_one_req (a : PrefillAdder) (id : nat) (truncation_align_size : option Z)
    : M (World C) (PrefillAdder * AddReqResult) :=
  if match pa_max_requests a with Some x => x <=? len (can_run_list a) | None => false end
  then mret (a, OTHER)
  else
    w ← get;
    r ← req_at id;
    if ignore_eos (sampling_params r) && cache_disabled (cache w) then add_one_req_ignore_eos a id
    else
      let total_tokens := extend_input_len r +
        Z.min (Z.max (max_new_tokens (sampling_params r) - len (output_ids r)) 0) CLIP_MAX_NEW_TOKENS in
      let real_input_tokens := ceil_paged_tokens a (extend_input_len r) in
      if num_le (rem_total_tokens a w) (NInt total_tokens) then mret (a, NO_TOKEN)
      else if (rem_input_tokens a <=? real_input_tokens) && negb (len (can_run_list a) =? 0)
      then mret (a, OTHER)
      else
        out ← with_lock (last_node r) (add_locked a id total_tokens (len (prefix_indices r)) truncation_align_size);
        match out with
        | inr res => mret res
        | inl a => w ← get; mret (a, budget_state a w)
        end.

End Adder.
End Adder.
