(* ===== verification/QueueOrder.v ===== *)
(** * Cache-aware orders of the queue (srt/managers/schedule_policy.py)

    [SchedulePolicy] with the policies that look at the radix cache: longest
    prefix match, with the check for prefixes shared inside the queue, and
    depth-first search by weight.  The policy keeps a radix tree of its own,
    [waiting_queue_radix_tree], for the prompts in the queue.

    Priorities are off.  Host memory is not modelled, as in [Radix]. *)

From S2P Require Import Prelude HeapQ PyFloat Allocator Request ReqPool LLM42Info World Radix Policy.

(** [CacheAwarePolicy] *)
Inductive CacheAwarePolicy : Type := LPM | DFS_WEIGHT.

(** [children.values()] of a node: dicts list their values in the order of
    insertion, which [Radix] does not keep. *)
Class DictOrder := {
  child_values : TreeNode → list Z;
  child_values_perm : ∀ x, child_values x ≡ₚ (map_to_list (n_children x)).*2
}.

(** The state a policy works on *)
Record Ranking : Type := mkRanking {
  rk_world : World RadixCache;
  waiting_queue_radix_tree : RadixCache
}.

(** ** Stable sorting: [list.sort] with a key, whose order is [lt] *)

Section Sort.
Context {A : Type} (lt : A → A → bool).

Fixpoint insert_stable (x : A) (q : list A) : list A :=
  match q with
  | [] => [x]
  | y :: q' => if lt x y then x :: q else y :: insert_stable x q'
  end.

Definition sort_stable (q : list A) : list A := foldl (λ acc x, insert_stable x acc) [] q.
End Sort.

Module CachePolicy.

Section CachePolicy.
Context `{Runtime} `{DictOrder}.
(** The two thresholds come from the environment, 32 by default. *)
Context (check_threshold deprioritize_threshold : Z).

Definition in_world {A} (m : M (World RadixCache) A) : M Ranking A := λ k,
  let '(x, w) := m (rk_world k) in (x, mkRanking w (waiting_queue_radix_tree k)).
Definition in_queue_tree {A} (m : M RadixCache A) : M Ranking A := λ k,
  let '(x, t) := m (waiting_queue_radix_tree k) in (x, mkRanking (rk_world k) t).

(** [self.waiting_queue_radix_tree = RadixCache.create_simulated()] *)
Definition create_simulated (counter : Z) (clock : nat) : res RadixCache :=
  Radix.init false 1 false false "lru" counter clock.

(** ** Prefix matches *)

(** The key of a request in both trees *)
Definition queue_key (r : Req) : RadixKey := mkKey (origin_input_ids r ++ output_ids r) (extra_key r).

(** One request; [temporary_deprioritized] is the set of request ids.  The
    tensor inserted for a prompt is not initialised, only its length
    matters. *)
Definition match_one (temporary_deprioritized : gset string) (id : nat) : M Ranking (gset string) :=
  r ← in_world (req_at id);
  '(device_indices, last_device_node) ← in_world (Radix.on_cache (Radix.match_prefix (queue_key r)));
  in_world (upd_req id (λ r, r <| prefix_indices := device_indices |> <| last_node := Some last_device_node |>));;
  if len device_indices <=? check_threshold then
    '(in_batch_matching_prefixes, _) ← in_queue_tree (Radix.match_prefix (queue_key r));
    if deprioritize_threshold <=? len in_batch_matching_prefixes
    then mret ({[rid r]} ∪ temporary_deprioritized)
    else
      in_queue_tree (Radix.insert (queue_key r) (Some (times 0 (Key.len (queue_key r)))) None);;
      mret temporary_deprioritized
  else mret temporary_deprioritized.

Definition _compute_prefix_matches (waiting_queue : list nat) : M Ranking (gset string) :=
  in_queue_tree Radix.reset;;
  foldM match_one ∅ waiting_queue.

(** ** Longest prefix match *)

(** [float("inf")] is [None]. *)
Definition longest_prefix_key (temporary_deprioritized : gset string) (r : Req) : option Z :=
  if bool_decide (rid r ∉ temporary_deprioritized) then Some (- len (prefix_indices r)) else None.

Definition key_lt (a b : option Z) : bool :=
  match a, b with
  | Some x, Some y => x <? y
  | Some _, None => true
  | None, _ => false
  end.

Definition _sort_by_longest_prefix (waiting_queue : list (nat * Req)) (temporary_deprioritized : gset string)
    : list (nat * Req) :=
  sort_stable (λ x y, key_lt (longest_prefix_key temporary_deprioritized x.2)
                        (longest_prefix_key temporary_deprioritized y.2)) waiting_queue.

(** ** Depth-first search by weight *)

(** [defaultdict]s of nodes; a request without a node is under [None]. *)
Definition weight_of (node_to_weight : gmap (option Z) Z) (n : Z) : Z := default 0 (node_to_weight !! Some n).
Definition reqs_of_node (last_node_to_reqs : gmap (option Z) (list nat)) (n : Z) : list nat :=
  default [] (last_node_to_reqs !! Some n).

Definition group_by_node (waiting_queue : list (nat * Req)) : gmap (option Z) (list nat) :=
  foldl (λ m x, <[last_node x.2 := default [] (m !! last_node x.2) ++ [x.1]]> m) ∅ waiting_queue.

Fixpoint _calc_weight (fuel : nat) (cur_node : Z) (node_to_weight : gmap (option Z) Z)
    : M RadixCache (gmap (option Z) Z) :=
  match fuel with
  | O => throw RuntimeError
  | S fuel' =>
      x ← Radix.node_at cur_node;
      foldM (λ w child,
               w ← _calc_weight fuel' child w;
               mret (<[Some cur_node := weight_of w cur_node + weight_of w child]> w))
        node_to_weight (child_values x)
  end.

Fixpoint _get_dfs_priority (fuel : nat) (cur_node : Z) (node_to_priority : gmap (option Z) Z)
    (last_node_to_reqs : gmap (option Z) (list nat)) (q : list nat) : M RadixCache (list nat) :=
  match fuel with
  | O => throw RuntimeError
  | S fuel' =>
      x ← Radix.node_at cur_node;
      let children := sort_stable (λ a b, - weight_of node_to_priority a <? - weight_of node_to_priority b)
                        (child_values x) in
      q ← foldM (λ q child, _get_dfs_priority fuel' child node_to_priority last_node_to_reqs q) q children;
      mret (q ++ reqs_of_node last_node_to_reqs cur_node)
  end.

(** A path in the tree passes every node at most once. *)
Definition depth_fuel (c : RadixCache) : nat := S (base.size (rc_nodes c)).

Definition _sort_by_dfs_weight (waiting_queue : list (nat * Req)) : M RadixCache (list nat) :=
  c ← get;
  let last_node_to_reqs := group_by_node waiting_queue in
  let node_to_weight := len <$> last_node_to_reqs in
  node_to_weight ← _calc_weight (depth_fuel c) (rc_root c) node_to_weight;
  _get_dfs_priority (depth_fuel c) (rc_root c) node_to_weight last_node_to_reqs [].

(** ** [calc_priority] *)

(** [None] is first come, first served. *)
Definition _determine_active_policy (policy : CacheAwarePolicy) (waiting_queue : list nat) : option CacheAwarePolicy :=
  match policy with
  | LPM => if 128 <? len waiting_queue then None else Some LPM
  | DFS_WEIGHT => Some DFS_WEIGHT
  end.

(** The queue in its new order, and whether the prefixes were computed *)
Definition calc_priority (policy : CacheAwarePolicy) (waiting_queue : list nat) : M Ranking (list nat * bool) :=
  match _determine_active_policy policy waiting_queue with
  | None => mret (waiting_queue, false)
  | Some active =>
      temporary_deprioritized ← _compute_prefix_matches waiting_queue;
      rs ← in_world (reqs_at waiting_queue);
      let q := zip waiting_queue rs in
      match active with
      | LPM => mret ((_sort_by_longest_prefix q temporary_deprioritized).*1, true)
      | DFS_WEIGHT =>
          q ← in_world (Radix.on_cache (_sort_by_dfs_weight q));
          mret (q, true)
      end
  end.

End CachePolicy.
End CachePolicy.
