(* ===== verification/BatchOps.v ===== *)
(** * Operations of a batch (srt/managers/schedule_batch.py, class ScheduleBatch)

    The operations work on the [batch] of the shared state.  Penalties, logit
    biases and custom processors of the sampling parameters, encoder-decoder
    models, multimodal inputs, diffusion and Mamba states are not modelled,
    and neither are the ids whose prompt log-probabilities the GPU computes. *)

From S2P Require Import Prelude PyFloat Allocator Request ReqPool LLM42Info World MemCommon.

(** ** Tensors *)

(** [xs[idx]] for a list of indices *)
Definition gather {A} (xs : list A) (idx : list Z) : res (list A) := mapM (getitem xs) idx.

(** ** [SamplingBatchInfo] (srt/sampling/sampling_batch_info.py) *)

Module Sampling.

Definition filter_batch (keep_indices : list Z) (i : SamplingInfo) : res SamplingInfo :=
  temperatures ← gather (temperatures i) keep_indices;
  top_ps ← gather (top_ps i) keep_indices;
  top_ks ← gather (top_ks i) keep_indices;
  min_ps ← gather (min_ps i) keep_indices;
  seeds ← match sampling_seeds i with
          | Some l => l' ← gather l keep_indices; Ok (Some l')
          | None => Ok None
          end;
  det ← gather (deterministic_indices i) keep_indices;
  Ok (mkSamplingInfo temperatures top_ps top_ks min_ps seeds det (force_pytorch_backend i)).

(** Seeds are concatenated only when both sides have them. *)
Definition merge_batch (i other : SamplingInfo) : SamplingInfo :=
  mkSamplingInfo (temperatures i ++ temperatures other) (top_ps i ++ top_ps other)
    (top_ks i ++ top_ks other) (min_ps i ++ min_ps other)
    (match sampling_seeds i, sampling_seeds other with
     | Some l, Some l' => Some (l ++ l')
     | s, _ => s
     end)
    (deterministic_indices i ++ deterministic_indices other) (force_pytorch_backend i).

End Sampling.

Module BatchOps.

(** A batch without tensors, the dataclass defaults *)
Definition empty_batch (reqs : list nat) (enable_overlap : bool) (chunked_req : option nat)
    (return_logprob has_stream has_grammar is_prefill_only : bool) : ScheduleBatch :=
  mkScheduleBatch reqs None enable_overlap false chunked_req None None [] [] [] None None 0 []
    return_logprob None [] [] 0 None [] has_stream has_grammar is_prefill_only.

(** [req.grammar] of a truth test *)
Definition has_grammar_ (r : Req) : bool := match grammar r with Some _ => true | None => false end.

Definition init_new (reqs : list nat) (rs : list Req) (enable_overlap : bool)
    (chunked_req : option nat) : ScheduleBatch :=
  empty_batch reqs enable_overlap chunked_req (existsb return_logprob rs) (existsb stream rs)
    (existsb has_grammar_ rs) (forallb is_prefill_only rs).

Definition batch_size (b : ScheduleBatch) : Z := len (b_reqs b).
Definition is_empty (b : ScheduleBatch) : bool := len (b_reqs b) =? 0.

Section BatchOps.
Context `{Externals} {C : Type} `{PC : PrefixCache C}.

(** ** Extend *)

(** The fields of one request in [prepare_for_extend].  A request that was
    retracted once is not counted again.  The statistics on cached tokens and
    the token ids whose input log-probabilities the model is to compute are
    left out. *)
Definition extend_req (x : nat * Z * Z * Z) : M (World C) unit :=
  let '(id, row, seq_len, pre_len) := x in
  r ← req_at id;
  set_req id (r <| req_pool_idx := Some row |>);;
  assert_ (seq_len - pre_len =? extend_input_len r);;
  upd_req id (λ r,
    let r := r <| extend_batch_idx ::= λ n, n + 1 |>
               <| kv_committed_len := seq_len |> <| kv_allocated_len := seq_len |> in
    let r := if retracted_stain r then r else r <| already_computed := seq_len |> in
    r <| is_retracted := false |>).

Definition prepare_for_extend (enable_deterministic : bool) : M (World C) unit :=
  upd_batch (λ b, b <| b_forward_mode := Some EXTEND |>);;
  ids ← gets (λ wd, b_reqs (batch wd));
  rs ← reqs_at ids;
  let input_ids := (λ r, slice_from (fill_ids r) (len (prefix_indices r))) <$> rs in
  let seq_lens := (λ r, len (fill_ids r)) <$> rs in
  let prefix_lens := (λ r, len (prefix_indices r)) <$> rs in
  upd_batch (λ b, b <| b_prefix_lens := prefix_lens |>
                    <| b_extend_lens := extend_input_len <$> rs |>
                    <| b_seq_lens := seq_lens |> <| b_seq_lens_cpu := seq_lens |>
                    <| b_extend_num_tokens := zsum (len <$> input_ids) |>);;
  '(out_cache_loc, req_pool_indices) ← Mem.alloc_for_extend;
  for_ (zip (zip (zip ids req_pool_indices) seq_lens) prefix_lens) extend_req;;
  rs' ← reqs_at ids;
  upd_batch (λ b, b <| b_input_ids := Some (concat input_ids) |>
                    <| b_req_pool_indices := req_pool_indices |>
                    <| b_orig_seq_lens := (λ r, Z.max (len (fill_ids r)) (len (origin_input_ids r))) <$> rs |>
                    <| b_out_cache_loc := Some out_cache_loc |>
                    <| b_seq_lens_sum := zsum seq_lens |>
                    <| b_top_logprobs_nums := if b_return_logprob b then Some (times 0 (len rs)) else b_top_logprobs_nums b |>
                    <| b_extend_logprob_start_lens := extend_logprob_start_len <$> rs' |>
                    <| b_sampling_info := Some (Verify.sampling_of enable_deterministic rs') |>).

(** ** Decode *)

(** The lengths of one request. *)
Definition decode_req (r : Req) : Req :=
  r <| decode_batch_idx ::= λ n, n + 1 |> <| kv_committed_len ::= λ n, n + 1 |>
    <| kv_allocated_len ::= λ n, n + 1 |>.

Definition incr (xs : list Z) : list Z := (λ n, n + 1) <$> xs.

Definition prepare_for_decode : M (World C) unit :=
  upd_batch (λ b, b <| b_forward_mode := Some DECODE |>);;
  upd_batch (λ b, b <| b_input_ids := b_output_ids b |> <| b_output_ids := None |>);;
  out_cache_loc ← Mem.alloc_for_decode 1;
  upd_batch (λ b, b <| b_out_cache_loc := Some out_cache_loc |>);;
  ids ← gets (λ wd, b_reqs (batch wd));
  for_ ids (λ id, upd_req id decode_req);;
  upd_batch (λ b, b <| b_seq_lens ::= incr |> <| b_seq_lens_cpu ::= incr |>
                    <| b_orig_seq_lens ::= incr |>
                    <| b_seq_lens_sum := b_seq_lens_sum b + len ids |>).

(** An idle batch has no tokens. *)
Definition prepare_for_idle (enable_deterministic : bool) : M (World C) unit :=
  ids ← gets (λ wd, b_reqs (batch wd));
  rs ← reqs_at ids;
  upd_batch (λ b, b <| b_forward_mode := Some IDLE |> <| b_input_ids := Some [] |>
                    <| b_seq_lens := [] |> <| b_seq_lens_cpu := [] |> <| b_orig_seq_lens := [] |>
                    <| b_out_cache_loc := Some [] |> <| b_req_pool_indices := [] |>
                    <| b_seq_lens_sum := 0 |> <| b_extend_num_tokens := 0 |>
                    <| b_sampling_info := Some (Verify.sampling_of enable_deterministic rs) |>).

(** ** Filter and merge *)

(** The default of [keep_indices]: unfinished requests that are not excluded *)
Definition keep_default (exclude ids : list nat) (rs : list Req) : list Z :=
  (filter (λ x : Z * (nat * Req), finished x.2.2 = false ∧ x.2.1 ∉ exclude)
     (enumerate (zip ids rs))).*1.

(** The batch restricted to [keep_indices]. *)
Definition keep_batch (keep_indices : list Z) (rs : list Req) (b : ScheduleBatch) : res ScheduleBatch :=
  reqs ← gather (b_reqs b) keep_indices;
  rs ← gather rs keep_indices;
  rows ← gather (b_req_pool_indices b) keep_indices;
  seq_lens ← gather (b_seq_lens b) keep_indices;
  seq_lens_cpu ← gather (b_seq_lens_cpu b) keep_indices;
  orig_seq_lens ← gather (b_orig_seq_lens b) keep_indices;
  out ← match b_output_ids b with
        | Some l => l' ← gather l keep_indices; Ok (Some l')
        | None => Ok None
        end;
  let rl := existsb return_logprob rs in
  tops ← (if rl then
            l ← of_option TypeError (b_top_logprobs_nums b);
            l' ← gather l keep_indices; Ok (Some l')
          else Ok None);
  info ← of_option AttributeError (b_sampling_info b);
  info' ← Sampling.filter_batch keep_indices info;
  Ok (b <| b_reqs := reqs |> <| b_req_pool_indices := rows |> <| b_seq_lens := seq_lens |>
        <| b_seq_lens_cpu := seq_lens_cpu |> <| b_orig_seq_lens := orig_seq_lens |>
        <| b_out_cache_loc := None |> <| b_seq_lens_sum := zsum seq_lens |>
        <| b_output_ids := out |> <| b_return_logprob := rl |> <| b_top_logprobs_nums := tops |>
        <| b_has_stream := existsb stream rs |> <| b_has_grammar := existsb has_grammar_ rs |>
        <| b_sampling_info := Some info' |>).

Definition filter_batch (chunked_req_to_exclude : list nat) (keep_indices : option (list Z))
    : M (World C) unit :=
  b ← gets batch;
  rs ← reqs_at (b_reqs b);
  let keep := default (keep_default chunked_req_to_exclude (b_reqs b) rs) keep_indices in
  if len keep =? 0 then upd_batch (λ b, b <| b_reqs := [] |>)
  else if len keep =? len (b_reqs b) then mret tt
  else
    b' ← lift (keep_batch keep rs b);
    upd_batch (λ _, b').

(** [merge_batch] of two batches; the code extends the lists of [b]. *)
Definition merge_batch (b other : ScheduleBatch) : res ScheduleBatch :=
  info ← of_option AttributeError (b_sampling_info b);
  info' ← of_option AttributeError (b_sampling_info other);
  out ← match b_output_ids b, b_output_ids other with
        | Some l, Some l' => Ok (Some (l ++ l'))
        | Some _, None => Raise TypeError
        | None, _ => Ok None
        end;
  tops ← match b_return_logprob b, b_return_logprob other with
         | true, true =>
             l ← of_option AttributeError (b_top_logprobs_nums b);
             l' ← of_option TypeError (b_top_logprobs_nums other);
             Ok (Some (l ++ l'))
         | true, false =>
             l ← of_option AttributeError (b_top_logprobs_nums b);
             Ok (Some (l ++ times 0 (len (b_reqs other))))
         | false, true =>
             l' ← of_option TypeError (b_top_logprobs_nums other);
             Ok (Some (times 0 (len (b_reqs b)) ++ l'))
         | false, false => Ok (b_top_logprobs_nums b)
         end;
  Ok (b <| b_sampling_info := Some (Sampling.merge_batch info info') |>
        <| b_req_pool_indices ::= λ l, l ++ b_req_pool_indices other |>
        <| b_seq_lens ::= λ l, l ++ b_seq_lens other |>
        <| b_seq_lens_cpu ::= λ l, l ++ b_seq_lens_cpu other |>
        <| b_orig_seq_lens ::= λ l, l ++ b_orig_seq_lens other |>
        <| b_out_cache_loc := None |>
        <| b_seq_lens_sum ::= λ n, n + b_seq_lens_sum other |>
        <| b_output_ids := out |> <| b_top_logprobs_nums := tops |>
        <| b_reqs ::= λ l, l ++ b_reqs other |>
        <| b_return_logprob ::= λ x, x || b_return_logprob other |>
        <| b_has_stream ::= λ x, x || b_has_stream other |>
        <| b_has_grammar ::= λ x, x || b_has_grammar other |>).

(** A decode request joins an extend batch as a prompt of one token. *)
Definition mix_req (r : Req) : Req :=
  set_extend_input_len_ 1 (r <| fill_ids := origin_input_ids r ++ output_ids r |>).

Definition cat (a b : option (list Z)) : res (list Z) :=
  l ← of_option TypeError a; l' ← of_option TypeError b; Ok (l ++ l').

Definition mix_with_running (running : ScheduleBatch) : M (World C) unit :=
  upd_batch (λ b, b <| b_forward_mode := Some MIXED |>);;
  for_ (b_reqs running) (λ id, upd_req id mix_req);;
  b ← gets batch;
  input_ids ← lift (cat (b_input_ids b) (b_input_ids running));
  out_cache_loc ← lift (cat (b_out_cache_loc b) (b_out_cache_loc running));
  merged ← lift (merge_batch b running);
  rs ← reqs_at (b_reqs running);
  let running_bs := batch_size running in
  let delta := if b_enable_overlap b then 0 else -1 in
  upd_batch (λ _, merged <| b_input_ids := Some input_ids |>
    <| b_out_cache_loc := Some out_cache_loc |>
    <| b_prefix_lens ::= λ l, l ++ ((λ r, len (origin_input_ids r) + len (output_ids r) + delta) <$> rs) |>
    <| b_extend_lens ::= λ l, l ++ times 1 running_bs |>
    <| b_extend_num_tokens ::= λ n, n + running_bs |>
    <| b_extend_logprob_start_lens ::= λ l, l ++ times 0 running_bs |>
    <| b_is_prefill_only := false |>).

(** ** Memory of the next decode pass *)

Definition new_tokens_required_next_decode (page_size_ : Z) (rs : list Req) : Z :=
  len (filter (λ r, kv_committed_len r mod page_size_ = 0) rs) * page_size_.

(** The requests at [selected_indices]. *)
Definition selected (selected_indices : option (list Z)) : M (World C) (list Req) :=
  ids ← gets (λ wd, b_reqs (batch wd));
  ids ← lift (match selected_indices with Some idx => gather ids idx | None => Ok ids end);
  reqs_at ids.

Definition check_decode_mem (selected_indices : option (list Z)) : M (World C) bool :=
  rs ← selected selected_indices;
  a ← gets kv;
  let num_tokens := new_tokens_required_next_decode (page_size a) rs in
  Mem.evict_from_tree_cache num_tokens;;
  a ← gets kv;
  mret (num_tokens <=? available_size a).

(** ** Retraction *)

Definition SGLANG_RETRACT_DECODE_STEPS : Z := 20.

Definition release_req (id : nat) (remaing_req_count : Z) : M (World C) unit :=
  Mem.release_kv_cache id false;;
  Mem.evict_from_tree_cache (remaing_req_count * SGLANG_RETRACT_DECODE_STEPS);;
  upd_req id reset_for_retract.

Definition retract_all : M (World C) (list nat) :=
  retracted_reqs ← gets (λ wd, b_reqs (batch wd));
  for_ (enumerate retracted_reqs) (λ '(idx, id), release_req id (len retracted_reqs - idx));;
  filter_batch retracted_reqs None;;
  mret retracted_reqs.

(** [key] of the sort: more output first, then the shorter prompt; the sort
    is stable. *)
Definition retract_before (x y : Z * Req) : Prop :=
  len (output_ids y.2) < len (output_ids x.2) ∨
  (len (output_ids x.2) = len (output_ids y.2) ∧
   len (origin_input_ids x.2) ≤ len (origin_input_ids y.2)).

#[export] Instance retract_before_dec : RelDecision retract_before.
Proof. intros x y. unfold retract_before. apply _. Defined.

(** Insertion keeps the order of equal elements. *)
Fixpoint insert_before (x : Z * Req) (l : list (Z * Req)) : list (Z * Req) :=
  match l with
  | [] => [x]
  | y :: l' => if decide (retract_before x y) then x :: l else y :: insert_before x l'
  end.
Definition retract_order (rs : list Req) : list Z :=
  (foldr insert_before [] (enumerate rs)).*1.

(** The loop pops from the end.  It runs once in any case and keeps at least
    one request; the fuel is the number of requests. *)
Fixpoint retract_loop (fuel : nat) (first_iter : bool) (sorted_indices : list Z)
    (retracted_reqs : list nat) : M (World C) (list Z * list nat) :=
  match fuel with
  | O => mret (sorted_indices, retracted_reqs)
  | S fuel' =>
      enough ← (if first_iter then mret false else check_decode_mem (Some sorted_indices));
      if (enough : bool) then mret (sorted_indices, retracted_reqs)
      else if len sorted_indices =? 1 then mret (sorted_indices, retracted_reqs)
      else
        idx ← lift (getitem sorted_indices (-1));
        let sorted_indices := slice_to sorted_indices (-1) in
        ids ← gets (λ wd, b_reqs (batch wd));
        id ← lift (getitem ids idx);
        release_req id (len sorted_indices);;
        retract_loop fuel' false sorted_indices (retracted_reqs ++ [id])
  end.

(** The estimate of how much of [max_new_tokens] the requests use. *)
Definition new_estimate_ratio (rs : list Req) : float :=
  let total_decoded_tokens := zsum ((λ r, len (output_ids r)) <$> rs) in
  let total_max_new_tokens := zsum ((λ r, max_new_tokens (sampling_params r)) <$> rs) in
  let q := f64_div (f64_of_Z (total_decoded_tokens + SGLANG_RETRACT_DECODE_STEPS * len rs))
             (f64_of_Z (total_max_new_tokens + 1)) in
  if SFltb q (f64_of_Z 1) then q else f64_of_Z 1.

Definition retract_decode : M (World C) (list nat * float) :=
  ids ← gets (λ wd, b_reqs (batch wd));
  rs ← reqs_at ids;
  '(sorted_indices, retracted_reqs) ← retract_loop (S (length ids)) true (retract_order rs) [];
  (if len sorted_indices <=? 1 then
     enough ← check_decode_mem (Some sorted_indices);
     if (enough : bool) then mret tt else throw ValueError
   else mret tt);;
  filter_batch [] (Some sorted_indices);;
  ids ← gets (λ wd, b_reqs (batch wd));
  rs ← reqs_at ids;
  mret (retracted_reqs, new_estimate_ratio rs).

End BatchOps.
End BatchOps.
