(* ===== verification/LLM42Worker.v ===== *)
(** * The verification worker (srt/llm42/llm42_worker.py)

    [VPool] is [FixedSizeVerificationPool], the dummy resources that complete
    a pass to a fixed shape; [Worker] is [LLM42Worker], which decides what to
    verify, runs the passes and applies their results to the requests and to
    the running batch.  The forward pass of the model is a parameter
    ([Model]); metrics and log messages are left out, and so is
    [_cleanup_verify_batch], which drops the references of a batch that is
    not used afterwards. *)

From S2P Require Import Prelude PyFloat Allocator Request ReqPool LLM42Info World MemCommon.

(** The model runs a verification batch: one token and one log-probability
    per input token. *)
Class Model := {
  forward : VerifyBatch → res (list Z * option (list float))
}.

(** ** State *)

Record FixedSizeVerificationPool : Type := mkPool {
  fixed_size : Z;
  window_size : Z;
  dummy_input_ids : list Z;
  dummy_cache_locs : option (list Z);
  dummy_req_pool_indices : list Z;
  allocated_pool_indices : option (list Z);
  dummy_tensors : DummySampling;
  padding_cache_pool : option (list Z);
  padding_cache_pool_allocated : option (list Z)
}.

#[export] Instance eta_VPool : Eta FixedSizeVerificationPool := λ p,
  mkPool (fixed_size p) (window_size p) (dummy_input_ids p) (dummy_cache_locs p)
    (dummy_req_pool_indices p) (allocated_pool_indices p) (dummy_tensors p)
    (padding_cache_pool p) (padding_cache_pool_allocated p).
#[export] Instance set_dummy_cache_locs : Setter dummy_cache_locs.
Proof. derive_setter. Defined.
#[export] Instance set_allocated_pool_indices : Setter allocated_pool_indices.
Proof. derive_setter. Defined.
#[export] Instance set_padding_cache_pool : Setter padding_cache_pool.
Proof. derive_setter. Defined.
#[export] Instance set_padding_cache_pool_allocated : Setter padding_cache_pool_allocated.
Proof. derive_setter. Defined.

Record LLM42Worker : Type := mkWorker {
  always_align : bool;
  fixed_requests_per_verify : Z;
  skip_mismatch : float;
  fixed_pool : option FixedSizeVerificationPool;
  _window_size : Z;
  decode_steps : Z;
  verify_forward_passes : Z;
  verify_total_reqs : Z;
  verify_total_tokens : Z
}.

#[export] Instance eta_LLM42Worker : Eta LLM42Worker := λ k,
  mkWorker (always_align k) (fixed_requests_per_verify k) (skip_mismatch k) (fixed_pool k)
    (_window_size k) (decode_steps k) (verify_forward_passes k) (verify_total_reqs k)
    (verify_total_tokens k).
#[export] Instance set_fixed_pool : Setter fixed_pool.
Proof. derive_setter. Defined.
#[export] Instance set_window_size : Setter _window_size.
Proof. derive_setter. Defined.
#[export] Instance set_decode_steps : Setter decode_steps.
Proof. derive_setter. Defined.
#[export] Instance set_verify_forward_passes : Setter verify_forward_passes.
Proof. derive_setter. Defined.
#[export] Instance set_verify_total_reqs : Setter verify_total_reqs.
Proof. derive_setter. Defined.
#[export] Instance set_verify_total_tokens : Setter verify_total_tokens.
Proof. derive_setter. Defined.

(** The worker beside the state it shares; [sigterm] records that the
    process asked for its own termination. *)
Record Sys (C : Type) : Type := mkSys {
  world : World C;
  worker : LLM42Worker;
  sigterm : bool
}.
Arguments mkSys {C}.
Arguments world {C} s.
Arguments worker {C} s.
Arguments sigterm {C} s.

#[export] Instance eta_Sys {C} : Eta (Sys C) := λ s, mkSys (world s) (worker s) (sigterm s).
#[export] Instance set_world {C} : Setter (@world C).
Proof. derive_setter. Defined.
#[export] Instance set_worker {C} : Setter (@worker C).
Proof. derive_setter. Defined.
#[export] Instance set_sigterm {C} : Setter (@sigterm C).
Proof. derive_setter. Defined.

Definition on_world {C A} (m : M (World C) A) : M (Sys C) A := λ s,
  let '(r, w) := m (world s) in (r, s <| world := w |>).

(** ** [FixedSizeVerificationPool] *)

Module VPool.

(** [n] rounded up to whole pages *)
Definition round_up (n page_size : Z) : Z :=
  if 1 <? page_size then (n + page_size - 1) / page_size * page_size else n.

Section VPool.
Context {C : Type}.

(** An allocation that must not be empty. *)
Definition alloc_or_raise (n : Z) : M (World C) (list Z) :=
  o ← on_kv (alloc n);
  match o with
  | Some (l :: ls) => mret (l :: ls)
  | _ => throw RuntimeError
  end.

(** The rows of the dummies, taken from the free ones. *)
Definition take_rows (fixed_size_ : Z) : M (World C) (list Z) :=
  p ← gets rtp;
  if len (free_slots p) <? fixed_size_ then throw RuntimeError
  else
    modify (λ w, w <| rtp := p <| free_slots := slice_from (free_slots p) fixed_size_ |> |>);;
    mret (slice_to (free_slots p) fixed_size_).

(** Each dummy's row holds its own slots. *)
Definition write_rows (window_size_ : Z) (locs rows : list Z) : M (World C) unit :=
  for_ (enumerate rows) (λ '(i, pool_idx),
    on_rtp (Pool.write pool_idx 0 window_size_
              (slice locs (i * window_size_) (i * window_size_ + window_size_)))).

Definition sampling_tensors (fixed_size_ window_size_ : Z) : DummySampling :=
  let total := fixed_size_ * window_size_ in
  mkDummySampling (times f_zero total) (times f_one total) (times (-1) total)
    (times f_zero total) (times 0 total) (times 1 total) (times 0 fixed_size_)
    (times window_size_ fixed_size_).

(** The slots for the padding of real requests, and the allocation they are
    a part of. *)
Definition alloc_padding (fixed_size_ window_size_ : Z)
    : M (World C) (option (list Z) * option (list Z)) :=
  let max_padding_slots := fixed_size_ * (window_size_ - 1) in
  if 0 <? max_padding_slots then
    a ← gets kv;
    padding ← alloc_or_raise (round_up max_padding_slots (page_size a));
    if max_padding_slots <? len padding
    then mret (Some (slice_to padding max_padding_slots), Some padding)
    else mret (Some padding, Some padding)
  else mret (None, None).

(** [__init__]: an exception leaves what was taken so far allocated. *)
Definition init (fixed_size_ window_size_ : Z) : M (World C) FixedSizeVerificationPool :=
  let total_dummy_tokens := fixed_size_ * window_size_ in
  a ← gets kv;
  dummy_locs ← alloc_or_raise (round_up total_dummy_tokens (page_size a));
  rows ← take_rows fixed_size_;
  write_rows window_size_ dummy_locs rows;;
  '(padding, padding_allocated) ← alloc_padding fixed_size_ window_size_;
  mret (mkPool fixed_size_ window_size_ (times DUMMY_TOKEN_ID total_dummy_tokens)
          (Some dummy_locs) rows (Some rows) (sampling_tensors fixed_size_ window_size_)
          padding padding_allocated).

(** [get_dummy_data]; [None] is the three [None]s of the code. *)
Definition get_dummy_data (num_dummies : Z) (p : FixedSizeVerificationPool)
    : res (option (list Z * option (list Z) * list Z)) :=
  if num_dummies <=? 0 then Ok None else
  if fixed_size p <? num_dummies then Raise ValueError else
  let needed := num_dummies * window_size p in
  match dummy_cache_locs p with
  | None => Raise TypeError
  | Some locs =>
      Ok (Some (slice_to (dummy_input_ids p) needed, Some (slice_to locs needed),
                slice_to (dummy_req_pool_indices p) num_dummies))
  end.

Definition get_padding_cache_locs (num_slots : Z) (p : FixedSizeVerificationPool)
    : res (option (list Z)) :=
  if num_slots <=? 0 then Ok None else
  match padding_cache_pool p with
  | None => Raise RuntimeError
  | Some locs =>
      if len locs <? num_slots then Raise RuntimeError
      else Ok (Some (slice_to locs num_slots))
  end.

Definition get_dummy_sampling_tensors (num_dummies : Z) (p : FixedSizeVerificationPool)
    : option DummySampling :=
  if num_dummies <=? 0 then None else
  let needed := num_dummies * window_size p in
  let d := dummy_tensors p in
  Some (mkDummySampling (slice_to (d_temps d) needed) (slice_to (d_top_ps d) needed)
          (slice_to (d_top_ks d) needed) (slice_to (d_min_ps d) needed)
          (slice_to (d_seeds d) needed) (slice_to (d_det_indices d) needed)
          (slice_to (d_prefix_lens d) num_dummies) (slice_to (d_output_lens d) num_dummies)).

Definition free (p : FixedSizeVerificationPool) : M (World C) FixedSizeVerificationPool :=
  p ← match dummy_cache_locs p with
      | Some (l :: ls) =>
          on_kv (Allocator.free (l :: ls));; mret (p <| dummy_cache_locs := None |>)
      | _ => mret p
      end;
  p ← match padding_cache_pool_allocated p with
      | Some (l :: ls) =>
          on_kv (Allocator.free (l :: ls));;
          mret (p <| padding_cache_pool_allocated := None |> <| padding_cache_pool := None |>)
      | _ => mret p
      end;
  match allocated_pool_indices p with
  | Some rows =>
      modify (λ w, w <| rtp ::= λ t, t <| free_slots ::= λ fs, fs ++ rows |> |>);;
      mret (p <| allocated_pool_indices := None |>)
  | None => mret p
  end.

End VPool.
End VPool.

(** ** [LLM42Worker] *)

Module Worker.

Definition f_hundred : float := f64_of_Z 100.

Section Worker.
Context `{Model} {C : Type}.

(** [_init_fixed_pool]: any exception of the constructor is swallowed and
    the worker falls back to variable-size passes. *)
Definition _init_fixed_pool : M (Sys C) unit := λ s,
  match VPool.init (fixed_requests_per_verify (worker s)) (_window_size (worker s)) (world s) with
  | (Ok p, w) => (Ok tt, s <| world := w |> <| worker ::= λ k, k <| fixed_pool := Some p |> |>)
  | (Raise _, w) => (Ok tt, s <| world := w |>)
  end.

(** [__init__] without the allocators, which the scheduler provides later. *)
Definition init (always_align_ : bool) (fixed_requests_per_verify_ : Z) (skip_mismatch_ : float)
    (window_size_ : Z) : LLM42Worker :=
  mkWorker always_align_ fixed_requests_per_verify_ skip_mismatch_ None window_size_ 0 0 0 0.

Definition init_fixed_pool (window_size_ : Z) : M (Sys C) unit := λ s,
  match fixed_pool (worker s) with
  | Some _ => (Ok tt, s)
  | None => _init_fixed_pool (s <| worker ::= λ k, k <| _window_size := window_size_ |> |>)
  end.

(** ** What to verify *)

Definition unverified_tokens (r : Req) : Z := len (output_ids r) - llm42_verified_tokens r.

(** The requests that may take part in a pass. *)
Definition candidate (r : Req) : bool :=
  is_deterministic r &&
  negb (match req_pool_idx r with None => true | Some _ => false end || is_retracted r) &&
  negb (unverified_tokens r <=? 0).

(** The requests that trigger one. *)
Definition triggers (window_size_ : Z) (r : Req) : bool :=
  finished r || (window_size_ <=? unverified_tokens r).

(** The passes of fixed-size mode: ready requests first, then requests that
    are not ready, then dummies.  The loop runs while ready requests are
    left; each round takes [fixed_size] of them. *)
Fixpoint group (fuel : nat) (fixed_size_ : Z) (ready not_ready : list nat)
    : list (list nat * Z) :=
  match fuel with
  | O => []
  | S fuel' =>
      match ready with
      | [] => []
      | _ =>
          let now := slice_to ready (Z.max 0 fixed_size_) in
          let room := Z.max 0 (fixed_size_ - len now) in
          let batch_reqs := now ++ slice_to not_ready room in
          (batch_reqs, Z.max 0 (fixed_size_ - len batch_reqs)) ::
          group fuel' fixed_size_ (slice_from ready (Z.max 0 fixed_size_))
            (slice_from not_ready room)
      end
  end.

(** [reqs[i:i + n]] for [i] in [range(0, len(reqs), n)] *)
Fixpoint chunks (fuel : nat) (n : Z) (ids : list nat) : list (list nat) :=
  match fuel, ids with
  | S fuel', _ :: _ => slice_to ids n :: chunks fuel' n (slice_from ids n)
  | _, _ => []
  end.

(** ** One pass *)

(** Step 6 for one request: the counters, and the number of verified
    tokens. *)
Definition settle (i : LLM42Info) (req_idx : Z) (info : Z * Z) (r : Req) : Req :=
  let r := r <| llm42_num_verification_windows ::= λ n, n + 1 |> in
  if 0 <? info.2 then
    let r := r <| llm42_num_rollbacks ::= λ n, n + 1 |>
               <| llm42_tokens_rolled_back ::= λ n, n + info.2 |> in
    r <| llm42_verified_tokens := len (output_ids r) |>
  else
    let tokens_verified :=
      match getitem (output_lens i) req_idx with Ok n => n | Raise _ => 0 end in
    r <| llm42_verified_tokens ::= λ n, n + tokens_verified |>.

(** The entry of [_update_batch_state] for the request at position [k]. *)
Definition batch_entry (rolled_back : list nat) (k : nat) (id : nat) (r : Req)
    (tensors : list Z * list Z) : res (list Z * list Z) :=
  let '(out, seq) := tensors in
  if negb (bool_decide (rolled_back = [])) && negb (bool_decide (id ∈ rolled_back))
  then Ok (out, seq)
  else
    let token := match last (output_ids r) with
                 | Some t => t
                 | None => default 0 (last (origin_input_ids r))
                 end in
    out ← setitem out (Z.of_nat k) token;
    seq ← setitem seq (Z.of_nat k) (len (origin_input_ids r) + len (output_ids r) - 1);
    Ok (out, seq).

(** One iteration of its loop. *)
Definition update_entry (rolled_back : list nat) (acc : nat * (list Z * list Z)) (id : nat)
    : M (World C) (nat * (list Z * list Z)) :=
  let '(k, tensors) := acc in
  r ← req_at id;
  tensors ← lift (batch_entry rolled_back k id r tensors);
  mret (S k, tensors).

Definition _update_batch_state (rolled_back : list nat) : M (World C) unit :=
  b ← gets batch;
  match b_output_ids b with
  | None => mret tt
  | Some current_output_ids =>
      '(_, (out, seq)) ← foldM (update_entry rolled_back)
        (0%nat, (current_output_ids, b_seq_lens b)) (b_reqs b);
      upd_batch (λ b, b <| b_output_ids := Some out |> <| b_seq_lens := seq |>
                        <| b_seq_lens_cpu := seq |> <| b_orig_seq_lens := seq |>
                        <| b_seq_lens_sum := zsum seq |>)
  end.

(** Steps 1 and 2: the metadata and its padding slots. *)
Definition build_info (reqs : list Req) (force_include_all : bool) (num_dummies : Z)
    : M (Sys C) LLM42Info := λ s,
  let k := worker s in
  let i := Info.from_requests reqs (always_align k) force_include_all (Some (_window_size k)) in
  match
    (if 0 <? num_dummies
     then match fixed_pool k with
          | Some p => Ok (Info.append_dummy_entries num_dummies (window_size p) i)
          | None => Raise AttributeError
          end
     else Ok i)
  with
  | Raise e => (Raise e, s)
  | Ok i =>
      if 0 <? total_padding_cache_slots i then
        match fixed_pool k with
        | Some p =>
            match VPool.get_padding_cache_locs (total_padding_cache_slots i) p with
            | Ok (Some locs) => (Ok (Info.set_padding_cache_locs locs i), s)
            | Ok None => (Raise TypeError, s)
            | Raise e => (Raise e, s)
            end
        | None =>
            match on_world (on_kv (Info.allocate_padding_kv_cache i)) s with
            | (Ok (true, i), s) => (Ok i, s)
            | (Ok (false, i), s) => (Ok i, s <| sigterm := true |>)
            | (Raise e, s) => (Raise e, s)
            end
        end
      else (Ok i, s)
  end.

(** Step 3: the verification batch.  [enable_deterministic] is set with
    LLM-42. *)
Definition build_batch (i : LLM42Info) (reqs : list Req) (num_dummies : Z)
    : M (Sys C) VerifyBatch := λ s,
  let pool := rtp (world s) in
  (if 0 <? num_dummies then
     p ← of_option AttributeError (fixed_pool (worker s));
     data ← VPool.get_dummy_data num_dummies p;
     let sampling := VPool.get_dummy_sampling_tensors num_dummies p in
     let d := match data with
              | Some (ids, locs, rows) =>
                  mkDummyArgs (Some ids) locs (Some rows) num_dummies (Some (window_size p)) sampling
              | None => mkDummyArgs None None None num_dummies (Some (window_size p)) sampling
              end in
     Verify.prepare_verify_batch i true pool reqs d
   else Verify.prepare_verify_batch i true pool reqs no_dummies, s).

(** Step 5: the comparison that [skip_mismatch] selects. *)
Definition compare (i : LLM42Info) (skip : float) (reqs : list Req) (tokens : list Z)
    (logprobs : option (list float)) : res (list Req * list (Z * Z)) :=
  if f64_le f_hundred skip then Verify.verify_and_compare i reqs tokens logprobs None
  else if f64_le skip f_zero
  then Ok (reqs, (λ r, (unverified_tokens r, 0)) <$> reqs)
  else Verify.verify_and_compare i reqs tokens logprobs (Some skip).

(** Step 6 over the requests of the pass: the settled requests and the ones
    rolled back. *)
Definition settle_all (i : LLM42Info) (ids : list nat) (reqs : list Req) (infos : list (Z * Z))
    : list Req * list (nat * Z) :=
  let n := Nat.min (length reqs) (length infos) in
  (((λ '(k, (r, info)), settle i k info r) <$> enumerate (zip reqs infos)) ++ drop n reqs,
  omap (λ '(id, info), if 0 <? info.2 then Some (id, info.2) else None) (zip ids infos)).

(** The statistics of a forward pass. *)
Definition count_pass (i : LLM42Info) (reqs : list Req) (k : LLM42Worker) : LLM42Worker :=
  k <| verify_forward_passes ::= λ n, n + 1 |>
    <| verify_total_reqs ::= λ n, n + len reqs |>
    <| verify_total_tokens ::= λ n, n + zsum (output_lens i) |>.

(** Steps 3 to 8. *)
Definition run_pass (i : LLM42Info) (ids : list nat) (num_dummies : Z)
    : M (Sys C) (list (nat * Z)) :=
  reqs ← on_world (reqs_at ids);
  b ← build_batch i reqs num_dummies;
  '(tokens, logprobs) ← lift (forward b);
  modify (λ s, s <| worker ::= count_pass i reqs |>);;
  s ← get;
  '(reqs, infos) ← lift (compare i (skip_mismatch (worker s)) reqs tokens logprobs);
  let '(reqs, rollback_results) := settle_all i ids reqs infos in
  on_world (Mem.set_reqs ids reqs);;
  (match rollback_results with
   | [] => mret tt
   | _ => on_world (_update_batch_state rollback_results.*1)
   end);;
  (if (0 <? total_padding_cache_slots i) &&
      match fixed_pool (worker s) with None => true | Some _ => false end
   then _ ← on_world (on_kv (Info.free_padding_kv_cache i)); mret tt
   else mret tt);;
  mret rollback_results.

(** [_run_verification]: an exception frees the temporary padding slots and
    goes on.  Before the slots are allocated there is nothing to free. *)
Definition _run_verification (ids : list nat) (force_include_all : bool) (num_dummies : Z)
    : M (Sys C) (list (nat * Z)) := λ s,
  match on_world (reqs_at ids) s with
  | (Raise e, s) => (Raise e, s)
  | (Ok reqs, s) =>
      match build_info reqs force_include_all num_dummies s with
      | (Raise e, s) => (Raise e, s)
      | (Ok i, s) =>
          match run_pass i ids num_dummies s with
          | (Ok out, s) => (Ok out, s)
          | (Raise e, s) =>
              if (0 <? total_padding_cache_slots i) &&
                 match fixed_pool (worker s) with None => true | Some _ => false end
              then (Raise e, (on_world (on_kv (Info.free_padding_kv_cache i)) s).2)
              else (Raise e, s)
          end
      end
  end.

Definition _verify_fixed_batch (ids : list nat) (num_dummies : Z) : M (Sys C) (list (nat * Z)) :=
  _run_verification ids true num_dummies.

(** [_verify_deterministic_requests_batched]; the code always passes
    [max_requests].  [range] refuses a step of 0 and is empty for a negative
    one. *)
Definition _verify_deterministic_requests_batched (ids : list nat) (max_requests : Z)
    : M (Sys C) (list (nat * Z)) :=
  if len ids <=? max_requests then _run_verification ids false 0
  else if max_requests =? 0 then throw ValueError
  else if max_requests <? 0 then mret []
  else foldM (λ acc c, out ← _run_verification c false 0; mret (acc ++ out)) []
         (chunks (length ids) max_requests ids).

Definition check_and_verify_deterministic_requests : M (Sys C) (list (nat * Z)) :=
  ids ← gets (λ s, b_reqs (batch (world s)));
  reqs ← on_world (reqs_at ids);
  k ← gets worker;
  let all_det := filter (λ ir, candidate ir.2 = true) (zip ids reqs) in
  let ready := (filter (λ ir, triggers (_window_size k) ir.2 = true) all_det).*1 in
  let not_ready := (filter (λ ir, triggers (_window_size k) ir.2 = false) all_det).*1 in
  match ready with
  | [] => mret []
  | _ =>
      match fixed_pool k with
      | Some p =>
          foldM (λ acc '(batch_reqs, num_dummies),
              out ← _verify_fixed_batch batch_reqs num_dummies; mret (acc ++ out))
            [] (group (length ready) (fixed_size p) ready not_ready)
      | None =>
          _verify_deterministic_requests_batched ready (fixed_requests_per_verify k)
      end
  end.

End Worker.
End Worker.
