(* ===== verification/Verifier.v ===== *)
(** * The verifier's reference generation

    [gen V prompt n] are the first [n] tokens a model that maps a token
    sequence to its next token generates from a prompt.  [committed] says
    that the verified outputs of a request are such a generation, whatever
    decode proposed.  The lemmas of this file carry the invariant through the
    comparison of one window. *)

From S2P Require Import Prelude PyFloat Allocator Request ReqPool LLM42Info InfoFacts World MemCommon LLM42Worker.
Import Compare Batch Fixed.

(** ** Reference generation *)

Fixpoint gen (V : list Z → Z) (ctx : list Z) (n : nat) : list Z :=
  match n with
  | O => []
  | S n' => V ctx :: gen V (ctx ++ [V ctx]) n'
  end.

Lemma length_gen V ctx n : length (gen V ctx n) = n.
Proof. revert ctx. induction n as [|n IH]; intros ctx; cbn; [done|]. by rewrite IH. Qed.

Lemma gen_app V ctx a b : gen V ctx (a + b) = gen V ctx a ++ gen V (ctx ++ gen V ctx a) b.
Proof.
  revert ctx. induction a as [|a IH]; intros ctx; cbn; [by rewrite app_nil_r|].
  rewrite IH, <- app_assoc. done.
Qed.

Lemma gen_take V ctx a b : (a ≤ b)%nat → take a (gen V ctx b) = gen V ctx a.
Proof.
  intros H. replace b with (a + (b - a))%nat by lia. rewrite gen_app.
  rewrite <- (length_gen V ctx a) at 1. apply take_app_length.
Qed.

(** ** One window *)

(** When every verifier token is the next token of the sequence before it,
    the committed tokens continue the generation. *)
Lemma commit_gen V h u vs :
  length vs = length u →
  (∀ j, (j < length u)%nat → vs !! j = Some (V (h ++ take j u))) →
  take (commit_len u vs) vs = gen V h (commit_len u vs).
Proof.
  revert h vs. induction u as [|x u IH]; intros h [|y vs] Hl Hv; try done.
  assert (Hy : y = V h).
  { specialize (Hv 0%nat ltac:(cbn; lia)). cbn in Hv. rewrite app_nil_r in Hv. congruence. }
  unfold commit_len. cbn [length lcp]. destruct (decide (x = y)) as [->|_].
  - rewrite <- Nat.succ_min_distr. fold (commit_len u vs). cbn [take gen].
    rewrite <- Hy. f_equal. apply IH; [by injection Hl|]. intros j Hj.
    specialize (Hv (S j) ltac:(cbn; lia)). cbn in Hv.
    rewrite <- app_assoc. done.
  - rewrite Nat.min_r by lia. cbn. by rewrite Hy.
Qed.

(** ... and every proposed token that continues it is committed, with the one
    token after them. *)
Lemma commit_far V h u vs n :
  length vs = length u → (n ≤ length u)%nat →
  (∀ j, (j < length u)%nat → vs !! j = Some (V (h ++ take j u))) →
  take n u = gen V h n → (Nat.min (length u) (S n) ≤ commit_len u vs)%nat.
Proof.
  revert h u vs. induction n as [|n IH]; intros h u vs Hl Hn Hv Ht; [unfold commit_len; lia|].
  destruct u as [|x u], vs as [|y vs]; try done. cbn [take gen] in Ht. injection Ht as Hx Ht. cbn in Hl, Hn.
  assert (Hy : y = V h).
  { specialize (Hv 0%nat ltac:(cbn; lia)). cbn in Hv. rewrite app_nil_r in Hv. congruence. }
  unfold commit_len. cbn [length lcp]. rewrite decide_True by congruence.
  specialize (IH (h ++ [V h]) u vs ltac:(lia) ltac:(lia)). unfold commit_len in IH.
  assert (Hgo : (length u `min` S n ≤ length u `min` S (lcp u vs))%nat); [|lia]. apply IH; [|done].
  intros j Hj. specialize (Hv (S j) ltac:(cbn; lia)). cbn in Hv. rewrite <- Hx, <- app_assoc. done.
Qed.

Section Committed.
Context (V : SamplingParams → list Z → Z).

Local Abbreviation Vr r := (V (sampling_params r)).

(** The verified outputs are the reference generation of the prompt. *)
Definition committed (r : Req) : Prop :=
  0 ≤ llm42_verified_tokens r ≤ len (output_ids r) ∧
  slice_to (output_ids r) (llm42_verified_tokens r) =
  gen (Vr r) (origin_input_ids r) (Z.to_nat (llm42_verified_tokens r)).

Lemma committed_history r :
  committed r →
  history r = origin_input_ids r ++
              gen (Vr r) (origin_input_ids r) (Z.to_nat (llm42_verified_tokens r)).
Proof. intros [_ E]. unfold history. by rewrite E. Qed.

(** Verification of all unverified tokens commits the whole output. *)
Lemma outcome_committed vs lps r r' info :
  committed r →
  length vs = length (unverified r) →
  (∀ j, (j < length (unverified r))%nat →
    vs !! j = Some (Vr r (history r ++ take j (unverified r)))) →
  outcome (unverified r) vs lps r r' info →
  output_ids r' = gen (Vr r) (origin_input_ids r) (length (output_ids r')) ∧
  len (output_ids r') = llm42_verified_tokens r + Z.of_nat (commit_len (unverified r) vs).
Proof.
  intros Hc Hl Hv [Hids _ _ _ _]. pose proof Hc as [Hb E].
  pose proof (commit_gen (Vr r) (history r) (unverified r) vs Hl Hv) as Hg.
  pose proof (len_unverified r ltac:(lia)) as Hlu.
  assert (Hpre : take (length (output_ids r) - length (unverified r)) (output_ids r)
    = gen (Vr r) (origin_input_ids r) (Z.to_nat (llm42_verified_tokens r))).
  { rewrite <- E, slice_to_take by lia. f_equal. unfold len in *. lia. }
  rewrite Hpre, Hg, committed_history, <- gen_app in Hids by done.
  assert (Hlen : length (output_ids r') =
    (Z.to_nat (llm42_verified_tokens r) + commit_len (unverified r) vs)%nat)
    by (by rewrite Hids, length_gen).
  split; [by rewrite Hlen|]. unfold len. rewrite Hlen. lia.
Qed.

(** Outputs that continue the generation stay, up to the first that does
    not, which is replaced. *)
Lemma outcome_far vs lps r r' info n :
  committed r → length vs = length (unverified r) →
  (∀ j, (j < length (unverified r))%nat → vs !! j = Some (Vr r (history r ++ take j (unverified r)))) →
  outcome (unverified r) vs lps r r' info → 0 < len (unverified r) →
  (n ≤ length (output_ids r))%nat → take n (output_ids r) = gen (Vr r) (origin_input_ids r) n →
  (Nat.min (length (output_ids r)) (S n) ≤ length (output_ids r'))%nat.
Proof.
  intros Hc Hl Hv O Hpos Hn Ht. destruct (outcome_committed vs lps r r' info Hc Hl Hv O) as [_ Hlen].
  pose proof Hc as [Hb E]. pose proof (len_unverified r ltac:(lia)) as Hlu. set (v := Z.to_nat (llm42_verified_tokens r)) in *.
  destruct (Nat.le_gt_cases v n) as [Hvn|Hvn]; [|unfold commit_len, len in *; lia].
  assert (Hgo : (length (unverified r) `min` S (n - v) ≤ commit_len (unverified r) vs)%nat); [|unfold len in *; lia].
  apply (commit_far (Vr r) (history r)); [done|unfold len in *; lia|done|].
  rewrite committed_history by done. fold v. unfold unverified. rewrite slice_from_drop by lia. fold v.
  rewrite slice_to_take in E by lia. fold v in E. apply (app_inv_head (take v (output_ids r))).
  rewrite take_drop_commute. replace (v + (n - v))%nat with n by lia.
  replace (take v (output_ids r)) with (take v (take n (output_ids r))) at 1 by (rewrite take_take; f_equal; lia).
  rewrite take_drop, Ht, E, <- gen_app. f_equal. lia.
Qed.

(** ** Determinism of the verifier

    What the implementation relies on: under the fixed shape of [N] windows
    of [w] tokens, the token for an input position is a function of the
    request's sampling parameters and of the tokens up to that position; it
    does not depend on the other requests of the batch. *)
Definition fixed_shape_determinism `{Model} (N w : Z) : Prop :=
  ∀ b, vb_extend_lens b = times w N → len (vb_input_ids b) = N * w →
  ∃ toks lps, forward b = Ok (toks, lps) ∧ len toks = N * w ∧
    (∀ l, lps = Some l → len l = N * w) ∧
    ∀ k r p j, vb_reqs b !! k = Some r → vb_prefix_lens b !! k = Some p →
      Z.of_nat k < N → 0 ≤ j < w →
      toks !! Z.to_nat (Z.of_nat k * w + j) =
      Some (Vr r (slice_to (origin_input_ids r ++ output_ids r) p ++
                  slice_to (slice (vb_input_ids b) (Z.of_nat k * w) (Z.of_nat k * w + w)) (j + 1))).

(** The sequence the verifier sees at position [j] of a window. *)
Lemma window_context pool w r j :
  0 < w → ready pool r → len (unverified r) ≤ w → 0 ≤ j < len (unverified r) →
  slice_to (origin_input_ids r ++ output_ids r)
    (len (origin_input_ids r) + llm42_verified_tokens r - 1) ++
  slice_to (inputs_of true true (Some w) r) (j + 1)
  = history r ++ take (Z.to_nat j) (unverified r).
Proof.
  intros Hw [Hv Hp _ _] Hu Hj.
  assert (Hh : slice_to (origin_input_ids r ++ output_ids r)
    (len (origin_input_ids r) + llm42_verified_tokens r - 1)
    = take (length (history r) - 1) (history r)).
  { rewrite slice_to_take by lia. unfold history. rewrite slice_to_take by lia.
    set (P := origin_input_ids r) in *. set (O := output_ids r) in *.
    assert (Hl : (length (P ++ take (Z.to_nat (llm42_verified_tokens r)) O) - 1)%nat
      = Z.to_nat (len P + llm42_verified_tokens r - 1)).
    { rewrite length_app, length_take. unfold len in *. lia. }
    rewrite Hl. replace (P ++ take (Z.to_nat (llm42_verified_tokens r)) O)
      with (take (Z.to_nat (len P + llm42_verified_tokens r)) (P ++ O)).
    { rewrite take_take. f_equal. lia. }
    rewrite take_app_ge by (unfold len; lia). f_equal. f_equal. unfold len. lia. }
  rewrite Hh. unfold inputs_of. rewrite slice_to_take by lia.
  replace (Z.to_nat (j + 1)) with (S (Z.to_nat j)) by lia. cbn [take].
  rewrite fixed_win by done.
  rewrite take_app_le, take_take by (rewrite length_take; unfold len in *; lia).
  rewrite Nat.min_l by (unfold len in *; lia).
  rewrite cons_middle, app_assoc. f_equal.
  assert (Hlen : (0 < length (history r))%nat) by (unfold history; rewrite length_app; unfold len in *; lia).
  destruct (last (history r)) as [x|] eqn:El; [|apply last_None in El; rewrite El in Hlen; cbn in Hlen; lia].
  rewrite last_lookup in El. cbn. rewrite <- Nat.sub_1_r in El.
  rewrite <- (take_S_r _ _ _ El). apply take_ge. lia.
Qed.

End Committed.

(** ** One pass, as a function of the requests *)

(** Verification writes the outputs, their log-probabilities, the finish
    reason and the counters; everything else is as it was. *)
Definition vframe (r r' : Req) : Prop :=
  r' = r <| output_ids := output_ids r' |>
         <| finished_reason := finished_reason r' |>
         <| output_token_logprobs_val := output_token_logprobs_val r' |>
         <| output_token_logprobs_idx := output_token_logprobs_idx r' |>
         <| send_output_token_logprobs_offset := send_output_token_logprobs_offset r' |>
         <| llm42_verified_tokens := llm42_verified_tokens r' |>
         <| llm42_num_rollbacks := llm42_num_rollbacks r' |>
         <| llm42_tokens_rolled_back := llm42_tokens_rolled_back r' |>
         <| llm42_num_verification_windows := llm42_num_verification_windows r' |>.

(** What a pass makes of a request. *)
Record passed (V : SamplingParams → list Z → Z) (r r' : Req) (rolled_back : Z) : Prop := {
  ps_committed : committed V r';
  ps_all : llm42_verified_tokens r' = len (output_ids r');
  ps_progress : llm42_verified_tokens r < llm42_verified_tokens r';
  ps_rolled : rolled_back = len (output_ids r) - len (output_ids r') ∧ 0 ≤ rolled_back;
  ps_prefix : slice_to (output_ids r') (llm42_verified_tokens r)
            = slice_to (output_ids r) (llm42_verified_tokens r);
  ps_finish : (output_ids r' = output_ids r ∧ finished_reason r' = finished_reason r)
            ∨ finished_reason r' = None;
  ps_far : ∀ n, (n ≤ length (output_ids r))%nat → take n (output_ids r) = gen (V (sampling_params r)) (origin_input_ids r) n →
    (Nat.min (length (output_ids r)) (S n) ≤ length (output_ids r'))%nat;
  ps_frame : vframe r r'
}.

Lemma frame_same r r' :
  frame r r' →
  origin_input_ids r' = origin_input_ids r ∧ sampling_params r' = sampling_params r ∧
  req_pool_idx r' = req_pool_idx r ∧ is_deterministic r' = is_deterministic r ∧
  is_retracted r' = is_retracted r ∧ kv_committed_len r' = kv_committed_len r ∧
  kv_allocated_len r' = kv_allocated_len r ∧ kv_committed_freed r' = kv_committed_freed r ∧
  kv_overallocated_freed r' = kv_overallocated_freed r ∧
  completion_time r' = completion_time r ∧ finished_len r' = finished_len r ∧
  llm42_verified_tokens r' = llm42_verified_tokens r.
Proof. intros F. unfold frame in F. rewrite F. rsimpl. done. Qed.

Lemma settle_vframe_at i k info r a b c d e :
  vframe r (Worker.settle i k info
    (r <| output_ids := a |> <| finished_reason := b |> <| output_token_logprobs_val := c |>
       <| output_token_logprobs_idx := d |> <| send_output_token_logprobs_offset := e |>)).
Proof.
  unfold vframe, Worker.settle. generalize (getitem (output_lens i) k). intros g.
  generalize info.2. intros n. destruct r. destruct (0 <? n).
  - vm_compute. reflexivity.
  - destruct g; vm_compute; reflexivity.
Qed.

Lemma settle_vframe i k info r r' : frame r r' → vframe r (Worker.settle i k info r').
Proof. intros F. unfold frame in F. rewrite F. apply settle_vframe_at. Qed.

(** [settle] marks every output of an untruncated window as verified. *)
Lemma settle_passed V i k vs lps r r' info :
  committed V r → 0 < len (unverified r) →
  length vs = length (unverified r) →
  (∀ j, (j < length (unverified r))%nat →
    vs !! j = Some (V (sampling_params r) (history r ++ take j (unverified r)))) →
  getitem (output_lens i) k = Ok (len (unverified r)) →
  outcome (unverified r) vs lps r r' info →
  passed V r (Worker.settle i k info r') info.2.
Proof.
  intros Hc Hu Hl Hv Ho O. pose proof (outcome_committed V vs lps r r' info Hc Hl Hv O) as [Hg Hlen].
  pose proof Hc as [Hb _]. pose proof (len_unverified r ltac:(lia)) as Hlu.
  assert (Hcl : (1 ≤ commit_len (unverified r) vs ≤ length (unverified r))%nat)
    by (unfold commit_len, len in *; lia).
  pose proof O as [Oi Oinf Of _ Ofr]. apply frame_same in Ofr as Hs.
  destruct Hs as (S1 & S2 & S3 & S4 & S5 & S6 & S7 & S8 & S9 & S10 & S11 & S12).
  assert (Hi2 : info.2 = len (output_ids r) - len (output_ids r')).
  { rewrite Oinf. cbn [snd]. unfold len in *. lia. }
  assert (Hver : llm42_verified_tokens (Worker.settle i k info r') = len (output_ids r')).
  { unfold Worker.settle. destruct (Z.ltb_spec 0 info.2); rsimpl; [done|].
    rewrite Ho, S12. unfold len in *. lia. }
  assert (Hout : output_ids (Worker.settle i k info r') = output_ids r').
  { unfold Worker.settle. by destruct (0 <? info.2); rsimpl. }
  assert (Hfin : finished_reason (Worker.settle i k info r') = finished_reason r').
  { unfold Worker.settle. by destruct (0 <? info.2); rsimpl. }
  assert (Hsp : sampling_params (Worker.settle i k info r') = sampling_params r ∧
    origin_input_ids (Worker.settle i k info r') = origin_input_ids r).
  { unfold Worker.settle. by destruct (0 <? info.2); rsimpl. }
  destruct Hsp as [Hsp Hor]. split.
  - unfold committed. rewrite Hver, Hout, Hsp, Hor. split; [llia|].
    rewrite slice_to_take by llia. unfold len. rewrite Nat2Z.id, firstn_all. done.
  - by rewrite Hver, Hout.
  - rewrite Hver. lia.
  - rewrite Hout. unfold len in *. lia.
  - rewrite Hout, Oi, !slice_to_take by lia.
    rewrite take_app_le by (rewrite length_take; unfold len in *; lia).
    rewrite take_take. f_equal. unfold len in *. lia.
  - rewrite Hout, Hfin, Of. case_decide as Hd; [left|by right]. split; [|done].
    rewrite Oi, commit_len_full by done.
    pose proof (lcp_take (unverified r) vs) as Et. rewrite Hd, firstn_all in Et.
    rewrite <- Et. pose proof (slice_to_from (output_ids r) (llm42_verified_tokens r)) as Es.
    fold (unverified r) in Es. rewrite <- Es at 3. f_equal. rewrite slice_to_take by lia.
    f_equal. unfold len in *. lia.
  - rewrite Hout. intros n Hn Ht. by eapply outcome_far.
  - apply settle_vframe, Ofr.
Qed.

Lemma lookup_slice {A} (xs : list A) o n j :
  0 ≤ o → (j < Z.to_nat n)%nat → slice xs o (o + n) !! j = xs !! Z.to_nat (o + Z.of_nat j).
Proof.
  intros Ho Hj. rewrite slice_nonneg by lia. rewrite lookup_take_lt by lia.
  rewrite lookup_drop. f_equal. lia.
Qed.

(** Steps 3 to 6 of a fixed-shape pass. *)
Lemma fixed_pass `{Model} V N w i ed pool plocs reqs d n :
  0 < w → 0 ≤ n → fixed_shape_determinism V N w → N = len reqs + n →
  describes true true (Some w) i reqs → Forall (ready pool) reqs →
  Forall (λ r, len (unverified r) ≤ w) reqs → Forall (committed V) reqs →
  padding_ok true true (Some w) i plocs reqs → dummy_args w d n →
  ∃ b toks lps reqs' infos,
    Verify.prepare_verify_batch i ed pool reqs d = Ok b ∧ forward b = Ok (toks, lps) ∧
    Verify.verify_and_compare i reqs toks lps None = Ok (reqs', infos) ∧
    length reqs' = length reqs ∧ length infos = length reqs ∧
    ∀ k r, reqs !! k = Some r → ∃ r' info, reqs' !! k = Some r' ∧ infos !! k = Some info ∧
      passed V r (Worker.settle i (Z.of_nat k) info r') info.2.
Proof.
  intros Hw Hn Hdet HN D Hr Hu Hc Hp Hd.
  pose proof (fixed_verifiable w pool reqs Hr Hu) as Hver.
  destruct (fixed_prepare w Hw i ed pool plocs reqs d n D Hver Hp Hd) as [b Hb].
  destruct Hb as [Eb Ee Ei _ _ _ Er [t Epre] Eseg].
  destruct (Hdet b) as (toks & lps & Ef & Lt & Ll & Htok); [by rewrite Ee, HN|by rewrite Ei, HN|].
  destruct (verify_and_compare_outcomes true true (Some w) (some_w_pos w Hw) i reqs toks lps)
    as (reqs' & infos & Ec & O); [done| | | |].
  { eapply Forall_impl; [exact Hver|]. intros r [Hrr Hwin]. split; [by eapply ready_unverified|done]. }
  { rewrite (fixed_pads w Hw), zsum_times by llia. nia. }
  { intros l El. specialize (Ll l El). rewrite (fixed_pads w Hw), zsum_times by llia. nia. }
  exists b, toks, lps, reqs', infos. destruct (outcomes_length _ _ _ _ _ _ _ O).
  split_and!; try done. intros k r Hk.
  destruct (outcomes_lookup w Hw _ _ _ _ _ _ k r O Hk) as (r' & info & E1 & E2 & Oc).
  exists r', info. split_and!; [done|done|]. cbv zeta in Oc.
  pose proof (Forall_lookup_1 _ _ _ _ Hr Hk) as Hrr. pose proof (Forall_lookup_1 _ _ _ _ Hu Hk) as Hur.
  cbv beta in Hur. rewrite fixed_win, Z.add_0_l in Oc by done.
  pose proof (ready_unverified _ _ Hrr) as Hpos.
  assert (Hkw : 0 ≤ Z.of_nat k * w ∧ Z.of_nat k * w + w ≤ len toks).
  { apply lookup_lt_Some in Hk. unfold len at 1. rewrite <- (Nat2Z.id (length toks)).
    unfold len in *. nia. }
  eapply settle_passed; [by eapply (Forall_lookup_1 _ _ _ _ Hc)|done| | | |exact Oc].
  - rewrite slice_nonneg, length_take, length_drop by lia. unfold len in *. lia.
  - intros j Hj. rewrite lookup_slice by (unfold len in *; lia).
    rewrite (Htok k r (len (origin_input_ids r) + llm42_verified_tokens r - 1) (Z.of_nat j)).
    + destruct (Eseg k r Hk) as [-> _]. f_equal. f_equal.
      rewrite (window_context pool w) by (done || (unfold len in *; lia)). by rewrite Nat2Z.id.
    + by rewrite Er.
    + rewrite Epre, lookup_app_l by (rewrite length_fmap; by eapply lookup_lt_Some).
      by rewrite list_lookup_fmap, Hk.
    + apply lookup_lt_Some in Hk. unfold len in *. lia.
    + unfold len in *. lia.
  - apply list_elem_of_split_length in Hk as (pre & post & -> & ->).
    destruct (describes_at _ _ _ _ _ _ _ D) as (E & _). rewrite fixed_win in E by done. done.
Qed.
