(* ===== verification/WorkerFacts.v ===== *)
(** * Theorems on the verification worker (srt/llm42/llm42_worker.py)

    [VPoolFacts]: what the pre-allocated pool provides and that freeing it
    gives everything back.  [Pass]: the effect of one pass on the shared
    state.  [Claims]: the passes of a step. *)

From S2P Require Import Prelude PyFloat Allocator AllocatorFacts Request ReqPool LLM42Info InfoFacts World MemCommon LLM42Worker Verifier.
Import Compare Batch Fixed.

(** ** The store of requests *)

Section Store.
Context {C : Type}.
Implicit Types (w : World C) (ids : list nat) (rs : list Req).

(** The references [ids] stand for the requests [rs]. *)
Definition at_heap w ids rs : Prop := Forall2 (λ id r, heap w !! id = Some r) ids rs.

Lemma reqs_at_from w ids rs acc :
  at_heap w ids rs →
  foldM (λ acc id, r ← req_at id; mret (acc ++ [r])) acc ids w = (Ok (acc ++ rs), w).
Proof.
  intros F. revert acc. induction F as [|id r ids rs E _ IH]; intros acc.
  { by rewrite app_nil_r. }
  cbn [foldM]. unfold req_at at 1. unfold mbind at 1, M_bind at 1. rewrite E. cbn [of_option].
  cbn [mret M_ret]. unfold mret, M_ret. rewrite IH, <- app_assoc. done.
Qed.

Lemma reqs_at_ok w ids rs : at_heap w ids rs → reqs_at ids w = (Ok rs, w).
Proof. apply (reqs_at_from w ids rs []). Qed.

(** [set_reqs] as a function of the store. *)
Fixpoint insert_all ids rs (h : gmap nat Req) : gmap nat Req :=
  match ids, rs with
  | id :: ids', r :: rs' => insert_all ids' rs' (<[id := r]> h)
  | _, _ => h
  end.

Lemma set_reqs_ok ids rs w :
  Mem.set_reqs ids rs w = (Ok tt, w <| heap ::= insert_all ids rs |>).
Proof.
  revert rs w. induction ids as [|id ids IH]; intros [|r rs] w; cbn [Mem.set_reqs insert_all];
    try (destruct w; reflexivity).
  unfold set_req. rewrite (bind_ok _ _ _ tt (w <| heap ::= <[id := r]> |>)) by done.
  rewrite IH. by destruct w.
Qed.

Lemma insert_all_notin ids rs h id : id ∉ ids → insert_all ids rs h !! id = h !! id.
Proof.
  revert rs h. induction ids as [|i ids IH]; intros [|r rs] h Hn; cbn; try done.
  apply not_elem_of_cons in Hn as [Hne Hn]. rewrite IH by done.
  by rewrite lookup_insert_ne by done.
Qed.

Lemma insert_all_in ids rs h k id r :
  NoDup ids → ids !! k = Some id → rs !! k = Some r → insert_all ids rs h !! id = Some r.
Proof.
  intros Hnd. revert rs h k. induction Hnd as [|i ids Hi Hnd IH]; intros [|r' rs] h [|k] Hk Hr;
    try done; cbn in *; simplify_eq.
  - rewrite insert_all_notin by done. apply lookup_insert_eq.
  - by eapply IH.
Qed.

End Store.

(** ** The pre-allocated pool *)

Module VPoolFacts.

(** What a pool of [N] dummies of [w] tokens provides. *)
Record vpool_ok (p : FixedSizeVerificationPool) (N w : Z) : Prop := {
  vp_size : fixed_size p = N ∧ 0 < N;
  vp_window : window_size p = w ∧ 0 < w;
  vp_ids : dummy_input_ids p = times DUMMY_TOKEN_ID (N * w);
  vp_locs : ∃ locs, dummy_cache_locs p = Some locs ∧ N * w ≤ len locs;
  vp_rows : len (dummy_req_pool_indices p) = N;
  vp_tensors : dummy_tensors p = VPool.sampling_tensors N w;
  vp_padding : 0 < N * (w - 1) → ∃ pl, padding_cache_pool p = Some pl ∧ len pl = N * (w - 1)
}.

(** The arguments [_run_verification] builds from it. *)
Definition dummy_args_of (p : FixedSizeVerificationPool) (n : Z) : DummyArgs :=
  if 0 <? n then
    mkDummyArgs (Some (slice_to (dummy_input_ids p) (n * window_size p)))
      (Some (slice_to (default [] (dummy_cache_locs p)) (n * window_size p)))
      (Some (slice_to (dummy_req_pool_indices p) n)) n (Some (window_size p))
      (VPool.get_dummy_sampling_tensors n p)
  else no_dummies.

Lemma get_dummy_data_ok p N w n :
  vpool_ok p N w → 0 < n ≤ N →
  VPool.get_dummy_data n p =
  Ok (Some (slice_to (dummy_input_ids p) (n * window_size p),
            Some (slice_to (default [] (dummy_cache_locs p)) (n * window_size p)),
            slice_to (dummy_req_pool_indices p) n)).
Proof.
  intros [[Hs _] [Hw _] _ [locs [El _]] _ _ _] Hn. unfold VPool.get_dummy_data.
  rewrite Hs, El. destruct (Z.leb_spec n 0); [lia|]. by destruct (Z.ltb_spec N n); [lia|].
Qed.

Lemma slice_to_times {A} (x : A) n m : 0 ≤ m ≤ n → slice_to (times x n) m = times x m.
Proof.
  intros H. rewrite slice_to_take by lia. unfold times. rewrite take_replicate. f_equal. lia.
Qed.

Lemma dummy_args_ok p N w n :
  vpool_ok p N w → 0 ≤ n ≤ N → dummy_args w (dummy_args_of p n) n.
Proof.
  intros [[Hs Hsp] [Hw Hwp] Hi [locs [El Hl]] Hr Ht _] Hn. unfold dummy_args_of.
  destruct (Z.ltb_spec 0 n) as [Hp|Hp]; [right|by left; split; [lia|]].
  assert (Hb : 0 ≤ n * w ≤ N * w) by nia.
  exists (times DUMMY_TOKEN_ID (n * w)), (slice_to locs (n * w)),
    (slice_to (dummy_req_pool_indices p) n), (VPool.sampling_tensors n w).
  split; cbn.
  - rewrite Hw, Hi, slice_to_times by lia. split; [done|llia].
  - rewrite El, Hw. split; [done|]. cbn. apply len_slice_to. lia.
  - split; [done|]. apply len_slice_to. lia.
  - lia.
  - by rewrite Hw.
  - unfold VPool.get_dummy_sampling_tensors. destruct (Z.leb_spec n 0); [lia|].
    rewrite Ht, Hw. unfold VPool.sampling_tensors. cbn. by rewrite !slice_to_times by lia.
  - done.
  - done.
  - repeat split; rewrite len_times; lia.
Qed.

(** Enough padding slots for any requests that fit a pass. *)
Lemma get_padding_ok p N w m :
  vpool_ok p N w → 0 < m ≤ N * (w - 1) →
  ∃ pl, VPool.get_padding_cache_locs m p = Ok (Some (slice_to pl m)) ∧ m ≤ len pl.
Proof.
  intros [_ _ _ _ _ _ Hp] Hm. destruct Hp as (pl & El & Hl); [lia|].
  exists pl. unfold VPool.get_padding_cache_locs. rewrite El.
  destruct (Z.leb_spec m 0); [lia|]. destruct (Z.ltb_spec (len pl) m); [lia|]. split; [done|lia].
Qed.

End VPoolFacts.

(** ** One pass *)

Module Pass.
Import VPoolFacts.

(** The worker is set up for fixed-shape passes of [N] windows of [w]
    tokens. *)
Record fixed_mode (k : LLM42Worker) (N w : Z) : Prop := {
  fm_align : always_align k = true;
  fm_window : _window_size k = w;
  fm_compare : f64_le Worker.f_hundred (skip_mismatch k) = true;
  fm_pool : ∃ p, fixed_pool k = Some p ∧ vpool_ok p N w
}.

Section Pass.
Context `{Model} {C : Type} (V : SamplingParams → list Z → Z) (N w : Z).
Implicit Types (s : Sys C) (reqs : list Req).

Lemma build_info_ok s reqs n pool :
  fixed_mode (worker s) N w → Forall (verifiable true (Some w) pool) reqs →
  0 ≤ n → len reqs + n = N →
  ∃ i plocs, Worker.build_info reqs true n s = (Ok i, s) ∧
    describes true true (Some w) i reqs ∧ padding_ok true true (Some w) i plocs reqs.
Proof.
  intros [Ha Hwin _ (p & Ep & Hp)] Hv Hn HN. pose proof Hp as [[Hsz HNp] [Hpw Hw] _ _ _ _ _].
  unfold Worker.build_info. rewrite Ha, Hwin, Ep, Hpw.
  set (i0 := Info.from_requests reqs true true (Some w)).
  assert (D0 : describes true true (Some w) i0 reqs).
  { apply (from_requests_describes _ _ _ (some_w_pos w Hw)). eapply Forall_impl; [exact Hv|].
    intros r [Hr _]. by eapply ready_unverified. }
  assert (E1 : ∃ i, (if 0 <? n then Ok (Info.append_dummy_entries n w i0) else Ok i0) = Ok i ∧
    describes true true (Some w) i reqs).
  { destruct (0 <? n); eexists; split; try done. by apply append_dummies_describes. }
  destruct E1 as (i & -> & D). pose proof (fixed_slots w Hw i reqs D) as Hslots.
  destruct (Z.ltb_spec 0 (total_padding_cache_slots i)).
  - destruct (get_padding_ok p N w (total_padding_cache_slots i) Hp) as (pl & -> & Hl); [nia|].
    eexists _, _. split; [done|]. split; [by apply set_padding_describes|].
    apply (fixed_set_padding_ok w Hw pool); [done|done|].
    rewrite len_slice_to; lia.
  - exists i, []. split; [done|]. split; [done|].
    pose proof (fixed_padding_sum w Hw pool reqs Hv). split; [|rewrite len_nil; lia]. right.
    apply Forall_forall. intros r Hr. rewrite Forall_forall in Hv.
    pose proof (verifiable_win true _ _ (some_w_pos w Hw) pool r (Hv r Hr)).
    rewrite (fixed_pad w Hw) in *.
    assert (0 < len reqs) by (destruct reqs; [by apply elem_of_nil in Hr|llia]). nia.
Qed.

Lemma build_batch_eq s i reqs n :
  fixed_mode (worker s) N w → 0 ≤ n ≤ N →
  ∃ p, fixed_pool (worker s) = Some p ∧ vpool_ok p N w ∧
    Worker.build_batch i reqs n s =
    (Verify.prepare_verify_batch i true (rtp (world s)) reqs (dummy_args_of p n), s).
Proof.
  intros [_ _ _ (p & Ep & Hp)] Hn. exists p. split_and!; [done|done|].
  unfold Worker.build_batch, dummy_args_of. destruct (Z.ltb_spec 0 n); [|done].
  rewrite Ep. cbn [of_option mbind res_bind].
  rewrite (get_dummy_data_ok p N w n Hp) by lia. done.
Qed.

(** ** The batch tensors *)

(** The tensors of the batch have one entry per request. *)
Record batch_ok (wd : World C) : Prop := {
  bo_heap : ∀ id, id ∈ b_reqs (batch wd) → is_Some (heap wd !! id);
  bo_out : ∀ l, b_output_ids (batch wd) = Some l → length l = length (b_reqs (batch wd));
  bo_seq : length (b_seq_lens (batch wd)) = length (b_reqs (batch wd));
  bo_cpu : length (b_seq_lens_cpu (batch wd)) = length (b_reqs (batch wd));
  bo_orig : length (b_orig_seq_lens (batch wd)) = length (b_reqs (batch wd))
}.

(** What verification may change of a batch. *)
Definition bframe (b b' : ScheduleBatch) : Prop :=
  b' = b <| b_output_ids := b_output_ids b' |> <| b_seq_lens := b_seq_lens b' |>
         <| b_seq_lens_cpu := b_seq_lens_cpu b' |> <| b_orig_seq_lens := b_orig_seq_lens b' |>
         <| b_seq_lens_sum := b_seq_lens_sum b' |>.

Lemma bframe_refl b : bframe b b.
Proof. unfold bframe. destruct b. vm_compute. reflexivity. Qed.

Lemma bframe_upd b o q c g n :
  bframe b (b <| b_output_ids := o |> <| b_seq_lens := q |> <| b_seq_lens_cpu := c |>
              <| b_orig_seq_lens := g |> <| b_seq_lens_sum := n |>).
Proof. unfold bframe. destruct b. vm_compute. reflexivity. Qed.

Lemma bframe_trans b1 b2 b3 : bframe b1 b2 → bframe b2 b3 → bframe b1 b3.
Proof.
  unfold bframe. intros H1 H2. rewrite H2. clear H2. rewrite H1. clear H1. destruct b1. vm_compute. reflexivity.
Qed.

Lemma bframe_same b b' :
  bframe b b' →
  b_reqs b' = b_reqs b ∧ b_req_pool_indices b' = b_req_pool_indices b ∧
  b_sampling_info b' = b_sampling_info b ∧ b_return_logprob b' = b_return_logprob b ∧
  b_forward_mode b' = b_forward_mode b ∧ b_top_logprobs_nums b' = b_top_logprobs_nums b.
Proof. intros F. unfold bframe in F. rewrite F. rsimpl. done. Qed.

(** The token the next decode step feeds for [r]. *)
Definition next_input (r : Req) : Z :=
  match last (output_ids r) with Some t => t | None => default 0 (last (origin_input_ids r)) end.

Lemma insert_mid {A} (l1 l2 : list A) x y :
  <[length l1 := x]> (l1 ++ y :: l2) = (l1 ++ [x]) ++ l2.
Proof. rewrite insert_app_r_alt, Nat.sub_diag by lia. cbn. by rewrite <- app_assoc. Qed.

(** The tensors [_update_batch_state] computes. *)
Fixpoint sync (rb : list nat) (h : gmap nat Req) (ids : list nat) (out seq : list Z)
    : list Z * list Z :=
  match ids, out, seq with
  | id :: ids', o :: out', q :: seq' =>
      let '(out', seq') := sync rb h ids' out' seq' in
      match h !! id with
      | Some r => if decide (id ∈ rb) then (next_input r :: out', seqlen r - 1 :: seq')
                  else (o :: out', q :: seq')
      | None => (o :: out', q :: seq')
      end
  | _, _, _ => (out, seq)
  end.

Lemma update_entry_eq (wd : World C) rb k tensors id r :
  rb ≠ [] → heap wd !! id = Some r →
  Worker.update_entry rb (k, tensors) id wd =
  (if decide (id ∈ rb)
   then (out ← setitem tensors.1 (Z.of_nat k) (next_input r);
         seq ← setitem tensors.2 (Z.of_nat k) (seqlen r - 1);
         Ok (S k, (out, seq)))
   else Ok (S k, tensors), wd).
Proof.
  intros Hrb Er. destruct tensors as [out seq]. unfold Worker.update_entry.
  rewrite (bind_ok _ _ wd r wd) by (unfold req_at; by rewrite Er).
  unfold Worker.batch_entry. rewrite (bool_decide_false (rb = [])) by done. cbn [negb andb].
  case_decide; [rewrite bool_decide_true by done|rewrite bool_decide_false by done];
    cbn [negb]; [|done].
  unfold mbind, M_bind, lift, res_bind. cbn [fst snd]. fold (next_input r). fold (seqlen r).
  destruct (setitem out _ _); [|done]. by destruct (setitem seq _ _).
Qed.

Lemma update_loop (wd : World C) rb ids out1 out2 seq1 seq2 :
  rb ≠ [] → (∀ id, id ∈ ids → is_Some (heap wd !! id)) →
  length out2 = length ids → length seq2 = length ids → length seq1 = length out1 →
  foldM (Worker.update_entry rb)
    (length out1, (out1 ++ out2, seq1 ++ seq2)) ids wd
  = (Ok ((length out1 + length ids)%nat,
         (out1 ++ (sync rb (heap wd) ids out2 seq2).1, seq1 ++ (sync rb (heap wd) ids out2 seq2).2)),
     wd).
Proof.
  intros Hrb. revert out1 out2 seq1 seq2.
  induction ids as [|id ids IH]; intros out1 [|o out2] seq1 [|q seq2] Hh Ho Hs H1; try done.
  { cbn. by rewrite Nat.add_0_r. }
  destruct (Hh id) as [r Er]; [set_solver|]. cbn [foldM sync].
  rewrite (update_entry_eq wd rb (length out1) _ id r Hrb Er). rewrite Er.
  destruct (sync rb (heap wd) ids out2 seq2) as [o2 q2] eqn:Es.
  case_decide as Hin; cbn [negb fst snd].
  - rewrite !setitem_ok by (rewrite length_app; cbn; lia). cbn [mbind res_bind].
    rewrite insert_mid. rewrite <- H1 at 2. rewrite insert_mid.
    replace (S (length out1)) with (length (out1 ++ [next_input r]))
      by (rewrite length_app; cbn; lia).
    rewrite IH; [|set_solver|by injection Ho|by injection Hs|rewrite !length_app; cbn; lia].
    rewrite Es. cbn [fst snd]. rewrite <- !app_assoc, length_app. cbn. do 3 f_equal. lia.
  - replace (S (length out1)) with (length (out1 ++ [o])) by (rewrite length_app; cbn; lia).
    change (out1 ++ o :: out2) with (out1 ++ [o] ++ out2).
    change (seq1 ++ q :: seq2) with (seq1 ++ [q] ++ seq2).
    rewrite (app_assoc out1), (app_assoc seq1).
    rewrite IH; [|set_solver|by injection Ho|by injection Hs|rewrite !length_app; cbn; lia].
    rewrite Es. cbn [fst snd]. rewrite <- !app_assoc, length_app. cbn. do 3 f_equal. lia.
Qed.

Definition synced (rb : list nat) (h : gmap nat Req) (b : ScheduleBatch) : ScheduleBatch :=
  match b_output_ids b with
  | None => b
  | Some out =>
      let seq := (sync rb h (b_reqs b) out (b_seq_lens b)).2 in
      b <| b_output_ids := Some (sync rb h (b_reqs b) out (b_seq_lens b)).1 |>
        <| b_seq_lens := seq |> <| b_seq_lens_cpu := seq |> <| b_orig_seq_lens := seq |>
        <| b_seq_lens_sum := zsum seq |>
  end.

Lemma update_batch_state_ok (wd : World C) rb :
  rb ≠ [] → batch_ok wd →
  Worker._update_batch_state rb wd = (Ok tt, wd <| batch ::= synced rb (heap wd) |>).
Proof.
  intros Hrb [Hh Ho Hs _ _]. unfold Worker._update_batch_state, synced.
  rewrite (bind_ok _ _ wd (batch wd) wd) by done.
  destruct (b_output_ids (batch wd)) as [out|] eqn:E.
  - pose proof (update_loop wd rb (b_reqs (batch wd)) [] out [] (b_seq_lens (batch wd)) Hrb Hh
      (Ho out eq_refl) Hs eq_refl) as L. cbn [app length Nat.add] in L.
    rewrite (bind_ok _ _ _ _ _ L). cbn. unfold upd_batch, modify. f_equal.
    destruct wd as [? ? ? ? []]. cbn in *. by rewrite E.
  - unfold mret, M_ret. f_equal. destruct wd as [? ? ? ? b]. cbn in *.
    unfold upd, set_batch. cbn. by rewrite E.
Qed.

Lemma sync_length rb h ids out seq :
  length out = length ids → length seq = length ids →
  length (sync rb h ids out seq).1 = length ids ∧ length (sync rb h ids out seq).2 = length ids.
Proof.
  revert out seq. induction ids as [|id ids IH]; intros [|o out] [|q seq] Ho Hs; try done.
  cbn [sync]. destruct (IH out seq) as [I1 I2]; [by injection Ho|by injection Hs|].
  destruct (sync rb h ids out seq) as [o2 q2]. cbn in *.
  destruct (h !! id); [case_decide|]; cbn; lia.
Qed.

Lemma sync_lookup rb h ids out seq j id r o q :
  ids !! j = Some id → h !! id = Some r → out !! j = Some o → seq !! j = Some q →
  (sync rb h ids out seq).1 !! j = Some (if decide (id ∈ rb) then next_input r else o) ∧
  (sync rb h ids out seq).2 !! j = Some (if decide (id ∈ rb) then seqlen r - 1 else q).
Proof.
  revert out seq j. induction ids as [|i ids IH]; intros [|o' out] [|q' seq] [|j] Hj Hr Ho Hq;
    try done; cbn [sync].
  - cbn in *. simplify_eq. destruct (sync rb h ids out seq). rewrite Hr. by case_decide.
  - cbn in Hj, Ho, Hq. specialize (IH out seq j Hj Hr Ho Hq).
    destruct (sync rb h ids out seq) as [o2 q2]. cbn in IH.
    destruct (h !! i); [destruct (decide (i ∈ rb))|]; exact IH.
Qed.

(** ** The effect of a pass *)

Record effect s (ids : list nat) (s' : Sys C) (out : list (nat * Z)) : Prop := {
  ef_in : ∀ id r, id ∈ ids → heap (world s) !! id = Some r →
    ∃ r' n, heap (world s') !! id = Some r' ∧ passed V r r' n ∧
            (∀ m, (id, m) ∈ out ↔ 0 < n ∧ m = n);
  ef_notin : ∀ id, id ∉ ids → heap (world s') !! id = heap (world s) !! id;
  ef_out : ∀ id n, (id, n) ∈ out → id ∈ ids;
  ef_nodup : NoDup out.*1;
  ef_rest : kv (world s') = kv (world s) ∧ rtp (world s') = rtp (world s) ∧
            cache (world s') = cache (world s) ∧ sigterm s' = sigterm s;
  ef_batch : batch (world s') =
    if decide (out = []) then batch (world s)
    else synced out.*1 (heap (world s')) (batch (world s));
  ef_mode : fixed_mode (worker s') N w
}.

(** The rolled back requests. *)
Definition rolled (ids : list nat) (infos : list (Z * Z)) : list (nat * Z) :=
  omap (λ '(id, info), if 0 <? info.2 then Some (id, info.2) else None) (zip ids infos).

Lemma elem_of_rolled ids infos id n :
  (id, n) ∈ rolled ids infos ↔
  ∃ k info, ids !! k = Some id ∧ infos !! k = Some info ∧ 0 < info.2 ∧ n = info.2.
Proof.
  unfold rolled. rewrite list_elem_of_omap. split.
  - intros ([i info] & Hin & E). apply list_elem_of_lookup_1 in Hin as [k Hk].
    apply lookup_zip_with_Some in Hk as (x & y & Exy & Hx & Hy).
    destruct (Z.ltb_spec 0 info.2); [|done]. simplify_eq. by exists k, y.
  - intros (k & info & Hi & Hf & Hp & ->). exists (id, info). split.
    + eapply list_elem_of_lookup_2. rewrite lookup_zip_with, Hi. cbn. by rewrite Hf.
    + by destruct (Z.ltb_spec 0 info.2); [|lia].
Qed.

Lemma NoDup_rolled ids infos : NoDup ids → NoDup (rolled ids infos).*1.
Proof.
  unfold rolled. revert infos. induction ids as [|id ids IH]; intros [|info infos] Hnd;
    cbn; try constructor. apply NoDup_cons in Hnd as [Hn Hnd].
  destruct (0 <? info.2); cbn; [|by apply IH]. constructor; [|by apply IH].
  intros ([i m] & -> & Hin)%list_elem_of_fmap. apply elem_of_rolled in Hin as (k & ? & Hk & _).
  by eapply Hn, list_elem_of_lookup_2.
Qed.

Lemma settled_lookup i reqs infos k r info :
  length reqs = length infos → reqs !! k = Some r → infos !! k = Some info →
  (Worker.settle_all i [] reqs infos).1 !! k = Some (Worker.settle i (Z.of_nat k) info r).
Proof.
  intros Hl Hr Hi. unfold Worker.settle_all. cbn [fst].
  rewrite <- Hl, Nat.min_id, drop_ge, app_nil_r by lia.
  rewrite list_lookup_fmap. unfold enumerate.
  rewrite lookup_zip_with. unfold range. rewrite Z.sub_0_r.
  rewrite lookup_seqZ_lt; [|apply lookup_lt_Some in Hr; unfold len; rewrite length_zip_with; lia].
  rewrite lookup_zip_with, Hr. cbn. rewrite Hi. cbn. done.
Qed.

(** The requests of a pass and the state they live in. *)
Record pass_ready s (ids : list nat) reqs (n : Z) : Prop := {
  pr_mode : fixed_mode (worker s) N w;
  pr_nodup : NoDup ids;
  pr_heap : at_heap (world s) ids reqs;
  pr_ready : Forall (ready (rtp (world s))) reqs;
  pr_fits : Forall (λ r, len (unverified r) ≤ w) reqs;
  pr_committed : Forall (committed V) reqs;
  pr_count : 0 ≤ n ∧ len reqs + n = N;
  pr_batch : batch_ok (world s)
}.

(** The state after the results of a pass are stored. *)
Definition after (i : LLM42Info) s (ids : list nat) reqs (settled : list Req)
    (out : list (nat * Z)) : Sys C :=
  let h := insert_all ids settled (heap (world s)) in
  s <| worker ::= Worker.count_pass i reqs |>
    <| world ::= λ wd, wd <| heap := h |>
         <| batch ::= λ b, if decide (out = []) then b else synced out.*1 h b |> |>.

Lemma run_pass_ok s ids reqs n i plocs :
  fixed_shape_determinism V N w → pass_ready s ids reqs n → 0 < w →
  describes true true (Some w) i reqs → padding_ok true true (Some w) i plocs reqs →
  ∃ reqs' infos,
    length reqs' = length reqs ∧ length infos = length reqs ∧
    (∀ k r, reqs !! k = Some r → ∃ r' info, reqs' !! k = Some r' ∧ infos !! k = Some info ∧
      passed V r (Worker.settle i (Z.of_nat k) info r') info.2) ∧
    Worker.run_pass i ids n s =
    (Ok (rolled ids infos), after i s ids reqs (Worker.settle_all i ids reqs' infos).1 (rolled ids infos)).
Proof.
  intros Hdet [Hm Hnd Hh Hr Hf Hc [Hn HN] Hb] Hw D Hp.
  destruct (build_batch_eq s i reqs n Hm ltac:(llia)) as (p & Ep & Hvp & Eb).
  destruct (fixed_pass V N w i true (rtp (world s)) plocs reqs (dummy_args_of p n) n Hw Hn Hdet
    (eq_sym HN) D Hr Hf Hc Hp (dummy_args_ok p N w n Hvp ltac:(llia)))
    as (b & toks & lps & reqs' & infos & E1 & E2 & E3 & L1 & L2 & Hk).
  exists reqs', infos. split_and!; [done|done|done|].
  unfold Worker.run_pass.
  rewrite (bind_ok _ _ s reqs s)
    by (unfold on_world; rewrite (reqs_at_ok _ _ _ Hh); by destruct s).
  rewrite (bind_ok _ _ s b s) by (by rewrite Eb, E1).
  rewrite (bind_ok _ _ s (toks, lps) s) by (unfold lift; by rewrite E2).
  set (s1 := s <| worker ::= Worker.count_pass i reqs |>). rewrite (bind_ok _ _ s tt s1) by done.
  rewrite (bind_ok _ _ s1 s1 s1) by done.
  assert (Ec : Worker.compare i (skip_mismatch (worker s1)) reqs toks lps = Ok (reqs', infos)).
  { unfold Worker.compare. destruct Hm as [_ _ Hcmp _].
    change (skip_mismatch (worker s1)) with (skip_mismatch (worker s)). by rewrite Hcmp. }
  rewrite (bind_ok _ _ s1 (reqs', infos) s1) by (unfold lift; by rewrite Ec).
  change (Worker.settle_all i ids reqs' infos) with
    ((Worker.settle_all i ids reqs' infos).1, rolled ids infos). cbv iota beta.
  set (settled := (Worker.settle_all i ids reqs' infos).1).
  set (s2 := s1 <| world ::= λ wd, wd <| heap ::= insert_all ids settled |> |>).
  rewrite (bind_ok _ _ s1 tt s2)
    by (unfold on_world; rewrite set_reqs_ok; by destruct s).
  set (s3 := after i s ids reqs settled (rolled ids infos)).
  assert (Hfp : fixed_pool (worker s1) = Some p) by exact Ep.
  assert (Hb2 : batch_ok (world s2)).
  { assert (E0 : heap (world s2) = insert_all ids settled (heap (world s)))
      by (by destruct s as [[] ? ?]).
    assert (E0' : batch (world s2) = batch (world s)) by (by destruct s as [[] ? ?]).
    destruct Hb as [B1 B2 B3 B4 B5]. split; rewrite ?E0, ?E0'; [|done..].
    intros id Hid. destruct (decide (id ∈ ids)) as [Hin|Hin].
    - apply list_elem_of_lookup_1 in Hin as [k0 Hk0].
      destruct (Forall2_lookup_l _ _ _ _ _ Hh Hk0) as (r0 & Hr0 & _).
      destruct (Hk k0 r0 Hr0) as (r' & info & E & E' & _).
      eexists. eapply insert_all_in; [done|exact Hk0|].
      apply settled_lookup; [lia|done|done].
    - rewrite insert_all_notin by done. auto. }
  assert (Eu : match rolled ids infos with
    | [] => mret tt
    | _ => on_world (Worker._update_batch_state (rolled ids infos).*1)
    end s2 = (Ok tt, s3)).
  { unfold s3, after. destruct (rolled ids infos) as [|x xs] eqn:Ex.
    - by destruct s as [[] ? ?].
    - unfold on_world. rewrite update_batch_state_ok by done. by destruct s as [[] ? ?]. }
  rewrite (bind_ok _ _ s2 tt s3) by exact Eu.
  rewrite Hfp, andb_false_r. done.
Qed.

Lemma mode_pos k : fixed_mode k N w → 0 < w ∧ 0 < N.
Proof. intros [_ _ _ (p & _ & [[_ ?] [_ ?] _ _ _ _ _])]. done. Qed.

(** The stored results are the effect of the pass. *)
Lemma after_effect s ids reqs n i reqs' infos :
  pass_ready s ids reqs n → length reqs' = length reqs → length infos = length reqs →
  (∀ k r, reqs !! k = Some r → ∃ r' info, reqs' !! k = Some r' ∧ infos !! k = Some info ∧
     passed V r (Worker.settle i (Z.of_nat k) info r') info.2) →
  effect s ids (after i s ids reqs (Worker.settle_all i ids reqs' infos).1 (rolled ids infos))
    (rolled ids infos).
Proof.
  intros [Hm Hnd Hh _ _ _ _ _] L1 L2 Hk.
  set (settled := (Worker.settle_all i ids reqs' infos).1).
  set (s' := after _ _ _ _ _ _).
  assert (Eh : heap (world s') = insert_all ids settled (heap (world s))) by done.
  split; rewrite ?Eh.
  - intros id r Hin Hr. apply list_elem_of_lookup_1 in Hin as [k0 Hk0].
    destruct (Forall2_lookup_l _ _ _ _ _ Hh Hk0) as (r0 & Hr0 & Hr0').
    simplify_eq. destruct (Hk k0 r Hr0) as (r' & info & E & E' & P).
    exists (Worker.settle i (Z.of_nat k0) info r'), info.2. split_and!; [|done|].
    + eapply insert_all_in; [done|exact Hk0|]. apply settled_lookup; [lia|done|done].
    + intros m. rewrite elem_of_rolled. split.
      * intros (k1 & info1 & K1 & K2 & K3 & ->).
        assert (k1 = k0) as -> by (eapply NoDup_lookup; done). simplify_eq. done.
      * intros [Hp ->]. by exists k0, info.
  - intros id Hn. by apply insert_all_notin.
  - intros id m. rewrite elem_of_rolled. intros (k1 & info1 & K1 & _).
    by eapply list_elem_of_lookup_2.
  - by apply NoDup_rolled.
  - done.
  - done.
  - destruct Hm as [? ? ? ?]. by split.
Qed.

Lemma run_verification_ok s ids reqs n :
  fixed_shape_determinism V N w → pass_ready s ids reqs n →
  ∃ s' out, Worker._run_verification ids true n s = (Ok out, s') ∧ effect s ids s' out.
Proof.
  intros Hdet Hpr. pose proof Hpr as [Hm _ Hh Hr Hf _ [Hn HN] _].
  destruct (mode_pos _ Hm) as [Hw _].
  pose proof (fixed_verifiable w _ reqs Hr Hf) as Hv.
  destruct (build_info_ok s reqs n _ Hm Hv Hn HN) as (i & plocs & Ei & D & Hp).
  destruct (run_pass_ok s ids reqs n i plocs Hdet Hpr Hw D Hp)
    as (reqs' & infos & L1 & L2 & Hk & E).
  eexists _, _. split; [|by eapply after_effect].
  unfold Worker._run_verification.
  assert (E0 : on_world (reqs_at ids) s = (Ok reqs, s))
    by (unfold on_world; rewrite (reqs_at_ok _ _ _ Hh); by destruct s).
  rewrite E0, Ei, E. done.
Qed.

(** ** Several passes *)

Record multi s (ids : list nat) (s' : Sys C) (out : list (nat * Z)) : Prop := {
  mu_in : ∀ id r, id ∈ ids → heap (world s) !! id = Some r →
    ∃ r' n, heap (world s') !! id = Some r' ∧ passed V r r' n ∧
            (∀ m, (id, m) ∈ out ↔ 0 < n ∧ m = n);
  mu_notin : ∀ id, id ∉ ids → heap (world s') !! id = heap (world s) !! id;
  mu_out : ∀ id n, (id, n) ∈ out → id ∈ ids;
  mu_nodup : NoDup out.*1;
  mu_rest : kv (world s') = kv (world s) ∧ rtp (world s') = rtp (world s) ∧
            cache (world s') = cache (world s) ∧ sigterm s' = sigterm s;
  mu_mode : fixed_mode (worker s') N w;
  mu_ok : batch_ok (world s');
  mu_reqs : b_reqs (batch (world s')) = b_reqs (batch (world s));
  mu_frame : bframe (batch (world s)) (batch (world s'));
  mu_none : b_output_ids (batch (world s)) = None → b_output_ids (batch (world s')) = None;
  mu_entries : ∀ j id r' l, b_reqs (batch (world s)) !! j = Some id →
    heap (world s') !! id = Some r' → b_output_ids (batch (world s)) = Some l →
    ∃ l', b_output_ids (batch (world s')) = Some l' ∧
      l' !! j = (if decide (id ∈ out.*1) then Some (next_input r') else l !! j) ∧
      b_seq_lens (batch (world s')) !! j =
        (if decide (id ∈ out.*1) then Some (seqlen r' - 1) else b_seq_lens (batch (world s)) !! j)
}.

Lemma multi_nil s : fixed_mode (worker s) N w → batch_ok (world s) → multi s [] s [].
Proof.
  intros Hm Hb. split; try done.
  - intros id r Hin. by apply elem_of_nil in Hin.
  - intros id n Hin. by apply elem_of_nil in Hin.
  - constructor.
  - apply bframe_refl.
  - intros j id r' l _ _ El. exists l. rewrite decide_False by apply not_elem_of_nil.
    rewrite decide_False by apply not_elem_of_nil. done.
Qed.

Lemma synced_reqs rb h b : b_reqs (synced rb h b) = b_reqs b.
Proof. unfold synced. destruct (b_output_ids b); by rsimpl. Qed.

Lemma synced_frame rb h b : bframe b (synced rb h b).
Proof. unfold synced. destruct (b_output_ids b); [apply bframe_upd|apply bframe_refl]. Qed.

Lemma heap_grows s ids s' out :
  effect s ids s' out → ∀ id, is_Some (heap (world s) !! id) → is_Some (heap (world s') !! id).
Proof.
  intros E id [r Hr]. destruct (decide (id ∈ ids)) as [Hin|Hin].
  - destruct (ef_in _ _ _ _ E id r Hin Hr) as (r' & n & -> & _). done.
  - rewrite (ef_notin _ _ _ _ E id Hin). eauto.
Qed.

Lemma effect_batch_ok s ids s' out : effect s ids s' out → batch_ok (world s) → batch_ok (world s').
Proof.
  intros E [B1 B2 B3 B4 B5]. pose proof (heap_grows _ _ _ _ E) as Hg.
  pose proof (ef_batch _ _ _ _ E) as Eb. case_decide.
  - split; rewrite Eb; auto.
  - split; rewrite Eb, ?synced_reqs; [auto|..]; unfold synced;
      destruct (b_output_ids (batch (world s))) as [l|] eqn:El; rsimpl; try congruence.
    + intros l' [= <-]. by apply sync_length; auto.
    + by apply sync_length; auto.
    + by apply sync_length; auto.
    + by apply sync_length; auto.
Qed.

Lemma effect_multi s ids s' out :
  effect s ids s' out → batch_ok (world s) → multi s ids s' out.
Proof.
  intros E Hb. pose proof (effect_batch_ok _ _ _ _ E Hb) as Hb'.
  pose proof (ef_batch _ _ _ _ E) as Eb. destruct Hb as [B1 B2 B3 B4 B5].
  split; try apply E; [done|..].
  - rewrite Eb. case_decide; [done|apply synced_reqs].
  - rewrite Eb. case_decide; [apply bframe_refl|apply synced_frame].
  - intros En. rewrite Eb. case_decide; [done|]. unfold synced. by rewrite En.
  - intros j id r' l Hj Hr' El. rewrite Eb. case_decide as Hout.
    + subst out. exists l. cbn. rewrite !decide_False by apply not_elem_of_nil. done.
    + unfold synced. rewrite El. rsimpl. eexists. split; [done|].
      destruct (lookup_lt_is_Some_2 l j) as [o Ho].
      { rewrite (B2 l El). by eapply lookup_lt_Some. }
      destruct (lookup_lt_is_Some_2 (b_seq_lens (batch (world s))) j) as [q Hq].
      { rewrite B3. by eapply lookup_lt_Some. }
      destruct (sync_lookup out.*1 (heap (world s')) _ _ _ j id r' o q Hj Hr' Ho Hq) as [-> ->].
      rewrite Ho, Hq. by case_decide.
Qed.

Lemma multi_trans s ids1 s1 out1 ids2 s2 out2 :
  (∀ id, id ∈ ids1 → id ∉ ids2) →
  multi s ids1 s1 out1 → multi s1 ids2 s2 out2 → multi s (ids1 ++ ids2) s2 (out1 ++ out2).
Proof.
  intros Hd M1 M2.
  assert (Ho : ∀ id, id ∈ out1.*1 → id ∈ ids1).
  { intros id ([i n] & -> & Hin)%list_elem_of_fmap. by apply M1 in Hin. }
  assert (Ho2 : ∀ id, id ∈ out2.*1 → id ∈ ids2).
  { intros id ([i n] & -> & Hin)%list_elem_of_fmap. by apply M2 in Hin. }
  split.
  - intros id r [Hin|Hin]%elem_of_app Hr.
    + destruct (mu_in _ _ _ _ M1 id r Hin Hr) as (r' & n & E & P & Hm).
      exists r', n. rewrite (mu_notin _ _ _ _ M2 id (Hd id Hin)). split_and!; [done|done|].
      intros m. rewrite elem_of_app, <- Hm. split; [|auto].
      intros [?|Hin2]; [done|]. apply M2 in Hin2. by destruct (Hd id Hin).
    + assert (Hni : id ∉ ids1) by (intros ?; by eapply Hd).
      rewrite <- (mu_notin _ _ _ _ M1 id Hni) in Hr.
      destruct (mu_in _ _ _ _ M2 id r Hin Hr) as (r' & n & E & P & Hm).
      exists r', n. split_and!; [done|done|]. intros m. rewrite elem_of_app, <- Hm.
      split; [|auto]. intros [Hin1|?]; [|done]. by apply M1 in Hin1.
  - intros id Hn. apply not_elem_of_app in Hn as [Hn1 Hn2].
    by rewrite (mu_notin _ _ _ _ M2 id Hn2), (mu_notin _ _ _ _ M1 id Hn1).
  - intros id n [Hin|Hin]%elem_of_app; apply elem_of_app; [left; by eapply M1|right; by eapply M2].
  - rewrite fmap_app. apply NoDup_app. split_and!; [apply M1| |apply M2].
    intros id H1 H2. by eapply Hd; [apply Ho|apply Ho2].
  - destruct (mu_rest _ _ _ _ M2) as (? & ? & ? & ?), (mu_rest _ _ _ _ M1) as (? & ? & ? & ?).
    split_and!; congruence.
  - apply M2.
  - apply M2.
  - by rewrite (mu_reqs _ _ _ _ M2), (mu_reqs _ _ _ _ M1).
  - eapply bframe_trans; [apply M1|apply M2].
  - intros En. apply M2, M1, En.
  - intros j id r' l Hj Hr' El.
    assert (Hr1 : is_Some (heap (world s1) !! id)).
    { apply (bo_heap _ (mu_ok _ _ _ _ M1)). rewrite (mu_reqs _ _ _ _ M1).
      by eapply list_elem_of_lookup_2. }
    destruct Hr1 as [r1 Hr1].
    destruct (mu_entries _ _ _ _ M1 j id r1 l Hj Hr1 El) as (l1 & El1 & A1 & A2).
    destruct (mu_entries _ _ _ _ M2 j id r' l1) as (l2 & El2 & A3 & A4);
      [by rewrite (mu_reqs _ _ _ _ M1)|done|done|].
    exists l2. split; [done|]. rewrite fmap_app. rewrite A3, A4, A1, A2.
    destruct (decide (id ∈ out2.*1)) as [H2|H2], (decide (id ∈ out1.*1)) as [H1|H1].
    + destruct (Hd id (Ho id H1) (Ho2 id H2)).
    + rewrite !decide_True by (apply elem_of_app; by right). done.
    + rewrite !decide_True by (apply elem_of_app; by left).
      rewrite (mu_notin _ _ _ _ M2 id (Hd id (Ho id H1))) in Hr'. by simplify_eq.
    + rewrite !decide_False by (rewrite elem_of_app; tauto). done.
Qed.

(** The passes of a step, one after the other. *)
Definition fold_pass (acc : list (nat * Z)) (g : list nat * Z) : M (Sys C) (list (nat * Z)) :=
  let '(batch_reqs, num_dummies) := g in
  out ← Worker._verify_fixed_batch batch_reqs num_dummies; mret (acc ++ out).

(** A request that a pass may take. *)
Definition eligible s (id : nat) : Prop :=
  ∃ r, heap (world s) !! id = Some r ∧ ready (rtp (world s)) r ∧ len (unverified r) ≤ w ∧
       committed V r.

Lemma eligible_reqs s ids :
  (∀ id, id ∈ ids → eligible s id) →
  ∃ reqs, at_heap (world s) ids reqs ∧ Forall (ready (rtp (world s))) reqs ∧
    Forall (λ r, len (unverified r) ≤ w) reqs ∧ Forall (committed V) reqs ∧ len reqs = len ids.
Proof.
  induction ids as [|id ids IH]; intros He.
  { exists []. by repeat constructor. }
  destruct IH as (reqs & A & B & D & E & F); [intros; apply He; set_solver|].
  destruct (He id) as (r & R1 & R2 & R3 & R4); [set_solver|].
  exists (r :: reqs). split_and!; [by constructor..|rewrite !len_cons; lia].
Qed.

Lemma fold_passes_ok gs s acc :
  fixed_shape_determinism V N w → fixed_mode (worker s) N w → batch_ok (world s) →
  NoDup (concat gs.*1) → (∀ id, id ∈ concat gs.*1 → eligible s id) →
  Forall (λ g, 0 ≤ g.2 ∧ len g.1 + g.2 = N) gs →
  ∃ s' out, foldM fold_pass acc gs s = (Ok (acc ++ out), s') ∧ multi s (concat gs.*1) s' out.
Proof.
  intros Hdet. revert s acc. induction gs as [|[ids n] gs IH]; intros s acc Hm Hb Hnd He Hc.
  { exists s, []. rewrite app_nil_r. split; [done|]. by apply multi_nil. }
  apply Forall_cons in Hc as [[Hn HN] Hc]. cbn [fmap list_fmap fst concat] in *.
  apply NoDup_app in Hnd as (Hnd1 & Hdis & Hnd2).
  destruct (eligible_reqs s ids) as (reqs & A & B & D & E & F).
  { intros id Hin. apply He, elem_of_app. by left. }
  destruct (run_verification_ok s ids reqs n Hdet) as (s1 & out1 & E1 & Ef1).
  { split; try done. cbn in *. lia. }
  pose proof (effect_multi _ _ _ _ Ef1 Hb) as M1.
  destruct (IH s1 (acc ++ out1)) as (s2 & out2 & E2 & M2); [apply M1|apply M1|done| |done|].
  { intros id Hin. destruct (He id) as (r & R1 & R2 & R3 & R4); [apply elem_of_app; by right|].
    exists r. rewrite (mu_notin _ _ _ _ M1 id) by (intros ?; by eapply Hdis).
    destruct (mu_rest _ _ _ _ M1) as (_ & -> & _). done. }
  exists s2, (out1 ++ out2). split; [|by eapply multi_trans].
  cbn [foldM]. unfold fold_pass at 1, Worker._verify_fixed_batch.
  rewrite (bind_ok _ _ s out1 s1) by done. unfold mret at 1, M_ret at 1.
  rewrite E2, <- app_assoc. done.
Qed.

End Pass.

(** ** Grouping *)

(** Every pass has exactly [N] entries; the ready requests are all in one,
    and requests that are not ready only fill free places. *)
Lemma group_spec fuel N ready not_ready :
  0 < N → (length ready ≤ fuel)%nat →
  Forall (λ g, 0 ≤ g.2 ∧ len g.1 + g.2 = N) (Worker.group fuel N ready not_ready) ∧
  ∃ k, concat (Worker.group fuel N ready not_ready).*1 ≡ₚ ready ++ take k not_ready.
Proof.
  intros HN. revert ready not_ready. induction fuel as [|fuel IH]; intros ready not_ready Hf.
  { destruct ready; [|cbn in Hf; lia]. split; [constructor|]. by exists 0%nat. }
  destruct ready as [|x ready']; [split; [constructor|]; by exists 0%nat|].
  cbn [Worker.group]. set (ready := x :: ready') in *. rewrite Z.max_r by lia.
  rewrite !slice_to_take, !slice_from_drop by lia.
  set (a := Z.to_nat N). set (room := Z.max 0 (N - len (take a ready))).
  destruct (IH (drop a ready) (drop (Z.to_nat room) not_ready)) as (F & k & P).
  { rewrite length_drop. cbn in *. lia. }
  split.
  - constructor; [|done]. cbn [fst snd]. split; [lia|].
    rewrite len_app. unfold room, a. rewrite !len_take.
    pose proof (len_nonneg ready). pose proof (len_nonneg not_ready). lia.
  - exists (Z.to_nat room + k)%nat. cbn [fmap list_fmap fst concat]. rewrite P.
    rewrite <- (take_drop a ready) at 3. rewrite <- !app_assoc. f_equiv.
    rewrite (Permutation_app_comm (take (Z.to_nat room) not_ready)).
    rewrite <- !app_assoc. f_equiv.
    rewrite Permutation_app_comm.
    rewrite <- take_take_drop. done.
Qed.

Lemma group_length fuel N ready not_ready :
  (length (Worker.group fuel N ready not_ready) ≤ fuel)%nat.
Proof.
  revert ready not_ready. induction fuel as [|fuel IH]; intros ready not_ready; [done|].
  cbn [Worker.group]. destruct ready; cbn [length]; [lia|]. apply le_n_S, IH.
Qed.

End Pass.

(** ** One step *)

Module Step.
Import VPoolFacts Pass.

(** The requests of a batch that pass [f], and those that do not. *)
Lemma split_perm {A} (f : A → bool) (l : list A) :
  filter (λ x, f x = true) l ++ filter (λ x, f x = false) l ≡ₚ l.
Proof.
  induction l as [|x l IH]; [done|]. rewrite !filter_cons.
  destruct (f x); cbn.
  - rewrite decide_True, decide_False by done. cbn. by rewrite IH.
  - rewrite decide_False, decide_True by done. rewrite <- Permutation_middle. by rewrite IH.
Qed.

Section Step.
Context `{Model} {C : Type} (V : SamplingParams → list Z → Z) (N w : Z).
Implicit Types (s : Sys C) (reqs : list Req).

(** The running batch before verification. *)
Record step_ready s : Prop := {
  sr_mode : fixed_mode (worker s) N w;
  sr_batch : batch_ok (world s);
  sr_nodup : NoDup (b_reqs (batch (world s)));
  sr_eligible : ∀ id r, id ∈ b_reqs (batch (world s)) → heap (world s) !! id = Some r →
    Worker.candidate r = true → eligible V w s id
}.

Lemma at_heap_exists (wd : World C) ids :
  (∀ id, id ∈ ids → is_Some (heap wd !! id)) → ∃ reqs, at_heap wd ids reqs.
Proof.
  induction ids as [|id ids IH]; intros Hh; [exists []; constructor|].
  destruct IH as [reqs F]; [set_solver|]. destruct (Hh id) as [r Hr]; [set_solver|].
  exists (r :: reqs). by constructor.
Qed.

Lemma elem_of_zip (wd : World C) ids reqs id r :
  at_heap wd ids reqs → (id, r) ∈ zip ids reqs ↔ id ∈ ids ∧ heap wd !! id = Some r.
Proof.
  intros F. induction F as [|i r0 ids reqs Hi F IH]; cbn; [set_solver|].
  rewrite !elem_of_cons, IH. split.
  - intros [[= -> ->]|[? ?]]; auto.
  - intros [[->|?] Hr]; [left; congruence|auto].
Qed.

Lemma check_step_ok s :
  fixed_shape_determinism V N w → step_ready s →
  ∃ s' out ids, Worker.check_and_verify_deterministic_requests s = (Ok out, s') ∧
    multi V N w s ids s' out ∧
    (∀ id, id ∈ ids → id ∈ b_reqs (batch (world s))) ∧
    (∀ id r, id ∈ ids → heap (world s) !! id = Some r → Worker.candidate r = true) ∧
    (∀ id r, id ∈ b_reqs (batch (world s)) → heap (world s) !! id = Some r →
       Worker.candidate r = true → Worker.triggers w r = true → id ∈ ids).
Proof.
  intros Hdet [Hm Hb Hnd He]. pose proof Hm as [_ Hwin _ (p & Ep & Hvp)].
  set (ids := b_reqs (batch (world s))) in *.
  destruct (at_heap_exists (world s) ids (bo_heap _ Hb)) as [reqs F].
  unfold Worker.check_and_verify_deterministic_requests.
  rewrite (bind_ok _ _ s ids s) by done.
  rewrite (bind_ok _ _ s reqs s) by (unfold on_world; rewrite (reqs_at_ok _ _ _ F); by destruct s).
  rewrite (bind_ok _ _ s (worker s) s) by done. rewrite Hwin, Ep.
  set (all := filter (λ ir, Worker.candidate ir.2 = true) (zip ids reqs)).
  set (rd := (filter (λ ir, Worker.triggers w ir.2 = true) all).*1).
  set (nr := (filter (λ ir, Worker.triggers w ir.2 = false) all).*1).
  assert (Hall : ∀ id r, (id, r) ∈ all ↔
    id ∈ ids ∧ heap (world s) !! id = Some r ∧ Worker.candidate r = true).
  { intros id r. unfold all. rewrite list_elem_of_filter, (elem_of_zip _ _ _ _ _ F). tauto. }
  assert (Hrd : ∀ id, id ∈ rd ↔ ∃ r, (id, r) ∈ all ∧ Worker.triggers w r = true).
  { intros id. unfold rd. rewrite list_elem_of_fmap. split.
    - intros ([i r] & -> & [? ?]%list_elem_of_filter). eauto.
    - intros (r & ? & ?). exists (id, r). by rewrite list_elem_of_filter. }
  assert (Hnr : ∀ id, id ∈ nr → ∃ r, (id, r) ∈ all).
  { intros id. unfold nr. rewrite list_elem_of_fmap.
    intros ([i r] & -> & [? ?]%list_elem_of_filter). eauto. }
  assert (Hperm : rd ++ nr ≡ₚ all.*1).
  { unfold rd, nr. rewrite <- fmap_app. apply fmap_Permutation.
    apply (split_perm (λ ir : nat * Req, Worker.triggers w ir.2)). }
  assert (Hnda : NoDup (rd ++ nr)).
  { rewrite Hperm. unfold all.
    eapply sublist_NoDup; [|apply fmap_sublist, sublist_filter].
    rewrite fst_zip; [done|]. apply Forall2_length in F. lia. }
  destruct (mode_pos N w _ Hm) as [Hw HN].
  destruct rd as [|x rd'] eqn:Erd.
  { exists s, [], []. split_and!; [done|by apply multi_nil|set_solver|set_solver|].
    intros id r Hin Hr Hc Ht. apply Hrd. exists r. rewrite Hall. done. }
  pose proof Hvp as [[Hsz _] _ _ _ _ _ _]. rewrite Hsz.
  destruct (group_spec (length (x :: rd')) N (x :: rd') nr HN ltac:(lia)) as (Hg & k & P).
  set (gs := Worker.group (length (x :: rd')) N (x :: rd') nr) in *.
  assert (Hsub : ∀ id, id ∈ concat gs.*1 → ∃ r, (id, r) ∈ all).
  { intros id Hin. rewrite P in Hin. apply elem_of_app in Hin as [Hin|Hin].
    - apply Hrd in Hin as (r & ? & _). eauto.
    - apply Hnr. eapply elem_of_submseteq; [exact Hin|].
      apply sublist_submseteq, sublist_take. }
  destruct (fold_passes_ok V N w gs s [] Hdet Hm Hb) as (s' & out & E & M); [..|done|].
  { rewrite P. eapply sublist_NoDup; [exact Hnda|].
    apply sublist_app; [done|apply sublist_take]. }
  { intros id Hin. destruct (Hsub id Hin) as (r & (? & ? & ?)%Hall). by eapply He. }
  exists s', out, (concat gs.*1). split_and!; [exact E|done|..].
  - intros id Hin. destruct (Hsub id Hin) as (r & (? & ? & ?)%Hall). done.
  - intros id r Hin Hr. destruct (Hsub id Hin) as (r' & (? & ? & ?)%Hall). congruence.
  - intros id r Hin Hr Hc Ht. rewrite P. apply elem_of_app. left. apply Hrd. exists r.
    rewrite Hall. done.
Qed.

End Step.
End Step.
