(* ===== verification/VerifyPool.v ===== *)
(** * The life of the verification pool (class FixedSizeVerificationPool)

    Construction succeeds when the memory and the rows are there and then
    provides what the passes need; [free] gives everything back; a
    construction that fails half-way keeps what it took. *)

From S2P Require Import Prelude PyFloat Allocator AllocatorFacts Request ReqPool LLM42Info InfoFacts World MemCommon LLM42Worker Verifier WorkerFacts.
Import VPoolFacts PoolFacts AllocatorSpec.

(** ** Rows of the table *)

(** Every row of the table has [max_context_len] entries and the free rows
    are distinct rows of the table. *)
Record rtp_wf (p : ReqToTokenPool) : Prop := {
  rw_rows : Forall (λ r, len r = max_context_len p) (req_to_token p);
  rw_free : Forall (λ i, 0 ≤ i < len (req_to_token p)) (free_slots p);
  rw_nodup : NoDup (free_slots p)
}.

Lemma set_slice_ok xs a b vals :
  0 ≤ a ≤ b → b ≤ len xs → len vals = b - a →
  ∃ ys, Pool.set_slice xs a b vals = Ok ys ∧ len ys = len xs.
Proof.
  intros Ha Hb Hv. unfold Pool.set_slice.
  assert (En : len (slice xs a b) = b - a)
    by (rewrite slice_nonneg, len_take, len_drop by lia; lia).
  rewrite En, Hv, Z.eqb_refl. eexists. split; [done|].
  rewrite !len_app, len_take, len_drop, adj_in, Hv by lia. lia.
Qed.

Lemma setitem_Z {A} (xs : list A) i v :
  0 ≤ i < len xs → setitem xs i v = Ok (<[Z.to_nat i := v]> xs).
Proof.
  intros Hi. unfold setitem. destruct (Z.ltb_spec i 0); [lia|]. cbv zeta.
  destruct (Z.ltb_spec i 0); [lia|]. by destruct (Z.leb_spec (len xs) i); [lia|].
Qed.

(** A write of a whole slice keeps the shape of the table. *)
Lemma write_ok p row a b vals :
  rtp_wf p → 0 ≤ row < len (req_to_token p) → 0 ≤ a ≤ b → b ≤ max_context_len p →
  len vals = b - a →
  ∃ p', Pool.write row a b vals p = Ok p' ∧ rtp_wf p' ∧ free_slots p' = free_slots p ∧
        len (req_to_token p') = len (req_to_token p) ∧ max_context_len p' = max_context_len p.
Proof.
  intros [Hr Hf Hn] Hrow Ha Hb Hv. unfold Pool.write.
  destruct (getitem_lt (req_to_token p) row Hrow) as (r & -> & Er). cbn [mbind res_bind].
  pose proof (Forall_lookup_1 _ _ _ _ Hr Er) as Hlr. cbn in Hlr.
  destruct (set_slice_ok r a b (to_int32 <$> vals)) as (r' & -> & Hlr');
    [lia|lia|by rewrite len_fmap|].
  cbn [mbind res_bind]. rewrite setitem_Z by done. cbn [mbind res_bind].
  assert (Hl : len (<[Z.to_nat row := r']> (req_to_token p)) = len (req_to_token p))
    by (unfold len; by rewrite length_insert).
  eexists. split; [done|]. split_and!; [split|done|exact Hl|done]; rsimpl; rewrite ?Hl; [|done|done].
  apply Forall_insert; [done|]. rewrite Hlr'. exact Hlr.
Qed.

(** ** Whole pages *)

Lemma round_up_spec n ps :
  0 < n → 1 ≤ ps → n ≤ VPool.round_up n ps ∧ VPool.round_up n ps mod ps = 0.
Proof.
  intros Hn Hp. unfold VPool.round_up. destruct (Z.ltb_spec 1 ps).
  - split; [|apply Z.mod_mul; lia].
    pose proof (Z.div_mod (n + ps - 1) ps). pose proof (Z.mod_pos_bound (n + ps - 1) ps). lia.
  - replace ps with 1 by lia. split; [lia|apply Z.mod_1_r].
Qed.

(** Freed pages go back and the rest of the allocator stays. *)
Lemma free_pages_back pages a :
  wf a → is_not_in_free_group a = true → debug_mode a = false → NoDup (pages ++ pool a) →
  Forall (λ p, 1 ≤ p ≤ capacity a) pages →
  ∃ a', free (Paged.expand (page_size a) pages) a = (Ok tt, a') ∧ wf a' ∧
    pool a' ≡ₚ pages ++ pool a ∧ page_size a' = page_size a ∧
    is_not_in_free_group a' = true ∧ debug_mode a' = false ∧ capacity a' = capacity a.
Proof.
  intros Hw Hg Hb Hd Hr. destruct (free_wf pages a Hw Hg Hb Hd Hr) as (a' & E & Hw' & Hp).
  apply NoDup_app in Hd as (Hd & _).
  destruct (free_pool pages a Hw Hg Hb Hd) as (a2 & E2 & _ & Eps & Ec & _ & Es & Em & Ed & Eg & _).
  assert (a2 = a') as -> by congruence. exists a'. split_and!; try done; [congruence|].
  unfold capacity. by rewrite Ec, Es, Em.
Qed.

(** Two allocations, freed in the order they were made. *)
Lemma alloc2_free2 n1 n2 a l1 a1 l2 a2 :
  wf a → is_not_in_free_group a = true → debug_mode a = false →
  0 ≤ n1 → n1 mod page_size a = 0 → 0 ≤ n2 → n2 mod page_size a = 0 →
  alloc n1 a = (Ok (Some l1), a1) → alloc n2 a1 = (Ok (Some l2), a2) →
  ∃ a3 a4, free l1 a2 = (Ok tt, a3) ∧ free l2 a3 = (Ok tt, a4) ∧ pool a4 ≡ₚ pool a.
Proof.
  intros Hw Hg Hb H1 D1 H2 D2 E1 E2.
  pose proof (alloc_spec n1 a Hw H1 D1) as S1. pose proof (alloc_keeps n1 a Hw D1) as K1.
  rewrite E1 in S1, K1. cbn [snd] in K1. destruct K1 as (P1 & G1 & B1 & C1 & _).
  destruct S1 as (pg1 & -> & _ & _ & Hp1 & W1). rewrite <- P1 in D2.
  pose proof (alloc_spec n2 a1 W1 H2 D2) as S2. pose proof (alloc_keeps n2 a1 W1 D2) as K2.
  rewrite E2 in S2, K2. cbn [snd] in K2. destruct K2 as (P2 & G2 & B2 & C2 & _).
  destruct S2 as (pg2 & -> & _ & _ & Hp2 & W2).
  pose proof (wf_nodup a Hw) as Hnd. pose proof (wf_range a Hw) as Hrg.
  rewrite Hp1, Hp2 in Hnd, Hrg. apply Forall_app in Hrg as [R1 Hrg].
  apply Forall_app in Hrg as [R2 _].
  destruct (free_pages_back pg1 a2) as (a3 & F1 & W3 & Q1 & P3 & G3 & B3 & C3);
    [done|congruence|congruence| |by rewrite C2, C1|].
  { apply NoDup_app in Hnd as (? & Hx & ?). apply NoDup_app. split_and!; [done| |].
    - intros x ? ?. eapply Hx; [done|]. apply elem_of_app. by right.
    - by apply (NoDup_app pg2). }
  destruct (free_pages_back pg2 a3) as (a4 & F2 & _ & Q2 & _); [done|done|done| | |].
  { rewrite Q1. by rewrite Permutation_app_swap_app. }
  { rewrite C3, C2, C1. done. }
  exists a3, a4. rewrite P2, P1 in F1. rewrite P3, P2 in F2. split_and!; [done|done|].
  rewrite Q2, Q1, Hp1, Hp2. apply Permutation_app_swap_app.
Qed.

(** ** Construction *)

Section Life.
Context {C : Type}.
Implicit Types (wd : World C).

Lemma alloc_or_raise_ok n wd :
  wf (kv wd) → 0 < n → n mod page_size (kv wd) = 0 → n ≤ available_size (kv wd) →
  ∃ locs a', alloc n (kv wd) = (Ok (Some locs), a') ∧
    VPool.alloc_or_raise n wd = (Ok locs, wd <| kv := a' |>) ∧ len locs = n ∧ wf a' ∧
    available_size a' = available_size (kv wd) - n ∧ page_size a' = page_size (kv wd).
Proof.
  intros Hw Hn Hd Ha. pose proof (alloc_fresh n (kv wd) Hw ltac:(lia) Hd) as F.
  destruct (alloc_keeps n (kv wd) Hw Hd) as (Eps & _).
  destruct (alloc n (kv wd)) as [[[locs|]|e] a'] eqn:E; [|lia|done].
  destruct F as (_ & Hl & _ & Hw' & Hav & _). exists locs, a'. split; [done|].
  split_and!; [|done|done|done|done].
  unfold VPool.alloc_or_raise. rewrite (bind_ok _ _ wd (Some locs) (wd <| kv := a' |>))
    by (unfold on_kv; by rewrite E).
  destruct locs; [rewrite len_nil in Hl; lia|done].
Qed.

Lemma write_rows_from w locs rows k wd :
  rtp_wf (rtp wd) → Forall (λ i, 0 ≤ i < len (req_to_token (rtp wd))) rows →
  0 < w ≤ max_context_len (rtp wd) → 0 ≤ k → (k + len rows) * w ≤ len locs →
  ∃ p, for_ (enum_from k rows) (λ '(i, pool_idx),
         on_rtp (Pool.write pool_idx 0 w (slice locs (i * w) (i * w + w)))) wd
       = (Ok tt, wd <| rtp := p |>) ∧ rtp_wf p ∧ free_slots p = free_slots (rtp wd).
Proof.
  intros Hr Hrows Hw Hk Hl. revert k wd Hr Hrows Hw Hk Hl.
  induction rows as [|row rows IH]; intros k wd Hr Hrows Hw Hk Hl.
  { exists (rtp wd). rewrite enum_from_nil. split_and!; [by destruct wd|done|done]. }
  apply Forall_cons in Hrows as [Hrow Hrows]. rewrite len_cons in Hl.
  rewrite enum_from_cons. cbn [for_].
  destruct (write_ok (rtp wd) row 0 w (slice locs (k * w) (k * w + w)))
    as (p & E & Hp & Ef & El & Em); [done|done|lia|lia| |].
  { pose proof (len_nonneg rows). rewrite slice_nonneg, len_take, len_drop by nia. nia. }
  unfold on_rtp at 1. rewrite E.
  destruct (IH (k + 1) (wd <| rtp := p |>)) as (p' & E' & Hp' & Ef'); rsimpl;
    rewrite ?El, ?Em; [done|done|done|lia|pose proof (len_nonneg rows); nia|].
  exists p'. rewrite E'. split_and!; [by destruct wd|done|congruence].
Qed.

Lemma write_rows_ok w locs rows wd :
  rtp_wf (rtp wd) → Forall (λ i, 0 ≤ i < len (req_to_token (rtp wd))) rows →
  0 < w ≤ max_context_len (rtp wd) → len rows * w ≤ len locs →
  ∃ p, VPool.write_rows w locs rows wd = (Ok tt, wd <| rtp := p |>) ∧
       rtp_wf p ∧ free_slots p = free_slots (rtp wd).
Proof. intros. unfold VPool.write_rows. rewrite enumerate_from. by apply write_rows_from. Qed.

Lemma alloc_padding_ok N w wd :
  wf (kv wd) → 0 < N → 0 < w →
  VPool.round_up (N * (w - 1)) (page_size (kv wd)) ≤ available_size (kv wd) →
  ∃ o a', VPool.alloc_padding N w wd = (Ok o, wd <| kv := a' |>) ∧
    (0 < N * (w - 1) → ∃ locs,
       alloc (VPool.round_up (N * (w - 1)) (page_size (kv wd))) (kv wd) = (Ok (Some locs), a') ∧
       o = (Some (slice_to locs (N * (w - 1))), Some locs) ∧ N * (w - 1) ≤ len locs) ∧
    (N * (w - 1) ≤ 0 → o = (None, None) ∧ a' = kv wd).
Proof.
  intros Hwf HN Hw Ha. unfold VPool.alloc_padding. pose proof (wf_page_size _ Hwf) as Hps.
  destruct (Z.ltb_spec 0 (N * (w - 1))) as [Hp|Hp].
  - destruct (round_up_spec (N * (w - 1)) (page_size (kv wd)) Hp Hps) as [Hge Hd].
    destruct (alloc_or_raise_ok (VPool.round_up (N * (w - 1)) (page_size (kv wd))) wd
      Hwf ltac:(lia) Hd Ha) as (locs & a' & Ea & E & Hl & _).
    rewrite (bind_ok _ _ wd (kv wd) wd) by done.
    rewrite (bind_ok _ _ wd locs (wd <| kv := a' |>)) by exact E.
    exists (Some (slice_to locs (N * (w - 1))), Some locs), a'. split_and!; [|intros _|lia].
    + destruct (Z.ltb_spec (N * (w - 1)) (len locs)); [done|].
      unfold mret, M_ret. do 3 f_equal. rewrite slice_to_take by lia.
      rewrite take_ge; [done|]. unfold len in *. lia.
    + eexists. split_and!; [exact Ea|done|lia].
  - exists (None, None), (kv wd). split_and!; [by destruct wd|lia|done].
Qed.

(** The world a successful construction leaves: the two allocations, the
    rows taken and the table written. *)
Lemma init_ok N w wd :
  wf (kv wd) → rtp_wf (rtp wd) → 0 < N ≤ len (free_slots (rtp wd)) →
  0 < w ≤ max_context_len (rtp wd) →
  VPool.round_up (N * w) (page_size (kv wd)) + VPool.round_up (N * (w - 1)) (page_size (kv wd))
    ≤ available_size (kv wd) →
  ∃ p wd' locs a1 o a2,
    VPool.init N w wd = (Ok p, wd') ∧
    alloc (VPool.round_up (N * w) (page_size (kv wd))) (kv wd) = (Ok (Some locs), a1) ∧
    VPool.alloc_padding N w (wd <| kv := a1 |>) = (Ok o, wd <| kv := a2 |>) ∧
    p = mkPool N w (times DUMMY_TOKEN_ID (N * w)) (Some locs) (slice_to (free_slots (rtp wd)) N)
          (Some (slice_to (free_slots (rtp wd)) N)) (VPool.sampling_tensors N w) o.1 o.2 ∧
    kv wd' = a2 ∧ free_slots (rtp wd') = slice_from (free_slots (rtp wd)) N ∧
    heap wd' = heap wd ∧ cache wd' = cache wd ∧ batch wd' = batch wd ∧
    wf a1 ∧ page_size a1 = page_size (kv wd) ∧ N * w ≤ len locs ∧
    VPool.round_up (N * (w - 1)) (page_size a1) ≤ available_size a1.
Proof.
  intros Hwf Hr HN Hw Ha. pose proof (wf_page_size _ Hwf) as Hps.
  destruct (round_up_spec (N * w) (page_size (kv wd)) ltac:(nia) Hps) as [Hge Hd].
  assert (Hpad : 0 ≤ VPool.round_up (N * (w - 1)) (page_size (kv wd))).
  { destruct (Z.eq_dec (N * (w - 1)) 0) as [->|]; [|pose proof (round_up_spec (N * (w - 1)) _ ltac:(nia) Hps); nia].
    unfold VPool.round_up. destruct (Z.ltb_spec 1 (page_size (kv wd))); [|lia].
    apply Z.mul_nonneg_nonneg; [apply Z.div_pos; lia|lia]. }
  destruct (alloc_or_raise_ok (VPool.round_up (N * w) (page_size (kv wd))) wd Hwf ltac:(nia) Hd
    ltac:(lia)) as (locs & a1 & Ea & E1 & Hl & Hw1 & Hav & Hps1).
  set (w1 := wd <| kv := a1 |>).
  set (w2 := w1 <| rtp := (rtp wd) <| free_slots := slice_from (free_slots (rtp wd)) N |> |>).
  assert (Hrows : Forall (λ i, 0 ≤ i < len (req_to_token (rtp wd))) (slice_to (free_slots (rtp wd)) N)).
  { rewrite slice_to_take by lia. apply Forall_take, Hr. }
  destruct (write_rows_ok w locs (slice_to (free_slots (rtp wd)) N) w2) as (t & E3 & Ht & Hft);
    unfold w2; rsimpl; [|done|done|rewrite len_slice_to by lia; lia|].
  { destruct Hr as [R1 R2 R3]. split; rsimpl; [done|..]; rewrite slice_from_drop by lia.
    - by apply Forall_drop.
    - eapply sublist_NoDup; [exact R3|apply sublist_drop]. }
  destruct (alloc_padding_ok N w (w2 <| rtp := t |>)) as (o & a2 & E4 & Hp1 & Hp2);
    unfold w2, w1; rsimpl; [done|lia|lia|rewrite Hps1; lia|].
  eexists _, (wd <| kv := a2 |> <| rtp := t |>), locs, a1, o, a2.
  assert (E4' : VPool.alloc_padding N w w1 = (Ok o, wd <| kv := a2 |>)).
  { unfold VPool.alloc_padding in *. destruct (Z.ltb_spec 0 (N * (w - 1))) as [Hp|Hp].
    - destruct (Hp1 Hp) as (pl & Ea2 & -> & Hlp). change (kv w2) with a1 in Ea2.
      rewrite (bind_ok _ _ w1 a1 w1) by (unfold w1; by destruct wd).
      rewrite (bind_ok _ _ w1 pl (wd <| kv := a2 |>)).
      + destruct (Z.ltb_spec (N * (w - 1)) (len pl)); [done|]. unfold mret, M_ret. do 3 f_equal.
        rewrite slice_to_take by lia. rewrite take_ge; [done|]. unfold len in *. lia.
      + unfold VPool.alloc_or_raise. rewrite (bind_ok _ _ w1 (Some pl) (wd <| kv := a2 |>))
          by (unfold on_kv; change (kv w1) with a1; rewrite Ea2; by destruct wd).
        destruct pl; [rewrite len_nil in Hlp; lia|done].
    - destruct (Hp2 Hp) as [-> ->]. by destruct wd. }
  split_and!; try done; [|lia|rewrite Hps1; lia].
  - unfold VPool.init.
    rewrite (bind_ok _ _ wd (kv wd) wd) by done.
    rewrite (bind_ok _ _ wd locs w1) by exact E1.
    rewrite (bind_ok _ _ w1 (slice_to (free_slots (rtp wd)) N) w2).
    2:{ unfold VPool.take_rows. rewrite (bind_ok _ _ w1 (rtp wd) w1) by (by destruct wd).
        destruct (Z.ltb_spec (len (free_slots (rtp wd))) N); [lia|]. by destruct wd. }
    rewrite (bind_ok _ _ w2 tt (w2 <| rtp := t |>)) by exact E3.
    rewrite (bind_ok _ _ _ o _ E4). destruct o as [o1 o2]. by destruct wd.
Qed.

Lemma init_provides N w wd p wd' locs a1 o :
  0 < N ≤ len (free_slots (rtp wd)) → 0 < w →
  p = mkPool N w (times DUMMY_TOKEN_ID (N * w)) (Some locs) (slice_to (free_slots (rtp wd)) N)
        (Some (slice_to (free_slots (rtp wd)) N)) (VPool.sampling_tensors N w) o.1 o.2 →
  VPool.alloc_padding N w (wd <| kv := a1 |>) = (Ok o, wd') → wf a1 →
  VPool.round_up (N * (w - 1)) (page_size a1) ≤ available_size a1 →
  N * w ≤ len locs → vpool_ok p N w.
Proof.
  intros HN Hw -> Ep Hwf Ha Hl.
  destruct (alloc_padding_ok N w (wd <| kv := a1 |>)) as (o' & a' & E & Hp & _); rsimpl;
    [done|lia|lia|done|].
  rewrite Ep in E. injection E as <- _.
  split; cbn; try done; [lia|eauto|by apply len_slice_to; lia|].
  intros Hpos. destruct (Hp Hpos) as (pl & _ & -> & Hlp). eexists. split; [done|].
  apply len_slice_to. lia.
Qed.

End Life.

(** ** Claims *)

Module PoolClaims.

(** C35: With enough free KV slots and rows the constructor of
    [FixedSizeVerificationPool] succeeds, and the pool provides, for every
    number of dummies up to its size, input tokens, distinct KV slots and
    rows of the right number, and enough padding slots for every real request
    of a pass. *)
Theorem pool_init_provides {C} N w (wd : World C) :
  wf (kv wd) → rtp_wf (rtp wd) → 0 < N ≤ len (free_slots (rtp wd)) →
  0 < w ≤ max_context_len (rtp wd) →
  VPool.round_up (N * w) (page_size (kv wd)) + VPool.round_up (N * (w - 1)) (page_size (kv wd))
    ≤ available_size (kv wd) →
  ∃ p wd', VPool.init N w wd = (Ok p, wd') ∧
    (∀ n, 0 < n ≤ N → ∃ ids locs rows,
       VPool.get_dummy_data n p = Ok (Some (ids, Some locs, rows)) ∧
       len ids = n * w ∧ len locs = n * w ∧ len rows = n ∧ NoDup locs) ∧
    (∀ m, 0 < m ≤ N * (w - 1) →
       ∃ locs, VPool.get_padding_cache_locs m p = Ok (Some locs) ∧ len locs = m).
Proof.
  intros Hwf Hr HN Hw Ha.
  destruct (init_ok N w wd Hwf Hr HN Hw Ha)
    as (p & wd' & locs & a1 & o & a2 & Ei & Ea & Ep & Hp & _ & _ & _ & _ & _ & Hw1 & Hps & Hl & Ha1).
  assert (Hv : vpool_ok p N w) by (by eapply init_provides; [|lia|..]).
  exists p, wd'. split_and!; [done|..].
  - intros n Hn. rewrite (get_dummy_data_ok p N w n Hv Hn). eexists _, _, _. split; [done|].
    assert (0 ≤ n * w ≤ N * w) by nia. rewrite Hp. cbn. split_and!.
    + rewrite slice_to_times by lia. llia.
    + by apply len_slice_to; lia.
    + apply len_slice_to. rewrite len_slice_to by lia. lia.
    + rewrite slice_to_take by lia. eapply sublist_NoDup; [|apply sublist_take].
      pose proof (wf_page_size _ Hwf) as Hps1.
      destruct (round_up_spec (N * w) (page_size (kv wd)) ltac:(nia) Hps1) as [Hge Hd].
      pose proof (alloc_fresh (VPool.round_up (N * w) (page_size (kv wd))) _ Hwf
        ltac:(nia) Hd) as F.
      rewrite Ea in F. apply F.
  - intros m Hm. destruct (get_padding_ok p N w m Hv Hm) as (pl & E & Hlp).
    eexists. split; [exact E|]. by apply len_slice_to; lia.
Qed.

(** The free rows and slots of a small server. *)
Definition demo_world : World unit :=
  mkWorld ∅ (Paged.init 64 4 true false) (Pool.init 4 16) tt
    (mkScheduleBatch [] None false false None None None [] [] [] None None 0 [] false None
       [] [] 0 None [] false false false).

Lemma demo_world_wf : wf (kv demo_world) ∧ rtp_wf (rtp demo_world).
Proof.
  split; [apply init_paged_wf; lia|]. split; cbn.
  - repeat constructor.
  - repeat constructor; cbn; lia.
  - apply (bool_decide_unpack _). vm_compute. done.
Qed.

Lemma pool_init_provides_witness :
  ∃ p wd', VPool.init 2 3 demo_world = (Ok p, wd') ∧
    ∃ locs, VPool.get_padding_cache_locs 4 p = Ok (Some locs) ∧ len locs = 4.
Proof.
  destruct (pool_init_provides 2 3 demo_world (proj1 demo_world_wf) (proj2 demo_world_wf))
    as (p & wd' & E & _ & H).
  - vm_compute. split; congruence.
  - vm_compute. split; congruence.
  - vm_compute. congruence.
  - exists p, wd'. split; [exact E|]. apply H. lia.
Defined.

(** [free] gives back what the constructor of the pool took: the free
    pages and the free rows are the ones before the construction. *)
Theorem pool_free_restores {C} N w (wd : World C) :
  wf (kv wd) → is_not_in_free_group (kv wd) = true → debug_mode (kv wd) = false →
  rtp_wf (rtp wd) → 0 < N ≤ len (free_slots (rtp wd)) → 1 < w ≤ max_context_len (rtp wd) →
  VPool.round_up (N * w) (page_size (kv wd)) + VPool.round_up (N * (w - 1)) (page_size (kv wd))
    ≤ available_size (kv wd) →
  ∃ p wd' p' wd'', VPool.init N w wd = (Ok p, wd') ∧ VPool.free p wd' = (Ok p', wd'') ∧
    pool (kv wd'') ≡ₚ pool (kv wd) ∧ free_slots (rtp wd'') ≡ₚ free_slots (rtp wd).
Proof.
  intros Hwf Hg Hb Hr HN Hw Ha. pose proof (wf_page_size _ Hwf) as Hps0.
  destruct (init_ok N w wd Hwf Hr HN ltac:(lia) Ha)
    as (p & wd' & locs & a1 & o & a2 & Ei & Ea & Ep & Hp & Hk & Hf & _ & _ & _ & Hw1 & Hps & Hl & Ha1).
  destruct (alloc_padding_ok N w (wd <| kv := a1 |>)) as (o' & a' & E & Hpos & _); rsimpl;
    [done|lia|lia|done|].
  rewrite Ep in E. injection E as <- E. assert (a' = a2) as -> by (by destruct wd; cbn in E; congruence).
  clear E. destruct (Hpos ltac:(nia)) as (pl & Epl & -> & Hlp). rewrite Hps in Epl.
  destruct (round_up_spec (N * w) (page_size (kv wd)) ltac:(nia) Hps0) as [G1 D1].
  destruct (round_up_spec (N * (w - 1)) (page_size (kv wd)) ltac:(nia) Hps0) as [G2 D2].
  destruct (alloc2_free2 (VPool.round_up (N * w) (page_size (kv wd)))
    (VPool.round_up (N * (w - 1)) (page_size (kv wd))) _ _ _ _ _ Hwf Hg Hb
    ltac:(nia) D1 ltac:(nia) D2 Ea Epl)
    as (a3 & a4 & F1 & F2 & P).
  eexists p, wd', _, (wd' <| kv := a4 |> <| rtp ::= λ t, t <| free_slots ::= λ fs,
    fs ++ slice_to (free_slots (rtp wd)) N |> |>). split; [done|].
  assert (N1 : ∃ x xs, locs = x :: xs)
    by (destruct locs; [rewrite len_nil in Hl; nia|eauto]).
  assert (N2 : ∃ x xs, pl = x :: xs)
    by (destruct pl; [rewrite len_nil in Hlp; nia|eauto]).
  destruct N1 as (x & xs & ->), N2 as (y & ys & ->).
  split_and!.
  - unfold VPool.free. rewrite Hp. cbn [dummy_cache_locs].
    set (p1 := mkPool _ _ _ _ _ _ _ _ _).
    rewrite (bind_ok _ _ wd' (p1 <| dummy_cache_locs := None |>) (wd' <| kv := a3 |>)).
    2:{ rewrite (bind_ok _ _ wd' tt (wd' <| kv := a3 |>)); [done|].
        unfold on_kv. by rewrite Hk, F1. }
    set (p2 := p1 <| dummy_cache_locs := None |>).
    change (padding_cache_pool_allocated p2) with (Some (y :: ys)). cbv iota beta.
    rewrite (bind_ok _ _ _ (p2 <| padding_cache_pool_allocated := None |>
      <| padding_cache_pool := None |>) (wd' <| kv := a4 |>)).
    2:{ rewrite (bind_ok _ _ _ tt (wd' <| kv := a4 |>)); [done|].
        unfold on_kv. rsimpl. rewrite F2. by destruct wd'. }
    change (allocated_pool_indices _) with (Some (slice_to (free_slots (rtp wd)) N)).
    reflexivity.
  - rsimpl. done.
  - rsimpl. rewrite Hf. rewrite Permutation_app_comm. by rewrite slice_to_from.
Qed.

Lemma pool_free_restores_witness :
  ∃ p wd' p' wd'', VPool.init 2 3 demo_world = (Ok p, wd') ∧ VPool.free p wd' = (Ok p', wd'') ∧
    pool (kv wd'') ≡ₚ pool (kv demo_world).
Proof.
  destruct (pool_free_restores 2 3 demo_world (proj1 demo_world_wf) eq_refl eq_refl
    (proj2 demo_world_wf)) as (p & wd' & p' & wd'' & E1 & E2 & P & _).
  - vm_compute. split; congruence.
  - vm_compute. split; congruence.
  - vm_compute. congruence.
  - exists p, wd', p', wd''. split; [exact E1|]. split; [exact E2|exact P].
Defined.

(** A construction that finds memory but too few rows fails and keeps the
    memory: the worker carries on without a pool, and the slots it allocated
    for the dummies are neither used nor returned. *)
Theorem failed_pool_keeps_memory {C} (s : Sys C) N :
  let wd := world s in
  let n := VPool.round_up (N * _window_size (worker s)) (page_size (kv wd)) in
  fixed_requests_per_verify (worker s) = N → 0 < N → 0 < _window_size (worker s) →
  wf (kv wd) → n ≤ available_size (kv wd) → len (free_slots (rtp wd)) < N →
  ∃ s', Worker._init_fixed_pool s = (Ok tt, s') ∧ worker s' = worker s ∧
    available_size (kv (world s')) = available_size (kv wd) - n.
Proof.
  intros wd n HN Hpos Hw Hwf Ha Hr. pose proof (wf_page_size _ Hwf) as Hps.
  destruct (round_up_spec (N * _window_size (worker s)) (page_size (kv wd)) ltac:(nia) Hps)
    as [Hge Hd]. fold n in Hge, Hd.
  destruct (alloc_or_raise_ok n wd Hwf ltac:(nia) Hd Ha) as (locs & a1 & _ & E & _ & _ & Hav & _).
  exists (s <| world := wd <| kv := a1 |> |>). split_and!; [|by destruct s|exact Hav].
  unfold Worker._init_fixed_pool. rewrite HN. fold wd.
  assert (Ei : VPool.init N (_window_size (worker s)) wd = (Raise RuntimeError, wd <| kv := a1 |>)).
  { unfold VPool.init. rewrite (bind_ok _ _ wd (kv wd) wd) by done.
    rewrite (bind_ok _ _ wd locs _ E).
    rewrite (bind_raise _ _ _ RuntimeError (wd <| kv := a1 |>)); [done|].
    unfold VPool.take_rows. rewrite (bind_ok _ _ _ (rtp wd) (wd <| kv := a1 |>)) by done.
    by destruct (Z.ltb_spec (len (free_slots (rtp wd))) N); [|lia]. }
  by rewrite Ei.
Qed.

(** A worker that wants more dummies than there are rows. *)
Definition demo_crowded : Sys unit :=
  mkSys demo_world (Worker.init true 5 Worker.f_hundred 3) false.

Lemma failed_pool_keeps_memory_witness :
  ∃ s', Worker._init_fixed_pool demo_crowded = (Ok tt, s') ∧
    available_size (kv (world s')) = 48 ∧ available_size (kv (world demo_crowded)) = 64.
Proof.
  destruct (failed_pool_keeps_memory demo_crowded 5) as (s' & E & _ & A).
  - reflexivity.
  - lia.
  - vm_compute. reflexivity.
  - exact (proj1 demo_world_wf).
  - vm_compute. congruence.
  - vm_compute. reflexivity.
  - exists s'. split; [exact E|]. split; [rewrite A; vm_compute; reflexivity|vm_compute; reflexivity].
Defined.

End PoolClaims.
