(* ===== verification/WorkerClaims.v ===== *)
(** * Claims on the verification step

    [ToyModel] is a model that satisfies the determinism hypothesis, whatever
    the next-token function; the witnesses run the claims on it. *)

From S2P Require Import Prelude PyFloat Allocator AllocatorFacts Request ReqPool LLM42Info Demo InfoFacts World MemCommon LLM42Worker Verifier WorkerFacts VerifyPool.
Import Batch VPoolFacts Pass Step.

Module Toy.

(** The token for position [t] of a batch of windows of [w] tokens: the next
    token of the sequence that ends there; 0 for a dummy. *)
Definition token (V : SamplingParams → list Z → Z) (w : Z) (b : VerifyBatch) (t : Z) : Z :=
  let k := t / w in
  match vb_reqs b !! Z.to_nat k, vb_prefix_lens b !! Z.to_nat k with
  | Some r, Some p =>
      V (sampling_params r)
        (slice_to (origin_input_ids r ++ output_ids r) p ++
         slice_to (slice (vb_input_ids b) (k * w) (k * w + w)) (t mod w + 1))
  | _, _ => 0
  end.

Definition model (V : SamplingParams → list Z → Z) (w : Z) : Model :=
  {| forward b := Ok (token V w b <$> range 0 (len (vb_input_ids b)), None) |}.

Lemma determinism V N w : 0 < w → @fixed_shape_determinism V (model V w) N w.
Proof.
  intros Hw b Hl Hi. eexists _, None. split; [done|]. split; [|split; [done|]].
  { rewrite len_fmap, len_range, Hi. pose proof (len_nonneg (vb_input_ids b)). lia. }
  intros k r p j Hr Hp Hk Hj. rewrite list_lookup_fmap. unfold range.
  rewrite lookup_seqZ_lt by nia. cbn. f_equal. unfold token.
  rewrite Z2Nat.id by nia. rewrite Z.add_0_l.
  replace ((Z.of_nat k * w + j) / w) with (Z.of_nat k)
    by (rewrite Z.div_add_l, Z.div_small by lia; lia).
  replace ((Z.of_nat k * w + j) mod w) with j
    by (rewrite Z.add_comm, Z.mod_add, Z.mod_small by lia; done).
  by rewrite Nat2Z.id, Hr, Hp.
Qed.

End Toy.

(** ** A small system

    Two dummies of three tokens.  Request 0 disagrees with the verifier on
    its last token only, request 1 on the first of its two unverified
    tokens. *)

Module DemoSys.

Definition V : SamplingParams → list Z → Z := λ _ ctx, default 0 (last ctx) + 1.

Definition req0 : Req := Demo.req "r0" (Some 2) [11; 12] [13; 14; 15; 99] 1.
Definition req1 : Req := Demo.req "r1" (Some 3) [20] [21; 77; 23] 1.

Definition the_batch : ScheduleBatch :=
  mkScheduleBatch [0%nat; 1%nat] (Some DECODE) false false None None None [2; 3] [5; 3] [5; 3]
    None (Some [99; 23]) 8 [5; 3] false None [] [] 0 None [] false false false.

Definition the_world : World ChunkCache :=
  mkWorld (<[0%nat := req0]> (<[1%nat := req1]> ∅)) (Token.init 64 false)
    (mkReqToTokenPool 4 16 (times (times 0 16) 4) [0; 1]) (mkChunkCache 1) the_batch.

Definition sys : Sys ChunkCache :=
  (Worker._init_fixed_pool (mkSys the_world (Worker.init true 2 Worker.f_hundred 3) false)).2.

#[export] Instance the_model : Model := Toy.model V 3.

Lemma sys_ready : step_ready V 2 3 sys.
Proof.
  split.
  - split; [done|done|by vm_compute|].
    eexists. split; [vm_compute; reflexivity|]. split; cbn.
    + done.
    + done.
    + by vm_compute.
    + eexists. split; [done|]. vm_compute. congruence.
    + done.
    + by vm_compute.
    + intros _. eexists. split; [done|]. done.
  - split; cbn; [|by intros ? [= <-]|done..].
    intros id Hin. repeat (apply elem_of_cons in Hin as [->|Hin]; [by eexists|]).
    by apply elem_of_nil in Hin.
  - apply (bool_decide_unpack _). by vm_compute.
  - intros id r Hin Hr _.
    assert (Hcase : id = 0%nat ∧ r = req0 ∨ id = 1%nat ∧ r = req1).
    { repeat (apply elem_of_cons in Hin as [->|Hin]; [vm_compute in Hr; injection Hr as <-; auto|]).
      by apply elem_of_nil in Hin. }
    destruct Hcase as [[-> ->]|[-> ->]]; (eexists; split; [exact Hr|]); (split; [|split]);
      try (vm_compute; congruence); split; try (vm_compute; split; congruence);
      try (vm_compute; congruence); by eexists.
Qed.

End DemoSys.

(** ** Claims *)

Module WorkerClaims.

(** C11: One verification step of the running batch in fixed-size mode, with
    a verifier that is deterministic under the fixed shape.  The call
    succeeds.  Every request that takes part ends with verified outputs that
    are the reference generation of its prompt, whatever decode proposed; a
    request that triggered the step ends fully verified with at least one
    new verified token; requests that do not take part, the memory and the
    table keep their state. *)
Theorem step_commits_reference `{Model} {C} (V : SamplingParams → list Z → Z) (N w : Z)
    (s : Sys C) :
  fixed_shape_determinism V N w → step_ready V N w s →
  ∃ s' out, Worker.check_and_verify_deterministic_requests s = (Ok out, s') ∧
    kv (world s') = kv (world s) ∧ rtp (world s') = rtp (world s) ∧
    ∀ id r, heap (world s) !! id = Some r → ∃ r', heap (world s') !! id = Some r' ∧
      (id ∈ b_reqs (batch (world s)) → Worker.candidate r = true →
         committed V r' ∧ llm42_verified_tokens r ≤ llm42_verified_tokens r') ∧
      (id ∈ b_reqs (batch (world s)) → Worker.candidate r = true →
         Worker.triggers w r = true →
         llm42_verified_tokens r' = len (output_ids r') ∧
         llm42_verified_tokens r < llm42_verified_tokens r') ∧
      (id ∉ b_reqs (batch (world s)) ∨ Worker.candidate r = false → r' = r).
Proof.
  intros Hdet Hs. destruct (check_step_ok V N w s Hdet Hs) as (s' & out & ids & E & Hm & Hin & Hc & Ht).
  exists s', out. destruct (mu_rest _ _ _ _ _ _ _ Hm) as (Ek & Er & _).
  split_and!; [done..|]. intros id r Hr. destruct (decide (id ∈ ids)) as [Hi|Hi].
  - destruct (mu_in _ _ _ _ _ _ _ Hm id r Hi Hr) as (r' & n & Hr' & P & _).
    exists r'. split_and!; [done|..].
    + intros _ _. split; [apply P|]. pose proof (ps_progress _ _ _ _ P). lia.
    + intros _ _ _. split; apply P.
    + intros [Hn|Hn]; [by destruct Hn; auto|]. by rewrite (Hc id r Hi Hr) in Hn.
  - exists r. rewrite (mu_notin _ _ _ _ _ _ _ Hm id Hi). split_and!; [done|..].
    + intros Hb Hcand. destruct (sr_eligible _ _ _ _ Hs id r Hb Hr Hcand) as (r0 & E0 & _ & _ & Hcom).
      assert (r0 = r) as -> by congruence. split; [done|lia].
    + intros Hb Hcand Htr. destruct Hi. by eapply Ht.
    + done.
Qed.

#[local] Existing Instance DemoSys.the_model.

Lemma step_commits_reference_witness :
  ∃ s' out r', Worker.check_and_verify_deterministic_requests DemoSys.sys = (Ok out, s') ∧
    heap (world s') !! 1%nat = Some r' ∧ committed DemoSys.V r'.
Proof.
  destruct (step_commits_reference DemoSys.V 2 3 DemoSys.sys
    (Toy.determinism DemoSys.V 2 3 ltac:(lia)) DemoSys.sys_ready) as (s' & out & E & _ & _ & H).
  destruct (H 1%nat DemoSys.req1 eq_refl) as (r' & Hr' & Hc & _).
  exists s', out, r'. split; [exact E|]. split; [exact Hr'|].
  apply Hc; [|reflexivity]. apply elem_of_cons. right. apply elem_of_cons. by left.
Defined.



(** The entry of a request in the tensors of the batch after a step *)
Lemma step_entry `{Model} {C} (V : SamplingParams → list Z → Z) (N w : Z) (s s' : Sys C) ids out j id r r' l :
  step_ready V N w s → multi V N w s ids s' out →
  (∀ id r, id ∈ ids → heap (world s) !! id = Some r → Worker.candidate r = true) →
  b_reqs (batch (world s)) !! j = Some id → heap (world s) !! id = Some r → heap (world s') !! id = Some r' →
  b_output_ids (batch (world s)) = Some l →
  ∃ l', b_output_ids (batch (world s')) = Some l' ∧
    (len (output_ids r') < len (output_ids r) →
       (id, len (output_ids r) - len (output_ids r')) ∈ out ∧ l' !! j = last (output_ids r') ∧
       b_seq_lens (batch (world s')) !! j = Some (seqlen r' - 1)) ∧
    (len (output_ids r') = len (output_ids r) →
       l' !! j = l !! j ∧ b_seq_lens (batch (world s')) !! j = b_seq_lens (batch (world s)) !! j).
Proof.
  intros Hs Hm Hc Hj Hr Hr' El.
  destruct (mu_entries _ _ _ _ _ _ _ Hm j id r' l Hj Hr' El) as (l' & El' & A1 & A2).
  exists l'. split; [done|]. rewrite A1, A2. destruct (decide (id ∈ ids)) as [Hi|Hi].
  - destruct (mu_in _ _ _ _ _ _ _ Hm id r Hi Hr) as (r2 & n & Hr2 & P & Ho).
    assert (r2 = r') as -> by congruence. destruct (ps_rolled _ _ _ _ P) as [-> Hn].
    destruct (sr_eligible _ _ _ _ Hs id r) as (r0 & E0 & _ & _ & [Hb _]);
      [by eapply list_elem_of_lookup_2|done|by eapply Hc|].
    assert (r0 = r) as -> by congruence. split; intros Hlen.
    + assert (Hin : (id, len (output_ids r) - len (output_ids r')) ∈ out) by (apply Ho; lia).
      rewrite !decide_True by (apply list_elem_of_fmap; by eexists (id, _)).
      split_and!; [done| |done]. unfold next_input.
      destruct (last (output_ids r')) eqn:El2; [done|]. apply last_None in El2.
      pose proof (ps_progress _ _ _ _ P) as Hp. rewrite (ps_all _ _ _ _ P), El2, len_nil in Hp. lia.
    + rewrite !decide_False; [done|..]; intros ([i m] & -> & Hin%Ho)%list_elem_of_fmap; lia.
  - rewrite (mu_notin _ _ _ _ _ _ _ Hm id Hi) in Hr'. assert (r' = r) as -> by congruence.
    split; intros Hlen; [lia|].
    rewrite !decide_False; [done|..]; intros ([i m] & -> & Hin)%list_elem_of_fmap; by apply Hm in Hin.
Qed.

(** C14: After a step the tensors of the running batch agree with the requests
    that were rolled back: the next input token is the last output and the
    sequence length is the number of tokens before it.  The entries of the
    other requests are untouched. *)
Theorem rollback_syncs_batch `{Model} {C} (V : SamplingParams → list Z → Z) (N w : Z)
    (s : Sys C) :
  fixed_shape_determinism V N w → step_ready V N w s →
  ∃ s' out, Worker.check_and_verify_deterministic_requests s = (Ok out, s') ∧
    b_reqs (batch (world s')) = b_reqs (batch (world s)) ∧
    ∀ j id r r' l, b_reqs (batch (world s)) !! j = Some id →
      heap (world s) !! id = Some r → heap (world s') !! id = Some r' →
      b_output_ids (batch (world s)) = Some l →
      ∃ l', b_output_ids (batch (world s')) = Some l' ∧
        (len (output_ids r') < len (output_ids r) →
           (id, len (output_ids r) - len (output_ids r')) ∈ out ∧
           l' !! j = last (output_ids r') ∧
           b_seq_lens (batch (world s')) !! j = Some (seqlen r' - 1)) ∧
        (len (output_ids r') = len (output_ids r) →
           l' !! j = l !! j ∧
           b_seq_lens (batch (world s')) !! j = b_seq_lens (batch (world s)) !! j).
Proof.
  intros Hdet Hs. destruct (check_step_ok V N w s Hdet Hs) as (s' & out & ids & E & Hm & _ & Hc & _).
  exists s', out. split_and!; [done|apply Hm|]. intros j id r r' l Hj Hr Hr' El. by eapply step_entry.
Qed.

Lemma rollback_syncs_batch_witness :
  ∃ s' out, Worker.check_and_verify_deterministic_requests DemoSys.sys = (Ok out, s') ∧
    b_reqs (batch (world s')) = [0%nat; 1%nat].
Proof.
  destruct (rollback_syncs_batch DemoSys.V 2 3 DemoSys.sys
    (Toy.determinism DemoSys.V 2 3 ltac:(lia)) DemoSys.sys_ready) as (s' & out & E & Hr & _).
  exists s', out. split; [exact E|exact Hr].
Defined.

(** C36: A mismatch on the last token of a window leaves a stale input.  In
    any step of a batch whose input token for a request is its last output:
    when the outputs of a triggering request are the reference generation
    except for the last one, [t], the step replaces [t] by the verifier's
    token.  As many tokens are there as before, the request does not count as
    rolled back, and the batch keeps [t] as the input of the next decode
    step. *)
Theorem last_token_mismatch_leaves_stale_input `{Model} {C} (V : SamplingParams → list Z → Z) (N w : Z)
    (s : Sys C) j id r l n t :
  fixed_shape_determinism V N w → step_ready V N w s →
  b_reqs (batch (world s)) !! j = Some id → heap (world s) !! id = Some r →
  Worker.candidate r = true → Worker.triggers w r = true →
  b_output_ids (batch (world s)) = Some l → l !! j = last (output_ids r) →
  let reference := gen (V (sampling_params r)) (origin_input_ids r) in
  output_ids r = reference n ++ [t] → output_ids r ≠ reference (S n) →
  ∃ s' out r' l', Worker.check_and_verify_deterministic_requests s = (Ok out, s') ∧
    heap (world s') !! id = Some r' ∧ output_ids r' = reference (S n) ∧
    b_output_ids (batch (world s')) = Some l' ∧ l' !! j = Some t ∧ last (output_ids r') ≠ Some t.
Proof.
  intros Hdet Hs Hj Hr Hcand Htrig El Hl reference Ho Hne.
  destruct (check_step_ok V N w s Hdet Hs) as (s' & out & ids & E & Hm & _ & Hc & Ht).
  assert (Hi : id ∈ ids) by (eapply Ht; [by eapply list_elem_of_lookup_2|done..]).
  destruct (mu_in _ _ _ _ _ _ _ Hm id r Hi Hr) as (r' & m & Hr' & P & _).
  pose proof (f_equal length Ho) as Hlen. rewrite length_app in Hlen. unfold reference in Hlen. rewrite length_gen in Hlen. cbn in Hlen.
  pose proof (ps_far _ _ _ _ P n ltac:(lia)) as Hfar. rewrite Ho in Hfar at 1. unfold reference in Hfar at 1.
  rewrite <- (length_gen (V (sampling_params r)) (origin_input_ids r) n) in Hfar at 1. rewrite take_app_length in Hfar.
  specialize (Hfar eq_refl). destruct (ps_rolled _ _ _ _ P) as [-> Hroll].
  assert (Hlen' : length (output_ids r') = S n) by (unfold len in *; lia).
  assert (Er' : output_ids r' = reference (S n)).
  { destruct (ps_committed _ _ _ _ P) as [_ Eg]. rewrite (ps_all _ _ _ _ P) in Eg. unfold len in Eg.
    rewrite slice_to_take, Nat2Z.id, firstn_all, Hlen' in Eg by lia.
    assert (Ef : sampling_params r' = sampling_params r ∧ origin_input_ids r' = origin_input_ids r)
      by (rewrite (ps_frame _ _ _ _ P); by rsimpl).
    destruct Ef as [Es Eo]. by rewrite Eg, Es, Eo. }
  destruct (step_entry V N w s s' ids out j id r r' l Hs Hm Hc Hj Hr Hr' El) as (l' & El' & _ & Hkeep).
  destruct Hkeep as [Hkeep _]; [unfold len; lia|]. exists s', out, r', l'.
  assert (Elast : l' !! j = Some t) by (by rewrite Hkeep, Hl, Ho, last_snoc). split_and!; try done.
  rewrite Er'. unfold reference. replace (S n) with (n + 1)%nat by lia. rewrite gen_app. cbn [gen].
  rewrite last_snoc. intros [= Et]. apply Hne. rewrite Ho. unfold reference.
  replace (S n) with (n + 1)%nat by lia. rewrite gen_app. cbn [gen]. by rewrite Et.
Qed.

(** The verifier's token for the last place of request 0 is 16, not 99. *)
Lemma last_token_mismatch_leaves_stale_input_witness :
  ∃ s' out r' l', Worker.check_and_verify_deterministic_requests DemoSys.sys = (Ok out, s') ∧
    heap (world s') !! 0%nat = Some r' ∧ output_ids r' = [13; 14; 15; 16] ∧
    b_output_ids (batch (world s')) = Some l' ∧ l' !! 0%nat = Some 99 ∧ last (output_ids r') ≠ Some 99.
Proof.
  apply (last_token_mismatch_leaves_stale_input DemoSys.V 2 3 DemoSys.sys 0 0%nat DemoSys.req0 [99; 23] 3 99).
  - exact (Toy.determinism DemoSys.V 2 3 ltac:(lia)).
  - exact DemoSys.sys_ready.
  - reflexivity.
  - reflexivity.
  - reflexivity.
  - reflexivity.
  - reflexivity.
  - reflexivity.
  - reflexivity.
  - by vm_compute.
Defined.

End WorkerClaims.
