(* ===== verification/QueueFacts.v ===== *)
(** * The cache-aware orders of the queue

    Stable sorting; the radix tree as a tree of its own ([rose]), on which
    the weights and the depth-first order are plain functions; and the
    matches of the queue with the two radix trees. *)

From S2P Require Import Prelude HeapQ PyFloat Allocator Request ReqPool LLM42Info World WorkerFacts Radix RadixTree RadixState RadixFacts RadixOps RadixLocks RadixHold Policy QueueOrder.

(** ** Stable sorting *)

Section Sort.
Context {A : Type} (lt : A → A → bool).
Context (lt_asym : ∀ x y, lt x y = true → lt y x = false).
Context (lt_trans : ∀ x y z, lt x y = false → lt y z = false → lt x z = false).

(** [x] may stand before [y]. *)
Definition before (x y : A) : Prop := lt y x = false.

Lemma insert_stable_perm x q : insert_stable lt x q ≡ₚ x :: q.
Proof.
  induction q as [|y q IH]; [done|]. cbn. destruct (lt x y); [done|]. rewrite IH. apply Permutation_swap.
Qed.

Lemma sort_stable_from acc q : foldl (λ acc x, insert_stable lt x acc) acc q ≡ₚ acc ++ q.
Proof.
  revert acc. induction q as [|x q IH]; intros acc; [by rewrite app_nil_r|]. cbn.
  rewrite IH, insert_stable_perm. by rewrite <- Permutation_middle.
Qed.

Lemma sort_stable_perm q : sort_stable lt q ≡ₚ q.
Proof. apply sort_stable_from. Qed.

Lemma insert_stable_sorted x q : StronglySorted before q → StronglySorted before (insert_stable lt x q).
Proof.
  induction 1 as [|y q Hs IH Hy]; cbn; [by repeat constructor|].
  destruct (lt x y) eqn:E.
  - constructor; [by constructor|]. constructor; [by apply lt_asym|]. eapply Forall_impl; [exact Hy|].
    intros z Hz. unfold before in *. eapply lt_trans; [exact Hz|by apply lt_asym].
  - constructor; [done|]. rewrite insert_stable_perm. by constructor.
Qed.

Lemma sort_stable_sorted q : StronglySorted before (sort_stable lt q).
Proof.
  unfold sort_stable. assert (H0 : StronglySorted before []) by constructor. revert H0. generalize (@nil A) as acc.
  induction q as [|x q IH]; intros acc Hs; [done|]. apply IH. by apply insert_stable_sorted.
Qed.

(** Elements that are not ordered by [lt] keep their order. *)
Section Stable.
Context (p : A → Prop) `{!∀ x, Decision (p x)} (Hp : ∀ x y, p x → p y → lt x y = false).

Lemma filter_nobody q : Forall (λ x, ¬ p x) q → filter p q = [].
Proof. induction 1 as [|x q Hx _ IH]; [done|]. by rewrite filter_cons_False. Qed.

Lemma insert_stable_filter x q :
  StronglySorted before q → filter p (insert_stable lt x q) = filter p q ++ filter p [x].
Proof.
  intros Hs. induction Hs as [|y q Hs IH Hy]; cbn [insert_stable]; [done|]. destruct (lt x y) eqn:E.
  - destruct (decide (p x)) as [Hx|Hx].
    + assert (Hnone : filter p (y :: q) = []).
      { apply filter_nobody. constructor.
        - intros Hpy. by rewrite (Hp x y) in E.
        - eapply Forall_impl; [exact Hy|]. intros z Hz Hpz. unfold before in Hz.
          by rewrite (lt_trans x z y (Hp x z Hx Hpz) Hz) in E. }
      rewrite (filter_cons_True p x (y :: q)), Hnone by done. by rewrite (filter_cons_True p x []).
    + rewrite (filter_cons_False p x (y :: q)), (filter_cons_False p x []) by done. by rewrite app_nil_r.
  - rewrite !(filter_cons p y), IH. by destruct (decide (p y)).
Qed.

Lemma sort_stable_filter q : filter p (sort_stable lt q) = filter p q.
Proof.
  unfold sort_stable. change (filter p q) with (filter p [] ++ filter p q).
  assert (H0 : StronglySorted before []) by constructor. revert H0. generalize (@nil A) as acc.
  induction q as [|x q IH]; intros acc Hs; [by rewrite app_nil_r|].
  cbn [foldl]. rewrite IH by (by apply insert_stable_sorted). rewrite insert_stable_filter by done.
  rewrite <- app_assoc. f_equal. rewrite !filter_cons. by destruct (decide (p x)).
Qed.
End Stable.
End Sort.

Lemma insert_stable_fmap {A B} (f : A → B) (lt : B → B → bool) x q :
  insert_stable lt (f x) (f <$> q) = f <$> insert_stable (λ a b, lt (f a) (f b)) x q.
Proof. induction q as [|y q IH]; [done|]. cbn. destruct (lt (f x) (f y)); [done|]. by rewrite IH. Qed.

Lemma sort_stable_fmap {A B} (f : A → B) (lt : B → B → bool) q :
  sort_stable lt (f <$> q) = f <$> sort_stable (λ a b, lt (f a) (f b)) q.
Proof.
  unfold sort_stable. change (@nil B) with (f <$> []). generalize (@nil A) as acc.
  induction q as [|x q IH]; intros acc; [done|]. cbn. by rewrite insert_stable_fmap, IH.
Qed.

(** ** Trees *)

Lemma elem_of_concat {A} (x : A) xss : x ∈ concat xss ↔ ∃ xs, xs ∈ xss ∧ x ∈ xs.
Proof.
  induction xss as [|xs xss IH]; cbn.
  - split; [by intros ?%elem_of_nil|by intros (? & ?%elem_of_nil & _)].
  - rewrite elem_of_app, IH. setoid_rewrite elem_of_cons. naive_solver.
Qed.

#[warnings="-register-all"]
Inductive rose : Type := Rose (n : Z) (ts : list rose).

Definition root_of (t : rose) : Z := let 'Rose n _ := t in n.

Lemma rose_ind' (Q : rose → Prop) : (∀ n ts, Forall Q ts → Q (Rose n ts)) → ∀ t, Q t.
Proof.
  intros HQ. fix IH 1. intros [n ts]. apply HQ. induction ts as [|t ts IHts]; constructor; [apply IH|exact IHts].
Qed.

(** The nodes, children before their parent *)
Fixpoint flat (t : rose) : list Z := let 'Rose n ts := t in concat (flat <$> ts) ++ [n].

Fixpoint height (t : rose) : nat := let 'Rose _ ts := t in S (foldr (λ t n, Nat.max (height t) n) 0%nat ts).

Lemma height_child t n ts : t ∈ ts → (height t < height (Rose n ts))%nat.
Proof.
  intros Hin. cbn. induction ts as [|u ts IH]; [by apply elem_of_nil in Hin|].
  apply elem_of_cons in Hin as [->|Hin]; cbn; [lia|]. specialize (IH Hin). lia.
Qed.

Lemma root_flat t : root_of t ∈ flat t.
Proof. destruct t as [n ts]. cbn. apply elem_of_app. right. apply list_elem_of_here. Qed.

Lemma flat_child t n ts h : t ∈ ts → h ∈ flat t → h ∈ flat (Rose n ts).
Proof.
  intros Ht Hh. cbn. apply elem_of_app. left. apply elem_of_concat. exists (flat t).
  split; [by apply list_elem_of_fmap_2|done].
Qed.

Lemma flat_inv h n ts : h ∈ flat (Rose n ts) → h = n ∨ ∃ t, t ∈ ts ∧ h ∈ flat t.
Proof.
  cbn. intros [Hh|Hh]%elem_of_app; [right|left; by apply list_elem_of_singleton in Hh].
  apply elem_of_concat in Hh as (l & Hl & Hh). apply list_elem_of_fmap in Hl as (t & -> & Ht). by exists t.
Qed.

(** Weights *)
Definition add_child (n : Z) (w : gmap (option Z) Z) (c : Z) : gmap (option Z) Z :=
  <[Some n := CachePolicy.weight_of w n + CachePolicy.weight_of w c]> w.

Fixpoint weigh (t : rose) (w : gmap (option Z) Z) : gmap (option Z) Z :=
  let 'Rose n ts := t in foldl (λ w t, add_child n (weigh t w) (root_of t)) w ts.

(** The depth-first order: heavier children first, a node after its
    children *)
Section Order.
Context (weight : rose → Z) (L : gmap (option Z) (list nat)).

Definition heavier (t u : rose) : bool := - weight t <? - weight u.

Fixpoint dfs (t : rose) : list nat :=
  let 'Rose n ts := t in
  concat ((sort_stable (λ x y, heavier x.1 y.1) ((λ t, (t, dfs t)) <$> ts)).*2) ++ CachePolicy.reqs_of_node L n.

Lemma dfs_eq n ts :
  dfs (Rose n ts) = concat (dfs <$> sort_stable heavier ts) ++ CachePolicy.reqs_of_node L n.
Proof. cbn [dfs]. rewrite sort_stable_fmap, <- list_fmap_compose. done. Qed.

(** The order has the requests of all nodes. *)
Lemma dfs_perm t : dfs t ≡ₚ concat (CachePolicy.reqs_of_node L <$> flat t).
Proof.
  induction t as [n ts IH] using rose_ind'. rewrite dfs_eq. cbn [flat].
  rewrite fmap_app, concat_app. cbn. rewrite app_nil_r. f_equiv.
  rewrite (concat_perm _ _ (fmap_Permutation dfs _ _ (sort_stable_perm heavier ts))).
  induction IH as [|t ts Ht _ IH]; [done|]. cbn. rewrite fmap_app, concat_app. by f_equiv.
Qed.
End Order.

Inductive subtree (s : rose) : rose → Prop :=
| subtree_refl : subtree s s
| subtree_child n ts t : t ∈ ts → subtree s t → subtree s (Rose n ts).

Lemma insert_stable_ext {A} (lt lt' : A → A → bool) x q :
  (∀ y, y ∈ q → lt x y = lt' x y) → insert_stable lt x q = insert_stable lt' x q.
Proof.
  intros E. induction q as [|y q IH]; [done|]. cbn. rewrite E by apply list_elem_of_here.
  destruct (lt' x y); [done|]. rewrite IH; [done|]. intros z Hz. apply E. by apply list_elem_of_further.
Qed.

Lemma sort_stable_ext {A} (lt lt' : A → A → bool) q :
  (∀ x y, x ∈ q → y ∈ q → lt x y = lt' x y) → sort_stable lt q = sort_stable lt' q.
Proof.
  intros E. unfold sort_stable.
  assert (Hgen : ∀ q' acc, (∀ y, y ∈ q' → y ∈ q) → (∀ y, y ∈ acc → y ∈ q) →
    foldl (λ acc x, insert_stable lt x acc) acc q' = foldl (λ acc x, insert_stable lt' x acc) acc q').
  { induction q' as [|x q' IH]; intros acc Hq Ha; [done|]. cbn.
    assert (Hx : x ∈ q) by apply Hq, list_elem_of_here.
    rewrite (insert_stable_ext lt lt') by (intros y Hy; apply E; auto).
    apply IH; [intros y Hy; apply Hq; by apply list_elem_of_further|].
    intros y Hy. rewrite insert_stable_perm in Hy. apply elem_of_cons in Hy as [->|Hy]; auto. }
  apply Hgen; [done|]. by intros y ?%elem_of_nil.
Qed.

Lemma dfs_ext w1 w2 L t : (∀ s, subtree s t → w1 s = w2 s) → dfs w1 L t = dfs w2 L t.
Proof.
  induction t as [n ts IH] using rose_ind'. intros E. rewrite !dfs_eq. f_equal. f_equal.
  assert (Es : sort_stable (heavier w1) ts = sort_stable (heavier w2) ts).
  { apply sort_stable_ext. intros x y Hx Hy. unfold heavier.
    rewrite (E x) by (eapply subtree_child; [exact Hx|apply subtree_refl]).
    by rewrite (E y) by (eapply subtree_child; [exact Hy|apply subtree_refl]). }
  rewrite Es. apply list_fmap_ext. intros i t Ht. apply list_elem_of_lookup_2 in Ht. rewrite sort_stable_perm in Ht.
  apply (proj1 (Forall_forall _ _) IH t Ht). intros s Hs. apply E. by eapply subtree_child.
Qed.

(** *** The weights count the requests below a node *)

Definition load (w : gmap (option Z) Z) (t : rose) : Z := zsum (CachePolicy.weight_of w <$> flat t).

Lemma zsum_app_loads xs ys : zsum (xs ++ ys) = zsum xs + zsum ys.
Proof. induction xs as [|x xs IH]; [done|]. change (x + zsum (xs ++ ys) = x + zsum xs + zsum ys). lia. Qed.

Definition agree_on (ns : list Z) (w w' : gmap (option Z) Z) : Prop :=
  ∀ n, n ∈ ns → CachePolicy.weight_of w' n = CachePolicy.weight_of w n.

Lemma load_ext w w' t : agree_on (flat t) w w' → load w' t = load w t.
Proof.
  intros E. unfold load. f_equal. apply list_fmap_ext. intros i n Hi. apply E. by eapply list_elem_of_lookup_2.
Qed.

Lemma subtree_flat s t n : subtree s t → n ∈ flat s → n ∈ flat t.
Proof. induction 1 as [|m ts t Ht _ IH]; [done|]. intros Hn. eapply flat_child; [exact Ht|auto]. Qed.

Lemma add_child_ne n w c m : m ≠ n → CachePolicy.weight_of (add_child n w c) m = CachePolicy.weight_of w m.
Proof. intros Hm. unfold add_child, CachePolicy.weight_of. by rewrite lookup_insert_ne by congruence. Qed.
Lemma add_child_eq n w c :
  CachePolicy.weight_of (add_child n w c) n = CachePolicy.weight_of w n + CachePolicy.weight_of w c.
Proof. unfold add_child. unfold CachePolicy.weight_of at 1. by rewrite lookup_insert_eq. Qed.

Record weighed (t : rose) (w w' : gmap (option Z) Z) : Prop := {
  we_others : ∀ n, n ∉ flat t → CachePolicy.weight_of w' n = CachePolicy.weight_of w n;
  we_loads : ∀ s, subtree s t → CachePolicy.weight_of w' (root_of s) = load w s
}.

Lemma weigh_ok t : ∀ w, NoDup (flat t) → weighed t w (weigh t w).
Proof.
  induction t as [n ts IH] using rose_ind'. intros w Hnd. cbn [flat] in Hnd.
  apply NoDup_app in Hnd as (Hnd & Hn & _).
  assert (Hnn : n ∉ concat (flat <$> ts)) by (intros Hx; apply (Hn n Hx), list_elem_of_here). clear Hn.
  (* the loop over the children *)
  assert (Hloop : ∀ w, let w' := weigh (Rose n ts) w in
    (∀ m, m ≠ n → m ∉ concat (flat <$> ts) → CachePolicy.weight_of w' m = CachePolicy.weight_of w m) ∧
    CachePolicy.weight_of w' n = CachePolicy.weight_of w n + zsum (load w <$> ts) ∧
    (∀ t s, t ∈ ts → subtree s t → CachePolicy.weight_of w' (root_of s) = load w s)).
  { clear w. cbn [weigh]. induction ts as [|t ts IHts]; intros w; cbn [foldl].
    { split_and!; [done|cbn; lia|by intros ? ? ?%elem_of_nil]. }
    apply Forall_cons in IH as [IHt IH]. cbn [fmap list_fmap concat] in *.
    apply NoDup_app in Hnd as (Hnt & Hdis & Hnd). apply not_elem_of_app in Hnn as [Hn1 Hn2].
    destruct (IHt w Hnt) as [Ot Lt]. set (w1 := add_child n (weigh t w) (root_of t)).
    destruct (IHts IH Hnd Hn2 w1) as (A1 & A2 & A3).
    assert (Hsub : ∀ u, u ∈ ts → agree_on (flat u) w w1).
    { intros u Hu m Hm. assert (Hmu : m ∈ concat (flat <$> ts)) by (apply elem_of_concat; exists (flat u); split; [by apply list_elem_of_fmap_2|done]).
      unfold w1. rewrite add_child_ne by (by intros ->). apply Ot. intros Hx. by apply (Hdis m). }
    split_and!.
    - intros m Hm [Hm1 Hm2]%not_elem_of_app. rewrite A1 by done. unfold w1. rewrite add_child_ne by done. by apply Ot.
    - rewrite A2. unfold w1 at 1. rewrite add_child_eq, (Ot n Hn1), (Lt t (subtree_refl t)).
      assert (El : load w1 <$> ts = load w <$> ts).
      { apply list_fmap_ext. intros i u Hi. apply load_ext, Hsub. by eapply list_elem_of_lookup_2. }
      rewrite El. change (zsum (load w t :: (load w <$> ts))) with (load w t + zsum (load w <$> ts)). lia.
    - intros u s [->|Hu]%elem_of_cons Hs.
      + assert (Hr : root_of s ∈ flat t) by (eapply subtree_flat; [exact Hs|apply root_flat]).
        rewrite A1; [|by intros E; rewrite E in Hr|intros Hx; by apply (Hdis (root_of s))].
        unfold w1. rewrite add_child_ne by (by intros E; rewrite E in Hr). by apply Lt.
      + rewrite (A3 u s Hu Hs). apply load_ext. intros m Hm. apply (Hsub u Hu). by eapply subtree_flat. }
  destruct (Hloop w) as (A1 & A2 & A3). split.
  - intros m Hm. cbn [flat] in Hm. apply not_elem_of_app in Hm as [Hm1 Hm2]. apply A1; [|done].
    intros ->. apply Hm2, list_elem_of_here.
  - intros s Hs. inversion Hs as [|? ? u Hu Hs']; subst; [|by eapply A3].
    cbn [root_of]. rewrite A2. unfold load at 2. cbn [flat]. rewrite fmap_app, zsum_app_loads. cbn. rewrite Z.add_0_r, Z.add_comm.
    f_equal. clear. induction ts as [|t ts IH]; [done|]. cbn [fmap list_fmap concat]. rewrite fmap_app, zsum_app_loads, <- IH. done.
Qed.

(** *** The radix tree as a rose *)

Section Represent.
Context `{Runtime} `{DictOrder} (c : RadixCache).

#[warnings="-register-all"]
Inductive represents : rose → Prop :=
| represents_node n x ts :
    rc_nodes c !! n = Some x → child_values x = root_of <$> ts → Forall represents ts → represents (Rose n ts).

Lemma calc_weight_rose t : represents t → ∀ fuel w, (height t ≤ fuel)%nat →
  CachePolicy._calc_weight fuel (root_of t) w c = (Ok (weigh t w), c).
Proof.
  induction t as [n ts IH] using rose_ind'. intros Hr fuel w Hh. inversion Hr as [? x ? Hx Hv Hts]; subst.
  destruct fuel as [|fuel]; [cbn in Hh; lia|]. cbn [root_of CachePolicy._calc_weight].
  assert (E : Radix.node_at n c = (Ok x, c)) by (unfold Radix.node_at; by rewrite Hx).
  rewrite (bind_ok _ _ _ _ _ E), Hv. cbn [weigh].
  assert (Hall : ∀ t, t ∈ ts → (height t ≤ fuel)%nat).
  { intros t Ht. pose proof (height_child t n ts Ht). lia. }
  clear Hr Hx Hv E Hh. revert w. induction ts as [|t ts IHts]; intros w; [done|].
  apply Forall_cons in IH as [IH1 IH2], Hts as [Hr1 Hr2]. cbn [fmap list_fmap foldM foldl].
  rewrite (bind_ok _ _ c (weigh t w) c) by (apply IH1; [done|apply Hall, list_elem_of_here]). cbn [mret].
  apply IHts; [done|done|]. intros u Hu. apply Hall. by apply list_elem_of_further.
Qed.

Definition by_weight (w : gmap (option Z) Z) (t : rose) : Z := CachePolicy.weight_of w (root_of t).

Lemma get_dfs_rose w L t : represents t → ∀ fuel q, (height t ≤ fuel)%nat →
  CachePolicy._get_dfs_priority fuel (root_of t) w L q c = (Ok (q ++ dfs (by_weight w) L t), c).
Proof.
  induction t as [n ts IH] using rose_ind'. intros Hr fuel q Hh. inversion Hr as [? x ? Hx Hv Hts]; subst.
  destruct fuel as [|fuel]; [cbn in Hh; lia|]. cbn [root_of CachePolicy._get_dfs_priority].
  assert (E : Radix.node_at n c = (Ok x, c)) by (unfold Radix.node_at; by rewrite Hx).
  rewrite (bind_ok _ _ _ _ _ E), Hv, (sort_stable_fmap root_of), dfs_eq. cbv zeta.
  change (sort_stable (λ a b : rose, _) ts) with (sort_stable (heavier (by_weight w)) ts).
  assert (Hall : ∀ t, t ∈ sort_stable (heavier (by_weight w)) ts → ∀ q,
            CachePolicy._get_dfs_priority fuel (root_of t) w L q c = (Ok (q ++ dfs (by_weight w) L t), c)).
  { intros t Ht q'. rewrite sort_stable_perm in Ht. pose proof (height_child t n ts Ht).
    apply (proj1 (Forall_forall _ _) IH t Ht); [by apply (proj1 (Forall_forall _ _) Hts)|lia]. }
  revert Hall. generalize (sort_stable (heavier (by_weight w)) ts) as us. intros us Hall.
  assert (Ef : foldM (λ q child, CachePolicy._get_dfs_priority fuel child w L q) q (root_of <$> us) c
             = (Ok (q ++ concat (dfs (by_weight w) L <$> us)), c)).
  { clear -Hall. revert q. induction us as [|u us IH]; intros q; [by cbn; rewrite app_nil_r|].
    cbn [fmap list_fmap foldM concat]. rewrite (Hall u) by apply list_elem_of_here.
    rewrite IH; [by rewrite app_assoc|]. intros t Ht. apply Hall. by apply list_elem_of_further. }
  rewrite (bind_ok _ _ _ _ _ Ef). by rewrite <- app_assoc.
Qed.
End Represent.

(** *** The tree of a cache in order *)

Lemma Forall_choice {A B} (Q : A → B → Prop) xs :
  (∀ x, x ∈ xs → ∃ y, Q x y) → ∃ ys, Forall2 Q xs ys.
Proof.
  induction xs as [|x xs IH]; intros E; [by exists []|].
  destruct (E x) as [y Hy]; [apply list_elem_of_here|].
  destruct IH as [ys Hys]; [intros z Hz; apply E; by apply list_elem_of_further|]. exists (y :: ys). by constructor.
Qed.

Section Exists.
Context `{Runtime} `{DictOrder} (c : RadixCache) (P : gmap Z Path) (Hs : list Z) (HO : radix_ok (st c) P Hs).
Let HC := proj1 HO.
Let HT : tree (rc_page_size c) (rc_root c) (st_S (st c)) P := co_tree _ _ _ HC.

Definition up (a b : Z) : Prop := ∃ s, st_S (st c) !! a = Some s ∧ s_parent s = Some b.
Definition plen (n : Z) : Z := match P !! n with Some pn => len (p_toks pn) | None => 0 end.

Lemma up_fun a b b' : up a b → up a b' → b = b'.
Proof. intros (s & E & E1) (s' & E' & E2). congruence. Qed.

(** The children of a node *)
Lemma child_up n pn x d :
  P !! n = Some pn → rc_nodes c !! n = Some x → d ∈ child_values x →
  is_Some (P !! d) ∧ up d n ∧ plen n < plen d.
Proof.
  intros Hn Hx Hd. rewrite child_values_perm in Hd. apply list_elem_of_fmap in Hd as ([k d'] & -> & Hk).
  apply elem_of_map_to_list in Hk. cbn.
  assert (Hsn : st_S (st c) !! n = Some (shape x)) by (cbn; by rewrite lookup_fmap, Hx).
  destruct (tree_children _ _ _ _ HT n pn (shape x) k d' Hn Hsn Hk) as (Hne & [pd Hpd] & s & Es & Ep & _).
  split; [done|]. split; [by exists s|].
  destruct (tree_linked _ _ _ _ HT d' pd Hpd Hne) as (l & HL).
  assert (Ep' : l_p l = n).
  { pose proof (ln_shape _ _ _ _ _ _ _ HL) as E1. pose proof (ln_parent _ _ _ _ _ _ _ HL) as E2. congruence. }
  pose proof (linked_len _ _ _ _ _ _ _ HL) as El. pose proof (ln_pos _ _ _ _ _ _ _ HL).
  pose proof (ln_ppath _ _ _ _ _ _ _ HL) as E3. rewrite Ep' in E3. unfold plen. rewrite Hpd, E3. lia.
Qed.

Lemma children_nodup n pn x : P !! n = Some pn → rc_nodes c !! n = Some x → NoDup (child_values x).
Proof.
  intros Hn Hx. rewrite child_values_perm. apply NoDup_fmap_2_strong; [|apply NoDup_map_to_list].
  assert (Hsn : st_S (st c) !! n = Some (shape x)) by (cbn; by rewrite lookup_fmap, Hx).
  intros [k1 d1] [k2 d2] H1 H2 E. cbn in E. subst d2. apply elem_of_map_to_list in H1, H2.
  destruct (tree_children _ _ _ _ HT n pn (shape x) k1 d1 Hn Hsn H1) as (_ & _ & s & Es & _ & Ek).
  destruct (tree_children _ _ _ _ HT n pn (shape x) k2 d1 Hn Hsn H2) as (_ & _ & s' & Es' & _ & Ek').
  congruence.
Qed.

(** Above a node there is one way to the root. *)
Lemma up_longer a b : is_Some (P !! a) → up a b → a ≠ rc_root c → is_Some (P !! b) ∧ plen b < plen a.
Proof.
  intros [pa Ha] (s & Es & Ep) Hne. destruct (tree_linked _ _ _ _ HT a pa Ha Hne) as (l & HL).
  pose proof (ln_shape _ _ _ _ _ _ _ HL) as E1. pose proof (ln_parent _ _ _ _ _ _ _ HL) as E2.
  assert (Ep' : l_p l = b) by congruence. pose proof (ln_ppath _ _ _ _ _ _ _ HL) as E3. rewrite Ep' in E3.
  pose proof (linked_len _ _ _ _ _ _ _ HL). pose proof (ln_pos _ _ _ _ _ _ _ HL).
  split; [done|]. unfold plen. rewrite Ha, E3. lia.
Qed.

Lemma ups_linear h a b : rtc up h a → rtc up h b → rtc up a b ∨ rtc up b a.
Proof.
  intros Ha Hb. induction Ha as [h|h m a Hm Ha IH]; [by left|].
  destruct Hb as [h|h m' b Hm' Hb]; [right; by eapply rtc_l|].
  assert (m' = m) as -> by (by eapply up_fun). by apply IH.
Qed.

Lemma root_up a : ¬ up (rc_root c) a.
Proof.
  intros (s & Es & Ep). destruct (tree_root_shape _ _ _ _ HT) as (s' & Es' & Ep' & _). cbn in *. congruence.
Qed.

Lemma ups_shorter a b : is_Some (P !! a) → rtc up a b → is_Some (P !! b) ∧ plen b ≤ plen a.
Proof.
  intros Ha Hr. induction Hr as [a|a m b Hm _ IH]; [done|].
  destruct (up_longer a m Ha Hm) as [Hm' Hlt]; [intros ->; by eapply root_up|].
  destruct (IH Hm') as [? ?]. split; [done|lia].
Qed.

(** Two children of a node have nothing below them in common. *)
Lemma siblings_apart n d d' h : is_Some (P !! n) → up d n → up d' n → plen n < plen d' → plen n < plen d →
  rtc up h d → rtc up h d' → d = d'.
Proof.
  intros Hn Hd Hd' Hl' Hl Hh Hh'.
  assert (Hcase : ∀ a b, up a n → plen n < plen b → rtc up a b → a = b).
  { intros a b Ha Hb Hr. inversion Hr as [|? m ? Hm Hr']; subst; [done|]. exfalso.
    assert (m = n) as -> by (by eapply up_fun). destruct (ups_shorter n b Hn Hr') as [_ ?]. lia. }
  destruct (ups_linear h d d' Hh Hh') as [Hr|Hr]; [by eapply Hcase|symmetry; by eapply Hcase].
Qed.

(** How many nodes are at least as deep *)
Definition below (n : Z) : nat := length (filter (λ q : Z * Path, plen n ≤ len (p_toks q.2)) (map_to_list P)).

Lemma below_child n pn d : P !! n = Some pn → plen n < plen d → (below d < below n)%nat.
Proof.
  intros Hn Hlt. unfold below. apply (filter_length_lt _ _ _ (n, pn)).
  - intros [m q]. cbn. lia.
  - by apply elem_of_map_to_list.
  - cbn. unfold plen. by rewrite Hn.
  - cbn. unfold plen in *. rewrite Hn in Hlt. lia.
Qed.

Lemma below_le n : (below n ≤ base.size (rc_nodes c))%nat.
Proof.
  unfold below. trans (length (map_to_list P)); [apply length_filter|].
  rewrite length_map_to_list, <- !size_dom. apply subseteq_size.
  intros m [q Hq]%elem_of_dom. destruct (core_live _ _ _ HC _ _ Hq) as [t Ht].
  destruct (node_of_shape _ _ _ Ht) as (x & Hx & _). by apply elem_of_dom.
Qed.

Record tree_at (n : Z) (t : rose) : Prop := {
  ta_rep : represents c t;
  ta_root : root_of t = n;
  ta_height : (height t ≤ S (below n))%nat;
  ta_nodup : NoDup (flat t);
  ta_below : ∀ h, h ∈ flat t → is_Some (P !! h) ∧ rtc up h n
}.

Lemma flats_nodup n ds ts :
  is_Some (P !! n) → Forall2 tree_at ds ts → NoDup ds → (∀ d, d ∈ ds → up d n ∧ plen n < plen d) →
  NoDup (concat (flat <$> ts)).
Proof.
  intros Hn F. induction F as [|d t ds ts Td F IH]; intros Hnd Hch; [constructor|].
  apply NoDup_cons in Hnd as [Hd Hnd]. cbn [fmap list_fmap concat]. apply NoDup_app. split_and!; [apply Td| |].
  2:{ apply IH; [done|]. intros d' Hd'. apply Hch. by apply list_elem_of_further. }
  intros h Hh Hc. apply elem_of_concat in Hc as (xs & Hxs & Hh'). apply list_elem_of_fmap in Hxs as (t' & -> & Ht').
  apply list_elem_of_lookup_1 in Ht' as [j Hj]. destruct (Forall2_lookup_r _ _ _ _ _ F Hj) as (d' & Hd' & Td').
  apply list_elem_of_lookup_2 in Hd'. destruct (Hch d) as [U L]; [apply list_elem_of_here|].
  destruct (Hch d') as [U' L']; [by apply list_elem_of_further|].
  destruct (ta_below _ _ Td h Hh) as [_ R], (ta_below _ _ Td' h Hh') as [_ R'].
  apply Hd. by rewrite (siblings_apart n d d' h Hn U U' L' L R R').
Qed.

Lemma tree_at_exists n : is_Some (P !! n) → ∃ t, tree_at n t.
Proof.
  remember (below n) as k eqn:Ek. revert n Ek. induction (lt_wf k) as [k _ IH]. intros n -> [pn Hn].
  destruct (core_live _ _ _ HC _ _ Hn) as [s Hsn]. destruct (node_of_shape _ _ _ Hsn) as (x & Hx & _).
  destruct (Forall_choice tree_at (child_values x)) as [ts F].
  { intros d Hd. destruct (child_up n pn x d Hn Hx Hd) as (Hd' & _ & Hlt).
    eapply IH; [by eapply below_child|done|done]. }
  assert (Hch : ∀ d, d ∈ child_values x → up d n ∧ plen n < plen d).
  { intros d Hd. by destruct (child_up n pn x d Hn Hx Hd) as (_ & ? & ?). }
  pose proof (children_nodup n pn x Hn Hx) as Hnd.
  exists (Rose n ts). split.
  - apply represents_node with x; [done| |].
    + clear -F. induction F as [|d t ds ts Ht _ IH]; [done|]. cbn. by rewrite IH, (ta_root _ _ Ht).
    + clear -F. induction F as [|d t ds ts Ht _ IH]; constructor; [apply Ht|done].
  - done.
  - cbn [height]. apply le_n_S. clear -F Hch Hn. induction F as [|d t ds ts Ht _ IH]; cbn; [lia|].
    apply Nat.max_lub; [|apply IH; intros d' Hd'; apply Hch; by apply list_elem_of_further].
    destruct (Hch d) as [_ Hlt]; [apply list_elem_of_here|]. pose proof (below_child n pn d Hn Hlt).
    pose proof (ta_height _ _ Ht). lia.
  - cbn [flat]. apply NoDup_app. split_and!; [by eapply flats_nodup| |apply NoDup_singleton].
    intros h Hh Hx1. apply list_elem_of_singleton in Hx1 as ->.
    apply elem_of_concat in Hh as (xs & Hxs & Hh). apply list_elem_of_fmap in Hxs as (t & -> & Ht).
    apply list_elem_of_lookup_1 in Ht as [j Hj]. destruct (Forall2_lookup_r _ _ _ _ _ F Hj) as (d & Hd & Td).
    apply list_elem_of_lookup_2 in Hd. destruct (Hch d Hd) as [_ Hlt]. destruct (ta_below _ _ Td n Hh) as [_ Hr].
    destruct (ups_shorter n d ltac:(done) Hr). lia.
  - intros h Hh. apply flat_inv in Hh as [->|(t & Ht & Hh)]; [split; [done|apply rtc_refl]|].
    apply list_elem_of_lookup_1 in Ht as [j Hj]. destruct (Forall2_lookup_r _ _ _ _ _ F Hj) as (d & Hd & Td).
    destruct (ta_below _ _ Td h Hh) as [? Hr]. split; [done|].
    eapply rtc_r; [exact Hr|]. apply Hch. by eapply list_elem_of_lookup_2.
Qed.

(** Every node is in the tree at the root. *)
Lemma represents_closed t h x d :
  represents c t → h ∈ flat t → rc_nodes c !! h = Some x → d ∈ child_values x → d ∈ flat t.
Proof.
  induction t as [n ts IH] using rose_ind'. intros Hr Hh Hx Hd. inversion Hr as [? y ? Hy Hv Hts]; subst.
  apply flat_inv in Hh as [->|(t & Ht & Hh)].
  - assert (y = x) as -> by congruence. rewrite Hv in Hd. apply list_elem_of_fmap in Hd as (t & -> & Ht).
    eapply flat_child; [exact Ht|apply root_flat].
  - eapply flat_child; [exact Ht|]. apply (proj1 (Forall_forall _ _) IH t Ht); try done.
    by apply (proj1 (Forall_forall _ _) Hts).
Qed.

Lemma tree_complete t : tree_at (rc_root c) t → ∀ n pn, P !! n = Some pn → n ∈ flat t.
Proof.
  intros T. apply (path_ind _ _ _ _ HT).
  - rewrite <- (ta_root _ _ T). apply root_flat.
  - intros n pn l Hn Hne HL Hp. pose proof (ln_pshape _ _ _ _ _ _ _ HL) as E1.
    destruct (node_of_shape _ _ _ E1) as (x & Hx & Ex).
    apply (represents_closed t (l_p l) x n (ta_rep _ _ T) Hp Hx). rewrite child_values_perm.
    apply list_elem_of_fmap. exists (ck (rc_page_size c) (s_key (l_s l)), n). split; [done|].
    apply elem_of_map_to_list. pose proof (ln_child _ _ _ _ _ _ _ HL) as E2. rewrite <- Ex in E2. exact E2.
Qed.
End Exists.

(** ** The requests of a node *)

Section Group.
Implicit Types q : list (nat * Req).

Definition sits (k : option Z) (x : nat * Req) : Prop := last_node x.2 = k.
#[export] Instance sits_dec k x : Decision (sits k x).
Proof. unfold sits. apply _. Defined.
Definition sitting (q : list (nat * Req)) (n : Z) : list nat := (filter (sits (Some n)) q).*1.

Lemma group_node_spec q k : default [] (CachePolicy.group_by_node q !! k) = (filter (sits k) q).*1.
Proof.
  unfold CachePolicy.group_by_node.
  assert (Hgen : ∀ m : gmap (option Z) (list nat), default [] (foldl (λ m x, <[last_node x.2 := default [] (m !! last_node x.2) ++ [x.1]]> m) m q !! k)
                      = default [] (m !! k) ++ (filter (sits k) q).*1).
  { induction q as [|x q IH]; intros m; [by rewrite app_nil_r|]. cbn [foldl]. rewrite IH, filter_cons. unfold sits at 2.
    destruct (decide (last_node x.2 = k)) as [<-|Hne].
    - rewrite lookup_insert_eq. cbn. by rewrite <- app_assoc.
    - by rewrite lookup_insert_ne. }
  by rewrite Hgen, lookup_empty.
Qed.

Lemma group_node q n : CachePolicy.reqs_of_node (CachePolicy.group_by_node q) n = sitting q n.
Proof. apply group_node_spec. Qed.

(** The requests that sit on the nodes [ns] *)
Definition on_nodes (ns : list Z) (x : nat * Req) : Prop :=
  match last_node x.2 with Some n => n ∈ ns | None => False end.
#[export] Instance on_nodes_dec ns x : Decision (on_nodes ns x).
Proof. unfold on_nodes. destruct (last_node x.2); apply _. Defined.

Lemma on_nodes_cons n ns x : on_nodes (n :: ns) x ↔ sits (Some n) x ∨ on_nodes ns x.
Proof. unfold on_nodes, sits. destruct (last_node x.2) as [m|]; [|naive_solver]. rewrite elem_of_cons. naive_solver. Qed.

Lemma sitting_cover q ns : NoDup ns → concat (sitting q <$> ns) ≡ₚ (filter (on_nodes ns) q).*1.
Proof.
  induction 1 as [|n ns Hn _ IH]; cbn [fmap list_fmap concat].
  - replace (filter (on_nodes []) q) with (@nil (nat * Req)); [done|]. symmetry. apply filter_nobody.
    apply Forall_forall. intros x _. unfold on_nodes. destruct (last_node x.2); [apply not_elem_of_nil|auto].
  - rewrite IH. clear IH. unfold sitting. rewrite <- fmap_app. apply fmap_Permutation.
    induction q as [|x q IH]; [done|]. rewrite !filter_cons. pose proof (on_nodes_cons n ns x) as Hiff.
    destruct (decide (sits (Some n) x)) as [H1|H1], (decide (on_nodes ns x)) as [H2|H2],
      (decide (on_nodes (n :: ns) x)) as [H3|H3]; try (exfalso; tauto); cbn.
    + exfalso. unfold sits in H1. unfold on_nodes in H2. by rewrite H1 in H2.
    + by rewrite IH.
    + rewrite <- IH. by rewrite <- Permutation_middle.
    + done.
Qed.

(** The weight of a subtree: how many requests wait in it *)
Definition waiting q (t : rose) : Z := len (filter (on_nodes (flat t)) q).

Lemma load_waiting q t : NoDup (flat t) → load (len <$> CachePolicy.group_by_node q) t = waiting q t.
Proof.
  intros Hnd. unfold load, waiting.
  assert (El : ∀ n, CachePolicy.weight_of (len <$> CachePolicy.group_by_node q) n = len (sitting q n)).
  { intros n. rewrite <- group_node. unfold CachePolicy.weight_of, CachePolicy.reqs_of_node. rewrite lookup_fmap.
    by destruct (_ !! Some n). }
  rewrite (list_fmap_ext _ (λ n, len (sitting q n)) (flat t)) by (intros; apply El).
  pose proof (sitting_cover q (flat t) Hnd) as Hc. apply Permutation_length in Hc. rewrite length_fmap in Hc.
  unfold len at 2. rewrite <- Hc. clear. induction (flat t) as [|n ns IH]; [done|].
  cbn [fmap list_fmap concat]. rewrite length_app, Nat2Z.inj_add, <- IH. done.
Qed.

Lemma subtree_nodup s t : subtree s t → NoDup (flat t) → NoDup (flat s).
Proof.
  induction 1 as [|n ts t Ht _ IH]; [done|]. cbn [flat]. intros [Hnd _]%NoDup_app. apply IH.
  apply list_elem_of_split in Ht as (l1 & l2 & ->). rewrite fmap_app, concat_app in Hnd. cbn in Hnd.
  apply NoDup_app in Hnd as (_ & _ & Hnd). by apply NoDup_app in Hnd as [? _].
Qed.
End Group.

Section Dfs.
Context `{Runtime} `{DictOrder}.

(** The order is the depth-first order by the number of waiting requests. *)
Lemma sort_by_dfs_weight_ok c P Hs q :
  radix_ok (st c) P Hs →
  (∀ x, x ∈ q → ∃ n, last_node x.2 = Some n ∧ is_Some (P !! n)) →
  ∃ t, tree_at c P (rc_root c) t ∧
    CachePolicy._sort_by_dfs_weight q c = (Ok (dfs (waiting q) (CachePolicy.group_by_node q) t), c) ∧
    dfs (waiting q) (CachePolicy.group_by_node q) t ≡ₚ q.*1.
Proof.
  intros HO Hq. pose proof (co_tree _ _ _ (proj1 HO)) as HT.
  destruct (tree_at_exists c P Hs HO (rc_root c)) as [t T]; [by exists root_path; exact (tree_root _ _ _ _ HT)|].
  exists t. split; [done|]. pose proof (ta_height _ _ _ _ T) as Hh. pose proof (below_le c P Hs HO (rc_root c)) as Hb.
  assert (Hf : (height t ≤ CachePolicy.depth_fuel c)%nat) by (unfold CachePolicy.depth_fuel; lia).
  set (L := CachePolicy.group_by_node q). split.
  - unfold CachePolicy._sort_by_dfs_weight. rewrite (bind_ok _ _ c c c) by done. cbv zeta. fold L.
    pose proof (calc_weight_rose c t (ta_rep _ _ _ _ T) _ (len <$> L) Hf) as E1.
    pose proof (get_dfs_rose c (weigh t (len <$> L)) L t (ta_rep _ _ _ _ T) _ [] Hf) as E2.
    rewrite (ta_root _ _ _ _ T) in E1, E2. rewrite (bind_ok _ _ _ _ _ E1), E2. do 2 f_equal. cbn [app]. apply dfs_ext.
    intros s Hsub. unfold by_weight. rewrite (we_loads _ _ _ (weigh_ok t (len <$> L) (ta_nodup _ _ _ _ T)) s Hsub).
    apply load_waiting. by eapply subtree_nodup, T.
  - rewrite dfs_perm. rewrite (list_fmap_ext _ (sitting q) (flat t)) by (intros; apply group_node).
    rewrite sitting_cover by apply T. replace (filter (on_nodes (flat t)) q) with q; [done|].
    symmetry. clear -Hq T HO. induction q as [|x q IH]; [done|]. rewrite filter_cons_True.
    + f_equal. apply IH. intros y Hy. apply Hq. by apply list_elem_of_further.
    + destruct (Hq x) as (n & En & [pn Hn]); [apply list_elem_of_here|]. unfold on_nodes. rewrite En.
      by eapply tree_complete.
Qed.
End Dfs.

(** ** Matching the queue *)

Section Match.
Context `{Runtime} (check_threshold deprioritize_threshold : Z).
Implicit Types (r : Req) (D : gset string).

Definition toks_of r : list Z := token_ids (CachePolicy.queue_key r).

(** Two requests of a namespace have their first [k] tokens in common. *)
Definition shares (k : Z) r0 r : Prop :=
  extra_key r0 = extra_key r ∧ ∃ ts, k ≤ len ts ∧ ts `prefix_of` toks_of r0 ∧ ts `prefix_of` toks_of r.

(** The request with its match in the cache with the paths [P] *)
Definition matched (ps : Z) (P P' : gmap Z Path) r r' : Prop := ∃ m ss node,
  r' = r <| prefix_indices := ss |> <| last_node := Some node |> ∧
  longest ps P (align ps (CachePolicy.queue_key r)) m ss ∧ is_Some (P' !! node).

Lemma matched_mono ps P P' P'' r r' : P' ⊆ P'' → matched ps P P' r r' → matched ps P P'' r r'.
Proof. intros Hsub (m & ss & node & E & Hl & [pn Hn]). exists m, ss, node. split_and!; try done. exists pn. by eapply lookup_weaken. Qed.

(** The tree of the queue knows prefixes of the requests [K] only. *)
Record queue_tree (K : list Req) (t : RadixCache) : Prop := {
  qt_page : rc_page_size t = 1;
  qt_ok : ∃ Q, radix_ok (st t) Q [] ∧
    ∀ e ts ss, cached 1 Q e ts ss → ts = [] ∨ ∃ r0, r0 ∈ K ∧ extra_key r0 = e ∧ ts `prefix_of` toks_of r0
}.

Lemma align_1 key : align 1 key = key.
Proof. done. Qed.

Lemma queue_match K t r :
  queue_tree K t → 0 < deprioritize_threshold →
  ∃ ss node t', Radix.match_prefix (CachePolicy.queue_key r) t = (Ok (ss, node), t') ∧ queue_tree K t' ∧
    (deprioritize_threshold ≤ len ss → ∃ r0, r0 ∈ K ∧ shares deprioritize_threshold r0 r).
Proof.
  intros [Hp (Q & HO & Hc)] Hthr.
  destruct (match_prefix_ok t Q [] (CachePolicy.queue_key r) HO) as (t' & Q' & node & m & ss & E & HO' & F & Hl & _).
  exists ss, node, t'. split; [done|]. destruct F as [F1 _ _ F4 _]. destruct F1 as (_ & Eps & _).
  change (rc_page_size t' = rc_page_size t) in Eps. change (st_ps (st t)) with (rc_page_size t) in F4.
  rewrite Hp in F4, Hl. split.
  - split; [congruence|]. exists Q'. split; [done|]. intros e ts ss' Hx. apply F4 in Hx. by eapply Hc.
  - intros Hge. destruct Hl as [L1 L2 L3 L4 _]. rewrite align_1 in *.
    assert (Hlt : len (take (Z.to_nat m) (token_ids (CachePolicy.queue_key r))) = m).
    { rewrite len_take. unfold Key.len in L2. lia. }
    destruct (Hc _ _ _ L1) as [E0|(r0 & Hr0 & Ee & Hpre)].
    + rewrite E0, len_nil in Hlt. lia.
    + exists r0. split; [done|]. split; [done|]. eexists. split; [|split; [exact Hpre|apply prefix_take]]. lia.
Qed.

Lemma queue_insert K t r :
  queue_tree K t →
  ∃ m t', Radix.insert (CachePolicy.queue_key r) (Some (times 0 (Key.len (CachePolicy.queue_key r)))) None t = (Ok m, t') ∧
    queue_tree (r :: K) t'.
Proof.
  intros [Hp (Q & HO & Hc)].
  destruct (insert_ok t Q [] (CachePolicy.queue_key r) (times 0 (Key.len (CachePolicy.queue_key r))) None HO)
    as (t' & Q' & m & ss & E & HO' & I).
  - rewrite Hp. apply Z.divide_1_l.
  - rewrite len_times. unfold Key.len. pose proof (len_nonneg (token_ids (CachePolicy.queue_key r))). lia.
  - exists m, t'. split; [done|]. destruct (in_same _ _ _ _ _ _ _ _ I) as (_ & Eps & _).
    change (rc_page_size t' = rc_page_size t) in Eps. split; [congruence|]. exists Q'. split; [done|].
    intros e ts ss' Hx. pose proof (in_cached _ _ _ _ _ _ _ _ I e ts ss') as Hiff.
    change (st_ps (st t)) with (rc_page_size t) in Hiff. rewrite Hp in Hiff. apply Hiff in Hx as [Hx|(_ & -> & Hpre & _)].
    + destruct (Hc e ts ss' Hx) as [?|(r0 & Hr0 & ?)]; [by left|]. right. exists r0. split; [by apply list_elem_of_further|done].
    + right. exists r. split; [apply list_elem_of_here|done].
Qed.

(** *** The loop over the queue *)

Section Loop.
Context (w0 : World RadixCache) (P0 : gmap Z Path) (Hs : list Z).
Let ps := rc_page_size (cache w0).

(** Who was put back, and for whom *)
Definition put_back (pre : list (nat * Req)) D : Prop :=
  ∀ x, x ∈ D → ∃ i j a b, (i < j)%nat ∧ pre !! i = Some a ∧ pre !! j = Some b ∧ rid b.2 = x ∧ (rid a.2 ∉ D) ∧
    len (prefix_indices b.2) ≤ check_threshold ∧ shares deprioritize_threshold a.2 b.2.

(** The queue up to here: the requests [pre] with their matches, of which the
    tree of the queue knows [K] *)
Record progress (pre : list (nat * Req)) (K : list Req) D (k : Ranking) : Prop := {
  pg_world : ∃ h c, rk_world k = w0 <| heap := h |> <| cache := c |>;
  pg_page : rc_page_size (cache (rk_world k)) = ps;
  pg_cache : ∃ P, radix_ok (st (cache (rk_world k))) P Hs ∧ P0 ⊆ P ∧
    (∀ e ts ss, cached ps P e ts ss ↔ cached ps P0 e ts ss) ∧
    ∀ x, x ∈ pre → heap (rk_world k) !! x.1 = Some x.2 ∧ ∃ r, heap w0 !! x.1 = Some r ∧ matched ps P0 P r x.2;
  pg_rest : ∀ id, id ∉ pre.*1 → heap (rk_world k) !! id = heap w0 !! id;
  pg_tree : queue_tree K (waiting_queue_radix_tree k);
  pg_kept : ∀ r0, r0 ∈ K → (rid r0 ∉ D) ∧ ∃ id, (id, r0) ∈ pre;
  pg_back : put_back pre D
}.

Lemma put_back_snoc pre x D : put_back pre D → put_back (pre ++ [x]) D.
Proof.
  intros Hb y Hy. destruct (Hb y Hy) as (i & j & a & b & Hij & Ha & Hb' & Hrest). exists i, j, a, b.
  split_and!; try apply Hrest; [done|by apply lookup_app_l_Some..].
Qed.

(** The match of one request in the cache *)
Lemma match_cache pre K D k id r :
  progress pre K D k → id ∉ pre.*1 → heap (rk_world k) !! id = Some r →
  ∃ ss node c' r', r' = r <| prefix_indices := ss |> <| last_node := Some node |> ∧
    Radix.match_prefix (CachePolicy.queue_key r) (cache (rk_world k)) = (Ok (ss, node), c') ∧
    let w' := (rk_world k) <| cache := c' |> <| heap ::= <[id := r']> |> in
    (∃ h c, w' = w0 <| heap := h |> <| cache := c |>) ∧ rc_page_size (cache w') = ps ∧
    (∃ P, radix_ok (st (cache w')) P Hs ∧ P0 ⊆ P ∧ (∀ e ts ss, cached ps P e ts ss ↔ cached ps P0 e ts ss) ∧
       ∀ x, x ∈ pre ++ [(id, r')] → heap w' !! x.1 = Some x.2 ∧ ∃ r, heap w0 !! x.1 = Some r ∧ matched ps P0 P r x.2) ∧
    (∀ i, i ∉ (pre ++ [(id, r')]).*1 → heap w' !! i = heap w0 !! i).
Proof.
  intros [(h & c & Ew) Hp (P & HO & Hsub & Hca & Hpre) Hrest _ _ _] Hid Hr.
  destruct (match_prefix_ok _ P Hs (CachePolicy.queue_key r) HO) as (c' & P' & node & m & ss & E & HO' & F & Hl & pn & Hn & _).
  destruct F as [(_ & Eps & _) _ Fsub Fca _]. change (rc_page_size c' = rc_page_size (cache (rk_world k))) in Eps.
  change (st_ps (st (cache (rk_world k)))) with (rc_page_size (cache (rk_world k))) in Fca. rewrite Hp in Hl, Fca, Eps.
  assert (Hr0 : heap w0 !! id = Some r) by (by rewrite <- (Hrest id Hid)).
  set (r' := r <| prefix_indices := ss |> <| last_node := Some node |>). exists ss, node, c', r'.
  split; [done|]. split; [done|]. cbv zeta. split_and!.
  - rewrite Ew. eexists _, _. by destruct w0.
  - rsimpl. done.
  - exists P'. split; [done|]. split; [by etrans|]. split; [intros; by rewrite Fca|].
    intros x Hx. apply elem_of_app in Hx as [Hx|Hx].
    + destruct (Hpre x Hx) as (H1 & r1 & Hr1 & Hm). split.
      * rsimpl. rewrite lookup_insert_ne; [done|]. intros ->. apply Hid. by apply (list_elem_of_fmap_2 fst).
      * exists r1. split; [done|]. by eapply matched_mono.
    + apply list_elem_of_singleton in Hx as ->. cbn [fst snd]. split; [rsimpl; apply lookup_insert_eq|].
      exists r. split; [done|]. exists m, ss, node. split_and!; [done| |by exists pn].
      eapply longest_iff; [exact Hca|exact Hl].
  - intros i Hi. rewrite fmap_app in Hi. apply not_elem_of_app in Hi as [Hi1 Hi2]. rsimpl.
    rewrite lookup_insert_ne; [by apply Hrest|]. intros <-. apply Hi2. cbn. apply list_elem_of_here.
Qed.

Lemma match_one_ok pre K D k id r :
  0 < deprioritize_threshold → progress pre K D k → id ∉ pre.*1 → heap (rk_world k) !! id = Some r →
  (∀ x, x ∈ pre → rid x.2 ≠ rid r) → rid r ∉ D →
  ∃ r' K' D' k', CachePolicy.match_one check_threshold deprioritize_threshold D id k = (Ok D', k') ∧
    rid r' = rid r ∧ (∀ x, x ∈ D' → x ∈ D ∨ x = rid r) ∧ progress (pre ++ [(id, r')]) K' D' k'.
Proof.
  intros Hthr G Hid Hr Hrid HrD.
  destruct (match_cache pre K D k id r G Hid Hr) as (ss & node & c' & r' & Er' & Em & Hw & Hpg & Hc & Hrest).
  set (w' := (rk_world k) <| cache := c' |> <| heap ::= <[id := r']> |>) in *.
  set (t := waiting_queue_radix_tree k). set (k1 := mkRanking w' t).
  assert (Ekey : CachePolicy.queue_key r' = CachePolicy.queue_key r) by (by rewrite Er').
  assert (Erid : rid r' = rid r) by (by rewrite Er').
  assert (Essr : prefix_indices r' = ss) by (by rewrite Er').
  unfold CachePolicy.match_one.
  rewrite (bind_ok _ _ k r k) by (unfold CachePolicy.in_world, req_at; rewrite Hr; by destruct k).
  set (k0 := mkRanking ((rk_world k) <| cache := c' |>) t).
  rewrite (bind_ok _ _ k (ss, node) k0) by (unfold CachePolicy.in_world, Radix.on_cache; by rewrite Em).
  assert (Eu : CachePolicy.in_world (upd_req id (λ r, r <| prefix_indices := ss |> <| last_node := Some node |>)) k0 = (Ok tt, k1)).
  { unfold CachePolicy.in_world, upd_req. rewrite (bind_ok _ _ (rk_world k0) r (rk_world k0)).
    - unfold k1, w'. by rewrite Er'.
    - unfold req_at. change (heap (rk_world k0)) with (heap (rk_world k)). by rewrite Hr. }
  rewrite (bind_ok _ _ _ _ _ Eu).
  assert (Hold : ∀ r0, r0 ∈ K → ∃ i, (i, r0) ∈ pre ++ [(id, r')]).
  { intros r0 Hr0. destruct (pg_kept _ _ _ _ G r0 Hr0) as (_ & i & Hi). exists i. apply elem_of_app. by left. }
  destruct (Z.leb_spec (len ss) check_threshold) as [Hle|Hgt].
  2:{ exists r', K, D, k1. split_and!; [done|done|by left|]. split; try done; [apply G| |by apply put_back_snoc, G].
      intros r0 Hr0. split; [by eapply pg_kept|auto]. }
  destruct (queue_match K t r (pg_tree _ _ _ _ G) Hthr) as (ss2 & n2 & t2 & E2 & Q2 & Hsh).
  set (k2 := mkRanking w' t2).
  rewrite (bind_ok _ _ k1 (ss2, n2) k2) by (unfold CachePolicy.in_queue_tree, k1; cbn [waiting_queue_radix_tree rk_world]; by rewrite E2).
  destruct (Z.leb_spec deprioritize_threshold (len ss2)) as [Hge|Hlt].
  - exists r', K, ({[rid r]} ∪ D), k2. split_and!; [done|done|set_solver|]. destruct (Hsh Hge) as (r0 & Hr0 & Hs0).
    assert (Hne : ∀ r1, r1 ∈ K → rid r1 ∉ ({[rid r]} ∪ D : gset string)).
    { intros r1 Hr1. destruct (pg_kept _ _ _ _ G r1 Hr1) as (Hn & i & Hi). pose proof (Hrid _ Hi). set_solver. }
    split; try done; [intros r1 Hr1; auto|]. intros x Hx. apply elem_of_union in Hx as [->%elem_of_singleton|Hx].
    + destruct (pg_kept _ _ _ _ G r0 Hr0) as (_ & i & Hi). apply list_elem_of_lookup_1 in Hi as [n Hn].
      apply lookup_lt_Some in Hn as Hlt. exists n, (length pre), (i, r0), (id, r').
      split_and!; [done|by apply lookup_app_l_Some|by rewrite lookup_app_r, Nat.sub_diag by done|done|by apply Hne|cbn [snd]; by rewrite Essr|].
      destruct Hs0 as (He & ts & Ht). split; [by rewrite Er'|]. exists ts. unfold toks_of. cbn [snd]. by rewrite Ekey.
    + destruct (put_back_snoc pre (id, r') D (pg_back _ _ _ _ G) x Hx) as (i & j & a & b & Hij & Ha & Hb & Hx' & Hn & Hrs).
      exists i, j, a, b. split_and!; try done; try apply Hrs. apply not_elem_of_union. split; [|done].
      rewrite not_elem_of_singleton. apply lookup_lt_Some in Hb as Hlt'. rewrite length_app in Hlt'. cbn in Hlt'.
      apply Hrid. rewrite lookup_app_l in Ha by lia. by eapply list_elem_of_lookup_2.
  - destruct (queue_insert K t2 r' Q2) as (m & t3 & E3 & Q3). rewrite Ekey in E3. set (k3 := mkRanking w' t3).
    rewrite (bind_ok _ _ k2 m k3) by (unfold CachePolicy.in_queue_tree, k2; cbn [waiting_queue_radix_tree rk_world]; by rewrite E3).
    exists r', (r' :: K), D, k3. split_and!; [done|done|by left|]. split; try done; [|by apply put_back_snoc, G].
    intros r0 [->|Hr0]%elem_of_cons; [|split; [by eapply pg_kept|auto]].
    split; [by rewrite Erid|]. exists id. apply elem_of_app. right. apply list_elem_of_here.
Qed.

(** The whole queue *)
Lemma match_all_ok q : ∀ pre K D k,
  0 < deprioritize_threshold → progress pre K D k → NoDup (pre.*1 ++ q) →
  (∀ x, x ∈ D → ∃ y, y ∈ pre ∧ rid y.2 = x) →
  (∀ id, id ∈ q → is_Some (heap w0 !! id)) →
  (∀ i j r r', i ∈ pre.*1 ++ q → j ∈ pre.*1 ++ q → heap w0 !! i = Some r → heap w0 !! j = Some r' → rid r = rid r' → i = j) →
  ∃ pre' K' D' k', foldM (CachePolicy.match_one check_threshold deprioritize_threshold) D q k = (Ok D', k') ∧
    pre'.*1 = pre.*1 ++ q ∧ progress pre' K' D' k'.
Proof.
  induction q as [|id q IH]; intros pre K D k Hthr G Hnd HD Hin Hrid.
  { exists pre, K, D, k. rewrite app_nil_r. done. }
  destruct (Hin id) as [r Hr]; [apply list_elem_of_here|].
  pose proof Hnd as Hnd0. apply NoDup_app in Hnd as (_ & Hdis & _).
  assert (Hid : id ∉ pre.*1) by (intros Hx; apply (Hdis id Hx), list_elem_of_here).
  assert (Hpre : ∀ x, x ∈ pre → rid x.2 ≠ rid r).
  { intros x Hx E. destruct (pg_cache _ _ _ _ G) as (P & _ & _ & _ & Hall). destruct (Hall x Hx) as (_ & r1 & Hr1 & m & ss & n & Em & _).
    apply Hid. rewrite <- (Hrid x.1 id r1 r); [by apply (list_elem_of_fmap_2 fst)| | |done|done|].
    - apply elem_of_app. left. by apply (list_elem_of_fmap_2 fst).
    - apply elem_of_app. right. apply list_elem_of_here.
    - rewrite <- E, Em. by rsimpl. }
  destruct (match_one_ok pre K D k id r Hthr G Hid) as (r' & K' & D' & k' & E & Er & HD' & G'); [|done| |].
  { by rewrite (pg_rest _ _ _ _ G id Hid). }
  { intros Hx. destruct (HD _ Hx) as (y & Hy & Ey). by apply (Hpre y Hy). }
  cbn [foldM]. rewrite E.
  destruct (IH (pre ++ [(id, r')]) K' D' k') as (pre' & K2 & D2 & k2 & E2 & Ei & G2); try done.
  - rewrite fmap_app, <- app_assoc. done.
  - intros x Hx. destruct (HD' x Hx) as [Hx'| ->].
    + destruct (HD x Hx') as (y & Hy & Ey). exists y. split; [apply elem_of_app; by left|done].
    + exists (id, r'). split; [apply elem_of_app; right; apply list_elem_of_here|done].
  - intros i Hi. apply Hin. by apply list_elem_of_further.
  - rewrite fmap_app, <- app_assoc. exact Hrid.
  - exists pre', K2, D2, k2. split; [done|]. split; [|done]. by rewrite Ei, fmap_app, <- app_assoc.
Qed.
End Loop.

(** *** [_compute_prefix_matches] *)

(** The tree of the queue before a round: any tree of pages of one token *)
Definition tree_ready (t : RadixCache) : Prop :=
  (∀ n, is_Some (rc_nodes t !! n) → n < rc_counter t) ∧ rc_page_size t = 1 ∧ rc_disable t = false ∧
  rc_enable_kv_cache_events t = false.

(** The requests of the queue *)
Definition queued (w : World RadixCache) (q : list nat) : Prop :=
  NoDup q ∧ (∀ id, id ∈ q → is_Some (heap w !! id)) ∧
  ∀ i j r r', i ∈ q → j ∈ q → heap w !! i = Some r → heap w !! j = Some r' → rid r = rid r' → i = j.

Lemma compute_prefix_matches_ok w t P Hs q :
  0 < deprioritize_threshold → radix_ok (st (cache w)) P Hs → tree_ready t → queued w q →
  ∃ pre K D k', CachePolicy._compute_prefix_matches check_threshold deprioritize_threshold q (mkRanking w t) = (Ok D, k') ∧
    pre.*1 = q ∧ progress w P Hs pre K D k'.
Proof.
  intros Hthr HO (Hf & Hp & Hd & Hev) (Hnd & Hin & Hrid). unfold CachePolicy._compute_prefix_matches.
  destruct (reset_ok t) as (t1 & E & Ep & HQ); [done|lia|done|done|].
  rewrite (bind_ok _ _ _ tt (mkRanking w t1)) by (unfold CachePolicy.in_queue_tree; cbn [waiting_queue_radix_tree rk_world]; by rewrite E).
  destruct (match_all_ok w P Hs q [] [] ∅ (mkRanking w t1)) as (pre & K & D & k' & E' & Ei & G); try done.
  - split; try done.
    + exists (heap w), (cache w). by destruct w.
    + exists P. split_and!; try done. by intros x ?%elem_of_nil.
    + split; [by cbn; rewrite Ep|]. eexists. split; [exact HQ|]. intros e ts ss Hc. left. by eapply root_cached.
    + by intros r0 ?%elem_of_nil.
  - exists pre, K, D, k'. done.
Qed.

(** The queue with its requests after the round *)
Lemma progress_zip w P Hs pre K D k :
  progress w P Hs pre K D k → at_heap (rk_world k) pre.*1 pre.*2 ∧ zip pre.*1 pre.*2 = pre.
Proof.
  intros G. split; [|apply zip_fst_snd]. destruct (pg_cache _ _ _ _ _ _ _ G) as (Q & _ & _ & _ & Hall).
  apply Forall2_same_length_lookup_2; [by rewrite !length_fmap|].
  intros j id r Hj Hr. apply list_lookup_fmap_Some in Hj as (x & -> & Hx).
  apply list_lookup_fmap_Some in Hr as (y & -> & Hy). assert (y = x) as -> by congruence.
  apply Hall. by eapply list_elem_of_lookup_2.
Qed.
End Match.
