(* ===== verification/QueueClaims.v ===== *)
(** * Claims on the cache-aware orders of the queue *)

From S2P Require Import Prelude HeapQ PyFloat Allocator Request ReqPool LLM42Info Demo World WorkerFacts Radix RadixTree RadixState RadixFacts RadixOps RadixHold RadixClaims Policy QueueOrder QueueFacts.

(** ** Longest prefix first *)

(** [x] may stand before [y]: requests that were put back come last, the
    others by the length of their cached prefix. *)
Definition lpm_before (D : gset string) (x y : nat * Req) : Prop :=
  rid y.2 ∉ D → (rid x.2 ∉ D) ∧ len (prefix_indices y.2) ≤ len (prefix_indices x.2).

Section Lpm.
Implicit Types (D : gset string) (x y : nat * Req).

Definition lpm_lt D x y : bool :=
  CachePolicy.key_lt (CachePolicy.longest_prefix_key D x.2) (CachePolicy.longest_prefix_key D y.2).

Lemma lpm_lt_spec D x y :
  lpm_lt D x y = true ↔ (rid x.2 ∉ D) ∧ (rid y.2 ∉ D → len (prefix_indices y.2) < len (prefix_indices x.2)).
Proof.
  unfold lpm_lt, CachePolicy.longest_prefix_key. destruct (bool_decide (rid x.2 ∉ D)) eqn:Ex, (bool_decide (rid y.2 ∉ D)) eqn:Ey;
    [apply bool_decide_eq_true in Ex|apply bool_decide_eq_true in Ex|apply bool_decide_eq_false in Ex..];
    [apply bool_decide_eq_true in Ey|apply bool_decide_eq_false in Ey|..]; cbn.
  - rewrite Z.ltb_lt. split; [intros; split; [done|lia]|intros [_ Hy]; specialize (Hy Ey); lia].
  - split; [by intros _; split|done].
  - split; [done|]. by intros [? _].
  - split; [done|]. by intros [? _].
Qed.

Lemma lpm_lt_false D x y :
  lpm_lt D x y = false ↔ (rid x.2 ∉ D → (rid y.2 ∉ D) ∧ len (prefix_indices x.2) ≤ len (prefix_indices y.2)).
Proof.
  rewrite <- not_true_iff_false, lpm_lt_spec. split.
  - intros Hn Hx. destruct (decide (rid y.2 ∈ D)) as [Hy|Hy]; [exfalso; apply Hn; by split|]. split; [done|].
    destruct (Z.le_gt_cases (len (prefix_indices x.2)) (len (prefix_indices y.2))) as [?|?]; [done|].
    exfalso. apply Hn. split; [done|lia].
  - intros Hx [Hx1 Hx2]. destruct (Hx Hx1) as [Hy Hl]. specialize (Hx2 Hy). lia.
Qed.

Lemma lpm_asym D x y : lpm_lt D x y = true → lpm_lt D y x = false.
Proof. rewrite lpm_lt_spec, lpm_lt_false. intros [H1 H2] H3. specialize (H2 H3). split; [done|lia]. Qed.

Lemma lpm_trans D x y z : lpm_lt D x y = false → lpm_lt D y z = false → lpm_lt D x z = false.
Proof. rewrite !lpm_lt_false. intros H1 H2 H3. destruct (H1 H3) as [H4 H5], (H2 H4) as [H6 H7]. split; [done|lia]. Qed.

(** Requests of equal rank *)
Definition ranked D (k : option Z) x : Prop := CachePolicy.longest_prefix_key D x.2 = k.
#[export] Instance ranked_dec D k x : Decision (ranked D k x).
Proof. unfold ranked. apply _. Defined.

Lemma ranked_lt D k x y : ranked D k x → ranked D k y → lpm_lt D x y = false.
Proof. unfold ranked, lpm_lt. intros -> ->. destruct k as [n|]; cbn; [apply Z.ltb_irrefl|done]. Qed.

Lemma sort_by_longest_prefix_ok D q :
  let q' := CachePolicy._sort_by_longest_prefix q D in
  q' ≡ₚ q ∧ StronglySorted (lpm_before D) q' ∧ ∀ k, filter (ranked D k) q' = filter (ranked D k) q.
Proof.
  intros q'. split; [apply sort_stable_perm|]. split.
  - pose proof (sort_stable_sorted (lpm_lt D) (lpm_asym D) (lpm_trans D) q) as Hs.
    change (StronglySorted (before (lpm_lt D)) q') in Hs. clearbody q'. induction Hs as [|x q1 _ IH Hx]; constructor; [done|].
    eapply Forall_impl; [exact Hx|]. intros y Hxy. exact (proj1 (lpm_lt_false D y x) Hxy).
  - intros k. apply (sort_stable_filter (lpm_lt D) (lpm_asym D) (lpm_trans D)). apply ranked_lt.
Qed.
End Lpm.

(** ** A queue of four requests

    Requests 0 and 1 have a page in the cache, requests 2 and 3 have none but
    share their prompt. *)

Module DemoQueue.

#[local] Existing Instance DemoRadix.runtime.

Definition queued_req (id : string) (prompt : list Z) : Req := Demo.req id None prompt [] 0.
Definition reqs : list Req :=
  [queued_req "q0" [9; 9; 9; 1]; queued_req "q1" [1; 2; 7; 8]; queued_req "q2" [9; 9; 9; 2]; queued_req "q3" [1; 2; 3; 4]].
Definition ids : list nat := [0%nat; 1%nat; 2%nat; 3%nat].

Definition world : World RadixCache := DemoRadix.the_world <| heap := list_to_map (zip ids reqs) |> <| cache := DemoRadix.shared |>.

Definition queue_tree : RadixCache :=
  match CachePolicy.create_simulated 0 0 with Ok c => c | Raise _ => DemoRadix.empty end.
Definition ranking : Ranking := mkRanking world queue_tree.

#[export] Program Instance dict_order : DictOrder := {| child_values x := (map_to_list (n_children x)).*2 |}.
Next Obligation. done. Qed.

Definition lpm : list nat * bool := Eval vm_compute in
  match (CachePolicy.calc_priority 2 2 LPM ids ranking).1 with Ok x => x | Raise _ => ([], false) end.
Definition dfs_weight : list nat * bool := Eval vm_compute in
  match (CachePolicy.calc_priority 2 2 DFS_WEIGHT ids ranking).1 with Ok x => x | Raise _ => ([], false) end.

Lemma queue_tree_ready : tree_ready queue_tree.
Proof.
  split; [|by split_and!; vm_compute]. intros n Hn.
  assert (Hd : dom (rc_nodes queue_tree) = {[0]}) by (apply (bool_decide_unpack _); by vm_compute).
  apply elem_of_dom in Hn. rewrite Hd in Hn. apply elem_of_singleton in Hn as ->. by vm_compute.
Qed.

Lemma ids_queued : queued world ids.
Proof.
  assert (Hc : ∀ id r, heap world !! id = Some r → (id, r) ∈ zip ids reqs).
  { intros id r Hr. apply elem_of_list_to_map; [|exact Hr]. apply (bool_decide_unpack _). by vm_compute. }
  split; [apply (bool_decide_unpack _); by vm_compute|]. split.
  - intros id Hid. repeat (apply elem_of_cons in Hid as [->|Hid]; [by eexists|]). by apply elem_of_nil in Hid.
  - intros i j r r' _ _ Hr Hr' E. apply Hc in Hr, Hr'.
    repeat (apply elem_of_cons in Hr as [[= -> ->]|Hr]; [|]); try by apply elem_of_nil in Hr.
    all: repeat (apply elem_of_cons in Hr' as [[= -> ->]|Hr']; [done|]); by apply elem_of_nil in Hr'.
Qed.

Example lpm_order : lpm = ([3; 1; 0; 2]%nat, true).
Proof. reflexivity. Qed.
Example dfs_order : dfs_weight = ([3; 1; 0; 2]%nat, true).
Proof. reflexivity. Qed.
End DemoQueue.

(** ** Claims *)

Module QueueClaims.

(** C27: Longest prefix first.  A queue of more than 128 requests stays as it
    is, first come first served, and nothing is matched.  Otherwise the new
    order has the same requests.  Every request was matched with the longest
    prefix of it that is cached; the requests stand in the order of the
    lengths of these prefixes, those put back come last, and requests of
    equal rank stay in the order they arrived.  A request is put back only
    for the sake of an earlier one that is not, in the same namespace and
    with the same first tokens. *)
Theorem longest_prefix_first `{Runtime} `{DictOrder} check threshold (w : World RadixCache) t P Hs q :
  0 < threshold → radix_ok (st (cache w)) P Hs → tree_ready t → queued w q →
  (128 < len q →
     CachePolicy.calc_priority check threshold LPM q (mkRanking w t) = (Ok (q, false), mkRanking w t)) ∧
  (len q ≤ 128 →
   ∃ qs D k', CachePolicy.calc_priority check threshold LPM q (mkRanking w t) = (Ok (qs.*1, true), k') ∧
    qs.*1 ≡ₚ q ∧ StronglySorted (lpm_before D) qs ∧
    (∃ P', radix_ok (st (cache (rk_world k'))) P' Hs ∧
       ∀ x, x ∈ qs → heap (rk_world k') !! x.1 = Some x.2 ∧
         ∃ r, heap w !! x.1 = Some r ∧ matched (rc_page_size (cache w)) P P' r x.2) ∧
    ∃ pre, pre ≡ₚ qs ∧ pre.*1 = q ∧ (∀ k, filter (ranked D k) qs = filter (ranked D k) pre) ∧
      put_back check threshold pre D).
Proof.
  intros Hthr HO Ht Hq. split; intros Hlen.
  { unfold CachePolicy.calc_priority, CachePolicy._determine_active_policy. by destruct (Z.ltb_spec 128 (len q)); [|lia]. }
  destruct (compute_prefix_matches_ok check threshold w t P Hs q Hthr HO Ht Hq) as (pre & K & D & k' & E & Ei & G).
  destruct (progress_zip _ _ _ _ _ _ _ _ _ G) as [F Hz].
  destruct (sort_by_longest_prefix_ok D pre) as (Hp & Hs' & Hst). set (qs := CachePolicy._sort_by_longest_prefix pre D) in *.
  exists qs, D, k'. split_and!.
  - unfold CachePolicy.calc_priority, CachePolicy._determine_active_policy.
    destruct (Z.ltb_spec 128 (len q)); [lia|]. rewrite (bind_ok _ _ _ _ _ E). rewrite Ei in F, Hz.
    rewrite (bind_ok _ _ k' pre.*2 k') by (unfold CachePolicy.in_world; rewrite (reqs_at_ok _ _ _ F); by destruct k').
    rewrite Hz. done.
  - by rewrite Hp, Ei.
  - done.
  - destruct (pg_cache _ _ _ _ _ _ _ _ _ G) as (P' & HO' & _ & _ & Hall). exists P'. split; [done|].
    intros x Hx. rewrite Hp in Hx. by apply Hall.
  - exists pre. split_and!; [by rewrite Hp|done|done|apply G].
Qed.

#[local] Existing Instance DemoRadix.runtime.
#[local] Existing Instance DemoQueue.dict_order.

Lemma longest_prefix_first_witness :
  ∃ (qs : list (nat * Req)) k', CachePolicy.calc_priority 2 2 LPM DemoQueue.ids DemoQueue.ranking = (Ok (qs.*1, true), k') ∧
    qs.*1 ≡ₚ DemoQueue.ids.
Proof.
  destruct DemoRadix.shared_ok as (P & HO & _).
  destruct (longest_prefix_first 2 2 DemoQueue.world DemoQueue.queue_tree P [] DemoQueue.ids) as [_ Hshort].
  - lia.
  - exact HO.
  - exact DemoQueue.queue_tree_ready.
  - exact DemoQueue.ids_queued.
  - destruct Hshort as (qs & D & k' & E & Hp & _); [by vm_compute|].
    exists qs, k'. split; [exact E|exact Hp].
Defined.

(** C28: Depth first by weight.  The new order is the depth-first order of the
    radix tree, in which the child with more waiting requests below it comes
    first and a node comes after its children; the requests of a node stay in
    the order they arrived, and no request is lost or doubled. *)
Theorem dfs_weight_is_depth_first `{Runtime} `{DictOrder} check threshold (w : World RadixCache) t P Hs q :
  0 < threshold → radix_ok (st (cache w)) P Hs → tree_ready t → queued w q →
  ∃ q' k' pre tr, CachePolicy.calc_priority check threshold DFS_WEIGHT q (mkRanking w t) = (Ok (q', true), k') ∧
    q' ≡ₚ q ∧ at_heap (rk_world k') q pre.*2 ∧ pre.*1 = q ∧
    represents (cache (rk_world k')) tr ∧ root_of tr = rc_root (cache (rk_world k')) ∧
    q' = dfs (waiting pre) (CachePolicy.group_by_node pre) tr.
Proof.
  intros Hthr HO Ht Hq.
  destruct (compute_prefix_matches_ok check threshold w t P Hs q Hthr HO Ht Hq) as (pre & K & D & k' & E & Ei & G).
  destruct (progress_zip _ _ _ _ _ _ _ _ _ G) as [F Hz].
  destruct (pg_cache _ _ _ _ _ _ _ _ _ G) as (P' & HO' & _ & _ & Hall).
  destruct (sort_by_dfs_weight_ok (cache (rk_world k')) P' Hs pre HO') as (tr & T & Es & Hp).
  { intros x Hx. destruct (Hall x Hx) as (_ & r & _ & m & ss & node & Ex & _ & Hn). exists node. rewrite Ex. by rsimpl. }
  exists (dfs (waiting pre) (CachePolicy.group_by_node pre) tr), k', pre, tr.
  rewrite Ei in F, Hz. split_and!; try done; [|by rewrite Hp, Ei|apply T|apply T].
  unfold CachePolicy.calc_priority, CachePolicy._determine_active_policy. rewrite (bind_ok _ _ _ _ _ E).
  rewrite (bind_ok _ _ k' pre.*2 k') by (unfold CachePolicy.in_world; rewrite (reqs_at_ok _ _ _ F); by destruct k').
  rewrite Hz. set (q' := dfs _ _ _) in *.
  rewrite (bind_ok _ _ k' q' k'); [done|]. unfold CachePolicy.in_world, Radix.on_cache. rewrite Es.
  by destruct k' as [[] ?].
Qed.

Lemma dfs_weight_is_depth_first_witness :
  ∃ q' k', CachePolicy.calc_priority 2 2 DFS_WEIGHT DemoQueue.ids DemoQueue.ranking = (Ok (q', true), k') ∧
    q' ≡ₚ DemoQueue.ids.
Proof.
  destruct DemoRadix.shared_ok as (P & HO & _).
  destruct (dfs_weight_is_depth_first 2 2 DemoQueue.world DemoQueue.queue_tree P [] DemoQueue.ids)
    as (q' & k' & pre & tr & E & Hp & _).
  - lia.
  - exact HO.
  - exact DemoQueue.queue_tree_ready.
  - exact DemoQueue.ids_queued.
  - exists q', k'. split; [exact E|exact Hp].
Defined.
End QueueClaims.
