(* ===== verification/BatchFacts.v ===== *)
(** * A batch as a list of entries

    A [ScheduleBatch] is a structure of arrays: the requests, their rows,
    their lengths, the last tokens and the sampling parameters are tensors of
    their own.  [entries] is the list of structures it stands for; on it
    [filter_batch] is the filter of lists and [merge_batch] is concatenation. *)

From S2P Require Import Prelude PyFloat Allocator AllocatorFacts Request ReqPool LLM42Info World MemCommon LLM42Worker WorkerFacts BatchOps.

(** ** Gathering *)

Definition picked {A} (keep : list Z) (xs ys : list A) : Prop :=
  Forall2 (λ i y, xs !! Z.to_nat i = Some y) keep ys.

(** Indices of a list of length [n]. *)
Definition indices (n : nat) (keep : list Z) : Prop := Forall (λ i, 0 ≤ i < Z.of_nat n) keep.

Lemma gather_ok {A} (xs : list A) keep :
  indices (length xs) keep → ∃ ys, gather xs keep = Ok ys ∧ picked keep xs ys.
Proof.
  unfold gather. induction 1 as [|i keep Hi Hk (ys & E & P)]; [exists []; by split; [|constructor]|].
  destruct (getitem_lt xs i) as (y & Ey & Hy); [unfold len; lia|].
  exists (y :: ys). cbn [mapM]. rewrite Ey. cbn [mbind res_bind]. rewrite E.
  split; [done|by constructor].
Qed.

Lemma picked_lookup {A} keep (xs ys : list A) k i :
  picked keep xs ys → keep !! k = Some i → ys !! k = xs !! Z.to_nat i.
Proof. intros P Hk. destruct (Forall2_lookup_l _ _ _ _ _ P Hk) as (y & -> & ->). done. Qed.

Lemma picked_length {A} keep (xs ys : list A) : picked keep xs ys → length ys = length keep.
Proof. intros P. symmetry. by eapply Forall2_length. Qed.

Lemma indices_nth {A} (xs : list A) keep k i :
  indices (length xs) keep → keep !! k = Some i → (Z.to_nat i < length xs)%nat.
Proof. intros Hk Hi. eapply Forall_lookup in Hi; [|exact Hk]. cbn in Hi. lia. Qed.

(** ** Entries *)

Record Entry : Type := mkEntry {
  en_req : option nat;
  en_row : option Z;
  en_seq_len : option Z;
  en_seq_len_cpu : option Z;
  en_orig_seq_len : option Z;
  en_output_id : option Z;
  en_sampling : option float * option float * option Z * option float * option Z * option Z
}.

Definition entry_sampling (i : SamplingInfo) (j : nat) :=
  (temperatures i !! j, top_ps i !! j, top_ks i !! j, min_ps i !! j,
   sampling_seeds i ≫= (.!! j), deterministic_indices i !! j).

Definition entry (b : ScheduleBatch) (j : nat) : Entry :=
  mkEntry (b_reqs b !! j) (b_req_pool_indices b !! j) (b_seq_lens b !! j) (b_seq_lens_cpu b !! j)
    (b_orig_seq_lens b !! j) (b_output_ids b ≫= (.!! j))
    (match b_sampling_info b with
     | Some i => entry_sampling i j
     | None => (None, None, None, None, None, None)
     end).

Definition entries (b : ScheduleBatch) : list Entry := entry b <$> seq 0 (length (b_reqs b)).

Lemma entries_length b : length (entries b) = length (b_reqs b).
Proof. unfold entries. by rewrite length_fmap, length_seq. Qed.

Lemma entries_lookup b j : (j < length (b_reqs b))%nat → entries b !! j = Some (entry b j).
Proof. intros Hj. unfold entries. rewrite list_lookup_fmap, lookup_seq_lt by done. done. Qed.

(** The tensors of a batch have one element per request. *)
Record sampling_shape (n : nat) (i : SamplingInfo) : Prop := {
  ss_temperatures : length (temperatures i) = n;
  ss_top_ps : length (top_ps i) = n;
  ss_top_ks : length (top_ks i) = n;
  ss_min_ps : length (min_ps i) = n;
  ss_seeds : ∀ l, sampling_seeds i = Some l → length l = n;
  ss_det : length (deterministic_indices i) = n
}.

Record soa (b : ScheduleBatch) : Prop := {
  so_rows : length (b_req_pool_indices b) = length (b_reqs b);
  so_seq : length (b_seq_lens b) = length (b_reqs b);
  so_cpu : length (b_seq_lens_cpu b) = length (b_reqs b);
  so_orig : length (b_orig_seq_lens b) = length (b_reqs b);
  so_out : ∀ l, b_output_ids b = Some l → length l = length (b_reqs b);
  so_tops : b_return_logprob b = true →
    ∃ l, b_top_logprobs_nums b = Some l ∧ length l = length (b_reqs b);
  so_info : ∃ i, b_sampling_info b = Some i ∧ sampling_shape (length (b_reqs b)) i
}.

(** ** Filter *)

Lemma sampling_filter_ok n keep i :
  sampling_shape n i → indices n keep →
  ∃ i', Sampling.filter_batch keep i = Ok i' ∧ sampling_shape (length keep) i' ∧
    ∀ k x, keep !! k = Some x → entry_sampling i' k = entry_sampling i (Z.to_nat x).
Proof.
  intros [S1 S2 S3 S4 S5 S6] Hk. unfold Sampling.filter_batch.
  destruct (gather_ok (temperatures i) keep) as (t & E1 & P1); [by rewrite S1|].
  destruct (gather_ok (top_ps i) keep) as (p & E2 & P2); [by rewrite S2|].
  destruct (gather_ok (top_ks i) keep) as (q & E3 & P3); [by rewrite S3|].
  destruct (gather_ok (min_ps i) keep) as (m & E4 & P4); [by rewrite S4|].
  destruct (gather_ok (deterministic_indices i) keep) as (d & E6 & P6); [by rewrite S6|].
  rewrite E1, E2, E3, E4, E6. cbn [mbind res_bind].
  destruct (sampling_seeds i) as [l|] eqn:Es.
  - destruct (gather_ok l keep) as (l' & E5 & P5); [by rewrite (S5 l)|]. rewrite E5. cbn [mbind res_bind].
    eexists. split; [done|]. split.
    + split; cbn; try (by eapply picked_length). intros ? [= <-]. by eapply picked_length.
    + intros k x Hx. unfold entry_sampling. cbn. rewrite Es. cbn.
      by rewrite (picked_lookup _ _ _ _ _ P1 Hx), (picked_lookup _ _ _ _ _ P2 Hx),
        (picked_lookup _ _ _ _ _ P3 Hx), (picked_lookup _ _ _ _ _ P4 Hx),
        (picked_lookup _ _ _ _ _ P5 Hx), (picked_lookup _ _ _ _ _ P6 Hx).
  - cbn [mbind res_bind]. eexists. split; [done|]. split.
    + split; cbn; try (by eapply picked_length). done.
    + intros k x Hx. unfold entry_sampling. cbn. rewrite Es. cbn.
      by rewrite (picked_lookup _ _ _ _ _ P1 Hx), (picked_lookup _ _ _ _ _ P2 Hx),
        (picked_lookup _ _ _ _ _ P3 Hx), (picked_lookup _ _ _ _ _ P4 Hx), (picked_lookup _ _ _ _ _ P6 Hx).
Qed.

(** The flags of a batch cover its requests. *)
Definition logprob_flag (rs : list Req) (b : ScheduleBatch) : Prop :=
  existsb return_logprob rs = true → b_return_logprob b = true.

Lemma picked_existsb {A} (f : A → bool) keep xs ys :
  picked keep xs ys → existsb f ys = true → existsb f xs = true.
Proof.
  intros P (y & Hy & Hf)%existsb_exists. apply existsb_exists. exists y. split; [|done].
  apply list_elem_of_In in Hy. apply list_elem_of_In.
  apply list_elem_of_lookup_1 in Hy as [k Hk].
  destruct (Forall2_lookup_r _ _ _ _ _ P Hk) as (i & _ & Hi). by eapply list_elem_of_lookup_2.
Qed.

(** A batch restricted to the entries at [keep]. *)
Record restricted (keep : list Z) (b b' : ScheduleBatch) : Prop := {
  re_soa : soa b';
  re_entries : entries b' = (entry b ∘ Z.to_nat) <$> keep;
  re_logprob : b_return_logprob b = false → b_return_logprob b' = false
}.

Lemma keep_batch_ok keep rs b :
  soa b → length rs = length (b_reqs b) → indices (length (b_reqs b)) keep → logprob_flag rs b →
  ∃ b' rs', BatchOps.keep_batch keep rs b = Ok b' ∧ restricted keep b b' ∧
    picked keep rs rs' ∧ b_return_logprob b' = existsb return_logprob rs'.
Proof.
  intros [S1 S2 S3 S4 S5 S6 (info & S7 & S8)] Hrs Hk Hf. unfold BatchOps.keep_batch.
  destruct (gather_ok (b_reqs b) keep) as (ids & E0 & P0); [done|].
  destruct (gather_ok rs keep) as (rs' & Er & Pr); [by rewrite Hrs|].
  destruct (gather_ok (b_req_pool_indices b) keep) as (rows & E1 & P1); [by rewrite S1|].
  destruct (gather_ok (b_seq_lens b) keep) as (sl & E2 & P2); [by rewrite S2|].
  destruct (gather_ok (b_seq_lens_cpu b) keep) as (sc & E3 & P3); [by rewrite S3|].
  destruct (gather_ok (b_orig_seq_lens b) keep) as (so & E4 & P4); [by rewrite S4|].
  rewrite E0, Er, E1, E2, E3, E4. cbn [mbind res_bind].
  assert (Ho : ∃ out, match b_output_ids b with
      | Some l => l' ← gather l keep; Ok (Some l') | None => Ok None end = Ok out ∧
    (∀ l, out = Some l → length l = length keep) ∧
    ∀ k x, keep !! k = Some x → out ≫= (.!! k) = b_output_ids b ≫= (.!! Z.to_nat x)).
  { destruct (b_output_ids b) as [l|] eqn:El; [|by exists None].
    destruct (gather_ok l keep) as (l' & E5 & P5); [by rewrite (S5 l)|]. exists (Some l').
    rewrite E5. split; [done|]. split; [intros ? [= <-]; by eapply picked_length|].
    intros k x Hx. cbn. by eapply picked_lookup. }
  destruct Ho as (out & Eo & Lo & Po). rewrite Eo. cbn [mbind res_bind].
  assert (Ht : ∃ tops, (if existsb return_logprob rs' then
      l ← of_option TypeError (b_top_logprobs_nums b); l' ← gather l keep; Ok (Some l')
      else Ok None) = Ok tops ∧
    (existsb return_logprob rs' = true → ∃ l, tops = Some l ∧ length l = length keep)).
  { destruct (existsb return_logprob rs') eqn:Erl; [|by exists None].
    destruct S6 as (l & -> & Ll); [by apply Hf; eapply picked_existsb|].
    destruct (gather_ok l keep) as (l' & E5 & P5); [by rewrite Ll|]. exists (Some l'). cbn.
    rewrite E5. split; [done|]. intros _. exists l'. split; [done|by eapply picked_length]. }
  destruct Ht as (tops & Et & Lt). rewrite Et. cbn [mbind res_bind]. rewrite S7. cbn [of_option mbind res_bind].
  destruct (sampling_filter_ok _ keep info S8 Hk) as (info' & Ei & Si & Pi). rewrite Ei. cbn [mbind res_bind].
  eexists _, rs'. split; [reflexivity|]. split; [|split; [done|by rsimpl]].
  assert (L0 : length ids = length keep) by (by eapply picked_length).
  split.
  - split; rsimpl; rewrite ?L0; try (by eapply picked_length); try done. by exists info'.
  - apply list_eq_same_length with (n := length keep); [by rewrite length_fmap|rewrite entries_length; by rsimpl|].
    intros k x y Hk' Hx Hy.
    rewrite entries_lookup in Hx by (rsimpl; lia). injection Hx as <-.
    rewrite list_lookup_fmap in Hy. destruct (keep !! k) as [i|] eqn:Eik; [|done].
    injection Hy as <-. unfold entry. cbn. rsimpl. rewrite S7.
    rewrite (picked_lookup _ _ _ _ _ P0 Eik), (picked_lookup _ _ _ _ _ P1 Eik),
      (picked_lookup _ _ _ _ _ P2 Eik), (picked_lookup _ _ _ _ _ P3 Eik),
      (picked_lookup _ _ _ _ _ P4 Eik), (Po k i Eik), (Pi k i Eik). done.
  - rsimpl. intros Hb. destruct (existsb return_logprob rs') eqn:Erl; [|done].
    assert (b_return_logprob b = true) by (by apply Hf; eapply picked_existsb). congruence.
Qed.

(** The entry of an unfinished request that is not excluded. *)
Definition keepable (h : gmap nat Req) (exclude : list nat) (e : Entry) : Prop :=
  match en_req e with
  | Some id => match h !! id with
               | Some r => finished r = false ∧ id ∉ exclude
               | None => False
               end
  | None => False
  end.

#[export] Instance keepable_dec h exclude e : Decision (keepable h exclude e).
Proof. unfold keepable. destruct (en_req e) as [id|]; [destruct (h !! id)|]; apply _. Defined.

Lemma entries_range b : entries b = (entry b ∘ Z.to_nat) <$> range 0 (len (b_reqs b)).
Proof.
  apply list_eq_same_length with (n := length (b_reqs b)); [|apply entries_length|].
  { rewrite length_fmap. unfold range. rewrite length_seqZ. unfold len. lia. }
  intros k x y Hk Hx Hy. rewrite entries_lookup in Hx by lia. injection Hx as <-.
  rewrite list_lookup_fmap in Hy. unfold range in Hy. rewrite lookup_seqZ_lt in Hy by (unfold len; lia).
  injection Hy as <-. unfold compose. f_equal. lia.
Qed.

Lemma keep_indexed {B} (f : Z → B) (P : nat * Req → Prop) (Q : B → Prop)
    `{∀ x : Z * (nat * Req), Decision (P x.2)} `{∀ x, Decision (Q x)} k (l : list (nat * Req)) :
  (∀ j x, l !! j = Some x → P x ↔ Q (f (k + Z.of_nat j))) →
  f <$> (filter (λ x : Z * (nat * Req), P x.2) (zip (range k (k + len l)) l)).*1
  = filter Q (f <$> range k (k + len l)).
Proof.
  revert k. induction l as [|x l IH]; intros k Hl; [by rewrite len_nil, range_nil by lia|].
  rewrite len_cons, range_cons by llia. cbn [zip_with fmap list_fmap].
  replace (k + (1 + len l)) with (k + 1 + len l) by lia.
  specialize (Hl 0%nat x eq_refl) as H0'. rewrite Z.add_0_r in H0'.
  specialize (IH (k + 1)). rewrite !filter_cons.
  assert (Hrest : ∀ j y, l !! j = Some y → P y ↔ Q (f (k + 1 + Z.of_nat j))).
  { intros j y Hj. rewrite (Hl (S j) y Hj). by replace (k + Z.of_nat (S j)) with (k + 1 + Z.of_nat j) by lia. }
  destruct (decide (P (k, x).2)) as [Hp|Hp], (decide (Q (f k))) as [Hq|Hq]; cbn [snd] in Hp; try tauto.
  cbn [fmap list_fmap fst]. f_equal. by apply IH.
Qed.

Lemma filter_full {A} (P : A → Prop) `{∀ x, Decision (P x)} (l : list A) :
  length (filter P l) = length l → filter P l = l.
Proof.
  induction l as [|x l IH]; [done|]. rewrite filter_cons. pose proof (length_filter P l).
  case_decide; cbn; intros Hl; [f_equal; apply IH; lia|lia].
Qed.

Section Filter.
Context `{Externals} {C : Type}.
Implicit Types (wd : World C).

Lemma keep_default_entries wd b rs exclude :
  at_heap wd (b_reqs b) rs →
  (entry b ∘ Z.to_nat) <$> BatchOps.keep_default exclude (b_reqs b) rs
  = filter (keepable (heap wd) exclude) (entries b).
Proof.
  intros F. pose proof (Forall2_length _ _ _ F) as Hl.
  assert (El : len (zip (b_reqs b) rs) = len (b_reqs b)).
  { unfold len. rewrite length_zip_with. lia. }
  unfold BatchOps.keep_default, enumerate. rewrite entries_range, <- El.
  rewrite <- (Z.add_0_l (len (zip _ _))). apply (keep_indexed (entry b ∘ Z.to_nat) (λ x, finished x.2 = false ∧ x.1 ∉ exclude)
    (keepable (heap wd) exclude) 0).
  intros j [id r] Hj. apply lookup_zip_with_Some in Hj as (x & y & [= -> ->] & Hx & Hy).
  rewrite Z.add_0_l. unfold keepable, entry, compose. cbn [en_req]. rewrite Nat2Z.id, Hx.
  by rewrite (Forall2_lookup_lr _ _ _ _ _ _ F Hx Hy).
Qed.

Lemma keep_default_indices wd ids rs exclude :
  at_heap wd ids rs → indices (length ids) (BatchOps.keep_default exclude ids rs).
Proof.
  intros F. pose proof (Forall2_length _ _ _ F) as Hl. apply Forall_forall. intros i Hi.
  unfold BatchOps.keep_default in Hi. apply list_elem_of_fmap in Hi as ([j x] & -> & Hx).
  apply list_elem_of_filter in Hx as [_ Hx]. cbn [fst]. unfold enumerate in Hx.
  apply elem_of_zip_l, elem_of_range in Hx. unfold len in Hx. rewrite length_zip_with in Hx. lia.
Qed.

(** The general filter; [keep] of full length stands for all entries. *)
Lemma filter_keep_ok wd rs exclude keep0 :
  let b := batch wd in
  let keep := default (BatchOps.keep_default exclude (b_reqs b) rs) keep0 in
  soa b → at_heap wd (b_reqs b) rs → logprob_flag rs b →
  indices (length (b_reqs b)) keep →
  (length keep = length (b_reqs b) → entries b = (entry b ∘ Z.to_nat) <$> keep) →
  ∃ b', BatchOps.filter_batch exclude keep0 wd = (Ok tt, wd <| batch := b' |>) ∧
    entries b' = (entry b ∘ Z.to_nat) <$> keep ∧ (keep ≠ [] → restricted keep b b') ∧
    (b_return_logprob b = false → b_return_logprob b' = false).
Proof.
  intros b keep Hs F Hf Hk Hfull. unfold BatchOps.filter_batch.
  rewrite (bind_ok _ _ wd b wd) by done. rewrite (bind_ok _ _ wd rs wd) by (by apply reqs_at_ok).
  cbv zeta. fold keep. pose proof (Forall2_length _ _ _ F) as Hl.
  destruct (Z.eqb_spec (len keep) 0) as [E0|E0].
  { apply len_zero in E0. exists (b <| b_reqs := [] |>). split; [by destruct wd|].
    rewrite E0. split_and!; [done|by intros []|by rsimpl]. }
  destruct (Z.eqb_spec (len keep) (len (b_reqs b))) as [En|En].
  { exists b. split; [by destruct wd|]. assert (Ee : entries b = (entry b ∘ Z.to_nat) <$> keep).
    { apply Hfull. unfold len in En. lia. }
    split; [done|]. split; [|done]. intros _. by split. }
  destruct (keep_batch_ok keep rs b Hs) as (b' & rs' & E & R & _); [lia|done|done|].
  rewrite (bind_ok _ _ wd b' wd) by (unfold lift; by rewrite E).
  exists b'. split; [by destruct wd|]. split_and!; [apply R|done|apply R].
Qed.

Lemma filter_batch_ok wd rs exclude :
  soa (batch wd) → at_heap wd (b_reqs (batch wd)) rs → logprob_flag rs (batch wd) →
  ∃ b', BatchOps.filter_batch exclude None wd = (Ok tt, wd <| batch := b' |>) ∧
    entries b' = filter (keepable (heap wd) exclude) (entries (batch wd)) ∧
    (b_reqs b' ≠ [] → soa b') ∧ (b_return_logprob (batch wd) = false → b_return_logprob b' = false).
Proof.
  intros Hs F Hf. set (b := batch wd) in *.
  set (keep := BatchOps.keep_default exclude (b_reqs b) rs).
  pose proof (keep_default_entries wd b rs exclude F) as Ee. fold keep in Ee.
  destruct (filter_keep_ok wd rs exclude None Hs F Hf) as (b' & E & En & R & Rl).
  { by eapply keep_default_indices. }
  { fold b. cbn [default]. fold keep. intros Hl. rewrite Ee. symmetry. unfold entries at 1.
    apply (f_equal length) in Ee. rewrite length_fmap, Hl, <- (entries_length b) in Ee.
    by apply filter_full. }
  cbn [default] in En, R. fold b keep in En, R. exists b'. split; [done|]. split; [by rewrite En|].
  split; [|done]. intros Hne. apply R. intros Ek. apply Hne. apply length_zero_iff_nil.
  by rewrite <- entries_length, En, Ek.
Qed.
End Filter.

(** ** Merge *)

Lemma lookup_app_at {A} (xs ys : list A) n j :
  length xs = n → (xs ++ ys) !! j = if decide (j < n)%nat then xs !! j else ys !! (j - n)%nat.
Proof.
  intros <-. case_decide; [by apply lookup_app_l|]. apply lookup_app_r. lia.
Qed.

(** Both batches have drawn tokens, and both use seeds or neither does. *)
Definition mergeable (b other : ScheduleBatch) : Prop :=
  is_Some (b_output_ids b) ∧ is_Some (b_output_ids other) ∧
  ∀ i i', b_sampling_info b = Some i → b_sampling_info other = Some i' →
    (is_Some (sampling_seeds i) ↔ is_Some (sampling_seeds i')).

Lemma sampling_merge_ok n m i i' :
  sampling_shape n i → sampling_shape m i' →
  (is_Some (sampling_seeds i) ↔ is_Some (sampling_seeds i')) →
  sampling_shape (n + m) (Sampling.merge_batch i i') ∧
  ∀ j, entry_sampling (Sampling.merge_batch i i') j =
       if decide (j < n)%nat then entry_sampling i j else entry_sampling i' (j - n).
Proof.
  intros [S1 S2 S3 S4 S5 S6] [T1 T2 T3 T4 T5 T6] Hseed. split.
  - split; cbn; rewrite ?length_app; try lia. intros l Hl.
    destruct (sampling_seeds i) as [a|], (sampling_seeds i') as [a'|]; try done.
    + injection Hl as <-. rewrite length_app, (S5 a), (T5 a'); done.
    + destruct Hseed as [Hs _]. destruct (Hs ltac:(eauto)). done.
  - intros j. unfold entry_sampling. cbn.
    rewrite (lookup_app_at _ (temperatures i') n), (lookup_app_at _ (top_ps i') n),
      (lookup_app_at _ (top_ks i') n), (lookup_app_at _ (min_ps i') n),
      (lookup_app_at _ (deterministic_indices i') n) by done.
    destruct (sampling_seeds i) as [a|], (sampling_seeds i') as [a'|]; cbn.
    + rewrite (lookup_app_at _ a' n) by (by apply S5). by case_decide.
    + destruct Hseed as [Hs _]. by destruct (Hs ltac:(eauto)).
    + destruct Hseed as [_ Hs]. by destruct (Hs ltac:(eauto)).
    + by case_decide.
Qed.

Lemma merge_batch_ok b other :
  soa b → soa other → mergeable b other →
  ∃ b', BatchOps.merge_batch b other = Ok b' ∧ soa b' ∧ entries b' = entries b ++ entries other ∧
    b_reqs b' = b_reqs b ++ b_reqs other.
Proof.
  intros [S1 S2 S3 S4 S5 S6 (i & S7 & S8)] [T1 T2 T3 T4 T5 T6 (i' & T7 & T8)] ([l Hl] & [l' Hl'] & Hsd).
  destruct (sampling_merge_ok _ _ i i' S8 T8 (Hsd i i' S7 T7)) as [Sh Se].
  unfold BatchOps.merge_batch. rewrite S7, T7, Hl, Hl'. cbn [of_option mbind res_bind].
  assert (Ht : ∃ tops, match b_return_logprob b, b_return_logprob other with
     | true, true => l ← of_option AttributeError (b_top_logprobs_nums b);
                     l' ← of_option TypeError (b_top_logprobs_nums other); Ok (Some (l ++ l'))
     | true, false => l ← of_option AttributeError (b_top_logprobs_nums b);
                      Ok (Some (l ++ times 0 (len (b_reqs other))))
     | false, true => l' ← of_option TypeError (b_top_logprobs_nums other);
                      Ok (Some (times 0 (len (b_reqs b)) ++ l'))
     | false, false => Ok (b_top_logprobs_nums b) end = Ok tops ∧
     (b_return_logprob b || b_return_logprob other = true →
        ∃ t, tops = Some t ∧ length t = (length (b_reqs b) + length (b_reqs other))%nat)).
  { assert (Lt : ∀ n : nat, length (times 0 (Z.of_nat n)) = n)
      by (intros n; unfold times; rewrite length_replicate; lia).
    destruct (b_return_logprob b), (b_return_logprob other);
      try (destruct S6 as (t & -> & Lt1); [done|]); try (destruct T6 as (t' & -> & Lt2); [done|]); cbn;
      eexists; (split; [reflexivity|]); intros Hor; try done; eexists; (split; [reflexivity|]);
      rewrite length_app; unfold len; rewrite ?Lt; lia. }
  destruct Ht as (tops & Et & Lt). rewrite Et. cbn [mbind res_bind].
  eexists. split; [reflexivity|]. split; [|split; [|by rsimpl]].
  - split; rsimpl; rewrite ?length_app; try lia.
    + intros ? [= <-]. rewrite length_app, (S5 l Hl), (T5 l' Hl'). done.
    + exact Lt.
    + eauto.
  - apply list_eq_same_length with (n := (length (b_reqs b) + length (b_reqs other))%nat).
    + by rewrite length_app, !entries_length.
    + rewrite entries_length. rsimpl. by rewrite length_app.
    + intros j x y Hj Hx Hy. rewrite entries_lookup in Hx by (rsimpl; rewrite length_app; lia).
      injection Hx as <-. rewrite (lookup_app_at _ _ (length (b_reqs b))) in Hy by apply entries_length.
      assert (Ey : y = if decide (j < length (b_reqs b))%nat then entry b j
                       else entry other (j - length (b_reqs b))).
      { case_decide; rewrite entries_lookup in Hy by lia; congruence. }
      rewrite Ey. unfold entry. rsimpl. rewrite S7, T7, Hl, Hl', Se. cbn.
      rewrite (lookup_app_at _ (b_reqs other) (length (b_reqs b))),
        (lookup_app_at _ (b_req_pool_indices other) (length (b_reqs b))),
        (lookup_app_at _ (b_seq_lens other) (length (b_reqs b))),
        (lookup_app_at _ (b_seq_lens_cpu other) (length (b_reqs b))),
        (lookup_app_at _ (b_orig_seq_lens other) (length (b_reqs b))),
        (lookup_app_at _ l' (length (b_reqs b))) by (done || by apply S5).
      by case_decide.
Qed.
