(* ===== verification/Scheduler.v ===== *)
(** * The scheduler's state (srt/managers/scheduler.py)

    What the scheduler keeps beside the batch at hand: its arguments, the
    queues, the counters and the messages it sent.  The batch at hand is the
    [batch] of the shared state; it is the running batch itself during
    decoding, and a batch of its own during prefill, when [other_running]
    holds the running batch.

    The model is that of a server without disaggregation, hierarchical
    caches, speculative decoding, Mamba states and diffusion; requests ask
    for no top or selected-token log-probabilities, hidden states or routed
    experts.  Traces, metrics and log messages are left out. *)

From S2P Require Import Prelude PyFloat Allocator Request ReqPool LLM42Info World MemCommon LLM42Worker.

(** One row of a [BatchTokenIDOutput], the message to the detokenizer. *)
Record StreamEntry : Type := mkStreamEntry {
  e_rid : string;
  e_finished_reason : option FinishReason;
  e_decoded_text : string;
  e_decode_ids : list Z;
  e_read_offset : Z;
  e_output_ids : list Z;
  e_skip_special_tokens : bool;
  e_spaces_between_special_tokens : bool;
  e_no_stop_trim : bool;
  e_prompt_tokens : Z;
  e_completion_tokens : Z;
  e_retraction_count : Z;
  e_llm42_num_rollbacks : Z;
  e_llm42_tokens_rolled_back : Z;
  e_llm42_num_verification_windows : Z;
  (* input and output log-probabilities: [None] in a batch that returns none *)
  e_input_logprobs : option (option (list (option float)) * option (list Z));
  e_output_logprobs : option (list float * list Z)
}.

Record ServerArgs : Type := mkServerArgs {
  enable_llm42 : bool;
  enable_overlap : bool;
  is_multimodal_gen : bool;
  default_stream_interval : Z;
  multi_item_scoring_delimiter : option Z;
  model_vocab_size : Z
}.

Record Scheduler (C : Type) : Type := mkScheduler {
  sys : Sys C;
  args : ServerArgs;
  waiting_queue : list nat;
  grammar_queue : list nat;
  other_running : option ScheduleBatch;
  clock : Z;
  num_generated_tokens : Z;
  forward_ct_decode : Z;
  (* messages, oldest first *)
  to_tokenizer : list string;
  to_detokenizer : list (list StreamEntry)
}.
Arguments mkScheduler {C}.
Arguments sys {C} s.
Arguments args {C} s.
Arguments waiting_queue {C} s.
Arguments grammar_queue {C} s.
Arguments other_running {C} s.
Arguments clock {C} s.
Arguments num_generated_tokens {C} s.
Arguments forward_ct_decode {C} s.
Arguments to_tokenizer {C} s.
Arguments to_detokenizer {C} s.

#[export] Instance eta_Scheduler {C} : Eta (Scheduler C) := λ s,
  mkScheduler (sys s) (args s) (waiting_queue s) (grammar_queue s) (other_running s) (clock s)
    (num_generated_tokens s) (forward_ct_decode s) (to_tokenizer s) (to_detokenizer s).
#[export] Instance set_sys {C} : Setter (@sys C).
Proof. derive_setter. Defined.
#[export] Instance set_waiting_queue {C} : Setter (@waiting_queue C).
Proof. derive_setter. Defined.
#[export] Instance set_grammar_queue {C} : Setter (@grammar_queue C).
Proof. derive_setter. Defined.
#[export] Instance set_other_running {C} : Setter (@other_running C).
Proof. derive_setter. Defined.
#[export] Instance set_clock {C} : Setter (@clock C).
Proof. derive_setter. Defined.
#[export] Instance set_num_generated_tokens {C} : Setter (@num_generated_tokens C).
Proof. derive_setter. Defined.
#[export] Instance set_forward_ct_decode {C} : Setter (@forward_ct_decode C).
Proof. derive_setter. Defined.
#[export] Instance set_to_tokenizer {C} : Setter (@to_tokenizer C).
Proof. derive_setter. Defined.
#[export] Instance set_to_detokenizer {C} : Setter (@to_detokenizer C).
Proof. derive_setter. Defined.

Section Lift.
Context {C : Type}.

Definition on_sys {A} (m : M (Sys C) A) : M (Scheduler C) A := λ s,
  let '(r, y) := m (sys s) in (r, s <| sys := y |>).

(** Operations of the shared state. *)
Definition on_w {A} (m : M (World C) A) : M (Scheduler C) A := on_sys (on_world m).

(** [time.perf_counter()]: positive, and never the same twice. *)
Definition perf_counter : M (Scheduler C) Z := λ s,
  (Ok (clock s), s <| clock ::= λ t, t + 1 |>).

Definition w_of (s : Scheduler C) : World C := world (sys s).
End Lift.

(** ** [abort_request] for one request id (not [abort_all]) *)

Module Abort.
Section Abort.
Context {C : Type}.

Definition starts_with (p s : string) : bool := String.prefix p s.

(** The queued requests it hits, newest first, and the queue without them. *)
Fixpoint split_queue (h : gmap nat Req) (abort_rid : string) (q : list nat)
    : list string * list nat :=
  match q with
  | [] => ([], [])
  | id :: q' =>
      let '(hit, rest) := split_queue h abort_rid q' in
      match h !! id with
      | Some r => if starts_with abort_rid (rid r) then (hit ++ [rid r], rest) else (hit, id :: rest)
      | None => (hit, id :: rest)
      end
  end.

(** Requests still waiting for their grammar. *)
Definition abort_grammar (abort_rid : string) (id : nat) : M (World C) unit :=
  r ← req_at id;
  if starts_with abort_rid (rid r) then set_req id (set_finish_with_abort "Aborted by AbortReq." r)
  else mret tt.

Definition abort_running (abort_rid : string) (id : nat) : M (World C) unit :=
  r ← req_at id;
  if negb (finished r) && starts_with abort_rid (rid r)
  then set_req id (r <| to_finish := Some (FINISH_ABORT "Aborted" None) |>)
  else mret tt.

Definition abort_request (abort_rid : string) : M (Scheduler C) unit :=
  h ← gets (λ s, heap (w_of s));
  q ← gets waiting_queue;
  let '(hit, rest) := split_queue h abort_rid q in
  modify (λ s, s <| waiting_queue := rest |> <| to_tokenizer ::= λ m, m ++ hit |>);;
  g ← gets grammar_queue;
  on_w (for_ g (abort_grammar abort_rid));;
  cur ← gets (λ s, b_reqs (batch (w_of s)));
  other ← gets other_running;
  let reqs := match other with None => cur | Some b => b_reqs b ++ cur end in
  on_w (for_ reqs (abort_running abort_rid)).

End Abort.
End Abort.
