(* ===== verification/OutputProcessor.v ===== *)
(** * Results of forward passes (srt/managers/scheduler_output_processor_mixin.py)

    The handlers that store the tokens of a pass in the requests, run the
    verification step, give back the memory of rolled back and finished
    requests and send the output to the detokenizer. *)

From S2P Require Import Prelude PyFloat Allocator Request ReqPool LLM42Info World MemCommon LLM42Worker Scheduler.

Record GenerationBatchResult : Type := mkResult {
  next_token_ids : list Z;
  next_token_logprobs : option (list float);
  result_input_token_logprobs : option (list float);
  extend_input_len_per_req : option (list Z);
  extend_logprob_start_len_per_req : option (list Z)
}.

(** ** Log-probabilities of the prompt *)

Module Logprobs.
Section Logprobs.
Context (a : ServerArgs).

Definition _is_multi_item_scoring (r : Req) : bool :=
  is_prefill_only r &&
  match multi_item_scoring_delimiter a with Some d => negb (d =? 0) | None => false end.

(** The positions of the delimiter. *)
Definition delimiters (ids : list Z) : list Z :=
  filter (λ t, Some t = multi_item_scoring_delimiter a) ids.

Definition _calculate_relevant_tokens_len (r : Req) : Z :=
  let relevant_tokens := slice_from (origin_input_ids r) (logprob_start_len r) in
  if _is_multi_item_scoring r then len (delimiters relevant_tokens) else len relevant_tokens.

Definition _calculate_num_input_logprobs (r : Req) (extend_input_len extend_logprob_start_len : Z) : Z :=
  if _is_multi_item_scoring r
  then len (delimiters (slice (origin_input_ids r) extend_logprob_start_len extend_input_len))
  else extend_input_len - extend_logprob_start_len.

Definition _process_input_token_logprobs (lps : list float) (r : Req) : Req :=
  let multi := _is_multi_item_scoring r in
  let relevant_tokens := slice_from (origin_input_ids r) (logprob_start_len r) in
  r <| input_token_logprobs_val :=
         Some (if multi then Some <$> lps else None :: (Some <$> slice_to lps (-1))) |>
    <| input_token_logprobs_idx :=
         Some ((λ x, if x <? model_vocab_size a - 1 then x else 0) <$>
               (if multi then delimiters relevant_tokens else relevant_tokens)) |>.

(** The checks at the end of the last chunk. *)
Definition check_lengths (r : Req) : res Req :=
  if return_logprob r then
    let n := _calculate_relevant_tokens_len r in
    if (len (default [] (input_token_logprobs_val r)) =? n) &&
       (len (default [] (input_token_logprobs_idx r)) =? n)
    then Ok r else Raise AssertionError
  else Ok r.

Definition add_input_logprob_return_values (output : option (list float))
    (logprob_pt num_input_logprobs : Z) (last_prefill_chunk : bool) (r : Req) : res Req :=
  match output with
  | None => Raise AssertionError
  | Some lps =>
      let r := match input_token_logprobs r with
               | None => r <| input_token_logprobs := Some [] |>
               | Some _ => r
               end in
      match input_token_logprobs_val r with
      | Some _ => Ok r
      | None =>
          let r := r <| input_token_logprobs ::=
                          fmap (λ l, l ++ slice lps logprob_pt (logprob_pt + num_input_logprobs)) |> in
          if last_prefill_chunk then
            let all := default [] (input_token_logprobs r) in
            let r := r <| input_token_logprobs := None |> in
            match input_token_logprobs_idx r with
            | Some _ => Raise AssertionError
            | None => check_lengths (_process_input_token_logprobs all r)
            end
          else Ok r
      end
  end.

Definition _initialize_empty_logprob_containers (r : Req) : Req :=
  let r := match input_token_logprobs_val r with
           | None => r <| input_token_logprobs_val := Some [] |> | Some _ => r end in
  match input_token_logprobs_idx r with
  | None => r <| input_token_logprobs_idx := Some [] |> | Some _ => r end.

(** [vals.append(lps[i]); idx.append(token)] *)
Definition append_logprob (lps : list float) (i token : Z) (r : Req) : res Req :=
  match output_token_logprobs_val r, output_token_logprobs_idx r with
  | Some vals, Some idx =>
      lp ← getitem lps i;
      Ok (r <| output_token_logprobs_val := Some (vals ++ [lp]) |>
            <| output_token_logprobs_idx := Some (idx ++ [token]) |>)
  | _, _ => Raise AttributeError
  end.

Definition add_logprob_return_values (i pt : Z) (result : GenerationBatchResult)
    (num_input_logprobs : Z) (r : Req) : res Req :=
  r ← match next_token_logprobs result with
      | Some lps => token ← getitem (next_token_ids result) i; append_logprob lps i token r
      | None => Ok r
      end;
  if 0 <? num_input_logprobs
  then add_input_logprob_return_values (result_input_token_logprobs result) pt num_input_logprobs true r
  else Ok (_initialize_empty_logprob_containers r).

End Logprobs.
End Logprobs.

(** ** Streaming *)

Module Stream.
Section Stream.
Context `{Externals}.

Definition DEFAULT_FORCE_STREAM_INTERVAL : Z := 50.

Definition needs_verification (a : ServerArgs) (r : Req) : bool :=
  is_deterministic r && enable_llm42 a.

(** [n % interval == 1] or [== 0]: the output is due *)
Definition due (a : ServerArgs) (r : Req) (n : Z) : res bool :=
  let interval := match stream_interval (sampling_params r) with
                  | Some 0 | None => default_stream_interval a
                  | Some k => k
                  end in
  if interval =? 0 then Raise ZeroDivisionError
  else Ok (if negb (is_multimodal_gen a) && (1 <? interval)
           then n mod interval =? 1 else n mod interval =? 0).

(** Whether the request has something to send, and the request with the
    marks of a finished one. *)
Definition should_output (a : ServerArgs) (r : Req) : res (bool * Req) :=
  if is_multimodal_gen a && match to_finish r with Some _ => true | None => false end
  then Ok (false, r)
  else if finished r then
    if finished_output r then Ok (false, r)
    else if needs_verification a r && (llm42_verified_tokens r <? len (output_ids r))
    then Ok (false, r)
    else
      let r := r <| finished_output := true |> in
      Ok (true, match finished_len r with
                | None => r <| finished_len := Some (len (output_ids r)) |>
                | Some _ => r
                end)
  else if needs_verification a r then
    if (send_token_offset r <? llm42_verified_tokens r) && stream r
    then (b ← due a r (llm42_verified_tokens r); Ok (b, r))
    else Ok (false, r)
  else if stream r then
    b ← due a r (len (output_ids r));
    Ok (b && negb (check_match_stop_str_prefix r), r)
  else
    Ok (negb (is_multimodal_gen a) &&
        (len (output_ids r) mod DEFAULT_FORCE_STREAM_INTERVAL =? 0), r).

(** The tokens of the request that go out now, and the new offset. *)
Definition new_tokens (a : ServerArgs) (r : Req) : list Z * Z :=
  let output_ids_ := output_ids_through_stop r in
  if needs_verification a r && negb (finished r) then
    let max_tokens_to_send := Z.min (len output_ids_) (llm42_verified_tokens r) in
    (slice output_ids_ (send_token_offset r) max_tokens_to_send, max_tokens_to_send)
  else (slice_from output_ids_ (send_token_offset r), len output_ids_).

(** The log-probability columns of the row. *)
Definition input_columns (batch_return_logprob : bool) (r : Req)
    : option (option (list (option float)) * option (list Z)) * Req :=
  if batch_return_logprob then
    if return_logprob r && negb (input_logprob_sent r)
    then (Some (input_token_logprobs_val r, input_token_logprobs_idx r),
          r <| input_logprob_sent := true |>)
    else (Some (Some [], Some []), r)
  else (None, r).

Definition output_columns (batch_return_logprob : bool) (r : Req)
    : res (option (list float * list Z) * Req) :=
  if batch_return_logprob then
    if return_logprob r then
      let off := send_output_token_logprobs_offset r in
      match output_token_logprobs_val r, output_token_logprobs_idx r with
      | Some vals, Some idx =>
          Ok (Some (slice_from vals off, slice_from idx off),
              r <| send_output_token_logprobs_offset := len vals |>)
      | _, _ => Raise TypeError
      end
    else Ok (Some ([], []), r)
  else Ok (None, r).

(** The row of a request that has something to send. *)
Definition emit (a : ServerArgs) (batch_return_logprob : bool) (r : Req) : res (StreamEntry * Req) :=
  let needs := needs_verification a r in
  let text := decoded_text r in
  let '(decode_ids, ro, r) := init_incremental_detokenize needs r in
  let sent_ids := if is_multimodal_gen a then decode_ids
                  else slice_from decode_ids (send_decode_id_offset r) in
  let r := r <| send_decode_id_offset := len decode_ids |> in
  let '(toks, off) := new_tokens a r in
  let r := r <| send_token_offset := off |> in
  let completion := if needs then llm42_verified_tokens r else len (output_ids_through_stop r) in
  let '(inp, r) := input_columns batch_return_logprob r in
  o ← output_columns batch_return_logprob r;
  let '(outp, r) := o in
  Ok (mkStreamEntry (rid r) (finished_reason r) text sent_ids ro toks
        (skip_special_tokens (sampling_params r)) (spaces_between_special_tokens (sampling_params r))
        (no_stop_trim (sampling_params r)) (len (origin_input_ids r)) completion (retraction_count r) (llm42_num_rollbacks r)
        (llm42_tokens_rolled_back r) (llm42_num_verification_windows r) inp outp, r).

(** One iteration over the requests. *)
Definition stream_one (a : ServerArgs) (batch_return_logprob : bool) (r : Req)
    : res (option StreamEntry * Req) :=
  o ← should_output a r;
  let '(b, r) := o in
  if b : bool then (e ← emit a batch_return_logprob r; Ok (Some e.1, e.2))
  else Ok (None, r).

Context {C : Type}.

Definition stream_step (a : ServerArgs) (batch_return_logprob : bool) (skip_req : option nat)
    (rows : list StreamEntry) (id : nat) : M (World C) (list StreamEntry) :=
  if bool_decide (skip_req = Some id) then mret rows
  else
    r ← req_at id;
    '(e, r) ← lift (stream_one a batch_return_logprob r);
    set_req id r;;
    mret (rows ++ match e with Some e => [e] | None => [] end).

Definition stream_output_generation (reqs : list nat) (batch_return_logprob : bool)
    (skip_req : option nat) (is_idle_batch : bool) : M (Scheduler C) unit :=
  a ← gets args;
  rows ← on_w (foldM (stream_step a batch_return_logprob skip_req) [] reqs);
  if (negb (bool_decide (reqs = [])) || is_idle_batch) && negb (is_multimodal_gen a)
  then modify (λ s, s <| to_detokenizer ::= λ m, m ++ [rows] |>)
  else mret tt.

(** [stream_output] of a generation model *)
Definition stream_output (reqs : list nat) (batch_return_logprob : bool) (skip_req : option nat)
    : M (Scheduler C) unit :=
  stream_output_generation reqs batch_return_logprob skip_req false.

End Stream.
End Stream.

(** ** Handlers *)

Module Output.
Section Output.
Context `{Externals} `{Model} {C : Type} `{PC : PrefixCache C}.

(** [req.grammar.accept_token(token)]; a refused token aborts the request. *)
Definition accept_token (id : nat) (token : Z) : M (Scheduler C) unit :=
  r ← on_w (req_at id);
  match grammar r with
  | None => mret tt
  | Some g =>
      if gr_accepts g token
      then on_w (set_req id (r <| grammar := Some (g ++ [token]) |>))
      else Abort.abort_request (rid r)
  end.

(** [release_kv_cache(req, self.tree_cache)] and the completion time *)
Definition complete (id : nat) : M (Scheduler C) unit :=
  on_w (Mem.release_kv_cache id true);;
  t ← perf_counter;
  on_w (upd_req id (λ r, r <| completion_time := t |>)).

(** *** Prefill *)

(** The first token of a prompt that ended. *)
Definition prefill_token (a : ServerArgs) (token : Z) (r : Req) : res Req :=
  let r := r <| output_ids ::= λ ids, ids ++ [token] |> in
  let r := if is_deterministic r && enable_llm42 a && (len (output_ids r) =? 1)
           then r <| llm42_verified_tokens := 1 |> else r in
  check_finished 1 r.

(** [xs[i]] of a list that may be missing *)
Definition per_req (xs : option (list Z)) (i : Z) : res Z :=
  l ← of_option TypeError xs; getitem l i.

(** A request whose prompt ended with this pass. *)
Definition prefill_done (a : ServerArgs) (b : ScheduleBatch) (result : GenerationBatchResult)
    (i logprob_pt : Z) (id : nat) (token : Z) : M (Scheduler C) Z :=
  r ← on_w (req_at id);
  r ← lift (prefill_token a token r);
  on_w (set_req id r);;
  (if finished r then complete id
   else if match b_decoding_reqs b with
           | None | Some [] => true
           | Some ds => negb (bool_decide (id ∈ ds))
           end
   then on_w (cache_unfinished_req id false)
   else mret tt);;
  logprob_pt ←
    (if b_return_logprob b then
       assert_ (match extend_logprob_start_len_per_req result with Some _ => true | None => false end);;
       assert_ (match extend_input_len_per_req result with Some _ => true | None => false end);;
       start ← lift (per_req (extend_logprob_start_len_per_req result) i);
       n ← lift (per_req (extend_input_len_per_req result) i);
       r ← on_w (req_at id);
       let num := Logprobs._calculate_num_input_logprobs a r n start in
       (if return_logprob r
        then r ← lift (Logprobs.add_logprob_return_values a i logprob_pt result num r);
             on_w (set_req id r)
        else mret tt);;
       mret (logprob_pt + num)
     else mret logprob_pt);
  accept_token id token;;
  mret logprob_pt.

(** A request whose prompt goes on in the next pass. *)
Definition prefill_chunk (a : ServerArgs) (b : ScheduleBatch) (result : GenerationBatchResult)
    (i logprob_pt : Z) (id : nat) : M (Scheduler C) Z :=
  on_w (upd_req id (λ r, r <| is_chunked ::= λ n, n - 1 |>));;
  if b_return_logprob b then
    start ← lift (per_req (extend_logprob_start_len_per_req result) i);
    n ← lift (per_req (extend_input_len_per_req result) i);
    if start <? n then
      r ← on_w (req_at id);
      let num := Logprobs._calculate_num_input_logprobs a r n start in
      (if return_logprob r
       then r ← lift (Logprobs.add_input_logprob_return_values a (result_input_token_logprobs result)
                        logprob_pt num false r);
            on_w (set_req id r)
       else mret tt);;
      mret (logprob_pt + num)
    else mret logprob_pt
  else mret logprob_pt.

(** One iteration; the locals are [skip_stream_req] and [logprob_pt]. *)
Definition prefill_step (a : ServerArgs) (b : ScheduleBatch) (result : GenerationBatchResult)
    (acc : option nat * Z) (x : Z * (nat * Z)) : M (Scheduler C) (option nat * Z) :=
  let '(skip_stream_req, logprob_pt) := acc in
  let '(i, (id, token)) := x in
  r ← on_w (req_at id);
  if finished r || is_retracted r then mret acc
  else if is_chunked r <=? 0 then
    pt ← prefill_done a b result i logprob_pt id token;
    mret (skip_stream_req, pt)
  else
    pt ← prefill_chunk a b result i logprob_pt id;
    mret (Some id, pt).

(** [process_batch_result_prefill] of a generation model *)
Definition process_batch_result_prefill (result : GenerationBatchResult) : M (Scheduler C) unit :=
  a ← gets args;
  b ← gets (λ s, batch (w_of s));
  '(skip_stream_req, _) ← foldM (prefill_step a b result) (None, 0)
    (enumerate (zip (b_reqs b) (next_token_ids result)));
  Stream.stream_output (b_reqs b) (b_return_logprob b) skip_stream_req.

(** *** Decode *)

(** Verified requests keep their memory until their tokens are verified. *)
Definition deferred (a : ServerArgs) (r : Req) : bool := enable_llm42 a && is_deterministic r.

(** The new token, its log-probability if it is needed for verification, and
    the finish check. *)
Definition decode_token (a : ServerArgs) (batch_return_logprob : bool) (lps : option (list float))
    (i token : Z) (r : Req) : res Req :=
  let r := r <| output_ids ::= λ ids, ids ++ [token] |> in
  r ← (if deferred a r && return_logprob r && batch_return_logprob
       then l ← of_option UnboundLocalError lps; Logprobs.append_logprob l i token r
       else Ok r);
  check_finished 1 r.

Definition decode_step (a : ServerArgs) (batch_return_logprob : bool) (lps : option (list float))
    (x : Z * (nat * Z)) : M (Scheduler C) unit :=
  let '(i, (id, token)) := x in
  r ← on_w (req_at id);
  if enable_overlap a && (finished r || is_retracted r) then mret tt
  else
    r ← lift (decode_token a batch_return_logprob lps i token r);
    on_w (set_req id r);;
    (if finished r && negb (deferred a r) then complete id else mret tt);;
    r ← on_w (req_at id);
    (if return_logprob r && negb (deferred a r)
     then l ← lift (of_option UnboundLocalError lps);
          r ← lift (Logprobs.append_logprob l i token r);
          on_w (set_req id r)
     else mret tt);;
    accept_token id token.

(** The KV slots of rolled back positions go back to the allocator; the
    lengths follow. *)
Definition free_rolled_back (x : nat * Z) : M (World C) unit :=
  let '(id, tokens_rolled_back) := x in
  r ← req_at id;
  let start_free_pos := len (origin_input_ids r) + Z.max (len (output_ids r) - 1) 0 in
  let end_free_pos := start_free_pos + tokens_rolled_back in
  idx ← lift (of_option TypeError (req_pool_idx r));
  p ← gets rtp;
  kv_indices_to_free_raw ← lift (Pool.read_row p idx start_free_pos end_free_pos);
  (if 0 <? len kv_indices_to_free_raw then
     let kv_indices_to_free := Chunk.nonzero kv_indices_to_free_raw in
     if 0 <? len kv_indices_to_free then on_kv (free kv_indices_to_free) else mret tt
   else mret tt);;
  upd_req id (λ r, r <| kv_committed_len ::= λ n, n - tokens_rolled_back |>
                     <| kv_allocated_len ::= λ n, n - tokens_rolled_back |>
                     <| decode_batch_idx ::= λ n, n - tokens_rolled_back |>).

(** A deterministic request after verification: finished ones complete. *)
Definition finish_verified (id : nat) : M (Scheduler C) unit :=
  r ← on_w (req_at id);
  if is_retracted r || negb (is_deterministic r) then mret tt
  else if 0 <? completion_time r then mret tt
  else
    r ← lift (check_finished 1 r);
    on_w (set_req id r);;
    if finished r then complete id else mret tt.

(** Verification, and what it changes outside the worker. *)
Definition verify_step : M (Scheduler C) unit :=
  rollback_results ← on_sys Worker.check_and_verify_deterministic_requests;
  on_w (for_ rollback_results free_rolled_back);;
  reqs ← gets (λ s, b_reqs (batch (w_of s)));
  for_ reqs finish_verified.

(** [process_batch_result_decode] without speculative decoding *)
Definition process_batch_result_decode (result : GenerationBatchResult) : M (Scheduler C) unit :=
  a ← gets args;
  b ← gets (λ s, batch (w_of s));
  lps ← lift (if b_return_logprob b
              then l ← of_option AttributeError (next_token_logprobs result); Ok (Some l)
              else Ok None);
  modify (λ s, s <| num_generated_tokens ::= λ n, n + len (b_reqs b) |>);;
  on_w (on_kv (λ k, (Ok tt, Base.free_group_begin k)));;
  for_ (enumerate (zip (b_reqs b) (next_token_ids result))) (decode_step a (b_return_logprob b) lps);;
  (if enable_llm42 a then verify_step else mret tt);;
  Stream.stream_output (b_reqs b) (b_return_logprob b) None;;
  on_w (on_kv free_group_end);;
  modify (λ s, s <| forward_ct_decode ::= λ n, (n + 1) mod 2 ^ 30 |>).

(** An idle pass only reports. *)
Definition process_batch_result_idle : M (Scheduler C) unit :=
  b ← gets (λ s, batch (w_of s));
  Stream.stream_output_generation (b_reqs b) (b_return_logprob b) None true.

End Output.
End Output.
