(* ===== verification/OutputFacts.v ===== *)
(** * Facts about the output processor

    [Finish]: what the finish checks change.  [OneStream]: what is sent for
    one request.  [Handler]: the loops of the decode handler, one request at
    a time, against the laws of the prefix cache. *)

From S2P Require Import Prelude PyFloat Allocator AllocatorFacts Request ReqPool LLM42Info InfoFacts World MemCommon LLM42Worker Verifier WorkerFacts Scheduler OutputProcessor.
Import Batch.

(** ** Finish checks *)

Module Finish.
Section Finish.
Context `{Externals}.

(** The fields a finish check writes. *)
Definition fin_set (a : list Z) (b : option FinishReason) (c : option Z) (d : option FinishReason)
    (r : Req) : Req :=
  r <| output_ids := a |> <| finished_reason := b |> <| finished_len := c |> <| to_finish := d |>.

Definition cframe (r r' : Req) : Prop := ∃ a b c d, r' = fin_set a b c d r.

Lemma cframe_refl r : cframe r r.
Proof. exists (output_ids r), (finished_reason r), (finished_len r), (to_finish r). by destruct r. Qed.

Lemma cframe_trans r1 r2 r3 : cframe r1 r2 → cframe r2 r3 → cframe r1 r3.
Proof.
  intros (a & b & c & d & ->) (a' & b' & c' & d' & ->). exists a', b', c', d'.
  destruct r1. vm_compute. reflexivity.
Qed.

(** The effect of a check on a request with [n] outputs: only the last
    output may change, and only when it is no token of the vocabulary. *)
Record checked (r r' : Req) : Prop := {
  ck_frame : cframe r r';
  ck_idle : finished r' = false → r' = r;
  ck_len : length (output_ids r') = length (output_ids r);
  ck_init : take (length (output_ids r) - 1) (output_ids r') =
            take (length (output_ids r) - 1) (output_ids r);
  ck_vocab : (∀ t, last (output_ids r) = Some t → 0 ≤ t ≤ vocab_size r) →
             output_ids r' = output_ids r;
  ck_flen : finished_len r' = finished_len r ∨
            (∃ n, finished_len r' = Some n ∧
                  (n = len (output_ids r) ∨ n = max_new_tokens (sampling_params r)))
}.

Lemma checked_refl r : checked r r.
Proof. split; auto. apply cframe_refl. Qed.

Lemma checked_mark r b c d :
  b ≠ None → (c = finished_len r ∨ ∃ n, c = Some n ∧
     (n = len (output_ids r) ∨ n = max_new_tokens (sampling_params r))) →
  checked r (fin_set (output_ids r) b c d r).
Proof.
  intros Hb Hc. split; unfold fin_set; rsimpl; try done.
  - by eexists _, _, _, _.
  - unfold finished. rsimpl. by destruct b.
Qed.

Lemma mark_reason r b :
  r <| finished_reason := b |> = fin_set (output_ids r) b (finished_len r) (to_finish r) r.
Proof. by destruct r. Qed.

Lemma mark_reason_len r b c :
  r <| finished_reason := b |> <| finished_len := c |> = fin_set (output_ids r) b c (to_finish r) r.
Proof. by destruct r. Qed.

Lemma last_only (ids : list Z) x :
  ids ≠ [] → slice_from (ids) (-1) = [x] ↔ last ids = Some x.
Proof.
  intros Hn. destruct ids as [|y ids' _] using rev_ind; [done|].
  rewrite last_snoc. unfold slice_from, adj. cbn [Z.ltb Z.compare].
  replace (Z.to_nat _) with (length ids') by (unfold len; rewrite length_app; cbn; lia).
  rewrite drop_app_length. split; [by intros [= ->]|by intros [= ->]].
Qed.

Lemma last_slice (ids : list Z) : ids ≠ [] → ∃ x, slice_from ids (-1) = [x] ∧ last ids = Some x.
Proof.
  intros Hn. destruct (last ids) as [x|] eqn:E; [|by apply last_None in E].
  exists x. split; [by apply last_only|done].
Qed.

(** [_check_token_based_finish] on the last output *)
Lemma token_based_checked r x :
  output_ids r ≠ [] → slice_from (output_ids r) (-1) = [x] →
  let '(b, r') := _check_token_based_finish [x] r in
  checked r r' ∧ (b = false → r' = r).
Proof.
  intros Hn E. unfold _check_token_based_finish. destruct (ignore_eos _); [by split; [apply checked_refl|]|].
  cbn [list_find]. case_decide; [|by split; [apply checked_refl|]]. split; [|done].
  rewrite mark_reason_len. apply checked_mark; [done|]. right. eexists. split; [done|].
  left. rewrite len_cons, len_nil. lia.
Qed.

Lemma str_based_checked r : checked r (_check_str_based_finish r).2.
Proof.
  unfold _check_str_based_finish.
  assert (Hm : ∀ b : FinishReason, checked r (r <| finished_reason := Some b |>)).
  { intros b. rewrite mark_reason. apply checked_mark; [done|by left]. }
  destruct (stop_strs _) as [|s ss], (stop_regex_strs _) as [|g gs]; [apply checked_refl|..];
    (destruct (find _ _); cbn [snd]; [apply Hm|];
     destruct (find _ _); cbn [snd]; [apply Hm|apply checked_refl]).
Qed.

(** Replacing the last output. *)
Lemma insert_last (ids : list Z) v :
  ids ≠ [] →
  take (length ids - 1) (<[Z.to_nat (len ids - 1) := v]> ids) = take (length ids - 1) ids.
Proof. intros Hn. rewrite take_insert_ge; [done|]. unfold len. lia. Qed.

Lemma vocab_checked r x :
  output_ids r ≠ [] → slice_from (output_ids r) (-1) = [x] →
  let '(b, r') := _check_vocab_boundary_finish [x] r in
  checked r r' ∧ (b = false → r' = r).
Proof.
  intros Hn E. unfold _check_vocab_boundary_finish. cbn [list_find].
  case_decide as Hx; [|by split; [apply checked_refl|]]. split; [|done].
  rewrite len_cons, len_nil. replace (_ - (1 + 0) + _) with (len (output_ids r) - 1) by lia.
  set (k := Z.to_nat (len (output_ids r) - 1)).
  assert (Hform : ∃ a, length a = length (output_ids r) ∧
     take (length (output_ids r) - 1) a = take (length (output_ids r) - 1) (output_ids r) ∧
     (let r1 := match stop_token_ids (sampling_params r) with
                | v :: _ => r <| output_ids ::= λ ids, <[k := v]> ids |> | [] => r end in
      match eos_token_ids r1 with
      | v :: _ => r1 <| output_ids ::= λ ids, <[k := v]> ids |> | [] => r1 end) =
     r <| output_ids := a |>).
  { destruct (stop_token_ids _) as [|u us]; cbv zeta; rsimpl;
      destruct (eos_token_ids r) as [|v vs].
    - exists (output_ids r). split_and!; [done..|by destruct r].
    - exists (<[k := v]> (output_ids r)). rewrite length_insert. split_and!; [done|by apply insert_last|by destruct r].
    - exists (<[k := u]> (output_ids r)). rewrite length_insert. split_and!; [done|by apply insert_last|by destruct r].
    - exists (<[k := v]> (<[k := u]> (output_ids r))). rewrite !length_insert.
      split_and!; [done|rewrite list_insert_insert_eq; by apply insert_last|by destruct r]. }
  cbv zeta in Hform. destruct Hform as (a & La & Ta & ->).
  split; rsimpl; try done.
  - exists a, (Some (FINISH_MATCHED_STR "NaN happened")), (Some (len (output_ids r) - 1 + 1)), (to_finish r).
    by destruct r.
  - intros Hv. exfalso. apply last_only in E; [|done]. specialize (Hv x E).
    apply orb_true_iff in Hx as [?|?]; lia.
  - right. eexists. split; [done|]. left. lia.
Qed.

Lemma check_new_checked r : output_ids r ≠ [] → checked r (check_new_tokens 1 r).
Proof.
  intros Hn. destruct (last_slice _ Hn) as (x & E & _). unfold check_new_tokens.
  change (- (1)) with (-1). rewrite E. pose proof (token_based_checked r x Hn E) as Ht.
  destruct (_check_token_based_finish [x] r) as [b r1]. destruct Ht as [Hc Hb].
  destruct b; [done|]. rewrite (Hb eq_refl) in *. clear Hb Hc.
  pose proof (vocab_checked r x Hn E) as Hv.
  destruct (_check_vocab_boundary_finish [x] r) as [b r2]. destruct Hv as [Hc Hb].
  destruct b; [done|]. rewrite (Hb eq_refl) in *. apply str_based_checked.
Qed.

(** Without a grammar the check always succeeds. *)
Lemma check_finished_ok r :
  output_ids r ≠ [] → grammar r = None →
  ∃ r', check_finished 1 r = Ok r' ∧ checked r r' ∧
    (finished r' = false → len (output_ids r') < max_new_tokens (sampling_params r')).
Proof.
  intros Hn Hg. unfold check_finished. destruct (finished r) eqn:Ef.
  { exists r. split_and!; [done|apply checked_refl|]. congruence. }
  destruct (to_finish r) as [reason|] eqn:Et.
  { eexists. split; [done|]. split; [|by unfold finished; rsimpl].
    replace (_ <| to_finish := None |>) with
      (fin_set (output_ids r) (Some reason) (finished_len r) None r) by (by destruct r).
    apply checked_mark; [done|by left]. }
  destruct (Z.leb_spec (max_new_tokens (sampling_params r)) (len (output_ids r))) as [Hm|Hm].
  { eexists. split; [done|]. split; [|by unfold finished; rsimpl].
    rewrite mark_reason_len. apply checked_mark; [done|]. right. eexists. split; [done|]. by right. }
  rewrite Hg. eexists. split; [done|]. pose proof (check_new_checked r Hn) as Hc. split; [done|].
  intros Hf. by rewrite (ck_idle _ _ Hc Hf).
Qed.

(** A second check of an unfinished request changes nothing. *)
Lemma check_finished_again r r' :
  check_finished 1 r = Ok r' → checked r r' → finished r' = false → check_finished 1 r' = Ok r'.
Proof. intros E Hc Hf. by rewrite (ck_idle _ _ Hc Hf) in *. Qed.

End Finish.
End Finish.

(** ** What is sent for one request *)

Module OneStream.
Section OneStream.
Context `{Externals} (a : ServerArgs).
Implicit Types r : Req.

(** The fields streaming writes. *)
Definition out_set (fo : bool) (fl so ro : option Z) (ids : list Z) (cur dec tok lp : Z)
    (sent : bool) r : Req :=
  r <| finished_output := fo |> <| finished_len := fl |> <| surr_offset := so |>
    <| read_offset := ro |> <| surr_and_decode_ids := ids |> <| cur_decode_ids_len := cur |>
    <| send_decode_id_offset := dec |> <| send_token_offset := tok |>
    <| send_output_token_logprobs_offset := lp |> <| input_logprob_sent := sent |>.

Definition sframe r r' : Prop :=
  ∃ fo fl so ro ids cur dec tok lp sent, r' = out_set fo fl so ro ids cur dec tok lp sent r.

Lemma sframe_refl r : sframe r r.
Proof.
  exists (finished_output r), (finished_len r), (surr_offset r), (read_offset r),
    (surr_and_decode_ids r), (cur_decode_ids_len r), (send_decode_id_offset r),
    (send_token_offset r), (send_output_token_logprobs_offset r), (input_logprob_sent r).
  by destruct r.
Qed.

Lemma sframe_trans r1 r2 r3 : sframe r1 r2 → sframe r2 r3 → sframe r1 r3.
Proof.
  intros (?&?&?&?&?&?&?&?&?&?&->) (fo&fl&so&ro&ids&cur&dec&tok&lp&sent&->).
  exists fo, fl, so, ro, ids, cur, dec, tok, lp, sent. destruct r1. vm_compute. reflexivity.
Qed.

(** Incremental detokenization keeps what the message is computed from. *)
Lemma detok_frame b r :
  let r' := (init_incremental_detokenize b r).2 in
  sframe r r' ∧ finished_output r' = finished_output r ∧ finished_len r' = finished_len r ∧
  send_token_offset r' = send_token_offset r.
Proof.
  unfold init_incremental_detokenize. generalize (output_ids_through_stop r). intros o.
  assert (Hf : ∀ so ro ids cur, sframe r (r <| surr_offset := so |> <| read_offset := ro |>
                <| surr_and_decode_ids := ids |> <| cur_decode_ids_len := cur |>)).
  { intros so ro ids cur. exists (finished_output r), (finished_len r), so, ro, ids, cur,
      (send_decode_id_offset r), (send_token_offset r), (send_output_token_logprobs_offset r),
      (input_logprob_sent r). by destruct r. }
  assert (Hf' : ∀ so ro ids cur, sframe r (r <| read_offset := ro |> <| surr_offset := so |>
                <| surr_and_decode_ids := ids |> <| cur_decode_ids_len := cur |>)).
  { intros so ro ids cur. exists (finished_output r), (finished_len r), so, ro, ids, cur,
      (send_decode_id_offset r), (send_token_offset r), (send_output_token_logprobs_offset r),
      (input_logprob_sent r). by destruct r. }
  assert (Hu : ∀ (f : list Z → list Z) cur, sframe r (r <| surr_and_decode_ids ::= f |> <| cur_decode_ids_len := cur |>)).
  { intros f cur. exists (finished_output r), (finished_len r), (surr_offset r), (read_offset r),
      (f (surr_and_decode_ids r)), cur, (send_decode_id_offset r), (send_token_offset r),
      (send_output_token_logprobs_offset r), (input_logprob_sent r). by destruct r. }
  cbv zeta. destruct (surr_offset r) as [so|], (read_offset r) as [ro|], b; cbn [snd];
    (split; [first [apply Hu|apply Hf'|apply Hf]|rsimpl; done]).
Qed.

Lemma detok_pair b r :
  init_incremental_detokenize b r =
  (surr_and_decode_ids (init_incremental_detokenize b r).2,
   default 0 (read_offset (init_incremental_detokenize b r).2) -
   default 0 (surr_offset (init_incremental_detokenize b r).2),
   (init_incremental_detokenize b r).2).
Proof. done. Qed.

(** The new tokens depend on few fields. *)
Lemma sframe_tokens r r' :
  sframe r r' → finished_len r' = finished_len r → send_token_offset r' = send_token_offset r →
  Stream.new_tokens a r' = Stream.new_tokens a r.
Proof.
  intros (fo&fl&so&ro&ids&cur&dec&tok&lp&sent&->). unfold out_set. rsimpl. intros -> ->.
  unfold Stream.new_tokens, Stream.needs_verification, output_ids_through_stop, finished. rsimpl. done.
Qed.

(** A row in a batch without log-probabilities. *)
Lemma emit_ok r :
  ∃ e r', Stream.emit a false r = Ok (e, r') ∧ sframe r r' ∧ e_rid e = rid r ∧
    e_output_ids e = (Stream.new_tokens a r).1 ∧
    send_token_offset r' = (Stream.new_tokens a r).2 ∧
    finished_len r' = finished_len r ∧ finished_output r' = finished_output r.
Proof.
  unfold Stream.emit. rewrite (detok_pair _ r).
  destruct (detok_frame (Stream.needs_verification a r) r) as (F & Ho & Hl & Hs).
  set (r1 := (init_incremental_detokenize _ r).2) in *.
  set (r2 := r1 <| send_decode_id_offset := len (surr_and_decode_ids r1) |>).
  assert (F2 : sframe r r2).
  { eapply sframe_trans; [exact F|].
    exists (finished_output r1), (finished_len r1), (surr_offset r1), (read_offset r1),
      (surr_and_decode_ids r1), (cur_decode_ids_len r1), (len (surr_and_decode_ids r1)),
      (send_token_offset r1), (send_output_token_logprobs_offset r1), (input_logprob_sent r1).
    unfold r2. by destruct r1. }
  rewrite (sframe_tokens r r2 F2) by (unfold r2; rsimpl; done).
  destruct (Stream.new_tokens a r) as [toks off]. cbn [fst snd].
  unfold Stream.input_columns, Stream.output_columns, mbind, res_bind.
  eexists _, _. split; [reflexivity|]. cbn [e_rid e_output_ids].
  set (r3 := r2 <| send_token_offset := off |>).
  assert (F3 : sframe r r3).
  { eapply sframe_trans; [exact F2|].
    exists (finished_output r2), (finished_len r2), (surr_offset r2), (read_offset r2),
      (surr_and_decode_ids r2), (cur_decode_ids_len r2), (send_decode_id_offset r2),
      off, (send_output_token_logprobs_offset r2), (input_logprob_sent r2).
    unfold r3. by destruct r2. }
  split_and!; [done| |done|..]; try (unfold r3, r2; rsimpl; done).
  destruct F3 as (fo&fl&so&ro&ids&cur&dec&tok&lp&sent&->). by unfold out_set; rsimpl.
Qed.

(** The marks of a finished request. *)
Definition mark_output r : Req :=
  let r := r <| finished_output := true |> in
  match finished_len r with
  | None => r <| finished_len := Some (len (output_ids r)) |>
  | Some _ => r
  end.

Lemma mark_output_frame r :
  sframe r (mark_output r) ∧ send_token_offset (mark_output r) = send_token_offset r ∧
  finished_output (mark_output r) = true ∧
  finished_len (mark_output r) = Some (default (len (output_ids r)) (finished_len r)).
Proof.
  unfold mark_output. rsimpl. destruct (finished_len r) as [f|] eqn:Ef; rsimpl; (split_and!; [|done..]).
  - exists true, (finished_len r), (surr_offset r), (read_offset r), (surr_and_decode_ids r),
      (cur_decode_ids_len r), (send_decode_id_offset r), (send_token_offset r),
      (send_output_token_logprobs_offset r), (input_logprob_sent r). by destruct r.
  - exists true, (Some (len (output_ids r))), (surr_offset r), (read_offset r),
      (surr_and_decode_ids r), (cur_decode_ids_len r), (send_decode_id_offset r),
      (send_token_offset r), (send_output_token_logprobs_offset r), (input_logprob_sent r).
    by destruct r.
Qed.

(** A verified request and what was sent for it. *)
Record sendable r : Prop := {
  sd_sent : 0 ≤ send_token_offset r ≤ llm42_verified_tokens r;
  sd_verified : llm42_verified_tokens r ≤ len (output_ids r);
  sd_flen : ∀ f, finished_len r = Some f → send_token_offset r ≤ f
}.

Lemma len_through_stop r :
  (∀ f, finished_len r = Some f → 0 ≤ f) →
  output_ids_through_stop r = slice_to (output_ids r) (len (output_ids_through_stop r)) ∧
  len (output_ids_through_stop r) ≤ len (output_ids r) ∧
  len (output_ids_through_stop r) = match finished_len r with
                                    | Some f => Z.min f (len (output_ids r))
                                    | None => len (output_ids r)
                                    end.
Proof.
  intros Hf. unfold output_ids_through_stop. destruct (finished_len r) as [f|].
  - specialize (Hf f eq_refl). rewrite !slice_to_take by llia. rewrite len_take.
    split_and!; [|lia..]. unfold len.
    rewrite <- Nat2Z.inj_min, Nat2Z.id, <- take_take, firstn_all. done.
  - rewrite slice_to_take by llia. unfold len. rewrite Nat2Z.id, firstn_all. split_and!; [done|lia..].
Qed.

(** The new tokens continue what was sent, with verified tokens only. *)
Lemma new_tokens_verified r :
  Stream.needs_verification a r = true → sendable r →
  (finished r = true → llm42_verified_tokens r = len (output_ids r)) →
  let '(toks, off) := Stream.new_tokens a r in
  send_token_offset r ≤ off ≤ llm42_verified_tokens r ∧
  slice_to (output_ids r) (send_token_offset r) ++ toks = slice_to (output_ids r) off ∧
  (∀ f, finished_len r = Some f → off ≤ f) ∧
  (finished r = true → off = len (output_ids_through_stop r)).
Proof.
  intros Hn [[Hs1 Hs2] Hv Hf] Hfin. unfold Stream.new_tokens. rewrite Hn.
  destruct (len_through_stop r) as (Et & El & Ef).
  { intros f Hff. specialize (Hf f Hff). lia. }
  set (o := output_ids_through_stop r) in *. set (n := len o) in *. clearbody o n.
  assert (Hsn : send_token_offset r ≤ n).
  { rewrite Ef. destruct (finished_len r) as [f|]; [specialize (Hf f eq_refl)|]; lia. }
  assert (Hnf : ∀ f, finished_len r = Some f → n ≤ f) by (intros f Hff; rewrite Ef, Hff; lia).
  subst o. rewrite !slice_to_take by lia. destruct (finished r); cbn [andb negb].
  - specialize (Hfin eq_refl). split_and!; [lia|lia| |done|done].
    rewrite slice_from_drop by lia. replace (Z.to_nat (send_token_offset r))
      with (Nat.min (Z.to_nat (send_token_offset r)) (Z.to_nat n)) at 1 by lia.
    rewrite <- take_take, take_drop. by rewrite slice_to_take by lia.
  - split_and!; [lia|lia| |intros f Hff; specialize (Hnf f Hff); lia|done].
    rewrite slice_nonneg by lia. set (m := Z.min n _). rewrite (slice_to_take _ m) by lia.
    rewrite <- (take_drop (Z.to_nat (send_token_offset r)) (take (Z.to_nat m) (output_ids r))).
    rewrite take_take, Nat.min_l by lia. f_equal.
    rewrite !skipn_firstn_comm, take_take. f_equal. lia.
Qed.

Lemma due_ok r n : default_stream_interval a ≠ 0 → ∃ b, Stream.due a r n = Ok b.
Proof.
  intros Hd. unfold Stream.due.
  set (k := match stream_interval _ with Some 0 | None => _ | Some k => k end).
  assert (Hk : k ≠ 0) by (unfold k; destruct (stream_interval (sampling_params r)) as [[|k'|k']|]; lia).
  destruct (Z.eqb_spec k 0); [done|by eexists].
Qed.

Definition sent_ids (o : option StreamEntry) : list Z :=
  match o with Some e => e_output_ids e | None => [] end.

(** What streaming does for a verified request. *)
Record streamed_one r (o : option StreamEntry) r' : Prop := {
  so_frame : sframe r r';
  so_sendable : sendable r';
  so_prefix : slice_to (output_ids r) (send_token_offset r) ++ sent_ids o =
              slice_to (output_ids r) (send_token_offset r');
  so_rid : ∀ e, o = Some e → e_rid e = rid r;
  so_done : finished r = true → finished_output r = false →
            llm42_verified_tokens r = len (output_ids r) →
            finished_output r' = true ∧
            send_token_offset r' = len (output_ids_through_stop r');
  so_going : finished r = false →
             finished_output r' = finished_output r ∧ finished_len r' = finished_len r
}.

Lemma streamed_none r : finished r = false ∨ finished_output r = true ∨
    llm42_verified_tokens r < len (output_ids r) → sendable r → streamed_one r None r.
Proof.
  intros Hc Hs. split; try done.
  - apply sframe_refl.
  - cbn. by rewrite app_nil_r.
  - intros Hf Ho Hv. destruct Hc as [?|[?|?]]; [congruence..|lia].
Qed.

(** Fields streaming does not write. *)
Lemma sframe_same r r' :
  sframe r r' →
  output_ids r' = output_ids r ∧ llm42_verified_tokens r' = llm42_verified_tokens r ∧
  finished_reason r' = finished_reason r ∧ is_deterministic r' = is_deterministic r ∧
  rid r' = rid r.
Proof. intros (?&?&?&?&?&?&?&?&?&?&->). unfold out_set. rsimpl. done. Qed.

(** A row for a request that is unfinished, or finished and marked. *)
Lemma emit_streamed r r1 :
  sframe r r1 → sendable r → Stream.needs_verification a r = true →
  (finished r = true → llm42_verified_tokens r = len (output_ids r)) →
  send_token_offset r1 = send_token_offset r →
  (∀ f, finished_len r1 = Some f → send_token_offset r ≤ f) →
  (finished r = true → finished_output r1 = true) →
  (finished r = false → finished_output r1 = finished_output r ∧ finished_len r1 = finished_len r) →
  ∃ e r', Stream.emit a false r1 = Ok (e, r') ∧ streamed_one r (Some e) r'.
Proof.
  intros F [Hs Hv _] Hn Hall Hoff Hfl Hd Hg.
  destruct (sframe_same _ _ F) as (S1 & S2 & S3 & S4 & S5).
  assert (Hfin : finished r1 = finished r) by (unfold finished; by rewrite S3).
  destruct (emit_ok r1) as (e & r' & E & F' & Er & Et & Eo & El & Efo).
  pose proof (new_tokens_verified r1) as Hnt.
  destruct (Stream.new_tokens a r1) as [toks off]. cbn [fst snd] in Et, Eo.
  destruct Hnt as ([H1 H2] & H3 & H4 & H5).
  { unfold Stream.needs_verification in *. by rewrite S4. }
  { split; rewrite ?Hoff, ?S1, ?S2; done. }
  { rewrite Hfin, S1, S2. done. }
  destruct (sframe_same _ _ F') as (S1' & S2' & _).
  rewrite Hoff, S1 in H3. rewrite S2 in H2.
  exists e, r'. split; [done|]. split.
  - by eapply sframe_trans.
  - split; [|by rewrite S2', S2, S1', S1|rewrite El, Eo; done]. rewrite Eo, S2', S2. lia.
  - cbn [sent_ids]. by rewrite Et, Eo.
  - intros e' [= <-]. congruence.
  - intros Hf _ _. split; [rewrite Efo; auto|]. rewrite Eo, H5 by congruence.
    unfold output_ids_through_stop. by rewrite El, S1'.
  - intros Hf. rewrite Efo, El. auto.
Qed.

Lemma stream_one_verified r :
  default_stream_interval a ≠ 0 → is_multimodal_gen a = false →
  Stream.needs_verification a r = true → sendable r →
  ∃ o r', Stream.stream_one a false r = Ok (o, r') ∧ streamed_one r o r'.
Proof.
  intros Hd Hmm Hn Hs. unfold Stream.stream_one, Stream.should_output. rewrite Hmm, Hn. cbn [andb].
  destruct (finished r) eqn:Ef.
  - destruct (finished_output r) eqn:Eo.
    { exists None, r. split; [done|]. apply streamed_none; auto. }
    destruct (Z.ltb_spec (llm42_verified_tokens r) (len (output_ids r))) as [Hl|Hl].
    { exists None, r. split; [done|]. apply streamed_none; auto. }
    fold (mark_output r). destruct (mark_output_frame r) as (F & M1 & M2 & M3).
    destruct (emit_streamed r (mark_output r) F Hs Hn) as (e & r' & E & P); try done.
    { pose proof (sd_verified r Hs). intros. lia. }
    { rewrite M3. intros f [= <-]. destruct (finished_len r) as [f|] eqn:El; cbn.
      - by apply (sd_flen r Hs).
      - destruct Hs. lia. }
    { congruence. }
    exists (Some e), r'. split; [|done]. unfold mbind, res_bind. cbv beta iota. by rewrite E.
  - destruct ((send_token_offset r <? llm42_verified_tokens r) && stream r); cycle 1.
    { exists None, r. split; [done|]. apply streamed_none; auto. }
    destruct (due_ok r (llm42_verified_tokens r) Hd) as [b Eb]. rewrite Eb. destruct b; cycle 1.
    { exists None, r. split; [done|]. apply streamed_none; auto. }
    destruct (emit_streamed r r (sframe_refl r) Hs Hn) as (e & r' & E & P); try done; [congruence|apply Hs|congruence|].
    exists (Some e), r'. split; [|done]. unfold mbind, res_bind. cbv beta iota. by rewrite E.
Qed.

(** Streaming of any request of a batch without log-probabilities. *)
Lemma stream_one_ok r :
  default_stream_interval a ≠ 0 → 
  ∃ o r', Stream.stream_one a false r = Ok (o, r') ∧ sframe r r' ∧
          (∀ e, o = Some e → e_rid e = rid r) ∧
          (finished r = false → finished_output r' = finished_output r).
Proof.
  intros Hd. unfold Stream.stream_one.
  assert (Ho : ∃ b r1, Stream.should_output a r = Ok (b, r1) ∧ sframe r r1 ∧
                       (finished r = false → r1 = r)).
  { unfold Stream.should_output. destruct (_ && _); [by eexists _, _; split; [|split; [apply sframe_refl|]]|].
    destruct (finished r).
    - destruct (finished_output r); [by eexists _, _; split; [|split; [apply sframe_refl|]]|].
      destruct (_ && _); [by eexists _, _; split; [|split; [apply sframe_refl|]]|].
      fold (mark_output r). by eexists _, _; split; [|split; [apply mark_output_frame|]].
    - destruct (Stream.needs_verification a r); [destruct (_ && _)|destruct (stream r)].
      + destruct (due_ok r (llm42_verified_tokens r) Hd) as [b ->].
        by eexists _, _; split; [|split; [apply sframe_refl|]].
      + by eexists _, _; split; [|split; [apply sframe_refl|]].
      + destruct (due_ok r (len (output_ids r)) Hd) as [b ->].
        by eexists _, _; split; [|split; [apply sframe_refl|]].
      + by eexists _, _; split; [|split; [apply sframe_refl|]]. }
  destruct Ho as ([|] & r1 & -> & F & Hr1); unfold mbind, res_bind; cbv beta iota.
  - destruct (emit_ok r1) as (e & r' & -> & F' & Er & _ & _ & _ & Efo). eexists _, _. split; [done|].
    split_and!; [by eapply sframe_trans| |].
    + intros e' [= <-]. cbn. rewrite Er. by apply (sframe_same r r1).
    + intros Hf. cbn [snd]. by rewrite Efo, (Hr1 Hf).
  - eexists _, _. split; [done|]. split_and!; [done|done|]. intros Hf. by rewrite (Hr1 Hf).
Qed.

End OneStream.
End OneStream.
