(* ===== verification/Detokenizer.v ===== *)
(** * The detokenizer

    [managers/detokenizer_manager.py]: the process between the scheduler and
    the tokenizer manager.  It keeps a [DecodeStatus] per request in a
    dictionary of limited capacity, turns the token ids of every message
    into text that extends what was sent before, and trims what matched a
    stop condition.  The rows of a message are the entries the scheduler
    streams ([StreamEntry]).

    A Python [str] is the list of its code points.  The tokenizer is a
    parameter; the strings of the scheduler's model are read as code points
    below 256. *)

From S2P Require Import Prelude PyFloat Allocator Request ReqPool LLM42Info World MemCommon LLM42Worker Scheduler.

(** ** Text *)

Definition PyStr : Type := list Z.

Definition codes (s : string) : PyStr := (λ c, Z.of_N (Ascii.N_of_ascii c)) <$> String.list_ascii_of_string s.

Module Text.

Definition NEWLINE : Z := 10.
Definition SPACE : Z := 32.
Definition REPLACEMENT : Z := 65533.

Definition endswith (s : PyStr) (c : Z) : bool := bool_decide (last s = Some c).

(** [str.find]: the first position of [sub], -1 when there is none *)
Fixpoint find (s sub : PyStr) : Z :=
  if decide (sub `prefix_of` s) then 0
  else match s with
       | [] => -1
       | _ :: s' => let i := find s' sub in if i =? -1 then -1 else i + 1
       end.

(** [str.rfind] of one character *)
Fixpoint rfind (s : PyStr) (c : Z) : Z :=
  match s with
  | [] => -1
  | x :: s' => let i := rfind s' c in
               if 0 <=? i then i + 1 else if x =? c then 0 else -1
  end.

Definition _is_chinese_char (cp : Z) : bool :=
  ((0x4E00 <=? cp) && (cp <=? 0x9FFF)) || ((0x3400 <=? cp) && (cp <=? 0x4DBF)) ||
  ((0x20000 <=? cp) && (cp <=? 0x2A6DF)) || ((0x2A700 <=? cp) && (cp <=? 0x2B73F)) ||
  ((0x2B740 <=? cp) && (cp <=? 0x2B81F)) || ((0x2B820 <=? cp) && (cp <=? 0x2CEAF)) ||
  ((0xF900 <=? cp) && (cp <=? 0xFAFF)) || ((0x2F800 <=? cp) && (cp <=? 0x2FA1F)).

(** [len(text) > k and _is_chinese_char(ord(text[-1 - k]))] *)
Definition chinese_at (text : PyStr) (k : nat) : bool :=
  match reverse text !! k with Some c => _is_chinese_char c | None => false end.

Definition find_printable_text (text : PyStr) : PyStr :=
  if endswith text NEWLINE then text
  else if chinese_at text 0 then text
  else if chinese_at text 1 then slice_to text (-1)
  else slice_to text (rfind text SPACE + 1).

End Text.

(** ** The status of a request *)

Record DecodeStatus : Type := mkDecodeStatus {
  ds_decoded_text : PyStr;
  ds_decode_ids : list Z;
  ds_surr_offset : Z;
  ds_read_offset : Z;
  (* what the tokenizer manager has received *)
  ds_sent_offset : Z
}.

#[export] Instance eta_DecodeStatus : Eta DecodeStatus := λ s,
  mkDecodeStatus (ds_decoded_text s) (ds_decode_ids s) (ds_surr_offset s) (ds_read_offset s) (ds_sent_offset s).
#[export] Instance set_ds_decoded_text : Setter ds_decoded_text.
Proof. derive_setter. Defined.
#[export] Instance set_ds_decode_ids : Setter ds_decode_ids.
Proof. derive_setter. Defined.
#[export] Instance set_ds_surr_offset : Setter ds_surr_offset.
Proof. derive_setter. Defined.
#[export] Instance set_ds_read_offset : Setter ds_read_offset.
Proof. derive_setter. Defined.
#[export] Instance set_ds_sent_offset : Setter ds_sent_offset.
Proof. derive_setter. Defined.

(** ** [LimitedCapacityDict]

    An [OrderedDict]: the items in the order of their insertion.  The values
    are objects the caller mutates in place ([update]), which is not an
    assignment to the key. *)

Record LimitedDict (A : Type) : Type := mkLimitedDict {
  items : list (string * A);
  capacity_limit : Z
}.
Arguments mkLimitedDict {A} items capacity_limit.
Arguments items {A} _.
Arguments capacity_limit {A} _.

Module Limited.
Section Limited.
Context {A : Type}.
Implicit Types (d : LimitedDict A) (k : string) (v : A).

Fixpoint lookup_items (l : list (string * A)) k : option A :=
  match l with
  | [] => None
  | (k', v) :: l' => if decide (k = k') then Some v else lookup_items l' k
  end.

(** [OrderedDict.__setitem__]: a key that is there keeps its place. *)
Fixpoint set_items (l : list (string * A)) k v : list (string * A) :=
  match l with
  | [] => [(k, v)]
  | (k', v') :: l' => if decide (k = k') then (k', v) :: l' else (k', v') :: set_items l' k v
  end.

Definition find d k : option A := lookup_items (items d) k.

Definition __setitem__ k v : M (LimitedDict A) unit := λ d,
  if capacity_limit d <=? len (items d) then
    match items d with
    | [] => (Raise KeyError, d)   (* [popitem] of an empty dictionary *)
    | _ :: rest => (Ok tt, mkLimitedDict (set_items rest k v) (capacity_limit d))
    end
  else (Ok tt, mkLimitedDict (set_items (items d) k v) (capacity_limit d)).

Definition update k v d : LimitedDict A :=
  mkLimitedDict (match lookup_items (items d) k with Some _ => set_items (items d) k v | None => items d end) (capacity_limit d).

Definition remove k d : LimitedDict A :=
  mkLimitedDict (filter (λ x, x.1 ≠ k) (items d)) (capacity_limit d).

End Limited.
End Limited.

(** ** The manager *)

Record DetokenizerManager : Type := mkDetokenizerManager {
  decode_status : LimitedDict DecodeStatus;
  is_dummy : bool;
  is_tool_call_parser_gpt_oss : bool;
  disable_tokenizer_batch_decode : bool
}.

#[export] Instance eta_DetokenizerManager : Eta DetokenizerManager := λ m,
  mkDetokenizerManager (decode_status m) (is_dummy m) (is_tool_call_parser_gpt_oss m) (disable_tokenizer_batch_decode m).
#[export] Instance set_decode_status : Setter decode_status.
Proof. derive_setter. Defined.

(** [matched] of [finished_reason.to_json()]; [None] when the reason has no
    such key *)
Inductive Matched : Type :=
| MatchedToken (z : Z)
| MatchedText (s : PyStr).

Definition matched_of (f : FinishReason) : option Matched :=
  match f with
  | FINISH_MATCHED_TOKEN z => Some (MatchedToken z)
  | FINISH_MATCHED_STR s => Some (MatchedText (codes s))
  | FINISHED_MATCHED_REGEX s => Some (MatchedText (codes s))
  | FINISH_LENGTH _ => None
  | FINISH_ABORT _ _ => None
  end.

(** The tokenizer of the model *)
Class TextTokenizer := {
  decode : bool → bool → list Z → PyStr;
  batch_decode : bool → bool → list (list Z) → list PyStr
}.

(** A message of the scheduler; the payloads of the other kinds pass through
    unread. *)
Inductive DetokMsg (E : Type) : Type :=
| BatchEmbeddingOutput (payload : E)
| BatchTokenIDOutput (rows : list StreamEntry)
| BatchMultimodalDecodeReq
| FreezeGCReq.
Arguments BatchEmbeddingOutput {E} payload.
Arguments BatchTokenIDOutput {E} rows.
Arguments BatchMultimodalDecodeReq {E}.
Arguments FreezeGCReq {E}.

(** A message to the tokenizer manager: the columns of the rows it came from
    and the text. *)
Inductive StrMsg (E : Type) : Type :=
| BatchEmbeddingPassed (payload : E)
| BatchStrOutput (rows : list StreamEntry) (output_strs : list PyStr).
Arguments BatchEmbeddingPassed {E} payload.
Arguments BatchStrOutput {E} rows output_strs.

Module Detokenizer.
Section Detokenizer.
Context `{TextTokenizer}.

Definition new_manager (max_states : Z) (gpt_oss disable_batch : bool) : DetokenizerManager :=
  mkDetokenizerManager (mkLimitedDict [] max_states) false gpt_oss disable_batch.

Definition is_health_check_request (rid : string) : bool := String.prefix "HEALTH_CHECK" rid.

(** [trim_matched_stop] on a string *)
Definition trim_text (output : PyStr) (finished_reason : option FinishReason) (no_stop_trim : bool) : PyStr :=
  if no_stop_trim then output else
  match finished_reason ≫= matched_of with
  | Some (MatchedText matched) =>
      if bool_decide (matched = []) then output else
      let pos := Text.find output matched in
      if pos =? -1 then output else slice_to output pos
  | _ => output
  end.

(** The token of tool calls of gpt-oss *)
Definition CALL_TOKEN : Z := 200012.

(** [trim_matched_stop] on a list of token ids *)
Definition trim_ids (gpt_oss : bool) (output : list Z) (finished_reason : option FinishReason) (no_stop_trim : bool)
    : res (list Z) :=
  if no_stop_trim then Ok output else
  match finished_reason ≫= matched_of with
  | Some (MatchedToken matched) =>
      if matched =? 0 then Ok output else
      t ← getitem output (-1);
      if (t =? CALL_TOKEN) && gpt_oss then Ok output
      else if 0 <? len output then Ok (slice_to output (-1)) else Raise AssertionError
  | _ => Ok output
  end.

(** *** Decoding in groups *)

Fixpoint add_to_group (k : bool * bool) (i : Z) (groups : list ((bool * bool) * list Z)) :=
  match groups with
  | [] => [(k, [i])]
  | (k', l) :: groups' =>
      if decide (k = k') then (k', l ++ [i]) :: groups' else (k', l) :: add_to_group k i groups'
  end.

Definition group_flags (flags : list (bool * bool)) : list ((bool * bool) * list Z) :=
  foldl (λ groups '(idx, k), add_to_group k idx groups) [] (enumerate flags).

Definition write_texts (results : list PyStr) (x : list Z * list PyStr) : res (list PyStr) :=
  foldR (λ results '(idx, text), setitem results idx text) results (zip x.1 x.2).

Definition _grouped_batch_decode (ids_list : list (list Z)) (skip_list space_list : list bool) : res (list PyStr) :=
  first_skip ← getitem skip_list 0;
  first_space ← getitem space_list 0;
  if forallb (Bool.eqb first_skip) skip_list && forallb (Bool.eqb first_space) space_list
  then Ok (batch_decode first_skip first_space ids_list)
  else
    foldR (λ results '(k, indices),
             ids ← mapM (getitem ids_list) indices;
             write_texts results (indices, batch_decode k.1 k.2 ids))
      (times [] (len ids_list)) (group_flags (zip skip_list space_list)).

(** *** The two loops *)

Definition init_status (e : StreamEntry) : DecodeStatus :=
  mkDecodeStatus (codes (e_decoded_text e)) (e_decode_ids e) 0 (e_read_offset e) 0.

(** The first loop: find or make the status and collect the ids to decode. *)
Definition collect (acc : list (list Z) * list (list Z)) (e : StreamEntry)
    : M DetokenizerManager (list (list Z) * list (list Z)) :=
  m ← get;
  s ← match Limited.find (decode_status m) (e_rid e) with
      | None =>
          let s := init_status e in
          (if is_health_check_request (e_rid e) then mret tt
           else λ m, let '(r, d) := Limited.__setitem__ (e_rid e) s (decode_status m) in
                     (r, m <| decode_status := d |>));;
          mret s
      | Some s =>
          let s := s <| ds_decode_ids ::= λ ids, ids ++ e_decode_ids e |> in
          modify (λ m, m <| decode_status ::= Limited.update (e_rid e) s |>);;
          mret s
      end;
  read ← lift (trim_ids (is_tool_call_parser_gpt_oss m) (slice_from (ds_decode_ids s) (ds_surr_offset s))
                 (e_finished_reason e) (e_no_stop_trim e));
  mret (acc.1 ++ [read], acc.2 ++ [slice (ds_decode_ids s) (ds_surr_offset s) (ds_read_offset s)]).

Definition DOG : PyStr := [100; 111; 103].
Definition CAT : PyStr := [99; 97; 116].

(** The texts of the ids collected, in one of three ways *)
Definition decode_all (m : DetokenizerManager) (rows : list StreamEntry) (ids_list : list (list Z)) (dummy : PyStr)
    : res (list PyStr) :=
  let skip := e_skip_special_tokens <$> rows in
  let space := e_spaces_between_special_tokens <$> rows in
  if disable_tokenizer_batch_decode m
  then Ok ((λ '(ids, sk, sp), decode sk sp ids) <$> zip (zip ids_list skip) space)
  else if is_dummy m then Ok ((λ _, dummy) <$> ids_list)
  else _grouped_batch_decode ids_list skip space.

(** The status and the text of one row *)
Definition advance (s : DecodeStatus) (e : StreamEntry) (surr_text read_text : PyStr) : DecodeStatus * PyStr :=
  let new_text := slice_from read_text (len surr_text) in
  match e_finished_reason e with
  | None =>
      if (0 <? len new_text) && negb (Text.endswith new_text Text.REPLACEMENT)
      then (s <| ds_decoded_text ::= λ t, t ++ new_text |> <| ds_surr_offset := ds_read_offset s |>
              <| ds_read_offset := len (ds_decode_ids s) |>, [])
      else (s, Text.find_printable_text new_text)
  | Some _ => (s, new_text)
  end.

(** The second loop: what is new in the text. *)
Definition output_row (surr_texts read_texts : list PyStr) (acc : list PyStr) (x : Z * StreamEntry)
    : M DetokenizerManager (list PyStr) :=
  let '(i, e) := x in
  m ← get;
  s ← lift (if is_health_check_request (e_rid e) then Ok (init_status e)
            else of_option RuntimeError (Limited.find (decode_status m) (e_rid e)));
  read_text ← lift (getitem read_texts i);
  surr_text ← lift (getitem surr_texts i);
  let '(s, new_text) := advance s e surr_text read_text in
  match e_finished_reason e with
  | None => mret tt
  | Some _ => modify (λ m, m <| decode_status ::= Limited.remove (e_rid e) |>)
  end;;
  let output_str := trim_text (ds_decoded_text s ++ new_text) (e_finished_reason e) (e_no_stop_trim e) in
  let incremental_output := slice_from output_str (ds_sent_offset s) in
  let s := s <| ds_sent_offset := len output_str |> in
  (* the object that is still in the dictionary *)
  (if is_health_check_request (e_rid e) then mret tt
   else modify (λ m, m <| decode_status ::= Limited.update (e_rid e) s |>));;
  mret (acc ++ [incremental_output]).

Definition _decode_batch_token_id_output (rows : list StreamEntry) : M DetokenizerManager (list PyStr) :=
  '(read_ids, surr_ids) ← foldM collect ([], []) rows;
  m ← get;
  surr_texts ← lift (decode_all m rows surr_ids DOG);
  read_texts ← lift (decode_all m rows read_ids CAT);
  foldM (output_row surr_texts read_texts) [] (enumerate rows).

Definition handle_batch_token_id_out (rows : list StreamEntry) : M DetokenizerManager (list PyStr) :=
  if 0 <? len rows then _decode_batch_token_id_output rows else mret [].

(** One turn of [event_loop] *)
Definition handle {E} (msg : DetokMsg E) : M DetokenizerManager (option (StrMsg E)) :=
  match msg with
  | BatchEmbeddingOutput payload => mret (Some (BatchEmbeddingPassed payload))
  | BatchTokenIDOutput rows =>
      strs ← handle_batch_token_id_out rows;
      mret (Some (BatchStrOutput rows strs))
  | BatchMultimodalDecodeReq => throw NotImplementedError
  | FreezeGCReq => mret None
  end.

(** [event_loop] on the messages that arrive; what it sends *)
Definition event_loop {E} (msgs : list (DetokMsg E)) : M DetokenizerManager (list (StrMsg E)) :=
  foldM (λ sent msg, o ← handle msg; mret (sent ++ match o with Some out => [out] | None => [] end)) [] msgs.

End Detokenizer.
End Detokenizer.
