(* ===== verification/TokenizerManager.v ===== *)
(** * The tokenizer manager: from messages to responses

    The part of [managers/tokenizer_manager.py] that answers clients.  A
    task receives the messages of the detokenizer and adds what they carry
    to the state of every request; each request has a task that waits for
    its state to change and yields the last output to the client.  Both run
    on one event loop, so what happens between two awaits is atomic.

    States are shared objects: [rid_to_state] names them as long as the
    request runs, the waiting task keeps its own reference.  So they live in
    a store and have numbers.  Log-probabilities are given to the client as
    a reference to the lists of the state, which grow later. *)

From S2P Require Import Prelude PyFloat Allocator Request ReqPool LLM42Info World MemCommon LLM42Worker Scheduler Detokenizer.

Definition SERVICE_UNAVAILABLE : Z := 503.
Definition INTERNAL_SERVER_ERROR : Z := 500.

(** ** Data *)

(** What is used of [GenerateReqInput] and [EmbeddingReqInput] *)
Record ReqInput : Type := mkReqInput {
  i_rid : string;
  i_stream : bool;
  i_return_logprob : bool;
  i_return_text_in_logprobs : bool;
  i_background : bool
}.

Record MetaInfo : Type := mkMetaInfo {
  m_id : string;
  m_finish_reason : option FinishReason;
  m_prompt_tokens : option Z;
  m_total_retractions : option Z;
  m_completion_tokens : option Z;
  (* rollbacks, tokens rolled back, verification windows *)
  m_llm42 : option (Z * Z * Z);
  (* the state whose lists of log-probabilities it refers to *)
  m_logprobs : option nat
}.

(** An output, with embeddings of type [V] *)
Record OutDict (V : Type) : Type := mkOutDict {
  od_text : option PyStr;
  od_output_ids : option (list Z);
  od_embedding : option V;
  od_meta : MetaInfo
}.
Arguments mkOutDict {V}.
Arguments od_text {V}.
Arguments od_output_ids {V}.
Arguments od_embedding {V}.
Arguments od_meta {V}.

Record ReqState (V : Type) : Type := mkReqState {
  out_list : list (OutDict V);
  rs_finished : bool;
  rs_event : bool;
  rs_obj : ReqInput;
  last_output_offset : Z;
  rs_text : PyStr;
  rs_output_ids : list Z;
  rs_input_token_logprobs_val : list (option float);
  rs_input_token_logprobs_idx : list Z;
  rs_output_token_logprobs_val : list float;
  rs_output_token_logprobs_idx : list Z;
  rs_input_token_logprobs : list (option float * Z * option PyStr);
  rs_output_token_logprobs : list (float * Z * option PyStr)
}.
Arguments mkReqState {V}.
Arguments out_list {V}.
Arguments rs_finished {V}.
Arguments rs_event {V}.
Arguments rs_obj {V}.
Arguments last_output_offset {V}.
Arguments rs_text {V}.
Arguments rs_output_ids {V}.
Arguments rs_input_token_logprobs_val {V}.
Arguments rs_input_token_logprobs_idx {V}.
Arguments rs_output_token_logprobs_val {V}.
Arguments rs_output_token_logprobs_idx {V}.
Arguments rs_input_token_logprobs {V}.
Arguments rs_output_token_logprobs {V}.

#[export] Instance eta_MetaInfo : Eta MetaInfo := λ m,
  mkMetaInfo (m_id m) (m_finish_reason m) (m_prompt_tokens m) (m_total_retractions m) (m_completion_tokens m)
    (m_llm42 m) (m_logprobs m).
#[export] Instance set_m_completion_tokens : Setter m_completion_tokens.
Proof. derive_setter. Defined.
#[export] Instance set_m_llm42 : Setter m_llm42.
Proof. derive_setter. Defined.
#[export] Instance set_m_logprobs : Setter m_logprobs.
Proof. derive_setter. Defined.

#[export] Instance eta_ReqState {V} : Eta (ReqState V) := λ s,
  mkReqState (out_list s) (rs_finished s) (rs_event s) (rs_obj s) (last_output_offset s) (rs_text s) (rs_output_ids s)
    (rs_input_token_logprobs_val s) (rs_input_token_logprobs_idx s) (rs_output_token_logprobs_val s)
    (rs_output_token_logprobs_idx s) (rs_input_token_logprobs s) (rs_output_token_logprobs s).
#[export] Instance set_out_list {V} : Setter (@out_list V).
Proof. derive_setter. Defined.
#[export] Instance set_rs_finished {V} : Setter (@rs_finished V).
Proof. derive_setter. Defined.
#[export] Instance set_rs_event {V} : Setter (@rs_event V).
Proof. derive_setter. Defined.
#[export] Instance set_last_output_offset {V} : Setter (@last_output_offset V).
Proof. derive_setter. Defined.
#[export] Instance set_rs_text {V} : Setter (@rs_text V).
Proof. derive_setter. Defined.
#[export] Instance set_rs_output_ids {V} : Setter (@rs_output_ids V).
Proof. derive_setter. Defined.
#[export] Instance set_rs_input_token_logprobs_val {V} : Setter (@rs_input_token_logprobs_val V).
Proof. derive_setter. Defined.
#[export] Instance set_rs_input_token_logprobs_idx {V} : Setter (@rs_input_token_logprobs_idx V).
Proof. derive_setter. Defined.
#[export] Instance set_rs_output_token_logprobs_val {V} : Setter (@rs_output_token_logprobs_val V).
Proof. derive_setter. Defined.
#[export] Instance set_rs_output_token_logprobs_idx {V} : Setter (@rs_output_token_logprobs_idx V).
Proof. derive_setter. Defined.
#[export] Instance set_rs_input_token_logprobs {V} : Setter (@rs_input_token_logprobs V).
Proof. derive_setter. Defined.
#[export] Instance set_rs_output_token_logprobs {V} : Setter (@rs_output_token_logprobs V).
Proof. derive_setter. Defined.

(** An [AbortReq], which travels both ways *)
Record AbortReq : Type := mkAbortReq {
  a_rid : string;
  a_abort_all : bool;
  a_finished_reason : option FinishReason;
  a_abort_message : option string
}.

Inductive ToScheduler : Type :=
| TokenizedReq (rid : string)
| SchedulerAbort (req : AbortReq).

Record TokenizerManager (V : Type) : Type := mkTokenizerManager {
  states : gmap nat (ReqState V);
  rid_to_state : gmap string nat;
  next_state : nat;
  to_scheduler : list ToScheduler;
  stream_output : bool;
  skip_tokenizer_init : bool
}.
Arguments mkTokenizerManager {V}.
Arguments states {V}.
Arguments rid_to_state {V}.
Arguments next_state {V}.
Arguments to_scheduler {V}.
Arguments stream_output {V}.
Arguments skip_tokenizer_init {V}.

#[export] Instance eta_TokenizerManager {V} : Eta (TokenizerManager V) := λ m,
  mkTokenizerManager (states m) (rid_to_state m) (next_state m) (to_scheduler m) (stream_output m) (skip_tokenizer_init m).
#[export] Instance set_states {V} : Setter (@states V).
Proof. derive_setter. Defined.
#[export] Instance set_rid_to_state {V} : Setter (@rid_to_state V).
Proof. derive_setter. Defined.
#[export] Instance set_next_state {V} : Setter (@next_state V).
Proof. derive_setter. Defined.
#[export] Instance set_to_scheduler {V} : Setter (@to_scheduler V).
Proof. derive_setter. Defined.

(** A row of [BatchEmbeddingOutput] *)
Record EmbeddingRow (V : Type) : Type := mkEmbeddingRow {
  em_rid : string;
  em_finished_reason : option FinishReason;
  em_embedding : V;
  em_prompt_tokens : Z;
  em_retraction_count : Z
}.
Arguments mkEmbeddingRow {V}.
Arguments em_rid {V}.
Arguments em_finished_reason {V}.
Arguments em_embedding {V}.
Arguments em_prompt_tokens {V}.
Arguments em_retraction_count {V}.

(** What the tokenizer manager receives: messages of the detokenizer and,
    when no tokenizer is used, of the scheduler *)
Inductive TokMsg (V : Type) : Type :=
| FromDetokenizer (msg : StrMsg (list (EmbeddingRow V)))
| TokenIDs (rows : list StreamEntry)
| Multimodal (rids : list string)
| Aborted (req : AbortReq).
Arguments FromDetokenizer {V}.
Arguments TokenIDs {V}.
Arguments Multimodal {V}.
Arguments Aborted {V}.

(** A row of a message, whatever its kind *)
Inductive Row (V : Type) : Type :=
| StrRow (e : StreamEntry) (output_str : PyStr)
| TokenRow (e : StreamEntry)
| EmbeddingOut (e : EmbeddingRow V).
Arguments StrRow {V}.
Arguments TokenRow {V}.
Arguments EmbeddingOut {V}.

Definition row_rid {V} (x : Row V) : string :=
  match x with StrRow e _ => e_rid e | TokenRow e => e_rid e | EmbeddingOut e => em_rid e end.
Definition row_finished_reason {V} (x : Row V) : option FinishReason :=
  match x with
  | StrRow e _ => e_finished_reason e
  | TokenRow e => e_finished_reason e
  | EmbeddingOut e => em_finished_reason e
  end.

(** What a turn of the waiting task comes to *)
Inductive Turn (V : Type) : Type :=
| Waits
| Yields (out : OutDict V)
| Returns (out : OutDict V).
Arguments Waits {V}.
Arguments Yields {V}.
Arguments Returns {V}.

Module TokenizerManager.
Section TokenizerManager.
Context {V : Type}.
(* [tokenizer.batch_decode] of single tokens *)
Context (token_texts : list Z → list PyStr).
Implicit Types (s : ReqState V) (m : TokenizerManager V).

Definition new_state (obj : ReqInput) : ReqState V :=
  mkReqState [] false false obj 0 [] [] [] [] [] [] [] [].

Definition _send_one_request (obj : ReqInput) : M (TokenizerManager V) nat := λ m,
  let id := next_state m in
  (Ok id, m <| to_scheduler ::= λ l, l ++ [TokenizedReq (i_rid obj)] |>
            <| states ::= <[id := new_state obj]> |> <| next_state := S id |>
            <| rid_to_state ::= <[i_rid obj := id]> |>).

Definition state_at (id : nat) : M (TokenizerManager V) (ReqState V) := λ m,
  (of_option KeyError (states m !! id), m).
Definition set_state (id : nat) s : M (TokenizerManager V) unit := modify (λ m, m <| states ::= <[id := s]> |>).

(** ** Log-probabilities (of the tokens themselves) *)

Definition detokenize_logprob_tokens {A} (vals : list A) (idx : list Z) (decode_to_text : bool)
    : list (A * Z * option PyStr) :=
  if decode_to_text then zip (zip vals idx) (Some <$> token_texts idx)
  else (λ x, (x, None)) <$> zip vals idx.

Definition add_logprob_to_meta_info (id : nat) (text : bool) s (meta : MetaInfo) : ReqState V * MetaInfo :=
  let s := if len (rs_input_token_logprobs s) <? len (rs_input_token_logprobs_val s) then
      s <| rs_input_token_logprobs ::= λ l, l ++ detokenize_logprob_tokens
             (slice_from (rs_input_token_logprobs_val s) (len l)) (slice_from (rs_input_token_logprobs_idx s) (len l)) text |>
    else s in
  let s := if len (rs_output_token_logprobs s) <? len (rs_output_token_logprobs_val s) then
      s <| rs_output_token_logprobs ::= λ l, l ++ detokenize_logprob_tokens
             (slice_from (rs_output_token_logprobs_val s) (len l)) (slice_from (rs_output_token_logprobs_idx s) (len l)) text |>
    else s in
  (s, meta <| m_logprobs := Some id |>).

(** [None] is not a list: [extend] raises. *)
Definition convert_logprob_style (id : nat) (text : bool) (e : StreamEntry) s (meta : MetaInfo)
    : res (ReqState V * MetaInfo) :=
  match e_input_logprobs e with
  | None => Ok (s, meta)
  | Some (vals, idx) =>
      s ← match vals with
          | None => Ok s
          | Some vals => idx ← of_option TypeError idx;
              Ok (s <| rs_input_token_logprobs_val ::= λ l, l ++ vals |> <| rs_input_token_logprobs_idx ::= λ l, l ++ idx |>)
          end;
      out ← of_option TypeError (e_output_logprobs e);
      let s := s <| rs_output_token_logprobs_val ::= λ l, l ++ out.1 |> <| rs_output_token_logprobs_idx ::= λ l, l ++ out.2 |> in
      Ok (add_logprob_to_meta_info id text s meta)
  end.

(** ** [_handle_batch_output] *)

Definition meta_of (x : Row V) : MetaInfo :=
  match x with
  | StrRow e _ | TokenRow e =>
      mkMetaInfo (e_rid e) (e_finished_reason e) (Some (e_prompt_tokens e)) (Some (e_retraction_count e)) None None None
  | EmbeddingOut e =>
      mkMetaInfo (em_rid e) (em_finished_reason e) (Some (em_prompt_tokens e)) (Some (em_retraction_count e)) None None None
  end.

(** The counters of a generation *)
Definition with_counts (x : Row V) (meta : MetaInfo) : MetaInfo :=
  match x with
  | StrRow e _ | TokenRow e =>
      meta <| m_completion_tokens := Some (e_completion_tokens e) |>
           <| m_llm42 := Some (e_llm42_num_rollbacks e, e_llm42_tokens_rolled_back e, e_llm42_num_verification_windows e) |>
  | EmbeddingOut _ => meta
  end.

(** The tokens of an output: the new ones when the server streams outputs in
    pieces, otherwise all *)
Definition take_ids (stream_output : bool) (ids : list Z) s : list Z * ReqState V :=
  let s := s <| rs_output_ids ::= λ l, l ++ ids |> in
  if stream_output && i_stream (rs_obj s)
  then (slice_from (rs_output_ids s) (last_output_offset s), s <| last_output_offset := len (rs_output_ids s) |>)
  else (rs_output_ids s, s).

Definition make_out (stream_output : bool) (x : Row V) (meta : MetaInfo) s : OutDict V * ReqState V :=
  match x with
  | StrRow e output_str =>
      let s := s <| rs_text ::= λ t, t ++ output_str |> in
      let '(ids, s) := take_ids stream_output (e_output_ids e) s in
      (mkOutDict (Some (rs_text s)) (Some ids) None meta, s)
  | TokenRow e =>
      let '(ids, s) := take_ids stream_output (e_output_ids e) s in
      (mkOutDict None (Some ids) None meta, s)
  | EmbeddingOut e => (mkOutDict None None (Some (em_embedding e)) meta, s)
  end.

Definition logprobs_of (id : nat) (text : bool) (x : Row V) s (meta : MetaInfo) : res (ReqState V * MetaInfo) :=
  if i_return_logprob (rs_obj s) then
    match x with
    | StrRow e _ | TokenRow e => convert_logprob_style id text e s meta
    | EmbeddingOut _ => Raise AttributeError
    end
  else Ok (s, meta).

Definition handle_row (x : Row V) : M (TokenizerManager V) unit :=
  m ← get;
  match rid_to_state m !! row_rid x with
  | None => mret tt
  | Some id =>
      s ← state_at id;
      '(s, meta) ← lift (logprobs_of id (i_return_text_in_logprobs (rs_obj s) && negb (skip_tokenizer_init m)) x s (meta_of x));
      let '(out, s) := make_out (stream_output m) x (with_counts x meta) s in
      let fin := match row_finished_reason x with Some _ => true | None => false end in
      let s := s <| rs_finished := fin |> in
      (if fin then modify (λ m, m <| rid_to_state ::= delete (row_rid x) |>) else mret tt);;
      set_state id (s <| out_list ::= λ l, l ++ [out] |> <| rs_event := true |>)
  end.

Definition rows_in (msg : StrMsg (list (EmbeddingRow V))) : list (Row V) :=
  match msg with
  | BatchEmbeddingPassed rows => EmbeddingOut <$> rows
  | BatchStrOutput rows strs => zip_with StrRow rows strs
  end.

(** The request of a multimodal row is looked up first. *)
Definition handle_multimodal (rid : string) : M (TokenizerManager V) unit :=
  m ← get;
  match rid_to_state m !! rid with None => mret tt | Some _ => throw NotImplementedError end.

(** ** Aborts *)

Definition abort_request (rid : string) (abort_all : bool) : M (TokenizerManager V) unit :=
  m ← get;
  if negb abort_all && bool_decide (rid_to_state m !! rid = None) then mret tt
  else modify (λ m, m <| to_scheduler ::= λ l, l ++ [SchedulerAbort (mkAbortReq rid abort_all None None)] |>).

Definition abort_reason (req : AbortReq) : FinishReason :=
  match a_finished_reason req with
  | Some f => f
  | None =>
      let message := match a_abort_message req with
                     | Some t => if decide (t = EmptyString) then "Abort in waiting queue" else t
                     | None => "Abort in waiting queue"
                     end in
      FINISH_ABORT message None
  end.

Definition _handle_abort_req (req : AbortReq) : M (TokenizerManager V) unit :=
  if Detokenizer.is_health_check_request (a_rid req) then mret tt else
  m ← get;
  id ← lift (of_option KeyError (rid_to_state m !! a_rid req));
  s ← state_at id;
  let s := s <| rs_finished := true |> in
  let meta := mkMetaInfo (a_rid req) (Some (abort_reason req)) None None None None None in
  let '(s, meta) := if i_return_logprob (rs_obj s)
    then add_logprob_to_meta_info id (i_return_text_in_logprobs (rs_obj s) && negb (skip_tokenizer_init m)) s meta
    else (s, meta) in
  let meta := meta <| m_completion_tokens := Some (len (rs_output_ids s)) |> in
  let ids := if i_stream (rs_obj s)
             then match last (rs_output_ids s) with Some t => [t] | None => [] end
             else rs_output_ids s in
  let out := mkOutDict (Some (rs_text s)) (Some ids) None meta in
  set_state id (s <| out_list ::= λ l, l ++ [out] |> <| rs_event := true |>).

(** The dispatcher *)
Definition dispatch (msg : TokMsg V) : M (TokenizerManager V) unit :=
  match msg with
  | FromDetokenizer msg => for_ (rows_in msg) handle_row
  | TokenIDs rows => for_ (TokenRow <$> rows) handle_row
  | Multimodal rids => for_ rids handle_multimodal
  | Aborted req => _handle_abort_req req
  end.

(** ** [_wait_one_response]

    One turn of its loop.  [gone]: there is an HTTP request and its client
    has disconnected.  Without the event the turn is a timeout. *)

Definition disconnect (s : ReqState V) : M (TokenizerManager V) (Turn V) :=
  abort_request (i_rid (rs_obj s)) false;; throw ValueError.

Definition wait_turn (id : nat) (gone : bool) : M (TokenizerManager V) (Turn V) :=
  s ← state_at id;
  let obj := rs_obj s in
  if negb (rs_event s) then
    if gone && negb (i_background obj) then disconnect s else mret Waits
  else
    out ← lift (of_option IndexError (last (out_list s)));
    let s := s <| out_list := [] |> in
    set_state id s;;
    if rs_finished s then
      match m_finish_reason (od_meta out) with
      | Some (FINISH_ABORT _ (Some code)) =>
          if code =? BAD_REQUEST then
            if i_stream obj then mret (Returns out) else throw ValueError
          else if (code =? SERVICE_UNAVAILABLE) || (code =? INTERNAL_SERVER_ERROR) then
            modify (λ m, m <| rid_to_state ::= delete (i_rid obj) |>);;
            if i_stream obj then mret (Returns out) else throw HTTPException
          else mret (Returns out)
      | _ => mret (Returns out)
      end
    else
      set_state id (s <| rs_event := false |>);;
      if i_stream obj then mret (Yields out)
      else if gone && negb (i_background obj) then disconnect s else mret Waits.

(** ** The event loop

    [handle_loop] takes a message, or a waiting task takes a turn; an
    exception ends the task that raises it, [ended] has the tasks that are
    over.  The result is what the clients are given. *)

Inductive Ev : Type :=
| Recv (msg : TokMsg V)
| Wake (id : nat) (gone : bool).

Definition serve_one (ev : Ev) : M (TokenizerManager V * list nat) (list (nat * Turn V)) := λ '(m, ended),
  match ev with
  | Recv msg => let '(r, m) := dispatch msg m in (_ ← r; Ok [], (m, ended))
  | Wake id gone =>
      if decide (id ∈ ended) then (Ok [], (m, ended)) else
      match wait_turn id gone m with
      | (Ok Waits, m) => (Ok [], (m, ended))
      | (Ok (Yields out), m) => (Ok [(id, Yields out)], (m, ended))
      | (Ok (Returns out), m) => (Ok [(id, Returns out)], (m, ended ++ [id]))
      | (Raise _, m) => (Ok [], (m, ended ++ [id]))
      end
  end.

Definition serve (evs : list Ev) : M (TokenizerManager V * list nat) (list (nat * Turn V)) :=
  foldM (λ given ev, new ← serve_one ev; mret (given ++ new)) [] evs.

(** A manager that has sent the requests [objs] *)
Definition opened (objs : list ReqInput) (so skip : bool) : TokenizerManager V :=
  (for_ objs (λ obj, _send_one_request obj;; mret tt) (mkTokenizerManager ∅ ∅ 0 [] so skip)).2.

End TokenizerManager.
Arguments Recv {V}.
Arguments Wake {V}.
End TokenizerManager.
