(* ===== verification/Responses.v ===== *)
(** * What clients are given

    The invariant of the request states of the tokenizer manager under any
    interleaving of messages and turns of the waiting tasks: a state has all
    the text and all the tokens of the rows received for its request, up to
    the row that finishes it, and an output that waits is the newest one. *)

From S2P Require Import Prelude PyFloat Allocator Request ReqPool LLM42Info World MemCommon LLM42Worker Scheduler Detokenizer TokenizerManager.
Import TokenizerManager.

Lemma for_app {S A} (xs ys : list A) (body : A → M S unit) s :
  for_ (xs ++ ys) body s = match for_ xs body s with (Ok _, s') => for_ ys body s' | (Raise e, s') => (Raise e, s') end.
Proof. revert s. induction xs as [|x xs IH]; intros s; [done|]. cbn. by destruct (body x s) as [[]]. Qed.

Section Responses.
Context {V : Type} (token_texts : list Z → list PyStr).
Implicit Types (s : ReqState V) (m : TokenizerManager V) (rs : list (StreamEntry * PyStr)) (ev : Ev (V := V)).

(** ** Rows received *)

(** How the last row leaves the request *)
Definition finish_of rs : option FinishReason := x ← last rs; e_finished_reason x.1.

(** The rows up to the first that finishes the request; the others find no
    state. *)
Fixpoint upto_finish rs : list (StreamEntry * PyStr) :=
  match rs with
  | [] => []
  | x :: rs' => if e_finished_reason x.1 is Some _ then [x] else x :: upto_finish rs'
  end.

Definition text_of rs : PyStr := concat rs.*2.
Definition ids_received rs : list Z := concat (e_output_ids ∘ fst <$> rs).

Definition pairs_in {E} (msg : StrMsg E) : list (StreamEntry * PyStr) :=
  match msg with BatchEmbeddingPassed _ => [] | BatchStrOutput rows strs => zip rows strs end.

(** The messages of the detokenizer among the events *)
Definition received (evs : list (Ev (V := V))) : list (StrMsg (list (EmbeddingRow V))) :=
  omap (λ ev, match ev with Recv (FromDetokenizer msg) => Some msg | _ => None end) evs.

Definition rows_for (k : string) {E} (msgs : list (StrMsg E)) : list (StreamEntry * PyStr) :=
  filter (λ x, e_rid x.1 = k) (concat (pairs_in <$> msgs)).

(** Log-probabilities, where there are any, are there with their tokens. *)
Definition logprobs_ok (e : StreamEntry) : Prop :=
  match e_input_logprobs e with
  | None => True
  | Some (vals, idx) => (vals = None ∨ idx ≠ None) ∧ e_output_logprobs e ≠ None
  end.

(** Messages with text, and turns of the tasks of [objs] *)
Definition text_event (objs : list ReqInput) ev : Prop :=
  match ev with
  | Recv (FromDetokenizer (BatchStrOutput rows _)) => Forall logprobs_ok rows
  | Recv _ => False
  | Wake id _ => is_Some (objs !! id)
  end.

Lemma upto_snoc rs x :
  upto_finish (rs ++ [x]) = if finish_of (upto_finish rs) is Some _ then upto_finish rs else upto_finish rs ++ [x].
Proof.
  induction rs as [|y rs IH]; cbn [upto_finish app]; [by destruct (e_finished_reason x.1)|].
  destruct (e_finished_reason y.1) eqn:Ey; [unfold finish_of; cbn; by rewrite Ey|]. rewrite IH.
  assert (E : finish_of (y :: upto_finish rs) = finish_of (upto_finish rs)); [|rewrite E; by destruct (finish_of (upto_finish rs))].
  unfold finish_of. rewrite last_cons. destruct (last (upto_finish rs)); [done|]. cbn. by rewrite Ey.
Qed.

Lemma upto_prefix rs : upto_finish rs `prefix_of` rs.
Proof.
  induction rs as [|y rs IH]; [done|]. cbn. destruct (e_finished_reason y.1); [apply prefix_cons, prefix_nil|by apply prefix_cons].
Qed.

(** ** The state of a request *)

(** An output shows the rows. *)
Record shows rs (out : OutDict V) : Prop := {
  sh_text : od_text out = Some (text_of rs);
  sh_ids : od_output_ids out = Some (ids_received rs);
  sh_finish : m_finish_reason (od_meta out) = finish_of rs
}.

(** The tokens are given in full. *)
Definition whole m (obj : ReqInput) : Prop := stream_output m && i_stream obj = false.

Record state_ok (ended : bool) rs s : Prop := {
  st_text : rs_text s = text_of rs;
  st_ids : rs_output_ids s = ids_received rs;
  st_finished : rs_finished s = if finish_of rs is Some _ then true else false;
  st_event : ended = false → rs_event s = true → ∃ out, last (out_list s) = Some out ∧ shows rs out;
  st_quiet : ended = false → rs_event s = false → finish_of rs = None
}.

(** Request [k] has the state [id]; the rows received are [rs]. *)
Record task_ok m (ended : list nat) k id rs : Prop := {
  tk_state : ∃ s, states m !! id = Some s ∧ i_rid (rs_obj s) = k ∧ whole m (rs_obj s) ∧
               state_ok (bool_decide (id ∈ ended)) rs s;
  tk_named : rid_to_state m !! k = if finish_of rs is Some _ then None else Some id;
  tk_only : ∀ k', rid_to_state m !! k' = Some id → k' = k
}.

(** *** A row *)

Lemma logprobs_same id text e t s meta :
  logprobs_ok e →
  ∃ s' meta', logprobs_of token_texts id text (StrRow e t) s meta = Ok (s', meta') ∧ rs_text s' = rs_text s ∧
    rs_output_ids s' = rs_output_ids s ∧ rs_obj s' = rs_obj s ∧ out_list s' = out_list s ∧
    m_finish_reason meta' = m_finish_reason meta ∧ last_output_offset s' = last_output_offset s.
Proof.
  unfold logprobs_of, logprobs_ok, convert_logprob_style. intros Hl.
  destruct (i_return_logprob (rs_obj s)); [|by exists s, meta].
  destruct (e_input_logprobs e) as [[vals idx]|]; [|by exists s, meta]. destruct Hl as [Hv Ho].
  destruct (e_output_logprobs e) as [out|]; [|done].
  assert (Hs : ∃ s1, match vals with None => Ok s | Some vals => idx ← of_option TypeError idx;
      Ok (s <| rs_input_token_logprobs_val ::= λ l, l ++ vals |> <| rs_input_token_logprobs_idx ::= λ l, l ++ idx |>) end = Ok s1 ∧
    rs_text s1 = rs_text s ∧ rs_output_ids s1 = rs_output_ids s ∧ rs_obj s1 = rs_obj s ∧ out_list s1 = out_list s ∧
    last_output_offset s1 = last_output_offset s).
  { destruct vals as [vals|]; [|by exists s]. destruct idx as [idx|]; [|by destruct Hv]. by eexists. }
  destruct Hs as (s1 & -> & E1 & E2 & E3 & E4 & E5). cbn [mbind res_bind of_option]. eexists _, _. split; [reflexivity|].
  unfold add_logprob_to_meta_info. repeat case_match; rsimpl; done.
Qed.

(** The rows with one more *)
Lemma rows_snoc rs e t :
  finish_of (rs ++ [(e, t)]) = e_finished_reason e ∧ text_of (rs ++ [(e, t)]) = text_of rs ++ t ∧
  ids_received (rs ++ [(e, t)]) = ids_received rs ++ e_output_ids e.
Proof.
  unfold finish_of, text_of, ids_received. rewrite last_snoc, !fmap_app, !concat_app. cbn. by rewrite !app_nil_r.
Qed.

(** What a row makes of the state of its request: in [pieces] the output has
    the tokens since the last one, otherwise all *)
Record gets_row (pieces : bool) e t s s' : Prop := {
  gr_text : rs_text s' = rs_text s ++ t;
  gr_ids : rs_output_ids s' = rs_output_ids s ++ e_output_ids e;
  gr_obj : rs_obj s' = rs_obj s;
  gr_finished : rs_finished s' = if e_finished_reason e is Some _ then true else false;
  gr_event : rs_event s' = true;
  gr_offset : last_output_offset s' = if pieces then len (rs_output_ids s') else last_output_offset s;
  gr_out : ∃ out, last (out_list s') = Some out ∧ od_text out = Some (rs_text s') ∧
    od_output_ids out = Some (if pieces then slice_from (rs_output_ids s') (last_output_offset s) else rs_output_ids s') ∧
    m_finish_reason (od_meta out) = e_finished_reason e
}.

Lemma row_handled m id s e t :
  rid_to_state m !! e_rid e = Some id → states m !! id = Some s → logprobs_ok e →
  ∃ s', gets_row (stream_output m && i_stream (rs_obj s)) e t s s' ∧
    handle_row token_texts (StrRow e t) m =
      (Ok tt, m <| rid_to_state ::= if e_finished_reason e is Some _ then delete (e_rid e) else (λ x, x) |> <| states ::= <[id := s']> |>).
Proof.
  intros Hn Hs Hl. unfold handle_row. rewrite (bind_ok _ _ m m m) by done. cbn [row_rid].
  rewrite Hn. unfold state_at. rewrite (bind_ok _ _ m s m) by (by rewrite Hs).
  destruct (logprobs_same id (i_return_text_in_logprobs (rs_obj s) && negb (skip_tokenizer_init m)) e t s
    (meta_of (V := V) (StrRow e t)) Hl) as (s1 & meta & El & E1 & E2 & E3 & E4 & E5 & E6).
  rewrite (bind_ok _ _ m (s1, meta) m) by (unfold lift; by rewrite El). cbv beta iota zeta.
  cbn [row_finished_reason row_rid].
  set (upd := if e_finished_reason e is Some _ then delete (e_rid e) else (λ x, x) : gmap string nat → gmap string nat).
  assert (Ed : ∀ A (k : unit → M (TokenizerManager V) A),
    ((if match e_finished_reason e with Some _ => true | None => false end
      then modify (λ m, m <| rid_to_state ::= delete (e_rid e) |>) else mret tt) ≫= k) m = k tt (m <| rid_to_state ::= upd |>)).
  { intros A k. apply bind_ok. unfold upd. by destruct (e_finished_reason e), m. }
  unfold make_out, take_ids. rsimpl. rewrite E3. destruct (stream_output m && i_stream (rs_obj s)) eqn:Ep;
    (cbv beta iota zeta; rewrite Ed; eexists; split; [|reflexivity];
     split; rsimpl; [by rewrite ?E1|by rewrite ?E2|done|by destruct (e_finished_reason e)|done|done|];
     eexists; split; [apply last_snoc|]; cbn; rsimpl; by rewrite E5, ?E6).
Qed.

(** The request of a row gets it, if it runs. *)
Lemma row_own m ended id rs e t :
  task_ok m ended (e_rid e) id rs → logprobs_ok e →
  ∃ m', handle_row token_texts (StrRow e t) m = (Ok tt, m') ∧
    task_ok m' ended (e_rid e) id (if finish_of rs is Some _ then rs else rs ++ [(e, t)]) ∧
    stream_output m' = stream_output m ∧ (∀ j, j ≠ id → states m' !! j = states m !! j) ∧
    (∀ k, k ≠ e_rid e → rid_to_state m' !! k = rid_to_state m !! k).
Proof.
  intros T Hl. pose proof T as [(s & Hs & Hk & Hw & Hst) Hn Ho]. destruct (finish_of rs) eqn:Ef.
  { exists m. unfold handle_row. rewrite (bind_ok _ _ m m m) by done. cbn [row_rid]. by rewrite Hn. }
  destruct (row_handled m id s e t Hn Hs Hl) as (s' & [G1 G2 G3 G4 G5 _ (out & G6 & G7 & G8 & G9)] & ->).
  rewrite Hw in G8.
  destruct (rows_snoc rs e t) as (R1 & R2 & R3). destruct Hst as [S1 S2 _ _ _].
  eexists. split; [reflexivity|]. rsimpl. split_and!; [|done|intros; by rewrite lookup_insert_ne|].
  - split; rsimpl.
    + rewrite lookup_insert_eq. exists s'. rewrite G3. split_and!; try done. split; rewrite ?R1, ?R2, ?R3, ?G1, ?G2, ?S1, ?S2; try done.
      * intros _ _. exists out. split; [done|]. split; [by rewrite G7, G1, S1, R2|by rewrite G8, G2, S2, R3|by rewrite G9, R1].
      * congruence.
    + rewrite R1. destruct (e_finished_reason e); [apply lookup_delete_eq|done].
    + intros k Hk'. apply Ho. destruct (e_finished_reason e); [by apply lookup_delete_Some in Hk' as [_ ?]|done].
  - intros k Hne. destruct (e_finished_reason e); [by apply lookup_delete_ne|done].
Qed.

(** *** Rows on a server that gives tokens in pieces *)

(** A message with one row *)
Definition one_row (x : StreamEntry * PyStr) : TokMsg V := FromDetokenizer (BatchStrOutput [x.1] [x.2]).

Definition goes_on k (x : StreamEntry * PyStr) : Prop :=
  e_rid x.1 = k ∧ e_finished_reason x.1 = None ∧ logprobs_ok x.1.

Lemma one_row_handled x m : dispatch token_texts (one_row x) m = handle_row token_texts (StrRow x.1 x.2) m.
Proof.
  unfold one_row, dispatch. cbn. destruct (handle_row token_texts _ m) as [[[]|] m']; done.
Qed.

(** The state has given out, or holds in its last output, every token. *)
Record piece_ok m k id s : Prop := {
  pc_pieces : stream_output m && i_stream (rs_obj s) = true;
  pc_named : rid_to_state m !! k = Some id;
  pc_state : states m !! id = Some s;
  pc_offset : last_output_offset s = len (rs_output_ids s)
}.

Lemma piece_row m k id s e t :
  piece_ok m k id s → e_rid e = k → logprobs_ok e →
  ∃ s' m' out, dispatch token_texts (one_row (e, t)) m = (Ok tt, m') ∧ gets_row true e t s s' ∧
    states m' !! id = Some s' ∧ (e_finished_reason e = None → piece_ok m' k id s') ∧
    last (out_list s') = Some out ∧ od_text out = Some (rs_text s ++ t) ∧ od_output_ids out = Some (e_output_ids e) ∧
    m_finish_reason (od_meta out) = e_finished_reason e.
Proof.
  intros [Hp Hn Hs Ho] <- Hl. rewrite one_row_handled. cbn [fst snd].
  destruct (row_handled m id s e t Hn Hs Hl) as (s' & G & ->). rewrite Hp in G.
  pose proof G as [G1 G2 G3 _ _ G6 (out & O1 & O2 & O3 & O4)].
  eexists s', _, out. split; [reflexivity|]. rsimpl. rewrite lookup_insert_eq. split_and!; try done.
  - intros ->. split; rsimpl; [by rewrite G3|done|apply lookup_insert_eq|done].
  - by rewrite O2, G1.
  - rewrite O3, G2, Ho, slice_from_drop by (unfold len; lia). unfold len. by rewrite Nat2Z.id, drop_app_length.
Qed.

Lemma piece_rows rows m k id s :
  piece_ok m k id s → Forall (goes_on k) rows →
  ∃ s' m', for_ (one_row <$> rows) (dispatch token_texts) m = (Ok tt, m') ∧ piece_ok m' k id s' ∧
    rs_text s' = rs_text s ++ text_of rows ∧ rs_output_ids s' = rs_output_ids s ++ ids_received rows ∧ rs_obj s' = rs_obj s.
Proof.
  intros Hm F. revert m s Hm. induction F as [|[e t] rows (E1 & E2 & E3) F IH]; intros m s Hm.
  { exists s, m. unfold text_of, ids_received. cbn. by rewrite !app_nil_r. }
  destruct (piece_row m k id s e t Hm E1 E3) as (s1 & m1 & out & Ed & G & _ & Hm1 & _).
  destruct (IH m1 s1 (Hm1 E2)) as (s' & m' & Ef & Hp & T1 & T2 & T3). exists s', m'.
  rewrite fmap_cons. cbn [for_]. rewrite Ed. split_and!; [done|done| | |by rewrite T3, (gr_obj _ _ _ _ _ G)].
  - by rewrite T1, (gr_text _ _ _ _ _ G), <- app_assoc.
  - by rewrite T2, (gr_ids _ _ _ _ _ G), <- app_assoc.
Qed.

(** The turn of the task of a streaming request takes the last output. *)
Lemma piece_turn m id s out gone :
  states m !! id = Some s → rs_event s = true → last (out_list s) = Some out → i_stream (rs_obj s) = true →
  (∀ msg c, m_finish_reason (od_meta out) ≠ Some (FINISH_ABORT msg (Some c))) →
  ∃ turn m' s', wait_turn id gone m = (Ok turn, m') ∧ turn = (if rs_finished s then Returns out else Yields out) ∧
    states m' !! id = Some s' ∧ out_list s' = [] ∧ rs_output_ids s' = rs_output_ids s ∧
    last_output_offset s' = last_output_offset s.
Proof.
  intros Hs He Ho Hst Hf. unfold wait_turn, state_at. rewrite (bind_ok _ _ m s m) by (by rewrite Hs).
  cbv zeta. rewrite He. cbn [negb]. rewrite (bind_ok _ _ m out m) by (by rewrite Ho).
  unfold set_state. set (s1 := s <| out_list := [] |>).
  rewrite (bind_ok _ _ m tt (m <| states ::= <[id := s1]> |>)) by done. change (rs_finished s1) with (rs_finished s).
  destruct (rs_finished s) eqn:Efin.
  - exists (Returns out), (m <| states ::= <[id := s1]> |>), s1. rsimpl. rewrite lookup_insert_eq. split_and!; try done.
    destruct (m_finish_reason (od_meta out)) as [[]|] eqn:Em; try done. case_match; [|done]. by destruct (Hf message z).
  - set (s2 := s1 <| rs_event := false |>).
    exists (Yields out), (m <| states ::= <[id := s1]> |> <| states ::= <[id := s2]> |>), s2. rewrite Hst.
    split; [done|]. rsimpl. by rewrite lookup_insert_eq.
Qed.

Lemma serve_recv msgs m m' ended given evs :
  for_ msgs (dispatch token_texts) m = (Ok tt, m') →
  foldM (λ given ev, new ← serve_one token_texts ev; mret (given ++ new)) given ((Recv <$> msgs) ++ evs) (m, ended) =
    foldM (λ given ev, new ← serve_one token_texts ev; mret (given ++ new)) given evs (m', ended).
Proof.
  revert m given. induction msgs as [|msg msgs IH]; intros m given; cbn [for_ fmap list_fmap app foldM]; [by intros [= <-]|].
  unfold mbind, M_bind, serve_one at 1. destruct (dispatch token_texts msg m) as [[[]|] m1]; [|done].
  intros Hf. cbn. rewrite app_nil_r. by apply IH.
Qed.

(** ** All requests *)

Section Manager.
Context (objs : list ReqInput) (Hrids : NoDup (i_rid <$> objs)).

(** The rows of [k] among the rows received *)
Definition own_rows (k : string) (ps : list (StreamEntry * PyStr)) : list (StreamEntry * PyStr) :=
  upto_finish (filter (λ x, e_rid x.1 = k) ps).

Record manager_ok m (ended : list nat) (ps : list (StreamEntry * PyStr)) : Prop := {
  mk_tasks : ∀ i obj, objs !! i = Some obj → task_ok m ended (i_rid obj) i (own_rows (i_rid obj) ps);
  mk_names : ∀ k id, rid_to_state m !! k = Some id → ∃ obj, objs !! id = Some obj ∧ i_rid obj = k
}.

Lemma own_rows_snoc k ps e t :
  own_rows k (ps ++ [(e, t)]) =
    if decide (e_rid e = k) then (if finish_of (own_rows k ps) is Some _ then own_rows k ps else own_rows k ps ++ [(e, t)])
    else own_rows k ps.
Proof.
  unfold own_rows. rewrite filter_app, filter_cons. cbn [fst]. destruct (decide (e_rid e = k)); [by rewrite upto_snoc|].
  cbn. by rewrite app_nil_r.
Qed.

Lemma same_rid i j o o' : objs !! i = Some o → objs !! j = Some o' → i_rid o = i_rid o' → i = j.
Proof.
  intros Hi Hj E. eapply (NoDup_lookup _ i j (i_rid o) Hrids); rewrite list_lookup_fmap; [by rewrite Hi|by rewrite Hj, E].
Qed.

(** A task whose state and name are left alone *)
Lemma task_frame m m' ended k id rs :
  task_ok m ended k id rs → stream_output m' = stream_output m → states m' !! id = states m !! id →
  rid_to_state m' !! k = rid_to_state m !! k → (∀ k', rid_to_state m' !! k' = Some id → k' = k) →
  task_ok m' ended k id rs.
Proof.
  intros [(s & Hs & Hk & Hw & Hst) Hn _] Eso Es En Ho. split; [|by rewrite En|done].
  exists s. rewrite Es. unfold whole in *. by rewrite Eso.
Qed.

Lemma named_once m ended k id rs j : task_ok m ended k id rs → rid_to_state m !! k = Some j → j = id.
Proof. intros [_ Hn _] Hj. rewrite Hn in Hj. destruct (finish_of rs); [done|]. by injection Hj as <-. Qed.

Lemma manager_row m ended ps e t :
  manager_ok m ended ps → logprobs_ok e →
  ∃ m', handle_row token_texts (StrRow e t) m = (Ok tt, m') ∧ manager_ok m' ended (ps ++ [(e, t)]).
Proof using Hrids.
  intros [T N] Hl. destruct (rid_to_state m !! e_rid e) as [id|] eqn:En; cycle 1.
  { exists m. split; [unfold handle_row; rewrite (bind_ok _ _ m m m) by done; cbn [row_rid]; by rewrite En|].
    split; [|done]. intros i obj Hi. pose proof (T i obj Hi) as Ti. rewrite own_rows_snoc. case_decide as Hd; [|done].
    pose proof (tk_named _ _ _ _ _ Ti) as Hn. rewrite <- Hd, En in Hn. rewrite <- Hd in Ti |- *.
    destruct (finish_of (own_rows (e_rid e) ps)); [done|]. discriminate Hn. }
  destruct (N _ _ En) as (obj & Hobj & Erid). pose proof (T id obj Hobj) as Tid. rewrite Erid in Tid.
  destruct (row_own m ended id _ e t Tid Hl) as (m' & E & T' & Eso & Hs & Hr). exists m'. split; [done|].
  pose proof (λ j, named_once _ _ _ _ _ j T') as Hid. split.
  - intros i o Hi. rewrite own_rows_snoc. destruct (decide (e_rid e = i_rid o)) as [Hd|Hd].
    + assert (i = id) as -> by (eapply same_rid; [done..|congruence]). by rewrite <- Hd.
    + apply (task_frame m); [by apply T|done|apply Hs; intros ->; congruence|by apply Hr|].
      intros k' Hk'. destruct (decide (k' = e_rid e)) as [->|Hne]; [|rewrite Hr in Hk' by done; by apply (tk_only _ _ _ _ _ (T i o Hi))].
      apply Hid in Hk' as ->. congruence.
  - intros k i Hk. destruct (decide (k = e_rid e)) as [->|Hne]; [|rewrite Hr in Hk by done; by apply N].
    apply Hid in Hk as ->. by exists obj.
Qed.

Lemma manager_rows m ended ps rows :
  manager_ok m ended ps → Forall (λ x, logprobs_ok x.1) rows →
  ∃ m', for_ ((λ x, StrRow x.1 x.2) <$> rows) (handle_row token_texts) m = (Ok tt, m') ∧ manager_ok m' ended (ps ++ rows).
Proof using Hrids.
  intros Hm F. revert m ps Hm. induction F as [|[e t] rows He F IH]; intros m ps Hm.
  { exists m. by rewrite app_nil_r. }
  destruct (manager_row m ended ps e t Hm He) as (m1 & E1 & M1). destruct (IH m1 _ M1) as (m' & E & M').
  exists m'. cbn [fmap list_fmap for_ fst snd]. rewrite E1. split; [exact E|]. by rewrite <- app_assoc in M'.
Qed.

(** *** A turn of a waiting task *)

Lemma state_ok_ended b b' rs s : state_ok b rs s → (b = true → b' = true) → state_ok b' rs s.
Proof. intros [S1 S2 S3 S4 S5] Hb. split; [done..| |]; (intros ->; destruct b; [by specialize (Hb eq_refl)|by auto]). Qed.

Lemma manager_ended m ended ps id : manager_ok m ended ps → manager_ok m (ended ++ [id]) ps.
Proof.
  intros [T N]. split; [|done]. intros i obj Hi. destruct (T i obj Hi) as [(s & Hs & Hk & Hw & Hst) Hn Ho].
  split; [|done|done]. exists s. split_and!; try done. eapply state_ok_ended; [done|]. intros Hd%bool_decide_eq_true.
  apply bool_decide_eq_true, elem_of_app. by left.
Qed.

(** Writing a state that is still in order *)
Lemma manager_put m ended ps id s :
  manager_ok m ended ps → (∀ obj, objs !! id = Some obj → i_rid (rs_obj s) = i_rid obj ∧ whole m (rs_obj s) ∧
    state_ok (bool_decide (id ∈ ended)) (own_rows (i_rid obj) ps) s) →
  manager_ok (m <| states ::= <[id := s]> |>) ended ps.
Proof.
  intros [T N] Hs. split; [|done]. intros i obj Hi. pose proof (T i obj Hi) as [(s0 & H0 & Hk & Hw & Hst) Hn Ho].
  split; [|done|done]. rsimpl. destruct (decide (i = id)) as [->|Hne].
  - exists s. rewrite lookup_insert_eq. by destruct (Hs obj Hi) as (? & ? & ?).
  - exists s0. by rewrite lookup_insert_ne.
Qed.

(** Messages to the scheduler are of no account. *)
Lemma manager_sched m ended ps f : manager_ok m ended ps → manager_ok (m <| to_scheduler ::= f |>) ended ps.
Proof. intros [T N]. split; [|done]. intros i obj Hi. by destruct (T i obj Hi). Qed.

Definition ends (r : res (Turn V)) : bool := match r with Ok Waits | Ok (Yields _) => false | _ => true end.

Definition turn_shows rs (r : res (Turn V)) : Prop :=
  match r with
  | Ok (Yields out) => shows rs out
  | Ok (Returns out) => shows rs out ∧ is_Some (finish_of rs)
  | _ => True
  end.

Lemma disconnect_ok m ended ps s :
  manager_ok m ended ps → ∃ m', disconnect s m = (Raise ValueError, m') ∧ manager_ok m' ended ps.
Proof.
  intros Hm. unfold disconnect. set (b := negb false && bool_decide (rid_to_state m !! i_rid (rs_obj s) = None)).
  set (m' := if b then m else m <| to_scheduler ::= λ l, l ++ [SchedulerAbort (mkAbortReq (i_rid (rs_obj s)) false None None)] |>).
  exists m'. rewrite (bind_ok _ _ m tt m').
  - split; [done|]. unfold m'. destruct b; [done|by apply manager_sched].
  - unfold abort_request. rewrite (bind_ok _ _ m m m) by done. fold b. unfold m'. by destruct b.
Qed.

(** A turn that takes the output of a finished request *)
Lemma finished_turn m (s : ReqState V) out (obj := rs_obj s) k :
  i_rid obj = k → rid_to_state m !! k = None →
  ∃ r, match m_finish_reason (od_meta out) with
      | Some (FINISH_ABORT _ (Some code)) =>
          if code =? BAD_REQUEST then
            if i_stream obj then mret (Returns out) else throw ValueError
          else if (code =? SERVICE_UNAVAILABLE) || (code =? INTERNAL_SERVER_ERROR) then
            modify (λ m, m <| rid_to_state ::= delete (i_rid obj) |>);;
            if i_stream obj then mret (Returns out) else throw HTTPException
          else mret (Returns out)
      | _ => mret (Returns out)
      end m = (r, m) ∧ ends r = true ∧ (∀ t, r = Ok t → t = Returns out) ∧
    ((∀ msg c, m_finish_reason (od_meta out) ≠ Some (FINISH_ABORT msg (Some c))) → r = Ok (Returns out)).
Proof.
  intros Hk Hn.
  assert (Hdel : m <| rid_to_state ::= delete (i_rid obj) |> = m).
  { rewrite Hk. destruct m as [st d n sc so sk]. cbn in Hn.
    trans (mkTokenizerManager st (delete k d) n sc so sk); [done|]. by rewrite delete_id. }
  destruct (m_finish_reason (od_meta out)) as [[z|t|t|n|msg [c|]]|];
    try (eexists; split; [reflexivity|]; split_and!; [done|by intros ? [= <-]|done]).
  destruct (c =? BAD_REQUEST); [|destruct (_ || _)].
  - destruct (i_stream obj); (eexists; split; [reflexivity|]; split_and!; [done|by intros ? [= <-]|by intros Hx; destruct (Hx msg c)]).
  - rewrite (bind_ok _ _ m tt m) by (unfold modify; by rewrite Hdel).
    destruct (i_stream obj); (eexists; split; [reflexivity|]; split_and!; [done|by intros ? [= <-]|by intros Hx; destruct (Hx msg c)]).
  - eexists; split; [reflexivity|]. split_and!; [done|by intros ? [= <-]|done].
Qed.

(** The state when its output has been taken *)
Lemma state_taken rs b s s' :
  state_ok false rs s → rs_text s' = rs_text s → rs_output_ids s' = rs_output_ids s → rs_finished s' = rs_finished s →
  (b = false → rs_event s' = false ∧ finish_of rs = None) → state_ok b rs s'.
Proof.
  intros [S1 S2 S3 _ _] T2 T3 T4 T5. split; [congruence..| |]; (intros Hb He; destruct (T5 Hb) as [T6 T7]; congruence).
Qed.

Lemma put_put m id s s' : m <| states ::= <[id := s]> |> <| states ::= <[id := s']> |> = m <| states ::= <[id := s']> |>.
Proof.
  destruct m as [st d n sc so sk]. trans (mkTokenizerManager (<[id := s']> (<[id := s]> st)) d n sc so sk); [done|].
  by rewrite insert_insert_eq.
Qed.

Lemma turn_ok m ended ps id gone obj :
  manager_ok m ended ps → objs !! id = Some obj → id ∉ ended →
  ∃ r m', wait_turn id gone m = (r, m') ∧ turn_shows (own_rows (i_rid obj) ps) r ∧
    manager_ok m' (if ends r then ended ++ [id] else ended) ps ∧
    (∀ f, finish_of (own_rows (i_rid obj) ps) = Some f → (∀ msg c, f ≠ FINISH_ABORT msg (Some c)) →
       ∃ out, r = Ok (Returns out)).
Proof.
  intros Hm Hobj Hne. destruct (mk_tasks _ _ _ Hm id obj Hobj) as [(s & Hs & Hk & Hw & Hst) Hn Ho].
  set (rs := own_rows (i_rid obj) ps) in *. rewrite bool_decide_eq_false_2 in Hst by done.
  unfold wait_turn. rewrite (bind_ok _ _ m s m) by (unfold state_at; by rewrite Hs). cbv beta zeta.
  destruct (rs_event s) eqn:Ee; cbn [negb]; cycle 1.
  { pose proof (st_quiet _ _ _ Hst eq_refl Ee) as Hq.
    destruct (gone && _).
    - destruct (disconnect_ok m ended ps s Hm) as (m' & E & M'). exists (Raise ValueError), m'.
      split_and!; [done|done|by apply manager_ended|congruence].
    - exists (Ok Waits), m. split_and!; [done|done|done|congruence]. }
  destruct (st_event _ _ _ Hst eq_refl Ee) as (out & Hout & Hsh).
  rewrite (bind_ok _ _ m out m) by (unfold lift; by rewrite Hout). cbv beta zeta.
  set (m1 := m <| states ::= <[id := s <| out_list := [] |>]> |>).
  rewrite (bind_ok _ _ m tt m1) by done. rsimpl. rewrite (st_finished _ _ _ Hst).
  destruct (finish_of rs) as [f|] eqn:Ef.
  - assert (M1 : manager_ok m1 (ended ++ [id]) ps).
    { apply manager_put; [by apply manager_ended|]. intros o Ho'. assert (o = obj) as -> by congruence. split_and!; [done|done|].
      rewrite bool_decide_eq_true_2 by (apply elem_of_app; right; by apply list_elem_of_singleton). by apply (state_taken _ _ s). }
    destruct (finished_turn m1 s out (i_rid obj) Hk Hn) as (r & E & Er & Hr & Hret). exists r, m1. rewrite Er.
    rewrite (sh_finish _ _ Hsh), Ef in Hret. split_and!; [exact E| |done|].
    + destruct r as [t|]; [|done]. rewrite (Hr t eq_refl). split; [done|]. by rewrite Ef.
    + intros f' [= <-] Hf. exists out. apply Hret. intros msg c [= ->]. by apply (Hf msg c).
  - set (s2 := s <| out_list := [] |> <| rs_event := false |>). set (m2 := m1 <| states ::= <[id := s2]> |>).
    assert (M2 : manager_ok m2 ended ps).
    { assert (E12 : m2 = m <| states ::= <[id := s2]> |>) by apply put_put.
      rewrite E12. apply manager_put; [done|]. intros o Ho'. assert (o = obj) as -> by congruence. split_and!; [done|done|].
      by apply (state_taken _ _ s). }
    rewrite (bind_ok _ _ m1 tt m2) by done. destruct (i_stream (rs_obj s)); [|destruct (gone && _)].
    + exists (Ok (Yields out)), m2. by split_and!.
    + destruct (disconnect_ok m2 ended ps (s <| out_list := [] |>) M2) as (m' & E & M'). exists (Raise ValueError), m'.
      split_and!; [exact E|done|by apply manager_ended|congruence].
    + exists (Ok Waits), m2. by split_and!.
Qed.

(** ** The event loop *)

Definition pairs_of (evs : list (Ev (V := V))) : list (StreamEntry * PyStr) := concat (pairs_in <$> received evs).

(** After the events [pre], when the clients have been [given] outputs *)
Record served (pre : list (Ev (V := V))) (given : list (nat * Turn V)) (x : TokenizerManager V * list nat) : Prop := {
  sv_manager : manager_ok x.1 x.2 (pairs_of pre);
  sv_shown : ∀ i obj out, objs !! i = Some obj → (i, Yields out) ∈ given ∨ (i, Returns out) ∈ given →
    ∃ pre', pre' `prefix_of` pre ∧ shows (own_rows (i_rid obj) (pairs_of pre')) out;
  sv_returned : ∀ i obj out, objs !! i = Some obj → (i, Returns out) ∈ given →
    shows (own_rows (i_rid obj) (pairs_of pre)) out ∧ is_Some (finish_of (own_rows (i_rid obj) (pairs_of pre)))
}.

Lemma pairs_snoc pre ev :
  pairs_of (pre ++ [ev]) = pairs_of pre ++ match ev with Recv (FromDetokenizer msg) => pairs_in msg | _ => [] end.
Proof.
  unfold pairs_of, received. rewrite omap_app, fmap_app, concat_app. f_equal.
  destruct ev as [[msg| | |]|]; cbn; by rewrite ?app_nil_r.
Qed.

(** What comes after the finish changes nothing. *)
Lemma own_rows_finished k ps ps' : is_Some (finish_of (own_rows k ps)) → own_rows k (ps ++ ps') = own_rows k ps.
Proof.
  intros [f Hf]. induction ps' as [|[e t] ps' IH] using rev_ind; [by rewrite app_nil_r|].
  rewrite app_assoc, own_rows_snoc, IH, Hf. by case_decide.
Qed.

Lemma str_rows rows (strs : list PyStr) : zip_with StrRow rows strs = (λ x, StrRow (V := V) x.1 x.2) <$> zip rows strs.
Proof. revert strs. induction rows as [|e rows IH]; intros [|t strs]; try done. cbn. f_equal. apply IH. Qed.

(** The outputs of one event *)
Lemma served_more pre given x ev new x' :
  served pre given x → manager_ok x'.1 x'.2 (pairs_of (pre ++ [ev])) →
  (∀ i obj out, objs !! i = Some obj → (i, Yields out) ∈ new → shows (own_rows (i_rid obj) (pairs_of (pre ++ [ev]))) out) →
  (∀ i obj out, objs !! i = Some obj → (i, Returns out) ∈ new →
     shows (own_rows (i_rid obj) (pairs_of (pre ++ [ev]))) out ∧ is_Some (finish_of (own_rows (i_rid obj) (pairs_of (pre ++ [ev]))))) →
  served (pre ++ [ev]) (given ++ new) x'.
Proof.
  intros [_ H2 H3] Hm Hy Hr. split; [done| |].
  - intros i obj out Hi. rewrite !elem_of_app. intros Hin.
    assert (Hc : ((i, Yields out) ∈ given ∨ (i, Returns out) ∈ given) ∨ (i, Yields out) ∈ new ∨ (i, Returns out) ∈ new) by naive_solver.
    destruct Hc as [Hc|Hc].
    + destruct (H2 i obj out Hi Hc) as (pre' & Hp & Hs). exists pre'. split; [by apply prefix_app_r|done].
    + exists (pre ++ [ev]). split; [done|]. destruct Hc as [Hc|Hc]; [by apply (Hy i obj)|by apply (Hr i obj)].
  - intros i obj out Hi [Hin|Hin]%elem_of_app; [|by apply (Hr i obj)].
    destruct (H3 i obj out Hi Hin) as [Hs Hf]. rewrite pairs_snoc, own_rows_finished by done. done.
Qed.

Lemma serve_one_ok pre given x ev :
  served pre given x → text_event objs ev →
  ∃ new x', serve_one token_texts ev x = (Ok new, x') ∧ served (pre ++ [ev]) (given ++ new) x'.
Proof using Hrids.
  intros Hs Hev. destruct x as [m ended]. pose proof (sv_manager _ _ _ Hs) as Hm. cbn [fst snd] in Hm.
  destruct ev as [msg|id gone].
  - destruct msg as [[|rows strs]| | |]; try done. cbn in Hev.
    destruct (manager_rows m ended (pairs_of pre) (zip rows strs) Hm) as (m' & E & M').
    { apply Forall_forall. intros [e t] Hx. apply elem_of_zip_l in Hx. rewrite Forall_forall in Hev. by apply Hev. }
    exists [], (m', ended). split.
    + unfold serve_one, dispatch, rows_in. by rewrite str_rows, E.
    + eapply served_more; [done|by rewrite pairs_snoc| |]; intros i obj out _ Hin; by apply elem_of_nil in Hin.
  - destruct Hev as [obj Hobj]. unfold serve_one.
    assert (Hp : pairs_of (pre ++ [Wake id gone]) = pairs_of pre) by (rewrite pairs_snoc; apply app_nil_r).
    case_decide as Hd.
    { exists [], (m, ended). split; [done|]. eapply served_more; [done|by rewrite Hp| |]; intros i o out _ Hin; by apply elem_of_nil in Hin. }
    destruct (turn_ok m ended (pairs_of pre) id gone obj Hm Hobj Hd) as (r & m' & E & Ht & M' & _). rewrite E.
    destruct r as [[|out|out]|e]; cbn [ends turn_shows] in *; (eexists _, _; split; [reflexivity|]);
      (eapply served_more; [done|by rewrite Hp|..]); intros i o out' Hi Hin;
      try (by apply elem_of_nil in Hin); apply list_elem_of_singleton in Hin; try done;
      injection Hin as -> ->; assert (o = obj) as -> by congruence; by rewrite Hp.
Qed.

Lemma serve_ok evs pre given x :
  served pre given x → Forall (text_event objs) evs →
  ∃ given' x', foldM (λ given ev, new ← serve_one token_texts ev; mret (given ++ new)) given evs x = (Ok given', x') ∧
    served (pre ++ evs) given' x'.
Proof using Hrids.
  intros Hs F. revert pre given x Hs. induction F as [|ev evs Hev F IH]; intros pre given x Hs.
  { exists given, x. by rewrite app_nil_r. }
  destruct (serve_one_ok pre given x ev Hs Hev) as (new & x1 & E1 & S1).
  destruct (IH _ _ _ S1) as (given' & x' & E & S'). exists given', x'.
  cbn [foldM]. rewrite (bind_ok _ _ x new x1 E1). unfold mret at 1, M_ret at 1. cbv beta iota. split; [exact E|].
  by rewrite <- app_assoc in S'.
Qed.
End Manager.

(** ** The start *)

Record sent_requests so pre m : Prop := {
  sq_next : next_state m = length pre;
  sq_states : ∀ i, states m !! i = new_state <$> pre !! i;
  sq_names : ∀ k id, rid_to_state m !! k = Some id ↔ ∃ obj, pre !! id = Some obj ∧ i_rid obj = k;
  sq_stream : stream_output m = so
}.

Lemma send_ok so pre m obj :
  sent_requests so pre m → i_rid obj ∉ i_rid <$> pre →
  ∃ m', (_send_one_request obj;; mret tt) m = (Ok tt, m') ∧ sent_requests so (pre ++ [obj]) m'.
Proof.
  intros [Q1 Q2 Q3 Q4] Hnew. unfold _send_one_request, mbind, M_bind, mret, M_ret. rewrite Q1.
  eexists. split; [reflexivity|]. split; rsimpl.
  - rewrite length_app. cbn. lia.
  - intros i. destruct (decide (i = length pre)) as [->|Hi].
    + by rewrite lookup_insert_eq, list_lookup_middle.
    + rewrite lookup_insert_ne by done. rewrite Q2. destruct (decide (i < length pre)%nat); [by rewrite lookup_app_l|].
      rewrite !lookup_ge_None_2; [done|rewrite length_app; cbn; lia|lia].
  - intros k id. destruct (decide (k = i_rid obj)) as [->|Hk].
    + rewrite lookup_insert_eq. split.
      * intros [= <-]. exists obj. by rewrite list_lookup_middle.
      * intros (o & [Ho|[Hl Ho]]%lookup_app_Some & Er).
        -- destruct Hnew. rewrite <- Er. apply list_elem_of_fmap_2. by eapply list_elem_of_lookup_2.
        -- apply list_lookup_singleton_Some in Ho as [Hd _]. f_equal. lia.
    + rewrite lookup_insert_ne by done. rewrite Q3. split; intros (o & Ho & Er); exists o; (split; [|done]).
      * by apply lookup_app_l_Some.
      * apply lookup_app_Some in Ho as [Ho|[_ Ho]]; [done|]. apply list_lookup_singleton_Some in Ho as [_ ->]. congruence.
  - done.
Qed.

Lemma opened_ok objs so skip : NoDup (i_rid <$> objs) → sent_requests so objs (opened (V := V) objs so skip).
Proof.
  intros Hnd. unfold opened. set (m0 := mkTokenizerManager ∅ ∅ 0 [] so skip).
  assert (H0 : sent_requests so [] m0).
  { split; cbn; [done|done| |done]. intros k id. rewrite lookup_empty. split; [done|]. by intros (? & ? & _). }
  change objs with ([] ++ objs) in Hnd |- * at 1. revert H0 Hnd. generalize m0. generalize (@nil ReqInput).
  induction objs as [|obj objs IH]; intros pre m H0 Hnd; [by rewrite app_nil_r in Hnd |- *|].
  rewrite fmap_app in Hnd. pose proof Hnd as (_ & Hd & _)%NoDup_app.
  destruct (send_ok so pre m obj H0) as (m' & E & H1).
  { intros Hin. apply (Hd _ Hin). rewrite fmap_cons. by left. }
  cbn [for_]. rewrite E. specialize (IH (pre ++ [obj]) m' H1). rewrite <- app_assoc in IH. apply IH.
  by rewrite fmap_app.
Qed.

Lemma opened_manager objs so skip :
  NoDup (i_rid <$> objs) → Forall (λ obj, so && i_stream obj = false) objs → manager_ok objs (opened objs so skip) [] [].
Proof.
  intros Hnd Hw. destruct (opened_ok objs so skip Hnd) as [Q1 Q2 Q3 Q4]. split; [|by intros k id Hk%Q3].
  intros i obj Hi. split.
  - exists (new_state obj). rewrite Q2, Hi. split_and!; [done|done|unfold whole; rewrite Q4; by apply (Forall_lookup_1 _ _ _ _ Hw Hi)|].
    by split.
  - cbn. apply Q3. by exists obj.
  - intros k' Hk'. apply Q3 in Hk' as (o & Ho & <-). congruence.
Qed.

Lemma serve_opened objs so skip evs :
  NoDup (i_rid <$> objs) → Forall (λ obj, so && i_stream obj = false) objs → Forall (text_event objs) evs →
  ∃ given x, serve token_texts evs (opened objs so skip, []) = (Ok given, x) ∧ served objs evs given x.
Proof.
  intros Hnd Hw F. apply (serve_ok objs Hnd evs [] [] (opened objs so skip, [])); [|done].
  split; [by apply opened_manager| |]; intros i obj out _ Hin.
  - by destruct Hin as [?%elem_of_nil|?%elem_of_nil].
  - by apply elem_of_nil in Hin.
Qed.
End Responses.
