(* ===== verification/DetokFacts.v ===== *)
(** * Facts about the detokenizer

    Printable text, the laws of incremental decoding, the dictionary, and
    the batch handler row by row: every row is decoded from the status of
    its own request. *)

From S2P Require Import Prelude PyFloat Allocator Request ReqPool LLM42Info World MemCommon LLM42Worker Scheduler Detokenizer.

(** ** Printable text *)

Module TextFacts.
Import Text.

Lemma rfind_bounds s c : -1 ≤ rfind s c < len s ∨ s = [] ∧ rfind s c = -1.
Proof.
  induction s as [|x s IH]; [by right|]. left. cbn [rfind]. rewrite len_cons. pose proof (len_nonneg s).
  destruct (Z.leb_spec 0 (rfind s c)); [|destruct (x =? c); lia].
  destruct IH as [?|[-> ?]]; [lia|]. cbn in *. lia.
Qed.

(** The text up to and with the last [c] ... *)
Lemma rfind_last s c :
  slice_to s (rfind s c + 1) = [] ∨ last (slice_to s (rfind s c + 1)) = Some c.
Proof.
  rewrite slice_to_take by (destruct (rfind_bounds s c) as [?|[_ ?]]; lia).
  induction s as [|x s IH]; [by left|]. cbn [rfind].
  destruct (Z.leb_spec 0 (rfind s c)) as [Hi|Hi].
  - right. replace (Z.to_nat (rfind s c + 1 + 1)) with (S (Z.to_nat (rfind s c + 1))) by lia. cbn [take].
    destruct IH as [E|E]; [|by rewrite last_cons, E].
    destruct s as [|y s]; [cbn in Hi; lia|].
    replace (Z.to_nat (rfind (y :: s) c + 1)) with (S (Z.to_nat (rfind (y :: s) c))) in E by lia. done.
  - destruct (Z.eqb_spec x c) as [->|]; [by right|by left].
Qed.

(** ... has every prefix that ends with [c]. *)
Lemma rfind_max s c q : q `prefix_of` s → last q = Some c → q `prefix_of` slice_to s (rfind s c + 1).
Proof.
  rewrite slice_to_take by (destruct (rfind_bounds s c) as [?|[_ ?]]; lia).
  revert q. induction s as [|x s IH]; intros q Hq Hl.
  { apply prefix_nil_inv in Hq as ->. done. }
  destruct q as [|y q]; [done|]. pose proof (prefix_cons_inv_1 _ _ _ _ Hq) as ->.
  apply prefix_cons_inv_2 in Hq. cbn [rfind]. destruct q as [|z q].
  - injection Hl as ->. rewrite Z.eqb_refl.
    destruct (Z.leb_spec 0 (rfind s c)) as [Hi|Hi]; [|by exists []].
    replace (Z.to_nat (rfind s c + 1 + 1)) with (S (Z.to_nat (rfind s c + 1))) by lia.
    cbn [take]. apply prefix_cons, prefix_nil.
  - specialize (IH (z :: q) Hq Hl). destruct (Z.leb_spec 0 (rfind s c)) as [Hi|Hi].
    + replace (Z.to_nat (rfind s c + 1 + 1)) with (S (Z.to_nat (rfind s c + 1))) by lia.
      cbn [take]. by apply prefix_cons.
    + replace (Z.to_nat (rfind s c + 1)) with 0%nat in IH by lia. by apply prefix_nil_inv in IH.
Qed.

(** Text without the replacement characters at its end *)
Fixpoint strip (s : PyStr) : PyStr :=
  match s with
  | [] => []
  | x :: s' => match strip s' with [] => if x =? REPLACEMENT then [] else [x] | t => x :: t end
  end.

Lemma strip_prefix s : strip s `prefix_of` s.
Proof.
  induction s as [|x s IH]; [done|]. cbn. destruct (strip s) as [|y t]; [|by apply prefix_cons].
  destruct (x =? REPLACEMENT); [apply prefix_nil|]. apply prefix_cons, prefix_nil.
Qed.

Lemma strip_max s q c : q `prefix_of` s → last q = Some c → c ≠ REPLACEMENT → q `prefix_of` strip s.
Proof.
  revert q. induction s as [|x s IH]; intros q Hq Hl Hc.
  { by apply prefix_nil_inv in Hq as ->. }
  destruct q as [|y q]; [done|]. pose proof (prefix_cons_inv_1 _ _ _ _ Hq) as ->.
  apply prefix_cons_inv_2 in Hq. cbn. destruct q as [|z q].
  - injection Hl as ->. destruct (strip s); [|apply prefix_cons, prefix_nil].
    rewrite (proj2 (Z.eqb_neq _ _) Hc). done.
  - specialize (IH (z :: q) Hq Hl Hc). destruct (strip s) as [|y t]; [by apply prefix_nil_inv in IH|].
    by apply prefix_cons.
Qed.

(** Text that waits for the rest of a character, and has no CJK character
    right before it, is printed up to its last space. *)
Lemma printable_waiting s :
  s = [] ∨ last s = Some REPLACEMENT → endswith s REPLACEMENT && chinese_at s 1 = false →
  find_printable_text s = slice_to s (rfind s SPACE + 1).
Proof.
  intros Hl Hc. unfold find_printable_text. destruct Hl as [->|Hl]; [done|].
  assert (Ew : endswith s REPLACEMENT = true) by (by apply bool_decide_eq_true). rewrite Ew in Hc. cbn in Hc. rewrite Hc.
  assert (E0 : chinese_at s 0 = false).
  { unfold chinese_at. apply last_Some in Hl as [t ->]. by rewrite reverse_snoc. }
  rewrite E0. unfold endswith. rewrite bool_decide_false; [done|]. rewrite Hl. done.
Qed.

Lemma slice_to_prefix {A} (s : list A) i : slice_to s i `prefix_of` s.
Proof. unfold slice_to. apply prefix_take. Qed.

End TextFacts.

(** ** What incremental decoding relies on

    [text_after D s l] is the text of [l] behind that of its prefix [s].
    When it is complete, that is, not empty and not in the middle of a
    character, the tokens that follow add the text they have behind the
    tokens just decoded; in any case more tokens only change the replacement
    characters at the end. *)
Definition text_after (D : list Z → PyStr) (s l : list Z) : PyStr := drop (length (D s)) (D l).

Definition complete (t : PyStr) : Prop := t ≠ [] ∧ last t ≠ Some Text.REPLACEMENT.

Record incremental (D : list Z → PyStr) : Prop := {
  inc_cut : ∀ s b c, complete (text_after D s (s ++ b)) →
    text_after D s (s ++ b ++ c) = text_after D s (s ++ b) ++ text_after D b (b ++ c);
  inc_grow : ∀ s b c,
    TextFacts.strip (text_after D s (s ++ b)) `prefix_of` text_after D s (s ++ b ++ c)
}.

(** ** One request *)

Section Stream.
Context (D : list Z → PyStr) (HD : incremental D).
Implicit Types (s : DecodeStatus) (p ids : list Z) (q : PyStr).

(** The status of a request whose tokens so far are [ids], the first of them
    the end [p] of its prompt; [q] is the incomplete text that was sent. *)
Record in_stream p ids q s : Prop := {
  is_ids : ds_decode_ids s = ids;
  is_offsets : 0 ≤ ds_surr_offset s ≤ ds_read_offset s ∧ ds_read_offset s ≤ len ids;
  is_sent : ds_sent_offset s = len (ds_decoded_text s ++ q);
  is_space : q = [] ∨ last q = Some Text.SPACE;
  is_text : ∀ c, text_after D p (ids ++ c) = ds_decoded_text s ++
    text_after D (slice ids (ds_surr_offset s) (ds_read_offset s)) (slice_from ids (ds_surr_offset s) ++ c);
  is_printed : ∀ c, q `prefix_of`
    text_after D (slice ids (ds_surr_offset s) (ds_read_offset s)) (slice_from ids (ds_surr_offset s) ++ c)
}.

(** What was sent is a prefix of all the text. *)
Lemma sent_prefix p ids q s c : in_stream p ids q s → (ds_decoded_text s ++ q) `prefix_of` text_after D p (ids ++ c).
Proof. intros [_ _ _ _ Ht Hp]. rewrite Ht. by apply prefix_app. Qed.

(** The ids to decode, when [k] arrives *)
Lemma stream_ids p ids q s k :
  in_stream p ids q s →
  let so := ds_surr_offset s in let ro := ds_read_offset s in
  slice (ids ++ k) so ro = slice ids so ro ∧
  slice_from (ids ++ k) so = slice_from ids so ++ k ∧
  slice_from (ids ++ k) so = slice ids so ro ++ slice_from (ids ++ k) ro ∧
  slice (ids ++ k) ro (len (ids ++ k)) = slice_from (ids ++ k) ro.
Proof.
  intros [_ [H1 H2] _ _ _ _] so ro. fold so ro in H1, H2. pose proof (len_nonneg k).
  assert (Hl : len (ids ++ k) = len ids + len k) by apply len_app.
  rewrite !slice_from_drop, !slice_nonneg by lia. unfold len in *. split_and!.
  - rewrite drop_app_le by lia. rewrite take_app_le; [done|]. rewrite length_drop. lia.
  - by rewrite drop_app_le by lia.
  - rewrite !drop_app_le by lia. rewrite app_assoc. f_equal.
    rewrite <- (take_drop (Z.to_nat ro - Z.to_nat so) (drop (Z.to_nat so) ids)) at 1. f_equal.
    rewrite drop_drop. f_equal. lia.
  - apply take_ge. rewrite length_drop. lia.
Qed.

(** The text that [advance] returns for a row that does not finish *)
Lemma prefix_drop {A} (a b : list A) : a `prefix_of` b → a ++ drop (length a) b = b.
Proof. intros [c ->]. by rewrite drop_app_length. Qed.

Lemma slice_from_len {A B} (a : list A) (b : list B) : slice_from b (len a) = drop (length a) b.
Proof. rewrite slice_from_drop by llia. unfold len. by rewrite Nat2Z.id. Qed.

Lemma stream_complete p ids q s k :
  in_stream p ids q s →
  let so := ds_surr_offset s in let ro := ds_read_offset s in
  let t := text_after D (slice ids so ro) (slice_from (ids ++ k) so) in
  complete t →
  in_stream p (ids ++ k) []
    (mkDecodeStatus (ds_decoded_text s ++ t) (ids ++ k) ro (len (ids ++ k)) (len (ds_decoded_text s ++ t))).
Proof using HD.
  intros I so ro t Hc. pose proof I as [_ [H1 H2] _ _ Ht _]. fold so ro in H1, H2, Ht.
  destruct (stream_ids p ids q s k I) as (E1 & E2 & E3 & E4). fold so ro in E1, E2, E3, E4.
  split; cbn [ds_decode_ids ds_surr_offset ds_read_offset ds_sent_offset ds_decoded_text].
  - done.
  - rewrite len_app in *. pose proof (len_nonneg k). lia.
  - by rewrite app_nil_r.
  - by left.
  - intros c. rewrite <- app_assoc, Ht, E4, <- app_assoc. f_equal.
    rewrite (app_assoc _ k c), <- E2, E3, <- app_assoc. unfold t. rewrite E3. apply (inc_cut _ HD).
    by rewrite <- E3.
  - intros c. apply prefix_nil.
Qed.

Lemma stream_waiting p ids q s k :
  in_stream p ids q s →
  let so := ds_surr_offset s in let ro := ds_read_offset s in
  let t := text_after D (slice ids so ro) (slice_from (ids ++ k) so) in
  let q' := slice_to t (Text.rfind t Text.SPACE + 1) in
  in_stream p (ids ++ k) q'
    (mkDecodeStatus (ds_decoded_text s) (ids ++ k) so ro (len (ds_decoded_text s ++ q'))) ∧
  q `prefix_of` q'.
Proof using HD.
  intros I so ro t q'. pose proof I as [_ [H1 H2] _ Hq Ht Hp]. fold so ro in H1, H2, Ht, Hp.
  destruct (stream_ids p ids q s k I) as (E1 & E2 & E3 & E4). fold so ro in E1, E2, E3, E4.
  pose proof (TextFacts.rfind_last t Text.SPACE) as Hl. fold q' in Hl. split.
  - split; cbn [ds_decode_ids ds_surr_offset ds_read_offset ds_sent_offset ds_decoded_text]; try done.
    + rewrite len_app. pose proof (len_nonneg k). lia.
    + intros c. by rewrite <- app_assoc, Ht, E1, E2, <- app_assoc.
    + intros c. rewrite E1. destruct Hl as [->|Hl]; [apply prefix_nil|].
      trans (TextFacts.strip t).
      * eapply TextFacts.strip_max; [apply TextFacts.slice_to_prefix|done|done].
      * unfold t. rewrite E3, <- app_assoc. apply (inc_grow _ HD).
  - destruct Hq as [->|Hq]; [apply prefix_nil|]. apply TextFacts.rfind_max; [|done].
    unfold t. rewrite E2. apply Hp.
Qed.
End Stream.

(** ** A row, from the status of its request *)

Section Rows.
Context `{TextTokenizer}.
Import Detokenizer.

Definition gathered (o : option DecodeStatus) (e : StreamEntry) : DecodeStatus :=
  match o with
  | None => init_status e
  | Some s => s <| ds_decode_ids ::= λ ids, ids ++ e_decode_ids e |>
  end.

Definition decode_of (e : StreamEntry) : list Z → PyStr :=
  decode (e_skip_special_tokens e) (e_spaces_between_special_tokens e).

Definition read_ids (gpt : bool) (s : DecodeStatus) (e : StreamEntry) : res (list Z) :=
  trim_ids gpt (slice_from (ds_decode_ids s) (ds_surr_offset s)) (e_finished_reason e) (e_no_stop_trim e).

Definition surr_ids (s : DecodeStatus) : list Z := slice (ds_decode_ids s) (ds_surr_offset s) (ds_read_offset s).

(** The status that is kept and the text that is sent *)
Definition settle (s : DecodeStatus) (e : StreamEntry) (surr_text read_text : PyStr) : option DecodeStatus * PyStr :=
  let '(s', new_text) := advance s e surr_text read_text in
  let output_str := trim_text (ds_decoded_text s' ++ new_text) (e_finished_reason e) (e_no_stop_trim e) in
  (match e_finished_reason e with None => Some (s' <| ds_sent_offset := len output_str |>) | Some _ => None end,
   slice_from output_str (ds_sent_offset s')).

Definition row_step (gpt : bool) (o : option DecodeStatus) (e : StreamEntry) : res (option DecodeStatus * PyStr) :=
  let s := gathered o e in
  read ← read_ids gpt s e;
  Ok (settle s e (decode_of e (surr_ids s)) (decode_of e read)).

(** The row does not leave half a character behind a CJK character: there
    [find_printable_text] prints text that it may take back. *)
Definition row_printable (o : option DecodeStatus) (e : StreamEntry) : bool :=
  let s := gathered o e in
  let t := slice_from (decode_of e (slice_from (ds_decode_ids s) (ds_surr_offset s))) (len (decode_of e (surr_ids s))) in
  match e_finished_reason e with
  | Some _ => true
  | None => negb (Text.endswith t Text.REPLACEMENT && Text.chinese_at t 1)
  end.

(** A row that does not finish *)
Lemma continue_row gpt p ids q s e k :
  incremental (decode_of e) → in_stream (decode_of e) p ids q s →
  e_finished_reason e = None → e_decode_ids e = k →
  row_printable (Some s) e = true →
  ∃ q' s' t, row_step gpt (Some s) e = Ok (Some s', t) ∧ in_stream (decode_of e) p (ids ++ k) q' s' ∧
    (ds_decoded_text s ++ q) ++ t = ds_decoded_text s' ++ q'.
Proof.
  intros HD I Ef <- Hcjk. set (k := e_decode_ids e) in *. destruct (stream_ids _ p ids q s k I) as (E1 & E2 & E3 & _).
  pose proof I as [Ei _ Es _ _ _].
  set (t := text_after (decode_of e) (slice ids (ds_surr_offset s) (ds_read_offset s)) (slice_from (ids ++ k) (ds_surr_offset s))).
  assert (Eg : gathered (Some s) e = s <| ds_decode_ids := ids ++ k |>) by (rewrite <- Ei; by destruct s).
  assert (Hone : row_step gpt (Some s) e = Ok (settle (s <| ds_decode_ids := ids ++ k |>) e
    (decode_of e (slice ids (ds_surr_offset s) (ds_read_offset s))) (decode_of e (slice_from (ids ++ k) (ds_surr_offset s))))).
  { unfold row_step, read_ids, trim_ids, surr_ids. rewrite Eg, Ef. rsimpl. rewrite E1. by destruct (e_no_stop_trim e). }
  unfold row_printable, surr_ids in Hcjk. rewrite Eg, Ef in Hcjk. cbv zeta in Hcjk. revert Hcjk. rsimpl. rewrite E1, slice_from_len.
  fold (text_after (decode_of e) (slice ids (ds_surr_offset s) (ds_read_offset s)) (slice_from (ids ++ k) (ds_surr_offset s))). fold t.
  intros Hcjk%negb_true_iff.
  rewrite Hone. unfold settle, advance. rewrite Ef, slice_from_len. fold (text_after (decode_of e)
    (slice ids (ds_surr_offset s) (ds_read_offset s)) (slice_from (ids ++ k) (ds_surr_offset s))). fold t.
  assert (Htrim : ∀ o, trim_text o None (e_no_stop_trim e) = o) by (intros; unfold trim_text; by destruct (e_no_stop_trim e)).
  destruct ((0 <? len t) && negb (Text.endswith t Text.REPLACEMENT)) eqn:Eb.
  - apply andb_prop in Eb as [B1 B2]. apply negb_true_iff, bool_decide_eq_false in B2.
    assert (Hc : complete t) by (split; [intros E; by rewrite E in B1|done]).
    eexists [], _, _. split; [reflexivity|]. rsimpl. rewrite Htrim, app_nil_r.
    pose proof (stream_complete _ HD p ids q s k I Hc) as I'. fold t in I'. split; [by destruct s|].
    rewrite Es, slice_from_len, prefix_drop; [done|].
    pose proof (sent_prefix _ p ids q s k I) as Hp. rewrite (is_text _ _ _ _ _ I), <- E2 in Hp. exact Hp.
  - destruct (stream_waiting _ HD p ids q s k I) as [I' Hq]. fold t in I', Hq.
    assert (Ep : Text.find_printable_text t = slice_to t (Text.rfind t Text.SPACE + 1)).
    { apply TextFacts.printable_waiting; [|done].
      apply andb_false_iff in Eb as [B|B]; [left; apply len_zero; pose proof (len_nonneg t); lia|right].
      apply negb_false_iff, bool_decide_eq_true in B. done. }
    rewrite Ep. eexists _, _, _. split; [reflexivity|]. rsimpl. rewrite Htrim. split; [destruct s; exact I'|].
    rewrite Es, slice_from_len. apply prefix_drop. by apply prefix_app.
Qed.

(** The row that finishes a request *)

Lemma trim_text_prefix o f nst : trim_text o f nst `prefix_of` o.
Proof.
  unfold trim_text. destruct nst; [done|]. destruct (f ≫= matched_of) as [[z|m]|]; [done| |done].
  case_bool_decide; [done|]. destruct (_ =? -1); [done|]. apply TextFacts.slice_to_prefix.
Qed.

Lemma trim_ids_app gpt a k f nst k' :
  trim_ids gpt k f nst = Ok k' → trim_ids gpt (a ++ k) f nst = Ok (a ++ k').
Proof.
  unfold trim_ids. destruct nst; [by intros [= ->]|].
  destruct (f ≫= matched_of) as [[z|m]|]; [|by intros [= ->]|by intros [= ->]].
  destruct (z =? 0); [by intros [= ->]|]. destruct k as [|x k _] using rev_ind; [done|].
  rewrite app_assoc, !(proj1 (pop_last _ _)), !(proj2 (pop_last _ _)). cbn [mbind res_bind].
  destruct (_ && gpt); [by intros [= <-]; rewrite app_assoc|].
  assert (Hpos : ∀ l : list Z, (0 <? len (l ++ [x])) = true) by (intros l; apply Z.ltb_lt; llia).
  rewrite !Hpos. by intros [= <-].
Qed.

(** Two prefixes of a text: the longer one is [a] followed by what [b] has
    behind it. *)
Lemma longer_prefix {A} (a b t : list A) :
  a `prefix_of` t → b `prefix_of` t → (a ++ drop (length a) b) `prefix_of` t ∧ b `prefix_of` (a ++ drop (length a) b).
Proof.
  intros Ha Hb. destruct (prefix_weak_total a b t Ha Hb) as [Hab|Hba].
  - by rewrite prefix_drop.
  - rewrite drop_ge by (by apply prefix_length). by rewrite app_nil_r.
Qed.

Lemma finish_row gpt p ids q s e f k' :
  in_stream (decode_of e) p ids q s → e_finished_reason e = Some f →
  trim_ids gpt (e_decode_ids e) (Some f) (e_no_stop_trim e) = Ok k' →
  ∃ t, row_step gpt (Some s) e = Ok (None, t) ∧
    let text := text_after (decode_of e) p (ids ++ k') in
    ((ds_decoded_text s ++ q) ++ t) `prefix_of` text ∧
    trim_text text (Some f) (e_no_stop_trim e) `prefix_of` ((ds_decoded_text s ++ q) ++ t).
Proof.
  intros I Ef Ek. set (k := e_decode_ids e) in *. pose proof I as [Ei _ Es _ Ht _].
  destruct (stream_ids _ p ids q s k I) as (E1 & E2 & _).
  assert (Eg : gathered (Some s) e = s <| ds_decode_ids := ids ++ k |>) by (rewrite <- Ei; by destruct s).
  unfold row_step, read_ids, surr_ids. rewrite Eg, Ef. rsimpl. rewrite E1, E2.
  rewrite (trim_ids_app _ _ _ _ _ _ Ek). cbn [mbind res_bind].
  unfold settle, advance. rewrite Ef. rsimpl. rewrite slice_from_len, Es, slice_from_len, Ht.
  eexists. split; [reflexivity|]. cbv zeta. apply longer_prefix.
  - pose proof (sent_prefix _ p ids q s k' I) as Hp. by rewrite Ht in Hp.
  - apply trim_text_prefix.
Qed.

(** ** The rows of a request *)

#[local] Instance eta_StreamEntry : Eta StreamEntry := λ e,
  mkStreamEntry (e_rid e) (e_finished_reason e) (e_decoded_text e) (e_decode_ids e) (e_read_offset e)
    (e_output_ids e) (e_skip_special_tokens e) (e_spaces_between_special_tokens e) (e_no_stop_trim e)
    (e_prompt_tokens e) (e_completion_tokens e) (e_retraction_count e) (e_llm42_num_rollbacks e)
    (e_llm42_tokens_rolled_back e) (e_llm42_num_verification_windows e) (e_input_logprobs e) (e_output_logprobs e).
#[local] Instance set_e_decode_ids : Setter e_decode_ids.
Proof. derive_setter. Defined.

Fixpoint run_rows (gpt : bool) (o : option DecodeStatus) (rows : list StreamEntry)
    : res (option DecodeStatus * list PyStr) :=
  match rows with
  | [] => Ok (o, [])
  | e :: rows' =>
      r ← row_step gpt o e;
      r' ← run_rows gpt r.1 rows';
      Ok (r'.1, r.2 :: r'.2)
  end.

(** No row leaves half a character behind a CJK character. *)
Fixpoint printable (gpt : bool) (o : option DecodeStatus) (rows : list StreamEntry) : bool :=
  match rows with
  | [] => true
  | e :: rows' =>
      row_printable o e && match row_step gpt o e with Ok r => printable gpt r.1 rows' | Raise _ => true end
  end.

(** The rows have the decoding flags of their request, the last may finish
    it, and a row that reports a stop token has it. *)
Fixpoint continuing (gpt sk sp : bool) (rows : list StreamEntry) : Prop :=
  match rows with
  | [] => True
  | e :: rows' =>
      e_skip_special_tokens e = sk ∧ e_spaces_between_special_tokens e = sp ∧
      match e_finished_reason e with
      | None => continuing gpt sk sp rows'
      | Some f => rows' = [] ∧ is_ok (trim_ids gpt (e_decode_ids e) (Some f) (e_no_stop_trim e)) = true
      end
  end.

(** The first row begins with the end [p] of the prompt. *)
Definition request_rows (gpt sk sp : bool) (p : list Z) (rows : list StreamEntry) : Prop :=
  match rows with
  | [] => True
  | e :: rows' => ∃ c, e_decode_ids e = p ++ c ∧ e_read_offset e = len p ∧ e_decoded_text e = EmptyString ∧
                       continuing gpt sk sp (e <| e_decode_ids := c |> :: rows')
  end.

(** The tokens whose text is due: all, up to a stop token that is trimmed *)
Fixpoint kept_ids (gpt : bool) (rows : list StreamEntry) : list Z :=
  match rows with
  | [] => []
  | e :: rows' =>
      match e_finished_reason e with
      | None => e_decode_ids e ++ kept_ids gpt rows'
      | Some f => match trim_ids gpt (e_decode_ids e) (Some f) (e_no_stop_trim e) with Ok k => k | Raise _ => [] end
      end
  end.

(** The text the rows must add up to: a prefix of the decoded text, and all
    of it, up to the matched stop string, when the request has finished *)
Definition text_of_rows (text sent : PyStr) (rows : list StreamEntry) : Prop :=
  sent `prefix_of` text ∧
  ∀ e f, last rows = Some e → e_finished_reason e = Some f → trim_text text (Some f) (e_no_stop_trim e) `prefix_of` sent.

Lemma rows_from gpt sk sp p rows ids q s :
  incremental (decode sk sp) → in_stream (decode sk sp) p ids q s → continuing gpt sk sp rows → printable gpt (Some s) rows = true →
  ∃ o ts, run_rows gpt (Some s) rows = Ok (o, ts) ∧
    text_of_rows (text_after (decode sk sp) p (ids ++ kept_ids gpt rows)) ((ds_decoded_text s ++ q) ++ concat ts) rows.
Proof.
  intros HD. revert ids q s. induction rows as [|e rows IH]; intros ids q s I Hc Hcjk.
  { exists (Some s), []. split; [done|]. cbn [concat]. rewrite (app_nil_r (_ ++ q)). split; [|done]. by apply sent_prefix. }
  destruct Hc as (E1 & E2 & Hc). assert (Ed : decode_of e = decode sk sp) by (unfold decode_of; by rewrite E1, E2).
  cbn [run_rows kept_ids fmap list_fmap concat printable] in *. apply andb_prop in Hcjk as [Hcjk Hcjk'].
  destruct (e_finished_reason e) as [f|] eqn:Ef.
  - destruct Hc as [-> Hok]. destruct (trim_ids gpt (e_decode_ids e) (Some f) (e_no_stop_trim e)) as [k'|] eqn:Ek; [|done].
    rewrite <- Ed in I |- *. destruct (finish_row gpt p ids q s e f k' I Ef Ek) as (t & -> & H1 & H2).
    exists None, [t]. cbn. rewrite app_nil_r. split; [done|]. split; [done|].
    intros e' f' [= <-] Ef'. rewrite Ef in Ef'. by injection Ef' as <-.
  - destruct (continue_row gpt p ids q s e (e_decode_ids e)) as (q' & s' & t & Er & I' & Et); rewrite ?Ed; try done.
    rewrite Er in Hcjk' |- *. cbn [fst] in Hcjk'.
    destruct (IH (ids ++ e_decode_ids e) q' s') as (o & ts & E & H1 & H2); [by rewrite <- Ed|done|done|].
    cbn [mbind res_bind fst]. rewrite E. cbn [mbind res_bind fst snd]. exists o, (t :: ts). split; [done|].
    cbn [concat]. rewrite (app_assoc (_ ++ q)), Et, (app_assoc ids). split; [done|].
    intros e' f' Hl Hf. apply (H2 e' f'); [|done]. destruct rows as [|e2 rows]; [|done].
    injection Hl as <-. congruence.
Qed.

(** A request begins like one that has sent nothing and whose tokens are
    those of the prompt. *)
Definition start_status (p : list Z) : DecodeStatus := mkDecodeStatus [] p 0 (len p) 0.

Lemma start_in_stream D p : in_stream D p p [] (start_status p).
Proof.
  split; cbn; try done.
  - pose proof (len_nonneg p). lia.
  - by left.
  - intros c. rewrite slice_from_drop, slice_nonneg by (pose proof (len_nonneg p); lia). cbn.
    rewrite Nat.sub_0_r. unfold len. rewrite Nat2Z.id. by rewrite (take_ge p).
  - intros c. apply prefix_nil.
Qed.

Lemma first_row gpt p c e :
  e_decode_ids e = p ++ c → e_read_offset e = len p → e_decoded_text e = EmptyString →
  row_step gpt None e = row_step gpt (Some (start_status p)) (e <| e_decode_ids := c |>) ∧
  row_printable None e = row_printable (Some (start_status p)) (e <| e_decode_ids := c |>).
Proof.
  intros Ei Er Et. unfold row_step, row_printable.
  assert (Eg : gathered None e = gathered (Some (start_status p)) (e <| e_decode_ids := c |>)).
  { unfold gathered, init_status. rewrite Ei, Er, Et. done. }
  rewrite Eg. done.
Qed.

Lemma request_text gpt sk sp p rows :
  incremental (decode sk sp) → request_rows gpt sk sp p rows → printable gpt None rows = true →
  ∃ o ts, run_rows gpt None rows = Ok (o, ts) ∧
    text_of_rows (text_after (decode sk sp) p (kept_ids gpt rows)) (concat ts) rows.
Proof.
  intros HD Hr Hcjk. destruct rows as [|e rows]; [exists None, []; split; [done|]; split; [apply prefix_nil|done]|].
  destruct Hr as (c & Ei & Er & Et & Hc). set (e' := e <| e_decode_ids := c |>) in *.
  destruct (first_row gpt p c e Ei Er Et) as [F1 F2].
  destruct (rows_from gpt sk sp p (e' :: rows) p [] (start_status p) HD (start_in_stream _ p) Hc) as (o & ts & E & Ht).
  { cbn [printable] in *. by rewrite F1, F2 in Hcjk. }
  exists o, ts. split.
  - cbn [run_rows] in *. by rewrite F1.
  - assert (Ek : kept_ids gpt (e :: rows) = p ++ kept_ids gpt (e' :: rows)).
    { cbn [kept_ids]. change (e_finished_reason e') with (e_finished_reason e). change (e_decode_ids e') with c.
      change (e_no_stop_trim e') with (e_no_stop_trim e). rewrite Ei.
      destruct (e_finished_reason e) as [f|] eqn:Ef; [|by rewrite app_assoc].
      destruct Hc as (_ & _ & Hc). change (e_finished_reason e') with (e_finished_reason e) in Hc. rewrite Ef in Hc.
      destruct Hc as [_ Hok]. change (e_decode_ids e') with c in Hok. change (e_no_stop_trim e') with (e_no_stop_trim e) in Hok.
      destruct (trim_ids gpt c (Some f) (e_no_stop_trim e)) as [k|] eqn:Etr; [|done].
      by rewrite (trim_ids_app _ _ _ _ _ _ Etr). }
    rewrite Ek. destruct Ht as [H1 H2]. split; [exact H1|]. intros e0 f Hl Hf.
    destruct rows as [|e2 rows]; [|by apply H2]. injection Hl as <-. by apply (H2 e' f).
Qed.
(** *** Rows before any text is complete *)

(** The status of a request whose text so far waits; [so] characters of it
    have been sent. *)
Definition waiting_status (p a : list Z) (so : Z) : DecodeStatus := mkDecodeStatus [] (p ++ a) 0 (len p) so.

Lemma waiting_row gpt p a so e :
  e_finished_reason e = None →
  let t := text_after (decode_of e) p (p ++ a ++ e_decode_ids e) in
  (last t = Some Text.REPLACEMENT →
     let q := Text.find_printable_text t in
     row_step gpt (Some (waiting_status p a so)) e = Ok (Some (waiting_status p (a ++ e_decode_ids e) (len q)), slice_from q so)) ∧
  (complete t → ∃ s', row_step gpt (Some (waiting_status p a so)) e = Ok (Some s', slice_from t so)).
Proof.
  intros Ef t. set (ids := (p ++ a) ++ e_decode_ids e).
  assert (Es : slice ids 0 (len p) = p).
  { rewrite slice_nonneg by llia. cbn. unfold len. rewrite Nat.sub_0_r, Nat2Z.id, drop_0. unfold ids. by rewrite <- app_assoc, take_app_length. }
  assert (Et : slice_from (decode_of e (slice_from ids 0)) (len (decode_of e p)) = t).
  { rewrite slice_from_len, slice_from_drop by lia. unfold t, text_after, ids. by rewrite <- app_assoc. }
  assert (Hone : row_step gpt (Some (waiting_status p a so)) e =
    Ok (settle (mkDecodeStatus [] ids 0 (len p) so) e (decode_of e p) (decode_of e (slice_from ids 0)))).
  { unfold row_step, read_ids, trim_ids, surr_ids.
    change (gathered (Some (waiting_status p a so)) e) with (mkDecodeStatus [] ids 0 (len p) so).
    cbn [ds_decode_ids ds_surr_offset ds_read_offset]. rewrite Ef, Es. by destruct (e_no_stop_trim e). }
  rewrite Hone. unfold settle, advance. rewrite Ef, Et.
  assert (Htrim : ∀ o, trim_text o None (e_no_stop_trim e) = o) by (intros; unfold trim_text; by destruct (e_no_stop_trim e)). split.
  - intros Hl. assert (Ew : Text.endswith t Text.REPLACEMENT = true) by (by apply bool_decide_eq_true).
    rewrite Ew, andb_false_r. cbv beta iota zeta. rewrite Htrim. cbn. unfold waiting_status, ids. by rewrite <- app_assoc.
  - intros [Hne Hl]. assert (Ew : Text.endswith t Text.REPLACEMENT = false) by (by apply bool_decide_eq_false).
    assert (E0 : (0 <? len t) = true) by (apply Z.ltb_lt; destruct t; [done|rewrite len_cons; pose proof (len_nonneg t); lia]).
    rewrite Ew, E0. cbn [andb negb]. cbv beta iota zeta. rewrite Htrim, app_nil_r. cbn. by eexists.
Qed.

(** Three rows of a request: the first leaves half a character right behind
    the CJK character [c], the second half a character behind something
    else, and with the third the text is complete. *)
Record takes_back (D : list Z → PyStr) (p a b d : list Z) (u : PyStr) (c : Z) (t t' : PyStr) : Prop := {
  tb_first : text_after D p (p ++ a) = u ++ [c; Text.REPLACEMENT];
  tb_cjk : Text._is_chinese_char c = true;
  tb_second : text_after D p (p ++ a ++ b) = t;
  tb_waits : last t = Some Text.REPLACEMENT ∧ Text.chinese_at t 1 = false;
  tb_space : Text.rfind t Text.SPACE ≤ len u;
  tb_third : text_after D p (p ++ a ++ b ++ d) = t';
  tb_complete : complete t'
}.

Lemma printable_cjk u c : Text._is_chinese_char c = true → Text.find_printable_text (u ++ [c; Text.REPLACEMENT]) = u ++ [c].
Proof.
  intros Hc. change [c; Text.REPLACEMENT] with ([c] ++ [Text.REPLACEMENT]). rewrite app_assoc.
  unfold Text.find_printable_text, Text.endswith, Text.chinese_at. rewrite last_snoc, reverse_snoc, reverse_app. cbn.
  rewrite Hc. apply (pop_last (u ++ [c]) Text.REPLACEMENT).
Qed.

Lemma taken_back gpt e1 e2 e3 p a u c t t' :
  Forall (λ e, e_finished_reason e = None ∧ decode_of e = decode_of e1) [e1; e2; e3] →
  e_decode_ids e1 = p ++ a → e_read_offset e1 = len p → e_decoded_text e1 = EmptyString →
  takes_back (decode_of e1) p a (e_decode_ids e2) (e_decode_ids e3) u c t t' →
  ∃ o, run_rows gpt None [e1; e2; e3] = Ok (o, [u ++ [c]; []; slice_from t' (Text.rfind t Text.SPACE + 1)]).
Proof.
  intros F Ei Er Et [T1 Hc T2 [Hl Hch] Hsp T3 Hco]. rewrite !Forall_cons in F. destruct F as ([F1 _] & [F2 D2] & [F3 D3] & _).
  destruct (first_row gpt p a e1 Ei Er Et) as [S1 _]. set (e1' := e1 <| e_decode_ids := a |>) in *.
  destruct (waiting_row gpt p [] 0 e1' F1) as [W1 _]. change (decode_of e1') with (decode_of e1) in W1. cbn [app] in W1.
  change (e_decode_ids e1') with a in W1. cbv zeta in W1. rewrite T1, printable_cjk in W1 by done.
  destruct (waiting_row gpt p a (len (u ++ [c])) e2 F2) as [W2 _]. rewrite D2 in W2. cbv zeta in W2. rewrite T2 in W2.
  rewrite TextFacts.printable_waiting in W2 by (first [by right|by rewrite Hch, andb_false_r]).
  set (q := slice_to t (Text.rfind t Text.SPACE + 1)) in *.
  assert (Hb : -1 ≤ Text.rfind t Text.SPACE < len t).
  { destruct (TextFacts.rfind_bounds t Text.SPACE) as [?|[-> _]]; [done|done]. }
  assert (Eq : len q = Text.rfind t Text.SPACE + 1) by (apply len_slice_to; lia).
  destruct (waiting_row gpt p (a ++ e_decode_ids e2) (len q) e3 F3) as [_ W3]. rewrite D3 in W3. cbv zeta in W3.
  rewrite <- app_assoc, T3 in W3. destruct (W3 Hco) as [s' W3']. exists (Some s'). cbn [run_rows]. rewrite S1.
  change (start_status p) with (mkDecodeStatus [] p 0 (len p) 0) in *. unfold waiting_status at 1 in W1. rewrite app_nil_r in W1.
  rewrite W1 by (rewrite last_app; done). cbn [mbind res_bind fst snd]. rewrite W2 by done. cbn [mbind res_bind fst snd].
  rewrite W3'. cbn [mbind res_bind fst snd]. rewrite Eq, (slice_from_drop _ 0), drop_0 by lia.
  replace (slice_from q (len (u ++ [c]))) with (@nil Z); [done|]. rewrite slice_from_len, drop_ge; [done|].
  rewrite length_app. cbn [length]. unfold len in *. lia.
Qed.

End Rows.

(** ** The dictionary *)

Module LimitedFacts.
Import Limited.
Section LimitedFacts.
Context {A : Type}.
Implicit Types (d : LimitedDict A) (l : list (string * A)) (k : string) (v : A).

Lemma lookup_items_in l k v : lookup_items l k = Some v → k ∈ l.*1.
Proof.
  induction l as [|[k' v'] l IH]; [done|]. cbn. case_decide; [subst; by left|]. intros Hl. right. by apply IH.
Qed.

Lemma lookup_set l k k' v : lookup_items (set_items l k v) k' = if decide (k' = k) then Some v else lookup_items l k'.
Proof.
  induction l as [|[k0 v0] l IH]; cbn; [done|]. destruct (decide (k = k0)) as [->|Hk]; cbn.
  - by destruct (decide (k' = k0)).
  - rewrite IH. destruct (decide (k' = k0)) as [->|]; [|done]. by rewrite decide_False.
Qed.

Lemma keys_set l k v : (set_items l k v).*1 = if decide (k ∈ l.*1) then l.*1 else l.*1 ++ [k].
Proof.
  induction l as [|[k0 v0] l IH]; [done|]. cbn [set_items]. rewrite fmap_cons.
  destruct (decide (k = k0)) as [->|Hk]; rewrite fmap_cons; cbn [fst].
  - rewrite decide_True by (by left). done.
  - rewrite IH. destruct (decide (k ∈ l.*1)).
    + rewrite decide_True by (by right). done.
    + rewrite decide_False; [done|]. rewrite not_elem_of_cons. done.
Qed.

Lemma lookup_filter l k k' :
  lookup_items (filter (λ x, x.1 ≠ k) l) k' = if decide (k' = k) then None else lookup_items l k'.
Proof.
  induction l as [|[k0 v0] l IH]; [by case_decide|]. rewrite filter_cons. cbn.
  destruct (decide (k0 = k)) as [->|Hk]; cbn.
  - rewrite decide_False by (intros Hn; by apply Hn). rewrite IH. by destruct (decide (k' = k)).
  - rewrite decide_True by done. cbn. rewrite IH. destruct (decide (k' = k0)) as [->|]; [|done]. by rewrite decide_False.
Qed.

(** All keys that are ever used fit. *)
Record fits (K : list string) d : Prop := {
  ft_nodup : NoDup (items d).*1;
  ft_keys : ∀ k, k ∈ (items d).*1 → k ∈ K;
  ft_room : len K ≤ capacity_limit d
}.

(** A dictionary with room for a new key keeps the others. *)
Lemma setitem_fits K d k v :
  fits K d → k ∈ K → find d k = None →
  ∃ d', __setitem__ k v d = (Ok tt, d') ∧ fits K d' ∧ capacity_limit d' = capacity_limit d ∧
    ∀ k', find d' k' = if decide (k' = k) then Some v else find d k'.
Proof.
  intros [H1 H2 H3] Hk Hn.
  assert (Hnk : k ∉ (items d).*1).
  { intros (x & Ex & Hx)%list_elem_of_fmap. revert Hn. unfold find. clear -Ex Hx.
    induction (items d) as [|[k0 v0] l IH]; [by apply elem_of_nil in Hx|]. cbn. case_decide as Hd; [done|].
    apply elem_of_cons in Hx as [->|Hx]; [by destruct Hd|]. by apply IH. }
  assert (Hlen : len (items d) < len K).
  { unfold len. assert (Hl : (length (k :: (items d).*1) ≤ length K)%nat).
    { apply submseteq_length, NoDup_submseteq; [by constructor|]. intros x [->|Hx]%elem_of_cons; [done|by apply H2]. }
    cbn in Hl. rewrite length_fmap in Hl. lia. }
  unfold __setitem__. destruct (Z.leb_spec (capacity_limit d) (len (items d))); [lia|].
  eexists. split; [reflexivity|]. split; [|split; [done|]].
  - split; cbn; rewrite ?keys_set, ?decide_False by done; [| |done].
    + apply NoDup_app. split_and!; [done| |apply NoDup_singleton]. intros x Hx Hx'. apply list_elem_of_singleton in Hx' as ->. done.
    + intros x [Hx|Hx]%elem_of_app; [by apply H2|]. by apply list_elem_of_singleton in Hx as ->.
  - intros k'. apply lookup_set.
Qed.

Lemma update_fits K d k v :
  fits K d → fits K (update k v d) ∧
  ∀ k', find (update k v d) k' = if decide (k' = k) then (match find d k with Some _ => Some v | None => None end) else find d k'.
Proof.
  intros [H1 H2 H3]. unfold update, find. destruct (lookup_items (items d) k) as [v0|] eqn:E; cbn.
  - assert (Hk : k ∈ (items d).*1) by (by eapply lookup_items_in). split.
    + split; cbn; rewrite ?keys_set, ?decide_True by done; done.
    + intros k'. apply lookup_set.
  - split; [by split|]. intros k'. case_decide; [by subst|done].
Qed.

Lemma remove_fits K d k :
  fits K d → fits K (remove k d) ∧ ∀ k', find (remove k d) k' = if decide (k' = k) then None else find d k'.
Proof.
  intros [H1 H2 H3]. split; [|intros k'; apply lookup_filter].
  assert (Hs : sublist (filter (λ x, x.1 ≠ k) (items d)).*1 (items d).*1) by (apply fmap_sublist, sublist_filter).
  split; cbn; [by eapply sublist_NoDup| |done]. intros x Hx. apply H2. by eapply elem_of_sublist.
Qed.
End LimitedFacts.
End LimitedFacts.
