(* ===== verification/DetokBatch.v ===== *)
(** * The detokenizer's batches

    The three ways to decode agree, and the handler of a message gives every
    row what the status of its request gives it. *)

From S2P Require Import Prelude PyFloat Allocator Request ReqPool LLM42Info World MemCommon LLM42Worker Scheduler Detokenizer DetokFacts.
Import Detokenizer LimitedFacts.

Section Batch.
Context `{TextTokenizer}.
Implicit Types (m : DetokenizerManager) (e : StreamEntry) (rows : list StreamEntry).

(** A batch is decoded element by element. *)
Definition batch_decodes : Prop :=
  ∀ sk sp idss, batch_decode sk sp idss = decode sk sp <$> idss.

(** ** Decoding in groups *)

(** The groups of the indices [l]: each flag once, with its indices. *)
Record grouped (l : list (Z * (bool * bool))) (g : list ((bool * bool) * list Z)) : Prop := {
  gr_nodup : NoDup g.*1;
  gr_group : ∀ k idx, (k, idx) ∈ g → idx = (filter (λ x, x.2 = k) l).*1;
  gr_all : ∀ x, x ∈ l → x.2 ∈ g.*1
}.

Lemma add_to_group_keys k i g :
  (add_to_group k i g).*1 = if decide (k ∈ g.*1) then g.*1 else g.*1 ++ [k].
Proof.
  induction g as [|[k0 idx] g IH]; [done|]. cbn [add_to_group]. rewrite fmap_cons.
  destruct (decide (k = k0)) as [->|Hk]; rewrite fmap_cons; cbn [fst].
  - by rewrite decide_True by (by left).
  - rewrite IH. destruct (decide (k ∈ g.*1)).
    + by rewrite decide_True by (by right).
    + rewrite decide_False; [done|]. by rewrite not_elem_of_cons.
Qed.

Lemma add_to_group_entry k i g k' idx :
  NoDup g.*1 → (k', idx) ∈ add_to_group k i g →
  (k' ≠ k ∧ (k', idx) ∈ g) ∨ (k' = k ∧ ∃ idx0, idx = idx0 ++ [i] ∧ ((k, idx0) ∈ g ∨ (k ∉ g.*1) ∧ idx0 = [])).
Proof.
  induction g as [|[k0 idx1] g IH]; intros Hnd Hin.
  { cbn in Hin. apply list_elem_of_singleton in Hin as [= -> ->]. right. split; [done|]. exists []. split; [done|].
    right. split; [apply not_elem_of_nil|done]. }
  rewrite fmap_cons in Hnd. cbn [fst] in Hnd. apply NoDup_cons in Hnd as [Hn Hnd]. cbn [add_to_group] in Hin.
  destruct (decide (k = k0)) as [->|Hk].
  - apply elem_of_cons in Hin as [[= -> ->]|Hin].
    + right. split; [done|]. exists idx1. split; [done|]. left. by left.
    + left. split; [|by right]. intros ->. apply Hn. by apply (list_elem_of_fmap_2 fst g (k0, idx)).
  - apply elem_of_cons in Hin as [[= -> ->]|Hin]; [left; split; [done|by left]|].
    destruct (IH Hnd Hin) as [[? ?]|(-> & idx0 & -> & Hc)]; [left; split; [done|by right]|].
    right. split; [done|]. exists idx0. split; [done|]. destruct Hc as [?|[Hc ->]]; [left; by right|].
    right. split; [|done]. rewrite fmap_cons, not_elem_of_cons. done.
Qed.

Lemma grouped_add l g k i : grouped l g → grouped (l ++ [(i, k)]) (add_to_group k i g).
Proof.
  intros [H1 H2 H3]. pose proof (add_to_group_keys k i g) as Ek. split.
  - rewrite Ek. case_decide; [done|]. apply NoDup_app. split_and!; [done| |apply NoDup_singleton].
    intros x Hx Hx'. apply list_elem_of_singleton in Hx' as ->. done.
  - intros k' idx Hin. rewrite filter_app, fmap_app, filter_cons. cbn [snd].
    destruct (add_to_group_entry k i g k' idx H1 Hin) as [[Hne Hin']|(-> & idx0 & -> & Hc)].
    + rewrite decide_False by congruence. cbn. rewrite app_nil_r. by apply H2.
    + rewrite decide_True by done. cbn. f_equal. destruct Hc as [Hc|[Hn ->]]; [by apply H2|].
      symmetry. destruct (filter _ l) as [|x xs] eqn:E; [done|]. exfalso.
      assert (Hx : x ∈ filter (λ x, x.2 = k) l) by (rewrite E; by left).
      apply list_elem_of_filter in Hx as [<- Hx]. by apply Hn, H3.
  - intros x Hx. rewrite Ek. apply elem_of_app in Hx as [Hx|Hx].
    + case_decide; [by apply H3|]. apply elem_of_app. left. by apply H3.
    + apply list_elem_of_singleton in Hx as ->. case_decide; [done|]. apply elem_of_app. right. by apply list_elem_of_singleton.
Qed.

Lemma group_flags_ok flags : grouped (enumerate flags) (group_flags flags).
Proof.
  unfold group_flags. induction (enumerate flags) as [|[i k] l IH] using rev_ind.
  - split; [apply NoDup_nil_2|..]; cbn; set_solver.
  - rewrite foldl_snoc. by apply grouped_add.
Qed.

(** Writing the texts of a group *)
Lemma write_texts_ok (results : list PyStr) idx (f : Z → PyStr) :
  Forall (λ i, 0 ≤ i < len results) idx →
  ∃ results', write_texts results (idx, f <$> idx) = Ok results' ∧ length results' = length results ∧
    ∀ j, results' !! j = if decide (Z.of_nat j ∈ idx) then Some (f (Z.of_nat j)) else results !! j.
Proof.
  intros Hi. unfold write_texts. cbn [fst snd]. revert results Hi. induction idx as [|i idx IH]; intros results Hi.
  { exists results. split_and!; [done|done|]. intros j. rewrite decide_False; [done|]. apply not_elem_of_nil. }
  apply Forall_cons in Hi as [Hj Hi]. unfold len in Hj.
  destruct (IH (<[Z.to_nat i := f i]> results)) as (results' & E & El & Hr).
  { unfold len in *. by rewrite length_insert. }
  exists results'. cbn [fmap list_fmap zip zip_with foldR].
  replace (setitem results i (f i)) with (Ok (<[Z.to_nat i := f i]> results)).
  2:{ rewrite <- (Z2Nat.id i) at 3 by lia. by rewrite setitem_ok by lia. }
  split; [exact E|]. rewrite length_insert in El. split; [done|]. intros j. rewrite Hr.
  destruct (decide (Z.of_nat j ∈ idx)) as [Hin|Hni]; [by rewrite decide_True by (by right)|].
  destruct (decide (Z.of_nat j = i)) as [<-|Hne].
  - rewrite decide_True by (by left). rewrite Nat2Z.id. apply list_lookup_insert_eq. lia.
  - rewrite decide_False by (rewrite not_elem_of_cons; done). apply list_lookup_insert_ne. lia.
Qed.

(** The texts after the groups [gs] *)
Lemma decode_groups_ok (ids_list : list (list Z)) (flags : list (bool * bool)) gs results :
  batch_decodes → length ids_list = length flags → length results = length flags →
  NoDup gs.*1 → (∀ k idx, (k, idx) ∈ gs → idx = (filter (λ x, x.2 = k) (enumerate flags)).*1) →
  ∃ results', foldR (λ results '(k, indices),
      ids ← mapM (getitem ids_list) indices;
      write_texts results (indices, batch_decode k.1 k.2 ids)) results gs = Ok results' ∧
    length results' = length results ∧
    ∀ j k ids, flags !! j = Some k → ids_list !! j = Some ids →
      results' !! j = if decide (k ∈ gs.*1) then Some (decode k.1 k.2 ids) else results !! j.
Proof.
  intros Hb Hl. revert results. induction gs as [|[k idx] gs IH]; intros results Hr Hnd Hg.
  { exists results. split_and!; [done|done|]. intros j k ids Hj _. rewrite decide_False; [done|]. apply not_elem_of_nil. }
  rewrite fmap_cons in Hnd. cbn [fst] in Hnd. apply NoDup_cons in Hnd as [Hn Hnd].
  assert (Eidx : idx = (filter (λ x, x.2 = k) (enumerate flags)).*1) by (apply Hg; by left).
  assert (Hidx : ∀ i, i ∈ idx ↔ ∃ j : nat, i = Z.of_nat j ∧ flags !! j = Some k).
  { intros i. rewrite Eidx, list_elem_of_fmap. split.
    - intros ([i' k'] & -> & [Ek Hx]%list_elem_of_filter). cbn in Ek. subst k'.
      apply list_elem_of_lookup_1 in Hx as [j Hj]. unfold enumerate in Hj.
      apply lookup_zip_Some in Hj as [Hj Hk]. unfold range in Hj. apply lookup_seqZ in Hj as [-> Hj]. exists j. split; [cbn; lia|done].
    - intros (j & -> & Hj). exists (Z.of_nat j, k). split; [done|]. apply list_elem_of_filter. split; [done|].
      apply (list_elem_of_lookup_2 _ j). unfold enumerate. apply lookup_zip_Some. split; [|done].
      apply lookup_lt_Some in Hj. unfold range. apply lookup_seqZ. unfold len. lia. }
  set (f := λ i, decode k.1 k.2 (ids_list !!! Z.to_nat i)).
  assert (Em : mapM (getitem ids_list) idx = Ok ((λ i, ids_list !!! Z.to_nat i) <$> idx)).
  { assert (Hall : ∀ i, i ∈ idx → getitem ids_list i = Ok (ids_list !!! Z.to_nat i)).
    { intros i (j & -> & Hj)%Hidx. apply lookup_lt_Some in Hj.
      apply getitem_nth; [lia|]. rewrite Nat2Z.id. apply list_lookup_lookup_total_lt. lia. }
    clear -Hall. induction idx as [|i idx IH]; [done|]. cbn [mapM fmap list_fmap].
    rewrite Hall by (by left). cbn. rewrite IH; [done|]. intros; apply Hall; by right. }
  destruct (write_texts_ok results idx f) as (results1 & E1 & El1 & Hr1).
  { apply Forall_forall. intros i (j & -> & Hj)%Hidx. apply lookup_lt_Some in Hj. unfold len. lia. }
  destruct (IH results1) as (results' & E & El & Hres); [lia|done|intros; apply Hg; by right|].
  exists results'. cbn [foldR]. rewrite Em. cbn [mbind res_bind]. rewrite Hb, <- list_fmap_compose.
  change ((decode k.1 k.2 ∘ λ i, ids_list !!! Z.to_nat i) <$> idx) with (f <$> idx). rewrite E1.
  split; [exact E|]. split; [lia|]. intros j k' ids Hj Hids. rewrite (Hres j k' ids Hj Hids), fmap_cons. cbn [fst].
  destruct (decide (k' ∈ gs.*1)) as [Hin|Hni]; [by rewrite decide_True by (by right)|]. rewrite Hr1.
  destruct (decide (k' = k)) as [->|Hne].
  - rewrite decide_True by (apply Hidx; eauto). rewrite decide_True by (by left). unfold f. rewrite Nat2Z.id.
    by rewrite (list_lookup_total_correct _ _ _ Hids).
  - rewrite decide_False by (intros (j' & Ej & Hj')%Hidx; apply Nat2Z.inj in Ej as <-; congruence).
    rewrite decide_False; [done|]. by rewrite not_elem_of_cons.
Qed.

(** ** The three ways to decode *)

Lemma grouped_decode_ok rows (ids_list : list (list Z)) :
  batch_decodes → rows ≠ [] → length ids_list = length rows →
  _grouped_batch_decode ids_list (e_skip_special_tokens <$> rows) (e_spaces_between_special_tokens <$> rows)
  = Ok (zip_with decode_of rows ids_list).
Proof.
  intros Hb Hne Hl. unfold _grouped_batch_decode. destruct rows as [|e0 rows0]; [done|].
  set (rows := e0 :: rows0) in *. cbn [fmap list_fmap getitem]. rewrite !getitem_nth with (x := _) by (cbn; done).
  cbn [mbind res_bind].
  destruct (forallb _ _ && forallb _ _) eqn:Eall.
  - apply andb_prop in Eall as [A1 A2]. rewrite forallb_forall in A1, A2. rewrite Hb. f_equal.
    apply list_eq_same_length with (n := length rows); [rewrite length_zip_with; lia|by rewrite length_fmap|].
    intros j x y Hj Hx Hy. apply list_lookup_fmap_Some in Hx as (ids & -> & Hids).
    apply lookup_zip_with_Some in Hy as (e & ids' & -> & He & Hids'). assert (ids' = ids) as -> by congruence.
    apply list_elem_of_lookup_2, list_elem_of_In in He. unfold decode_of.
    rewrite (Bool.eqb_prop _ _ (A1 _ (in_map _ _ _ He))), (Bool.eqb_prop _ _ (A2 _ (in_map _ _ _ He))). done.
  - set (flags := zip (e_skip_special_tokens <$> rows) (e_spaces_between_special_tokens <$> rows)).
    assert (Hfl : length flags = length rows) by (unfold flags; rewrite length_zip_with, !length_fmap; lia).
    destruct (group_flags_ok flags) as [G1 G2 G3].
    destruct (decode_groups_ok ids_list flags (group_flags flags) (times [] (len ids_list))) as (results & E & El & Hr);
      try done; [lia|unfold times; rewrite length_replicate; unfold len; lia|].
    unfold rows in *. rewrite E. f_equal. unfold times in El. rewrite length_replicate in El. unfold len in El.
    apply list_eq_same_length with (n := length (e0 :: rows0)); [rewrite length_zip_with; lia|lia|].
    intros j x y Hj Hx Hy. apply lookup_zip_with_Some in Hy as (e & ids & -> & He & Hids).
    assert (Hk : flags !! j = Some (e_skip_special_tokens e, e_spaces_between_special_tokens e)).
    { apply lookup_zip_Some. by rewrite !list_lookup_fmap, He. }
    rewrite (Hr j _ ids Hk Hids), decide_True in Hx; [by injection Hx as <-|].
    apply (G3 (Z.of_nat j, _)). apply (list_elem_of_lookup_2 _ j). apply lookup_zip_Some. split; [|done].
    apply lookup_lt_Some in Hk. unfold range. apply lookup_seqZ. unfold len. lia.
Qed.

Lemma decode_all_ok m rows ids_list dummy :
  batch_decodes → is_dummy m = false → rows ≠ [] → length ids_list = length rows →
  decode_all m rows ids_list dummy = Ok (zip_with decode_of rows ids_list).
Proof.
  intros Hb Hd Hne Hl. unfold decode_all. rewrite Hd. destruct (disable_tokenizer_batch_decode m); [|by apply grouped_decode_ok].
  f_equal. clear Hne. revert ids_list Hl. induction rows as [|e rows IH]; intros [|ids l] Hl; try done.
  cbn. f_equal. apply IH. by injection Hl.
Qed.

(** ** The two loops *)

Definition status_of m (k : string) : option DecodeStatus := Limited.find (decode_status m) k.

(** What a call leaves alone, and the statuses afterwards *)
Record moved (K : list string) m m' : Prop := {
  mv_fits : fits K (decode_status m');
  mv_dummy : is_dummy m' = is_dummy m;
  mv_gpt : is_tool_call_parser_gpt_oss m' = is_tool_call_parser_gpt_oss m
}.

Lemma moved_trans K m1 m2 m3 : moved K m1 m2 → moved K m2 m3 → moved K m1 m3.
Proof. intros [] []. split; congruence. Qed.

Definition of_request (K : list string) e : Prop := e_rid e ∈ K ∧ is_health_check_request (e_rid e) = false.

Lemma collect_ok K m acc e read :
  let s := gathered (status_of m (e_rid e)) e in
  fits K (decode_status m) → of_request K e → read_ids (is_tool_call_parser_gpt_oss m) s e = Ok read →
  ∃ m', collect acc e m = (Ok (acc.1 ++ [read], acc.2 ++ [surr_ids s]), m') ∧ moved K m m' ∧
    ∀ k, status_of m' k = if decide (k = e_rid e) then Some s else status_of m k.
Proof.
  intros s Hf [HK Hh] Hread. unfold collect. rewrite (bind_ok _ _ m m m) by done.
  assert (Hs : ∃ m', match status_of m (e_rid e) with
      | None => (if is_health_check_request (e_rid e) then mret tt
           else λ m, let '(r, d) := Limited.__setitem__ (e_rid e) (init_status e) (decode_status m) in
                     (r, m <| decode_status := d |>));; mret (init_status e)
      | Some s0 => modify (λ m, m <| decode_status ::= Limited.update (e_rid e) (s0 <| ds_decode_ids ::= λ ids, ids ++ e_decode_ids e |>) |>);;
          mret (s0 <| ds_decode_ids ::= λ ids, ids ++ e_decode_ids e |>)
      end m = (Ok s, m') ∧ moved K m m' ∧ ∀ k, status_of m' k = if decide (k = e_rid e) then Some s else status_of m k).
  { unfold s. destruct (status_of m (e_rid e)) as [s0|] eqn:E; cbn [gathered].
    - eexists. split; [rewrite (bind_ok _ _ m tt _) by reflexivity; reflexivity|].
      destruct (update_fits K (decode_status m) (e_rid e) (s0 <| ds_decode_ids ::= λ ids, ids ++ e_decode_ids e |>) Hf) as [F U].
      split; [by split|]. intros k. unfold status_of. rsimpl. rewrite U. unfold status_of in E. by rewrite E.
    - rewrite Hh. destruct (setitem_fits K (decode_status m) (e_rid e) (init_status e) Hf HK E) as (d' & Ed & F & _ & U).
      eexists. split; [rewrite (bind_ok _ _ m tt (m <| decode_status := d' |>)); [reflexivity|by rewrite Ed]|].
      split; [by split|]. intros k. unfold status_of. rsimpl. by rewrite U. }
  destruct Hs as (m' & E & Mv & Hk). exists m'. fold (status_of m (e_rid e)). rewrite (bind_ok _ _ m s m' E).
  unfold read_ids in Hread. rewrite (bind_ok _ _ m' read m') by (unfold lift; by rewrite Hread). done.
Qed.

Lemma collect_loop K rows reads acc m :
  fits K (decode_status m) → NoDup (e_rid <$> rows) → Forall (of_request K) rows →
  Forall2 (λ e read, read_ids (is_tool_call_parser_gpt_oss m) (gathered (status_of m (e_rid e)) e) e = Ok read) rows reads →
  ∃ m', foldM collect acc rows m =
      (Ok (acc.1 ++ reads, acc.2 ++ ((λ e, surr_ids (gathered (status_of m (e_rid e)) e)) <$> rows)), m') ∧ moved K m m' ∧
    (∀ e, e ∈ rows → status_of m' (e_rid e) = Some (gathered (status_of m (e_rid e)) e)) ∧
    (∀ k, k ∉ e_rid <$> rows → status_of m' k = status_of m k).
Proof.
  intros Hf Hnd Hok F. revert acc m Hf F. induction rows as [|e rows IH] in reads, Hnd, Hok |- *; intros acc m Hf F.
  { apply Forall2_nil_inv_l in F as ->. exists m. cbn. rewrite !app_nil_r. split; [by destruct acc|].
    split; [done|]. split; [|done]. intros e He. by apply elem_of_nil in He. }
  apply Forall2_cons_inv_l in F as (read & reads' & Hread & F & ->). rewrite fmap_cons in Hnd.
  apply NoDup_cons in Hnd as [Hn Hnd]. apply Forall_cons in Hok as [Ho Hok].
  destruct (collect_ok K m acc e read Hf Ho Hread) as (m1 & E1 & M1 & S1).
  assert (Hsame : ∀ e', e' ∈ rows → status_of m1 (e_rid e') = status_of m (e_rid e')).
  { intros e' He'. rewrite S1, decide_False; [done|]. intros E. apply Hn. rewrite <- E. by apply list_elem_of_fmap_2. }
  destruct (IH reads' Hnd Hok (acc.1 ++ [read], acc.2 ++ [surr_ids (gathered (status_of m (e_rid e)) e)]) m1)
    as (m' & E & Mv & Hin & Hout); [apply M1| |].
  { rewrite (mv_gpt _ _ _ M1). apply Forall2_same_length_lookup_2; [by eapply Forall2_length|]. intros j e' r He Hr.
    rewrite Hsame by (by eapply list_elem_of_lookup_2). by apply (Forall2_lookup_lr _ _ _ _ _ _ F He Hr). }
  exists m'. cbn [foldM]. rewrite E1, E. cbn [fst snd]. rewrite <- !app_assoc. split_and!.
  - cbn [app]. do 3 f_equal. cbn [fmap list_fmap]. f_equal. f_equal. apply list_fmap_ext. intros j e' He'.
    by rewrite Hsame by (by eapply list_elem_of_lookup_2).
  - by eapply moved_trans.
  - intros e' [->|He']%elem_of_cons; [|by rewrite Hin, Hsame by done]. rewrite Hout, S1, decide_True; done.
  - intros k Hk. apply not_elem_of_cons in Hk as [Hk1 Hk2]. by rewrite Hout, S1, decide_False by done.
Qed.

Lemma output_ok K m surr_texts read_texts acc i e s surr read :
  fits K (decode_status m) → of_request K e → status_of m (e_rid e) = Some s →
  getitem surr_texts i = Ok surr → getitem read_texts i = Ok read →
  ∃ m', output_row surr_texts read_texts acc (i, e) m = (Ok (acc ++ [(settle s e surr read).2]), m') ∧ moved K m m' ∧
    ∀ k, status_of m' k = if decide (k = e_rid e) then (settle s e surr read).1 else status_of m k.
Proof.
  intros Hf [HK Hh] Hs E1 E2. unfold output_row. rewrite (bind_ok _ _ m m m) by done. rewrite Hh.
  unfold status_of in Hs. rewrite (bind_ok _ _ m s m) by (unfold lift; by rewrite Hs).
  rewrite (bind_ok _ _ m read m) by (unfold lift; by rewrite E2).
  rewrite (bind_ok _ _ m surr m) by (unfold lift; by rewrite E1).
  unfold settle. destruct (advance s e surr read) as [s' new_text]. cbv zeta.
  set (out := trim_text _ _ _). destruct (e_finished_reason e) as [f|].
  - rewrite (bind_ok _ _ m tt (m <| decode_status ::= Limited.remove (e_rid e) |>)) by done.
    destruct (remove_fits K (decode_status m) (e_rid e) Hf) as [F1 U1].
    set (m1 := m <| decode_status ::= Limited.remove (e_rid e) |>).
    destruct (update_fits K (decode_status m1) (e_rid e) (s' <| ds_sent_offset := len out |>) F1) as [F2 U2].
    eexists. split; [rewrite (bind_ok _ _ m1 tt _) by reflexivity; reflexivity|]. split; [by split|].
    intros k. unfold status_of. rsimpl. rewrite U2. unfold m1. rsimpl. rewrite !U1.
    destruct (decide (k = e_rid e)) as [->|]; [by rewrite decide_True|done].
  - rewrite (bind_ok _ _ m tt m) by done.
    destruct (update_fits K (decode_status m) (e_rid e) (s' <| ds_sent_offset := len out |>) Hf) as [F2 U2].
    eexists. split; [rewrite (bind_ok _ _ m tt _) by reflexivity; reflexivity|]. split; [by split|].
    intros k. unfold status_of. rsimpl. rewrite U2. by rewrite Hs.
Qed.

Lemma output_loop K surr_texts read_texts (xs : list (Z * StreamEntry)) outs acc m :
  fits K (decode_status m) → NoDup ((λ x, e_rid x.2) <$> xs) → Forall (λ x, of_request K x.2) xs →
  Forall2 (λ x out, ∃ s surr read, status_of m (e_rid x.2) = Some s ∧ getitem surr_texts x.1 = Ok surr ∧
                                   getitem read_texts x.1 = Ok read ∧ out = settle s x.2 surr read) xs outs →
  ∃ m', foldM (output_row surr_texts read_texts) acc xs m = (Ok (acc ++ outs.*2), m') ∧ moved K m m' ∧
    (∀ j x out, xs !! j = Some x → outs !! j = Some out → status_of m' (e_rid x.2) = out.1) ∧
    (∀ k, k ∉ (λ x, e_rid x.2) <$> xs → status_of m' k = status_of m k).
Proof.
  intros Hf Hnd Hok F. revert acc m Hf F. induction xs as [|[i e] xs IH] in outs, Hnd, Hok |- *; intros acc m Hf F.
  { apply Forall2_nil_inv_l in F as ->. exists m. cbn. rewrite app_nil_r. by split_and!. }
  apply Forall2_cons_inv_l in F as (out & outs' & (s & surr & read & Hs & E1 & E2 & ->) & F & ->). rewrite fmap_cons in Hnd.
  apply NoDup_cons in Hnd as [Hn Hnd]. apply Forall_cons in Hok as [Ho Hok]. cbn [fst snd] in *.
  destruct (output_ok K m surr_texts read_texts acc i e s surr read Hf Ho Hs E1 E2) as (m1 & Er & M1 & S1).
  destruct (IH outs' Hnd Hok (acc ++ [(settle s e surr read).2]) m1) as (m' & E & Mv & Hin & Hout); [apply M1| |].
  { apply Forall2_same_length_lookup_2; [by eapply Forall2_length|]. intros j x r Hx Hr.
    destruct (Forall2_lookup_lr _ _ _ _ _ _ F Hx Hr) as (s' & su & re & A & B). exists s', su, re. split; [|done].
    rewrite S1, decide_False; [done|]. intros Ee. apply Hn. rewrite <- Ee.
    apply (list_elem_of_fmap_2 (λ x, e_rid x.2)). by eapply list_elem_of_lookup_2. }
  exists m'. cbn [foldM]. rewrite Er, E. rewrite <- app_assoc. split_and!; [done|by eapply moved_trans| |].
  - intros [|j] x out Hx Hr; [|by eapply Hin]. injection Hx as <-. injection Hr as <-.
    by rewrite Hout, S1, decide_True by done.
  - intros k Hk. apply not_elem_of_cons in Hk as [Hk1 Hk2]. by rewrite Hout, S1, decide_False by done.
Qed.

Lemma enumerate_lookup {A} (xs : list A) j i x :
  enumerate xs !! j = Some (i, x) ↔ i = Z.of_nat j ∧ xs !! j = Some x.
Proof.
  unfold enumerate. rewrite lookup_zip_Some. unfold range. rewrite lookup_seqZ. split.
  - intros [[-> _] Hx]. split; [lia|done].
  - intros [-> Hx]. apply lookup_lt_Some in Hx as Hl. unfold len. split; [lia|done].
Qed.

Lemma enumerate_length {A} (xs : list A) : length (enumerate xs) = length xs.
Proof. unfold enumerate, range. rewrite length_zip_with, length_seqZ. unfold len. lia. Qed.

Lemma enumerate_rids rows : (λ x : Z * StreamEntry, e_rid x.2) <$> enumerate rows = e_rid <$> rows.
Proof.
  apply list_eq. intros j. rewrite !list_lookup_fmap. destruct (rows !! j) as [e|] eqn:Ee.
  - assert (Hx : enumerate rows !! j = Some (Z.of_nat j, e)) by (by apply enumerate_lookup). by rewrite Hx.
  - apply lookup_ge_None in Ee. rewrite (lookup_ge_None_2 (enumerate rows)); [done|]. by rewrite enumerate_length.
Qed.

(** ** A message, row by row *)

Lemma handle_rows K m rows outs :
  batch_decodes → is_dummy m = false → fits K (decode_status m) → NoDup (e_rid <$> rows) → Forall (of_request K) rows →
  Forall2 (λ e out, row_step (is_tool_call_parser_gpt_oss m) (status_of m (e_rid e)) e = Ok out) rows outs →
  ∃ m', handle_batch_token_id_out rows m = (Ok outs.*2, m') ∧ moved K m m' ∧
    (∀ j e out, rows !! j = Some e → outs !! j = Some out → status_of m' (e_rid e) = out.1) ∧
    (∀ k, k ∉ e_rid <$> rows → status_of m' k = status_of m k).
Proof.
  intros Hb Hd Hf Hnd Hok F. unfold handle_batch_token_id_out.
  destruct (Z.ltb_spec 0 (len rows)) as [Hl|Hl].
  2:{ assert (rows = []) as -> by (apply len_zero; pose proof (len_nonneg rows); lia).
      apply Forall2_nil_inv_l in F as ->. exists m. by split_and!. }
  assert (Hne : rows ≠ []) by (intros ->; done). set (gpt := is_tool_call_parser_gpt_oss m) in *.
  set (own := λ e, gathered (status_of m (e_rid e)) e).
  assert (Hreads : ∃ reads, Forall2 (λ e read, read_ids gpt (own e) e = Ok read) rows reads ∧
    outs = zip_with (λ e read, settle (own e) e (decode_of e (surr_ids (own e))) (decode_of e read)) rows reads).
  { clear -F. induction F as [|e out rows outs Ho F (reads & F' & ->)]; [by exists []|].
    unfold row_step in Ho. fold (own e) in Ho. destruct (read_ids gpt (own e) e) as [read|] eqn:E; [|done].
    injection Ho as <-. exists (read :: reads). by split; [constructor|]. }
  destruct Hreads as (reads & FR & ->). pose proof (Forall2_length _ _ _ FR) as Hlr.
  destruct (collect_loop K rows reads ([], []) m Hf Hnd Hok FR) as (m1 & E1 & M1 & In1 & Out1).
  unfold _decode_batch_token_id_output. rewrite (bind_ok _ _ _ _ _ E1). cbn [fst snd app].
  rewrite (bind_ok _ _ m1 m1 m1) by done.
  set (surrs := (λ e, surr_ids (own e)) <$> rows).
  assert (Hd1 : is_dummy m1 = false) by (rewrite (mv_dummy _ _ _ M1); done).
  rewrite (bind_ok _ _ m1 (zip_with decode_of rows surrs) m1)
    by (unfold lift; rewrite decode_all_ok; [done|done|done|done|apply length_fmap]).
  rewrite (bind_ok _ _ m1 (zip_with decode_of rows reads) m1)
    by (unfold lift; by rewrite decode_all_ok).
  destruct (output_loop K (zip_with decode_of rows surrs) (zip_with decode_of rows reads) (enumerate rows)
    (zip_with (λ e read, settle (own e) e (decode_of e (surr_ids (own e))) (decode_of e read)) rows reads) [] m1)
    as (m' & E & Mv & Hin & Hout); rewrite ?enumerate_rids; [apply M1|done|..].
  - apply Forall_forall. intros [i e] Hx. unfold enumerate in Hx. apply list_elem_of_lookup_1 in Hx as [j Hj].
    apply lookup_zip_Some in Hj as [_ Hj]. by eapply Forall_lookup in Hj; [|exact Hok].
  - apply Forall2_same_length_lookup_2.
    { rewrite length_zip_with, enumerate_length. lia. }
    intros j [i e] out Hx Ho. apply enumerate_lookup in Hx as [-> He].
    apply lookup_zip_with_Some in Ho as (e' & read & -> & He' & Hr). assert (e' = e) as -> by congruence.
    exists (own e), (decode_of e (surr_ids (own e))), (decode_of e read). cbn [fst snd]. split_and!; [| | |done].
    + apply In1. by eapply list_elem_of_lookup_2.
    + apply getitem_nth; [lia|]. rewrite Nat2Z.id. apply lookup_zip_with_Some. exists e, (surr_ids (own e)).
      split_and!; [done|done|]. unfold surrs. by rewrite list_lookup_fmap, He.
    + apply getitem_nth; [lia|]. rewrite Nat2Z.id. apply lookup_zip_with_Some. by exists e, read.
  - rewrite enumerate_rids in Hout. exists m'. split; [exact E|]. split; [by eapply moved_trans|]. split.
    + intros j e out He Ho. apply (Hin j (Z.of_nat j, e) out); [|done]. by apply enumerate_lookup.
    + intros k Hk. by rewrite Hout, Out1.
Qed.

(** ** The event loop, request by request *)

Definition rows_of (k : string) (bs : list (list StreamEntry)) : list StreamEntry :=
  filter (λ e, e_rid e = k) (concat bs).

(** The strings a client receives *)
Definition strs_in {E} (k : string) (msg : StrMsg E) : list PyStr :=
  match msg with
  | BatchEmbeddingPassed _ => []
  | BatchStrOutput rows strs => (filter (λ x, e_rid x.1 = k) (zip rows strs)).*2
  end.
Definition client_strs {E} (k : string) (sent : list (StrMsg E)) : list PyStr := concat (strs_in k <$> sent).

Lemma rows_of_absent k rows bs : k ∉ e_rid <$> rows → rows_of k (rows :: bs) = rows_of k bs.
Proof.
  intros Hk. unfold rows_of. cbn [concat]. rewrite filter_app. replace (filter _ rows) with (@nil StreamEntry); [done|].
  symmetry. induction rows as [|e rows IH]; [done|]. apply not_elem_of_cons in Hk as [Hk1 Hk2].
  rewrite filter_cons, decide_False by congruence. by apply IH.
Qed.

Lemma rows_of_present j e rows bs :
  NoDup (e_rid <$> rows) → rows !! j = Some e → rows_of (e_rid e) (rows :: bs) = e :: rows_of (e_rid e) bs.
Proof.
  intros Hnd Hj. unfold rows_of. cbn [concat]. rewrite filter_app.
  replace (filter _ rows) with [e]; [done|]. symmetry. revert j Hj. induction rows as [|e0 rows IH]; intros j Hj; [done|].
  rewrite fmap_cons in Hnd. apply NoDup_cons in Hnd as [Hn Hnd]. destruct j as [|j].
  - injection Hj as ->. rewrite filter_cons, decide_True by done. f_equal.
    pose proof (rows_of_absent (e_rid e) rows [] Hn) as E. unfold rows_of in E. cbn in E. by rewrite app_nil_r in E.
  - rewrite filter_cons, decide_False; [by eapply IH|]. intros Ee. apply Hn. rewrite Ee.
    apply list_elem_of_fmap_2. by eapply list_elem_of_lookup_2.
Qed.

Lemma strs_in_absent {E} k rows (strs : list PyStr) :
  k ∉ e_rid <$> rows → strs_in k (BatchStrOutput (E := E) rows strs) = [].
Proof.
  unfold strs_in. revert strs. induction rows as [|e rows IH]; intros [|t strs] Hk; try done.
  apply not_elem_of_cons in Hk as [Hk1 Hk2]. cbn. rewrite decide_False by congruence. by apply IH.
Qed.

Lemma strs_in_present {E} j e t rows (strs : list PyStr) :
  NoDup (e_rid <$> rows) → rows !! j = Some e → strs !! j = Some t →
  strs_in (e_rid e) (BatchStrOutput (E := E) rows strs) = [t].
Proof.
  intros Hnd. revert j strs. induction rows as [|e0 rows IH]; intros j strs He Ht; [done|].
  destruct strs as [|t0 strs]; [done|]. rewrite fmap_cons in Hnd. apply NoDup_cons in Hnd as [Hn Hnd].
  pose proof (λ k, strs_in_absent (E := E) k rows strs) as Ha. unfold strs_in in *. cbn. destruct j as [|j].
  - injection He as ->. injection Ht as ->. rewrite decide_True by done. cbn. f_equal. by apply Ha.
  - cbn in He, Ht. rewrite decide_False; [by eapply IH|]. intros Ee. apply Hn. rewrite Ee.
    apply list_elem_of_fmap_2. by eapply list_elem_of_lookup_2.
Qed.

Lemma forall2_choice {A B} (R : A → B → Prop) xs : (∀ x, x ∈ xs → ∃ y, R x y) → ∃ ys, Forall2 R xs ys.
Proof.
  induction xs as [|x xs IH]; intros Hx; [by exists []|]. destruct (Hx x) as [y Hy]; [by left|].
  destruct IH as [ys F]; [intros; apply Hx; by right|]. exists (y :: ys). by constructor.
Qed.

(** Every message is answered, row by row. *)
Definition answers {E} (bs : list (list StreamEntry)) (sent : list (StrMsg E)) : Prop :=
  Forall2 (λ rows msg, ∃ strs, msg = BatchStrOutput rows strs ∧ length strs = length rows) bs sent.

Lemma event_loop_rows {E} K bs m :
  batch_decodes → is_dummy m = false → fits K (decode_status m) →
  Forall (λ rows, NoDup (e_rid <$> rows) ∧ Forall (of_request K) rows) bs →
  (∀ k, k ∈ K → is_ok (run_rows (is_tool_call_parser_gpt_oss m) (status_of m k) (rows_of k bs)) = true) →
  ∃ sent m', event_loop (E := E) (BatchTokenIDOutput <$> bs) m = (Ok sent, m') ∧ moved K m m' ∧ answers bs sent ∧
    ∀ k, k ∈ K → run_rows (is_tool_call_parser_gpt_oss m) (status_of m k) (rows_of k bs) =
                 Ok (status_of m' k, client_strs k sent).
Proof.
  intros Hb Hd Hf Hbs Hok. unfold event_loop.
  assert (Hgen : ∀ acc, ∃ sent m', foldM (λ sent msg, o ← handle msg; mret (sent ++ match o with Some out => [out] | None => [] end))
      acc (BatchTokenIDOutput (E := E) <$> bs) m = (Ok (acc ++ sent), m') ∧ moved K m m' ∧ answers bs sent ∧
    ∀ k, k ∈ K → run_rows (is_tool_call_parser_gpt_oss m) (status_of m k) (rows_of k bs) =
                 Ok (status_of m' k, client_strs k sent)); [|by destruct (Hgen []) as (sent & m' & H1); exists sent, m'].
  revert m Hd Hf Hok. induction bs as [|rows bs IH]; intros m Hd Hf Hok acc.
  { exists [], m. rewrite app_nil_r. split_and!; [done..|constructor|done]. }
  apply Forall_cons in Hbs as [[Hnd Hreq] Hbs]. set (gpt := is_tool_call_parser_gpt_oss m) in *.
  destruct (forall2_choice (λ e out, row_step gpt (status_of m (e_rid e)) e = Ok out) rows) as [outs F].
  { intros e He. apply list_elem_of_lookup_1 in He as [j Hj].
    assert (HeK : e_rid e ∈ K) by (apply (Forall_lookup_1 _ _ _ _ Hreq Hj)).
    specialize (Hok _ HeK). rewrite (rows_of_present j e rows bs Hnd Hj) in Hok. cbn [run_rows] in Hok.
    destruct (row_step gpt _ e) as [out|]; [by exists out|done]. }
  destruct (handle_rows K m rows outs Hb Hd Hf Hnd Hreq F) as (m1 & E1 & M1 & In1 & Out1).
  (* the rest of every request, from its status after this message *)
  assert (Hrest : ∀ k, k ∈ K → run_rows gpt (status_of m k) (rows_of k (rows :: bs)) =
    r ← run_rows gpt (status_of m1 k) (rows_of k bs);
    Ok (r.1, strs_in k (BatchStrOutput (E := E) rows outs.*2) ++ r.2)).
  { intros k Hk. destruct (decide (k ∈ e_rid <$> rows)) as [Hin|Hni].
    - apply list_elem_of_fmap in Hin as (e & -> & He). apply list_elem_of_lookup_1 in He as [j Hj].
      destruct (Forall2_lookup_l _ _ _ _ _ F Hj) as (out & Hout & Er).
      rewrite (rows_of_present j e rows bs Hnd Hj), (In1 j e out Hj Hout). cbn [run_rows]. rewrite Er. cbn [mbind res_bind].
      rewrite (strs_in_present j e out.2 rows outs.*2 Hnd Hj) by (by rewrite list_lookup_fmap, Hout). done.
    - rewrite (rows_of_absent k rows bs Hni), (Out1 k Hni), (strs_in_absent k rows _ Hni).
      destruct (run_rows gpt (status_of m k) (rows_of k bs)) as [[? ?]|]; done. }
  assert (Hd1 : is_dummy m1 = false) by (by rewrite (mv_dummy _ _ _ M1)).
  assert (Hok1 : ∀ k, k ∈ K → is_ok (run_rows (is_tool_call_parser_gpt_oss m1) (status_of m1 k) (rows_of k bs)) = true).
  { intros k HkK. specialize (Hok k HkK). rewrite (Hrest k HkK) in Hok. rewrite (mv_gpt _ _ _ M1). fold gpt.
    by destruct (run_rows gpt (status_of m1 k) (rows_of k bs)). }
  destruct (IH Hbs m1 Hd1 (mv_fits _ _ _ M1) Hok1 (acc ++ [BatchStrOutput (E := E) rows outs.*2]))
    as (sent & m' & E' & Mv & Ha & Hk).
  exists (BatchStrOutput rows outs.*2 :: sent), m'. split_and!.
  - cbn [fmap list_fmap foldM]. unfold handle at 1. rewrite (bind_ok _ _ m (Some (BatchStrOutput rows outs.*2)) m1).
    2:{ by rewrite (bind_ok _ _ _ _ _ E1). }
    unfold mret at 1, M_ret at 1. cbv beta iota. rewrite E'. by rewrite <- app_assoc.
  - by eapply moved_trans.
  - constructor; [|done]. exists outs.*2. split; [done|]. rewrite length_fmap. by rewrite (Forall2_length _ _ _ F).
  - intros k HkK. rewrite (Hrest k HkK). rewrite (mv_gpt _ _ _ M1) in Hk. fold gpt in Hk. by rewrite (Hk k HkK).
Qed.

(** ** From an empty dictionary *)

(** The rows of a request, with its decoding flags and the end of its prompt *)
Definition expected gpt (sk sp : string → bool) (tail : string → list Z) k rows : Prop :=
  incremental (decode (sk k) (sp k)) ∧ request_rows gpt (sk k) (sp k) (tail k) rows ∧
  printable gpt None rows = true.

Lemma new_fits K n gpt db : len K ≤ n → fits K (decode_status (new_manager n gpt db)).
Proof. intros Hn. split; cbn; [apply NoDup_nil_2|set_solver|done]. Qed.

Lemma event_loop_text {E} K bs n gpt db sk sp tail :
  batch_decodes → len K ≤ n →
  Forall (λ rows, NoDup (e_rid <$> rows) ∧ Forall (of_request K) rows) bs →
  (∀ k, k ∈ K → expected gpt sk sp tail k (rows_of k bs)) →
  ∃ sent m', event_loop (E := E) (BatchTokenIDOutput <$> bs) (new_manager n gpt db) = (Ok sent, m') ∧ answers bs sent ∧
    ∀ k, k ∈ K → text_of_rows (text_after (decode (sk k) (sp k)) (tail k) (kept_ids gpt (rows_of k bs)))
                   (concat (client_strs k sent)) (rows_of k bs).
Proof.
  intros Hb Hn Hbs Hx. set (m := new_manager n gpt db).
  assert (Hrun : ∀ k, k ∈ K → ∃ o ts, run_rows gpt (status_of m k) (rows_of k bs) = Ok (o, ts) ∧
    text_of_rows (text_after (decode (sk k) (sp k)) (tail k) (kept_ids gpt (rows_of k bs))) (concat ts) (rows_of k bs)).
  { intros k Hk. destruct (Hx k Hk) as (HD & Hr & Hc). by apply request_text. }
  destruct (event_loop_rows (E := E) K bs m Hb eq_refl (new_fits K n gpt db Hn) Hbs) as (sent & m' & E1 & _ & Ha & Hk).
  { intros k Hk. destruct (Hrun k Hk) as (o & ts & Er & _). change (is_tool_call_parser_gpt_oss m) with gpt. by rewrite Er. }
  exists sent, m'. split; [done|]. split; [done|]. intros k HkK. destruct (Hrun k HkK) as (o & ts & Er & Ht).
  specialize (Hk k HkK). change (is_tool_call_parser_gpt_oss m) with gpt in Hk. rewrite Er in Hk. by injection Hk as _ <-.
Qed.

End Batch.
