(* ===== verification/DetokStream.v ===== *)
(** * From the scheduler's rows to text

    The rows [stream_output] sends for a verified request carry, for the
    detokenizer, the tokens they carry for the client: the first row has the
    end of the prompt before them.  So they are rows as the detokenizer
    expects them, and the text of a request is that of its tokens. *)

From S2P Require Import Prelude PyFloat Allocator AllocatorFacts Request ReqPool LLM42Info InfoFacts World MemCommon LLM42Worker Scheduler OutputProcessor OutputFacts Detokenizer DetokFacts DetokBatch TokenizerManager Responses.
Import OneStream.

Section Rows.
Context `{Externals} (a : ServerArgs).
Implicit Types (r : Req) (e : StreamEntry).

(** The end of the prompt that the first row starts with *)
Definition prompt_tail r : list Z :=
  slice_from (origin_input_ids_unpadded r)
    (Z.max (len (origin_input_ids_unpadded r) - INIT_INCREMENTAL_DETOKENIZATION_OFFSET) 0).

Definition started r : bool :=
  match surr_offset r, read_offset r with Some _, Some _ => true | _, _ => false end.

(** The two cursors of a request, one for tokens and one for the
    detokenizer, are at the same place. *)
Record in_sync r : Prop := {
  sy_text : decoded_text r = EmptyString;
  sy_start : started r = false → send_token_offset r = 0 ∧ send_decode_id_offset r = 0;
  sy_going : started r = true →
    cur_decode_ids_len r = send_token_offset r ∧ send_decode_id_offset r = len (surr_and_decode_ids r)
}.

(** A request that may send: verified as far as it says, and no finish of a
    rolled back token cuts off what has been verified since. *)
Record may_send r : Prop := {
  ms_needs : Stream.needs_verification a r = true;
  ms_sendable : sendable r;
  ms_done : finished r = true → llm42_verified_tokens r = len (output_ids r);
  ms_stale : finished r = false → ∀ f, finished_len r = Some f → llm42_verified_tokens r ≤ f;
  ms_closed : finished_output r = true → finished r = true
}.

(** The tokens for the detokenizer *)
Definition detok_slice r : list Z :=
  if started r then slice (output_ids_through_stop r) (cur_decode_ids_len r) (llm42_verified_tokens r)
  else slice_to (output_ids_through_stop r) (llm42_verified_tokens r).

Lemma detok_verified r :
  let r' := (init_incremental_detokenize true r).2 in
  surr_and_decode_ids r' = (if started r then surr_and_decode_ids r else prompt_tail r) ++ detok_slice r ∧
  cur_decode_ids_len r' = llm42_verified_tokens r ∧ started r' = true ∧
  (started r = false → default 0 (read_offset r') - default 0 (surr_offset r') = len (prompt_tail r)).
Proof.
  unfold init_incremental_detokenize, detok_slice, started, prompt_tail. cbv zeta.
  assert (Hl : ∀ xs : list Z, len xs - Z.max (len xs - INIT_INCREMENTAL_DETOKENIZATION_OFFSET) 0 =
     len (slice_from xs (Z.max (len xs - INIT_INCREMENTAL_DETOKENIZATION_OFFSET) 0))).
  { intros xs. pose proof (len_nonneg xs). unfold INIT_INCREMENTAL_DETOKENIZATION_OFFSET.
    rewrite len_slice_from by lia. lia. }
  generalize (output_ids_through_stop r). intros o.
  destruct (surr_offset r) as [so|] eqn:Es, (read_offset r) as [ro|] eqn:Er; cbn [snd]; rsimpl;
    (split_and!; [done|done|by rewrite ?Es, ?Er|by intros; cbn]).
Qed.

(** They are the tokens of the row. *)
Lemma detok_slice_tokens r :
  may_send r → in_sync r →
  detok_slice r = (Stream.new_tokens a r).1 ∧
  (finished r = false → (Stream.new_tokens a r).2 = llm42_verified_tokens r).
Proof.
  intros [Hn [Hs Hv Hf] Hd Hst _] [_ S1 S2]. unfold Stream.new_tokens, detok_slice. rewrite Hn. cbn [andb].
  destruct (len_through_stop r) as (_ & Hl & Ef); [intros f Hff; specialize (Hf f Hff); lia|].
  set (o := output_ids_through_stop r) in *. set (v := llm42_verified_tokens r) in *.
  assert (Hcur : slice o (send_token_offset r) v = if started r then slice o (cur_decode_ids_len r) v else slice_to o v).
  { destruct (started r); [by rewrite (proj1 (S2 eq_refl))|]. rewrite (proj1 (S1 eq_refl)).
    rewrite slice_nonneg, slice_to_take by lia. by rewrite Nat.sub_0_r. }
  rewrite <- Hcur. destruct (finished r) eqn:Efin; cbn [negb fst snd]; (split; [|]); try done.
  - rewrite slice_nonneg, slice_from_drop by lia. apply take_ge. rewrite length_drop.
    specialize (Hd eq_refl). unfold len in *. lia.
  - replace (Z.min (len o) v) with v; [done|]. rewrite Ef. specialize (Hst eq_refl).
    destruct (finished_len r) as [f|]; [specialize (Hst f eq_refl)|]; lia.
  - intros _. rewrite Ef. specialize (Hst eq_refl). destruct (finished_len r) as [f|]; [specialize (Hst f eq_refl)|]; lia.
Qed.

(** What [emit] puts into a row of a verified request, and the request after
    it *)
Record emitted r e r' : Prop := {
  ew_tokens : e_output_ids e = (Stream.new_tokens a r).1;
  ew_offset : send_token_offset r' = (Stream.new_tokens a r).2;
  ew_ids : e_decode_ids e =
    slice_from ((if started r then surr_and_decode_ids r else prompt_tail r) ++ detok_slice r) (send_decode_id_offset r);
  ew_read : started r = false → e_read_offset e = len (prompt_tail r);
  ew_cursor : cur_decode_ids_len r' = llm42_verified_tokens r;
  ew_place : send_decode_id_offset r' = len (surr_and_decode_ids r');
  ew_started : started r' = true;
  ew_text : e_decoded_text e = decoded_text r ∧ decoded_text r' = decoded_text r;
  ew_reason : e_finished_reason e = finished_reason r;
  ew_flags : e_skip_special_tokens e = skip_special_tokens (sampling_params r) ∧
             e_spaces_between_special_tokens e = spaces_between_special_tokens (sampling_params r) ∧
             e_no_stop_trim e = no_stop_trim (sampling_params r);
  ew_rid : e_rid e = rid r;
  ew_frame : sframe r r' ∧ finished_output r' = finished_output r
}.

Lemma emit_emitted r :
  is_multimodal_gen a = false → Stream.needs_verification a r = true →
  ∃ e r', Stream.emit a false r = Ok (e, r') ∧ emitted r e r'.
Proof.
  intros Hmm Hn. destruct (emit_ok a r) as (e & r' & E & F & Er & Eo & Ek & El & Ef). exists e, r'. split; [done|].
  revert E. unfold Stream.emit. rewrite Hn, (detok_pair true r), Hmm.
  destruct (detok_verified r) as (D1 & D2 & D3 & D4). destruct (detok_frame true r) as (F1 & _ & _ & _).
  set (r1 := (init_incremental_detokenize true r).2) in *.
  assert (S1 : send_decode_id_offset r1 = send_decode_id_offset r ∧ finished_reason r1 = finished_reason r ∧
    sampling_params r1 = sampling_params r ∧ decoded_text r1 = decoded_text r).
  { unfold r1, init_incremental_detokenize. destruct (surr_offset r), (read_offset r); cbn [snd]; by rsimpl. }
  destruct S1 as (S1 & S2 & S3 & S4).
  destruct (Stream.new_tokens a (r1 <| send_decode_id_offset := _ |>)) as [toks off].
  unfold Stream.input_columns, Stream.output_columns, mbind, res_bind. cbv beta iota zeta.
  intros [= <- <-]. cbn [e_output_ids] in Eo. change (off = (Stream.new_tokens a r).2) in Ek.
  split; cbn [e_decode_ids e_output_ids e_read_offset e_decoded_text e_finished_reason e_skip_special_tokens
    e_spaces_between_special_tokens e_no_stop_trim e_rid]; rsimpl; try done.
  - by rewrite S1, D1.
  - by rewrite S3.
Qed.

(** A row, and the request after it *)
Record row_for r e r' : Prop := {
  rf_ids : e_decode_ids e = (if started r then [] else prompt_tail r) ++ e_output_ids e;
  rf_read : started r = false → e_read_offset e = len (prompt_tail r);
  rf_text : e_decoded_text e = EmptyString;
  rf_reason : e_finished_reason e = finished_reason r;
  rf_flags : e_skip_special_tokens e = skip_special_tokens (sampling_params r) ∧
             e_spaces_between_special_tokens e = spaces_between_special_tokens (sampling_params r) ∧
             e_no_stop_trim e = no_stop_trim (sampling_params r);
  rf_rid : e_rid e = rid r;
  rf_started : started r' = true;
  rf_sync : finished r = false → in_sync r'
}.

(** Both cursors at one place: the row has the tokens for the detokenizer,
    the first with the end of the prompt before them. *)
Lemma emitted_ids r e r' :
  in_sync r → emitted r e r' → e_decode_ids e = (if started r then [] else prompt_tail r) ++ detok_slice r.
Proof.
  intros Hsy W. rewrite (ew_ids _ _ _ W). destruct (started r) eqn:Est.
  - by rewrite (proj2 (sy_going _ Hsy Est)), slice_from_len, drop_app_length.
  - by rewrite (proj2 (sy_start _ Hsy Est)), slice_from_drop by (len_pos; lia).
Qed.

Lemma emit_row r :
  is_multimodal_gen a = false → may_send r → in_sync r →
  ∃ e r', Stream.emit a false r = Ok (e, r') ∧ row_for r e r' ∧ sframe r r' ∧
    finished_output r' = finished_output r.
Proof.
  intros Hmm Hms Hsy. destruct (detok_slice_tokens r Hms Hsy) as [Et Eoff].
  destruct (emit_emitted r Hmm (ms_needs _ Hms)) as (e & r' & E & W). exists e, r'. split; [done|].
  split; [|by apply W]. destruct (ew_text _ _ _ W) as [T1 T2]. pose proof (emitted_ids r e r' Hsy W) as Hi.
  destruct W as [W1 W2 _ W4 W5 W6 W7 _ W9 W10 W11 _]. split; try done.
  - by rewrite W1, <- Et.
  - rewrite T1. apply Hsy.
  - intros Hf. split; [rewrite T2; apply Hsy|congruence|]. intros _. split; [|done]. by rewrite W5, W2, Eoff.
Qed.

(** ** One call of [stream_output] *)

(** What the rows of a request depend on *)
Definition detok_view r :=
  (rid r, sampling_params r, origin_input_ids_unpadded r, decoded_text r, surr_offset r, read_offset r,
   surr_and_decode_ids r, cur_decode_ids_len r, send_decode_id_offset r, send_token_offset r).

Lemma view_sync r r1 :
  detok_view r1 = detok_view r →
  (in_sync r → in_sync r1) ∧ started r1 = started r ∧ prompt_tail r1 = prompt_tail r ∧
  rid r1 = rid r ∧ sampling_params r1 = sampling_params r.
Proof.
  unfold detok_view. intros [= E1 E2 E3 E4 E5 E6 E7 E8 E9 E10].
  assert (Es : started r1 = started r) by (unfold started; by rewrite E5, E6).
  split_and!; [|done|unfold prompt_tail; by rewrite E3|done|done]. intros [S1 S2 S3]. split; rewrite ?Es, ?E4, ?E7, ?E8, ?E9, ?E10; auto.
Qed.

Lemma mark_output_view r :
  detok_view (mark_output r) = detok_view r ∧ finished_reason (mark_output r) = finished_reason r ∧
  output_ids (mark_output r) = output_ids r ∧ llm42_verified_tokens (mark_output r) = llm42_verified_tokens r ∧
  is_deterministic (mark_output r) = is_deterministic r.
Proof.
  unfold mark_output, detok_view. rsimpl. destruct (finished_len r); by rsimpl.
Qed.

Lemma mark_may_send r : finished r = true → may_send r → may_send (mark_output r).
Proof.
  intros Hf [Hn [H1 H2 H3] Hd _ _]. destruct (mark_output_view r) as (V & E1 & E2 & E3 & E4).
  destruct (mark_output_frame r) as (_ & M1 & _ & M3).
  assert (Hfm : finished (mark_output r) = finished r) by (unfold finished; by rewrite E1). split.
  - unfold Stream.needs_verification in *. by rewrite E4.
  - split; rewrite ?M1, ?E2, ?E3; [done|done|]. rewrite M3. intros f [= <-].
    destruct (finished_len r) as [f|]; cbn; [by apply H3|lia].
  - by rewrite Hfm, E2, E3.
  - by rewrite Hfm, Hf.
  - by rewrite Hfm.
Qed.

(** A row if there is one; the request is closed with the row that finishes
    it. *)
Record sent_row r (o : option StreamEntry) r' : Prop := {
  sr_row : ∀ e, o = Some e → row_for r e r' ∧ (finished r = true → finished_output r = false);
  sr_none : o = None → r' = r;
  sr_done : finished r = true → finished_output r' = true;
  sr_going : finished r = false → finished_output r' = finished_output r;
  sr_tail : prompt_tail r' = prompt_tail r;
  sr_params : sampling_params r' = sampling_params r
}.

Lemma sent_nothing r : (finished r = true → finished_output r = true) → sent_row r None r.
Proof. intros Hf. by split. Qed.

Lemma sframe_tail r r' : sframe r r' → prompt_tail r' = prompt_tail r ∧ sampling_params r' = sampling_params r.
Proof. intros (?&?&?&?&?&?&?&?&?&?&->). unfold prompt_tail, out_set. by rsimpl. Qed.

Lemma stream_one_row r :
  default_stream_interval a ≠ 0 → is_multimodal_gen a = false → may_send r → in_sync r →
  ∃ o r', Stream.stream_one a false r = Ok (o, r') ∧ sent_row r o r'.
Proof.
  intros Hd Hmm Hms Hsy. unfold Stream.stream_one, Stream.should_output. rewrite Hmm, (ms_needs _ Hms). cbn [andb].
  destruct (finished r) eqn:Ef.
  - destruct (finished_output r) eqn:Eo.
    { exists None, r. split; [done|]. by apply sent_nothing. }
    destruct (Z.ltb_spec (llm42_verified_tokens r) (len (output_ids r))) as [Hl|Hl].
    { pose proof (ms_done _ Hms Ef). lia. }
    fold (mark_output r). destruct (mark_output_view r) as (V & E1 & _). destruct (view_sync _ _ V) as (Y & Est & Etl & Erid & Esp).
    destruct (emit_row (mark_output r) Hmm (mark_may_send r Ef Hms) (Y Hsy)) as (e & r' & E & R & F & Efo).
    destruct (mark_output_frame r) as (_ & _ & M2 & _). destruct (sframe_tail _ _ F) as [T1 T2].
    exists (Some e), r'. split; [unfold mbind, res_bind; cbv beta iota; by rewrite E|].
    assert (R' : row_for r e r').
    { destruct R as [A1 A2 A3 A4 A5 A6 A7 A8]. split; try done; rewrite <- ?Est, <- ?Etl, <- ?Esp, <- ?E1, <- ?Erid; try done.
      congruence. }
    split; try done; try congruence. by intros e' [= <-].
  - destruct ((send_token_offset r <? llm42_verified_tokens r) && stream r); cycle 1.
    { exists None, r. split; [done|]. apply sent_nothing. congruence. }
    destruct (due_ok a r (llm42_verified_tokens r) Hd) as [b Eb]. rewrite Eb. destruct b; cycle 1.
    { exists None, r. split; [done|]. apply sent_nothing. congruence. }
    destruct (emit_row r Hmm Hms Hsy) as (e & r' & E & R & F & Efo). destruct (sframe_tail _ _ F) as [T1 T2].
    exists (Some e), r'. split; [unfold mbind, res_bind; cbv beta iota; by rewrite E|].
    split; try done; try congruence. intros e' [= <-]. split; [done|congruence].
Qed.

(** ** A stale finish

    The finish of a rolled back token was at [f]; the request goes on, and
    has been verified beyond [f] when its next row is due. *)
Record stale r (f : Z) : Prop := {
  sl_needs : Stream.needs_verification a r = true;
  sl_sync : in_sync r;
  sl_going : finished r = false;
  sl_len : finished_len r = Some f;
  sl_sent : 0 ≤ send_token_offset r ≤ f;
  sl_beyond : f < llm42_verified_tokens r ≤ len (output_ids r);
  sl_due : stream r = true ∧ Stream.due a r (llm42_verified_tokens r) = Ok true
}.

(** The row stops at [f], and so do the tokens for the detokenizer, but its
    cursor moves on. *)
Lemma stale_row r f :
  is_multimodal_gen a = false → stale r f →
  ∃ e r', Stream.stream_one a false r = Ok (Some e, r') ∧
    e_output_ids e = slice (output_ids r) (send_token_offset r) f ∧
    e_decode_ids e = (if started r then [] else prompt_tail r) ++ e_output_ids e ∧
    cur_decode_ids_len r' = llm42_verified_tokens r ∧ send_token_offset r' = f ∧
    send_decode_id_offset r' = len (surr_and_decode_ids r') ∧ started r' = true.
Proof.
  intros Hmm [Hn Hsy Hg Hl Hs Hb [Hst Hdue]]. destruct (emit_emitted r Hmm Hn) as (e & r' & E & W).
  exists e, r'. split.
  { unfold Stream.stream_one, Stream.should_output. rewrite Hmm, Hg, Hn, Hst, Hdue. cbn [andb].
    destruct (Z.ltb_spec (send_token_offset r) (llm42_verified_tokens r)); [|lia]. cbn [andb]. unfold mbind, res_bind. by rewrite E. }
  assert (Et : output_ids_through_stop r = take (Z.to_nat f) (output_ids r)).
  { unfold output_ids_through_stop. rewrite Hl. apply slice_to_take. lia. }
  assert (Elen : len (take (Z.to_nat f) (output_ids r)) = f) by (rewrite len_take; lia).
  assert (Ecut : slice (take (Z.to_nat f) (output_ids r)) (send_token_offset r) f = slice (output_ids r) (send_token_offset r) f).
  { rewrite !slice_nonneg by lia. rewrite !take_drop_commute. rewrite take_take. do 2 f_equal. lia. }
  assert (Hd : detok_slice r = slice (output_ids r) (send_token_offset r) f).
  { unfold detok_slice. rewrite Et, <- Ecut. destruct (started r) eqn:Est.
    - rewrite (proj1 (sy_going _ Hsy Est)), !slice_nonneg by lia.
      rewrite !(take_ge (drop _ _)); [done|rewrite length_drop; unfold len in *; lia..].
    - rewrite (proj1 (sy_start _ Hsy Est)), slice_to_take, slice_nonneg by lia.
      change (Z.to_nat 0) with 0%nat. rewrite drop_0, !take_take. f_equal. lia. }
  rewrite (emitted_ids r e r' Hsy W), Hd. rewrite (ew_tokens _ _ _ W), (ew_offset _ _ _ W). unfold Stream.new_tokens.
  rewrite Hn, Hg, Et, Elen, Z.min_l by lia. cbn [andb negb fst snd]. rewrite Ecut. by destruct W.
Qed.

(** The row that finishes the request has, for the client, the tokens from
    [f] on, and for the detokenizer those from where its cursor is. *)
Lemma late_row r f v :
  is_multimodal_gen a = false → Stream.needs_verification a r = true → finished r = true → finished_output r = false →
  started r = true → send_decode_id_offset r = len (surr_and_decode_ids r) → llm42_verified_tokens r = len (output_ids r) →
  send_token_offset r = f → cur_decode_ids_len r = v →
  0 ≤ f ≤ v → v ≤ default (len (output_ids r)) (finished_len r) ≤ len (output_ids r) →
  ∃ e r', Stream.stream_one a false r = Ok (Some e, r') ∧ e_output_ids e = slice (output_ids r) f v ++ e_decode_ids e.
Proof.
  intros Hmm Hn Hf Hfo Hst Hpl Hv Hsend Hcur Hfv Hstop. destruct (mark_output_view r) as (V & E1 & E2 & E3 & E4).
  destruct (mark_output_frame r) as (_ & _ & _ & M3).
  assert (Hn' : Stream.needs_verification a (mark_output r) = true) by (unfold Stream.needs_verification in *; by rewrite E4).
  destruct (emit_emitted (mark_output r) Hmm Hn') as (e & r' & E & W). exists e, r'. split.
  { unfold Stream.stream_one, Stream.should_output. rewrite Hmm, Hf, Hfo, Hn. cbn [andb].
    destruct (Z.ltb_spec (llm42_verified_tokens r) (len (output_ids r))); [lia|]. fold (mark_output r).
    unfold mbind, res_bind. by rewrite E. }
  set (stop := default (len (output_ids r)) (finished_len r)) in *.
  assert (Et : output_ids_through_stop (mark_output r) = take (Z.to_nat stop) (output_ids r)).
  { unfold output_ids_through_stop. rewrite M3, E2. apply slice_to_take. lia. }
  unfold detok_view in V. injection V as _ _ _ _ V5 V6 V7 V8 V9 V10.
  assert (Hst' : started (mark_output r) = true) by (unfold started in *; by rewrite V5, V6).
  assert (Hf' : finished (mark_output r) = true) by (unfold finished in *; by rewrite E1).
  rewrite (ew_ids _ _ _ W), Hst', V7, V9, Hpl, slice_from_len, drop_app_length, (ew_tokens _ _ _ W).
  unfold detok_slice, Stream.new_tokens. rewrite Hst', Hn', Hf', Et, V8, V10, Hsend, Hcur, E3, Hv. cbn [andb negb fst].
  rewrite slice_from_drop, !slice_nonneg by lia. rewrite (take_ge (drop (Z.to_nat v) _)); cycle 1.
  { rewrite length_drop, length_take. unfold len in *. lia. }
  set (o := output_ids r) in *.
  replace (take (Z.to_nat v - Z.to_nat f) (drop (Z.to_nat f) o)) with (take (Z.to_nat v - Z.to_nat f) (drop (Z.to_nat f) (take (Z.to_nat stop) o))).
  - rewrite <- (take_drop (Z.to_nat v - Z.to_nat f) (drop (Z.to_nat f) (take (Z.to_nat stop) o))) at 1.
    rewrite drop_drop. do 2 f_equal. lia.
  - rewrite !take_drop_commute, take_take. do 2 f_equal. lia.
Qed.

(** ** The rows of a request

    [sends r rows r']: between calls of [stream_output] anything may happen
    to the request that leaves the cursors alone; a row that reports a stop
    token has it. *)
Inductive sends : Req → list StreamEntry → Req → Prop :=
| sends_done r : sends r [] r
| sends_other r r1 rows r' :
    detok_view r1 = detok_view r → finished_output r1 = finished_output r → sends r1 rows r' → sends r rows r'
| sends_call r o r1 rows r' :
    may_send r → Stream.stream_one a false r = Ok (o, r1) →
    (∀ e z, o = Some e → finished_reason r = Some (FINISH_MATCHED_TOKEN z) → e_output_ids e ≠ []) →
    sends r1 rows r' → sends r (match o with Some e => e :: rows | None => rows end) r'.

Lemma trim_ok gpt k f nst :
  (∀ z, f = FINISH_MATCHED_TOKEN z → k ≠ []) → is_ok (Detokenizer.trim_ids gpt k (Some f) nst) = true.
Proof.
  intros Hk. unfold Detokenizer.trim_ids. destruct nst; [done|]. cbn [mbind option_bind].
  destruct f as [z|m|m|n|m]; try done. cbn [matched_of]. destruct (z =? 0); [done|].
  destruct k as [|x k _] using rev_ind; [by destruct (Hk z eq_refl)|].
  rewrite (proj1 (pop_last k x)). cbn [mbind res_bind]. destruct (_ && gpt); [done|].
  assert (Hpos : (0 <? len (k ++ [x])) = true) by (apply Z.ltb_lt; llia). by rewrite Hpos.
Qed.

(** The rows as the detokenizer expects them, before and after the first *)
Definition good_rows (gpt : bool) r rows : Prop :=
  let sk := skip_special_tokens (sampling_params r) in
  let sp := spaces_between_special_tokens (sampling_params r) in
  if started r then continuing gpt sk sp rows ∧ Forall (λ e, e_decode_ids e = e_output_ids e) rows
  else request_rows gpt sk sp (prompt_tail r) rows ∧
       match rows with
       | [] => True
       | e :: rows' => e_decode_ids e = prompt_tail r ++ e_output_ids e ∧ Forall (λ e, e_decode_ids e = e_output_ids e) rows'
       end.

(** A row in front of the rows that follow it *)
Lemma good_cons gpt r e r1 rows :
  row_for r e r1 → sampling_params r1 = sampling_params r → prompt_tail r1 = prompt_tail r →
  (∀ z, finished_reason r = Some (FINISH_MATCHED_TOKEN z) → e_output_ids e ≠ []) →
  (finished r = true → rows = []) → (finished r = false → good_rows gpt r1 rows) →
  good_rows gpt r (e :: rows).
Proof.
  intros [R1 R2 R3 R4 (R5 & R6 & _) R7 R8 R9] Esp Etl Htok Hfin Hgo.
  assert (Hrest : Forall (λ e, e_decode_ids e = e_output_ids e) rows ∧ ∀ e', e_skip_special_tokens e' = e_skip_special_tokens e →
    e_spaces_between_special_tokens e' = e_spaces_between_special_tokens e → e_finished_reason e' = e_finished_reason e →
    e_no_stop_trim e' = e_no_stop_trim e → e_decode_ids e' = e_output_ids e →
    continuing gpt (skip_special_tokens (sampling_params r)) (spaces_between_special_tokens (sampling_params r)) (e' :: rows)).
  { unfold good_rows in Hgo. rewrite R8, Esp in Hgo. split.
    - destruct (finished r) eqn:Ef; [by rewrite Hfin|]. by apply Hgo.
    - intros e' E1 E2 E3 E4 E5. cbn [continuing]. rewrite E1, E2, R5, R6, E3, R4, E4, E5. split_and!; [done|done|].
      destruct (finished_reason r) as [f|] eqn:Ef.
      + split; [apply Hfin; unfold finished; by rewrite Ef|]. apply trim_ok. intros z ->. by eapply Htok.
      + apply Hgo. unfold finished. by rewrite Ef. }
  destruct Hrest as [HF HC]. unfold good_rows. destruct (started r) eqn:Est.
  - cbn [app] in R1. split; [by apply HC|]. by constructor.
  - split; [|done]. exists (e_output_ids e). split_and!; [done|by apply R2|done|]. by apply HC.
Qed.

Lemma sends_good gpt r rows r' :
  default_stream_interval a ≠ 0 → is_multimodal_gen a = false → sends r rows r' →
  (finished_output r = true → rows = []) ∧ (finished_output r = false → in_sync r → good_rows gpt r rows).
Proof.
  intros Hd Hmm. induction 1 as [r|r r1 rows r' V Efo S [IH1 IH2]|r o r1 rows r' Hms E Htok S [IH1 IH2]].
  - split; [done|]. intros _ _. unfold good_rows. by destruct (started r).
  - destruct (view_sync _ _ V) as (Y & Est & Etl & _ & Esp). rewrite Efo in IH1, IH2. split; [done|].
    intros Hfo Hsy. specialize (IH2 Hfo (Y Hsy)). unfold good_rows in *. by rewrite Est, Etl, Esp in IH2.
  - split.
    + intros Hfo. pose proof (ms_closed _ Hms Hfo) as Hf. unfold Stream.stream_one, Stream.should_output in E.
      rewrite Hmm, Hf, Hfo in E. cbn in E. injection E as <- <-. by apply IH1.
    + intros Hfo Hsy. destruct (stream_one_row r Hd Hmm Hms Hsy) as (o' & r1' & E' & [S1 S2 S3 S4 S5 S6]).
      rewrite E in E'. injection E' as <- <-. destruct o as [e|].
      * destruct (S1 e eq_refl) as [R _]. eapply (good_cons gpt r e r1 rows R S6 S5).
        -- intros z Hz. by eapply Htok.
        -- intros Hf. by apply IH1, S3.
        -- intros Hf. apply IH2; [by rewrite S4|]. by apply R.
      * rewrite (S2 eq_refl) in IH2. by apply IH2.
Qed.

(** The tokens for the client *)
Fixpoint kept_outputs (gpt : bool) (rows : list StreamEntry) : list Z :=
  match rows with
  | [] => []
  | e :: rows' =>
      match e_finished_reason e with
      | None => e_output_ids e ++ kept_outputs gpt rows'
      | Some f => match Detokenizer.trim_ids gpt (e_output_ids e) (Some f) (e_no_stop_trim e) with Ok k => k | Raise _ => [] end
      end
  end.

Lemma kept_same gpt rows :
  Forall (λ e, e_decode_ids e = e_output_ids e) rows → kept_ids gpt rows = kept_outputs gpt rows.
Proof.
  induction 1 as [|e rows Ee F IH]; [done|]. cbn. rewrite Ee. destruct (e_finished_reason e); [done|by rewrite IH].
Qed.

Lemma kept_tokens gpt r rows :
  started r = false → good_rows gpt r rows → rows ≠ [] → kept_ids gpt rows = prompt_tail r ++ kept_outputs gpt rows.
Proof.
  unfold good_rows. intros -> [Hr Hs] Hne. destruct rows as [|e rows]; [done|]. destruct Hs as [Ee F].
  cbn [kept_ids kept_outputs]. rewrite Ee, (kept_same gpt rows F).
  destruct (e_finished_reason e) as [f|] eqn:Ef; [|by rewrite app_assoc].
  destruct Hr as (c & Ec & _ & _ & Hc). rewrite Ee in Ec. apply app_inv_head in Ec as <-.
  destruct Hc as (_ & _ & Hc). change (e_finished_reason _) with (e_finished_reason e) in Hc. rewrite Ef in Hc.
  destruct Hc as [_ Hok]. change (e_decode_ids _) with (e_output_ids e) in Hok.
  change (e_no_stop_trim _) with (e_no_stop_trim e) in Hok.
  destruct (Detokenizer.trim_ids gpt (e_output_ids e) (Some f) (e_no_stop_trim e)) as [k|] eqn:Ek; [|done].
  by rewrite (trim_ids_app _ _ _ _ _ _ Ek).
Qed.

(** ** Through the detokenizer *)

Section Through.
Context `{TextTokenizer} (K : list string) (bs : list (list StreamEntry)) (n : Z) (gpt db : bool) (req req' : string → Req).

Definition decoder_of (k : string) : list Z → PyStr :=
  decode (skip_special_tokens (sampling_params (req k))) (spaces_between_special_tokens (sampling_params (req k))).

(** The rows of [k] are those of its request, from the first. *)
Record streams (k : string) : Prop := {
  sm_decode : incremental (decoder_of k);
  sm_sync : in_sync (req k);
  sm_new : started (req k) = false ∧ finished_output (req k) = false;
  sm_sends : sends (req k) (rows_of k bs) (req' k);
  sm_printable : printable gpt None (rows_of k bs) = true
}.

(** The text of the tokens of [k] *)
Definition token_text (k : string) : PyStr :=
  text_after (decoder_of k) (prompt_tail (req k)) (prompt_tail (req k) ++ kept_outputs gpt (rows_of k bs)).

Lemma streams_good k :
  default_stream_interval a ≠ 0 → is_multimodal_gen a = false → streams k → good_rows gpt (req k) (rows_of k bs).
Proof. intros Hd Hmm [_ Hsy [_ Hfo] Hs _]. by apply (sends_good gpt _ _ _ Hd Hmm Hs). Qed.

Lemma streamed_text {E} :
  default_stream_interval a ≠ 0 → is_multimodal_gen a = false → batch_decodes → len K ≤ n →
  Forall (λ rows, NoDup (e_rid <$> rows) ∧ Forall (of_request K) rows) bs → (∀ k, k ∈ K → streams k) →
  ∃ sent m', Detokenizer.event_loop (E := E) (BatchTokenIDOutput <$> bs) (Detokenizer.new_manager n gpt db) = (Ok sent, m') ∧
    answers bs sent ∧
    ∀ k, k ∈ K → rows_of k bs ≠ [] → text_of_rows (token_text k) (concat (client_strs k sent)) (rows_of k bs).
Proof.
  intros Hd Hmm Hb Hn Hbs Hk.
  destruct (event_loop_text (E := E) K bs n gpt db (λ k, skip_special_tokens (sampling_params (req k)))
    (λ k, spaces_between_special_tokens (sampling_params (req k))) (λ k, prompt_tail (req k)) Hb Hn Hbs) as (sent & m' & E1 & Ha & Ht).
  { intros k HkK. destruct (Hk k HkK) as [HD _ [Hst _] _ Hc]. pose proof (streams_good k Hd Hmm (Hk k HkK)) as Hg.
    unfold good_rows in Hg. rewrite Hst in Hg. by split_and!; [|apply Hg|]. }
  exists sent, m'. split; [done|]. split; [done|]. intros k HkK Hne. unfold token_text.
  rewrite <- (kept_tokens gpt (req k) _ (proj1 (sm_new _ (Hk k HkK))) (streams_good k Hd Hmm (Hk k HkK)) Hne). by apply Ht.
Qed.

(** A row that finishes a request is its last. *)
Definition closing (rows : list StreamEntry) : Prop :=
  ∀ pre e post, rows = pre ++ e :: post → is_Some (e_finished_reason e) → post = [].

Lemma continuing_closing sk sp rows : continuing gpt sk sp rows → closing rows.
Proof.
  induction rows as [|e rows IH]; intros Hc pre e0 post E Hf; [by destruct pre|].
  destruct Hc as (_ & _ & Hc). destruct pre as [|e1 pre]; injection E as -> E.
  - destruct Hf as [f Hf]. rewrite Hf in Hc. subst. by destruct Hc.
  - destruct (e_finished_reason e1); [|by eapply IH]. destruct Hc as [-> _]. by destruct pre.
Qed.

Lemma good_closing r rows : good_rows gpt r rows → closing rows.
Proof.
  unfold good_rows. destruct (started r); [intros [Hc _]; by eapply continuing_closing|].
  intros [Hr _]. destruct rows as [|e rows]; [by intros [|]|]. destruct Hr as (c & _ & _ & _ & Hc).
  intros pre e0 post E Hf. apply continuing_closing in Hc. destruct pre as [|e1 pre]; injection E as -> E.
  - eapply (Hc []); [by rewrite E|done].
  - subst rows. eapply (Hc (_ :: pre) e0 post); [reflexivity|done].
Qed.
End Through.

(** *** Rows and strings of the answers *)

Lemma answers_pairs {E} k bs (sent : list (StrMsg E)) :
  answers bs sent → (rows_for k sent).*1 = rows_of k bs ∧ (rows_for k sent).*2 = client_strs k sent.
Proof.
  unfold rows_for, rows_of, client_strs.
  induction 1 as [|rows msg bs sent (strs & -> & Hl) F [IH1 IH2]]; [done|]. cbn [fmap list_fmap concat pairs_in strs_in].
  rewrite !filter_app, !fmap_app, IH1, IH2. split; [|done]. f_equal. clear -Hl. revert strs Hl.
  induction rows as [|e rows IH]; intros [|t strs] Hl; try done. cbn. injection Hl as Hl.
  destruct (decide (e_rid e = k)); cbn; by rewrite IH.
Qed.

(** Rows that end with a finish are all the rows. *)
Lemma closing_whole bs (rs all : list (StreamEntry * PyStr)) :
  closing bs → all.*1 = bs → rs `prefix_of` all → is_Some (finish_of rs) → rs = all.
Proof.
  intros Hc <- [post ->] [f Hf]. destruct rs as [|[e t] rs _] using rev_ind; [done|].
  unfold finish_of in Hf. rewrite last_snoc in Hf. cbn in Hf.
  assert (Hp : post.*1 = []).
  { apply (Hc rs.*1 e); [|by eexists]. by rewrite !fmap_app, <- app_assoc. }
  apply fmap_nil_inv in Hp as ->. by rewrite app_nil_r.
Qed.

(** *** The outputs the clients are given *)

Lemma prefix_omap {A B} (f : A → option B) (l l' : list A) : l `prefix_of` l' → omap f l `prefix_of` omap f l'.
Proof. intros [r ->]. rewrite omap_app. by eexists. Qed.

Lemma received_prefix {V} k (evs : list (TokenizerManager.Ev (V := V))) sent :
  received evs `prefix_of` sent → own_rows k (pairs_of evs) `prefix_of` rows_for k sent.
Proof.
  intros [r ->]. trans (rows_for k (received evs)); [apply upto_prefix|].
  unfold rows_for. rewrite fmap_app, concat_app, filter_app. by eexists.
Qed.

Lemma text_prefix (rs all : list (StreamEntry * PyStr)) : rs `prefix_of` all → text_of rs `prefix_of` text_of all.
Proof. intros [r ->]. unfold text_of. rewrite fmap_app, concat_app. by eexists. Qed.

Lemma given_text {V} objs bs sent (evs : list (TokenizerManager.Ev (V := V))) given x i obj :
  answers bs sent → received evs `prefix_of` sent → served objs evs given x → objs !! i = Some obj →
  closing (rows_of (i_rid obj) bs) →
  (∀ out, (i, Yields out) ∈ given ∨ (i, Returns out) ∈ given →
     ∃ t, od_text out = Some t ∧ t `prefix_of` concat (client_strs (i_rid obj) sent)) ∧
  (∀ out, (i, Returns out) ∈ given →
     od_text out = Some (concat (client_strs (i_rid obj) sent)) ∧
     od_output_ids out = Some (concat (e_output_ids <$> rows_of (i_rid obj) bs)) ∧ rows_of (i_rid obj) bs ≠ []).
Proof.
  intros Ha Hp [_ Hsh Hret] Hi Hc. set (k := i_rid obj) in *. destruct (answers_pairs k bs sent Ha) as [A1 A2].
  assert (Et : text_of (rows_for k sent) = concat (client_strs k sent)) by (unfold text_of; by rewrite A2). split.
  - intros out Hin. destruct (Hsh i obj out Hi Hin) as (pre & Hpre & [S1 _ _]). exists (text_of (own_rows k (pairs_of pre))).
    split; [done|]. rewrite <- Et. apply text_prefix, received_prefix. trans (received evs); [by apply prefix_omap|done].
  - intros out Hin. destruct (Hret i obj out Hi Hin) as [[S1 S2 _] Hf].
    pose proof (closing_whole _ _ _ Hc A1 (received_prefix k evs sent Hp) Hf) as Er. fold k in S1, S2, Hf.
    rewrite Er in S1, S2, Hf. rewrite S1, S2, Et, <- A1. unfold ids_received. rewrite list_fmap_compose. split_and!; [done|done|].
    destruct (rows_for k sent); [by destruct Hf|done].
Qed.
End Rows.
