(* ===== verification/DecodeFacts.v ===== *)
(** * The loops of the decode handler

    Each loop of [process_batch_result_decode] visits the requests of the
    batch once.  [stepped] is what one visit may change; [for_stepped] puts
    the visits of a loop together. *)

From S2P Require Import Prelude PyFloat Allocator AllocatorFacts Request ReqPool LLM42Info InfoFacts World MemCommon CacheLaws LLM42Worker Verifier WorkerFacts Scheduler OutputProcessor OutputFacts.
Import Batch Finish.

Section Loops.
Context `{Externals} `{Model} {C : Type} `{CacheLaws C}.
Implicit Types (s : Scheduler C) (r : Req) (wd : World C).

(** ** What a visit may change *)

Record keeps s s' : Prop := {
  kp_args : args s' = args s;
  kp_worker : worker (sys s') = worker (sys s);
  kp_batch : batch (w_of s') = batch (w_of s);
  kp_tbl : req_to_token (rtp (w_of s')) = req_to_token (rtp (w_of s));
  kp_out : to_detokenizer s' = to_detokenizer s;
  kp_page : tree_page_size (cache (w_of s')) = tree_page_size (cache (w_of s))
}.

Lemma keeps_refl s : keeps s s.
Proof. done. Qed.

Lemma keeps_trans s1 s2 s3 : keeps s1 s2 → keeps s2 s3 → keeps s1 s3.
Proof. intros [] []. split; congruence. Qed.

Definition set_w wd s : Scheduler C := s <| sys := (sys s) <| world := wd |> |>.

Lemma on_w_eq {A} (m : M (World C) A) s x wd :
  m (w_of s) = (x, wd) → on_w m s = (x, set_w wd s).
Proof. intros E. unfold on_w, on_sys, on_world. unfold w_of in E. by rewrite E. Qed.

Lemma set_w_id s : set_w (w_of s) s = s.
Proof. destruct s as [[] ? ? ? ? ? ? ? ? ?]. done. Qed.

Lemma w_of_set wd s : w_of (set_w wd s) = wd.
Proof. done. Qed.

(** A visit of request [id]: its new state and the slots that were freed. *)
Record stepped (id : nat) (r' : Req) (fs : list (list Z)) s s' : Prop := {
  st_heap : heap (w_of s') = <[id := r']> (heap (w_of s));
  st_kv : kv (w_of s') = frees fs (kv (w_of s));
  st_keeps : keeps s s'
}.

(** The state between two visits. *)
Record steady (tbl : list (list Z)) s : Prop := {
  sy_live : cache_live (w_of s);
  sy_debug : debug_mode (kv (w_of s)) = false;
  sy_clock : 0 < clock s;
  sy_tbl : req_to_token (rtp (w_of s)) = tbl
}.

(** A visit that only rewrites the request. *)
Lemma stepped_set id r r' s :
  heap (w_of s) !! id = Some r → stepped id r' [] s (set_w ((w_of s) <| heap ::= <[id := r']> |>) s).
Proof. intros Hr. split; [done|done|]. done. Qed.

Lemma steady_set tbl id r r' s :
  steady tbl s → heap (w_of s) !! id = Some r → same_cache r r' →
  steady tbl (set_w ((w_of s) <| heap ::= <[id := r']> |>) s).
Proof.
  intros [H1' H2' H3 H4] Hr Hsc. split; [|done..]. rewrite w_of_set.
  by eapply (cache_live_insert _ _ id r r' H1').
Qed.

Lemma stepped_trans id r1 r2 fs1 fs2 s1 s2 s3 :
  stepped id r1 fs1 s1 s2 → stepped id r2 fs2 s2 s3 → stepped id r2 (fs1 ++ fs2) s1 s3.
Proof.
  intros [A1 B1 K1] [A2 B2 K2]. split.
  - by rewrite A2, A1, insert_insert_eq.
  - by rewrite B2, B1, frees_app.
  - by eapply keeps_trans.
Qed.

(** ** Loops *)

Lemma for_stepped {A} (key : A → nat) (body : A → M (Scheduler C) unit) (Inv : Scheduler C → Prop)
    (pre : A → Req → Prop) (post : A → Req → Req → list (list Z) → Prop) (xs : list A) :
  (∀ x s r, x ∈ xs → Inv s → heap (w_of s) !! key x = Some r → pre x r →
     ∃ s' r' fs, body x s = (Ok tt, s') ∧ stepped (key x) r' fs s s' ∧ post x r r' fs ∧ Inv s') →
  ∀ s, NoDup (key <$> xs) → Inv s →
  (∀ x, x ∈ xs → ∃ r, heap (w_of s) !! key x = Some r ∧ pre x r) →
  ∃ s' fss, for_ xs body s = (Ok tt, s') ∧ keeps s s' ∧ Inv s' ∧
    kv (w_of s') = frees (concat fss) (kv (w_of s)) ∧
    Forall2 (λ x fs, ∃ r r', heap (w_of s) !! key x = Some r ∧
                             heap (w_of s') !! key x = Some r' ∧ post x r r' fs) xs fss ∧
    ∀ id, id ∉ key <$> xs → heap (w_of s') !! id = heap (w_of s) !! id.
Proof.
  induction xs as [|x xs IH]; intros Hb s Hnd Hi Hp.
  { exists s, []. split_and!; [done|apply keeps_refl|done|done|constructor|done]. }
  apply NoDup_cons in Hnd as [Hx Hnd]. destruct (Hp x) as (r & Hr & Hpre); [set_solver|].
  destruct (Hb x s r) as (s1 & r' & fs & E & [Sh Sk Sp] & Hpost & Hi1); [set_solver|done..|].
  assert (Hother : ∀ id, id ≠ key x → heap (w_of s1) !! id = heap (w_of s) !! id).
  { intros id Hid. by rewrite Sh, lookup_insert_ne. }
  destruct (IH (λ y s r Hy, Hb y s r (list_elem_of_further _ _ _ Hy)) s1 Hnd Hi1)
    as (s2 & fss & E2 & K2 & Hi2 & Ek & F & Hrest).
  { intros y Hy. rewrite Hother; [apply Hp; set_solver|].
    intros Ey. apply Hx. rewrite <- Ey. by apply list_elem_of_fmap_2. }
  exists s2, (fs :: fss). split_and!.
  - cbn [for_]. by rewrite E.
  - by eapply keeps_trans.
  - done.
  - cbn [concat]. by rewrite Ek, Sk, frees_app.
  - constructor.
    + exists r, r'. split_and!; [done| |done]. rewrite Hrest by done. by rewrite Sh, lookup_insert_eq.
    + eapply Forall2_impl; [|intros y fs' Hy; exact Hy].
      apply Forall2_same_length_lookup_2; [by eapply Forall2_length|].
      intros i y fs' Hy Hfs. destruct (Forall2_lookup_lr _ _ _ _ _ _ F Hy Hfs) as (r0 & r0' & A1 & A2 & A3).
      exists r0, r0'. split_and!; [|done|done]. rewrite <- Hother; [done|].
      intros Ey. apply Hx. rewrite <- Ey. eapply list_elem_of_fmap_2, list_elem_of_lookup_2, Hy.
  - intros id Hid. cbn in Hid. apply not_elem_of_cons in Hid as [Hid1 Hid2].
    by rewrite Hrest, Hother.
Qed.

(** A loop over the shared state. *)
Lemma on_w_for {A} (xs : list A) (f : A → M (World C) unit) s :
  on_w (for_ xs f) s = for_ xs (λ x, on_w (f x)) s.
Proof.
  revert s. induction xs as [|x xs IH]; intros s.
  { rewrite (on_w_eq _ s (Ok tt) (w_of s)) by done. by rewrite set_w_id. }
  cbn [for_]. destruct (f x (w_of s)) as [[[]|e] wd] eqn:E.
  - rewrite (on_w_eq (f x) s (Ok tt) wd E). rewrite <- IH.
    destruct (for_ xs f wd) as [o wd'] eqn:E2.
    rewrite (on_w_eq (for_ xs f) (set_w wd s) o wd') by done.
    rewrite (on_w_eq _ s o wd') by (by rewrite E). by destruct s as [[] ? ? ? ? ? ? ? ? ?].
  - rewrite (on_w_eq (f x) s (Raise e) wd E). rewrite (on_w_eq _ s (Raise e) wd) by (by rewrite E). done.
Qed.

(** ** Completion *)

Definition completed (t : Z) r : Req := (released_req r) <| completion_time := t |>.

Lemma complete_ok tbl s id r :
  steady tbl s → heap (w_of s) !! id = Some r → releasable tbl r →
  ∃ s', Output.complete id s = (Ok tt, s') ∧
    stepped id (completed (clock s) r) (released (w_of s) r true) s s' ∧ steady tbl s'.
Proof.
  intros [Hl Hd Hc Ht] Hr Hrel. rewrite <- Ht in Hrel.
  destruct (release_kv_cache_ok (w_of s) id r true Hl Hr Hrel Hd) as (wd & E & Eh & Eb & Et & Ek & Hl' & Epg).
  unfold Output.complete. rewrite (bind_ok _ _ s tt (set_w wd s)) by (by apply on_w_eq).
  set (s1 := (set_w wd s) <| clock ::= λ t, t + 1 |>).
  rewrite (bind_ok _ _ _ (clock s) s1) by done.
  set (wd' := wd <| heap ::= <[id := completed (clock s) r]> |>).
  assert (E2 : upd_req id (λ r, r <| completion_time := clock s |>) wd = (Ok tt, wd')).
  { unfold upd_req. rewrite (bind_ok _ _ wd (released_req r) wd); [done|].
    unfold req_at. by rewrite Eh, lookup_insert_eq. }
  rewrite (on_w_eq _ s1 (Ok tt) wd') by exact E2. eexists. split; [reflexivity|].
  assert (Ew : w_of (set_w wd' s1) = wd') by done.
  split.
  - split; rewrite ?Ew; unfold wd'; rsimpl.
    + by rewrite Eh, insert_insert_eq.
    + done.
    + split; rewrite ?Ew; unfold wd'; rsimpl; done.
  - split; rewrite ?Ew; unfold wd'; rsimpl.
    + eapply (cache_live_insert wd _ id (released_req r) (completed (clock s) r) Hl'); [done|done| |done|].
      * by rewrite Eh, lookup_insert_eq.
      * right. unfold completed, released_req. by rsimpl.
    + rewrite Ek. by apply frees_debug.
    + unfold set_w, s1, set_w. rsimpl. lia.
    + by rewrite Et.
Qed.

(** A request that completes or stays as it is. *)
Definition done_rel (tbl : list (list Z)) (b : bool) r r' (fs : list (list Z)) : Prop :=
  if b then ∃ t wd, 0 < t ∧ req_to_token (rtp wd) = tbl ∧ r' = completed t r ∧ fs = released wd r true
  else r' = r ∧ fs = [].

(** ** Running requests *)

(** A request of the batch, without log-probabilities and grammar; its KV
    covers all tokens but the last [d]. *)
Record running (tbl : list (list Z)) (d : Z) r : Prop := {
  ru_finish : finished_reason r = None;
  ru_here : is_retracted r = false;
  ru_plain : grammar r = None ∧ return_logprob r = false;
  ru_prompt : 0 < len (origin_input_ids r);
  ru_row : ∃ row l, req_pool_idx r = Some row ∧ 0 ≤ row ∧ tbl !! Z.to_nat row = Some l ∧
                    kv_committed_len r ≤ len l;
  ru_kv : kv_committed_len r = seqlen r - d ∧ kv_allocated_len r = seqlen r - d;
  ru_freed : kv_committed_freed r = false ∧ kv_overallocated_freed r = false;
  ru_time : completion_time r = 0;
  ru_out : finished_output r = false;
  ru_room : len (output_ids r) < max_new_tokens (sampling_params r)
}.

(** The memory of a request between two decode passes. *)
Record holding (tbl : list (list Z)) r : Prop := {
  ho_here : is_retracted r = false;
  ho_plain : grammar r = None ∧ return_logprob r = false;
  ho_prompt : 0 < len (origin_input_ids r);
  ho_rel : releasable tbl r;
  ho_kv : kv_committed_len r = seqlen r - 1;
  ho_time : completion_time r = 0;
  ho_out : finished_output r = false;
  ho_some : 0 < len (output_ids r)
}.

Definition append (token : Z) r : Req := r <| output_ids ::= λ ids, ids ++ [token] |>.

(** The checks keep what holds the memory. *)
Lemma checked_holding tbl r r' : checked r r' → holding tbl r → holding tbl r'.
Proof.
  intros Hc [H1' H2' H3 [Hrow Hk Ha Hf] H5 H6 H7 H8].
  assert (Hl : len (output_ids r') = len (output_ids r)) by (unfold len; by rewrite (ck_len _ _ Hc)).
  destruct (ck_frame _ _ Hc) as (x & b & c & d & ->). unfold fin_set in *.
  revert Hl. unfold seqlen in *. rsimpl. intros Hl.
  split; unfold seqlen; rsimpl; try done; [|lia..].
  split; unfold seqlen; rsimpl; try done. lia.
Qed.

Lemma running_append tbl token r : running tbl 0 r → holding tbl (append token r).
Proof.
  intros [R1 R2 R3 R4 R5 [R6 R6'] R7 R8 R9 R10]. unfold append, seqlen in *.
  split; unfold seqlen; rsimpl; try done; rewrite ?len_app, ?len_cons, ?len_nil.
  - split; unfold seqlen; rsimpl; rewrite ?len_app, ?len_cons, ?len_nil; try done; [|lia].
    len_pos. lia.
  - lia.
  - len_pos. lia.
Qed.

(** Between the passes an unfinished request is running again. *)
Lemma holding_running tbl r :
  holding tbl r → finished r = false → len (output_ids r) < max_new_tokens (sampling_params r) →
  running tbl 1 r.
Proof.
  intros [H1' H2' H3 [Hrow Hk Ha Hf] H5 H6 H7 H8] Hfin Hm.
  assert (finished_reason r = None) by (unfold finished in Hfin; by destruct (finished_reason r)).
  split; try done. lia.
Qed.

(** ** One visit of the first loop *)

Lemma append_nonempty token r : output_ids (append token r) ≠ [].
Proof. unfold append. rsimpl. by destruct (output_ids r). Qed.

(** The state of a request after the new token and its check. *)
Definition decoded (tbl : list (list Z)) (a : ServerArgs) (token : Z) r r' (fs : list (list Z)) : Prop :=
  ∃ r1, checked (append token r) r1 ∧
    (finished r1 = false → len (output_ids r1) < max_new_tokens (sampling_params r1)) ∧
    check_finished 1 (append token r) = Ok r1 ∧
    done_rel tbl (finished r1 && negb (Output.deferred a r1)) r1 r' fs.

Lemma accept_plain s id r token :
  heap (w_of s) !! id = Some r → grammar r = None → Output.accept_token id token s = (Ok tt, s).
Proof.
  intros Hr Hg. unfold Output.accept_token.
  rewrite (bind_ok _ _ s r s); [by rewrite Hg|].
  rewrite (on_w_eq _ s (Ok r) (w_of s)); [by rewrite set_w_id|]. unfold req_at. by rewrite Hr.
Qed.

Lemma on_w_req s id r : heap (w_of s) !! id = Some r → on_w (req_at id) s = (Ok r, s).
Proof.
  intros Hr. rewrite (on_w_eq _ s (Ok r) (w_of s)); [by rewrite set_w_id|]. unfold req_at. by rewrite Hr.
Qed.

Lemma on_w_set s id r :
  on_w (set_req id r) s = (Ok tt, set_w ((w_of s) <| heap ::= <[id := r]> |>) s).
Proof. done. Qed.

(** Only cache-neutral fields change in a check. *)
Lemma checked_same_cache token r r1 : checked (append token r) r1 → same_cache r r1.
Proof.
  intros Hc. destruct (ck_frame _ _ Hc) as (x & b & c & d & ->). left.
  unfold fin_set, append. rsimpl. done.
Qed.

Lemma decode_step_ok tbl a lps i id token s r :
  steady tbl s → heap (w_of s) !! id = Some r → running tbl 0 r →
  ∃ s' r' fs, Output.decode_step a false lps (i, (id, token)) s = (Ok tt, s') ∧
    stepped id r' fs s s' ∧ decoded tbl a token r r' fs ∧ steady tbl s'.
Proof.
  intros Hs Hr Hrun. unfold Output.decode_step. rewrite (bind_ok _ _ _ _ _ (on_w_req s id r Hr)).
  assert (Hnf : finished r = false) by (unfold finished; by rewrite (ru_finish _ _ _ Hrun)).
  rewrite Hnf, (ru_here _ _ _ Hrun). cbn [orb]. rewrite andb_false_r.
  destruct (check_finished_ok (append token r)) as (r1 & E1 & Hc & Hroom).
  { apply append_nonempty. }
  { unfold append. rsimpl. apply Hrun. }
  assert (Edt : Output.decode_token a false lps i token r = Ok r1).
  { unfold Output.decode_token. cbv zeta. rewrite andb_false_r. done. }
  rewrite (bind_ok _ _ s r1 s) by (unfold lift; by rewrite Edt).
  set (s1 := set_w ((w_of s) <| heap ::= <[id := r1]> |>) s).
  rewrite (bind_ok _ _ s tt s1) by apply on_w_set.
  assert (Hr1 : heap (w_of s1) !! id = Some r1) by apply lookup_insert_eq.
  assert (Hsc : same_cache r r1) by (by eapply checked_same_cache).
  pose proof (steady_set tbl id r r1 s Hs Hr Hsc) as Hs1.
  pose proof (stepped_set id r r1 s Hr) as St1. fold s1 in Hs1, St1.
  pose proof (checked_holding tbl _ _ Hc (running_append tbl token r Hrun)) as Hh.
  assert (Hend : ∀ s2 r2, heap (w_of s2) !! id = Some r2 →
            grammar r2 = None → return_logprob r2 = false →
            (r ← on_w (req_at id);
             (if return_logprob r && negb (Output.deferred a r)
              then l ← lift (of_option UnboundLocalError lps);
                   r ← lift (Logprobs.append_logprob l i token r);
                   on_w (set_req id r)
              else mret tt);;
             Output.accept_token id token) s2 = (Ok tt, s2)).
  { intros s2 r2 Hr2 Hg2 Hl2. rewrite (bind_ok _ _ _ _ _ (on_w_req s2 id r2 Hr2)).
    rewrite Hl2. cbn [andb]. rewrite (bind_ok _ _ s2 tt s2) by done. by eapply accept_plain. }
  destruct (finished r1 && negb (Output.deferred a r1)) eqn:Ed.
  - destruct (complete_ok tbl s1 id r1 Hs1 Hr1 (ho_rel _ _ Hh)) as (s2 & E2 & St2 & Hs2).
    rewrite (bind_ok _ _ _ _ _ E2).
    exists s2, (completed (clock s1) r1), (released (w_of s1) r1 true). split_and!.
    + eapply Hend; [by rewrite (st_heap _ _ _ _ _ St2), lookup_insert_eq|..];
        unfold completed, released_req; rsimpl; apply Hh.
    + by apply (stepped_trans id r1 _ [] _ s s1 s2).
    + exists r1. split_and!; [done..|]. rewrite Ed. exists (clock s1), (w_of s1).
      split_and!; [apply Hs1|apply Hs1|done|done].
    + done.
  - rewrite (bind_ok _ _ s1 tt s1) by done. exists s1, r1, []. split_and!; [|done| |done].
    + eapply Hend; [done|apply Hh..].
    + exists r1. split_and!; [done..|]. by rewrite Ed.
Qed.

(** ** One visit of the rollback loop *)

Definition rolled_back (n : Z) r : Req :=
  r <| kv_committed_len ::= λ k, k - n |> <| kv_allocated_len ::= λ k, k - n |>
    <| decode_batch_idx ::= λ k, k - n |>.

(** The slots of the discarded positions. *)
Definition rolled_slots (tbl : list (list Z)) (n : Z) r : list Z :=
  match req_pool_idx r with
  | Some row => match tbl !! Z.to_nat row with
                | Some l => Chunk.nonzero (slice l (seqlen r - 1) (seqlen r - 1 + n))
                | None => []
                end
  | None => []
  end.

Lemma free_rolled_back_ok tbl id n s r :
  steady tbl s → heap (w_of s) !! id = Some r → 0 < len (output_ids r) →
  (∃ row l, req_pool_idx r = Some row ∧ 0 ≤ row ∧ tbl !! Z.to_nat row = Some l) →
  ∃ s', on_w (Output.free_rolled_back (id, n)) s = (Ok tt, s') ∧
    stepped id (rolled_back n r) [rolled_slots tbl n r] s s' ∧ steady tbl s'.
Proof.
  intros Hs Hr Ho (row & l & Er & Hrow & El). pose proof Hs as [Hl Hd Hc Ht].
  set (wd := w_of s) in *.
  set (wd1 := wd <| kv := frees [rolled_slots tbl n r] (kv wd) |>).
  set (wd2 := wd1 <| heap ::= <[id := rolled_back n r]> |>).
  assert (E : Output.free_rolled_back (id, n) wd = (Ok tt, wd2)).
  { unfold Output.free_rolled_back. rewrite (bind_ok _ _ wd r wd) by (unfold req_at; by rewrite Hr).
    rewrite (bind_ok _ _ wd row wd) by (unfold lift; by rewrite Er).
    rewrite (bind_ok _ _ wd (rtp wd) wd) by done.
    replace (len (origin_input_ids r) + Z.max (len (output_ids r) - 1) 0) with (seqlen r - 1)
      by (unfold seqlen; lia).
    rewrite (bind_ok _ _ wd (slice l (seqlen r - 1) (seqlen r - 1 + n)) wd).
    2:{ unfold lift. rewrite (read_row_ok _ _ l); [done|done|]. by rewrite Ht. }
    assert (Es : rolled_slots tbl n r = Chunk.nonzero (slice l (seqlen r - 1) (seqlen r - 1 + n)))
      by (unfold rolled_slots; by rewrite Er, El).
    rewrite <- Es. rewrite (bind_ok _ _ wd tt wd1).
    - unfold upd_req. rewrite (bind_ok _ _ wd1 r wd1) by (unfold req_at, wd1; rsimpl; by rewrite Hr).
      done.
    - unfold wd1. cbn [frees foldl]. destruct (Z.ltb_spec 0 (len (slice l (seqlen r - 1) (seqlen r - 1 + n)))) as [H1'|H1'].
      + destruct (Z.ltb_spec 0 (len (rolled_slots tbl n r))) as [H2'|H2'].
        * unfold on_kv. by rewrite (proj1 (free_ok (rolled_slots tbl n r) _ Hd)).
        * rewrite (len_zero (rolled_slots tbl n r)) by llia. rewrite free_nil. by destruct wd.
      + rewrite Es, (len_zero (slice _ _ _)) by llia. cbn. rewrite free_nil. by destruct wd. }
  exists (set_w wd2 s). split; [by apply on_w_eq|]. split.
  - split; rewrite ?w_of_set; unfold wd2, wd1; rsimpl; [done|done|]. done.
  - split; rewrite ?w_of_set; unfold wd2, wd1; rsimpl; [|by apply frees_debug|done|done].
    eapply (cache_live_insert wd _ id r (rolled_back n r) Hl); [done|done|done|done|].
    left. unfold rolled_back. by rsimpl.
Qed.

(** ** One visit of the last loop *)

(** What it does with a deterministic request that is not complete. *)
Definition settled_rel (tbl : list (list Z)) r r' (fs : list (list Z)) : Prop :=
  if is_deterministic r && (completion_time r =? 0) then
    ∃ r1, check_finished 1 r = Ok r1 ∧ checked r r1 ∧
      (finished r1 = false → len (output_ids r1) < max_new_tokens (sampling_params r1)) ∧
      done_rel tbl (finished r1) r1 r' fs
  else r' = r ∧ fs = [].

Lemma finish_verified_ok tbl id s r :
  steady tbl s → heap (w_of s) !! id = Some r →
  (is_deterministic r = true → completion_time r = 0 → holding tbl r) →
  is_retracted r = false → 0 ≤ completion_time r →
  ∃ s' r' fs, Output.finish_verified id s = (Ok tt, s') ∧
    stepped id r' fs s s' ∧ settled_rel tbl r r' fs ∧ steady tbl s'.
Proof.
  intros Hs Hr Hh Hret Htime. unfold Output.finish_verified, settled_rel.
  rewrite (bind_ok _ _ _ _ _ (on_w_req s id r Hr)). rewrite Hret. cbn [orb].
  assert (Hself : stepped id r [] s s).
  { split; [by rewrite insert_id|done|apply keeps_refl]. }
  destruct (is_deterministic r) eqn:Edet; cbn [negb andb].
  2:{ exists s, r, []. done. }
  destruct (Z.ltb_spec 0 (completion_time r)) as [Ht|Ht].
  { exists s, r, []. destruct (Z.eqb_spec (completion_time r) 0); [lia|]. done. }
  destruct (Z.eqb_spec (completion_time r) 0) as [Hz|]; [|lia].
  specialize (Hh eq_refl Hz). destruct (check_finished_ok r) as (r1 & E1 & Hc & Hroom).
  { intros En. pose proof (ho_some _ _ Hh) as Hso. rewrite En in Hso. by apply Z.lt_irrefl in Hso. }
  { apply Hh. }
  rewrite (bind_ok _ _ s r1 s) by (unfold lift; by rewrite E1).
  set (s1 := set_w ((w_of s) <| heap ::= <[id := r1]> |>) s).
  rewrite (bind_ok _ _ s tt s1) by apply on_w_set.
  assert (Hr1 : heap (w_of s1) !! id = Some r1) by apply lookup_insert_eq.
  assert (Hsc : same_cache r r1).
  { destruct (ck_frame _ _ Hc) as (x & b & c & d & ->). left. unfold fin_set. by rsimpl. }
  pose proof (steady_set tbl id r r1 s Hs Hr Hsc) as Hs1.
  pose proof (stepped_set id r r1 s Hr) as St1. fold s1 in Hs1, St1.
  pose proof (checked_holding tbl _ _ Hc Hh) as Hh1.
  destruct (finished r1) eqn:Ef.
  - destruct (complete_ok tbl s1 id r1 Hs1 Hr1 (ho_rel _ _ Hh1)) as (s2 & E2 & St2 & Hs2).
    exists s2, (completed (clock s1) r1), (released (w_of s1) r1 true). split_and!; [done| | |done].
    + by apply (stepped_trans id r1 _ [] _ s s1 s2).
    + exists r1. split_and!; [done|done|congruence|]. rewrite Ef. exists (clock s1), (w_of s1).
      split_and!; [apply Hs1|apply Hs1|done|done].
  - exists s1, r1, []. split_and!; [done|done| |done].
    exists r1. split_and!; [done|done|by auto|]. by rewrite Ef.
Qed.

End Loops.
