(* ===== verification/DecodeStep.v ===== *)
(** * The phases of a decode pass

    [process_batch_result_decode] in phases: the new tokens, verification,
    the rollback of memory and the completion of finished requests; the last
    one, streaming, is in [DecodePass].  For every phase the state of a deterministic request is
    described by a record; the lemmas move every request of the batch from
    one record to the next. *)

From S2P Require Import Prelude PyFloat Allocator AllocatorFacts Request ReqPool LLM42Info InfoFacts World MemCommon CacheLaws LLM42Worker Verifier WorkerFacts Scheduler OutputProcessor OutputFacts DecodeFacts.
Import Batch Finish OneStream Pass Step.

(** ** What the client has received *)

Definition streamed (ms : list (list StreamEntry)) (id : string) : list Z :=
  concat (e_output_ids <$> filter (λ e, e_rid e = id) (concat ms)).

Lemma streamed_app ms rows id : streamed (ms ++ [rows]) id = streamed ms id ++ streamed [rows] id.
Proof.
  unfold streamed. cbn [concat]. rewrite app_nil_r, concat_app. cbn [concat]. rewrite app_nil_r.
  by rewrite filter_app, fmap_app, concat_app.
Qed.

(** ** The identity and the progress of a request *)

Record lineage (r r' : Req) : Prop := {
  li_rid : rid r' = rid r;
  li_det : is_deterministic r' = is_deterministic r;
  li_params : sampling_params r' = sampling_params r;
  li_prompt : origin_input_ids r' = origin_input_ids r;
  li_logprob : return_logprob r' = return_logprob r;
  li_row : req_pool_idx r' = req_pool_idx r ∨ req_pool_idx r' = None
}.

Lemma lineage_refl r : lineage r r.
Proof. split; auto. Qed.

Lemma lineage_trans r1 r2 r3 : lineage r1 r2 → lineage r2 r3 → lineage r1 r3.
Proof.
  intros [A1 A2 A3 A4 A5 A6] [B1 B2 B3 B4 B5 B6]. split; [congruence..|].
  destruct B6 as [B6|B6]; [rewrite B6; exact A6|by right].
Qed.

(** A bound on the decode passes a request still needs.  Every pass adds a
    token; a verification may take tokens back, but at least one more is
    verified then, and fewer than [w] were not. *)
Definition rank (w : Z) (r : Req) : Z :=
  let limit := max_new_tokens (sampling_params r) in
  if is_deterministic r
  then (limit - llm42_verified_tokens r) * w - (len (output_ids r) - llm42_verified_tokens r)
  else limit - len (output_ids r).

Definition evolves (w k : Z) (r r' : Req) : Prop := lineage r r' ∧ rank w r' ≤ rank w r - k.

Lemma evolves_trans w k1 k2 r1 r2 r3 :
  evolves w k1 r1 r2 → evolves w k2 r2 r3 → evolves w (k1 + k2) r1 r3.
Proof. intros [A1 B1] [A2 B2]. split; [by eapply lineage_trans|lia]. Qed.

(** The number of outputs, and of verified ones, stays the same. *)
Record same_size (r r' : Req) : Prop := {
  sz_lineage : lineage r r';
  sz_out : len (output_ids r') = len (output_ids r);
  sz_verified : llm42_verified_tokens r' = llm42_verified_tokens r
}.

Lemma same_size_refl r : same_size r r.
Proof. split; [apply lineage_refl|done..]. Qed.

Lemma same_size_trans r1 r2 r3 : same_size r1 r2 → same_size r2 r3 → same_size r1 r3.
Proof. intros [] []. split; [by eapply lineage_trans|congruence..]. Qed.

Lemma same_size_rank w r r' : same_size r r' → rank w r' = rank w r.
Proof. intros [[_ Ed Ep _ _ _] Eo Ev]. unfold rank. by rewrite Ed, Ep, Eo, Ev. Qed.

Lemma same_size_evolves w r r' : same_size r r' → evolves w 0 r r'.
Proof. intros Hs. split; [apply Hs|]. rewrite (same_size_rank w _ _ Hs). lia. Qed.

Lemma same_size_seqlen r r' : same_size r r' → seqlen r' = seqlen r.
Proof. intros [[_ _ _ Ep _ _] Eo _]. unfold seqlen. by rewrite Ep, Eo. Qed.

(** ** The states of a deterministic request *)

Section States.
Context `{Externals} (V : SamplingParams → list Z → Z) (w : Z) (tbl : list (list Z))
  (ms : list (list StreamEntry)).
Implicit Types r : Req.

(** Its verified outputs are the reference; what was sent is a part of them. *)
Record tracked r : Prop := {
  tr_committed : committed V r;
  tr_sendable : sendable r;
  tr_stream : streamed ms (rid r) = slice_to (output_ids r) (send_token_offset r);
  tr_vocab : ∀ ctx, 0 ≤ V (sampling_params r) ctx ≤ vocab_size r
}.

(** After the new token. *)
Record fresh r : Prop := {
  fr_tracked : tracked r;
  fr_holding : holding tbl r;
  fr_window : 0 < len (output_ids r) - llm42_verified_tokens r ≤ w;
  fr_room : len (output_ids r) ≤ max_new_tokens (sampling_params r);
  fr_check : finished r = false → check_finished 1 r = Ok r
}.

(** After verification and rollback: all tokens are verified, or the request
    goes on as it was. *)
Record settled r : Prop := {
  se_tracked : tracked r;
  se_holding : holding tbl r;
  se_room : len (output_ids r) ≤ max_new_tokens (sampling_params r);
  se_state : llm42_verified_tokens r = len (output_ids r) ∨
             (finished r = false ∧ len (output_ids r) - llm42_verified_tokens r < w ∧
              check_finished 1 r = Ok r)
}.

(** After the finish checks: complete, or running. *)
Record concluded r : Prop := {
  cc_tracked : tracked r;
  cc_done : finished r = true →
    llm42_verified_tokens r = len (output_ids r) ∧ req_pool_idx r = None ∧
    finished_output r = false;
  cc_going : finished r = false →
    running tbl 1 r ∧ len (output_ids r) - llm42_verified_tokens r < w
}.

(** What the client has is the beginning of the reference generation. *)
Lemma tracked_reference r :
  tracked r → ∃ k : nat, streamed ms (rid r) = gen (V (sampling_params r)) (origin_input_ids r) k ∧
    Z.of_nat k ≤ llm42_verified_tokens r.
Proof.
  intros [[Hb Hg] Hs Ht _]. exists (Z.to_nat (send_token_offset r)). pose proof (sd_sent _ Hs). rewrite Ht.
  split; [|lia]. rewrite <- (gen_take _ _ _ (Z.to_nat (llm42_verified_tokens r))) by lia.
  rewrite <- Hg, !slice_to_take, take_take by lia. f_equal. lia.
Qed.

(** *** The new token *)

Lemma slice_to_append (xs : list Z) n ys :
  0 ≤ n ≤ len xs → slice_to (xs ++ ys) n = slice_to xs n.
Proof.
  intros Hn. rewrite !slice_to_take by lia. rewrite take_app_le; [done|]. unfold len in *. lia.
Qed.

(** A check of the last output leaves the verified ones alone. *)
Lemma checked_prefix r r' n :
  checked r r' → 0 ≤ n < len (output_ids r) →
  slice_to (output_ids r') n = slice_to (output_ids r) n.
Proof.
  intros Hc Hn. rewrite !slice_to_take by lia. pose proof (ck_init _ _ Hc) as E.
  apply (f_equal (take (Z.to_nat n))) in E. rewrite !take_take in E.
  rewrite !Nat.min_l in E by (unfold len in *; lia). done.
Qed.

(** Fields the checks do not write. *)
Lemma checked_same r r' :
  checked r r' →
  llm42_verified_tokens r' = llm42_verified_tokens r ∧
  send_token_offset r' = send_token_offset r ∧ rid r' = rid r ∧
  sampling_params r' = sampling_params r ∧ vocab_size r' = vocab_size r ∧
  origin_input_ids r' = origin_input_ids r ∧ is_deterministic r' = is_deterministic r ∧
  finished_output r' = finished_output r ∧ completion_time r' = completion_time r.
Proof.
  intros Hc. destruct (ck_frame _ _ Hc) as (x & b & c & d & ->). unfold fin_set. by rsimpl.
Qed.

Lemma checked_size r r' : checked r r' → same_size r r'.
Proof.
  intros Hc. destruct (checked_same _ _ Hc) as (S1 & S2 & S3 & S4 & S5 & S6 & S7 & _).
  assert (S8 : return_logprob r' = return_logprob r ∧ req_pool_idx r' = req_pool_idx r).
  { destruct (ck_frame _ _ Hc) as (x & b & c & d & ->). unfold fin_set. by rsimpl. }
  destruct S8. split; [split; auto| |done]. unfold len. by rewrite (ck_len _ _ Hc).
Qed.

Lemma checked_tracked r r' :
  checked r r' → tracked r → llm42_verified_tokens r < len (output_ids r) →
  len (output_ids r) ≤ max_new_tokens (sampling_params r) → tracked r'.
Proof.
  intros Hc [[Hb Hg] [Hs Hv Hf] Ht Hvo] Hlt Hm.
  destruct (checked_same _ _ Hc) as (S1 & S2 & S3 & S4 & S5 & S6 & _).
  assert (Hl : len (output_ids r') = len (output_ids r)) by (unfold len; by rewrite (ck_len _ _ Hc)).
  split.
  - split; rewrite S1; [lia|]. rewrite S4, S6, <- Hg. apply checked_prefix; [done|lia].
  - split; rewrite ?S1, ?S2; [lia|lia|]. intros f Hff.
    destruct (ck_flen _ _ Hc) as [E|(n & E & [->| ->])]; rewrite E in Hff; [by apply Hf|..];
      injection Hff as <-; lia.
  - rewrite S3, S2, Ht. symmetry. apply checked_prefix; [done|lia].
  - by rewrite S4, S5.
Qed.

Lemma append_tracked token r : tracked r → tracked (append token r).
Proof.
  intros [[Hb Hg] [Hs Hv Hf] Ht Hvo]. unfold append.
  split; [split| |..]; rsimpl; rewrite ?len_app, ?len_cons; try done.
  - len_pos. lia.
  - rewrite slice_to_append by done. done.
  - split; rsimpl; rewrite ?len_app; [done|len_pos; lia|done].
  - by rewrite slice_to_append by lia.
Qed.

Lemma decoded_fresh `{CacheLaws C} a token r r' fs :
  enable_llm42 a = true → is_deterministic r = true → running tbl 0 r → tracked r →
  len (output_ids r) - llm42_verified_tokens r < w →
  decoded tbl a token r r' fs → fresh r' ∧ is_deterministic r' = true ∧ rid r' = rid r ∧ fs = [].
Proof.
  intros Ha Hdet Hrun Htr Hw (r1 & Hc & Hroom & E & D).
  destruct (checked_same _ _ Hc) as (S1 & S2 & S3 & S4 & S5 & S6 & S7 & _).
  assert (Hd1 : is_deterministic r1 = true) by (rewrite S7; unfold append; by rsimpl).
  assert (Hdef : Output.deferred a r1 = true) by (unfold Output.deferred; by rewrite Ha, Hd1).
  rewrite Hdef, andb_false_r in D. destruct D as [-> ->].
  assert (Hla : len (output_ids (append token r)) = len (output_ids r) + 1).
  { unfold append. rsimpl. by rewrite len_app. }
  assert (Hva : llm42_verified_tokens (append token r) = llm42_verified_tokens r) by (unfold append; by rsimpl).
  assert (Hl : len (output_ids r1) = len (output_ids r) + 1).
  { rewrite <- Hla. unfold len. by rewrite (ck_len _ _ Hc). }
  pose proof (tr_committed _ Htr) as [Hb _]. pose proof (ru_room _ _ _ Hrun) as Hr.
  split_and!; [|done|rewrite S3; unfold append; by rsimpl|done]. split.
  - eapply checked_tracked; [done|by apply append_tracked|lia|].
    rewrite Hla. unfold append. rsimpl. lia.
  - eapply checked_holding; [done|]. by apply running_append.
  - rewrite Hl, S1, Hva. lia.
  - rewrite Hl, S4. unfold append. rsimpl. lia.
  - intros Hf. by eapply check_finished_again.
Qed.

(** *** Verification and rollback *)

Lemma passed_last_vocab r :
  committed V r → llm42_verified_tokens r = len (output_ids r) →
  (∀ ctx, 0 ≤ V (sampling_params r) ctx ≤ vocab_size r) →
  ∀ t, last (output_ids r) = Some t → 0 ≤ t ≤ vocab_size r.
Proof.
  intros [Hb Hg] Hall Hvo t Ht. rewrite Hall in Hg.
  rewrite slice_to_take in Hg by lia. unfold len in Hg. rewrite Nat2Z.id, firstn_all in Hg.
  assert (Hgen : ∀ n ctx t, last (gen (V (sampling_params r)) ctx n) = Some t → 0 ≤ t ≤ vocab_size r).
  { induction n as [|n IH]; intros ctx t' Hl; [done|]. cbn [gen] in Hl.
    destruct n as [|n]; [injection Hl as <-; apply Hvo|]. cbn [gen last] in Hl. by eapply IH. }
  eapply Hgen. by rewrite <- Hg.
Qed.

Lemma passed_tracked r r' n : passed V r r' n → tracked r → tracked r'.
Proof.
  intros P [[Hb Hg] [Hs Hv Hf] Ht Hvo].
  pose proof (ps_all _ _ _ _ P) as Hall. pose proof (ps_progress _ _ _ _ P) as Hp.
  pose proof (ps_prefix _ _ _ _ P) as Hpre. pose proof (ps_committed _ _ _ _ P) as Hc.
  assert (S : send_token_offset r' = send_token_offset r ∧ rid r' = rid r ∧
     sampling_params r' = sampling_params r ∧ vocab_size r' = vocab_size r ∧
     finished_len r' = finished_len r).
  { pose proof (ps_frame _ _ _ _ P) as F. unfold vframe in F. rewrite F. by rsimpl. }
  destruct S as (S1 & S2 & S3 & S4 & S5). split; [done|..].
  - split; rewrite ?S1, ?S5; [lia|lia|done].
  - rewrite S2, Ht, S1. pose proof (f_equal (λ l, slice_to l (send_token_offset r)) Hpre) as E.
    cbn beta in E. rewrite !slice_to_take in E by lia. rewrite !slice_to_take by lia.
    rewrite !take_take, Nat.min_l in E by lia. done.
  - by rewrite S3, S4.
Qed.

(** The lengths follow the rollback. *)
Lemma passed_holding r r' n :
  passed V r r' n → 0 ≤ llm42_verified_tokens r → holding tbl r → holding tbl (rolled_back n r').
Proof.
  intros P Hv [H1 H2 H3 [(row & l & E1 & E2 & E3 & E4) Hk Ha Hf] H5 H6 H7 H8].
  destruct (ps_rolled _ _ _ _ P) as [Hn Hn0]. pose proof (ps_all _ _ _ _ P) as Hall.
  pose proof (ps_progress _ _ _ _ P) as Hp. pose proof (ps_frame _ _ _ _ P) as F. unfold vframe in F.
  assert (S : is_retracted r' = is_retracted r ∧ grammar r' = grammar r ∧
    return_logprob r' = return_logprob r ∧ origin_input_ids r' = origin_input_ids r ∧
    req_pool_idx r' = req_pool_idx r ∧ kv_committed_len r' = kv_committed_len r ∧
    kv_allocated_len r' = kv_allocated_len r ∧ kv_committed_freed r' = kv_committed_freed r ∧
    kv_overallocated_freed r' = kv_overallocated_freed r ∧ completion_time r' = completion_time r ∧
    finished_output r' = finished_output r) by (rewrite F; by rsimpl).
  clear F. destruct S as (S1 & S2 & S3 & S4 & S5 & S6 & S7 & S8 & S9 & S10 & S11).
  destruct (ps_committed _ _ _ _ P) as [[Hv0 _] _].
  unfold seqlen in *. assert (Hpos : 0 < len (output_ids r')) by lia.
  unfold rolled_back. split; unfold seqlen; rsimpl; rewrite ?S1, ?S2, ?S3, ?S4, ?S10, ?S11; try done.
  - split; unfold seqlen; rsimpl; rewrite ?S4, ?S5, ?S6, ?S7, ?S8, ?S9; [|lia|lia|done].
    exists row, l. split_and!; [done..|lia].
  - lia.
Qed.

Lemma rolled_back_0 r : rolled_back 0 r = r.
Proof.
  unfold rolled_back.
  assert (A : ∀ r, r <| kv_committed_len ::= λ k, k - 0 |> = r)
    by (intros r'; unfold upd, set_kv_committed_len; rewrite Z.sub_0_r; by destruct r').
  assert (B : ∀ r, r <| kv_allocated_len ::= λ k, k - 0 |> = r)
    by (intros r'; unfold upd, set_kv_allocated_len; rewrite Z.sub_0_r; by destruct r').
  assert (D : ∀ r, r <| decode_batch_idx ::= λ k, k - 0 |> = r)
    by (intros r'; unfold upd, set_decode_batch_idx; rewrite Z.sub_0_r; by destruct r').
  by rewrite A, B, D.
Qed.

Lemma rolled_back_tracked n r : tracked r → tracked (rolled_back n r).
Proof.
  intros [[Hb Hg] [Hs Hv Hf] Ht Hvo]. unfold rolled_back.
  split; [split|split|..]; rsimpl; done.
Qed.

Lemma passed_settled r r' n : fresh r → passed V r r' n → settled (rolled_back n r').
Proof.
  intros [Ft Fh Fw Fr Fc] P. pose proof (tr_committed _ Ft) as [[Hv0 _] _].
  pose proof (ps_rolled _ _ _ _ P) as [Hn Hn0]. pose proof (ps_all _ _ _ _ P) as Hall.
  split.
  - apply rolled_back_tracked. by eapply passed_tracked.
  - by eapply passed_holding.
  - pose proof (ps_frame _ _ _ _ P) as F. unfold vframe in F.
    assert (S : sampling_params r' = sampling_params r) by (rewrite F; by rsimpl).
    unfold rolled_back. rsimpl. rewrite S. lia.
  - left. unfold rolled_back. by rsimpl.
Qed.

Lemma waiting_settled r : fresh r → Worker.triggers w r = false → settled r.
Proof.
  intros [Ft Fh Fw Fr Fc] Ht. unfold Worker.triggers, Worker.unverified_tokens in Ht.
  apply orb_false_iff in Ht as [Hf Hl]. split; [done..|]. right. split_and!; [done|lia|auto].
Qed.

(** *** Completion *)

(** A check of a request whose outputs are all verified. *)
Lemma checked_verified r r' :
  checked r r' → tracked r → llm42_verified_tokens r = len (output_ids r) →
  len (output_ids r) ≤ max_new_tokens (sampling_params r) →
  tracked r' ∧ output_ids r' = output_ids r ∧ llm42_verified_tokens r' = llm42_verified_tokens r.
Proof.
  intros Hc [Hcom [Hs Hv Hf] Ht Hvo] Hall Hm.
  pose proof (ck_vocab _ _ Hc (passed_last_vocab r Hcom Hall Hvo)) as Eo.
  destruct (checked_same _ _ Hc) as (S1 & S2 & S3 & S4 & S5 & S6 & _).
  split_and!; [|done|done]. destruct Hcom as [Hb Hg]. split.
  - split; by rewrite S1, Eo, ?S4, ?S6.
  - split; rewrite ?S1, ?S2, ?Eo; [done|done|]. intros f Hff.
    destruct (ck_flen _ _ Hc) as [E|(n & E & [->| ->])]; rewrite E in Hff; [by apply Hf|..];
      injection Hff as <-; lia.
  - by rewrite S3, S2, Eo.
  - by rewrite S4, S5.
Qed.

Lemma completed_tracked t r : tracked r → tracked (completed t r).
Proof.
  intros [[Hb Hg] [Hs Hv Hf] Ht Hvo]. unfold completed, released_req.
  split; [split|split|..]; rsimpl; done.
Qed.

Lemma settled_concluded `{CacheLaws C} r r' fs :
  0 < w → settled r → is_deterministic r = true → settled_rel tbl r r' fs →
  concluded r' ∧ is_deterministic r' = true ∧ rid r' = rid r.
Proof.
  intros Hw [St Sh Sr Sst] Hdet R. unfold settled_rel in R.
  rewrite Hdet, (ho_time _ _ Sh) in R. cbn [andb Z.eqb] in R.
  destruct R as (r1 & E & Hc & Hroom & D).
  destruct (checked_same _ _ Hc) as (S1 & S2 & S3 & S4 & S5 & S6 & S7 & S8 & S9).
  pose proof (checked_holding tbl _ _ Hc Sh) as Hh1. unfold done_rel in D.
  destruct (finished r1) eqn:Ef.
  - destruct D as (t & wd & Ht & _ & -> & _).
    destruct Sst as [Hall|(Hnf & _ & Hfix)]; [|congruence].
    destruct (checked_verified r r1 Hc St Hall Sr) as (T1 & Eo & Ev).
    split; [|unfold completed, released_req; rsimpl; split; congruence].
    split; [by apply completed_tracked|..]; unfold completed, released_req, finished; rsimpl.
    + intros _. rewrite Ev, Eo, S8. split_and!; [done|done|apply Sh].
    + unfold finished in Ef. by destruct (finished_reason r1).
  - destruct D as [-> _]. pose proof (ck_idle _ _ Hc Ef) as ->. split; [|done].
    split; [done|congruence|]. intros _. split; [by apply holding_running; auto|].
    destruct Sst as [Hall|(_ & Hl & _)]; lia.
Qed.
End States.

(** *** Streaming *)

(** A deterministic request after the pass: its stream is up to date. *)
Record finalised (V : SamplingParams → list Z → Z) (w : Z) (tbl : list (list Z))
    (ms : list (list StreamEntry)) (r : Req) : Prop := {
  fi_tracked : tracked V ms r;
  fi_done : finished r = true →
    llm42_verified_tokens r = len (output_ids r) ∧ req_pool_idx r = None ∧
    streamed ms (rid r) = output_ids_through_stop r;
  fi_going : finished r = false →
    running tbl 1 r ∧ len (output_ids r) - llm42_verified_tokens r < w
}.

Lemma streamed_finalised V w tbl ms ms' r o r' :
  concluded V w tbl ms r → streamed_one r o r' →
  streamed ms' (rid r) = streamed ms (rid r) ++ sent_ids o →
  finalised V w tbl ms' r'.
Proof.
  intros [[[Hb Hg] Hs Ht Hvo] Cd Cg] [F Ss Sp Sr Sd Sg] Hm.
  assert (Est : streamed ms' (rid r) = slice_to (output_ids r) (send_token_offset r')).
  { by rewrite Hm, Ht. }
  destruct (sframe_same _ _ F) as (E1 & E2 & E3 & E4 & E5).
  assert (Ef : finished r' = finished r) by (unfold finished; by rewrite E3).
  assert (S : sampling_params r' = sampling_params r ∧ origin_input_ids r' = origin_input_ids r ∧
     vocab_size r' = vocab_size r ∧ req_pool_idx r' = req_pool_idx r ∧
     is_retracted r' = is_retracted r ∧ grammar r' = grammar r ∧
     return_logprob r' = return_logprob r ∧ kv_committed_len r' = kv_committed_len r ∧
     kv_allocated_len r' = kv_allocated_len r ∧ kv_committed_freed r' = kv_committed_freed r ∧
     kv_overallocated_freed r' = kv_overallocated_freed r ∧ completion_time r' = completion_time r).
  { destruct F as (?&?&?&?&?&?&?&?&?&?&->). unfold out_set. by rsimpl. }
  destruct S as (A1 & A2 & A3 & A4 & A5 & A6 & A7 & A8 & A9 & A10 & A11 & A12).
  split.
  - split; [|done|by rewrite E5, E1|by rewrite A1, A3]. split; by rewrite E2, E1, ?A1, ?A2.
  - rewrite Ef. intros Hf. destruct (Cd Hf) as (D1 & D2 & D3).
    destruct (Sd Hf D3 D1) as [_ Eo]. split_and!; [by rewrite E2, E1|by rewrite A4|].
    rewrite E5, Est, Eo, <- E1. symmetry. apply len_through_stop.
    intros f Hff. pose proof (sd_flen _ Ss f Hff). pose proof (sd_sent _ Ss). lia.
  - rewrite Ef. intros Hf. destruct (Cg Hf) as [[R1 R2 R3 R4 R5 R6 R7 R8 R9 R10] Hl].
    destruct (Sg Hf) as [G1 G2]. split; [|by rewrite E1, E2].
    split; unfold seqlen in *; rewrite ?E1, ?E3, ?A1, ?A2, ?A4, ?A5, ?A6, ?A7, ?A8, ?A9, ?A10, ?A11, ?A12, ?G1; done.
Qed.

(** ** The other requests *)

Record plain_after (tbl : list (list Z)) (r : Req) : Prop := {
  pa_here : is_retracted r = false;
  pa_time : 0 ≤ completion_time r;
  pa_done : finished r = true → req_pool_idx r = None;
  pa_going : finished r = false → running tbl 1 r
}.

Lemma sframe_plain tbl r r' :
  sframe r r' → (finished r = false → finished_output r' = finished_output r) →
  plain_after tbl r → plain_after tbl r'.
Proof.
  intros F Hfo [P1 P2 P3 P4].
  assert (S : finished_reason r' = finished_reason r ∧ output_ids r' = output_ids r ∧
     sampling_params r' = sampling_params r ∧ origin_input_ids r' = origin_input_ids r ∧
     req_pool_idx r' = req_pool_idx r ∧ is_retracted r' = is_retracted r ∧ grammar r' = grammar r ∧
     return_logprob r' = return_logprob r ∧ kv_committed_len r' = kv_committed_len r ∧
     kv_allocated_len r' = kv_allocated_len r ∧ kv_committed_freed r' = kv_committed_freed r ∧
     kv_overallocated_freed r' = kv_overallocated_freed r ∧ completion_time r' = completion_time r).
  { destruct F as (?&?&?&?&?&?&?&?&?&?&->). unfold out_set. by rsimpl. }
  destruct S as (A0 & A00 & A1 & A2 & A4 & A5 & A6 & A7 & A8 & A9 & A10 & A11 & A12).
  assert (Ef : finished r' = finished r) by (unfold finished; by rewrite A0).
  split; rewrite ?Ef, ?A4, ?A5, ?A12; try done. intros Hf.
  destruct (P4 Hf) as [R1 R2 R3 R4 R5 R6 R7 R8 R9 R10]. specialize (Hfo Hf).
  split; unfold seqlen in *; rewrite ?A0, ?A00, ?A1, ?A2, ?A4, ?A5, ?A6, ?A7, ?A8, ?A9, ?A10, ?A11, ?A12, ?Hfo; done.
Qed.

Lemma decoded_plain `{CacheLaws C} `{Externals} tbl a token r r' fs :
  is_deterministic r = false → running tbl 0 r → decoded tbl a token r r' fs →
  plain_after tbl r' ∧ is_deterministic r' = false ∧ rid r' = rid r.
Proof.
  intros Hdet Hrun (r1 & Hc & Hroom & E & D).
  destruct (checked_same _ _ Hc) as (S1 & S2 & S3 & S4 & S5 & S6 & S7 & S8 & S9).
  pose proof (checked_holding tbl _ _ Hc (running_append tbl token r Hrun)) as Hh.
  assert (Hd1 : is_deterministic r1 = false) by (rewrite S7; unfold append; by rsimpl).
  assert (Hi1 : rid r1 = rid r) by (rewrite S3; unfold append; by rsimpl).
  assert (Hdef : Output.deferred a r1 = false) by (unfold Output.deferred; by rewrite Hd1, andb_false_r).
  rewrite Hdef, andb_true_r in D. unfold done_rel in D. destruct (finished r1) eqn:Ef.
  - destruct D as (t & wd & Ht & _ & -> & _). unfold completed, released_req, finished.
    split; [|by rsimpl]. split; unfold finished; rsimpl; try done; [apply Hh|lia|].
    unfold finished in Ef. by destruct (finished_reason r1).
  - destruct D as [-> _]. split; [|done]. split; [apply Hh|rewrite (ho_time _ _ Hh); lia|congruence|].
    intros _. apply holding_running; auto.
Qed.

(** ** Accounting of KV slots *)

Section Account.
Context `{Externals} {C : Type} `{CacheLaws C} (tbl : list (list Z)).
Implicit Types (s : Scheduler C) (r : Req).

(** The slots a request holds. *)
Definition held r : list Z :=
  if kv_committed_freed r then [] else Chunk.nonzero (committed_slots tbl r).

Definition held_by s (id : nat) : list Z :=
  match heap (w_of s) !! id with Some r => held r | None => [] end.

Definition held_all (reqs : list nat) s : list Z := concat (held_by s <$> reqs).

(** The cache hands back all slots of a finished request. *)
Definition exact_release : Prop :=
  ∀ (wd : World C) r, req_to_token (rtp wd) = tbl →
    concat (released wd r true) = Chunk.nonzero (committed_slots tbl r).

(** Slots move from the requests to the freed ones, none is lost. *)
Definition conserves (reqs : list nat) s s' (fs : list (list Z)) : Prop :=
  exact_release → held_all reqs s ≡ₚ held_all reqs s' ++ concat fs.

Lemma conserves_same reqs s s' :
  (∀ id, id ∈ reqs → held_by s' id = held_by s id) → conserves reqs s s' [].
Proof.
  intros Hh _. cbn. rewrite app_nil_r. unfold held_all.
  replace (held_by s' <$> reqs) with (held_by s <$> reqs); [done|].
  apply list_fmap_ext. intros k id Hk. symmetry. by eapply Hh, list_elem_of_lookup_2.
Qed.

Lemma conserves_trans reqs s1 s2 s3 fs1 fs2 :
  conserves reqs s1 s2 fs1 → conserves reqs s2 s3 fs2 → conserves reqs s1 s3 (fs1 ++ fs2).
Proof.
  intros A B Hx. rewrite (A Hx), (B Hx), concat_app, <- app_assoc.
  f_equiv. apply Permutation_app_comm.
Qed.

Lemma conserves_loop {A} (key : A → nat) (post : A → Req → Req → list (list Z) → Prop) xs fss s s' :
  Forall2 (λ x fs, ∃ r r', heap (w_of s) !! key x = Some r ∧
                           heap (w_of s') !! key x = Some r' ∧ post x r r' fs) xs fss →
  (exact_release → ∀ x r r' fs, post x r r' fs → held r ≡ₚ held r' ++ concat fs) →
  conserves (key <$> xs) s s' (concat fss).
Proof.
  intros F Hp Hx. specialize (Hp Hx). unfold held_all.
  induction F as [|x fs xs fss (r & r' & Hr & Hr' & Po) F IH]; [done|].
  cbn [fmap list_fmap concat]. rewrite concat_app.
  assert (E : held_by s (key x) = held r) by (unfold held_by; by rewrite Hr).
  assert (E' : held_by s' (key x) = held r') by (unfold held_by; by rewrite Hr').
  rewrite E, E'. rewrite (Hp _ _ _ _ Po). unfold fmap in IH. rewrite IH.
  rewrite <- !app_assoc. f_equiv. rewrite !app_assoc. f_equiv. apply Permutation_app_comm.
Qed.

(** A loop over some of the requests. *)
Lemma conserves_some reqs ids s s' fs :
  NoDup ids → (∀ id, id ∈ ids → id ∈ reqs) → NoDup reqs →
  (∀ id, id ∈ reqs → id ∉ ids → held_by s' id = held_by s id) →
  conserves ids s s' fs → conserves reqs s s' fs.
Proof.
  intros Hnd Hsub Hnd' Hrest Hc Hx.
  assert (Hp : reqs ≡ₚ ids ++ filter (λ i, i ∉ ids) reqs).
  { apply NoDup_Permutation; [done|apply NoDup_app; split_and!; [done| |by apply NoDup_filter]|].
    - intros i Hi [Hni _]%list_elem_of_filter. done.
    - intros i. rewrite elem_of_app, list_elem_of_filter. split.
      + intros Hi. destruct (decide (i ∈ ids)); auto.
      + intros [Hi|[_ Hi]]; auto. }
  unfold held_all in *. rewrite Hp at 1 2. rewrite !fmap_app, !concat_app. rewrite (Hc Hx).
  replace (held_by s' <$> filter (λ i, i ∉ ids) reqs) with (held_by s <$> filter (λ i, i ∉ ids) reqs).
  2:{ apply list_fmap_ext. intros k i Hk. apply list_elem_of_lookup_2, list_elem_of_filter in Hk as [? ?].
      symmetry. by apply Hrest. }
  rewrite <- !app_assoc. apply Permutation_app; [done|apply Permutation_app_comm].
Qed.

(** The fields the accounting reads. *)
Lemma held_eq r r' :
  kv_committed_freed r' = kv_committed_freed r → req_pool_idx r' = req_pool_idx r →
  kv_committed_len r' = kv_committed_len r → held r' = held r.
Proof. intros A B D. unfold held, committed_slots. by rewrite A, B, D. Qed.

Lemma held_checked r r' : checked r r' → held r' = held r.
Proof.
  intros Hc. destruct (ck_frame _ _ Hc) as (x & b & c & d & ->).
  apply held_eq; unfold fin_set; by rsimpl.
Qed.

Lemma held_append token r : held (append token r) = held r.
Proof. apply held_eq; unfold append; by rsimpl. Qed.

Lemma held_done b r r' fs :
  exact_release → kv_committed_freed r = false → done_rel tbl b r r' fs →
  held r ≡ₚ held r' ++ concat fs.
Proof.
  intros Hx Hf D. unfold done_rel in D. destruct b.
  - destruct D as (t & wd & _ & Ht & -> & ->). rewrite (Hx wd r Ht).
    unfold held, completed, released_req at 1. rsimpl. by rewrite Hf.
  - destruct D as [-> ->]. cbn. by rewrite app_nil_r.
Qed.

Lemma nonzero_app xs ys : Chunk.nonzero (xs ++ ys) = Chunk.nonzero xs ++ Chunk.nonzero ys.
Proof. apply filter_app. Qed.

Lemma held_rolled n r :
  kv_committed_freed r = false → kv_committed_len r - n = seqlen r - 1 → 0 ≤ n → 0 ≤ seqlen r - 1 →
  held r ≡ₚ held (rolled_back n r) ++ concat [rolled_slots tbl n r].
Proof.
  intros Hf Hk Hn Hs. cbn [concat]. rewrite app_nil_r.
  unfold held, rolled_back, committed_slots, rolled_slots. rsimpl. rewrite Hf.
  destruct (req_pool_idx r) as [row|]; [|done]. destruct (tbl !! Z.to_nat row) as [l|]; [|done].
  rewrite Hk, <- nonzero_app. replace (kv_committed_len r) with (seqlen r - 1 + n) by lia.
  rewrite slice_nonneg by lia. rewrite !slice_to_take by lia.
  replace (Z.to_nat (seqlen r - 1 + n)) with (Z.to_nat (seqlen r - 1) + Z.to_nat n)%nat by lia.
  rewrite <- take_take_drop.
  by replace (Z.to_nat (seqlen r - 1) + Z.to_nat n - Z.to_nat (seqlen r - 1))%nat with (Z.to_nat n) by lia.
Qed.
End Account.

(** ** The phases *)

Section Phases.
Context `{Externals} `{Model} {C : Type} `{CacheLaws C}
  (V : SamplingParams → list Z → Z) (N w : Z) (tbl : list (list Z)).
Implicit Types (s : Scheduler C) (r : Req).

(** Every request of the batch is in the state [D], if it is deterministic,
    or in the state [P]. *)
Definition all_in (D P : Req → Prop) (reqs : list nat) s : Prop :=
  ∀ id, id ∈ reqs → ∃ r, heap (w_of s) !! id = Some r ∧
    (is_deterministic r = true → D r) ∧ (is_deterministic r = false → P r).

(** The other requests stay as they are. *)
Definition others (reqs : list nat) s s' : Prop :=
  ∀ id, id ∉ reqs → heap (w_of s') !! id = heap (w_of s) !! id.

Lemma others_trans reqs s1 s2 s3 : others reqs s1 s2 → others reqs s2 s3 → others reqs s1 s3.
Proof. intros A B id Hid. by rewrite (B id Hid), (A id Hid). Qed.

(** Every request of the batch goes from its old to its new state by [R]. *)
Definition pairs (R : Req → Req → Prop) (reqs : list nat) s s' : Prop :=
  ∀ id r, id ∈ reqs → heap (w_of s) !! id = Some r →
    ∃ r', heap (w_of s') !! id = Some r' ∧ R r r'.

Lemma pairs_trans (R1 R2 R3 : Req → Req → Prop) reqs s1 s2 s3 :
  (∀ r1 r2 r3, R1 r1 r2 → R2 r2 r3 → R3 r1 r3) →
  pairs R1 reqs s1 s2 → pairs R2 reqs s2 s3 → pairs R3 reqs s1 s3.
Proof.
  intros HR A B id r Hin Hr. destruct (A id r Hin Hr) as (r2 & H2' & E1).
  destruct (B id r2 Hin H2') as (r3 & H3 & E3). exists r3. split; [done|]. by eapply HR.
Qed.

Lemma pairs_impl (R1 R2 : Req → Req → Prop) reqs s s' :
  (∀ r r', R1 r r' → R2 r r') → pairs R1 reqs s s' → pairs R2 reqs s s'.
Proof. intros HR A id r Hin Hr. destruct (A id r Hin Hr) as (r' & ? & ?). exists r'. auto. Qed.

(** The new token. *)
Lemma append_evolves token r :
  evolves w 1 r (append token r) ∧ seqlen (append token r) = seqlen r + 1.
Proof.
  unfold append, evolves, rank, seqlen. rsimpl. rewrite len_app, len_cons, len_nil.
  split; [|lia]. split; [split; rsimpl; auto|]. destruct (is_deterministic r); lia.
Qed.

Lemma completed_size t r : same_size r (completed t r).
Proof. unfold completed, released_req. split; [split|..]; rsimpl; auto. Qed.

Lemma done_size b r r' fs : done_rel tbl b r r' fs → same_size r r'.
Proof.
  unfold done_rel. destruct b; [intros (t & wd & _ & _ & -> & _); apply completed_size|].
  intros [-> _]. apply same_size_refl.
Qed.

Lemma decoded_evolves a token r r' fs :
  decoded tbl a token r r' fs → evolves w 1 r r' ∧ seqlen r' = seqlen r + 1.
Proof.
  intros (r1 & Hc & _ & _ & D).
  assert (Hs : same_size (append token r) r').
  { eapply same_size_trans; [by eapply checked_size|by eapply done_size]. }
  destruct (append_evolves token r) as [He Hl]. split.
  - apply (evolves_trans w 1 0 r _ _ He). by apply same_size_evolves.
  - rewrite (same_size_seqlen _ _ Hs). done.
Qed.

(** Verification. *)
Lemma passed_evolves ms r r' n :
  0 < w → is_deterministic r = true → fresh V w tbl ms r → passed V r r' n → evolves w 0 r r'.
Proof.
  intros Hw Hd Fr P. pose proof (ps_frame _ _ _ _ P) as F. unfold vframe in F.
  assert (Hl : lineage r r') by (rewrite F; split; rsimpl; auto). clear F. split; [done|].
  destruct Hl as [_ Ld Lp _ _ _]. unfold rank. rewrite Ld, Lp, Hd.
  pose proof (ps_all _ _ _ _ P) as Ha. pose proof (ps_progress _ _ _ _ P) as Hp.
  pose proof (fr_window _ _ _ _ _ Fr) as Hwin. rewrite <- Ha. nia.
Qed.

Lemma rolled_back_size n r : same_size r (rolled_back n r).
Proof. unfold rolled_back. split; [split|..]; rsimpl; auto. Qed.

(** Before the handler. *)
Definition ready_det (ms : list (list StreamEntry)) r : Prop :=
  running tbl 0 r ∧ tracked V ms r ∧ len (output_ids r) - llm42_verified_tokens r < w.

Lemma keys_zip (reqs : list nat) (toks : list Z) :
  length toks = length reqs → (λ x : Z * (nat * Z), x.2.1) <$> enumerate (zip reqs toks) = reqs.
Proof.
  intros Hl. unfold enumerate.
  rewrite (list_fmap_compose (λ x : Z * (nat * Z), x.2) (λ y : nat * Z, y.1)).
  rewrite snd_zip; [apply fst_zip; lia|].
  unfold range. rewrite length_seqZ. unfold len. lia.
Qed.

Lemma decode_phase a ms s reqs toks :
  enable_llm42 a = true → steady tbl s → NoDup reqs → length toks = length reqs →
  all_in (ready_det ms) (running tbl 0) reqs s →
  ∃ s1 fss, for_ (enumerate (zip reqs toks)) (Output.decode_step a false None) s = (Ok tt, s1) ∧
    keeps s s1 ∧ steady tbl s1 ∧ kv (w_of s1) = frees (concat fss) (kv (w_of s)) ∧
    all_in (fresh V w tbl ms) (plain_after tbl) reqs s1 ∧ pairs (λ r r', evolves w 1 r r' ∧ seqlen r' = seqlen r + 1) reqs s s1 ∧
    conserves tbl reqs s s1 (concat fss) ∧ others reqs s s1.
Proof.
  intros Ha Hs Hnd Hl Hall.
  destruct (for_stepped (λ x : Z * (nat * Z), x.2.1) (Output.decode_step a false None) (steady tbl)
    (λ _ r, running tbl 0 r)
    (λ x r r' fs, decoded tbl a x.2.2 r r' fs ∧ kv_committed_freed r = false)
    (enumerate (zip reqs toks))) with (s := s) as (s1 & fss & E & K & Hs1 & Ek & F & Hrest).
  - intros [i [id token]] s' r _ Hs' Hr Hrun. 
    destruct (decode_step_ok tbl a None i id token s' r Hs' Hr Hrun) as (s'' & r' & fs & E & St & D & Hs'').
    exists s'', r', fs. split_and!; [done..|apply Hrun|done].
  - by rewrite keys_zip.
  - done.
  - intros x Hx. assert (Hin : x.2.1 ∈ reqs).
    { rewrite <- (keys_zip reqs toks Hl). by apply (list_elem_of_fmap_2 (λ x : Z * (nat * Z), x.2.1)). }
    destruct (Hall _ Hin) as (r & Hr & HD & HP). exists r. split; [done|].
    destruct (is_deterministic r); [by apply HD|by apply HP].
  - exists s1, fss. split_and!; try done.
    + intros id Hin. rewrite <- (keys_zip reqs toks Hl) in Hin.
      apply list_elem_of_fmap in Hin as (x & -> & Hx). apply list_elem_of_lookup_1 in Hx as [k Hk].
      destruct (Forall2_lookup_l _ _ _ _ _ F Hk) as (fs & _ & r & r' & Hr & Hr' & D & _).
      assert (Hin : x.2.1 ∈ reqs).
      { rewrite <- (keys_zip reqs toks Hl). eapply (list_elem_of_fmap_2 (λ x : Z * (nat * Z), x.2.1)), list_elem_of_lookup_2, Hk. }
      destruct (Hall _ Hin) as (r0 & Hr0 & HD & HP). assert (r0 = r) as -> by congruence.
      exists r'. split; [done|]. destruct (is_deterministic r) eqn:Edet.
      * destruct (HD eq_refl) as (R & T & W).
        destruct (decoded_fresh V w tbl ms a x.2.2 r r' fs Ha Edet R T W D) as (Fr & Ed & _).
        split; [done|congruence].
      * destruct (decoded_plain tbl a x.2.2 r r' fs Edet (HP eq_refl) D) as (Pl & Ed & _).
        split; [congruence|done].
    + intros id r Hin Hr. pose proof Hin as Hin0. rewrite <- (keys_zip reqs toks Hl) in Hin.
      apply list_elem_of_fmap in Hin as (x & -> & Hx). apply list_elem_of_lookup_1 in Hx as [k Hk].
      destruct (Forall2_lookup_l _ _ _ _ _ F Hk) as (fs & _ & r0 & r' & Hr0 & Hr' & D & _).
      assert (r0 = r) as -> by congruence. exists r'. split; [done|].
      by eapply decoded_evolves.
    + rewrite <- (keys_zip reqs toks Hl). eapply conserves_loop; [exact F|].
      intros Hx x r r' fs [(r1 & Hc & _ & _ & D) Hf]. 
      rewrite <- (held_append tbl x.2.2 r), <- (held_checked tbl _ _ Hc).
      eapply held_done; [done| |exact D].
      destruct (ck_frame _ _ Hc) as (? & ? & ? & ? & ->). unfold fin_set, append. by rsimpl.
    + intros id Hid. apply Hrest. by rewrite keys_zip.
Qed.
(** *** Verification *)

Lemma fresh_eligible ms s id r :
  req_to_token (rtp (w_of s)) = tbl → heap (w_of s) !! id = Some r → fresh V w tbl ms r →
  eligible V w (sys s) id.
Proof.
  intros Ht Hr [[Hc _ _ _] [_ _ Hp [(row & l & E1 & E2 & E3 & E4) _ _ _] Hkv _ _ _] Hw _ _].
  pose proof Hc as [Hb _]. exists r. split; [done|]. split_and!; [|rewrite len_unverified; lia|done].
  split; [lia|done|by eexists|]. unfold row_of, getitem. rewrite E1.
  destruct (Z.ltb_spec row 0); [lia|]. destruct (Z.ltb_spec row 0); [lia|].
  fold (w_of s). rewrite Ht, E3. cbn. lia.
Qed.

Lemma fresh_candidate ms r :
  is_deterministic r = true → fresh V w tbl ms r → Worker.candidate r = true.
Proof.
  intros Hd [_ [Hret _ _ [(row & l & E1 & _) _ _ _] _ _ _ _] Hw _ _].
  unfold Worker.candidate, Worker.unverified_tokens. rewrite Hd, E1, Hret. cbn. lia.
Qed.

Lemma candidate_det r : Worker.candidate r = true → is_deterministic r = true.
Proof. unfold Worker.candidate. by intros [[? _]%andb_prop _]%andb_prop. Qed.

(** The requests after a step of the worker. *)
Definition verified_to s (out : list (nat * Z)) (ms : list (list StreamEntry)) (id : nat) r1 r : Prop :=
  heap (w_of s) !! id = Some r ∧ evolves w 0 r1 r ∧ held tbl r = held tbl r1 ∧
  (is_deterministic r1 = true → ∃ n, settled V w tbl ms (rolled_back n r) ∧ 0 ≤ n ∧
     (∀ m, (id, m) ∈ out ↔ 0 < n ∧ m = n) ∧ 0 < len (output_ids r) ∧
     (∃ row l, req_pool_idx r = Some row ∧ 0 ≤ row ∧ tbl !! Z.to_nat row = Some l)) ∧
  (is_deterministic r1 = false → r = r1 ∧ ∀ m, (id, m) ∉ out).

(** The lengths in the batch are those of the KV cache. *)
Definition in_step s : Prop :=
  ∀ j id r, b_reqs (batch (w_of s)) !! j = Some id → heap (w_of s) !! id = Some r →
    b_seq_lens (batch (w_of s)) !! j = Some (seqlen r - 1).

(** The entries of rolled back requests are rewritten; the others have not
    changed their length. *)
Lemma multi_in_step s y ids out reqs :
  multi V N w (sys s) ids y out → b_reqs (batch (w_of s)) = reqs →
  (∀ id, id ∈ reqs → is_Some (heap (w_of s) !! id)) →
  is_Some (b_output_ids (batch (w_of s))) → in_step s → in_step (s <| sys := y |>).
Proof.
  intros Mu Er Hh [l Hl] Hin j id r' Hj Hr'. change (w_of (s <| sys := y |>)) with (world y) in *.
  rewrite (mu_reqs _ _ _ _ _ _ _ Mu) in Hj. fold (w_of s) in Hj.
  destruct (mu_entries _ _ _ _ _ _ _ Mu j id r' l Hj Hr' Hl) as (l' & _ & _ & ->).
  destruct (decide (id ∈ out.*1)) as [Ho|Ho]; [done|]. fold (w_of s).
  destruct (Hh id) as [r Hr]; [rewrite <- Er; by eapply list_elem_of_lookup_2|].
  rewrite (Hin j id r Hj Hr). do 2 f_equal.
  destruct (decide (id ∈ ids)) as [Hi|Hi].
  - destruct (mu_in _ _ _ _ _ _ _ Mu id r Hi Hr) as (r2 & n & Hr2 & P & Hm).
    assert (r2 = r') as -> by congruence.
    assert (Hn : ¬ 0 < n).
    { intros Hn. apply Ho. apply (list_elem_of_fmap_2 fst out (id, n)). by apply Hm. }
    pose proof (ps_frame _ _ _ _ P) as F. unfold vframe in F.
    assert (Eo : origin_input_ids r' = origin_input_ids r) by (rewrite F; by rsimpl).
    destruct (ps_rolled _ _ _ _ P) as [En En0]. unfold seqlen. rewrite Eo. lia.
  - rewrite (mu_notin _ _ _ _ _ _ _ Mu id Hi) in Hr'. fold (w_of s) in Hr'. congruence.
Qed.

(** What the worker's step leaves of the cache. *)
Lemma multi_steady s y ids out :
  steady tbl s → multi V N w (sys s) ids y out → (∀ id, id ∈ ids → is_Some (heap (w_of s) !! id)) →
  steady tbl (s <| sys := y |>).
Proof.
  intros [Hl Hd Hc Ht] Mu Hh. destruct (mu_rest _ _ _ _ _ _ _ Mu) as (Ek & Er & Ec & _). fold (w_of s) in Ek, Er, Ec.
  assert (Ew : w_of (s <| sys := y |>) = world y) by done.
  split; rewrite ?Ew; [|by rewrite Ek|done|by rewrite Er].
  eapply cache_live_frame; [exact Hl|done|by rewrite Er|..].
  - intros id r Hr. destruct (decide (id ∈ ids)) as [Hin|Hin].
    + destruct (mu_in _ _ _ _ _ _ _ Mu id r Hin Hr) as (r2 & n & Hr2 & P & _). exists r2. split; [done|left].
      pose proof (ps_frame _ _ _ _ P) as F. unfold vframe in F. rewrite F. by rsimpl.
    + exists r. rewrite (mu_notin _ _ _ _ _ _ _ Mu id Hin). split; [done|apply same_cache_refl].
  - intros id. destruct (decide (id ∈ ids)) as [Hin|Hin]; [|by rewrite (mu_notin _ _ _ _ _ _ _ Mu id Hin)].
    by destruct (Hh id Hin) as [r ->].
Qed.

Lemma fresh_row ms r :
  fresh V w tbl ms r → ∃ row l, req_pool_idx r = Some row ∧ 0 ≤ row ∧ tbl !! Z.to_nat row = Some l.
Proof.
  intros Fr. destruct (rl_row _ _ (ho_rel _ _ (fr_holding _ _ _ _ _ Fr))) as (row & l & ? & ? & ? & _).
  by exists row, l.
Qed.

(** A request the worker verified. *)
Lemma verified_in ms s y ids out id r1 :
  0 < w → multi V N w (sys s) ids y out → id ∈ ids → heap (w_of s) !! id = Some r1 →
  is_deterministic r1 = true → fresh V w tbl ms r1 →
  ∃ r, verified_to (s <| sys := y |>) out ms id r1 r.
Proof.
  intros Hw Mu Hi Hr1 Hd1 Fr. destruct (mu_in _ _ _ _ _ _ _ Mu id r1 Hi Hr1) as (r2 & n & Hr2 & P & Ho).
  exists r2. pose proof (ps_frame _ _ _ _ P) as F. unfold vframe in F.
  assert (S : req_pool_idx r2 = req_pool_idx r1 ∧ kv_committed_len r2 = kv_committed_len r1 ∧
              kv_committed_freed r2 = kv_committed_freed r1) by (rewrite F; by rsimpl).
  destruct S as (S3 & S4 & S5).
  split_and!; [done|eapply passed_evolves; eauto|by apply held_eq| |congruence].
  intros _. exists n. split_and!.
  - by eapply passed_settled.
  - apply (ps_rolled _ _ _ _ P).
  - done.
  - rewrite <- (ps_all _ _ _ _ P). pose proof (ps_progress _ _ _ _ P).
    destruct (tr_committed _ _ _ (fr_tracked _ _ _ _ _ Fr)) as [? _]. lia.
  - rewrite S3. by eapply fresh_row.
Qed.

(** A request the worker left alone. *)
Lemma verified_out ms s y ids out id r1 :
  multi V N w (sys s) ids y out → id ∉ ids → heap (w_of s) !! id = Some r1 →
  (is_deterministic r1 = true → fresh V w tbl ms r1 ∧ Worker.triggers w r1 = false) →
  verified_to (s <| sys := y |>) out ms id r1 r1.
Proof.
  intros Mu Hi Hr1 HD.
  assert (Hno : ∀ m, (id, m) ∉ out) by (intros m Hm'; by eapply Hi, Mu).
  split_and!; [|apply same_size_evolves, same_size_refl|done| |done].
  { change (heap (world y) !! id = Some r1). by rewrite (mu_notin _ _ _ _ _ _ _ Mu id Hi). }
  intros Hd1. destruct (HD Hd1) as [Fr Ht]. exists 0. rewrite rolled_back_0. split_and!.
  - by eapply waiting_settled.
  - lia.
  - intros m. split; [by intros ?%Hno|lia].
  - apply Fr.
  - by eapply fresh_row.
Qed.

Lemma verify_phase ms s reqs :
  fixed_shape_determinism V N w → 0 < w → fixed_mode (worker (sys s)) N w → batch_ok (w_of s) →
  steady tbl s → b_reqs (batch (w_of s)) = reqs → NoDup reqs →
  all_in (fresh V w tbl ms) (plain_after tbl) reqs s →
  ∃ y out, Worker.check_and_verify_deterministic_requests (sys s) = (Ok out, y) ∧
    let s2 := s <| sys := y |> in
    steady tbl s2 ∧ kv (w_of s2) = kv (w_of s) ∧ cache (w_of s2) = cache (w_of s) ∧
    b_reqs (batch (w_of s2)) = reqs ∧
    NoDup out.*1 ∧ (∀ id n, (id, n) ∈ out → id ∈ reqs) ∧
    fixed_mode (worker y) N w ∧ batch_ok (w_of s2) ∧ bframe (batch (w_of s)) (batch (w_of s2)) ∧
    (is_Some (b_output_ids (batch (w_of s))) → in_step s → in_step s2) ∧ others reqs s s2 ∧
    ∀ id r1, id ∈ reqs → heap (w_of s) !! id = Some r1 → ∃ r, verified_to s2 out ms id r1 r.
Proof.
  intros Hdet Hw Hm Hb Hs Ereqs Hnd Hall.
  destruct (check_step_ok V N w (sys s) Hdet) as (y & out & ids & E & Mu & Hsub & Hcand & Htrig).
  { split; [done|done|by fold (w_of s); rewrite Ereqs|]. fold (w_of s). rewrite Ereqs.
    intros id r Hin Hr Hca. destruct (Hall id Hin) as (r0 & Hr0 & HD & _).
    assert (r0 = r) as -> by congruence.
    eapply fresh_eligible; [apply Hs|done|]. by apply HD, candidate_det. }
  fold (w_of s) in Hsub, Hcand, Htrig. rewrite Ereqs in Hsub, Htrig.
  exists y, out. split; [done|]. cbv zeta.
  assert (Hh : ∀ id, id ∈ reqs → is_Some (heap (w_of s) !! id)).
  { intros id Hin. by destruct (Hall id Hin) as (r & -> & _). }
  destruct (mu_rest _ _ _ _ _ _ _ Mu) as (Ek & Er & Ec & _).
  split_and!; [|done|done| |apply Mu| |apply Mu|apply Mu|apply Mu| | |].
  - eapply multi_steady; [done|done|]. intros id Hin. by apply Hh, Hsub.
  - change (b_reqs (batch (world y)) = reqs). by rewrite (mu_reqs _ _ _ _ _ _ _ Mu).
  - intros id n Hin. by eapply Hsub, Mu.
  - by eapply multi_in_step.
  - intros id Hid. apply (mu_notin _ _ _ _ _ _ _ Mu). intros Hi. by apply Hid, Hsub.
  - intros id r1 Hin Hr1. destruct (Hall id Hin) as (r0 & Hr0 & HD & HP).
    assert (r0 = r1) as -> by congruence. clear Hr0. destruct (decide (id ∈ ids)) as [Hi|Hi].
    + assert (Hd1 : is_deterministic r1 = true) by (by eapply candidate_det, Hcand).
      by eapply verified_in; [done|done|done|done|done|apply HD].
    + exists r1. eapply verified_out; [done|done|done|]. intros Hd1. split; [by apply HD|].
      destruct (Worker.triggers w r1) eqn:Et; [|done].
      destruct Hi. eapply Htrig; [done|done|by eapply fresh_candidate, HD|done].
Qed.

(** *** Rollback and completion *)

(** What the loop over the rolled back requests does to one request. *)
Definition rolled_to s s3 (ms : list (list StreamEntry)) (id : nat) r1 r3 : Prop :=
  heap (w_of s3) !! id = Some r3 ∧ evolves w 0 r1 r3 ∧
  (∀ r, heap (w_of s) !! id = Some r → same_size r r3) ∧
  (is_deterministic r1 = true → settled V w tbl ms r3) ∧ (is_deterministic r1 = false → r3 = r1).

Lemma rolled_one ms s s3 out fss id r1 r :
  verified_to s out ms id r1 r →
  Forall2 (λ (x : nat * Z) (fs : list (list Z)), ∃ r r', heap (w_of s) !! x.1 = Some r ∧ heap (w_of s3) !! x.1 = Some r' ∧
    (r' = rolled_back x.2 r ∧ fs = [rolled_slots tbl x.2 r]) ∧ holding tbl (rolled_back x.2 r) ∧ 0 ≤ x.2) out fss →
  (∀ id, id ∉ out.*1 → heap (w_of s3) !! id = heap (w_of s) !! id) →
  ∃ r3, rolled_to s s3 ms id r1 r3.
Proof.
  intros (Hr & Ev & _ & Vd & Vp) F Hrest.
  assert (Hsame : ∀ r', r' = r → ∀ r0, heap (w_of s) !! id = Some r0 → same_size r0 r').
  { intros r' -> r0 Hr0. assert (r0 = r) as -> by congruence. apply same_size_refl. }
  assert (Hstay : (∀ m, (id, m) ∉ out) → heap (w_of s3) !! id = Some r).
  { intros Hno. rewrite Hrest; [done|]. intros ([i m] & -> & Hx)%list_elem_of_fmap. by eapply Hno. }
  destruct (is_deterministic r1) eqn:Edet.
  2:{ destruct (Vp eq_refl) as [-> Hno]. exists r1. split_and!; auto; congruence. }
  destruct (Vd eq_refl) as (n & Se & Hn0 & Ho & _). destruct (decide (0 < n)) as [Hn|Hn].
  - assert (Hx : (id, n) ∈ out) by (apply Ho; done). apply list_elem_of_lookup_1 in Hx as [k Hk].
    destruct (Forall2_lookup_l _ _ _ _ _ F Hk) as (fs & _ & r0 & r' & Hr0 & Hr' & [-> _] & _).
    cbn [fst snd] in *. assert (r0 = r) as -> by congruence.
    exists (rolled_back n r). pose proof (rolled_back_size n r) as Sz. split_and!; [done| | |done|congruence].
    + apply (evolves_trans w 0 0 _ _ _ Ev). by apply same_size_evolves.
    + intros r0 Hr1'. by assert (r0 = r) as -> by congruence.
  - assert (n = 0) as -> by lia. rewrite rolled_back_0 in Se. exists r. split_and!; auto; [|congruence].
    apply Hstay. intros m Hx%Ho. lia.
Qed.

Lemma rollback_phase ms s reqs out s1 :
  steady tbl s → NoDup out.*1 → NoDup reqs → (∀ id n, (id, n) ∈ out → id ∈ reqs) →
  (∀ id r1, id ∈ reqs → heap (w_of s1) !! id = Some r1 → ∃ r, verified_to s out ms id r1 r) →
  all_in (fresh V w tbl ms) (plain_after tbl) reqs s1 →
  ∃ s3 fss, on_w (for_ out Output.free_rolled_back) s = (Ok tt, s3) ∧ keeps s s3 ∧ steady tbl s3 ∧
    kv (w_of s3) = frees (concat fss) (kv (w_of s)) ∧
    all_in (settled V w tbl ms) (plain_after tbl) reqs s3 ∧ pairs (evolves w 0) reqs s1 s3 ∧
    pairs same_size reqs s s3 ∧
    conserves tbl reqs s1 s3 (concat fss) ∧ others reqs s s3.
Proof.
  intros Hs Hnd Hndr Hin Hv Hall.
  destruct (for_stepped (λ x : nat * Z, x.1) (λ x, on_w (Output.free_rolled_back x)) (steady tbl)
    (λ x r, (0 < len (output_ids r) ∧
             ∃ row l, req_pool_idx r = Some row ∧ 0 ≤ row ∧ tbl !! Z.to_nat row = Some l) ∧
            holding tbl (rolled_back x.2 r) ∧ 0 ≤ x.2)
    (λ x r r' fs, (r' = rolled_back x.2 r ∧ fs = [rolled_slots tbl x.2 r]) ∧
                  holding tbl (rolled_back x.2 r) ∧ 0 ≤ x.2) out) with (s := s)
    as (s3 & fss & E & K & Hs3 & Ek & F & Hrest); try done.
  { intros [id n] s' r _ Hs' Hr [[Ho Hrow] Hh].
    destruct (free_rolled_back_ok tbl id n s' r Hs' Hr Ho Hrow) as (s'' & E & St & Hs'').
    by exists s'', (rolled_back n r), [rolled_slots tbl n r]. }
  { intros [id n] Hx. destruct (Hall id (Hin id n Hx)) as (r1 & Hr1 & _ & _).
    destruct (Hv id r1 (Hin id n Hx) Hr1) as (r & Hr & _ & _ & Vd & Vp). exists r. split; [done|].
    destruct (is_deterministic r1); [|destruct (Vp eq_refl) as [_ Hno]; by destruct (Hno n)].
    destruct (Vd eq_refl) as (m & Se & Hm0 & Hom & Ho & Hrow). apply Hom in Hx as [Hp ->].
    split; [done|]. split; [apply Se|done]. }
  exists s3, fss. rewrite on_w_for.
  assert (Hstep : ∀ id r1, id ∈ reqs → heap (w_of s1) !! id = Some r1 → ∃ r3, rolled_to s s3 ms id r1 r3).
  { intros id r1 Hid Hr1. destruct (Hv id r1 Hid Hr1) as [r Vr]. by eapply rolled_one. }
  assert (Hout : ∀ id, id ∈ out.*1 → id ∈ reqs).
  { intros id ([i m] & -> & Hx)%list_elem_of_fmap. by eapply Hin. }
  split_and!; [done..| | | | |].
  - intros id Hid. destruct (Hall id Hid) as (r1 & Hr1 & _ & HP).
    destruct (Hstep id r1 Hid Hr1) as (r3 & Hr3 & [Li _] & _ & HS & HN). exists r3.
    rewrite (li_det _ _ Li). split_and!; [done|done|]. intros Hd. rewrite (HN Hd). by apply HP.
  - intros id r1 Hid Hr1. destruct (Hstep id r1 Hid Hr1) as (r3 & Hr3 & Ev & _). by exists r3.
  - intros id r Hid Hr. destruct (Hall id Hid) as (r1 & Hr1 & _).
    destruct (Hstep id r1 Hid Hr1) as (r3 & Hr3 & _ & Sz & _). exists r3. auto.
  - apply (conserves_trans tbl reqs s1 s s3 [] (concat fss)).
    { apply conserves_same. intros id Hid. destruct (Hall id Hid) as (r1 & Hr1 & _).
      destruct (Hv id r1 Hid Hr1) as (r & Hr & _ & Eh & _). unfold held_by. by rewrite Hr, Hr1. }
    eapply (conserves_some tbl reqs out.*1); [done|done|done| |].
    { intros id _ Hno. unfold held_by. by rewrite Hrest. }
    eapply conserves_loop; [exact F|].
    intros _ x r r' fs [[-> ->] [Hh Hn]]. destruct Hh as [_ _ _ [_ Hk _ [Hf _]] Hkv _ _ _].
    revert Hk Hf Hkv. unfold rolled_back, seqlen. rsimpl. intros Hk Hf Hkv.
    apply held_rolled; unfold seqlen; [done|lia|done|lia].
  - intros id Hid. apply Hrest. intros Hx. by apply Hid, Hout.
Qed.

Lemma settled_size r r' fs : settled_rel tbl r r' fs → same_size r r'.
Proof.
  unfold settled_rel. destruct (_ && _); [|intros [-> _]; apply same_size_refl].
  intros (r1 & _ & Hc & _ & D).
  eapply same_size_trans; [by eapply checked_size|by eapply done_size].
Qed.

(** What the visit of [finish_verified] does to one request. *)
Definition ended_as s4 (ms : list (list StreamEntry)) (id : nat) r r' : Prop :=
  heap (w_of s4) !! id = Some r' ∧ same_size r r' ∧
  (is_deterministic r = true → concluded V w tbl ms r') ∧ (is_deterministic r = false → r' = r).

Lemma ended_one ms s4 id r r' fs :
  0 < w → heap (w_of s4) !! id = Some r' → settled_rel tbl r r' fs →
  (is_deterministic r = true → settled V w tbl ms r) → ended_as s4 ms id r r'.
Proof.
  intros Hw Hr' R HD. split; [done|]. destruct (is_deterministic r) eqn:Ed.
  - destruct (settled_concluded V w tbl ms r r' fs Hw (HD eq_refl) Ed R) as (Cc & Ed' & Ei).
    split_and!; [|done|done]. by eapply settled_size.
  - unfold settled_rel in R. rewrite Ed in R. cbn [andb] in R. destruct R as [-> _].
    split_and!; [apply same_size_refl|done|done].
Qed.

Lemma held_settled r r' fs :
  exact_release tbl → settled_rel tbl r r' fs → (is_deterministic r = true → kv_committed_freed r = false) →
  held tbl r ≡ₚ held tbl r' ++ concat fs.
Proof.
  intros Hx R Hf. unfold settled_rel in R. destruct (is_deterministic r); cbn [andb] in R.
  - destruct (completion_time r =? 0); [|destruct R as [-> ->]; cbn; by rewrite app_nil_r].
    destruct R as (r1 & _ & Hc & _ & D). rewrite <- (held_checked tbl _ _ Hc).
    eapply held_done; [done| |exact D].
    destruct (ck_frame _ _ Hc) as (? & ? & ? & ? & ->). unfold fin_set. rsimpl. auto.
  - destruct R as [-> ->]. cbn. by rewrite app_nil_r.
Qed.

Lemma finish_phase ms s reqs :
  0 < w → steady tbl s → NoDup reqs → all_in (settled V w tbl ms) (plain_after tbl) reqs s →
  ∃ s4 fss, for_ reqs Output.finish_verified s = (Ok tt, s4) ∧ keeps s s4 ∧ steady tbl s4 ∧
    kv (w_of s4) = frees (concat fss) (kv (w_of s)) ∧
    all_in (concluded V w tbl ms) (plain_after tbl) reqs s4 ∧ pairs same_size reqs s s4 ∧
    conserves tbl reqs s s4 (concat fss) ∧ others reqs s s4.
Proof.
  intros Hw Hs Hnd Hall.
  destruct (for_stepped id Output.finish_verified (steady tbl)
    (λ _ r, (is_deterministic r = true → settled V w tbl ms r) ∧
            (is_deterministic r = false → plain_after tbl r))
    (λ _ r r' fs, settled_rel tbl r r' fs ∧
       (is_deterministic r = true → kv_committed_freed r = false)) reqs) with (s := s)
    as (s4 & fss & E & K & Hs4 & Ek & F & Hrest); rewrite ?list_fmap_id; try done.
  { intros i s' r _ Hs' Hr [HD HP].
    assert (Hhere : is_retracted r = false ∧ 0 ≤ completion_time r).
    { destruct (is_deterministic r).
      - pose proof (se_holding _ _ _ _ _ (HD eq_refl)) as Hh. split; [apply Hh|rewrite (ho_time _ _ Hh); lia].
      - split; apply (HP eq_refl). }
    destruct Hhere as [H3 H4].
    destruct (finish_verified_ok tbl i s' r Hs' Hr) as (s'' & r' & fs & E & St & R & Hs''); try done.
    { intros Hd _. apply (HD Hd). }
    exists s'', r', fs. split_and!; [done..| |done].
    intros Hd. apply (ho_rel _ _ (se_holding _ _ _ _ _ (HD Hd))). }
  exists s4, fss.
  assert (Hstep : ∀ i r, i ∈ reqs → heap (w_of s) !! i = Some r → ∃ r', ended_as s4 ms i r r').
  { intros i r Hi Hr. destruct (Hall i Hi) as (r0 & Hr0' & HD & _). assert (r0 = r) as -> by congruence.
    apply list_elem_of_lookup_1 in Hi as [k Hk].
    destruct (Forall2_lookup_l _ _ _ _ _ F Hk) as (fs & _ & r0 & r' & Hr0 & Hr' & R & _).
    unfold id in Hr0, Hr'. assert (r0 = r) as -> by congruence. exists r'. by eapply ended_one. }
  split_and!; [done..| | | |].
  - intros i Hi. destruct (Hall i Hi) as (r & Hr & _ & HP).
    destruct (Hstep i r Hi Hr) as (r' & Hr' & Sz & HC & HN). exists r'.
    rewrite (li_det _ _ (sz_lineage _ _ Sz)).
    split_and!; [done|done|]. intros Hd. rewrite (HN Hd). by apply HP.
  - intros i r Hi Hr. destruct (Hstep i r Hi Hr) as (r' & Hr' & Sz & _). by exists r'.
  - rewrite <- (list_fmap_id reqs) at 1. eapply conserves_loop; [exact F|].
    intros Hx i r r' fs [R Hf]. by apply held_settled.
  - intros i Hi. apply Hrest. by rewrite list_fmap_id.
Qed.
End Phases.
