(* ===== verification/DecodePass.v ===== *)
(** * One decode pass, from the new tokens to the messages

    The streaming of a batch and, with the phases of [DecodeStep], the whole
    of [process_batch_result_decode]. *)

From S2P Require Import Prelude PyFloat Allocator AllocatorFacts Request ReqPool LLM42Info InfoFacts World MemCommon CacheLaws LLM42Worker Verifier WorkerFacts Scheduler OutputProcessor OutputFacts DecodeFacts DecodeStep.
Import Batch Finish OneStream Pass Step.

(** ** Streaming of a batch *)

Definition opt_list {A} (o : option A) : list A := match o with Some x => [x] | None => [] end.

Lemma streamed_rows (f : nat → string) ids os k id o :
  Forall2 (λ id o, ∀ e, o = Some e → e_rid e = f id) ids os →
  (∀ i j x y, ids !! i = Some x → ids !! j = Some y → f x = f y → i = j) →
  ids !! k = Some id → os !! k = Some o →
  streamed [concat (opt_list <$> os)] (f id) = sent_ids o.
Proof.
  intros F. revert k. unfold streamed. cbn [concat]. rewrite app_nil_r.
  induction F as [|id0 o0 ids os H0 F IH]; intros k Hinj Hid Ho; [done|].
  cbn [fmap list_fmap concat]. rewrite filter_app, fmap_app, concat_app.
  assert (Hrest : ∀ x, f x = f id0 → x ∈ ids → False).
  { intros x Ex Hx. apply list_elem_of_lookup_1 in Hx as [j Hj].
    by specialize (Hinj (S j) 0%nat x id0 Hj eq_refl Ex). }
  destruct k as [|k].
  - cbn in Hid, Ho. injection Hid as ->. injection Ho as ->.
    assert (Enil : filter (λ e, e_rid e = f id) (concat (opt_list <$> os)) = []).
    { clear IH Hinj H0. induction F as [|x o1 ids os H1 F IH]; [done|].
      cbn [fmap list_fmap concat]. rewrite filter_app, IH by (intros; eapply Hrest; set_solver).
      destruct o1 as [e|]; [|done]. cbn. rewrite decide_False; [done|].
      intros Ee. eapply (Hrest x); [|set_solver]. by rewrite <- (H1 e eq_refl). }
    rewrite Enil. cbn. rewrite app_nil_r. destruct o as [e|]; [|done].
    cbn. rewrite decide_True by auto. cbn. by rewrite app_nil_r.
  - cbn in Hid, Ho.
    assert (Hne : filter (λ e, e_rid e = f id) (opt_list o0) = []).
    { destruct o0 as [e|]; [|done]. cbn. rewrite decide_False; [done|]. intros Ee.
      eapply (Hrest id); [|by eapply list_elem_of_lookup_2]. by rewrite <- (H0 e eq_refl). }
    rewrite Hne. cbn. apply (IH k); [|done|done].
    intros i j x y Hi Hj Ex. specialize (Hinj (S i) (S j) x y Hi Hj Ex). lia.
Qed.

Section Pass.
Context `{Externals} `{Model} {C : Type} `{CacheLaws C}
  (V : SamplingParams → list Z → Z) (N w : Z) (tbl : list (list Z)).
Implicit Types (s : Scheduler C) (r : Req) (wd : World C).

Lemma stream_loop a ids rows wd :
  default_stream_interval a ≠ 0 → NoDup ids → (∀ id, id ∈ ids → is_Some (heap wd !! id)) →
  ∃ os wd', foldM (Stream.stream_step a false None) rows ids wd =
              (Ok (rows ++ concat (opt_list <$> os)), wd') ∧
    Forall2 (λ id o, ∃ r r', heap wd !! id = Some r ∧ heap wd' !! id = Some r' ∧
                             Stream.stream_one a false r = Ok (o, r')) ids os ∧
    kv wd' = kv wd ∧ rtp wd' = rtp wd ∧ cache wd' = cache wd ∧ batch wd' = batch wd ∧
    (∀ id, id ∉ ids → heap wd' !! id = heap wd !! id).
Proof.
  intros Hd. revert rows wd. induction ids as [|id ids IH]; intros rows wd Hnd Hh.
  { exists [], wd. cbn. rewrite app_nil_r. by split_and!. }
  apply NoDup_cons in Hnd as [Hid Hnd]. destruct (Hh id) as [r Hr]; [set_solver|].
  destruct (stream_one_ok a r Hd) as (o & r' & E & F & _).
  set (wd1 := wd <| heap ::= <[id := r']> |>).
  assert (E1 : Stream.stream_step a false None rows id wd = (Ok (rows ++ opt_list o), wd1)).
  { unfold Stream.stream_step. rewrite bool_decide_false by done.
    rewrite (bind_ok _ _ wd r wd) by (unfold req_at; by rewrite Hr).
    rewrite (bind_ok _ _ wd (o, r') wd) by (unfold lift; by rewrite E). cbv beta iota.
    rewrite (bind_ok _ _ wd tt wd1) by done. by destruct o. }
  assert (Hother : ∀ i, i ≠ id → heap wd1 !! i = heap wd !! i).
  { intros i Hi. unfold wd1. rsimpl. by rewrite lookup_insert_ne. }
  destruct (IH (rows ++ opt_list o) wd1 Hnd) as (os & wd2 & E2 & F2 & K1 & K2 & K3 & K4 & Hrest).
  { intros i Hi. destruct (decide (i = id)) as [->|Hne]; [done|]. rewrite Hother by done. apply Hh. set_solver. }
  exists (o :: os), wd2. split_and!; try done.
  - cbn [foldM]. rewrite E1. cbn [fmap list_fmap concat]. by rewrite E2, app_assoc.
  - constructor.
    + exists r, r'. split_and!; [done| |done]. rewrite Hrest by done. unfold wd1. rsimpl.
      by rewrite lookup_insert_eq.
    + apply Forall2_same_length_lookup_2; [by eapply Forall2_length|]. intros k i o' Hi Ho'.
      destruct (Forall2_lookup_lr _ _ _ _ _ _ F2 Hi Ho') as (r0 & r0' & A1 & A2 & A3).
      exists r0, r0'. split_and!; [|done|done]. rewrite <- Hother; [done|].
      intros ->. by apply list_elem_of_lookup_2 in Hi.
  - intros i Hi. apply not_elem_of_cons in Hi as [Hi1 Hi2]. by rewrite Hrest, Hother.
Qed.

(** The identities of the requests of a batch are different. *)
Definition distinct_rids (reqs : list nat) s : Prop :=
  ∀ i j r r', i ∈ reqs → j ∈ reqs → heap (w_of s) !! i = Some r → heap (w_of s) !! j = Some r' →
    rid r = rid r' → i = j.

Lemma distinct_same reqs s s' :
  all_in (λ _, True) (λ _, True) reqs s →
  pairs lineage reqs s s' → distinct_rids reqs s → distinct_rids reqs s'.
Proof.
  intros Hall Hs Hd i j r r' Hi Hj Hr Hr' E.
  destruct (Hall i Hi) as (ri & Hri & _), (Hall j Hj) as (rj & Hrj & _).
  destruct (Hs i ri Hi Hri) as (a & Ha & [Ea _ _ _ _ _]), (Hs j rj Hj Hrj) as (b & Hb & [Eb _ _ _ _ _]).
  eapply Hd; [done..|]. congruence.
Qed.

(** Nothing is sent for a request outside the batch. *)
Definition other_streams (reqs : list nat) s s' : Prop :=
  ∀ x, (∀ id r, id ∈ reqs → heap (w_of s) !! id = Some r → rid r ≠ x) →
    streamed (to_detokenizer s') x = streamed (to_detokenizer s) x.

Lemma streamed_nothing os x :
  Forall (λ o, ∀ e, o = Some e → e_rid e ≠ x) os → streamed [concat (opt_list <$> os)] x = [].
Proof.
  intros F. unfold streamed. cbn [concat]. rewrite app_nil_r.
  induction F as [|o os Ho F IH]; [done|]. cbn [fmap list_fmap concat].
  rewrite filter_app, fmap_app, concat_app. fold (opt_list <$> os). rewrite IH, app_nil_r.
  destruct o as [e|]; [|done]. cbn. rewrite decide_False; [done|by apply Ho].
Qed.

Lemma sframe_size r r' : sframe r r' → same_size r r'.
Proof.
  intros Fr. destruct (sframe_same _ _ Fr) as (E1 & E2 & _ & E4 & E5).
  assert (S : sampling_params r' = sampling_params r ∧ origin_input_ids r' = origin_input_ids r ∧
              return_logprob r' = return_logprob r ∧ req_pool_idx r' = req_pool_idx r).
  { destruct Fr as (?&?&?&?&?&?&?&?&?&?&->). unfold out_set. by rsimpl. }
  destruct S as (? & ? & ? & ?). split; [split; auto|by rewrite E1|done].
Qed.

(** The messages after the rows of a batch. *)
Definition with_rows (reqs : list nat) (rows : list StreamEntry) (ms : list (list StreamEntry)) : list (list StreamEntry) :=
  if bool_decide (reqs = []) then ms else ms ++ [rows].

(** What streaming does to one request, and what it sends. *)
Definition sent_to s (wd : World C) ms' (i : nat) r (o : option StreamEntry) r' : Prop :=
  heap wd !! i = Some r' ∧ Stream.stream_one (args s) false r = Ok (o, r') ∧
  sframe r r' ∧ streamed ms' (rid r) = streamed (to_detokenizer s) (rid r) ++ sent_ids o.

Section Streamed.
Context (s : Scheduler C) (reqs : list nat) (os : list (option StreamEntry)) (wd : World C).
Hypothesis Hd : default_stream_interval (args s) ≠ 0.
Hypothesis F : Forall2 (λ id o, ∃ r r', heap (w_of s) !! id = Some r ∧ heap wd !! id = Some r' ∧
                                        Stream.stream_one (args s) false r = Ok (o, r')) reqs os.

Lemma streamed_frame r o r' :
  Stream.stream_one (args s) false r = Ok (o, r') → sframe r r' ∧ ∀ e, o = Some e → e_rid e = rid r.
Proof using Hd.
  intros E. destruct (stream_one_ok (args s) r Hd) as (o2 & r2 & E2 & Fr & Hr & _).
  rewrite E in E2. by injection E2 as <- <-.
Qed.

Lemma rows_of_request i r :
  NoDup reqs → distinct_rids reqs s → i ∈ reqs → heap (w_of s) !! i = Some r →
  ∃ o r', sent_to s wd (with_rows reqs (concat (opt_list <$> os)) (to_detokenizer s)) i r o r'.
Proof using Hd F.
  intros Hnd Hrid Hi Hr. apply list_elem_of_lookup_1 in Hi as [k Hk].
  destruct (Forall2_lookup_l _ _ _ _ _ F Hk) as (o & Ho & r0 & r' & Hr0 & Hr' & E1).
  assert (r0 = r) as -> by congruence. exists o, r'. split_and!; [done..|by eapply streamed_frame|].
  unfold with_rows. rewrite bool_decide_false by (by destruct reqs). rewrite streamed_app. f_equal.
  set (f := λ i, match heap (w_of s) !! i with Some r => rid r | None => EmptyString end).
  replace (rid r) with (f i) by (unfold f; by rewrite Hr).
  eapply (streamed_rows f reqs os k i o); [| |done|done].
  - apply Forall2_same_length_lookup_2; [by eapply Forall2_length|]. intros j i' o' Hi' Ho'.
    destruct (Forall2_lookup_lr _ _ _ _ _ _ F Hi' Ho') as (x & x' & A1 & _ & A3).
    unfold f. rewrite A1. by eapply streamed_frame.
  - intros i1 i2 x y Hx Hy Exy. unfold f in Exy.
    destruct (Forall2_lookup_l _ _ _ _ _ F Hx) as (_ & _ & rx & _ & Hrx & _).
    destruct (Forall2_lookup_l _ _ _ _ _ F Hy) as (_ & _ & ry & _ & Hry & _).
    rewrite Hrx, Hry in Exy.
    assert (x = y) as -> by (eapply Hrid; [eapply list_elem_of_lookup_2; done..|done|done|done]).
    by eapply NoDup_lookup.
Qed.

Lemma rows_of_others x :
  (∀ id r, id ∈ reqs → heap (w_of s) !! id = Some r → rid r ≠ x) →
  streamed (with_rows reqs (concat (opt_list <$> os)) (to_detokenizer s)) x = streamed (to_detokenizer s) x.
Proof using Hd F.
  intros Hx. unfold with_rows. case_bool_decide; [done|]. rewrite streamed_app.
  rewrite (streamed_nothing os x), app_nil_r; [done|]. apply Forall_forall. intros o Ho e ->.
  apply list_elem_of_lookup_1 in Ho as [k Hk].
  destruct (Forall2_lookup_r _ _ _ _ _ F Hk) as (i & Hi & r & r' & Hr & _ & A3).
  destruct (streamed_frame _ _ _ A3) as [_ Hr2]. rewrite (Hr2 e eq_refl).
  eapply Hx; [by eapply list_elem_of_lookup_2|done].
Qed.

(** Streaming leaves the cache alone. *)
Lemma streamed_steady ms :
  steady tbl s → kv wd = kv (w_of s) → rtp wd = rtp (w_of s) → cache wd = cache (w_of s) →
  (∀ id, id ∉ reqs → heap wd !! id = heap (w_of s) !! id) →
  steady tbl ((set_w wd s) <| to_detokenizer := ms |>).
Proof using Hd F.
  intros [Hl Hdb Hc Ht] K1 K2 K3 Hrest. set (s' := (set_w wd s) <| to_detokenizer := ms |>).
  assert (Ew : w_of s' = wd) by done. split; rewrite ?Ew; [|by rewrite K1|done|by rewrite K2].
  eapply cache_live_frame; [exact Hl|done|by rewrite K2|..].
  - intros i r Hr. destruct (decide (i ∈ reqs)) as [Hi|Hi].
    + apply list_elem_of_lookup_1 in Hi as [k Hk].
      destruct (Forall2_lookup_l _ _ _ _ _ F Hk) as (o & _ & r0 & r' & Hr0 & Hr' & E1).
      assert (r0 = r) as -> by congruence. exists r'. split; [done|left].
      destruct (streamed_frame _ _ _ E1) as [(?&?&?&?&?&?&?&?&?&?&->) _]. unfold out_set. by rsimpl.
    + exists r. rewrite Hrest by done. split; [done|apply same_cache_refl].
  - intros i. destruct (decide (i ∈ reqs)) as [Hi|Hi]; [|by rewrite Hrest].
    apply list_elem_of_lookup_1 in Hi as [k Hk].
    by destruct (Forall2_lookup_l _ _ _ _ _ F Hk) as (o & _ & r0 & r' & -> & _).
Qed.
End Streamed.

Lemma stream_phase s reqs :
  default_stream_interval (args s) ≠ 0 → is_multimodal_gen (args s) = false →
  enable_llm42 (args s) = true → steady tbl s → NoDup reqs → distinct_rids reqs s →
  all_in (concluded V w tbl (to_detokenizer s)) (plain_after tbl) reqs s →
  ∃ s', Stream.stream_output reqs false None s = (Ok tt, s') ∧ steady tbl s' ∧
    args s' = args s ∧ worker (sys s') = worker (sys s) ∧ batch (w_of s') = batch (w_of s) ∧
    kv (w_of s') = kv (w_of s) ∧ cache (w_of s') = cache (w_of s) ∧
    all_in (finalised V w tbl (to_detokenizer s')) (plain_after tbl) reqs s' ∧ pairs same_size reqs s s' ∧
    conserves tbl reqs s s' [] ∧ others reqs s s' ∧ other_streams reqs s s'.
Proof.
  intros Hd Hmm Hllm Hs Hnd Hrid Hall.
  destruct (stream_loop (args s) reqs [] (w_of s) Hd Hnd) as (os & wd & E & F & K1 & K2 & K3 & K4 & Hrest).
  { intros i Hi. destruct (Hall i Hi) as (r & -> & _). done. }
  set (ms' := with_rows reqs (concat (opt_list <$> os)) (to_detokenizer s)).
  set (s' := (set_w wd s) <| to_detokenizer := ms' |>).
  assert (Hone : ∀ i r, i ∈ reqs → heap (w_of s) !! i = Some r → ∃ o r', sent_to s wd ms' i r o r').
  { intros i r Hi Hr. by eapply rows_of_request. }
  assert (Ew : w_of s' = wd) by done.
  exists s'. split_and!; try done.
  - unfold Stream.stream_output, Stream.stream_output_generation.
    rewrite (bind_ok _ _ s (args s) s) by done.
    rewrite (bind_ok _ _ s (concat (opt_list <$> os)) (set_w wd s)) by (by apply on_w_eq).
    rewrite Hmm, orb_false_r, andb_true_r. unfold s', ms', with_rows.
    destruct (bool_decide (reqs = [])); [|done]. destruct s as [[] ? ? ? ? ? ? ? ? ?]. done.
  - by eapply streamed_steady.
  - change (to_detokenizer s') with ms'. intros i Hi. destruct (Hall i Hi) as (r & Hr & HD & HP).
    destruct (Hone i r Hi Hr) as (o & r' & Hr' & E1 & Fr & Es). rewrite Ew. exists r'. split; [done|].
    destruct (sframe_same _ _ Fr) as (_ & _ & _ & -> & _). split; intros Hdet.
    + pose proof (HD Hdet) as Cc. destruct (stream_one_verified (args s) r Hd Hmm) as (o2 & x2 & E2 & So).
      { unfold Stream.needs_verification. by rewrite Hdet, Hllm. }
      { apply Cc. }
      rewrite E1 in E2. injection E2 as <- <-. by eapply streamed_finalised.
    + destruct (stream_one_ok (args s) r Hd) as (o2 & x2 & E2 & _ & _ & Hfo).
      rewrite E1 in E2. injection E2 as <- <-. eapply sframe_plain; [done|done|by apply HP].
  - intros i r Hi Hr. destruct (Hone i r Hi Hr) as (o & r' & Hr' & _ & Fr & _). rewrite Ew.
    exists r'. split; [done|]. by apply sframe_size.
  - apply conserves_same. intros i Hi. destruct (Hall i Hi) as (r & Hr & _).
    destruct (Hone i r Hi Hr) as (o & r' & Hr' & _ & (?&?&?&?&?&?&?&?&?&?&->) & _).
    unfold held_by. rewrite Ew, Hr', Hr. apply held_eq; unfold out_set; by rsimpl.
  - intros x Hx. by eapply rows_of_others.
Qed.

(** ** The whole handler *)

(** The scheduler when the tokens of a decode pass arrive. *)
Record decode_ready s : Prop := {
  dr_llm42 : enable_llm42 (args s) = true;
  dr_stream : default_stream_interval (args s) ≠ 0 ∧ is_multimodal_gen (args s) = false;
  dr_mode : fixed_mode (worker (sys s)) N w;
  dr_steady : steady tbl s;
  dr_batch : batch_ok (w_of s) ∧ b_return_logprob (batch (w_of s)) = false;
  dr_nodup : NoDup (b_reqs (batch (w_of s)));
  dr_rids : distinct_rids (b_reqs (batch (w_of s))) s;
  dr_reqs : all_in (ready_det V w tbl (to_detokenizer s)) (running tbl 0)
              (b_reqs (batch (w_of s))) s
}.

(** The same after the handler. *)
Record decode_done s s' : Prop := {
  dn_steady : steady tbl s';
  dn_args : args s' = args s;
  dn_mode : fixed_mode (worker (sys s')) N w;
  dn_batch : batch_ok (w_of s');
  dn_breqs : b_reqs (batch (w_of s')) = b_reqs (batch (w_of s));
  dn_ids : pairs (evolves w 1) (b_reqs (batch (w_of s))) s s';
  dn_frame : bframe (batch (w_of s)) (batch (w_of s'));
  dn_step : is_Some (b_output_ids (batch (w_of s))) →
    (∀ j id r, b_reqs (batch (w_of s)) !! j = Some id → heap (w_of s) !! id = Some r →
       b_seq_lens (batch (w_of s)) !! j = Some (seqlen r)) → in_step s';
  dn_reqs : all_in (finalised V w tbl (to_detokenizer s')) (plain_after tbl)
              (b_reqs (batch (w_of s))) s';
  dn_page : tree_page_size (cache (w_of s')) = tree_page_size (cache (w_of s));
  dn_others : others (b_reqs (batch (w_of s))) s s';
  dn_streams : other_streams (b_reqs (batch (w_of s))) s s'
}.

Lemma steady_kv k s : steady tbl s → debug_mode k = false → steady tbl (set_w ((w_of s) <| kv := k |>) s).
Proof.
  intros [Hl Hd Hc Ht] Hk. split; rewrite ?w_of_set; rsimpl; [|done..].
  eapply cache_live_frame; [exact Hl|by rsimpl|by rsimpl|..]; rsimpl; [|done].
  intros id r' Hr'. exists r'. split; [done|apply same_cache_refl].
Qed.

Lemma free_group_end_ok k :
  debug_mode k = false → ∃ k', free_group_end k = (Ok tt, k') ∧ debug_mode k' = false.
Proof.
  intros Hd. unfold free_group_end. cbv zeta. case_bool_decide.
  - eexists. split; [done|]. by rsimpl.
  - eexists. apply free_ok. by rsimpl.
Qed.

Lemma all_in_true (D P : Req → Prop) reqs s : all_in D P reqs s → all_in (λ _, True) (λ _, True) reqs s.
Proof. intros Hall id Hin. destruct (Hall id Hin) as (r & Hr & _). by exists r. Qed.

Lemma batch_ok_keeps (D P : Req → Prop) s s' :
  batch_ok (w_of s) → batch (w_of s') = batch (w_of s) →
  all_in D P (b_reqs (batch (w_of s))) s' → batch_ok (w_of s').
Proof.
  intros [B1 B2 B3 B4 B5] E Hall. split; rewrite ?E; try done.
  intros id Hin. destruct (Hall id Hin) as (r & -> & _). done.
Qed.

(** The verification step: the worker, the rollback of memory and the
    completion of the requests that have finished. *)
Record verify_done (ms : list (list StreamEntry)) (reqs : list nat) s s4 (fss : list (list Z)) : Prop := {
  vd_steady : steady tbl s4;
  vd_kv : kv (w_of s4) = frees fss (kv (w_of s));
  vd_args : args s4 = args s;
  vd_out : to_detokenizer s4 = to_detokenizer s;
  vd_mode : fixed_mode (worker (sys s4)) N w;
  vd_batch : batch_ok (w_of s4);
  vd_breqs : b_reqs (batch (w_of s4)) = reqs;
  vd_frame : bframe (batch (w_of s)) (batch (w_of s4));
  vd_page : tree_page_size (cache (w_of s4)) = tree_page_size (cache (w_of s));
  vd_step : is_Some (b_output_ids (batch (w_of s))) → in_step s → in_step s4;
  vd_reqs : all_in (concluded V w tbl ms) (plain_after tbl) reqs s4;
  vd_ids : pairs (evolves w 0) reqs s s4;
  vd_held : conserves tbl reqs s s4 fss;
  vd_others : others reqs s s4
}.

(** Passes that keep the sizes of the requests keep the lengths in step. *)
Lemma in_step_sizes reqs s s' :
  batch_ok (w_of s) → b_reqs (batch (w_of s)) = reqs → batch (w_of s') = batch (w_of s) →
  pairs same_size reqs s s' → in_step s → in_step s'.
Proof.
  intros Hb Er Eb Sz Hi j id r' Hj Hr'. rewrite Eb in *. apply list_elem_of_lookup_2 in Hj as Hin.
  destruct (bo_heap _ Hb id Hin) as [r Hr]. rewrite Er in Hin.
  destruct (Sz id r Hin Hr) as (r2 & Hr2 & Hsz). assert (r2 = r') as -> by congruence.
  rewrite (same_size_seqlen _ _ Hsz). by eapply Hi.
Qed.

Lemma verify_step_ok ms s reqs :
  fixed_shape_determinism V N w → 0 < w → fixed_mode (worker (sys s)) N w → batch_ok (w_of s) →
  steady tbl s → b_reqs (batch (w_of s)) = reqs → NoDup reqs →
  all_in (fresh V w tbl ms) (plain_after tbl) reqs s →
  ∃ s4 fss, Output.verify_step s = (Ok tt, s4) ∧ verify_done ms reqs s s4 fss.
Proof.
  intros Hdet Hw Hm Hb Hs Er Hnd Hall.
  destruct (verify_phase V N w tbl ms s reqs Hdet Hw Hm Hb Hs Er Hnd Hall) as
    (y & out & E2 & Hs2 & Ek2 & Ec2 & Er2 & Hnd2 & Hin2 & Hm2 & Hb2 & Hf2 & Hi2 & Ot2 & Hv2).
  set (s2 := s <| sys := y |>) in *.
  destruct (rollback_phase V w tbl ms s2 reqs out s Hs2 Hnd2 Hnd Hin2 Hv2 Hall)
    as (s3 & fs3 & E3 & K3 & Hs3 & Ek3 & All3 & Id3 & Sz3 & Cv3 & Ot3).
  destruct (finish_phase V w tbl ms s3 reqs Hw Hs3 Hnd All3)
    as (s4 & fs4 & E4 & K4 & Hs4 & Ek4 & All4 & Id4 & Cv4 & Ot4).
  assert (Eb4 : batch (w_of s4) = batch (w_of s2)) by (by rewrite (kp_batch _ _ K4), (kp_batch _ _ K3)).
  assert (Ewk : worker (sys s4) = worker y) by (by rewrite (kp_worker _ _ K4), (kp_worker _ _ K3)).
  exists s4, (concat fs3 ++ concat fs4). split.
  { unfold Output.verify_step. rewrite (bind_ok _ _ s out s2) by (unfold on_sys; by rewrite E2).
    rewrite (bind_ok _ _ _ _ _ E3). rewrite (bind_ok _ _ s3 reqs s3); [done|].
    unfold gets. by rewrite (kp_batch _ _ K3), Er2. }
  split; try done.
  - by rewrite Ek4, Ek3, Ek2, frees_app.
  - by rewrite (kp_args _ _ K4), (kp_args _ _ K3).
  - by rewrite (kp_out _ _ K4), (kp_out _ _ K3).
  - by rewrite Ewk.
  - eapply (batch_ok_keeps _ _ s2); [exact Hb2|done|]. rewrite Er2. exact All4.
  - by rewrite Eb4.
  - by rewrite Eb4.
  - by rewrite (kp_page _ _ K4), (kp_page _ _ K3), Ec2.
  - intros Ho Hst. eapply (in_step_sizes reqs s2); [done|done|done| |by apply Hi2].
    eapply pairs_trans; [|exact Sz3|exact Id4]. exact same_size_trans.
  - eapply pairs_trans; [|exact Id3|exact Id4]. intros r1 r2 r3 A B.
    apply (evolves_trans w 0 0 _ _ _ A). by apply same_size_evolves.
  - by apply (conserves_trans tbl reqs s s3).
  - eapply others_trans; [exact Ot2|]. by eapply others_trans.
Qed.

(** The scheduler when the loop over the new tokens starts: the tokens are
    counted and a group of frees is open. *)
Definition opened s : Scheduler C :=
  let s0 := s <| num_generated_tokens ::= λ n, n + len (b_reqs (batch (w_of s))) |> in
  set_w ((w_of s0) <| kv := Base.free_group_begin (kv (w_of s0)) |>) s0.

Lemma opened_steady s : steady tbl s → steady tbl (opened s).
Proof.
  intros Hs. apply steady_kv; [destruct Hs; by split|].
  unfold Base.free_group_begin. rsimpl. apply Hs.
Qed.

(** Closing the group of frees and counting the pass do not concern the
    requests. *)
Definition closed s5 (k' : Allocator) : Scheduler C :=
  (set_w ((w_of s5) <| kv := k' |>) s5) <| forward_ct_decode ::= λ n, (n + 1) mod 2 ^ 30 |>.

Lemma closing s5 :
  steady tbl s5 → ∃ k', free_group_end (kv (w_of s5)) = (Ok tt, k') ∧ steady tbl (closed s5 k') ∧
    on_w (on_kv free_group_end) s5 = (Ok tt, set_w ((w_of s5) <| kv := k' |>) s5).
Proof.
  intros Hs5. destruct (free_group_end_ok (kv (w_of s5))) as (k' & E6 & Hk'); [apply Hs5|].
  exists k'. split_and!; [done| |].
  - destruct (steady_kv k' s5 Hs5 Hk') as [Hl Hdb Hc Ht]. by split.
  - rewrite (on_w_eq _ s5 (Ok tt) ((w_of s5) <| kv := k' |>)); [done|]. unfold on_kv. by rewrite E6.
Qed.

Lemma closed_done s s5 k' : steady tbl (closed s5 k') → decode_done s s5 → decode_done s (closed s5 k').
Proof.
  intros Hs [_ D2 D3 D4 D5 D6 D7 D8 D9 D10 D11 D12]. split; [done|exact D2|exact D3| |exact D5|exact D6|exact D7|exact D8|
    exact D9|exact D10|exact D11|exact D12].
  destruct D4 as [B1 B2 B3 B4 B5]. by split.
Qed.

(** The scheduler after the last phase. *)
Lemma stream_after_verify s s1 s4 fs4 :
  let reqs := b_reqs (batch (w_of s)) in
  decode_ready s → keeps (opened s) s1 → 
  pairs (λ r r', evolves w 1 r r' ∧ seqlen r' = seqlen r + 1) reqs s s1 → others reqs s s1 →
  verify_done (to_detokenizer s) reqs s1 s4 fs4 →
  ∃ s5, Stream.stream_output reqs false None s4 = (Ok tt, s5) ∧ decode_done s s5 ∧
    kv (w_of s5) = kv (w_of s4) ∧ conserves tbl reqs s4 s5 [].
Proof.
  intros reqs [Ha [Hd Hmm] Hm Hs [Hb Hlp] Hnd Hrid Hall] K1 Id1 Ot1 D4.
  assert (Eb1 : batch (w_of s1) = batch (w_of s)) by exact (kp_batch _ _ K1).
  assert (Eout : to_detokenizer s4 = to_detokenizer s) by (rewrite (vd_out _ _ _ _ _ D4); exact (kp_out _ _ K1)).
  assert (Eargs : args s4 = args s) by (rewrite (vd_args _ _ _ _ _ D4); exact (kp_args _ _ K1)).
  assert (Id04 : pairs (evolves w 1) reqs s s4).
  { eapply (pairs_trans _ (evolves w 0) _ reqs s s1); [|exact Id1|apply D4].
    intros r1 r2 r3 [A _] B. exact (evolves_trans w 1 0 _ _ _ A B). }
  destruct (stream_phase s4 reqs) as (s5 & E5 & Hs5 & Ea5 & Ew5 & Eb5 & Ek5 & Ec5 & All5 & Id5 & Cv5 & Ot5 & Os5);
    rewrite ?Eargs, ?Eout; try done; try apply D4.
  { apply (distinct_same reqs s s4 (all_in_true _ _ _ _ Hall)); [|done].
    eapply pairs_impl; [|exact Id04]. by intros r r' [? _]. }
  exists s5. split_and!; try done. split; try done.
  - by rewrite Ea5.
  - rewrite Ew5. apply D4.
  - eapply (batch_ok_keeps _ _ s4); [apply D4|done|]. rewrite (vd_breqs _ _ _ _ _ D4). exact All5.
  - by rewrite Eb5, (vd_breqs _ _ _ _ _ D4).
  - apply (pairs_trans (evolves w 1) same_size (evolves w 1) reqs s s4 s5); [|done..].
    intros r1 r2 r3 A B. apply (evolves_trans w 1 0 _ _ _ A). by apply same_size_evolves.
  - rewrite Eb5, <- Eb1. apply D4.
  - intros Ho Hst. eapply (in_step_sizes reqs s4); [apply D4|apply D4|done|done|].
    apply (vd_step _ _ _ _ _ D4); rewrite ?Eb1; [done|]. intros j id r1 Hj Hr1. rewrite Eb1 in *.
    apply list_elem_of_lookup_2 in Hj as Hin. destruct (Hall id Hin) as (r & Hr & _).
    destruct (Id1 id r Hin Hr) as (r1' & Hr1' & _ & El). assert (r1' = r1) as -> by congruence.
    rewrite (Hst j id r Hj Hr). f_equal. lia.
  - rewrite Ec5, (vd_page _ _ _ _ _ D4). exact (kp_page _ _ K1).
  - eapply others_trans; [exact Ot1|]. eapply others_trans; [apply D4|exact Ot5].
  - intros x Hx. rewrite Os5, Eout; [done|]. intros id r4 Hin Hr4. destruct (Hall id Hin) as (r & Hr & _).
    destruct (Id04 id r Hin Hr) as (r4' & Hr4' & [[Ei _ _ _ _ _] _]).
    assert (r4' = r4) as -> by congruence. rewrite Ei. by eapply Hx.
Qed.

Lemma decode_pass_ok s result :
  fixed_shape_determinism V N w → 0 < w → decode_ready s →
  length (next_token_ids result) = length (b_reqs (batch (w_of s))) →
  ∃ s' fss k', Output.process_batch_result_decode result s = (Ok tt, s') ∧ decode_done s s' ∧
    free_group_end (frees fss (Base.free_group_begin (kv (w_of s)))) = (Ok tt, k') ∧
    kv (w_of s') = k' ∧ conserves tbl (b_reqs (batch (w_of s))) s s' fss.
Proof.
  intros Hdet Hw Hready Hlen. pose proof Hready as [Ha _ Hm Hs [Hb Hlp] Hnd _ Hall].
  set (reqs := b_reqs (batch (w_of s))) in *. set (a := args s) in *.
  unfold Output.process_batch_result_decode.
  rewrite (bind_ok _ _ s a s) by done. rewrite (bind_ok _ _ s (batch (w_of s)) s) by done.
  rewrite Hlp. rewrite (bind_ok _ _ s None s) by done.
  rewrite (bind_ok _ _ s tt (s <| num_generated_tokens ::= λ n, n + len reqs |>)) by done.
  rewrite (bind_ok _ _ _ tt (opened s)) by done. fold reqs.
  destruct (decode_phase V w tbl a (to_detokenizer s) (opened s) reqs (next_token_ids result) Ha
    (opened_steady s Hs) Hnd Hlen Hall) as (s1 & fs1 & E1 & K1 & Hs1 & Ek1 & All1 & Id1 & Cv1 & Ot1).
  rewrite (bind_ok _ _ _ _ _ E1). rewrite Ha.
  assert (Eb1 : batch (w_of s1) = batch (w_of s)) by exact (kp_batch _ _ K1).
  destruct (verify_step_ok (to_detokenizer s) s1 reqs Hdet) as (s4 & fs4 & E4 & D4); try done.
  { rewrite (kp_worker _ _ K1). exact Hm. }
  { eapply batch_ok_keeps; [exact Hb|done|exact All1]. }
  { by rewrite Eb1. }
  rewrite (bind_ok _ _ _ _ _ E4).
  destruct (stream_after_verify s s1 s4 fs4 Hready K1 Id1 Ot1 D4) as (s5 & E5 & D5 & Ek5 & Cv5).
  rewrite (bind_ok _ _ _ _ _ E5). destruct (closing s5 (dn_steady _ _ D5)) as (k' & E6 & Hs7 & Ec).
  rewrite (bind_ok _ _ _ _ _ Ec).
  exists (closed s5 k'), (concat fs1 ++ fs4), k'. split; [done|]. split_and!; [by apply closed_done| |done|].
  - rewrite Ek5, (vd_kv _ _ _ _ _ D4), Ek1 in E6. by rewrite frees_app.
  - rewrite <- (app_nil_r fs4). apply (conserves_trans tbl reqs s s1); [exact Cv1|].
    apply (conserves_trans tbl reqs s1 s4); [apply D4|exact Cv5].
Qed.
End Pass.
