(* ===== verification/PrefillPass.v ===== *)
(** * The results of a prefill pass

    [process_batch_result_prefill] on a batch whose prompts end with the
    pass, without prefix caching: every request gets its first token, a
    deterministic one counts it as verified, and the messages go out. *)

From S2P Require Import Prelude PyFloat Allocator AllocatorFacts Request ReqPool LLM42Info InfoFacts World MemCommon CacheLaws LLM42Worker Verifier WorkerFacts Scheduler OutputProcessor OutputFacts DecodeFacts DecodeStep DecodePass.
Import Batch Finish OneStream Pass Step.

(** ** Loops that carry a constant *)

Section Constant.
Context {S A B : Type} `{EqDecision B}.

(** The body as a command that fails when it would change the constant *)
Definition constantly (f : B → A → M S B) (b : B) (x : A) : M S unit := λ s,
  match f b x s with
  | (Ok b', s') => if decide (b' = b) then (Ok tt, s') else (Raise AssertionError, s')
  | (Raise e, s') => (Raise e, s')
  end.

Lemma constantly_ok f b x s s' : f b x s = (Ok b, s') → constantly f b x s = (Ok tt, s').
Proof. intros E. unfold constantly. rewrite E. by rewrite decide_True. Qed.

Lemma foldM_constant f b xs s s' : for_ xs (constantly f b) s = (Ok tt, s') → foldM f b xs s = (Ok b, s').
Proof.
  revert s. induction xs as [|x xs IH]; intros s; cbn [for_ foldM]; [by intros [= <-]|].
  unfold constantly at 1. destruct (f b x s) as [[b'|e] s1] eqn:E; [|done].
  destruct (decide (b' = b)) as [->|]; [|done]. apply IH.
Qed.
End Constant.

(** ** One request *)

Section Prefill.
Context `{Externals} `{Model}.
Implicit Types (s : Scheduler ChunkCache) (r : Req).

(** The first output of a deterministic request is its own reference. *)
Definition first_verified (a : ServerArgs) r : Req :=
  if is_deterministic r && enable_llm42 a && (len (output_ids r) =? 1)
  then r <| llm42_verified_tokens := 1 |> else r.

(** The request after its token and the check *)
Definition prefilled (tbl : list (list Z)) (a : ServerArgs) (token : Z) r r' (fs : list (list Z)) : Prop :=
  ∃ r1, checked (first_verified a (append token r)) r1 ∧
    (finished r1 = false → len (output_ids r1) < max_new_tokens (sampling_params r1)) ∧
    (if finished r1 then done_rel (C := ChunkCache) tbl true r1 r' fs
     else ∃ ix, r' = r1 <| prefix_indices := ix |> ∧ fs = []).

Lemma first_verified_cases a r :
  first_verified a r = r ∨ first_verified a r = r <| llm42_verified_tokens := 1 |>.
Proof. unfold first_verified. destruct (_ && _); auto. Qed.

Lemma first_verified_holding tbl a r : holding tbl r → holding tbl (first_verified a r).
Proof.
  intros Hh. destruct (first_verified_cases a r) as [->| ->]; [done|].
  destruct Hh as [A1 A2 A3 [B1 B2 B3 B4] A5 A6 A7 A8]. split; done || by split.
Qed.

Lemma first_verified_cache a token r r1 :
  checked (first_verified a (append token r)) r1 → same_cache r r1.
Proof.
  intros Hc. left. destruct (ck_frame _ _ Hc) as (x & y & z & u & ->). unfold fin_set. rsimpl.
  destruct (first_verified_cases a (append token r)) as [->| ->]; unfold append; by rsimpl.
Qed.

Lemma chunk_unfinished_ok tbl (wd : World ChunkCache) id r chunked :
  heap wd !! id = Some r → req_to_token (rtp wd) = tbl →
  (∃ row l, req_pool_idx r = Some row ∧ 0 ≤ row ∧ tbl !! Z.to_nat row = Some l) →
  ∃ ix, cache_unfinished_req id chunked wd
        = (Ok tt, wd <| heap ::= <[id := r <| prefix_indices := ix |>]> |>).
Proof.
  intros Hr Ht (row & l & Er & Hp & El). exists (slice l 0 (len (fill_ids r))).
  cbn [cache_unfinished_req chunk_cache]. unfold Chunk.cache_unfinished_req.
  rewrite (bind_ok _ _ wd r wd) by (unfold req_at; by rewrite Hr).
  rewrite (bind_ok _ _ wd row wd) by (unfold lift; by rewrite Er).
  rewrite (bind_ok _ _ wd (rtp wd) wd) by done.
  rewrite (bind_ok _ _ wd (slice l 0 (len (fill_ids r))) wd); [done|].
  unfold lift. rewrite (read_row_ok _ _ l); [done|done|by rewrite Ht].
Qed.

Lemma prefill_step_ok tbl a b result i id token s r :
  b_return_logprob b = false → b_decoding_reqs b = None →
  steady tbl s → heap (w_of s) !! id = Some r → running tbl 0 r → is_chunked r ≤ 0 →
  ∃ s' r' fs, constantly (Output.prefill_step a b result) (None, 0) (i, (id, token)) s = (Ok tt, s') ∧
    stepped id r' fs s s' ∧ prefilled tbl a token r r' fs ∧ steady tbl s'.
Proof.
  intros Hlp Hdec Hs Hr Hrun Hck.
  destruct (check_finished_ok (first_verified a (append token r))) as (r1 & E1 & Hc & Hroom).
  { destruct (first_verified_cases a (append token r)) as [->| ->]; [apply append_nonempty|]. rsimpl. apply append_nonempty. }
  { destruct (first_verified_cases a (append token r)) as [->| ->]; unfold append; rsimpl; apply Hrun. }
  set (s1 := set_w ((w_of s) <| heap ::= <[id := r1]> |>) s).
  assert (Hr1 : heap (w_of s1) !! id = Some r1) by apply lookup_insert_eq.
  pose proof (steady_set tbl id r r1 s Hs Hr (first_verified_cache _ _ _ _ Hc)) as Hs1.
  pose proof (stepped_set id r r1 s Hr) as St1. fold s1 in Hs1, St1.
  pose proof (checked_holding tbl _ _ Hc (first_verified_holding tbl a _ (running_append tbl token r Hrun))) as Hh.
  assert (Hmid : ∃ s2 r2 fs,
    (if finished r1 then Output.complete id else on_w (cache_unfinished_req id false)) s1 = (Ok tt, s2) ∧
    stepped id r2 fs s1 s2 ∧ steady tbl s2 ∧ grammar r2 = None ∧
    (if finished r1 then done_rel (C := ChunkCache) tbl true r1 r2 fs else ∃ ix, r2 = r1 <| prefix_indices := ix |> ∧ fs = [])).
  { destruct (finished r1).
    - destruct (complete_ok tbl s1 id r1 Hs1 Hr1 (ho_rel _ _ Hh)) as (s2 & E2 & St2 & Hs2).
      exists s2, (completed (clock s1) r1), (released (w_of s1) r1 true). split_and!; [done|done|done| |].
      + unfold completed, released_req. rsimpl. apply Hh.
      + exists (clock s1), (w_of s1). split_and!; [apply Hs1|apply Hs1|done|done].
    - destruct (chunk_unfinished_ok tbl (w_of s1) id r1 false Hr1) as (ix & E2); [apply Hs1| |].
      { destruct (rl_row _ _ (ho_rel _ _ Hh)) as (row & l & ? & ? & ? & _). by exists row, l. }
      exists (set_w ((w_of s1) <| heap ::= <[id := r1 <| prefix_indices := ix |>]> |>) s1), (r1 <| prefix_indices := ix |>), [].
      split_and!; [by apply on_w_eq|by eapply stepped_set| |rsimpl; apply Hh|by exists ix].
      destruct Hs1 as [_ ? ? ?]. by split. }
  destruct Hmid as (s2 & r2 & fs & E2 & St2 & Hs2 & Hg2 & Hend).
  exists s2, r2, fs. split_and!; [|by apply (stepped_trans id r1 _ [] _ s s1 s2)|by exists r1|done].
  apply constantly_ok. unfold Output.prefill_step. rewrite (bind_ok _ _ _ _ _ (on_w_req s id r Hr)).
  assert (Hnf : finished r = false) by (unfold finished; by rewrite (ru_finish _ _ _ Hrun)).
  rewrite Hnf, (ru_here _ _ _ Hrun). cbn [orb]. destruct (Z.leb_spec (is_chunked r) 0); [|lia].
  rewrite (bind_ok _ _ s 0 s2); [done|]. unfold Output.prefill_done.
  rewrite (bind_ok _ _ _ _ _ (on_w_req s id r Hr)).
  rewrite (bind_ok _ _ s r1 s) by (unfold lift; by rewrite (E1 : Output.prefill_token a token r = Ok r1)).
  rewrite (bind_ok _ _ s tt s1) by apply on_w_set. rewrite Hdec.
  rewrite (bind_ok _ _ s1 tt s2) by (by destruct (finished r1)).
  rewrite Hlp, (bind_ok _ _ s2 0 s2) by done.
  rewrite (bind_ok _ _ s2 tt s2); [done|]. eapply accept_plain; [|done].
  by rewrite (st_heap _ _ _ _ _ St2), lookup_insert_eq.
Qed.

(** ** The states of a request *)

(** One more token *)
Definition grows r r' : Prop := lineage r r' ∧ seqlen r' = seqlen r + 1.

Lemma grows_size r1 r2 r3 : grows r1 r2 → same_size r2 r3 → grows r1 r3.
Proof.
  intros [L E] S. split; [eapply lineage_trans; [exact L|apply S]|]. by rewrite (same_size_seqlen _ _ S).
Qed.

Section States.
Context (V : SamplingParams → list Z → Z) (w : Z) (tbl : list (list Z)) (ms : list (list StreamEntry)).

(** A request whose prompt was computed, and nothing else *)
Record first_token (token : Z) r : Prop := {
  ft_running : running tbl 0 r;
  ft_chunk : is_chunked r ≤ 0;
  ft_det : is_deterministic r = true →
    tracked V ms r ∧ output_ids r = [] ∧ token = V (sampling_params r) (origin_input_ids r)
}.

Lemma prefix_running d ix r : running tbl d r → running tbl d (r <| prefix_indices := ix |>).
Proof. intros []. by split. Qed.

Lemma prefix_tracked ix r : tracked V ms r → tracked V ms (r <| prefix_indices := ix |>).
Proof. intros [? [] ? ?]. split; [done|by split|done|done]. Qed.

(** The first token is the reference. *)
Lemma first_tracked a token r :
  enable_llm42 a = true → is_deterministic r = true → first_token token r →
  tracked V ms (first_verified a (append token r)) ∧
  llm42_verified_tokens (first_verified a (append token r)) = len (output_ids (first_verified a (append token r))) ∧
  len (output_ids (first_verified a (append token r))) = 1.
Proof.
  intros Ha Hd [Hr _ Hft]. destruct (Hft Hd) as ([[Hv Hg] [S1 S2 S3] T3 T4] & Eo & ->).
  set (t := V (sampling_params r) (origin_input_ids r)).
  assert (E : first_verified a (append t r) = r <| output_ids := [t] |> <| llm42_verified_tokens := 1 |>).
  { assert (E0 : append t r = r <| output_ids := [t] |>) by (unfold append; destruct r; cbn in Eo; by subst).
    unfold first_verified. rewrite E0. rsimpl. by rewrite Hd, Ha. }
  rewrite E. rsimpl. split_and!; [|done|done].
  assert (Es : send_token_offset r = 0) by (rewrite Eo, len_nil in S2; lia).
  split; [split|split|..]; rsimpl; try done.
  - lia.
  - rewrite Es. rewrite Es, Eo in T3. exact T3.
Qed.

Lemma prefilled_concluded a token r r' fs :
  0 < w → enable_llm42 a = true → is_deterministic r = true → first_token token r →
  prefilled tbl a token r r' fs → concluded V w tbl ms r' ∧ is_deterministic r' = true.
Proof.
  intros Hw Ha Hd Hft (r1 & Hc & Hroom & Hend).
  destruct (first_tracked a token r Ha Hd Hft) as (T0 & Ev0 & El0).
  pose proof (first_verified_holding tbl a _ (running_append tbl token r (ft_running _ _ Hft))) as Hh0.
  assert (Hm : len (output_ids (first_verified a (append token r)))
               ≤ max_new_tokens (sampling_params (first_verified a (append token r)))).
  { rewrite El0. pose proof (ru_room _ _ _ (ft_running _ _ Hft)) as Hrm. pose proof (len_nonneg (output_ids r)).
    destruct (first_verified_cases a (append token r)) as [->| ->]; unfold append; rsimpl; lia. }
  destruct (checked_verified V ms _ _ Hc T0 Ev0 Hm) as (T1 & Eo & Ev).
  destruct (checked_same _ _ Hc) as (_ & _ & _ & _ & _ & _ & S7 & S8 & _).
  assert (Hd1 : is_deterministic r1 = true).
  { rewrite S7. destruct (first_verified_cases a (append token r)) as [->| ->]; unfold append; by rsimpl. }
  pose proof (checked_holding tbl _ _ Hc Hh0) as Hh1.
  destruct (finished r1) eqn:Ef.
  - destruct Hend as (t & wd & Ht & _ & -> & _). split; [|unfold completed, released_req; by rsimpl].
    split; [by apply completed_tracked|..]; unfold completed, released_req, finished in *; rsimpl.
    + intros _. rewrite Ev, Eo, S8. split_and!; [done|done|apply Hh0].
    + by destruct (finished_reason r1).
  - destruct Hend as (ix & -> & _). split; [|by rsimpl]. split; [by apply prefix_tracked|..].
    + unfold finished in *. rsimpl. by rewrite Ef.
    + intros _. split; [apply prefix_running, holding_running; auto|]. rsimpl. rewrite Ev, Eo. lia.
Qed.

Lemma prefilled_plain a token r r' fs :
  is_deterministic r = false → running tbl 0 r → prefilled tbl a token r r' fs →
  plain_after tbl r' ∧ is_deterministic r' = false.
Proof.
  intros Hd Hrun (r1 & Hc & Hroom & Hend).
  assert (E0 : first_verified a (append token r) = append token r).
  { unfold first_verified. by rewrite (Hd : is_deterministic (append token r) = false). }
  rewrite E0 in Hc. pose proof (checked_holding tbl _ _ Hc (running_append tbl token r Hrun)) as Hh1.
  destruct (checked_same _ _ Hc) as (_ & _ & _ & _ & _ & _ & S7 & _).
  assert (Hd1 : is_deterministic r1 = false) by (rewrite S7; exact Hd).
  destruct (finished r1) eqn:Ef.
  - destruct Hend as (t & wd & Ht & _ & -> & _). split; [|unfold completed, released_req; by rsimpl].
    split; unfold completed, released_req, finished in *; rsimpl; [apply Hh1|lia|done|by destruct (finished_reason r1)].
  - destruct Hend as (ix & -> & _). split; [|by rsimpl]. split; rsimpl; [apply Hh1|by rewrite (ho_time _ _ Hh1)| |].
    + unfold finished in *. rsimpl. by rewrite Ef.
    + intros _. apply prefix_running, holding_running; auto.
Qed.

(** Identity, size and memory *)
Lemma prefilled_grows a token r r' fs : prefilled tbl a token r r' fs → grows r r'.
Proof.
  intros (r1 & Hc & _ & Hend).
  assert (G0 : grows r (first_verified a (append token r))).
  { split; destruct (first_verified_cases a (append token r)) as [->| ->]; unfold append, seqlen; try (split; rsimpl; by auto);
      rsimpl; rewrite len_app, len_cons, len_nil; lia. }
  apply (grows_size _ r1); [by eapply grows_size, checked_size|].
  destruct (finished r1).
  - by apply (done_size (C := ChunkCache) tbl true r1 r' fs).
  - destruct Hend as (ix & -> & _). split; [split|..]; rsimpl; auto.
Qed.

Lemma prefilled_held a token r r' fs :
  exact_release (C := ChunkCache) tbl → kv_committed_freed r = false → prefilled tbl a token r r' fs →
  held tbl r ≡ₚ held tbl r' ++ concat fs.
Proof.
  intros Hex Hf (r1 & Hc & _ & Hend).
  assert (E1 : held tbl r1 = held tbl r).
  { rewrite (held_checked tbl _ _ Hc).
    destruct (first_verified_cases a (append token r)) as [->| ->]; apply held_eq; unfold append; by rsimpl. }
  rewrite <- E1. destruct (finished r1).
  - eapply held_done; [done| |exact Hend]. destruct (ck_frame _ _ Hc) as (? & ? & ? & ? & ->). unfold fin_set. rsimpl.
    destruct (first_verified_cases a (append token r)) as [->| ->]; unfold append; by rsimpl.
  - destruct Hend as (ix & -> & ->). cbn. rewrite app_nil_r. by rewrite (held_eq tbl r1 (r1 <| prefix_indices := ix |>)).
Qed.
End States.

(** ** The pass *)

Section Pass.
Context (V : SamplingParams → list Z → Z) (w : Z) (tbl : list (list Z)).

(** The scheduler when the tokens of a prefill pass arrive *)
Record prefill_ready (toks : list Z) s : Prop := {
  pr_llm42 : enable_llm42 (args s) = true;
  pr_stream : default_stream_interval (args s) ≠ 0 ∧ is_multimodal_gen (args s) = false;
  pr_steady : steady tbl s;
  pr_batch : b_return_logprob (batch (w_of s)) = false ∧ b_decoding_reqs (batch (w_of s)) = None;
  pr_nodup : NoDup (b_reqs (batch (w_of s)));
  pr_rids : distinct_rids (b_reqs (batch (w_of s))) s;
  pr_toks : length toks = length (b_reqs (batch (w_of s)));
  pr_reqs : ∀ j id token, b_reqs (batch (w_of s)) !! j = Some id → toks !! j = Some token →
    ∃ r, heap (w_of s) !! id = Some r ∧ first_token V tbl (to_detokenizer s) token r
}.

Lemma enumerate_zip (reqs : list nat) (toks : list Z) x :
  x ∈ enumerate (zip reqs toks) → ∃ j, reqs !! j = Some x.2.1 ∧ toks !! j = Some x.2.2.
Proof.
  intros [k Hk]%list_elem_of_lookup_1. unfold enumerate in Hk.
  apply lookup_zip_with_Some in Hk as (i & y & -> & _ & Hy). cbn.
  apply lookup_zip_with_Some in Hy as (id & t & -> & Hi & Ht). by exists k.
Qed.

Lemma prefill_phase b result s reqs toks :
  let a := args s in
  0 < w → enable_llm42 a = true → b_return_logprob b = false → b_decoding_reqs b = None →
  steady tbl s → NoDup reqs → length toks = length reqs →
  (∀ j id token, reqs !! j = Some id → toks !! j = Some token →
     ∃ r, heap (w_of s) !! id = Some r ∧ first_token V tbl (to_detokenizer s) token r) →
  ∃ s1 fss, foldM (Output.prefill_step a b result) (None, 0) (enumerate (zip reqs toks)) s = (Ok (None, 0), s1) ∧
    keeps s s1 ∧ steady tbl s1 ∧ kv (w_of s1) = frees (concat fss) (kv (w_of s)) ∧
    all_in (concluded V w tbl (to_detokenizer s)) (plain_after tbl) reqs s1 ∧ pairs grows reqs s s1 ∧
    conserves tbl reqs s s1 (concat fss) ∧ others reqs s s1.
Proof.
  intros a Hw Ha Hlp Hdec Hs Hnd Hl Hall.
  destruct (for_stepped (λ x : Z * (nat * Z), x.2.1) (constantly (Output.prefill_step a b result) (None, 0))
    (steady tbl) (λ x r, first_token V tbl (to_detokenizer s) x.2.2 r)
    (λ x r r' fs, prefilled tbl a x.2.2 r r' fs ∧ first_token V tbl (to_detokenizer s) x.2.2 r)
    (enumerate (zip reqs toks))) with (s := s) as (s1 & fss & E & K & Hs1 & Ek & F & Hrest).
  - intros [i [id token]] s' r _ Hs' Hr Hft.
    destruct (prefill_step_ok tbl a b result i id token s' r Hlp Hdec Hs' Hr (ft_running _ _ _ _ _ Hft) (ft_chunk _ _ _ _ _ Hft))
      as (s'' & r' & fs & E & St & D & Hs''). by exists s'', r', fs.
  - by rewrite keys_zip.
  - done.
  - intros x Hx. destruct (enumerate_zip _ _ _ Hx) as (j & Hj & Ht). by apply (Hall j).
  - (* what happened to one request *)
    assert (Hone : ∀ id, id ∈ reqs → ∃ token r r' fs, heap (w_of s) !! id = Some r ∧
      heap (w_of s1) !! id = Some r' ∧ prefilled tbl a token r r' fs ∧ first_token V tbl (to_detokenizer s) token r).
    { intros id Hin. rewrite <- (keys_zip reqs toks Hl) in Hin. apply list_elem_of_fmap in Hin as (x & -> & Hx).
      apply list_elem_of_lookup_1 in Hx as [k Hk].
      destruct (Forall2_lookup_l _ _ _ _ _ F Hk) as (fs & _ & r & r' & Hr & Hr' & D & Hf). by exists x.2.2, r, r', fs. }
    exists s1, fss. split_and!; [by apply foldM_constant|done..| | | |].
    + intros id Hin. destruct (Hone id Hin) as (t & r & r' & fs & Hr & Hr' & D & Hf). exists r'. split; [done|].
      destruct (is_deterministic r) eqn:Ed.
      * destruct (prefilled_concluded V w tbl _ a t r r' fs Hw Ha Ed Hf D) as [Hc Hd']. split; [done|congruence].
      * destruct (prefilled_plain tbl a t r r' fs Ed (ft_running _ _ _ _ _ Hf) D) as [Hc Hd']. split; [congruence|done].
    + intros id r Hin Hr. destruct (Hone id Hin) as (t & r0 & r' & fs & Hr0 & Hr' & D & _).
      assert (r0 = r) as -> by congruence. exists r'. split; [done|]. by eapply prefilled_grows.
    + rewrite <- (keys_zip reqs toks Hl). eapply conserves_loop; [exact F|].
      intros Hx x r r' fs [D Hf]. eapply prefilled_held; [done| |exact D]. apply (ft_running _ _ _ _ _ Hf).
    + intros id Hid. apply Hrest. by rewrite keys_zip.
Qed.

(** The state after the pass *)
Record prefill_done s s' : Prop := {
  pd_steady : steady tbl s';
  pd_args : args s' = args s;
  pd_worker : worker (sys s') = worker (sys s);
  pd_batch : batch (w_of s') = batch (w_of s);
  pd_page : tree_page_size (cache (w_of s')) = tree_page_size (cache (w_of s));
  pd_reqs : all_in (finalised V w tbl (to_detokenizer s')) (plain_after tbl) (b_reqs (batch (w_of s))) s';
  pd_ids : pairs grows (b_reqs (batch (w_of s))) s s';
  pd_others : others (b_reqs (batch (w_of s))) s s';
  pd_streams : other_streams (b_reqs (batch (w_of s))) s s'
}.

Lemma prefill_pass_ok s result :
  0 < w → prefill_ready (next_token_ids result) s →
  ∃ s' fss, Output.process_batch_result_prefill result s = (Ok tt, s') ∧ prefill_done s s' ∧
    kv (w_of s') = frees fss (kv (w_of s)) ∧ conserves tbl (b_reqs (batch (w_of s))) s s' fss.
Proof.
  intros Hw [Ha [Hd Hmm] Hs [Hlp Hdec] Hnd Hrid Hl Hall]. set (reqs := b_reqs (batch (w_of s))) in *.
  destruct (prefill_phase (batch (w_of s)) result s reqs (next_token_ids result) Hw Ha Hlp Hdec Hs Hnd Hl Hall)
    as (s1 & fss & E1 & K1 & Hs1 & Ek1 & All1 & Id1 & Cv1 & Ot1).
  assert (All0 : all_in (λ _, True) (λ _, True) reqs s).
  { intros id Hin. apply list_elem_of_lookup_1 in Hin as [j Hj]. apply lookup_lt_Some in Hj as Hlt. rewrite <- Hl in Hlt.
    destruct (lookup_lt_is_Some_2 _ _ Hlt) as [t Ht]. destruct (Hall j id t Hj Ht) as (r & Hr & _). by exists r. }
  destruct (stream_phase V w tbl s1 reqs) as (s2 & E2 & Hs2 & Ea2 & Ew2 & Eb2 & Ek2 & Ec2 & All2 & Id2 & Cv2 & Ot2 & Os2);
    rewrite ?(kp_args _ _ K1); try done.
  { apply (distinct_same reqs s s1); try done. eapply pairs_impl; [|exact Id1]. by intros ? ? []. } { by rewrite (kp_out _ _ K1). }
  exists s2, (concat fss ++ []). split_and!.
  - unfold Output.process_batch_result_prefill. rewrite (bind_ok _ _ s (args s) s) by done.
    rewrite (bind_ok _ _ s (batch (w_of s)) s) by done. fold reqs. rewrite (bind_ok _ _ _ _ _ E1). by rewrite Hlp.
  - assert (Id02 : pairs grows reqs s s2).
    { eapply (pairs_trans grows same_size); [|exact Id1|exact Id2]. apply grows_size. }
    split; fold reqs; try done.
    + by rewrite Ea2, (kp_args _ _ K1).
    + by rewrite Ew2, (kp_worker _ _ K1).
    + by rewrite Eb2, (kp_batch _ _ K1).
    + by rewrite Ec2, (kp_page _ _ K1).
    + by eapply others_trans.
    + intros x Hx. rewrite Os2, (kp_out _ _ K1); [done|]. intros id r1 Hin Hr1.
      destruct (All0 id Hin) as (r & Hr & _). destruct (Id1 id r Hin Hr) as (r1' & Hr1' & L & _).
      assert (r1' = r1) as -> by congruence. rewrite (li_rid _ _ L). by eapply Hx.
  - by rewrite Ek2, Ek1, app_nil_r.
  - by eapply conserves_trans.
Qed.
End Pass.
End Prefill.
