(* ===== verification/DecodeClaims.v ===== *)
(** * Claims on the decode pass *)

From S2P Require Import Prelude PyFloat Allocator AllocatorFacts Request ReqPool LLM42Info Demo InfoFacts World MemCommon CacheLaws LLM42Worker Verifier WorkerFacts WorkerClaims Scheduler OutputProcessor OutputFacts DecodeFacts DecodeStep DecodePass.
Import Compare Batch Fixed Finish OneStream VPoolFacts Pass Step.

(** ** The slots of a decode pass *)

(** A [ChunkCache] hands back every slot of a finished request. *)
Lemma chunk_exact tbl : exact_release (C := ChunkCache) tbl.
Proof. intros wd r Ht. cbn. by rewrite Ht, app_nil_r. Qed.

(** ** A small server

    Window and number of requests per pass as in [DemoSys]; request 2 is not
    deterministic. *)

Module DemoSched.

#[export] Instance externals : Externals := {|
  tok_decode _ := ""; re_search _ _ := false; gr_is_terminated _ := false;
  gr_accepts _ _ := true; uninit := 0
|}.

Definition V : SamplingParams → list Z → Z := λ _ ctx, (default 0 (last ctx) + 1) mod 1000.

(** A request whose KV covers all its tokens, as it does when the next token
    arrives. *)
Definition req (id : string) (row : option Z) (prompt outs : list Z) (verified : Z) : Req :=
  let r := Demo.req id row prompt outs verified in
  r <| kv_committed_len := seqlen r |> <| kv_allocated_len := seqlen r |>.

Definition req0 : Req := req "r0" (Some 2) [11; 12] [13; 14; 15] 2.
Definition req1 : Req := req "r1" (Some 3) [20] [21; 77; 23] 1.
Definition req2 : Req :=
  mkReq "r2" [7] [7] [8] [] 2 2 false false 0 0 (Demo.params 8 [2]) (Some 4)
    None None None false None true [] 1000 None None "" [] 0 [] 0 0 None 0 None None 0
    false false 0 0 0 0 0 false (-1) None None false None None None None false 0 0 0 0 0.

Definition the_batch : ScheduleBatch :=
  mkScheduleBatch [0%nat; 1%nat; 2%nat] (Some DECODE) false false None None None [2; 3; 4]
    [5; 4; 2] [5; 4; 2] None (Some [16; 24; 2]) 11 [5; 4; 2] false None [] [] 0 None [] true false false.

Definition table : list (list Z) :=
  [times 0 8; times 0 8; [1; 2; 3; 4; 5; 0; 0; 0]; [6; 7; 8; 9; 0; 0; 0; 0]; [10; 11; 0; 0; 0; 0; 0; 0]].

(** Eleven slots belong to the requests. *)
Definition the_world : World ChunkCache :=
  mkWorld (<[0%nat := req0]> (<[1%nat := req1]> (<[2%nat := req2]> ∅)))
    (alloc 11 (Token.init 64 false)).2 (mkReqToTokenPool 5 8 table [0; 1]) (mkChunkCache 1) the_batch.

Definition the_sys : Sys ChunkCache :=
  (Worker._init_fixed_pool (mkSys the_world (Worker.init true 2 Worker.f_hundred 3) false)).2.

Definition sched : Scheduler ChunkCache :=
  mkScheduler the_sys (mkServerArgs true false false 1 None 1000) [] [] None 1 0 0 [] [].

Definition tbl : list (list Z) := Eval vm_compute in req_to_token (rtp (w_of sched)).

(** The tokens of the pass: request 2 draws its stop token. *)
Definition result : GenerationBatchResult := mkResult [16; 24; 2] None None None None.

#[export] Instance the_model : Model := Toy.model V 3.

Lemma V_vocab sp ctx : 0 ≤ V sp ctx ≤ 1000.
Proof. unfold V. pose proof (Z.mod_pos_bound (default 0 (last ctx) + 1) 1000 ltac:(lia)). lia. Qed.

Lemma mode : fixed_mode (worker (sys sched)) 2 3.
Proof.
  split; [done|done|by vm_compute|].
  eexists. split; [vm_compute; reflexivity|]. split; cbn.
  - done.
  - done.
  - by vm_compute.
  - eexists. split; [done|]. vm_compute. congruence.
  - done.
  - by vm_compute.
  - intros _. eexists. split; [done|]. done.
Qed.

Lemma cases id r :
  id ∈ b_reqs (batch (w_of sched)) → heap (w_of sched) !! id = Some r →
  (id = 0%nat ∧ r = req0) ∨ (id = 1%nat ∧ r = req1) ∨ (id = 2%nat ∧ r = req2).
Proof.
  intros Hin Hr.
  repeat (apply elem_of_cons in Hin as [->|Hin]; [vm_compute in Hr; injection Hr as <-; auto|]).
  by apply elem_of_nil in Hin.
Qed.

Ltac here := repeat split; try (vm_compute; congruence); try by vm_compute.

Lemma running_at r row l :
  req_pool_idx r = Some row → 0 ≤ row → tbl !! Z.to_nat row = Some l → kv_committed_len r ≤ len l →
  finished_reason r = None ∧ is_retracted r = false ∧ grammar r = None ∧ return_logprob r = false ∧
  0 < len (origin_input_ids r) ∧ kv_committed_len r = seqlen r - 0 ∧
  kv_allocated_len r = seqlen r - 0 ∧ kv_committed_freed r = false ∧
  kv_overallocated_freed r = false ∧ completion_time r = 0 ∧ finished_output r = false ∧
  len (output_ids r) < max_new_tokens (sampling_params r) →
  running tbl 0 r.
Proof. intros A B D E F. destruct F as (?&?&?&?&?&?&?&?&?&?&?&?). split; try done. by exists row, l. Qed.

Lemma ready : decode_ready V 2 3 tbl sched.
Proof.
  split.
  - done.
  - done.
  - apply mode.
  - split; by vm_compute.
  - split; [|done]. split; cbn; [|by intros ? [= <-]|done..].
    intros id Hin. repeat (apply elem_of_cons in Hin as [->|Hin]; [by eexists|]).
    by apply elem_of_nil in Hin.
  - apply (bool_decide_unpack _). by vm_compute.
  - intros i j r r' Hi Hj Hr Hr' E.
    destruct (cases i r Hi Hr) as [[-> ->]|[[-> ->]|[-> ->]]],
      (cases j r' Hj Hr') as [[-> ->]|[[-> ->]|[-> ->]]]; done.
  - intros id Hin. destruct (heap (w_of sched) !! id) as [r|] eqn:Hr.
    2:{ exfalso. repeat (apply elem_of_cons in Hin as [->|Hin]; [by vm_compute in Hr|]).
        by apply elem_of_nil in Hin. }
    exists r. split; [done|].
    destruct (cases id r Hin Hr) as [[-> ->]|[[-> ->]|[-> ->]]]; split; try done; intros _.
    + split; [|split; [|by vm_compute]].
      * eapply (running_at req0 2); [done|lia|reflexivity|by vm_compute|by here].
      * split; [by here|split; [by here|by vm_compute|done]|done|apply V_vocab].
    + split; [|split; [|by vm_compute]].
      * eapply (running_at req1 3); [done|lia|reflexivity|by vm_compute|by here].
      * split; [by here|split; [by here|by vm_compute|done]|done|apply V_vocab].
    + eapply (running_at req2 4); [done|lia|reflexivity|by vm_compute|by here].
Qed.

End DemoSched.

(** ** Claims *)

Module DecodeClaims.

(** C10: A decode pass in a mixed batch, with a verifier that is deterministic
    under the fixed shape.  The handler succeeds, and for every deterministic
    request everything the client has received so far is the beginning of
    the reference generation of its prompt: no token that decode proposed
    and the verifier did not confirm is ever sent.  When the request is
    finished all its outputs are verified and have been sent up to the stop
    position. *)
Theorem decode_pass_streams_reference `{Externals} `{Model} `{CacheLaws C}
    (V : SamplingParams → list Z → Z) (N w : Z) tbl (s : Scheduler C) result :
  fixed_shape_determinism V N w → 0 < w → decode_ready V N w tbl s →
  length (next_token_ids result) = length (b_reqs (batch (w_of s))) →
  ∃ s', Output.process_batch_result_decode result s = (Ok tt, s') ∧
    ∀ id r, id ∈ b_reqs (batch (w_of s)) → heap (w_of s) !! id = Some r →
      is_deterministic r = true →
      ∃ r', heap (w_of s') !! id = Some r' ∧ rid r' = rid r ∧
        (∃ k : nat, streamed (to_detokenizer s') (rid r) =
                    gen (V (sampling_params r)) (origin_input_ids r) k ∧
                    Z.of_nat k ≤ llm42_verified_tokens r') ∧
        (finished r' = true →
           llm42_verified_tokens r' = len (output_ids r') ∧
           streamed (to_detokenizer s') (rid r) = output_ids_through_stop r').
Proof.
  intros Hdet Hw Hr Hl. destruct (decode_pass_ok V N w tbl s result Hdet Hw Hr Hl)
    as (s' & fss & k' & E & D & _).
  exists s'. split; [done|]. intros id r Hin Hid Hd.
  destruct (dn_ids _ _ _ _ _ _ D id r Hin Hid) as (r' & Hr' & [[Ei Ed Ep Eo _ _] _]).
  destruct (dn_reqs _ _ _ _ _ _ D id Hin) as (r2 & Hr2 & HD & _).
  assert (r2 = r') as -> by congruence.
  destruct (HD ltac:(congruence)) as [Ht Hfin _].
  exists r'. split_and!; [done|done| |].
  - rewrite <- Ei, <- Ep, <- Eo. by apply tracked_reference.
  - intros Hf. destruct (Hfin Hf) as (F1 & _ & F3). by rewrite <- Ei.
Qed.

#[local] Existing Instance DemoSched.the_model.
#[local] Existing Instance DemoSched.externals.

Lemma decode_pass_streams_reference_witness :
  ∃ s' k, Output.process_batch_result_decode DemoSched.result DemoSched.sched = (Ok tt, s') ∧
    streamed (to_detokenizer s') "r1" = gen (DemoSched.V (sampling_params DemoSched.req1)) [20] k.
Proof.
  destruct (decode_pass_streams_reference DemoSched.V 2 3 DemoSched.tbl DemoSched.sched DemoSched.result
    (Toy.determinism DemoSched.V 2 3 ltac:(lia)) ltac:(lia) DemoSched.ready eq_refl) as (s' & E & Hall).
  destruct (Hall 1%nat DemoSched.req1) as (r' & Hr' & _ & (k & Hk & _) & _);
    [right; left|reflexivity|reflexivity|].
  exists s', k. split; [exact E|exact Hk].
Defined.

(** The invariant of the running batch survives a decode pass.  After the
    handler every unfinished request holds KV for all its tokens but the
    last, with both lengths in step and its row in place, whether it was
    rolled back or not, and fewer unverified tokens than a window; every
    finished one has returned its row. *)
Theorem decode_pass_keeps_bookkeeping `{Externals} `{Model} `{CacheLaws C}
    (V : SamplingParams → list Z → Z) (N w : Z) tbl (s : Scheduler C) result :
  fixed_shape_determinism V N w → 0 < w → decode_ready V N w tbl s →
  length (next_token_ids result) = length (b_reqs (batch (w_of s))) →
  ∃ s', Output.process_batch_result_decode result s = (Ok tt, s') ∧
    b_reqs (batch (w_of s')) = b_reqs (batch (w_of s)) ∧
    req_to_token (rtp (w_of s')) = tbl ∧
    ∀ id, id ∈ b_reqs (batch (w_of s)) → ∃ r', heap (w_of s') !! id = Some r' ∧
      (finished r' = true → req_pool_idx r' = None) ∧
      (finished r' = false →
         kv_committed_len r' = seqlen r' - 1 ∧ kv_allocated_len r' = seqlen r' - 1 ∧
         kv_committed_freed r' = false ∧ is_Some (req_pool_idx r') ∧
         len (output_ids r') < max_new_tokens (sampling_params r') ∧
         (is_deterministic r' = true → len (output_ids r') - llm42_verified_tokens r' < w)).
Proof.
  intros Hdet Hw Hr Hl. destruct (decode_pass_ok V N w tbl s result Hdet Hw Hr Hl)
    as (s' & fss & k' & E & D & _).
  exists s'. split_and!; [done|apply D|apply D|]. intros id Hin.
  destruct (dn_reqs _ _ _ _ _ _ D id Hin) as (r' & Hr' & HD & HP). exists r'. split; [done|].
  assert (Hrun : (finished r' = true → req_pool_idx r' = None) ∧
    (finished r' = false → running tbl 1 r' ∧
       (is_deterministic r' = true → len (output_ids r') - llm42_verified_tokens r' < w))).
  { destruct (is_deterministic r'); [destruct (HD eq_refl) as [_ F1 F2]|destruct (HP eq_refl) as [_ _ P1 P2]].
    - split; [apply F1|]. intros Hf. destruct (F2 Hf). done.
    - split; [done|]. intros Hf. split; [auto|done]. }
  destruct Hrun as [F1 F2]. split; [done|]. intros Hf.
  destruct (F2 Hf) as [[R1 R2 R3 R4 (row & l & R5 & _) [R6 R6'] [R7 _] R8 R9 R10] Hwin].
  split_and!; try done.
Qed.

Lemma decode_pass_keeps_bookkeeping_witness :
  ∃ s', Output.process_batch_result_decode DemoSched.result DemoSched.sched = (Ok tt, s') ∧
    b_reqs (batch (w_of s')) = [0%nat; 1%nat; 2%nat].
Proof.
  destruct (decode_pass_keeps_bookkeeping DemoSched.V 2 3 DemoSched.tbl DemoSched.sched DemoSched.result
    (Toy.determinism DemoSched.V 2 3 ltac:(lia)) ltac:(lia) DemoSched.ready eq_refl) as (s' & E & Hb & _).
  exists s'. split; [exact E|exact Hb].
Defined.

(** A decode pass loses no KV slot and hands none out twice, with the
    token allocator and without prefix caching: what the requests of the
    batch hold and the free slots are together the same before and after,
    rollbacks and completions included. *)
Theorem decode_pass_conserves_slots `{Externals} `{Model}
    (V : SamplingParams → list Z → Z) (N w : Z) tbl (s : Scheduler ChunkCache) result :
  fixed_shape_determinism V N w → 0 < w → decode_ready V N w tbl s →
  length (next_token_ids result) = length (b_reqs (batch (w_of s))) →
  cls (kv (w_of s)) = TokenToKVPoolAllocator →
  let reqs := b_reqs (batch (w_of s)) in
  ∃ s', Output.process_batch_result_decode result s = (Ok tt, s') ∧
    PoolFacts.pool (kv (w_of s')) ++ held_all tbl reqs s' ≡ₚ PoolFacts.pool (kv (w_of s)) ++ held_all tbl reqs s.
Proof.
  intros Hdet Hw Hr Hl Hc reqs. destruct (decode_pass_ok V N w tbl s result Hdet Hw Hr Hl)
    as (s' & fss & k' & E & D & Ek & Ek' & Cv).
  exists s'. split; [done|]. rewrite frees_token in Ek by done.
  destruct (AllocatorSpec.token_group_pool fss (kv (w_of s)) Hc) as (a' & Ea & _ & Hp).
  assert (a' = k') as -> by congruence. rewrite Ek', Hp. unfold reqs.
  rewrite (Cv (chunk_exact tbl)). rewrite <- !app_assoc. apply Permutation_app; [done|].
  apply Permutation_app_comm.
Qed.

Lemma decode_pass_conserves_slots_witness :
  ∃ s', Output.process_batch_result_decode DemoSched.result DemoSched.sched = (Ok tt, s') ∧
    PoolFacts.pool (kv (w_of s')) ++ held_all DemoSched.tbl [0%nat; 1%nat; 2%nat] s' ≡ₚ
    PoolFacts.pool (kv (w_of DemoSched.sched)) ++ held_all DemoSched.tbl [0%nat; 1%nat; 2%nat] DemoSched.sched.
Proof.
  exact (decode_pass_conserves_slots DemoSched.V 2 3 DemoSched.tbl DemoSched.sched DemoSched.result
    (Toy.determinism DemoSched.V 2 3 ltac:(lia)) ltac:(lia) DemoSched.ready eq_refl eq_refl).
Defined.

(** C37: An abort is forgotten when the pending window of the request does
    not verify.  [check_finished] moves the abort of any request, like every
    other [to_finish], to its finish reason; in a fixed-shape comparison of
    any requests, among them this one, in which its window mismatches
    anywhere, the rollback clears the finish reason: the request goes on, and
    nothing is left of the abort.  The stop position [finished_len] stays. *)
Theorem rollback_discards_abort `{Externals} (w : Z) n plocs pool reqs vts vlps k r0 f new_accepted_len :
  0 < w → finished r0 = false → to_finish r0 = Some f →
  ∃ r, check_finished new_accepted_len r0 = Ok r ∧ finished_reason r = Some f ∧
    (Forall (ready pool) reqs → Forall (λ r, len (unverified r) ≤ w) reqs → reqs !! k = Some r →
     len reqs * w ≤ len vts → (∀ l, vlps = Some l → len reqs * w ≤ len l) →
     let vs := slice vts (Z.of_nat k * w) (Z.of_nat k * w + len (unverified r)) in
     Verify.first_mismatch_position (unverified r) vs < len (unverified r) →
     ∃ reqs' infos r', Verify.verify_and_compare (fixed_info w n plocs reqs) reqs vts vlps None = Ok (reqs', infos) ∧
       reqs' !! k = Some r' ∧ finished_reason r' = None ∧ to_finish r' = None ∧ finished_len r' = finished_len r0).
Proof.
  intros Hw Hf Ht. exists (r0 <| finished_reason := Some f |> <| to_finish := None |>). split_and!.
  { unfold check_finished. by rewrite Hf, Ht. }
  { by rsimpl. }
  set (r := r0 <| finished_reason := Some f |> <| to_finish := None |>). intros Hr Hu Hk Hv Hl vs Hm.
  destruct (InfoClaims.fixed_outcomes w n plocs pool reqs vts vlps Hw Hr Hu Hv Hl) as (reqs' & infos & E & _ & Ho).
  destruct (Ho k r Hk) as (r' & info & Hk' & _ & _ & [_ _ Of _ Ofr]). exists reqs', infos, r'.
  rewrite first_mismatch_lcp in Hm. fold vs in Of. rewrite decide_False in Of by (unfold len in Hm; lia).
  split_and!; [done|done|done|..]; rewrite Ofr; by unfold r; rsimpl.
Qed.

(** The client of the first request has gone; the verifier rejects its second
    unverified token. *)
Definition aborted_req : Req := Demo.req_a <| to_finish := Some (FINISH_ABORT "Aborted" None) |>.

Lemma rollback_discards_abort_witness :
  ∃ r, check_finished 1 aborted_req = Ok r ∧ finished_reason r = Some (FINISH_ABORT "Aborted" None) ∧
    ∃ reqs' infos r', Verify.verify_and_compare (fixed_info 3 1 Demo.plocs [r; Demo.req_b]) [r; Demo.req_b]
        [21; 99; 7; 31; 0; 0] None None = Ok (reqs', infos) ∧
      reqs' !! 0%nat = Some r' ∧ finished_reason r' = None ∧ to_finish r' = None.
Proof.
  set (r := aborted_req <| finished_reason := Some (FINISH_ABORT "Aborted" None) |> <| to_finish := None |>).
  destruct (rollback_discards_abort 3 1 Demo.plocs Demo.pool [r; Demo.req_b] [21; 99; 7; 31; 0; 0] None 0 aborted_req
    (FINISH_ABORT "Aborted" None) 1) as (r1 & E & Ef & Hr).
  - lia.
  - done.
  - done.
  - exists r1. split; [exact E|]. split; [exact Ef|]. assert (r1 = r) as -> by (vm_compute in E; by injection E as <-).
    destruct Hr as (reqs' & infos & r' & E' & H1 & H2 & H3 & _).
    + repeat constructor; cbn; try done; vm_compute; congruence.
    + repeat constructor; vm_compute; congruence.
    + done.
    + vm_compute; congruence.
    + done.
    + by vm_compute.
    + exists reqs', infos, r'. split; [exact E'|]. by split.
Defined.

End DecodeClaims.
