(* ===== verification/PrepareFacts.v ===== *)
(** * The running batch between two decode passes

    [seated] relates the tensors of the running batch to its requests, their
    rows and their KV slots, for a server without prefix caching.
    [prepare_for_decode] gives every request one more slot and
    [retract_decode] takes requests out until there is room for that. *)

From S2P Require Import Prelude PyFloat Allocator AllocatorFacts Request ReqPool LLM42Info World MemCommon CacheLaws LLM42Worker WorkerFacts Scheduler OutputProcessor OutputFacts DecodeFacts DecodeStep DecodePass BatchOps BatchFacts.
Import PoolFacts.

(** ** Points of the table *)

Definition put_point (t : list (list Z)) (x : Z * Z * Z) : list (list Z) :=
  let '(row, col, v) := x in alter (λ l, <[Z.to_nat col := to_int32 v]> l) (Z.to_nat row) t.
Definition put_points (t : list (list Z)) (xs : list (Z * Z * Z)) : list (list Z) :=
  foldl put_point t xs.

Definition in_table (t : list (list Z)) (x : Z * Z * Z) : Prop :=
  0 ≤ x.1.1 ∧ 0 ≤ x.1.2 ∧ ∃ l, t !! Z.to_nat x.1.1 = Some l ∧ x.1.2 < len l.

Lemma put_point_in t x y : in_table t y → in_table (put_point t x) y.
Proof.
  destruct x as [[row col] v]. intros (H1 & H2 & l & El & Hl). split_and!; [done..|].
  cbn [put_point]. destruct (decide (Z.to_nat row = Z.to_nat y.1.1)) as [E|E].
  - rewrite E, list_lookup_alter_eq, El. cbn. eexists. split; [done|]. unfold len. by rewrite length_insert.
  - rewrite list_lookup_alter_ne by done. eauto.
Qed.

Lemma write_one_ok p x :
  in_table (req_to_token p) x →
  Pool.write_one x.1.1 x.1.2 x.2 p = Ok (p <| req_to_token := put_point (req_to_token p) x |>).
Proof.
  destruct x as [[row col] v]. cbn [fst snd]. intros (H1 & H2 & l & El & Hl).
  cbn [fst snd] in *. unfold Pool.write_one.
  rewrite (getitem_nth _ row l H1 El). cbn [mbind res_bind].
  rewrite <- (Z2Nat.id col H2). rewrite setitem_ok by (unfold len in Hl; lia). cbn [mbind res_bind].
  rewrite <- (Z2Nat.id row H1). rewrite setitem_ok by (eapply lookup_lt_Some; exact El). cbn [mbind res_bind].
  unfold put_point. rewrite !Z2Nat.id by done.
  assert (E : <[Z.to_nat row:=<[Z.to_nat col:=to_int32 v]> l]> (req_to_token p) =
              alter (λ l, <[Z.to_nat col := to_int32 v]> l) (Z.to_nat row) (req_to_token p)); [|by rewrite E].
  apply list_eq. intros i. destruct (decide (i = Z.to_nat row)) as [->|Hi].
  - rewrite list_lookup_insert_eq by (eapply lookup_lt_Some; exact El).
    by rewrite list_lookup_alter_eq, El.
  - by rewrite list_lookup_insert_ne, list_lookup_alter_ne.
Qed.

Lemma write_points_loop {C} xs (wd : World C) :
  Forall (in_table (req_to_token (rtp wd))) xs →
  for_ xs (λ '(row, col, v), on_rtp (Pool.write_one row col v)) wd =
  (Ok tt, wd <| rtp ::= λ p, p <| req_to_token ::= λ t, put_points t xs |> |>).
Proof.
  revert wd. induction xs as [|x xs IH]; intros wd Hx; [by destruct wd as [? ? [] ? ?]|].
  apply Forall_cons in Hx as [Hx Hxs]. cbn [for_].
  assert (E : (let '(row, col, v) := x in on_rtp (C := C) (Pool.write_one row col v)) wd =
              (Ok tt, wd <| rtp := (rtp wd) <| req_to_token := put_point (req_to_token (rtp wd)) x |> |>)).
  { pose proof (write_one_ok (rtp wd) x Hx) as Ew. destruct x as [[row col] v].
    unfold on_rtp. cbn [fst snd] in Ew. by rewrite Ew. }
  rewrite E, IH.
  - by destruct wd as [? ? [] ? ?].
  - rsimpl. eapply Forall_impl; [exact Hxs|]. intros y. apply put_point_in.
Qed.

Definition point_row (x : Z * Z * Z) : nat := Z.to_nat x.1.1.

Lemma put_points_ne t xs i : i ∉ point_row <$> xs → put_points t xs !! i = t !! i.
Proof.
  revert t. induction xs as [|[[row col] v] xs IH]; intros t Hi; [done|].
  cbn in Hi. apply not_elem_of_cons in Hi as [H1 H2].
  change (put_points t ((row, col, v) :: xs)) with (put_points (put_point t (row, col, v)) xs).
  rewrite IH by done. cbn [put_point]. rewrite list_lookup_alter_ne; [done|]. intros E. by apply H1.
Qed.

Lemma put_points_eq t xs x l :
  NoDup (point_row <$> xs) → x ∈ xs → t !! point_row x = Some l →
  put_points t xs !! point_row x = Some (<[Z.to_nat x.1.2 := to_int32 x.2]> l).
Proof.
  revert t. induction xs as [|y xs IH]; intros t Hnd Hx Hl; [by apply elem_of_nil in Hx|].
  apply NoDup_cons in Hnd as [Hn Hnd].
  change (put_points t (y :: xs)) with (put_points (put_point t y) xs).
  apply elem_of_cons in Hx as [->|Hx].
  - rewrite put_points_ne by done. destruct y as [[row col] v]. unfold point_row in *. cbn [fst snd put_point] in *.
    by rewrite list_lookup_alter_eq, Hl.
  - assert (Hne : point_row y ≠ point_row x).
    { intros E. apply Hn. rewrite E. by apply list_elem_of_fmap_2. }
    apply IH; [done|done|]. destruct y as [[row col] v]. unfold point_row in *. cbn [fst snd put_point] in *.
    by rewrite list_lookup_alter_ne.
Qed.

Lemma put_points_length t xs i l :
  t !! i = Some l → ∃ l', put_points t xs !! i = Some l' ∧ length l' = length l.
Proof.
  revert t l. induction xs as [|[[row col] v] xs IH]; intros t l Hl; [by exists l|].
  change (put_points t ((row, col, v) :: xs)) with (put_points (put_point t (row, col, v)) xs).
  cbn [put_point]. destruct (decide (Z.to_nat row = i)) as [->|E].
  - destruct (IH (alter (λ l, <[Z.to_nat col := to_int32 v]> l) i t) (<[Z.to_nat col := to_int32 v]> l))
      as (l' & H1 & H2); [by rewrite list_lookup_alter_eq, Hl|].
    exists l'. split; [done|]. by rewrite H2, length_insert.
  - apply IH. by rewrite list_lookup_alter_ne.
Qed.

(** ** The allocator *)

Record kv_ok (a : Allocator) : Prop := {
  ko_wf : wf a;
  ko_cls : cls a = TokenToKVPoolAllocator;
  ko_group : is_not_in_free_group a = true;
  ko_debug : debug_mode a = false;
  ko_int32 : capacity a < 2 ^ 31
}.

Lemma kv_ok_page a : kv_ok a → page_size a = 1.
Proof. intros [Hw Hc _ _ _]. by apply wf_token. Qed.

Lemma kv_ok_available a : kv_ok a → available_size a = len (pool a).
Proof.
  intros Hk. rewrite AllocatorSpec.available_pool by apply Hk. rewrite (kv_ok_page a Hk). lia.
Qed.

Lemma alloc_token_ok n a :
  kv_ok a → 0 ≤ n ≤ available_size a →
  ∃ locs a', alloc n a = (Ok (Some locs), a') ∧ kv_ok a' ∧ len locs = n ∧
    pool a ≡ₚ locs ++ pool a' ∧ capacity a' = capacity a.
Proof.
  intros Hk [Hn Hav]. pose proof (kv_ok_page a Hk) as Hp. destruct Hk as [Hw Hc Hg Hd Hi].
  assert (Hm : n mod page_size a = 0) by (rewrite Hp; apply Z.mod_1_r).
  pose proof (alloc_spec n a Hw Hn Hm) as Hs.
  destruct (AllocatorSpec.alloc_keeps n a Hw Hm) as (E1 & E2 & E3 & E4 & _ & E6).
  destruct (alloc n a) as [[[locs|]|e] a']; cbn [snd] in *; [| |done].
  - destruct Hs as (pages & -> & Hl & _ & Hpl & Hw'). exists pages, a'.
    rewrite Hp, expand_1 in *. split_and!; try done. split; congruence.
  - destruct Hs as (_ & Hs & _). lia.
Qed.

(** Freeing slots that belong to nobody else. *)
Lemma frees_token_ok xss a :
  kv_ok a → NoDup (pool a ++ concat xss) → Forall (λ x, 1 ≤ x ≤ capacity a) (concat xss) →
  kv_ok (frees xss a) ∧ pool (frees xss a) ≡ₚ pool a ++ concat xss ∧ capacity (frees xss a) = capacity a.
Proof.
  revert a. induction xss as [|xs xss IH]; intros a Hk Hnd Hr.
  { cbn. by rewrite app_nil_r. }
  cbn [frees foldl concat] in *. fold (frees xss (free xs a).2).
  pose proof (kv_ok_page a Hk) as Hp. pose proof Hk as [Hw Hc Hg Hd Hi].
  apply Forall_app in Hr as [Hr1 Hr2].
  destruct (free_wf xs a Hw Hg Hd) as (a' & E & Hw' & Hpl); [|done|].
  { rewrite app_assoc in Hnd. apply NoDup_app in Hnd as (Hnd & _ & _).
    by rewrite Permutation_app_comm. }
  rewrite Hp, expand_1 in E. rewrite E. cbn [snd].
  assert (Hd' : NoDup xs) by (rewrite app_assoc in Hnd; apply NoDup_app in Hnd as (Hnd & _ & _);
    by apply NoDup_app in Hnd as (_ & _ & ?)).
  destruct (free_pool xs a Hw Hg Hd Hd') as (a2 & E2 & _ & F1 & F2 & F3 & F4 & F5 & F6 & F7 & _).
  rewrite Hp, expand_1, E in E2. injection E2 as <-.
  assert (Hcap : capacity a' = capacity a) by (unfold capacity; by rewrite F2, F4, F5).
  destruct (IH a') as (I1 & I2 & I3).
  - split; [done|congruence..].
  - rewrite Hpl, (Permutation_app_comm xs), <- app_assoc. done.
  - by rewrite Hcap.
  - split_and!; [done| |congruence]. by rewrite I2, Hpl, (Permutation_app_comm xs), <- app_assoc.
Qed.


(** What frees leave alone. *)
Record tlike (a a' : Allocator) : Prop := {
  tl_cls : cls a' = cls a;
  tl_size : size a' = size a;
  tl_page : page_size a' = page_size a;
  tl_sort : need_sort a' = need_sort a;
  tl_pages : num_pages a' = num_pages a;
  tl_debug : debug_mode a' = debug_mode a;
  tl_release : need_sort a = false → release_pages a' = release_pages a
}.

Lemma tlike_refl a : tlike a a.
Proof. done. Qed.

Lemma tlike_trans a b c : tlike a b → tlike b c → tlike a c.
Proof.
  intros [A1 A2 A3 A4 A5 A6 A7] [B1 B2 B3 B4 B5 B6 B7]. split; [congruence..|].
  intros E. rewrite B7 by congruence. auto.
Qed.

Lemma token_free_like xs a : tlike a (Token.free xs a).
Proof.
  unfold Token.free. destruct (len xs =? 0); [done|].
  destruct (is_not_in_free_group a); [destruct (need_sort a) eqn:E|]; split; rsimpl; try done; intros; congruence.
Qed.

Lemma frees_like xss a : cls a = TokenToKVPoolAllocator → tlike a (frees xss a).
Proof.
  intros Hc. rewrite frees_token by done. revert a Hc.
  induction xss as [|xs xss IH]; intros a Hc; [apply tlike_refl|]. cbn [foldl].
  eapply tlike_trans; [apply (token_free_like xs)|]. apply IH.
  by rewrite (tl_cls _ _ (token_free_like xs a)).
Qed.

(** A decode pass frees in a group. *)
Lemma group_token_ok xss a k :
  kv_ok a → NoDup (pool a ++ concat xss) → Forall (λ x, 1 ≤ x ≤ capacity a) (concat xss) →
  free_group_end (frees xss (Base.free_group_begin a)) = (Ok tt, k) →
  kv_ok k ∧ pool k ≡ₚ pool a ++ concat xss ∧ capacity k = capacity a.
Proof.
  intros [Hw Hc Hg Hd Hi] Hnd Hr E. set (a0 := Base.free_group_begin a) in *.
  assert (L0 : tlike a a0) by (unfold a0, Base.free_group_begin; split; by rsimpl).
  pose proof (frees_like xss a0 Hc) as L1.
  assert (L : tlike a k).
  { eapply tlike_trans; [exact L0|]. eapply tlike_trans; [exact L1|].
    revert E. unfold free_group_end. set (b := frees xss a0) in *.
    assert (Lb : tlike b (b <| is_not_in_free_group := true |>)) by (split; by rsimpl).
    cbv zeta. destruct (bool_decide _); [intros [= <-]; done|].
    unfold free. rsimpl. rewrite (tl_cls _ _ L1). change (cls a0) with (cls a). rewrite Hc.
    intros [= <-]. eapply tlike_trans; [exact Lb|apply token_free_like]. }
  rewrite frees_token in E by done. unfold a0 in E.
  destruct (AllocatorSpec.token_group_pool xss a Hc) as (k' & E' & Hg' & Hp).
  assert (k' = k) as -> by congruence. destruct L as [L2 L3 L4 L5 L6 L7 L8].
  assert (Hcap : capacity k = capacity a) by (unfold capacity; by rewrite L2, L3, L6).
  destruct Hw as [W1 W2 W3 W4 W5]. split_and!; [|done|done]. split; [|congruence..].
  split; rewrite ?L2, ?L4, ?Hcap; try done.
  - rewrite L5. intros Hs. rewrite L8 by done. auto.
  - by rewrite Hp.
  - rewrite Hp. by apply Forall_app.
Qed.

(** ** Seats *)

Lemma to_int32_id x : 0 ≤ x < 2 ^ 31 → to_int32 x = x.
Proof. intros Hx. unfold to_int32. rewrite Z.mod_small; lia. Qed.

(** The slots the requests [ids] hold. *)
Definition held_ids (tbl : list (list Z)) (h : gmap nat Req) (ids : list nat) : list Z :=
  concat ((λ id, match h !! id with Some r => held tbl r | None => [] end) <$> ids).

(** The request [r] at position [j] of the batch: its KV covers all tokens
    but the last [d], its row is wide enough for all it may generate, and
    the tensors of the batch say the same. *)
Record seat (d : Z) (tbl : list (list Z)) (b : ScheduleBatch) (j : nat) (r : Req) : Prop := {
  st_running : running tbl d r;
  st_row : b_req_pool_indices b !! j = req_pool_idx r;
  st_len : b_seq_lens b !! j = Some (seqlen r - d);
  st_width : ∀ row l, req_pool_idx r = Some row → tbl !! Z.to_nat row = Some l →
    len (origin_input_ids r) + max_new_tokens (sampling_params r) ≤ len l
}.

(** A finished or retracted request leaves the batch with the next filter. *)
Definition gone (r : Req) : bool := finished r || is_retracted r.

Lemma running_here tbl d r : running tbl d r → gone r = false.
Proof. intros Hr. unfold gone, finished. by rewrite (ru_finish _ _ _ Hr), (ru_here _ _ _ Hr). Qed.

Record seated (d : Z) (slots : list Z) (wd : World ChunkCache) : Prop := {
  sd_soa : soa (batch wd);
  sd_nodup : NoDup (b_reqs (batch wd));
  sd_flag : b_return_logprob (batch wd) = false;
  sd_page : cc_page_size (cache wd) = 1;
  sd_kv : kv_ok (kv wd);
  sd_seat : ∀ j id, b_reqs (batch wd) !! j = Some id → ∃ r, heap wd !! id = Some r ∧
    return_logprob r = false ∧ (gone r = true → req_pool_idx r = None) ∧
    (gone r = false → seat d (req_to_token (rtp wd)) (batch wd) j r);
  sd_rows : ∀ i j id id' r r' row, b_reqs (batch wd) !! i = Some id →
    b_reqs (batch wd) !! j = Some id' → heap wd !! id = Some r → heap wd !! id' = Some r' →
    req_pool_idx r = Some row → req_pool_idx r' = Some row → i = j;
  sd_slots : pool (kv wd) ++ held_ids (req_to_token (rtp wd)) (heap wd) (b_reqs (batch wd)) ≡ₚ slots;
  sd_fresh : NoDup slots ∧ Forall (λ x, 1 ≤ x ≤ capacity (kv wd)) slots
}.

(** Every request of the batch stays. *)
Definition all_going (wd : World ChunkCache) : Prop :=
  ∀ id r, id ∈ b_reqs (batch wd) → heap wd !! id = Some r → gone r = false.

Lemma seated_at d slots wd j id :
  seated d slots wd → all_going wd → b_reqs (batch wd) !! j = Some id →
  ∃ r row l, heap wd !! id = Some r ∧ seat d (req_to_token (rtp wd)) (batch wd) j r ∧
    req_pool_idx r = Some row ∧ 0 ≤ row ∧ req_to_token (rtp wd) !! Z.to_nat row = Some l ∧
    b_req_pool_indices (batch wd) !! j = Some row.
Proof.
  intros Hs Hg Hj. destruct (sd_seat _ _ _ Hs j id Hj) as (r & Hr & _ & _ & Hse).
  assert (Hf : gone r = false) by (eapply Hg; [by eapply list_elem_of_lookup_2|done]).
  specialize (Hse Hf). destruct (ru_row _ _ _ (st_running _ _ _ _ _ Hse)) as (row & l & E1 & E2 & E3 & _).
  exists r, row, l. split_and!; [done..|]. by rewrite (st_row _ _ _ _ _ Hse).
Qed.

(** ** More tokens for every request *)

Lemma for_upd_req {C} (f : Req → Req) ids (wd : World C) :
  NoDup ids → (∀ id, id ∈ ids → is_Some (heap wd !! id)) →
  ∃ h', for_ ids (λ id, upd_req id f) wd = (Ok tt, wd <| heap := h' |>) ∧
    (∀ id, id ∈ ids → h' !! id = f <$> heap wd !! id) ∧
    (∀ id, id ∉ ids → h' !! id = heap wd !! id).
Proof.
  revert wd. induction ids as [|id ids IH]; intros wd Hnd Hh.
  { exists (heap wd). split; [by destruct wd|]. split; [|done]. intros id Hid. by apply elem_of_nil in Hid. }
  apply NoDup_cons in Hnd as [Hn Hnd]. destruct (Hh id) as [r Hr]; [set_solver|].
  set (wd1 := wd <| heap ::= <[id := f r]> |>).
  assert (Ew : heap wd1 = <[id := f r]> (heap wd)) by (unfold wd1; by rsimpl).
  destruct (IH wd1 Hnd) as (h' & E & H1 & H2).
  { intros i Hi. rewrite Ew. destruct (decide (i = id)) as [->|Hne]; [by rewrite lookup_insert_eq|].
    rewrite lookup_insert_ne by done. apply Hh. set_solver. }
  exists h'. split_and!.
  - cbn [for_]. assert (E0 : upd_req id f wd = (Ok tt, wd1)).
    { unfold upd_req. rewrite (bind_ok _ _ wd r wd); [done|]. unfold req_at. by rewrite Hr. }
    rewrite E0, E. by destruct wd.
  - intros i [->|Hi]%elem_of_cons.
    + by rewrite H2, Ew, lookup_insert_eq, Hr.
    + rewrite H1, Ew, lookup_insert_ne by (done || congruence). done.
  - intros i Hi. apply not_elem_of_cons in Hi as [Hi1 Hi2]. by rewrite H2, Ew, lookup_insert_ne.
Qed.

Lemma concat_snoc {A} (xss : list (list A)) ys :
  length ys = length xss → concat (zip_with (λ xs y, xs ++ [y]) xss ys) ≡ₚ concat xss ++ ys.
Proof.
  revert ys. induction xss as [|xs xss IH]; intros [|y ys] Hl; try done. cbn [zip_with concat].
  rewrite IH by (by injection Hl). rewrite <- !app_assoc. f_equiv. cbn. apply Permutation_middle.
Qed.

Lemma take_snoc_insert (l : list Z) k v :
  (k < length l)%nat → take (S k) (<[k := v]> l) = take k l ++ [v].
Proof.
  intros Hk. rewrite (take_S_r _ _ v) by (by rewrite list_lookup_insert_eq).
  by rewrite take_insert_ge by lia.
Qed.

(** One more slot for a request: the new one joins what it holds. *)
Lemma held_decode tbl tbl' r row l v :
  running tbl 1 r → req_pool_idx r = Some row → tbl !! Z.to_nat row = Some l →
  tbl' !! Z.to_nat row = Some (<[Z.to_nat (seqlen r - 1) := v]> l) → seqlen r - 1 < len l → v ≠ 0 →
  held tbl' (BatchOps.decode_req r) = held tbl r ++ [v].
Proof.
  intros [_ _ _ R4 _ [R6 _] [R7 _] _ _ _] Er El El' Hl Hv.
  assert (Hq : 0 ≤ seqlen r - 1) by (unfold seqlen; len_pos; lia).
  unfold held, committed_slots, BatchOps.decode_req. rsimpl. rewrite R7, Er, El, El', R6.
  rewrite !slice_to_take by lia. replace (seqlen r - 1 + 1) with (seqlen r) by lia.
  replace (Z.to_nat (seqlen r)) with (S (Z.to_nat (seqlen r - 1))) by lia.
  rewrite take_snoc_insert by (unfold len in Hl; lia). rewrite nonzero_app. f_equal.
  unfold Chunk.nonzero. by rewrite filter_cons, decide_True.
Qed.

Lemma running_decode tbl tbl' r row l l' :
  running tbl 1 r → req_pool_idx r = Some row → tbl !! Z.to_nat row = Some l →
  tbl' !! Z.to_nat row = Some l' → length l' = length l →
  len (origin_input_ids r) + max_new_tokens (sampling_params r) ≤ len l →
  running tbl' 0 (BatchOps.decode_req r).
Proof.
  intros [R1 R2 R3 R4 (row' & l0 & E1 & E2 & E3 & E4) [R6 R6'] R7 R8 R9 R10] Er El El' Hl Hw.
  assert (row' = row) as -> by congruence. unfold BatchOps.decode_req, seqlen in *.
  split; unfold seqlen; rsimpl; try done; [|lia].
  exists row, l'. split_and!; try done. unfold len in *. lia.
Qed.

Section Prepare.
Context `{Externals}.
Implicit Types (wd : World ChunkCache) (r : Req).

(** The points [alloc_for_decode] writes. *)
Definition points (b : ScheduleBatch) (locs : list Z) : list (Z * Z * Z) :=
  zip (zip (b_req_pool_indices b) (b_seq_lens b)) locs.

Lemma points_lookup b locs j x :
  points b locs !! j = Some x ↔
  b_req_pool_indices b !! j = Some x.1.1 ∧ b_seq_lens b !! j = Some x.1.2 ∧ locs !! j = Some x.2.
Proof.
  unfold points. rewrite lookup_zip_with_Some. split.
  - intros ([row s] & v & -> & (? & ? & [= -> ->] & ? & ?)%lookup_zip_with_Some & ?). done.
  - destruct x as [[row s] v]. cbn. intros (H1 & H2 & H3). exists (row, s), v. split_and!; [done| |done].
    apply lookup_zip_with_Some. by exists row, s.
Qed.

Lemma alloc_for_decode_ok wd :
  kv_ok (kv wd) → cc_page_size (cache wd) = 1 →
  len (b_seq_lens (batch wd)) ≤ available_size (kv wd) →
  (∀ j row s, b_req_pool_indices (batch wd) !! j = Some row → b_seq_lens (batch wd) !! j = Some s →
     in_table (req_to_token (rtp wd)) (row, s, 0)) →
  ∃ locs k, Mem.alloc_for_decode 1 wd =
      (Ok locs, wd <| kv := k |> <| rtp ::= λ p, p <| req_to_token ::= λ t, put_points t (points (batch wd) locs) |> |>) ∧
    kv_ok k ∧ len locs = len (b_seq_lens (batch wd)) ∧ pool (kv wd) ≡ₚ locs ++ pool k ∧
    capacity k = capacity (kv wd).
Proof.
  intros Hk Hp Hn Hin.
  destruct (alloc_token_ok (len (b_seq_lens (batch wd))) (kv wd) Hk) as (locs & k & E & Hk' & Hl & Hpl & Hc);
    [llia|]. exists locs, k. split; [|done]. unfold Mem.alloc_for_decode.
  rewrite (bind_ok _ _ wd (batch wd) wd) by done. rewrite (bind_ok _ _ wd (cache wd) wd) by done.
  cbv zeta. change (tree_page_size (cache wd)) with (cc_page_size (cache wd)). rewrite Hp, Z.eqb_refl.
  rewrite Z.mul_1_r. set (w1 := wd <| kv := k |>).
  assert (Ea : Mem.alloc_token_slots (len (b_seq_lens (batch wd))) wd = (Ok locs, w1)).
  { unfold Mem.alloc_token_slots, Mem.evict_from_tree_cache. cbn [is_chunk_cache chunk_cache].
    rewrite (bind_ok _ _ wd tt wd) by done. rewrite (bind_ok _ _ wd (Some locs) w1); [done|].
    unfold on_kv. by rewrite E. }
  rewrite (bind_ok _ _ _ _ _ Ea). unfold Mem.write_points.
  assert (Ex : for_ (zip (zip (b_req_pool_indices (batch wd)) (b_seq_lens (batch wd))) locs)
     (λ '(row, col, v), on_rtp (Pool.write_one row col v)) w1 =
     (Ok tt, w1 <| rtp ::= λ p, p <| req_to_token ::= λ t, put_points t (points (batch wd) locs) |> |>)).
  { apply write_points_loop. apply Forall_lookup_2. intros j x Hx.
    apply points_lookup in Hx as (H1 & H2 & _). unfold w1. rsimpl. exact (Hin j _ _ H1 H2). }
  by rewrite (bind_ok _ _ _ _ _ Ex).
Qed.

(** Different requests write to different rows. *)
Lemma points_rows d slots wd locs :
  seated d slots wd → all_going wd → NoDup (point_row <$> points (batch wd) locs).
Proof.
  intros Hs Hg. apply NoDup_alt. intros i j k Hi Hj.
  rewrite list_lookup_fmap in Hi, Hj.
  destruct (points _ _ !! i) as [x|] eqn:Ex; [|done]. destruct (points _ _ !! j) as [y|] eqn:Ey; [|done].
  cbn in Hi, Hj. injection Hi as Hi. injection Hj as Hj.
  apply points_lookup in Ex as (X1 & _), Ey as (Y1 & _).
  pose proof (so_rows _ (sd_soa _ _ _ Hs)) as Hl.
  destruct (lookup_lt_is_Some_2 (b_reqs (batch wd)) i) as [id Hid]; [rewrite <- Hl; by eapply lookup_lt_Some|].
  destruct (lookup_lt_is_Some_2 (b_reqs (batch wd)) j) as [id' Hid']; [rewrite <- Hl; by eapply lookup_lt_Some|].
  destruct (seated_at d slots wd i id Hs Hg Hid) as (r & row & l & Hr & _ & Er & Hp & _ & Hrow).
  destruct (seated_at d slots wd j id' Hs Hg Hid') as (r' & row' & l' & Hr' & _ & Er' & Hp' & _ & Hrow').
  unfold point_row in *.
  assert (row = row') by (rewrite X1 in Hrow; rewrite Y1 in Hrow'; injection Hrow as <-; injection Hrow' as <-; lia).
  subst row'. exact (sd_rows _ _ _ Hs i j id id' r r' row Hid Hid' Hr Hr' Er Er').
Qed.

(** The new table at the row of a request. *)
Lemma points_at slots wd locs j id r row l :
  seated 1 slots wd → all_going wd → length locs = length (b_reqs (batch wd)) →
  Forall (λ x, 1 ≤ x < 2 ^ 31) locs →
  b_reqs (batch wd) !! j = Some id → heap wd !! id = Some r → req_pool_idx r = Some row →
  req_to_token (rtp wd) !! Z.to_nat row = Some l →
  ∃ v, locs !! j = Some v ∧ v ≠ 0 ∧
    put_points (req_to_token (rtp wd)) (points (batch wd) locs) !! Z.to_nat row
    = Some (<[Z.to_nat (seqlen r - 1) := v]> l).
Proof.
  intros Hs Hg Hl Hr32 Hj Hr Er El.
  destruct (seated_at 1 slots wd j id Hs Hg Hj) as (r0 & row0 & l0 & Hr0 & Hse & Er0 & _ & _ & Hrow).
  assert (r0 = r) as -> by congruence. assert (row0 = row) as -> by congruence.
  destruct (lookup_lt_is_Some_2 locs j) as [v Hv]; [rewrite Hl; by eapply lookup_lt_Some|].
  exists v. eapply Forall_lookup in Hr32; [|exact Hv]. split_and!; [done|lia|].
  assert (Hx : (row, seqlen r - 1, v) ∈ points (batch wd) locs).
  { eapply list_elem_of_lookup_2 with (i := j). apply points_lookup. split_and!; [done| |done].
    apply (st_len _ _ _ _ _ Hse). }
  pose proof (put_points_eq _ _ _ l (points_rows 1 slots wd locs Hs Hg) Hx El) as E.
  unfold point_row in E. cbn [fst snd] in E. by rewrite E, to_int32_id by lia.
Qed.

(** The requests, the table and the batch after [prepare_for_decode]. *)
Record prepared (slots : list Z) wd wd' : Prop := {
  pp_seated : seated 0 slots wd';
  pp_reqs : b_reqs (batch wd') = b_reqs (batch wd);
  pp_mode : b_forward_mode (batch wd') = Some DECODE;
  pp_in : ∀ id, id ∈ b_reqs (batch wd) → heap wd' !! id = BatchOps.decode_req <$> heap wd !! id;
  pp_out : ∀ id, id ∉ b_reqs (batch wd) → heap wd' !! id = heap wd !! id
}.

(** The slots of the new table: the requests took the ones allocated. *)
Lemma held_prepared slots wd locs h' :
  seated 1 slots wd → all_going wd → length locs = length (b_reqs (batch wd)) →
  Forall (λ x, 1 ≤ x < 2 ^ 31) locs →
  (∀ id, id ∈ b_reqs (batch wd) → h' !! id = BatchOps.decode_req <$> heap wd !! id) →
  held_ids (put_points (req_to_token (rtp wd)) (points (batch wd) locs)) h' (b_reqs (batch wd))
  ≡ₚ held_ids (req_to_token (rtp wd)) (heap wd) (b_reqs (batch wd)) ++ locs.
Proof.
  intros Hs Hg Hl Hr32 Hh. unfold held_ids. rewrite <- concat_snoc by (by rewrite length_fmap).
  match goal with |- concat ?a ≡ₚ concat ?b => replace a with b; [done|] end.
  apply list_eq_same_length with (n := length (b_reqs (batch wd))).
  - by rewrite length_fmap.
  - rewrite length_zip_with, length_fmap. lia.
  - intros j x y Hj Hx Hy. rewrite list_lookup_fmap in Hy.
    destruct (b_reqs (batch wd) !! j) as [id|] eqn:Ej; [|done]. injection Hy as <-.
    apply lookup_zip_with_Some in Hx as (hs & v & -> & Hx & Hv).
    rewrite list_lookup_fmap, Ej in Hx. injection Hx as <-.
    destruct (seated_at 1 slots wd j id Hs Hg Ej) as (r & row & l & Hr & Hse & Er & Hp & El & _).
    destruct (points_at slots wd locs j id r row l Hs Hg Hl Hr32 Ej Hr Er El) as (v' & Hv' & Hv0 & Et).
    assert (v' = v) as -> by congruence.
    rewrite Hh by (by eapply list_elem_of_lookup_2). rewrite Hr. cbn [fmap option_fmap option_map].
    symmetry. eapply held_decode; [apply Hse|done|done|done| |done].
    pose proof (st_width _ _ _ _ _ Hse row l Er El). pose proof (ru_room _ _ _ (st_running _ _ _ _ _ Hse)).
    unfold seqlen. lia.
Qed.

(** The batch and the world [prepare_for_decode] leaves. *)
Definition decoding (b : ScheduleBatch) (locs : list Z) : ScheduleBatch :=
  b <| b_forward_mode := Some DECODE |> <| b_input_ids := b_output_ids b |> <| b_output_ids := None |>
    <| b_out_cache_loc := Some locs |>
    <| b_seq_lens ::= BatchOps.incr |> <| b_seq_lens_cpu ::= BatchOps.incr |> <| b_orig_seq_lens ::= BatchOps.incr |>
    <| b_seq_lens_sum := b_seq_lens_sum b + len (b_reqs b) |>.

Definition decoding_world wd (locs : list Z) (k : Allocator) (h' : gmap nat Req) : World ChunkCache :=
  wd <| batch := decoding (batch wd) locs |> <| kv := k |> <| heap := h' |>
     <| rtp ::= λ p, p <| req_to_token ::= λ t, put_points t (points (batch wd) locs) |> |>.

(** What the pass took: [locs], out of the free slots. *)
Record taken_for_decode wd (locs : list Z) (k : Allocator) (h' : gmap nat Req) : Prop := {
  tk_kv : kv_ok k;
  tk_locs : length locs = length (b_reqs (batch wd));
  tk_pool : pool (kv wd) ≡ₚ locs ++ pool k;
  tk_cap : capacity k = capacity (kv wd);
  tk_in : ∀ id, id ∈ b_reqs (batch wd) → h' !! id = BatchOps.decode_req <$> heap wd !! id;
  tk_out : ∀ id, id ∉ b_reqs (batch wd) → h' !! id = heap wd !! id
}.

Lemma prepare_for_decode_runs slots wd :
  seated 1 slots wd → all_going wd → len (b_reqs (batch wd)) ≤ available_size (kv wd) →
  ∃ locs k h', BatchOps.prepare_for_decode wd = (Ok tt, decoding_world wd locs k h') ∧ taken_for_decode wd locs k h'.
Proof.
  intros Hs Hg Hn. unfold BatchOps.prepare_for_decode. set (b := batch wd) in *.
  pose proof (sd_soa _ _ _ Hs) as So. fold b in So.
  set (b1 := b <| b_forward_mode := Some DECODE |> <| b_input_ids := b_output_ids b |> <| b_output_ids := None |>).
  rewrite (bind_ok _ _ wd tt (wd <| batch := b <| b_forward_mode := Some DECODE |> |>)) by (by destruct wd).
  set (w1 := wd <| batch := b1 |>).
  rewrite (bind_ok _ _ _ tt w1) by (unfold w1, b1, b; by destruct wd).
  destruct (alloc_for_decode_ok w1) as (locs & k & Ea & Hk & Hl & Hpl & Hc).
  { apply Hs. }
  { apply Hs. }
  { unfold w1, b1. rsimpl. unfold len in *. rewrite (so_seq _ So). done. }
  { unfold w1, b1. rsimpl. intros j row s Hrow Hq.
    destruct (lookup_lt_is_Some_2 (b_reqs b) j) as [id Hid]; [rewrite <- (so_seq _ So); by eapply lookup_lt_Some|].
    destruct (seated_at 1 slots wd j id Hs Hg Hid) as (r & row' & l & Hr & Hse & Er & Hp & El & Hrow').
    fold b in Hrow', Hse. assert (row' = row) as -> by congruence.
    rewrite (st_len _ _ _ _ _ Hse) in Hq. injection Hq as <-.
    pose proof (st_width _ _ _ _ _ Hse row l Er El). pose proof (st_running _ _ _ _ _ Hse) as Hru.
    pose proof (ru_room _ _ _ Hru). pose proof (ru_prompt _ _ _ Hru).
    split_and!; [done|unfold seqlen; cbn; len_pos; lia|]. exists l. split; [done|]. cbn. unfold seqlen. lia. }
  rewrite (bind_ok _ _ _ _ _ Ea). set (w2 := w1 <| kv := k |> <| rtp ::= _ |>).
  rewrite (bind_ok _ _ w2 tt (w2 <| batch ::= λ b, b <| b_out_cache_loc := Some locs |> |>)) by done.
  set (w3 := w2 <| batch ::= _ |>). rewrite (bind_ok _ _ w3 (b_reqs b) w3) by done.
  destruct (for_upd_req BatchOps.decode_req (b_reqs b) w3) as (h' & Ef & Hin & Hout).
  { apply Hs. }
  { intros id Hid. apply list_elem_of_lookup_1 in Hid as [j Hj].
    destruct (sd_seat _ _ _ Hs j id Hj) as (r & Hr & _). by exists r. }
  rewrite (bind_ok _ _ _ _ _ Ef). exists locs, k, h'. split; [unfold w3, w2, w1, b1, b; by destruct wd|].
  split; try done. change (b_seq_lens (batch w1)) with (b_seq_lens b) in Hl.
  unfold len in Hl. rewrite (so_seq _ So) in Hl. fold b. lia.
Qed.

Section Taken.
Context (slots : list Z) (wd : World ChunkCache) (locs : list Z) (k : Allocator) (h' : gmap nat Req).
Hypothesis Hs : seated 1 slots wd.
Hypothesis Hg : all_going wd.
Hypothesis T : taken_for_decode wd locs k h'.

Lemma taken_int32 : Forall (λ x, 1 ≤ x < 2 ^ 31) locs.
Proof using Hs T.
  apply Forall_forall. intros x Hx. destruct (sd_fresh _ _ _ Hs) as [_ Hrng]. rewrite Forall_forall in Hrng.
  assert (1 ≤ x ≤ capacity (kv wd)).
  { apply Hrng. rewrite <- (sd_slots _ _ _ Hs), (tk_pool _ _ _ _ T), !elem_of_app. auto. }
  pose proof (ko_int32 _ (tk_kv _ _ _ _ T)). rewrite (tk_cap _ _ _ _ T) in *. lia.
Qed.

Lemma decode_req_frame r :
  gone (BatchOps.decode_req r) = gone r ∧ return_logprob (BatchOps.decode_req r) = return_logprob r ∧
  req_pool_idx (BatchOps.decode_req r) = req_pool_idx r ∧ origin_input_ids (BatchOps.decode_req r) = origin_input_ids r ∧
  sampling_params (BatchOps.decode_req r) = sampling_params r ∧ seqlen (BatchOps.decode_req r) = seqlen r.
Proof. unfold BatchOps.decode_req, gone, finished, seqlen. by rsimpl. Qed.

(** The seat of one request after the pass has been prepared. *)
Lemma taken_seat j id r :
  b_reqs (batch wd) !! j = Some id → heap wd !! id = Some r →
  gone r = false ∧ return_logprob r = false ∧
  seat 0 (put_points (req_to_token (rtp wd)) (points (batch wd) locs)) (decoding (batch wd) locs) j (BatchOps.decode_req r).
Proof using Hs Hg T.
  intros Hj Hr. destruct (seated_at 1 slots wd j id Hs Hg Hj) as (r0 & row & l & Hr0 & Hse & Er & Hp & El & Hrow).
  assert (r0 = r) as -> by congruence.
  destruct (points_at slots wd locs j id r row l Hs Hg (tk_locs _ _ _ _ T) taken_int32 Hj Hr Er El) as (v & _ & _ & Etj).
  pose proof (st_width _ _ _ _ _ Hse row l Er El) as Hwid. pose proof (st_running _ _ _ _ _ Hse) as Hru.
  destruct (decode_req_frame r) as (_ & _ & F3 & F4 & F5 & Hsq).
  split_and!; [by eapply running_here|apply Hru|]. split.
  - eapply running_decode; [done|done|done|exact Etj|by rewrite length_insert|done].
  - by rewrite F3, Er.
  - rewrite Hsq, Z.sub_0_r. unfold decoding, BatchOps.incr. rsimpl.
    rewrite list_lookup_fmap, (st_len _ _ _ _ _ Hse). cbn. f_equal. lia.
  - rewrite F3, F4, F5. intros row0 l0 E0 El0. assert (row0 = row) as -> by congruence.
    rewrite Etj in El0. injection El0 as <-. unfold len in *. by rewrite length_insert.
Qed.

Lemma taken_seated : seated 0 slots (decoding_world wd locs k h').
Proof using Hs Hg T.
  assert (Hin : ∀ j id, b_reqs (batch wd) !! j = Some id → h' !! id = BatchOps.decode_req <$> heap wd !! id).
  { intros j id Hj. apply T. by eapply list_elem_of_lookup_2. }
  split.
  - destruct (sd_soa _ _ _ Hs) as [S1 S2 S3 S4 S5 S6 S7]. unfold decoding_world, decoding, BatchOps.incr.
    split; rsimpl; rewrite ?length_fmap; done.
  - apply Hs.
  - apply Hs.
  - apply Hs.
  - apply T.
  - intros j id Hj. change (b_reqs (batch wd) !! j = Some id) in Hj.
    destruct (sd_seat _ _ _ Hs j id Hj) as (r & Hr & _). destruct (taken_seat j id r Hj Hr) as (G & L & Se).
    exists (BatchOps.decode_req r). destruct (decode_req_frame r) as (F1 & F2 & _).
    change (heap (decoding_world wd locs k h')) with h'. rewrite (Hin j id Hj), Hr.
    split_and!; [done|congruence|congruence|done].
  - intros i j id id' r r' row Hi Hj Hr Hr' E1 E2. change (h' !! id = Some r) in Hr. change (h' !! id' = Some r') in Hr'.
    rewrite (Hin i id Hi) in Hr. rewrite (Hin j id' Hj) in Hr'.
    destruct (heap wd !! id) as [r0|] eqn:E3; [|done]. destruct (heap wd !! id') as [r0'|] eqn:E4; [|done].
    cbn in Hr, Hr'. injection Hr as <-. injection Hr' as <-.
    exact (sd_rows _ _ _ Hs i j id id' r0 r0' row Hi Hj E3 E4 E1 E2).
  - change (pool k ++ held_ids (put_points (req_to_token (rtp wd)) (points (batch wd) locs)) h' (b_reqs (batch wd)) ≡ₚ slots).
    rewrite (held_prepared slots wd locs h' Hs Hg (tk_locs _ _ _ _ T) taken_int32 (tk_in _ _ _ _ T)).
    rewrite <- (sd_slots _ _ _ Hs), (tk_pool _ _ _ _ T).
    rewrite (Permutation_app_comm _ locs), !app_assoc. f_equiv. apply Permutation_app_comm.
  - change (NoDup slots ∧ Forall (λ x, 1 ≤ x ≤ capacity k) slots). rewrite (tk_cap _ _ _ _ T). apply Hs.
Qed.
End Taken.

Lemma prepare_for_decode_ok slots wd :
  seated 1 slots wd → all_going wd → len (b_reqs (batch wd)) ≤ available_size (kv wd) →
  ∃ wd', BatchOps.prepare_for_decode wd = (Ok tt, wd') ∧ prepared slots wd wd'.
Proof.
  intros Hs Hg Hn. destruct (prepare_for_decode_runs slots wd Hs Hg Hn) as (locs & k & h' & E & T).
  exists (decoding_world wd locs k h'). split; [done|]. split; try done; [by apply taken_seated|apply T|apply T].
Qed.

(** ** Leaving the batch *)

Lemma held_none tbl r : req_pool_idx r = None → held tbl r = [].
Proof. intros E. unfold held, committed_slots. rewrite E. by destruct (kv_committed_freed r). Qed.

Lemma entry_fields b b' i j :
  entry b i = entry b' j →
  b_reqs b !! i = b_reqs b' !! j ∧ b_req_pool_indices b !! i = b_req_pool_indices b' !! j ∧
  b_seq_lens b !! i = b_seq_lens b' !! j.
Proof. unfold entry. intros [= ? ? ? ? ? ?]. done. Qed.

(** The positions of the restricted batch in the old one. *)
Lemma restricted_at keep b b' k :
  entries b' = (entry b ∘ Z.to_nat) <$> keep → (k < length (b_reqs b'))%nat →
  ∃ i, keep !! k = Some i ∧ entry b' k = entry b (Z.to_nat i).
Proof.
  intros E Hk. pose proof (entries_lookup b' k Hk) as Hl. rewrite E, list_lookup_fmap in Hl.
  destruct (keep !! k) as [i|]; [|done]. apply (inj Some) in Hl. by exists i.
Qed.

Lemma restricted_elem keep b b' j id :
  indices (length (b_reqs b)) keep → entries b' = (entry b ∘ Z.to_nat) <$> keep →
  b_reqs b !! j = Some id → Z.of_nat j ∈ keep → id ∈ b_reqs b'.
Proof.
  intros Hi E Hj [k Hk]%list_elem_of_lookup_1.
  assert (Hlen : (k < length (b_reqs b'))%nat).
  { rewrite <- entries_length, E, length_fmap. by eapply lookup_lt_Some. }
  destruct (restricted_at keep b b' k E Hlen) as (i & Hk' & Ee).
  assert (i = Z.of_nat j) as -> by congruence. apply entry_fields in Ee as [Ee _].
  rewrite Nat2Z.id, Hj in Ee. by eapply list_elem_of_lookup_2.
Qed.

Lemma restricted_sub keep b b' k id :
  entries b' = (entry b ∘ Z.to_nat) <$> keep → b_reqs b' !! k = Some id →
  ∃ i, keep !! k = Some i ∧ b_reqs b !! Z.to_nat i = Some id ∧ entry b' k = entry b (Z.to_nat i).
Proof.
  intros E Hk. destruct (restricted_at keep b b' k E) as (i & Hi & Ee); [by eapply lookup_lt_Some|].
  exists i. pose proof (entry_fields _ _ _ _ Ee) as [E1 _]. split_and!; [done|congruence|done].
Qed.

Lemma restricted_nodup keep b b' :
  NoDup (b_reqs b) → NoDup keep → indices (length (b_reqs b)) keep →
  entries b' = (entry b ∘ Z.to_nat) <$> keep → NoDup (b_reqs b').
Proof.
  intros Hnd Hk Hi E. apply NoDup_alt. intros k1 k2 id H1 H2.
  destruct (restricted_sub keep b b' k1 id E H1) as (i1 & K1 & J1 & _).
  destruct (restricted_sub keep b b' k2 id E H2) as (i2 & K2 & J2 & _).
  pose proof (NoDup_lookup _ _ _ _ Hnd J1 J2) as Ei.
  assert (0 ≤ i1) by (eapply Forall_lookup in Hi; [|exact K1]; cbn in Hi; lia).
  assert (0 ≤ i2) by (eapply Forall_lookup in Hi; [|exact K2]; cbn in Hi; lia).
  assert (i1 = i2) as -> by lia. exact (NoDup_lookup _ _ _ _ Hk K1 K2).
Qed.

Lemma split_ids (ids ids' : list nat) :
  NoDup ids → NoDup ids' → (∀ i, i ∈ ids' → i ∈ ids) →
  ids ≡ₚ ids' ++ filter (λ i, i ∉ ids') ids.
Proof.
  intros Hnd Hnd' Hsub. apply NoDup_Permutation; [done|apply NoDup_app; split_and!; [done| |by apply NoDup_filter]|].
  - intros i Hi [Hni _]%list_elem_of_filter. done.
  - intros i. rewrite elem_of_app, list_elem_of_filter. split.
    + intros Hi. destruct (decide (i ∈ ids')); auto.
    + intros [Hi|[_ Hi]]; auto.
Qed.

Lemma held_ids_nil tbl h ids :
  (∀ id r, id ∈ ids → h !! id = Some r → held tbl r = []) → held_ids tbl h ids = [].
Proof.
  induction ids as [|id ids IH]; intros Hh; [done|].
  change (held_ids tbl h (id :: ids)) with
    (match h !! id with Some r => held tbl r | None => [] end ++ held_ids tbl h ids).
  rewrite IH by (intros i r Hi; apply Hh; set_solver). rewrite app_nil_r.
  destruct (h !! id) as [r|] eqn:E; [|done]. eapply Hh; [|done]. set_solver.
Qed.

Lemma held_ids_perm tbl h ids ids' : ids ≡ₚ ids' → held_ids tbl h ids ≡ₚ held_ids tbl h ids'.
Proof.
  intros E. unfold held_ids. induction E; cbn [fmap list_fmap concat]; [done|by f_equiv| |by etrans].
  rewrite !app_assoc. f_equiv. apply Permutation_app_comm.
Qed.

Lemma held_ids_app tbl h ids ids' : held_ids tbl h (ids ++ ids') = held_ids tbl h ids ++ held_ids tbl h ids'.
Proof. unfold held_ids. by rewrite fmap_app, concat_app. Qed.

(** The requests that left hold nothing. *)
Lemma restrict_seated slots keep wd b' :
  seated 1 slots wd → NoDup keep → indices (length (b_reqs (batch wd))) keep →
  soa b' → entries b' = (entry (batch wd) ∘ Z.to_nat) <$> keep → b_return_logprob b' = false →
  (∀ j id r, b_reqs (batch wd) !! j = Some id → heap wd !! id = Some r → Z.of_nat j ∉ keep →
     gone r = true) →
  seated 1 slots (wd <| batch := b' |>).
Proof.
  intros Hs Hk Hi So E Hf Hgone. set (b := batch wd) in *.
  assert (Hnd' : NoDup (b_reqs b')) by (eapply restricted_nodup; [apply Hs|done..]).
  split; rsimpl; try done; try apply Hs.
  - intros k id Hid. destruct (restricted_sub keep b b' k id E Hid) as (i & Ki & Ji & Ee).
    destruct (sd_seat _ _ _ Hs _ _ Ji) as (r & Hr & Hlp & Hg & Hse). exists r. split_and!; try done.
    intros Hng. destruct (Hse Hng) as [A1 A2 A3 A4].
    apply entry_fields in Ee as (_ & E2 & E3). fold b in A2, A3.
    split; [done|congruence|congruence|done].
  - intros k1 k2 id id' r r' row H1 H2 Hr Hr' Er Er'.
    destruct (restricted_sub keep b b' k1 id E H1) as (i1 & K1 & J1 & _).
    destruct (restricted_sub keep b b' k2 id' E H2) as (i2 & K2 & J2 & _).
    pose proof (sd_rows _ _ _ Hs _ _ _ _ _ _ row J1 J2 Hr Hr' Er Er') as Ej.
    assert (0 ≤ i1) by (eapply Forall_lookup in Hi; [|exact K1]; cbn in Hi; lia).
    assert (0 ≤ i2) by (eapply Forall_lookup in Hi; [|exact K2]; cbn in Hi; lia).
    assert (i1 = i2) as -> by lia. exact (NoDup_lookup _ _ _ _ Hk K1 K2).
  - rewrite <- (sd_slots _ _ _ Hs). f_equiv. fold b.
    assert (Hsub : ∀ i, i ∈ b_reqs b' → i ∈ b_reqs b).
    { intros id [k Hid]%list_elem_of_lookup_1.
      destruct (restricted_sub keep b b' k id E Hid) as (i & _ & Ji & _). by eapply list_elem_of_lookup_2. }
    rewrite (held_ids_perm _ _ _ _ (split_ids (b_reqs b) (b_reqs b') (sd_nodup _ _ _ Hs) Hnd' Hsub)).
    rewrite held_ids_app, (held_ids_nil _ _ (filter _ _)), app_nil_r; [done|].
    intros id r [Hni Hin]%list_elem_of_filter Hr. apply list_elem_of_lookup_1 in Hin as [j Hj].
    apply held_none. destruct (sd_seat _ _ _ Hs j id Hj) as (r0 & Hr0 & _ & Hg & _).
    assert (r0 = r) as -> by congruence. apply Hg. eapply Hgone; [done|done|].
    intros Hkp. by eapply Hni, restricted_elem.
Qed.

End Prepare.
