(* ===== verification/ExtendFacts.v ===== *)
(** * Preparing a prefill batch

    [prepare_for_extend] on a batch of requests that hold no memory yet,
    without prefix caching: every request gets a row of its own and fresh
    slots for all its tokens.  The new batch is [seated] by itself, on the
    slots that were free before. *)

From S2P Require Import Prelude PyFloat Allocator AllocatorFacts Request ReqPool LLM42Info World MemCommon CacheLaws LLM42Worker WorkerFacts VerifyPool Scheduler OutputProcessor OutputFacts DecodeFacts DecodeStep DecodePass BatchOps BatchFacts PrepareFacts.
Import PoolFacts.

(** ** Rows *)

(** [locs] in pieces of the lengths [ns] *)
Fixpoint cut (ns : list Z) (locs : list Z) : list (list Z) :=
  match ns with
  | [] => []
  | n :: ns' => take (Z.to_nat n) locs :: cut ns' (drop (Z.to_nat n) locs)
  end.

Lemma cut_length ns locs : length (cut ns locs) = length ns.
Proof. revert locs. induction ns as [|n ns IH]; intros locs; cbn; [done|]. by rewrite IH. Qed.

Lemma cut_concat ns locs : Forall (λ n, 0 ≤ n) ns → zsum ns = len locs → concat (cut ns locs) = locs.
Proof.
  intros Hn. revert locs. induction Hn as [|n ns Hn Hns IH]; intros locs Hl; cbn in *.
  - symmetry. apply nil_length_inv. unfold len in Hl. unfold zsum in Hl. cbn in Hl. lia.
  - pose proof (zsum_nonneg _ Hns). unfold zsum in *. cbn in Hl. rewrite IH, take_drop; [done|].
    rewrite len_drop. lia.
Qed.

Lemma cut_lookup ns locs j p :
  Forall (λ n, 0 ≤ n) ns → zsum ns ≤ len locs → cut ns locs !! j = Some p → ∃ n, ns !! j = Some n ∧ len p = n.
Proof.
  intros Hn. revert locs j. induction Hn as [|n ns Hn Hns IH]; intros locs [|j] Hl Hj; try done; cbn in *.
  - injection Hj as <-. exists n. split; [done|]. pose proof (zsum_nonneg _ Hns). unfold zsum in *. cbn in Hl.
    rewrite len_take. lia.
  - eapply IH; [|exact Hj]. rewrite len_drop. unfold zsum in *. cbn in Hl. lia.
Qed.

(** The rows get their pieces. *)
Definition put_piece (t : list (list Z)) (x : Z * list Z) : list (list Z) :=
  alter (λ l, x.2 ++ drop (length x.2) l) (Z.to_nat x.1) t.
Definition put_pieces (t : list (list Z)) (xs : list (Z * list Z)) : list (list Z) := foldl put_piece t xs.

Lemma put_pieces_ne t xs i : i ∉ (λ x, Z.to_nat x.1) <$> xs → put_pieces t xs !! i = t !! i.
Proof.
  revert t. induction xs as [|x xs IH]; intros t Hi; [done|]. cbn in *. apply not_elem_of_cons in Hi as [H1 H2].
  rewrite IH by done. unfold put_piece. by rewrite list_lookup_alter_ne by done.
Qed.

Lemma put_pieces_length t xs : length (put_pieces t xs) = length t.
Proof. revert t. induction xs as [|x xs IH]; intros t; [done|]. cbn. unfold put_pieces in IH. rewrite IH. apply length_alter. Qed.

Lemma put_pieces_eq t xs x l :
  NoDup ((λ x, Z.to_nat x.1) <$> xs) → x ∈ xs → t !! Z.to_nat x.1 = Some l →
  put_pieces t xs !! Z.to_nat x.1 = Some (x.2 ++ drop (length x.2) l).
Proof.
  revert t. induction xs as [|y xs IH]; intros t Hnd Hx Hl; [by apply elem_of_nil in Hx|].
  cbn in Hnd. apply NoDup_cons in Hnd as [Hy Hnd]. apply elem_of_cons in Hx as [->|Hx]; cbn.
  - change (put_pieces (put_piece t y) xs !! Z.to_nat y.1 = Some (y.2 ++ drop (length y.2) l)).
    rewrite put_pieces_ne by done. unfold put_piece. by rewrite list_lookup_alter_eq, Hl.
  - apply IH; [done|done|]. unfold put_piece. rewrite list_lookup_alter_ne; [done|].
    intros E. apply Hy. rewrite E. by apply (list_elem_of_fmap_2 (λ x : Z * list Z, Z.to_nat x.1)).
Qed.

(** A row written from its start *)
Lemma write_start p row l vals :
  0 ≤ row → req_to_token p !! Z.to_nat row = Some l → len vals ≤ len l →
  Forall (λ x, 0 ≤ x < 2 ^ 31) vals →
  Pool.write row 0 (len vals) vals p = Ok (p <| req_to_token ::= λ t, put_piece t (row, vals) |>).
Proof.
  intros Hr Hl Hv Hf. unfold Pool.write. rewrite (getitem_nth _ _ _ Hr Hl). cbn [mbind res_bind].
  assert (Em : to_int32 <$> vals = vals).
  { clear Hv. induction Hf as [|x xs Hx _ IH]; [done|]. cbn. by rewrite to_int32_id, IH. }
  rewrite Em. unfold Pool.set_slice. pose proof (len_nonneg vals) as Hn.
  assert (En : len (slice l 0 (len vals)) = len vals) by (rewrite slice_nonneg, len_take, len_drop by lia; lia).
  rewrite En, Z.eqb_refl. cbn [mbind res_bind]. apply lookup_lt_Some in Hl as Hlt.
  replace row with (Z.of_nat (Z.to_nat row)) at 1 by lia. rewrite setitem_ok by lia. cbn [mbind res_bind].
  rewrite adj_in by lia. cbn [Z.to_nat take app Nat.add].
  unfold put_piece. cbn [fst snd]. replace (Z.to_nat (len vals)) with (length vals) by (unfold len; lia).
  assert (E : <[Z.to_nat row := vals ++ drop (length vals) l]> (req_to_token p)
              = alter (λ l, vals ++ drop (length vals) l) (Z.to_nat row) (req_to_token p)).
  { apply list_eq. intros i. destruct (decide (i = Z.to_nat row)) as [->|Hne].
    - rewrite list_lookup_insert_eq, list_lookup_alter_eq, Hl by done. done.
    - by rewrite list_lookup_insert_ne, list_lookup_alter_ne by done. }
  change (take (Z.to_nat 0) l ++ vals ++ drop (Z.to_nat 0 + length vals) l) with (vals ++ drop (length vals) l).
  rewrite E. by destruct p.
Qed.

(** ** Requests without memory *)

Record fresh_req (width : Z) (r : Req) : Prop := {
  fq_row : req_pool_idx r = None;
  fq_prefix : prefix_indices r = [];
  fq_fill : fill_ids r = origin_input_ids r ++ output_ids r;
  fq_extend : extend_input_len r = seqlen r;
  fq_prompt : 0 < len (origin_input_ids r);
  fq_plain : grammar r = None ∧ return_logprob r = false;
  fq_finish : finished_reason r = None;
  fq_freed : kv_committed_freed r = false ∧ kv_overallocated_freed r = false;
  fq_time : completion_time r = 0;
  fq_out : finished_output r = false;
  fq_room : len (output_ids r) < max_new_tokens (sampling_params r);
  fq_width : len (origin_input_ids r) + max_new_tokens (sampling_params r) ≤ width
}.

Lemma fq_len width r : fresh_req width r → len (fill_ids r) = seqlen r.
Proof. intros Fr. by rewrite (fq_fill _ _ Fr), len_app. Qed.

(** The request with its row and its KV cache *)
Definition extended (r : Req) (row : Z) : Req :=
  let n := len (fill_ids r) in
  let r := r <| req_pool_idx := Some row |> <| extend_batch_idx ::= λ n, n + 1 |>
             <| kv_committed_len := n |> <| kv_allocated_len := n |> in
  let r := if retracted_stain r then r else r <| already_computed := n |> in
  r <| is_retracted := false |>.

Lemma seqlen_pos r : 0 < len (origin_input_ids r) → 0 < seqlen r.
Proof. intros. unfold seqlen. pose proof (len_nonneg (output_ids r)). lia. Qed.

Section Extend.
Context `{Externals}.
Implicit Types (wd : World ChunkCache) (r : Req).

(** *** Rows for the requests *)

Lemma assign_fresh width rs rows :
  Forall (fresh_req width) rs → length rows = length rs →
  Pool.assign_slots rs rows = zip_with (λ r row, r <| req_pool_idx := Some row |>) rs rows.
Proof.
  intros F. revert rows. induction F as [|r rs Hr _ IH]; intros [|row rows] Hl; try done. cbn.
  rewrite (fq_row _ _ Hr), IH by (cbn in Hl; lia). done.
Qed.

Lemma no_chunked width rs : Forall (fresh_req width) rs → filter (λ r, is_Some (req_pool_idx r)) rs = [].
Proof.
  induction 1 as [|r rs Hr _ IH]; [done|]. rewrite filter_cons, decide_False; [done|].
  rewrite (fq_row _ _ Hr). by intros [? ?].
Qed.

Lemma mapM_rows (rs : list Req) rows :
  length rows = length rs →
  mapM (M := res) (λ r, of_option TypeError (req_pool_idx r)) (zip_with (λ r row, r <| req_pool_idx := Some row |>) rs rows)
  = Ok rows.
Proof.
  revert rows. induction rs as [|r rs IH]; intros [|row rows] Hl; try done. cbn. rsimpl. rewrite IH; [done|]. cbn in Hl. lia.
Qed.

Lemma alloc_req_slots_fresh width wd ids rs :
  at_heap wd ids rs → Forall (fresh_req width) rs → len rs ≤ len (free_slots (rtp wd)) →
  let rows := take (length rs) (free_slots (rtp wd)) in
  Mem.alloc_req_slots ids wd
  = (Ok rows, wd <| rtp := (rtp wd) <| free_slots := drop (length rs) (free_slots (rtp wd)) |> |>
                 <| heap ::= insert_all ids (zip_with (λ r row, r <| req_pool_idx := Some row |>) rs rows) |>).
Proof.
  intros F Hf Hl rows. unfold Mem.alloc_req_slots. rewrite (bind_ok _ _ _ _ _ (reqs_at_ok _ _ _ F)).
  rewrite (bind_ok _ _ wd (rtp wd) wd) by done.
  assert (Hrl : length rows = length rs) by (unfold rows; rewrite length_take; unfold len in Hl; lia).
  set (rs' := zip_with (λ r row, r <| req_pool_idx := Some row |>) rs rows).
  set (p := (rtp wd) <| free_slots := drop (length rs) (free_slots (rtp wd)) |>).
  assert (E : Pool.alloc rs (rtp wd) = Ok (Some (rs', p))).
  { unfold Pool.alloc. rewrite (no_chunked _ _ Hf). cbn [forallb negb]. rewrite len_nil. cbn [Z.leb negb].
    rewrite Z.sub_0_r. destruct (Z.ltb_spec (len (free_slots (rtp wd))) (len rs)); [lia|].
    rewrite slice_to_take, slice_from_drop by apply len_nonneg.
    replace (Z.to_nat (len rs)) with (length rs) by (unfold len; lia). fold rows.
    by rewrite (assign_fresh width). }
  rewrite (bind_ok _ _ wd (Some (rs', p)) wd) by (unfold lift; by rewrite E).
  rewrite (bind_ok _ _ wd (rs', p) wd) by done. set (w1 := wd <| rtp := p |>).
  rewrite (bind_ok _ _ wd tt w1) by done.
  rewrite (bind_ok _ _ _ _ _ (set_reqs_ok ids rs' w1)). unfold lift, rs'. rewrite mapM_rows by done. done.
Qed.

(** *** Writing the rows *)

Definition write_jobs (rows : list Z) (rs : list Req) :=
  zip (zip (zip (zip rows ((λ r, len (prefix_indices r)) <$> rs)) ((λ r, len (fill_ids r)) <$> rs))
         (extend_input_len <$> rs)) (prefix_indices <$> rs).

Lemma write_loop width locs rs : ∀ rows pt wd,
  Forall (fresh_req width) rs → length rows = length rs → NoDup (Z.to_nat <$> rows) →
  Forall (λ row, 0 ≤ row ∧ ∃ l, req_to_token (rtp wd) !! Z.to_nat row = Some l ∧ width ≤ len l) rows →
  0 ≤ pt → pt + zsum (seqlen <$> rs) ≤ len locs → Forall (λ x, 0 ≤ x < 2 ^ 31) locs →
  ∃ e, foldM (Mem.write_one_req locs) pt (write_jobs rows rs) wd
  = (Ok e, wd <| rtp ::= λ p, p <| req_to_token ::= λ t,
       put_pieces t (zip rows (cut (seqlen <$> rs) (drop (Z.to_nat pt) locs))) |> |>).
Proof.
  induction rs as [|r rs IH]; intros [|row rows] pt wd F Hl Hnd Hr Hpt Hs Hf; try done.
  { exists pt. cbn. by destruct wd as [? ? []]. }
  apply Forall_cons in F as [Fr F]. apply Forall_cons in Hr as [(H0 & l & El & Hw) Hr].
  cbn in Hnd. apply NoDup_cons in Hnd as [Hn Hnd].
  pose proof (seqlen_pos r (fq_prompt _ _ Fr)) as Hsq.
  assert (Hz : 0 ≤ zsum (seqlen <$> rs)).
  { apply zsum_nonneg, Forall_fmap. eapply Forall_impl; [exact F|]. intros r' Hr'. cbn. pose proof (seqlen_pos r' (fq_prompt _ _ Hr')). lia. }
  assert (Hz' : zsum (seqlen <$> r :: rs) = seqlen r + zsum (seqlen <$> rs)) by done. rewrite Hz' in Hs.
  cbn [write_jobs zip zip_with fmap list_fmap foldM]. unfold Mem.write_one_req at 1.
  rewrite (fq_prefix _ _ Fr), (fq_len _ _ Fr), (fq_extend _ _ Fr), len_nil.
  set (piece := take (Z.to_nat (seqlen r)) (drop (Z.to_nat pt) locs)).
  assert (Hlp : len piece = seqlen r) by (unfold piece; rewrite len_take, len_drop; lia).
  assert (Es : slice locs pt (pt + seqlen r) = piece).
  { rewrite slice_nonneg by lia. unfold piece. f_equal. lia. }
  assert (Hwid : seqlen r ≤ len l).
  { pose proof (fq_width _ _ Fr). pose proof (fq_room _ _ Fr). unfold seqlen. lia. }
  assert (E0 : on_rtp (Pool.write row 0 0 []) wd = (Ok tt, wd)).
  { unfold on_rtp. rewrite (write_start _ row l [] H0 El (len_nonneg l) (List.Forall_nil _) : Pool.write row 0 0 [] (rtp wd) = _).
    assert (Ep : put_piece (req_to_token (rtp wd)) (row, []) = req_to_token (rtp wd)).
    { unfold put_piece. cbn. by apply list_alter_id. }
    assert (Ew : (rtp wd) <| req_to_token ::= λ t, put_piece t (row, []) |> = rtp wd).
    { revert Ep. destruct (rtp wd) as [? ? t ?]. cbn. intros Ep. unfold upd, set_req_to_token. cbn. by f_equal. }
    rewrite Ew. by destruct wd. }
  set (w1 := wd <| rtp ::= λ p, p <| req_to_token ::= λ t, put_piece t (row, piece) |> |>).
  assert (E1 : on_rtp (Pool.write row 0 (seqlen r) piece) wd = (Ok tt, w1)).
  { unfold on_rtp. rewrite <- Hlp. rewrite (write_start _ row l piece H0 El); [by destruct wd|lia|].
    by apply Forall_take, Forall_drop. }
  assert (E2 : (on_rtp (Pool.write row 0 0 []);; on_rtp (Pool.write row 0 (seqlen r) (slice locs pt (pt + seqlen r)));;
                mret (pt + seqlen r)) wd = (Ok (pt + seqlen r), w1)).
  { rewrite (bind_ok _ _ _ _ _ E0), Es. by rewrite (bind_ok _ _ _ _ _ E1). }
  rewrite E2. destruct (IH rows (pt + seqlen r) w1) as (e & Ee); try done; [cbn in Hl; lia| |lia|lia|].
  { eapply Forall_impl; [apply Forall_forall; intros row' Hrow'; exact (conj Hrow' (proj1 (Forall_forall _ _) Hr row' Hrow'))|].
    cbn. intros row' (Hin & H0' & l' & El' & Hw'). split; [done|]. exists l'. split; [|done]. unfold w1. rsimpl.
    unfold put_piece. rewrite list_lookup_alter_ne; [done|]. cbn. intros E. apply Hn. rewrite E. by apply list_elem_of_fmap_2. }
  exists e. etrans; [exact Ee|]. unfold w1. cbn [fmap list_fmap cut zip zip_with put_pieces foldl]. rewrite drop_drop.
  replace (Z.to_nat pt + Z.to_nat (seqlen r))%nat with (Z.to_nat (pt + seqlen r)) by lia.
  by destruct wd as [? ? []].
Qed.

(** *** The requests *)

Definition with_row (r : Req) (row : Z) : Req := r <| req_pool_idx := Some row |>.

Lemma extend_one width wd id r row :
  fresh_req width r → heap wd !! id = Some (with_row r row) →
  BatchOps.extend_req (id, row, len (fill_ids r), len (prefix_indices r)) wd
  = (Ok tt, wd <| heap ::= <[id := extended r row]> |>).
Proof.
  intros Fr Hr. unfold BatchOps.extend_req.
  rewrite (bind_ok _ _ wd (with_row r row) wd) by (unfold req_at; by rewrite Hr).
  assert (E1 : set_req id ((with_row r row) <| req_pool_idx := Some row |>) wd = (Ok tt, wd)).
  { assert (E0 : (with_row r row) <| req_pool_idx := Some row |> = with_row r row) by (by destruct r).
    rewrite E0. unfold set_req, modify. do 2 f_equal. destruct wd as [h ? ? ? ?]. cbn in Hr. unfold upd, set_heap. cbn.
    by rewrite insert_id. }
  rewrite (bind_ok _ _ _ _ _ E1).
  rewrite (bind_ok _ _ wd tt wd).
  2:{ unfold assert_. change (extend_input_len (with_row r row)) with (extend_input_len r).
      by rewrite (fq_prefix _ _ Fr), (fq_len _ _ Fr), (fq_extend _ _ Fr), len_nil, Z.sub_0_r, Z.eqb_refl. }
  unfold upd_req. rewrite (bind_ok _ _ wd (with_row r row) wd) by (unfold req_at; by rewrite Hr).
  reflexivity.
Qed.

Lemma extend_loop width rs : ∀ ids rows wd,
  Forall (fresh_req width) rs → NoDup ids → length rows = length rs →
  at_heap wd ids (zip_with with_row rs rows) →
  for_ (zip (zip (zip ids rows) ((λ r, len (fill_ids r)) <$> rs)) ((λ r, len (prefix_indices r)) <$> rs))
    BatchOps.extend_req wd
  = (Ok tt, wd <| heap ::= insert_all ids (zip_with extended rs rows) |>).
Proof.
  induction rs as [|r rs IH]; intros ids [|row rows] wd F Hnd Hl Hh; try done.
  { inversion Hh; subst. by destruct wd. }
  apply Forall_cons in F as [Fr F]. cbn in Hh. inversion Hh as [|id ? ids' ? Hid Hh']; subst.
  apply NoDup_cons in Hnd as [Hn Hnd]. cbn [zip zip_with fmap list_fmap for_ insert_all].
  rewrite (extend_one width _ _ _ _ Fr Hid). set (w1 := wd <| heap ::= <[id := extended r row]> |>).
  rewrite (IH ids' rows w1); [by destruct wd|done|done|cbn in Hl; lia|].
  clear -Hh' Hn. unfold at_heap in *. induction Hh' as [|i x js xs Hi _ IH]; constructor.
  - unfold w1. rsimpl. rewrite lookup_insert_ne; [done|]. intros ->. apply Hn. apply list_elem_of_here.
  - apply IH. intros Hin. apply Hn. by apply list_elem_of_further.
Qed.

(** *** Memory for the batch *)

Lemma insert_all_at wd ids rs :
  NoDup ids → length rs = length ids → at_heap (wd <| heap ::= insert_all ids rs |>) ids rs.
Proof.
  intros Hnd Hl. apply Forall2_same_length_lookup_2; [done|]. intros k id r Hk Hr. rsimpl. by eapply insert_all_in.
Qed.

Lemma insert_all_again ids xs ys h :
  NoDup ids → length xs = length ids → length ys = length ids →
  insert_all ids ys (insert_all ids xs h) = insert_all ids ys h.
Proof.
  intros Hnd Hx Hy. apply map_eq. intros id. destruct (decide (id ∈ ids)) as [Hin|Hn].
  - apply list_elem_of_lookup_1 in Hin as [j Hj]. destruct (lookup_lt_is_Some_2 ys j) as [y Hyj].
    { apply lookup_lt_Some in Hj. lia. }
    by rewrite !(insert_all_in _ _ _ j id y).
  - by rewrite !insert_all_notin.
Qed.

Lemma alloc_for_extend_fresh width wd rs :
  let b := batch wd in
  let rows := take (length rs) (free_slots (rtp wd)) in
  at_heap wd (b_reqs b) rs → Forall (fresh_req width) rs → NoDup (b_reqs b) →
  b_prefix_lens b = (λ r, len (prefix_indices r)) <$> rs → b_seq_lens b = (λ r, len (fill_ids r)) <$> rs →
  b_extend_lens b = extend_input_len <$> rs → b_extend_num_tokens b = zsum (seqlen <$> rs) →
  len rs ≤ len (free_slots (rtp wd)) → rtp_wf (rtp wd) → width ≤ max_context_len (rtp wd) →
  kv_ok (kv wd) → cc_page_size (cache wd) = 1 → zsum (seqlen <$> rs) ≤ available_size (kv wd) →
  ∃ locs k, Mem.alloc_for_extend wd = (Ok (locs, rows),
      mkWorld (insert_all (b_reqs b) (zip_with with_row rs rows) (heap wd)) k
        ((rtp wd) <| free_slots := drop (length rs) (free_slots (rtp wd)) |>
                  <| req_to_token ::= λ t, put_pieces t (zip rows (cut (seqlen <$> rs) locs)) |>)
        (cache wd) b) ∧
    kv_ok k ∧ len locs = zsum (seqlen <$> rs) ∧ pool (kv wd) ≡ₚ locs ++ pool k ∧ capacity k = capacity (kv wd).
Proof.
  intros b rows F Hf Hnd Ep Es Ee En Hfree [Hrows Hfs Hfnd] Hw Hk Hp Hav.
  assert (Hrl : length rows = length rs) by (unfold rows; rewrite length_take; unfold len in Hfree; lia).
  assert (Hz : 0 ≤ zsum (seqlen <$> rs)).
  { apply zsum_nonneg, Forall_fmap. eapply Forall_impl; [exact Hf|]. intros r Hr. cbn. pose proof (seqlen_pos r (fq_prompt _ _ Hr)). lia. }
  destruct (alloc_token_ok (zsum (seqlen <$> rs)) (kv wd) Hk) as (locs & k & Ea & Hk' & Hl & Hpl & Hc); [lia|].
  exists locs, k. split; [|done]. unfold Mem.alloc_for_extend. rewrite (bind_ok _ _ wd b wd) by done.
  rewrite (bind_ok _ _ _ _ _ (reqs_at_ok _ _ _ F)).
  rewrite (bind_ok _ _ _ _ _ (alloc_req_slots_fresh width wd _ rs F Hf Hfree)). fold rows.
  set (w1 := wd <| rtp := _ |> <| heap ::= _ |>). rewrite (bind_ok _ _ w1 (cache wd) w1) by done.
  change (tree_page_size (cache wd)) with (cc_page_size (cache wd)). rewrite Hp, Z.eqb_refl, En.
  set (w2 := w1 <| kv := k |>).
  assert (Et : Mem.alloc_token_slots (zsum (seqlen <$> rs)) w1 = (Ok locs, w2)).
  { unfold Mem.alloc_token_slots, Mem.evict_from_tree_cache. cbn [is_chunk_cache chunk_cache].
    rewrite (bind_ok _ _ w1 tt w1) by done. rewrite (bind_ok _ _ w1 (Some locs) w2); [done|].
    unfold on_kv. change (kv w1) with (kv wd). by rewrite Ea. }
  rewrite (bind_ok _ _ _ _ _ Et). unfold Mem.write_cache_indices. rewrite Ep, Es, Ee.
  assert (Hin : ∀ row, row ∈ rows → 0 ≤ row < len (req_to_token (rtp wd))).
  { intros row Hrow. apply (proj1 (Forall_forall _ _) Hfs). by eapply subseteq_take. }
  destruct (write_loop width locs rs rows 0 w2 Hf Hrl) as (e & Ew).
  - apply NoDup_fmap_2_strong; [|by eapply sublist_NoDup; [|apply sublist_take]].
    intros x y Hx Hy. apply Hin in Hx, Hy. lia.
  - apply Forall_forall. intros row Hrow. destruct (Hin row Hrow) as [H0 H1]. split; [done|].
    destruct (lookup_lt_is_Some_2 (req_to_token (rtp wd)) (Z.to_nat row)) as [l Hll]; [unfold len in H1; lia|].
    exists l. split; [done|]. rewrite (Forall_lookup_1 _ _ _ _ Hrows Hll). done.
  - lia.
  - lia.
  - apply Forall_forall. intros x Hx. assert (x ∈ pool (kv wd)) as Hxp by (rewrite Hpl; set_solver).
    pose proof (proj1 (Forall_forall _ _) (wf_range _ (ko_wf _ Hk)) x Hxp) as Hxr. cbn in Hxr. pose proof (ko_int32 _ Hk). lia.
  - fold (write_jobs rows rs). match type of Ew with _ = (_, ?w3) => rewrite (bind_ok _ _ w2 tt w3) end;
      [|by rewrite (bind_ok _ _ _ _ _ Ew)].
    cbn [drop Z.to_nat]. by destruct wd as [? ? [] ? ?].
Qed.
(** *** The request in its seat *)

Lemma extended_seq r row : seqlen (extended r row) = seqlen r.
Proof. unfold extended, seqlen. destruct (retracted_stain _); by rsimpl. Qed.

Lemma extended_running width tbl r row l :
  fresh_req width r → 0 ≤ row → tbl !! Z.to_nat row = Some l → width ≤ len l →
  running tbl 0 (extended r row) ∧ req_pool_idx (extended r row) = Some row ∧
  kv_committed_len (extended r row) = seqlen r ∧ kv_committed_freed (extended r row) = false.
Proof.
  intros Fr H0 Hl Hw. pose proof (fq_len _ _ Fr) as Ef.
  assert (Hlen : seqlen r ≤ len l) by (pose proof (fq_width _ _ Fr); pose proof (fq_room _ _ Fr); unfold seqlen; lia).
  assert (Hk : kv_committed_len (extended r row) = seqlen r ∧ kv_allocated_len (extended r row) = seqlen r).
  { unfold extended. destruct (retracted_stain _); rsimpl; by rewrite Ef. }
  assert (Hrow : req_pool_idx (extended r row) = Some row) by (unfold extended; destruct (retracted_stain _); by rsimpl).
  pose proof (extended_seq r row) as Es. destruct Hk as [Hc Ha]. split_and!; [|done|done|].
  - split; [..|by rewrite Hc, Ha, Es, Z.sub_0_r| | | |].
    5:{ exists row, l. rewrite Hc. done. }
    all: unfold extended; destruct (retracted_stain _); rsimpl; apply Fr || done.
  - unfold extended. destruct (retracted_stain _); rsimpl; apply Fr.
Qed.
(** The slots of the request are its piece. *)
Lemma extended_held width tbl r row piece l :
  fresh_req width r → 0 ≤ row → tbl !! Z.to_nat row = Some (piece ++ l) → width ≤ len (piece ++ l) →
  len piece = seqlen r → Forall (λ x, 1 ≤ x) piece → held tbl (extended r row) = piece.
Proof.
  intros Fr H0 Hl Hw Hp Hn. destruct (extended_running width tbl r row _ Fr H0 Hl Hw) as (_ & Er & Ek & Ef).
  unfold held, committed_slots. rewrite Ef, Er, Hl, Ek, <- Hp.
  rewrite slice_to_take by apply len_nonneg. replace (Z.to_nat (len piece)) with (length piece) by (unfold len; lia).
  rewrite take_app_length. unfold Chunk.nonzero. clear -Hn. induction Hn as [|x xs Hx _ IH]; [done|].
  rewrite filter_cons, decide_True by lia. by f_equal.
Qed.

(** The batch of the requests, with the rows and the pieces *)
Section Seats.
Context (width : Z) (wd : World ChunkCache) (rs : list Req) (rows locs : list Z).
Context (Hf : Forall (fresh_req width) rs) (Hrl : length rows = length rs).
Context (Hnd : NoDup (b_reqs (batch wd))) (Hlen : length (b_reqs (batch wd)) = length rs).
Context (Hrow : Forall (λ row, 0 ≤ row ∧ ∃ l, req_to_token (rtp wd) !! Z.to_nat row = Some l ∧ width ≤ len l) rows).
Context (Hrnd : NoDup rows) (Hl : len locs = zsum (seqlen <$> rs)) (Hpos : Forall (λ x, 1 ≤ x) locs).

Let tbl := put_pieces (req_to_token (rtp wd)) (zip rows (cut (seqlen <$> rs) locs)).
Let h := insert_all (b_reqs (batch wd)) (zip_with extended rs rows) (heap wd).

Lemma seqlens_nonneg : Forall (λ n, 0 ≤ n) (seqlen <$> rs).
Proof.
  apply Forall_fmap. eapply Forall_impl; [exact Hf|]. intros r Hr. cbn. pose proof (seqlen_pos r (fq_prompt _ _ Hr)). lia.
Qed.

Lemma extended_at j r :
  rs !! j = Some r → ∃ id row piece l, b_reqs (batch wd) !! j = Some id ∧ rows !! j = Some row ∧ 0 ≤ row ∧
    cut (seqlen <$> rs) locs !! j = Some piece ∧ len piece = seqlen r ∧ Forall (λ x, 1 ≤ x) piece ∧
    tbl !! Z.to_nat row = Some (piece ++ l) ∧ width ≤ len (piece ++ l) ∧ h !! id = Some (extended r row) ∧
    len <$> req_to_token (rtp wd) !! Z.to_nat row = Some (len (piece ++ l)).
Proof.
  intros Hj. apply lookup_lt_Some in Hj as Hlt.
  destruct (lookup_lt_is_Some_2 (b_reqs (batch wd)) j) as [id Hid]; [lia|].
  destruct (lookup_lt_is_Some_2 rows j) as [row Hr]; [lia|].
  destruct (lookup_lt_is_Some_2 (cut (seqlen <$> rs) locs) j) as [piece Hp]; [rewrite cut_length, length_fmap; lia|].
  destruct (cut_lookup _ _ _ _ seqlens_nonneg (Z.eq_le_incl _ _ (eq_sym Hl)) Hp) as (n & Hn & Hpl).
  rewrite list_lookup_fmap, Hj in Hn. injection Hn as <-.
  destruct (Forall_lookup_1 _ _ _ _ Hrow Hr) as (H0 & l & El & Hw).
  assert (Hw' : len piece ≤ len l).
  { pose proof (Forall_lookup_1 _ _ _ _ Hf Hj) as Fr. rewrite Hpl. pose proof (fq_width _ _ Fr). pose proof (fq_room _ _ Fr). unfold seqlen. lia. }
  exists id, row, piece, (drop (length piece) l). split_and!; try done.
  - assert (Hc : concat (cut (seqlen <$> rs) locs) = locs) by (apply cut_concat; [apply seqlens_nonneg|lia]).
    pose proof Hpos as Hq. rewrite <- Hc in Hq. apply List.Forall_concat in Hq. by apply (Forall_lookup_1 _ _ _ _ Hq Hp).
  - unfold tbl. apply (put_pieces_eq _ _ (row, piece) l); [|eapply list_elem_of_lookup_2|done].
    + assert (E : (λ x : Z * list Z, Z.to_nat x.1) <$> zip rows (cut (seqlen <$> rs) locs) = Z.to_nat <$> rows).
      { change ((Z.to_nat ∘ fst) <$> zip rows (cut (seqlen <$> rs) locs) = Z.to_nat <$> rows).
        rewrite (list_fmap_compose fst Z.to_nat), fst_zip; [done|]. rewrite cut_length, length_fmap. lia. }
      rewrite E. apply NoDup_fmap_2_strong; [|done]. intros x y Hx Hy.
      destruct (proj1 (Forall_forall _ _) Hrow x Hx) as [? _], (proj1 (Forall_forall _ _) Hrow y Hy) as [? _]. lia.
    + rewrite lookup_zip_with, Hr, Hp. done.
  - rewrite len_app, len_drop. unfold len in *. lia.
  - unfold h. eapply insert_all_in; [done|done|]. by rewrite lookup_zip_with, Hj, Hr.
  - rewrite El. cbn. f_equal. rewrite len_app, len_drop. unfold len in *. lia.
Qed.

Lemma extended_held_all : held_ids tbl h (b_reqs (batch wd)) = locs.
Proof.
  rewrite <- (cut_concat (seqlen <$> rs) locs seqlens_nonneg (eq_sym Hl)) at 1. unfold held_ids. f_equal.
  apply list_eq. intros j. rewrite list_lookup_fmap.
  destruct (rs !! j) as [r|] eqn:Hj.
  - destruct (extended_at j r Hj) as (id & row & piece & l & Hid & Hr & H0 & Hp & Hpl & Hpp & Ht & Hw & Hh & _).
    rewrite Hid, Hp. cbn. rewrite Hh. f_equal.
    by eapply extended_held; [eapply Forall_lookup_1; [exact Hf|done]|..].
  - apply lookup_ge_None in Hj. rewrite !(proj2 (lookup_ge_None _ _)); [done|rewrite cut_length, length_fmap; lia|lia].
Qed.

(** The other rows stay as they are, and all keep their width. *)
Lemma extended_others i : i ∉ Z.to_nat <$> rows → tbl !! i = req_to_token (rtp wd) !! i.
Proof.
  intros Hi. unfold tbl. apply put_pieces_ne. intros Hin. apply Hi.
  apply list_elem_of_fmap in Hin as ([row piece] & -> & Hx). apply elem_of_zip_l in Hx. by apply list_elem_of_fmap_2.
Qed.

Lemma extended_width n :
  Forall (λ l, len l = n) (req_to_token (rtp wd)) → Forall (λ l, len l = n) tbl.
Proof.
  intros Ha. apply Forall_lookup_2. intros i l Hi. destruct (decide (i ∈ Z.to_nat <$> rows)) as [Hin|Hn].
  - apply list_elem_of_fmap in Hin as (row & -> & Hin). apply list_elem_of_lookup_1 in Hin as [j Hj].
    destruct (lookup_lt_is_Some_2 rs j) as [r Hr]; [apply lookup_lt_Some in Hj; lia|].
    destruct (extended_at j r Hr) as (id & row' & piece & l' & _ & Hro & _ & _ & _ & _ & Ht & _ & _ & El).
    assert (row' = row) as -> by congruence. assert (l = piece ++ l') as -> by congruence.
    destruct (req_to_token (rtp wd) !! Z.to_nat row) as [l0|] eqn:E0; [|done]. injection El as <-.
    by apply (Forall_lookup_1 _ _ _ _ Ha E0).
  - rewrite extended_others in Hi by done. by eapply (Forall_lookup_1 _ _ _ _ Ha).
Qed.

Lemma extended_seats b k p :
  kv_ok k → cc_page_size (cache wd) = 1 → pool (kv wd) ≡ₚ locs ++ pool k → capacity k = capacity (kv wd) →
  wf (kv wd) → req_to_token p = tbl → b_reqs b = b_reqs (batch wd) → soa b → b_return_logprob b = false →
  b_req_pool_indices b = rows → b_seq_lens b = seqlen <$> rs →
  let wd' := mkWorld h k p (cache wd) b in seated 0 (pool (kv wd)) wd' ∧ all_going wd'.
Proof.
  intros Hk Hp Hpl Hc Hwf Ht Er Hs Hlp Hri Hse wd'.
  assert (Hat : ∀ j id, b_reqs b !! j = Some id → ∃ r row l, rs !! j = Some r ∧ rows !! j = Some row ∧
            h !! id = Some (extended r row) ∧ tbl !! Z.to_nat row = Some l ∧ width ≤ len l ∧ fresh_req width r ∧
            running tbl 0 (extended r row) ∧ req_pool_idx (extended r row) = Some row).
  { intros j id Hj. rewrite Er in Hj. apply lookup_lt_Some in Hj as Hlt.
    destruct (lookup_lt_is_Some_2 rs j) as [r Hr]; [lia|].
    destruct (extended_at j r Hr) as (id' & row & piece & l & Hid & Hro & H0 & _ & _ & _ & Htb & Hw & Hh & _).
    assert (id' = id) as -> by congruence. pose proof (Forall_lookup_1 _ _ _ _ Hf Hr) as Fr.
    destruct (extended_running width tbl r row _ Fr H0 Htb Hw) as (R1 & R2 & _). exists r, row, (piece ++ l). done. }
  split.
  - split; cbn [batch heap rtp kv cache wd']; rewrite ?Ht; try done.
    + by rewrite Er.
    + intros j id Hj. destruct (Hat j id Hj) as (r & row & l & Hr & Hro & Hh & Htb & Hw & Fr & R1 & R2).
      exists (extended r row). split_and!; [done|apply R1| |].
      { rewrite (running_here _ _ _ R1). done. }
      intros _. split; [done|by rewrite Hri, R2| |].
      * rewrite Hse, list_lookup_fmap, Hr, extended_seq, Z.sub_0_r. done.
      * rewrite R2. intros row' l' [= <-]. rewrite Htb. intros [= <-].
        pose proof (fq_width _ _ Fr). unfold extended. destruct (retracted_stain _); rsimpl; lia.
    + intros i j id id' r r' row Hi Hj Hr Hr' E1 E2.
      destruct (Hat i id Hi) as (x & rx & _ & _ & Hrx & Hh & _ & _ & _ & _ & R).
      destruct (Hat j id' Hj) as (y & ry & _ & _ & Hry & Hh' & _ & _ & _ & _ & R').
      assert (rx = row) as -> by congruence. assert (ry = row) as -> by congruence.
      by eapply NoDup_lookup.
    + rewrite Er, extended_held_all, Hpl. apply Permutation_app_comm.
    + rewrite Hc. split; apply Hwf.
  - intros id r Hin Hr. apply list_elem_of_lookup_1 in Hin as [j Hj]. cbn in Hj, Hr.
    destruct (Hat j id Hj) as (x & row & l & _ & _ & Hh & _ & _ & _ & R1 & _).
    assert (r = extended x row) as -> by congruence. by eapply running_here.
Qed.
End Seats.

(** *** [prepare_for_extend] *)

(** Free rows are rows of the table, wide enough. *)
Lemma free_rows width p n :
  rtp_wf p → width ≤ max_context_len p →
  Forall (λ row, 0 ≤ row ∧ ∃ l, req_to_token p !! Z.to_nat row = Some l ∧ width ≤ len l) (take n (free_slots p)) ∧
  NoDup (take n (free_slots p)).
Proof.
  intros [Hrows Hfs Hnd] Hw. split; [|by eapply sublist_NoDup; [|apply sublist_take]].
  apply Forall_take. eapply Forall_impl; [exact Hfs|]. cbn. intros row [H0 H1]. split; [done|].
  destruct (lookup_lt_is_Some_2 (req_to_token p) (Z.to_nat row)) as [l Hl]; [unfold len in H1; lia|].
  exists l. split; [done|]. by rewrite (Forall_lookup_1 _ _ _ _ Hrows Hl).
Qed.

(** There are rows and slots for the requests. *)
Record room_for (width : Z) (rs : list Req) (wd : World ChunkCache) : Prop := {
  rf_fresh : Forall (fresh_req width) rs;
  rf_table : rtp_wf (rtp wd);
  rf_width : width ≤ max_context_len (rtp wd);
  rf_rows : len rs ≤ len (free_slots (rtp wd));
  rf_kv : kv_ok (kv wd);
  rf_page : cc_page_size (cache wd) = 1;
  rf_slots : zsum (seqlen <$> rs) ≤ available_size (kv wd)
}.

(** The first [n] free rows are taken. *)
Record took_rows (n : nat) (p p' : ReqToTokenPool) : Prop := {
  tr_wf : rtp_wf p';
  tr_width : max_context_len p' = max_context_len p;
  tr_free : free_slots p' = drop n (free_slots p);
  tr_others : ∀ i, i ∉ Z.to_nat <$> take n (free_slots p) → req_to_token p' !! i = req_to_token p !! i
}.

(** The batch before the memory, and after it *)
Definition extend_start (rs : list Req) (b : ScheduleBatch) : ScheduleBatch :=
  b <| b_forward_mode := Some EXTEND |>
    <| b_prefix_lens := (λ r, len (prefix_indices r)) <$> rs |> <| b_extend_lens := extend_input_len <$> rs |>
    <| b_seq_lens := seqlen <$> rs |> <| b_seq_lens_cpu := seqlen <$> rs |>
    <| b_extend_num_tokens := zsum (seqlen <$> rs) |>.

Definition extend_batch (det : bool) (rs rs' : list Req) (rows locs : list Z) (b : ScheduleBatch) : ScheduleBatch :=
  (extend_start rs b)
    <| b_input_ids := Some (concat ((λ r, slice_from (fill_ids r) (len (prefix_indices r))) <$> rs)) |>
    <| b_req_pool_indices := rows |>
    <| b_orig_seq_lens := (λ r, Z.max (len (fill_ids r)) (len (origin_input_ids r))) <$> rs |>
    <| b_out_cache_loc := Some locs |> <| b_seq_lens_sum := zsum (seqlen <$> rs) |>
    <| b_top_logprobs_nums := if b_return_logprob (extend_start rs b) then Some (times 0 (len rs))
                              else b_top_logprobs_nums (extend_start rs b) |>
    <| b_extend_logprob_start_lens := extend_logprob_start_len <$> rs' |>
    <| b_sampling_info := Some (Verify.sampling_of det rs') |>.

Lemma prepare_for_extend_run width det wd rs :
  let rows := take (length rs) (free_slots (rtp wd)) in
  let rs' := zip_with extended rs rows in
  at_heap wd (b_reqs (batch wd)) rs → room_for width rs wd → NoDup (b_reqs (batch wd)) →
  ∃ locs k, BatchOps.prepare_for_extend det wd = (Ok tt,
      mkWorld (insert_all (b_reqs (batch wd)) rs' (heap wd)) k
        ((rtp wd) <| free_slots := drop (length rs) (free_slots (rtp wd)) |>
                  <| req_to_token ::= λ t, put_pieces t (zip rows (cut (seqlen <$> rs) locs)) |>)
        (cache wd) (extend_batch det rs rs' rows locs (batch wd))) ∧
    kv_ok k ∧ len locs = zsum (seqlen <$> rs) ∧ pool (kv wd) ≡ₚ locs ++ pool k ∧ capacity k = capacity (kv wd).
Proof.
  intros rows rs' F [Hf Ht Hw Hfree Hk Hp Hav] Hnd. pose proof (Forall2_length _ _ _ F) as Hlen.
  assert (Hrl : length rows = length rs) by (unfold rows; rewrite length_take; unfold len in Hfree; lia).
  assert (Hfill : (λ r, len (fill_ids r)) <$> rs = seqlen <$> rs).
  { apply list_fmap_ext. intros i r Hi. apply (fq_len width). by eapply Forall_lookup_1. }
  set (w1 := wd <| batch := extend_start rs (batch wd) |>).
  destruct (alloc_for_extend_fresh width w1 rs) as (locs & k & Ea & Hk' & Hl & Hpl & Hc); try done.
  exists locs, k. split; [|done].
  match type of Ea with _ = (_, ?x) => set (w2 := x) in * end.
  set (h := insert_all (b_reqs (batch wd)) rs' (heap wd)).
  assert (Hzl : ∀ f : Req → Z → Req, length (zip_with f rs rows) = length (b_reqs (batch wd))).
  { intros f. rewrite length_zip_with. lia. }
  assert (El : for_ (zip (zip (zip (b_reqs (batch wd)) rows) ((λ r, len (fill_ids r)) <$> rs)) ((λ r, len (prefix_indices r)) <$> rs))
                 BatchOps.extend_req w2 = (Ok tt, w2 <| heap := h |>)).
  { rewrite (extend_loop width rs (b_reqs (batch wd)) rows w2 Hf Hnd Hrl).
    - unfold h, rs'. rewrite <- (insert_all_again _ (zip_with with_row rs rows)) by (done || apply Hzl). done.
    - apply Forall2_same_length_lookup_2; [done|]. intros j id r Hj Hr. unfold w2. cbn [heap].
      by apply (insert_all_in _ _ _ j). }
  assert (Hin : len <$> ((λ r, slice_from (fill_ids r) (len (prefix_indices r))) <$> rs) = seqlen <$> rs).
  { rewrite <- list_fmap_compose. apply list_fmap_ext. intros i r Hi. pose proof (Forall_lookup_1 _ _ _ _ Hf Hi) as Fr.
    cbn. rewrite (fq_prefix _ _ Fr), len_nil, slice_from_drop by lia. apply (fq_len _ _ Fr). }
  unfold BatchOps.prepare_for_extend. set (w0 := wd <| batch ::= λ b, b <| b_forward_mode := Some EXTEND |> |>).
  rewrite (bind_ok _ _ wd tt w0) by done. rewrite (bind_ok _ _ w0 (b_reqs (batch wd)) w0) by done.
  rewrite (bind_ok _ _ _ _ _ (reqs_at_ok w0 _ rs F)). cbv zeta. rewrite Hfill, Hin. rewrite Hfill in El.
  
  assert (E0 : w1 = w0 <| batch ::= λ b, b <| b_prefix_lens := (λ r, len (prefix_indices r)) <$> rs |>
            <| b_extend_lens := extend_input_len <$> rs |> <| b_seq_lens := seqlen <$> rs |>
            <| b_seq_lens_cpu := seqlen <$> rs |> <| b_extend_num_tokens := zsum (seqlen <$> rs) |> |>) by reflexivity.
  rewrite (bind_ok _ _ w0 tt w1) by (rewrite E0; reflexivity). rewrite (bind_ok _ _ _ _ _ Ea).
  rewrite (bind_ok _ _ _ _ _ El). set (w3 := w2 <| heap := h |>).
  assert (F3 : at_heap w3 (b_reqs (batch wd)) rs').
  { apply Forall2_same_length_lookup_2; [apply eq_sym, Hzl|]. intros j id r Hj Hr. unfold w3. rsimpl.
    by apply (insert_all_in _ _ _ j). }
  rewrite (bind_ok _ _ _ _ _ (reqs_at_ok w3 _ _ F3)). reflexivity.
Qed.

Lemma prepare_for_extend_ok width det wd rs :
  at_heap wd (b_reqs (batch wd)) rs → room_for width rs wd → NoDup (b_reqs (batch wd)) →
  b_return_logprob (batch wd) = false → b_output_ids (batch wd) = None →
  ∃ wd', BatchOps.prepare_for_extend det wd = (Ok tt, wd') ∧ seated 0 (pool (kv wd)) wd' ∧ all_going wd' ∧
    heap wd' = insert_all (b_reqs (batch wd)) (zip_with extended rs (take (length rs) (free_slots (rtp wd)))) (heap wd) ∧
    (∃ rs' rows locs, length rs' = length rs ∧ (∀ j r', rs' !! j = Some r' → ∃ r row, rs !! j = Some r ∧ r' = extended r row) ∧
       batch wd' = extend_batch det rs rs' rows locs (batch wd)) ∧
    took_rows (length rs) (rtp wd) (rtp wd') ∧ capacity (kv wd') = capacity (kv wd).
Proof.
  intros F [Hf Ht Hw Hfree Hk Hp Hav] Hnd Hlp Ho. set (rows := take (length rs) (free_slots (rtp wd))).
  pose proof (Forall2_length _ _ _ F) as Hlen.
  assert (Hrl : length rows = length rs) by (unfold rows; rewrite length_take; unfold len in Hfree; lia).
  destruct (free_rows width (rtp wd) (length rs) Ht Hw) as [Hrow Hrnd]. fold rows in Hrow, Hrnd.
  destruct (prepare_for_extend_run width det wd rs F ltac:(by split) Hnd) as (locs & k & E & Hk' & Hl & Hpl & Hc).
  fold rows in E. assert (Hpos : Forall (λ x, 1 ≤ x) locs).
  { pose proof (wf_range _ (ko_wf _ Hk)) as Hr. rewrite Hpl in Hr. apply Forall_app in Hr as [Hr _].
    eapply Forall_impl; [exact Hr|]. cbn. lia. }
  eexists. split; [exact E|]. set (b' := extend_batch _ _ _ _ _ _).
  assert (Hsoa : soa b').
  { assert (Hz : length (zip_with extended rs rows) = length (b_reqs (batch wd))) by (rewrite length_zip_with; lia).
    split.
    - exact (eq_trans Hrl (eq_sym Hlen)).
    - exact (eq_trans (length_fmap seqlen rs) (eq_sym Hlen)).
    - exact (eq_trans (length_fmap seqlen rs) (eq_sym Hlen)).
    - exact (eq_trans (length_fmap _ rs) (eq_sym Hlen)).
    - intros l Ho'. change (b_output_ids (batch wd) = Some l) in Ho'. congruence.
    - intros Hlp'. change (b_return_logprob (batch wd) = true) in Hlp'. congruence.
    - eexists. split; [reflexivity|]. change (b_reqs b') with (b_reqs (batch wd)).
      split; cbn; rewrite ?length_fmap; try done. destruct det; [|done]. intros ? [= <-]. by rewrite length_fmap. }
  destruct (extended_seats width wd rs rows locs Hf Hrl Hnd Hlen Hrow Hrnd Hl Hpos b' k
    ((rtp wd) <| free_slots := drop (length rs) (free_slots (rtp wd)) |>
              <| req_to_token ::= λ t, put_pieces t (zip rows (cut (seqlen <$> rs) locs)) |>)) as [S G]; try done.
  { apply Hk. }
  split_and!; try done.
  - exists (zip_with extended rs rows), rows, locs. split_and!; [rewrite length_zip_with; lia| |done].
    intros j r' Hj. apply lookup_zip_with_Some in Hj as (r & row & -> & Hr & _). by exists r, row.
  - split; cbn [rtp].
    + destruct Ht as [Ht1 Ht2 Ht3]. pose proof (extended_width width wd rs rows locs Hf Hrl Hnd Hlen Hrow Hrnd Hl Hpos _ Ht1) as Hwid.
      split; [exact Hwid| |].
      * assert (El : len (put_pieces (req_to_token (rtp wd)) (zip rows (cut (seqlen <$> rs) locs))) = len (req_to_token (rtp wd))).
        { unfold len. by rewrite put_pieces_length. }
        rsimpl. rewrite El. by apply Forall_drop.
      * rsimpl. eapply sublist_NoDup; [exact Ht3|apply sublist_drop].
    + done.
    + done.
    + intros i Hi. by apply (extended_others wd rs).
Qed.
End Extend.
