(* ===== verification/RetractFacts.v ===== *)
(** * Retraction

    [retract_decode] releases requests, in the order of [retract_order], until
    the next decode pass has the slots it needs.  It keeps at least one
    request and fails when even that one cannot go on. *)

From S2P Require Import Prelude PyFloat Allocator AllocatorFacts Request ReqPool LLM42Info World MemCommon CacheLaws LLM42Worker WorkerFacts Scheduler OutputProcessor OutputFacts DecodeFacts DecodeStep DecodePass BatchOps BatchFacts PrepareFacts.
Import PoolFacts.

Section Retract.
Context `{Externals}.
Implicit Types (wd : World ChunkCache) (r : Req).

(** ** One request *)

Definition retracted (r : Req) : Req := reset_for_retract (released_req r).

Lemma running_releasable tbl r : running tbl 1 r → releasable tbl r.
Proof.
  intros [R1 R2 R3 R4 R5 [R6 R6'] R7 R8 R9 R10]. split; [done| |lia|done].
  rewrite R6. unfold seqlen. len_pos. lia.
Qed.

Lemma held_ids_take tbl (h : gmap nat Req) ids id r r' :
  NoDup ids → id ∈ ids → h !! id = Some r → held tbl r' = [] →
  held_ids tbl h ids ≡ₚ held tbl r ++ held_ids tbl (<[id := r']> h) ids.
Proof.
  intros Hnd Hin Hr Hn. induction ids as [|i ids IH]; [by apply elem_of_nil in Hin|].
  apply NoDup_cons in Hnd as [Hi Hnd].
  assert (Hcons : ∀ h : gmap nat Req, held_ids tbl h (i :: ids) =
    match h !! i with Some r => held tbl r | None => [] end ++ held_ids tbl h ids) by done.
  rewrite !Hcons. apply elem_of_cons in Hin as [->|Hin].
  - rewrite Hr, lookup_insert_eq, Hn. cbn [app]. f_equiv.
    assert (E : held_ids tbl (<[i := r']> h) ids = held_ids tbl h ids); [|by rewrite E].
    unfold held_ids. f_equal. apply list_fmap_ext. intros k x Hk. rewrite lookup_insert_ne; [done|].
    intros ->. by apply Hi; eapply list_elem_of_lookup_2.
  - assert (Hne : i ≠ id) by (intros ->; done). rewrite lookup_insert_ne by done.
    rewrite IH by done. rewrite !app_assoc. f_equiv. apply Permutation_app_comm.
Qed.

Lemma retracted_gone r : gone (retracted r) = true ∧ req_pool_idx (retracted r) = None ∧
  return_logprob (retracted r) = return_logprob r.
Proof.
  unfold retracted, reset_for_retract, released_req, gone. rsimpl. by rewrite orb_true_r.
Qed.

(** The batch after one request gave its slots back. *)
Lemma retracted_seated slots wd wd' id r :
  seated 1 slots wd → id ∈ b_reqs (batch wd) → heap wd !! id = Some r →
  batch wd' = batch wd → req_to_token (rtp wd') = req_to_token (rtp wd) →
  heap wd' = <[id := retracted r]> (heap wd) → cc_page_size (cache wd') = cc_page_size (cache wd) →
  kv wd' = frees [held (req_to_token (rtp wd)) r] (kv wd) →
  seated 1 slots wd' ∧ available_size (kv wd) ≤ available_size (kv wd').
Proof.
  intros Hs Hin Hr Eb' Et' Eh' Epg Ek. set (tbl := req_to_token (rtp wd)) in *. pose proof (sd_kv _ _ _ Hs) as Hk.
  destruct (sd_fresh _ _ _ Hs) as [Hnd Hrng]. pose proof (sd_slots _ _ _ Hs) as Hsl. fold tbl in Hsl.
  destruct (retracted_gone r) as (G1 & G2 & G3).
  rewrite (held_ids_take tbl (heap wd) _ id r (retracted r) (sd_nodup _ _ _ Hs) Hin Hr (held_none _ _ G2)) in Hsl.
  destruct (frees_token_ok [held tbl r] (kv wd) Hk) as (K1 & K2 & K3); cbn [concat]; rewrite ?app_nil_r.
  { rewrite <- Hsl, app_assoc in Hnd. by apply NoDup_app in Hnd as [Hnd _]. }
  { rewrite <- Hsl in Hrng. apply Forall_app in Hrng as [_ Hrng]. by apply Forall_app in Hrng as [Hrng _]. }
  rewrite <- Ek in K1, K2, K3. cbn [concat] in K2. rewrite app_nil_r in K2. split.
  - split; rewrite ?Eb', ?Et', ?Eh'; try apply Hs.
    + rewrite Epg. apply Hs.
    + done.
    + intros k i Hi. destruct (decide (i = id)) as [->|Hne].
      * exists (retracted r). rewrite lookup_insert_eq. destruct (sd_seat _ _ _ Hs k id Hi) as (r0 & Hr0 & L & _).
        split_and!; [done|congruence|done|congruence].
      * destruct (sd_seat _ _ _ Hs k i Hi) as (r' & Hr' & A1 & A2 & A3). exists r'. by rewrite lookup_insert_ne by done.
    + intros i1 i2 a a' x x' row H1 H2 Hx Hx' Ex Ex'.
      destruct (decide (a = id)) as [->|Ha]; [rewrite lookup_insert_eq in Hx; congruence|].
      destruct (decide (a' = id)) as [->|Ha']; [rewrite lookup_insert_eq in Hx'; congruence|].
      rewrite lookup_insert_ne in Hx, Hx' by done.
      exact (sd_rows _ _ _ Hs i1 i2 a a' x x' row H1 H2 Hx Hx' Ex Ex').
    + by rewrite K2, <- app_assoc.
    + by rewrite K3.
  - rewrite !kv_ok_available, (Permutation_len _ _ K2), len_app by done. len_pos. lia.
Qed.

Lemma release_req_ok slots wd j id r n :
  seated 1 slots wd → b_reqs (batch wd) !! j = Some id → heap wd !! id = Some r → gone r = false →
  ∃ wd', BatchOps.release_req id n wd = (Ok tt, wd') ∧ seated 1 slots wd' ∧
    batch wd' = batch wd ∧ req_to_token (rtp wd') = req_to_token (rtp wd) ∧
    heap wd' = <[id := retracted r]> (heap wd) ∧
    available_size (kv wd) ≤ available_size (kv wd').
Proof.
  intros Hs Hj Hr Hg. destruct (sd_seat _ _ _ Hs j id Hj) as (r0 & Hr0 & Hlp & _ & Hse).
  assert (r0 = r) as -> by congruence. specialize (Hse Hg).
  pose proof (st_running _ _ _ _ _ Hse) as Hru. assert (Hlive : cache_live wd) by done.
  destruct (release_kv_cache_ok wd id r false Hlive Hr (running_releasable _ _ Hru) (ko_debug _ (sd_kv _ _ _ Hs)))
    as (w1 & E1 & Eh & Eb & Et & Ek & _ & Epg). change (cc_page_size (cache w1) = cc_page_size (cache wd)) in Epg.
  cbn [released chunk_laws] in Ek.
  assert (Eheld : Chunk.nonzero (committed_slots (req_to_token (rtp wd)) r) = held (req_to_token (rtp wd)) r).
  { unfold held. by rewrite (proj1 (ru_freed _ _ _ Hru)). }
  rewrite Eheld in Ek. set (wd' := w1 <| heap ::= <[id := retracted r]> |>).
  assert (Eh' : heap wd' = <[id := retracted r]> (heap wd)) by (unfold wd'; rsimpl; by rewrite Eh, insert_insert_eq).
  destruct (retracted_seated slots wd wd' id r) as [Hs' Hav]; try done; [by eapply list_elem_of_lookup_2|].
  exists wd'. split_and!; try done.
  unfold BatchOps.release_req. rewrite (bind_ok _ _ _ _ _ E1).
  unfold Mem.evict_from_tree_cache. cbn [is_chunk_cache chunk_cache]. rewrite (bind_ok _ _ w1 tt w1) by done.
  unfold upd_req. rewrite (bind_ok _ _ w1 (released_req r) w1); [done|].
  unfold req_at. by rewrite Eh, lookup_insert_eq.
Qed.

(** ** Room for one more token each *)

Lemma new_tokens_len rs : BatchOps.new_tokens_required_next_decode 1 rs = len rs.
Proof.
  unfold BatchOps.new_tokens_required_next_decode. rewrite Z.mul_1_r. f_equal. apply filter_full.
  induction rs as [|r rs IH]; [done|]. rewrite filter_cons, decide_True by apply Z.mod_1_r. cbn. by rewrite IH.
Qed.

Lemma selected_ok slots wd sel :
  seated 1 slots wd → indices (length (b_reqs (batch wd))) (default [] sel) →
  ∃ rs, BatchOps.selected sel wd = (Ok rs, wd) ∧
    len rs = match sel with Some idx => len idx | None => len (b_reqs (batch wd)) end.
Proof.
  intros Hs Hi. unfold BatchOps.selected. set (b := batch wd) in *.
  rewrite (bind_ok _ _ wd (b_reqs b) wd) by done.
  assert (Hh : ∀ id, id ∈ b_reqs b → is_Some (heap wd !! id)).
  { intros id [j Hj]%list_elem_of_lookup_1. destruct (sd_seat _ _ _ Hs j id Hj) as (r & -> & _). done. }
  assert (E : ∃ ids, match sel with Some idx => gather (b_reqs b) idx | None => Ok (b_reqs b) end = Ok ids ∧
    len ids = match sel with Some idx => len idx | None => len (b_reqs b) end ∧ ∀ id, id ∈ ids → id ∈ b_reqs b).
  { destruct sel as [idx|]; [|by exists (b_reqs b)].
    destruct (gather_ok (b_reqs b) idx Hi) as (ids & E & P). exists ids. split; [done|].
    split; [unfold len; by rewrite (picked_length _ _ _ P)|]. intros id [k Hk]%list_elem_of_lookup_1.
    destruct (Forall2_lookup_r _ _ _ _ _ P Hk) as (i & _ & Hx). by eapply list_elem_of_lookup_2. }
  destruct E as (ids & E & El & Hsub). rewrite (bind_ok _ _ wd ids wd) by (unfold lift; by rewrite E).
  destruct (Step.at_heap_exists wd ids) as [rs F]; [auto|]. exists rs. rewrite (reqs_at_ok _ _ _ F).
  split; [done|]. rewrite <- El. unfold len. by rewrite (Forall2_length _ _ _ F).
Qed.

Lemma check_decode_mem_ok slots wd sel :
  seated 1 slots wd → indices (length (b_reqs (batch wd))) (default [] sel) →
  BatchOps.check_decode_mem sel wd =
  (Ok ((match sel with Some idx => len idx | None => len (b_reqs (batch wd)) end) <=? available_size (kv wd)), wd).
Proof.
  intros Hs Hi. destruct (selected_ok slots wd sel Hs Hi) as (rs & E & El).
  unfold BatchOps.check_decode_mem. rewrite (bind_ok _ _ _ _ _ E). rewrite (bind_ok _ _ wd (kv wd) wd) by done.
  cbv zeta. rewrite (kv_ok_page _ (sd_kv _ _ _ Hs)), new_tokens_len.
  unfold Mem.evict_from_tree_cache. cbn [is_chunk_cache chunk_cache].
  rewrite (bind_ok _ _ wd tt wd) by done. rewrite (bind_ok _ _ wd (kv wd) wd) by done. by rewrite El.
Qed.

(** ** The order *)

Lemma insert_before_perm x l : BatchOps.insert_before x l ≡ₚ x :: l.
Proof.
  induction l as [|y l IH]; [done|]. cbn. case_decide; [done|]. rewrite IH. apply Permutation_swap.
Qed.

Lemma retract_order_perm rs : BatchOps.retract_order rs ≡ₚ range 0 (len rs).
Proof.
  unfold BatchOps.retract_order.
  assert (E : ∀ l, foldr BatchOps.insert_before [] l ≡ₚ l).
  { induction l as [|x l IH]; [done|]. cbn. by rewrite insert_before_perm, IH. }
  rewrite E. unfold enumerate. rewrite fst_zip; [done|]. unfold range. rewrite length_seqZ. unfold len. lia.
Qed.

(** ** The loop *)

(** The requests at [sorted] stay, the others have gone. *)
Definition remaining wd (sorted : list Z) : Prop :=
  ∀ j id r, b_reqs (batch wd) !! j = Some id → heap wd !! id = Some r →
    (Z.of_nat j ∈ sorted → gone r = false) ∧ (Z.of_nat j ∉ sorted → gone r = true).

(** What the loop does to the requests: those it takes are retracted. *)
Definition shed wd (sorted sorted' : list Z) wd' : Prop :=
  dom (heap wd') = dom (heap wd) ∧
  ∀ id r, heap wd !! id = Some r →
    heap wd' !! id = Some r ∨
    (∃ j, b_reqs (batch wd) !! j = Some id ∧ Z.of_nat j ∈ sorted ∧ ¬ (Z.of_nat j ∈ sorted') ∧
          heap wd' !! id = Some (retracted r)).

Lemma snoc_split {A} (l : list A) : l ≠ [] → ∃ l' x, l = l' ++ [x].
Proof. intros Hl. destruct l as [|x l _] using rev_ind; [done|]. by exists l, x. Qed.

Lemma shed_stop wd sorted : shed wd sorted sorted wd.
Proof. split; [done|]. intros ? ? ?. by left. Qed.

(** One round: the request at [x], the last of the indices, is retracted. *)
Section Round.
Context (slots : list Z) (wd w1 : World ChunkCache) (sorted : list Z) (x : Z) (id : nat) (r : Req).
Hypothesis Hs : seated 1 slots wd.
Hypothesis Hx : 0 ≤ x.
Hypothesis Hid : b_reqs (batch wd) !! Z.to_nat x = Some id.
Hypothesis Hr : heap wd !! id = Some r.
Hypothesis Hxn : x ∉ sorted.
Hypothesis Eb1 : batch w1 = batch wd.
Hypothesis Eh1 : heap w1 = <[id := retracted r]> (heap wd).

Lemma round_index j : b_reqs (batch wd) !! j = Some id → Z.of_nat j ∉ sorted.
Proof using Hs Hx Hid Hxn.
  intros Hj Hjs. apply Hxn.
  assert (j = Z.to_nat x) as -> by (eapply NoDup_lookup; [exact (sd_nodup _ _ _ Hs)|done|done]).
  by rewrite Z2Nat.id in Hjs by lia.
Qed.

Lemma round_remaining : remaining wd (sorted ++ [x]) → remaining w1 sorted.
Proof using Hs Hx Hid Hxn Eb1 Eh1.
  intros Hrem j i r' Hj Hr'. rewrite Eb1 in Hj. rewrite Eh1 in Hr'. destruct (decide (i = id)) as [->|Hni].
  - rewrite lookup_insert_eq in Hr'. injection Hr' as <-. destruct (retracted_gone r) as (G1 & _).
    rewrite G1. split; [|done]. intros Hjs. by destruct (round_index j Hj).
  - rewrite lookup_insert_ne in Hr' by done. destruct (Hrem j i r' Hj Hr') as [R1 R2]. split.
    + intros Hjs. apply R1, elem_of_app. by left.
    + intros Hjs. apply R2. rewrite elem_of_app, list_elem_of_singleton. intros [?|Ej]; [done|].
      apply Hni. pose proof Hid as Hid'. rewrite <- Ej, Nat2Z.id in Hid'. congruence.
Qed.

Lemma round_shed sorted' rest wd' :
  sorted = sorted' ++ rest → shed w1 sorted sorted' wd' → shed wd (sorted ++ [x]) sorted' wd'.
Proof using Hs Hx Hid Hr Hxn Eb1 Eh1.
  intros Er [Hdom Hsh]. split; [rewrite Hdom, Eh1, dom_insert_lookup_L by (by exists r); done|].
  intros i ri Hri. destruct (decide (i = id)) as [->|Hni].
  - right. exists (Z.to_nat x). rewrite Z2Nat.id by lia. split_and!; [done| | |].
    + apply elem_of_app. right. by apply list_elem_of_singleton.
    + intros Hx'. apply Hxn. rewrite Er. apply elem_of_app. by left.
    + assert (ri = r) as -> by congruence.
      destruct (Hsh id (retracted r)) as [Hh|(j & Hj & Hjs & _)]; [by rewrite Eh1, lookup_insert_eq|done|].
      rewrite Eb1 in Hj. by destruct (round_index j Hj).
  - destruct (Hsh i ri) as [Hh|(j & Hj & Hjs & Hjn & Hh)]; [by rewrite Eh1, lookup_insert_ne|by left|].
    right. exists j. rewrite Eb1 in Hj. split_and!; try done. apply elem_of_app. by left.
Qed.
End Round.

Lemma retract_loop_ok slots fuel first sorted retr wd :
  seated 1 slots wd → NoDup sorted → indices (length (b_reqs (batch wd))) sorted → sorted ≠ [] →
  (length sorted ≤ fuel)%nat → remaining wd sorted →
  ∃ sorted' retr' wd', BatchOps.retract_loop fuel first sorted retr wd = (Ok (sorted', retr'), wd') ∧
    seated 1 slots wd' ∧ batch wd' = batch wd ∧ remaining wd' sorted' ∧ shed wd sorted sorted' wd' ∧
    (∃ rest, sorted = sorted' ++ rest) ∧ sorted' ≠ [] ∧
    (len sorted' ≤ available_size (kv wd') ∨ length sorted' = 1%nat) ∧
    (first = true → length sorted = 1%nat ∨ (length sorted' < length sorted)%nat) ∧
    (∀ id, id ∈ retr' → id ∈ retr ∨ id ∈ b_reqs (batch wd)).
Proof.
  revert first sorted retr wd. induction fuel as [|fuel IH];
    intros first sorted retr wd Hs Hnd Hi Hne Hf Hrem.
  { destruct sorted; [done|cbn in Hf; lia]. }
  cbn [BatchOps.retract_loop].
  rewrite (bind_ok _ _ wd (negb first && (len sorted <=? available_size (kv wd))) wd).
  2:{ destruct first; [done|]. by rewrite (check_decode_mem_ok slots wd (Some sorted) Hs Hi). }
  pose proof (shed_stop wd sorted) as Hstop.
  destruct (negb first && (len sorted <=? available_size (kv wd))) eqn:Een.
  { apply andb_prop in Een as [Hfirst Hen]. exists sorted, retr, wd. split_and!; auto.
    - exists []. by rewrite app_nil_r.
    - left. lia.
    - by destruct first. }
  destruct (Z.eqb_spec (len sorted) 1) as [E1|E1].
  { assert (length sorted = 1%nat) by (unfold len in E1; lia). exists sorted, retr, wd. split_and!; auto.
    exists []. by rewrite app_nil_r. }
  destruct (snoc_split sorted Hne) as (sorted0 & x & ->). destruct (pop_last sorted0 x) as [Elast Epop].
  rewrite (bind_ok _ _ wd x wd) by (unfold lift; by rewrite Elast). cbv zeta. rewrite Epop.
  apply Forall_app in Hi as [Hi Hx]. apply Forall_cons in Hx as [Hx _].
  rewrite (bind_ok _ _ wd (b_reqs (batch wd)) wd) by done.
  destruct (getitem_lt (b_reqs (batch wd)) x) as (id & Eid & Hid); [exact Hx|].
  rewrite (bind_ok _ _ wd id wd) by (unfold lift; by rewrite Eid).
  apply NoDup_app in Hnd as (Hnd0 & Hdis & _).
  assert (Hxn : x ∉ sorted0) by (intros Hx'; by apply (Hdis x Hx'), list_elem_of_singleton).
  destruct (sd_seat _ _ _ Hs _ _ Hid) as (r & Hr & _).
  assert (Hg : gone r = false).
  { apply (Hrem _ _ _ Hid Hr). rewrite Z2Nat.id by apply Hx. apply elem_of_app. right. by apply list_elem_of_singleton. }
  destruct (release_req_ok slots wd _ id r (len sorted0) Hs Hid Hr Hg) as (w1 & E2 & Hs1 & Eb1 & Et1 & Eh1 & Hav).
  rewrite (bind_ok _ _ _ _ _ E2).
  destruct (IH false sorted0 (retr ++ [id]) w1) as
    (sorted' & retr' & wd' & E3 & Hs' & Eb' & Hrem' & Hsh & (rest & Er) & Hne' & Hen & _ & Hrt); rewrite ?Eb1; try done.
  { intros ->. by apply E1. }
  { rewrite length_app in Hf. cbn in Hf. lia. }
  { eapply (round_remaining slots wd w1 sorted0 x id r); try done. apply Hx. }
  exists sorted', retr', wd'. split_and!; try done.
  - congruence.
  - eapply (round_shed slots wd w1 sorted0 x id r); try done. apply Hx.
  - exists (rest ++ [x]). by rewrite Er, app_assoc.
  - intros _. right. rewrite Er, !length_app. cbn. lia.
  - intros i Hi'. destruct (Hrt i Hi') as [Hi''|Hi'']; [|right; by rewrite <- Eb1].
    apply elem_of_app in Hi'' as [?|Hi'']; [by left|]. apply list_elem_of_singleton in Hi'' as ->.
    right. by eapply list_elem_of_lookup_2.
Qed.

(** ** [retract_decode] *)

(** A request that needs more memory than there is: even alone it cannot go
    on. *)
Definition too_large (slots : list Z) wd : Prop :=
  ∃ id r, id ∈ b_reqs (batch wd) ∧ heap wd !! id = Some r ∧ gone r = false ∧ len slots < seqlen r.

Lemma held_length tbl r : running tbl 1 r → len (held tbl r) < seqlen r.
Proof.
  intros [R1 R2 R3 R4 (row & l & E1 & E2 & E3 & E4) [R6 R6'] [R7 R7'] R8 R9 R10].
  unfold held, committed_slots. rewrite R7, E1, E3, R6. unfold Chunk.nonzero.
  pose proof (sublist_length _ _ (sublist_filter (λ x, x ≠ 0) (slice_to l (seqlen r - 1)))) as Hl.
  unfold seqlen in *. rewrite slice_to_take in Hl by (len_pos; lia). rewrite slice_to_take by (len_pos; lia).
  rewrite length_take in Hl. unfold len in *. lia.
Qed.

(** When one request is left and no slot is free, it holds all of them. *)
Lemma last_one slots wd k :
  seated 1 slots wd → 0 ≤ k → remaining wd [k] → k < len (b_reqs (batch wd)) → available_size (kv wd) < 1 →
  too_large slots wd.
Proof.
  intros Hs Hk0 Hrem Hk Hav. rewrite (kv_ok_available _ (sd_kv _ _ _ Hs)) in Hav.
  destruct (lookup_lt_is_Some_2 (b_reqs (batch wd)) (Z.to_nat k)) as [id Hid]; [unfold len in Hk; lia|].
  destruct (sd_seat _ _ _ Hs _ id Hid) as (r & Hr & _ & _ & Hse).
  destruct (Hrem _ id r Hid Hr) as [Hg _]. rewrite Z2Nat.id in Hg by done.
  specialize (Hg (list_elem_of_here _ _)). specialize (Hse Hg).
  exists id, r. split_and!; [by eapply list_elem_of_lookup_2|done|done|].
  pose proof (held_length _ _ (st_running _ _ _ _ _ Hse)) as Hh.
  assert (El : len slots = len (pool (kv wd)) + len (held_ids (req_to_token (rtp wd)) (heap wd) (b_reqs (batch wd)))).
  { unfold len. rewrite <- (Permutation_length (sd_slots _ _ _ Hs)), length_app. lia. }
  assert (Eh : held_ids (req_to_token (rtp wd)) (heap wd) (b_reqs (batch wd)) = held (req_to_token (rtp wd)) r).
  { rewrite <- (take_drop_middle _ _ _ Hid). rewrite held_ids_app, (held_ids_nil _ _ (take _ _)).
    - change (held_ids ?t ?h (id :: ?l)) with ((match h !! id with Some r => held t r | None => [] end) ++ held_ids t h l).
      rewrite Hr, held_ids_nil, app_nil_r; [done|]. intros i x Hi Hx. apply held_none.
      apply list_elem_of_lookup_1 in Hi as [j Hj]. rewrite lookup_drop in Hj.
      destruct (sd_seat _ _ _ Hs _ i Hj) as (x' & Hx' & _ & Hn & _). assert (x' = x) as -> by congruence.
      apply Hn. apply (Hrem _ i x Hj Hx). intros E%list_elem_of_singleton. lia.
    - intros i x Hi Hx. apply held_none.
      apply list_elem_of_lookup_1 in Hi as [j Hj]. apply lookup_take_Some in Hj as [Hj Hlt].
      destruct (sd_seat _ _ _ Hs _ i Hj) as (x' & Hx' & _ & Hn & _). assert (x' = x) as -> by congruence.
      apply Hn. apply (Hrem _ i x Hj Hx). intros E%list_elem_of_singleton. lia. }
  rewrite Eh in El. lia.
Qed.

Lemma going_flags slots wd rs :
  seated 1 slots wd → at_heap wd (b_reqs (batch wd)) rs → logprob_flag rs (batch wd).
Proof.
  intros Hs F (r & Hr & Hl)%existsb_exists. exfalso. apply list_elem_of_In in Hr.
  apply list_elem_of_lookup_1 in Hr as [k Hk].
  destruct (Forall2_lookup_r _ _ _ _ _ F Hk) as (id & Hid & Hh).
  destruct (sd_seat _ _ _ Hs k id Hid) as (r0 & Hr0 & Hlp & _). congruence.
Qed.

(** The requests that stay keep their state; the others are retracted. *)
Definition thinned wd wd' : Prop :=
  dom (heap wd') = dom (heap wd) ∧
  (∀ id, id ∈ b_reqs (batch wd') → id ∈ b_reqs (batch wd) ∧ heap wd' !! id = heap wd !! id) ∧
  (∀ id r, heap wd !! id = Some r → id ∉ b_reqs (batch wd') →
     (¬ (id ∈ b_reqs (batch wd)) ∧ heap wd' !! id = Some r) ∨
     (id ∈ b_reqs (batch wd) ∧ heap wd' !! id = Some (retracted r))).

Lemma seated_at_heap slots wd : seated 1 slots wd → ∃ rs, at_heap wd (b_reqs (batch wd)) rs.
Proof.
  intros Hs. apply Step.at_heap_exists. intros id [j Hj]%list_elem_of_lookup_1.
  by destruct (sd_seat _ _ _ Hs j id Hj) as (r & -> & _).
Qed.

(** The requests a batch keeps, by their indices. *)
Record kept_of (wd : World ChunkCache) (sorted : list Z) (w1 : World ChunkCache) : Prop := {
  ko_batch : batch w1 = batch wd;
  ko_indices : indices (length (b_reqs (batch wd))) sorted;
  ko_nodup : NoDup sorted;
  ko_some : sorted ≠ [];
  ko_remaining : remaining w1 sorted;
  ko_shed : ∃ order, shed wd order sorted w1;
  ko_full : length (b_reqs (batch wd)) = length sorted → sorted = range 0 (len (b_reqs (batch wd))) }.

(** The loop of [retract_decode], on the whole batch. *)
Lemma retract_loop_kept slots wd rs :
  seated 1 slots wd → all_going wd → b_reqs (batch wd) ≠ [] → at_heap wd (b_reqs (batch wd)) rs →
  ∃ sorted retr w1,
    BatchOps.retract_loop (S (length (b_reqs (batch wd)))) true (BatchOps.retract_order rs) [] wd = (Ok (sorted, retr), w1) ∧
    seated 1 slots w1 ∧ kept_of wd sorted w1 ∧
    (len sorted ≤ available_size (kv w1) ∨ length sorted = 1%nat) ∧
    (∀ id, id ∈ retr → id ∈ b_reqs (batch wd)).
Proof.
  intros Hs Hg Hne F. pose proof (Forall2_length _ _ _ F) as Hlr. set (b := batch wd) in *.
  set (order := BatchOps.retract_order rs). pose proof (retract_order_perm rs) as Hperm. fold order in Hperm.
  assert (Hlen : length order = length (b_reqs b)).
  { rewrite Hperm. unfold range. rewrite length_seqZ. unfold len. lia. }
  assert (Hmem : ∀ x, x ∈ order ↔ 0 ≤ x < len (b_reqs b)).
  { intros x. rewrite Hperm, elem_of_range. unfold len. lia. }
  assert (Hnd : NoDup order) by (rewrite Hperm; apply NoDup_seqZ).
  destruct (retract_loop_ok slots (S (length (b_reqs b))) true order [] wd Hs Hnd) as
    (sorted & retr & w1 & E1 & Hs1 & Eb1 & Hrem & Hsh & (rest & Erest) & Hne1 & Hen & Hshort & Hret).
  { apply Forall_forall. intros x Hx. apply Hmem in Hx. exact Hx. }
  { intros E. rewrite E in Hlen. by destruct (b_reqs b). }
  { lia. }
  { intros j id r Hj Hr. split; [intros _; eapply Hg; [by eapply list_elem_of_lookup_2|done]|].
    intros Hn. destruct Hn. apply Hmem. fold b in Hj. apply lookup_lt_Some in Hj. unfold len. lia. }
  assert (Hi : indices (length (b_reqs b)) sorted).
  { apply Forall_forall. intros x Hx. assert (x ∈ order) as Hx' by (rewrite Erest; apply elem_of_app; by left).
    apply Hmem in Hx'. exact Hx'. }
  exists sorted, retr, w1. split_and!; try done.
  - split; try done; [rewrite Erest in Hnd; by apply NoDup_app in Hnd as (? & _)|by exists order|].
    fold b. intros Hl. destruct (Hshort eq_refl) as [H1|H1]; rewrite Hlen in H1; [|lia].
    unfold len. rewrite H1. destruct sorted as [|x [|]]; try (cbn in Hl; lia).
    apply Forall_cons in Hi as [Hx _]. rewrite H1 in Hx. by assert (x = 0) as -> by lia.
  - intros id Hid. destruct (Hret id Hid) as [Hn|?]; [by apply elem_of_nil in Hn|done].
Qed.

Section Kept.
Context (slots : list Z) (wd w1 : World ChunkCache) (sorted : list Z).
Hypothesis Hs : seated 1 slots wd.
Hypothesis Hs1 : seated 1 slots w1.
Hypothesis K : kept_of wd sorted w1.

(** The one request that is left and has no room is too large to be served. *)
Lemma kept_too_large :
  (len sorted <=? 1) && negb (len sorted <=? available_size (kv w1)) = true → too_large slots wd.
Proof using Hs Hs1 K.
  destruct K as [Eb1 Hi _ Hne Hrem (order & _ & Hsh) _].
  intros [B1 B2]%andb_prop. apply negb_true_iff in B2.
  destruct sorted as [|k [|? ?]]; [done| |rewrite !len_cons in B1; llia].
  apply Forall_cons in Hi as [Hk _]. rewrite len_cons, len_nil in B2.
  destruct (last_one slots w1 k Hs1) as (id & r & Hin & Hr & Hgo & Hlt); [lia|done|rewrite Eb1; exact (proj2 Hk)|lia|].
  exists id, r. rewrite Eb1 in Hin. split_and!; try done. apply list_elem_of_lookup_1 in Hin as [j Hj].
  destruct (sd_seat _ _ _ Hs j id Hj) as (r0 & Hr0 & _).
  destruct (Hsh id r0 Hr0) as [Hs0|(_ & _ & _ & _ & Hs0)]; [congruence|].
  exfalso. assert (r = retracted r0) as -> by congruence. by destruct (retracted_gone r0) as (G & _); congruence.
Qed.

(** [filter_batch] on the indices that stay. *)
Lemma kept_filter :
  ∃ b', BatchOps.filter_batch [] (Some sorted) w1 = (Ok tt, w1 <| batch := b' |>) ∧
    seated 1 slots (w1 <| batch := b' |>) ∧
    entries b' = (entry (batch wd) ∘ Z.to_nat) <$> sorted ∧ len (b_reqs b') = len sorted.
Proof using Hs1 K.
  destruct K as [Eb1 Hi Hnd Hne Hrem _ Hfull]. destruct (seated_at_heap slots w1 Hs1) as [rs1 F1].
  destruct (filter_keep_ok w1 rs1 [] (Some sorted)) as (b' & E2 & En & R & Rl); cbn [default] in *; unfold id in *;
    rewrite ?Eb1 in *; try done.
  { rewrite <- Eb1. apply Hs1. }
  { rewrite <- Eb1. by eapply going_flags; [|rewrite Eb1]. }
  { intros Hl. rewrite Hfull at 1 by done. apply entries_range. }
  exists b'. split_and!; try done.
  - apply (restrict_seated slots sorted w1 b'); rewrite ?Eb1; try done; [by apply R| |].
    + apply Rl. rewrite <- Eb1. apply Hs1.
    + intros j id r Hj Hr Hn. rewrite <- Eb1 in Hj. by eapply Hrem.
  - apply (f_equal length) in En. rewrite length_fmap, entries_length in En. unfold len. by rewrite En.
Qed.

(** The requests of the filtered batch, and the others. *)
Section Filtered.
Context (b' : ScheduleBatch).
Hypothesis En : entries b' = (entry (batch wd) ∘ Z.to_nat) <$> sorted.

Lemma kept_member id :
  id ∈ b_reqs b' → ∃ j, b_reqs (batch wd) !! j = Some id ∧ Z.of_nat j ∈ sorted.
Proof using K En.
  intros [k Hk]%list_elem_of_lookup_1. destruct (restricted_sub sorted (batch wd) b' k id En Hk) as (i & Ki & Ji & _).
  exists (Z.to_nat i). split; [done|]. apply list_elem_of_lookup_2 in Ki as Hin.
  eapply Forall_lookup in Ki; [|exact (ko_indices _ _ _ K)]. cbn in Ki. by rewrite Z2Nat.id by lia.
Qed.

Lemma kept_going : all_going (w1 <| batch := b' |>).
Proof using K En.
  intros id r Hid Hr. destruct (kept_member id Hid) as (j & Hj & Hjs).
  apply (ko_remaining _ _ _ K j id r); [by rewrite (ko_batch _ _ _ K)|done|done].
Qed.

Lemma kept_thinned : all_going wd → thinned wd (w1 <| batch := b' |>).
Proof using Hs K En.
  intros Hg. destruct (ko_shed _ _ _ K) as (order & Hdom & Hsh). split; [done|]. split.
  - intros id (j & Hj & Hjs)%kept_member. split; [by eapply list_elem_of_lookup_2|].
    destruct (sd_seat _ _ _ Hs j id Hj) as (r & Hr & _). change (heap w1 !! id = heap wd !! id). rewrite Hr.
    destruct (Hsh id r Hr) as [->|(j' & Hj' & _ & Hjn & _)]; [done|]. destruct Hjn.
    by assert (j' = j) as -> by (eapply NoDup_lookup; [exact (sd_nodup _ _ _ Hs)|done|done]).
  - intros id r Hr Hni. change (id ∉ b_reqs b') in Hni. change (heap (w1 <| batch := b' |>)) with (heap w1).
    destruct (Hsh id r Hr) as [Hsame|(j & Hj & _ & _ & ?)]; [|right; split; [by eapply list_elem_of_lookup_2|done]].
    left. split; [|done]. intros Hin. apply list_elem_of_lookup_1 in Hin as Hj. destruct Hj as [j Hj].
    assert (gone r = false) by (by eapply Hg). assert (gone r = true); [|congruence].
    apply (ko_remaining _ _ _ K j id r); [by rewrite (ko_batch _ _ _ K)|done|]. intros Hjs. apply Hni.
    eapply (restricted_elem sorted (batch wd) b' j id); try done. apply K.
Qed.
End Filtered.
End Kept.

Lemma retract_decode_ok slots wd :
  seated 1 slots wd → all_going wd → b_reqs (batch wd) ≠ [] →
  ∃ wd',
    (BatchOps.retract_decode wd = (Raise ValueError, wd') ∧ too_large slots wd) ∨
    (∃ retr ratio, BatchOps.retract_decode wd = (Ok (retr, ratio), wd') ∧ seated 1 slots wd' ∧
       all_going wd' ∧ b_reqs (batch wd') ≠ [] ∧
       len (b_reqs (batch wd')) ≤ available_size (kv wd') ∧ thinned wd wd' ∧
       (∀ id, id ∈ retr → id ∈ b_reqs (batch wd))).
Proof.
  intros Hs Hg Hne. destruct (seated_at_heap slots wd Hs) as [rs F].
  destruct (retract_loop_kept slots wd rs Hs Hg Hne F) as (sorted & retr & w1 & E1 & Hs1 & K & Hen & Hret).
  unfold BatchOps.retract_decode. rewrite (bind_ok _ _ wd (b_reqs (batch wd)) wd) by done.
  rewrite (bind_ok _ _ wd rs wd) by (by apply reqs_at_ok). rewrite (bind_ok _ _ _ _ _ E1).
  set (chk := (if len sorted <=? 1 then _ else _) : M (World ChunkCache) unit).
  assert (Ec : chk w1 = (if (len sorted <=? 1) && negb (len sorted <=? available_size (kv w1))
                         then Raise ValueError else Ok tt, w1)).
  { unfold chk. destruct (len sorted <=? 1); [|done]. cbn [andb].
    rewrite (bind_ok _ _ w1 (len sorted <=? available_size (kv w1)) w1).
    - by destruct (len sorted <=? available_size (kv w1)).
    - rewrite (check_decode_mem_ok slots w1 (Some sorted) Hs1); [done|]. rewrite (ko_batch _ _ _ K). apply K. }
  destruct ((len sorted <=? 1) && negb (len sorted <=? available_size (kv w1))) eqn:Ebad.
  { exists w1. left. split; [by rewrite (bind_raise _ _ _ _ _ Ec)|]. by eapply (kept_too_large slots wd w1). }
  rewrite (bind_ok _ _ _ _ _ Ec).
  assert (Hroom : len sorted ≤ available_size (kv w1)).
  { destruct Hen as [?|E]; [done|]. apply andb_false_iff in Ebad as [B|B]; [unfold len in B; by rewrite E in B|].
    apply negb_false_iff in B. lia. }
  destruct (kept_filter slots wd w1 sorted Hs1 K) as (b' & E2 & Hs' & En & El).
  rewrite (bind_ok _ _ _ _ _ E2). destruct (seated_at_heap slots _ Hs') as [rs' F'].
  exists (w1 <| batch := b' |>). right. exists retr, (BatchOps.new_estimate_ratio rs'). split_and!; try done.
  - rewrite (bind_ok _ _ (w1 <| batch := b' |>) (b_reqs b') (w1 <| batch := b' |>)) by done.
    by rewrite (bind_ok _ _ (w1 <| batch := b' |>) rs' (w1 <| batch := b' |>)) by (by apply reqs_at_ok).
  - by eapply kept_going.
  - intros E. change (b_reqs b' = []) in E. apply (ko_some _ _ _ K). rewrite E in El. by apply len_zero.
  - change (len (b_reqs b') ≤ available_size (kv w1)). lia.
  - by eapply kept_thinned.
Qed.

End Retract.
