(* ===== verification/EventLoop.v ===== *)
(** * The event loop: decoding (srt/managers/scheduler.py)

    The fields of the scheduler that its loop keeps, the queue, and the half
    of an iteration that decodes: [update_running_batch], [run_batch] and
    [process_batch_result].

    The server runs without overlap scheduling, pipeline parallelism,
    disaggregation and data-parallel attention; requests carry no priority.
    The timeouts for waiting and running requests are off, as they are by
    default.  What the model computes is a parameter,
    [forward_batch_generation]: it may depend on the batch and on the number
    of passes so far. *)

From S2P Require Import Prelude PyFloat Allocator Request ReqPool LLM42Info World MemCommon Policy BatchOps LLM42Worker Scheduler OutputProcessor.

Record LoopArgs : Type := mkLoopArgs {
  max_queued_requests : option Z;
  init_new_token_ratio : float;
  min_new_token_ratio : float;
  new_token_ratio_decay : float;
  chunked_prefill_size : option Z;
  max_prefill_tokens : Z;
  is_mixed_chunk : bool;
  prefill_max_requests : option Z;
  truncation_align_size : option Z;
  pp_max_micro_batch_size : Z;
  enable_deterministic : bool;
  policy : Policy;
  server_page_size : Z
}.

(** [running_batch] and [last_batch] are batch objects of their own; the
    batch an operation works on is loaded into the shared state. *)
Record Loop (C : Type) : Type := mkLoop {
  sched : Scheduler C;
  loop_args : LoopArgs;
  running_batch : ScheduleBatch;
  last_batch : option ScheduleBatch;
  chunked_req : option nat;
  new_token_ratio : float;
  forward_ct : Z
}.
Arguments mkLoop {C}.
Arguments sched {C} l.
Arguments loop_args {C} l.
Arguments running_batch {C} l.
Arguments last_batch {C} l.
Arguments chunked_req {C} l.
Arguments new_token_ratio {C} l.
Arguments forward_ct {C} l.

#[export] Instance eta_Loop {C} : Eta (Loop C) := λ l,
  mkLoop (sched l) (loop_args l) (running_batch l) (last_batch l) (chunked_req l)
    (new_token_ratio l) (forward_ct l).
#[export] Instance set_sched {C} : Setter (@sched C).
Proof. derive_setter. Defined.
#[export] Instance set_running_batch {C} : Setter (@running_batch C).
Proof. derive_setter. Defined.
#[export] Instance set_last_batch {C} : Setter (@last_batch C).
Proof. derive_setter. Defined.
#[export] Instance set_chunked_req {C} : Setter (@chunked_req C).
Proof. derive_setter. Defined.
#[export] Instance set_new_token_ratio {C} : Setter (@new_token_ratio C).
Proof. derive_setter. Defined.
#[export] Instance set_forward_ct {C} : Setter (@forward_ct C).
Proof. derive_setter. Defined.

(** [ForwardMode.is_extend] *)
Definition is_extend (m : ForwardMode) : bool :=
  match m with
  | EXTEND | MIXED | DRAFT_EXTEND | TARGET_VERIFY | TARGET_LLM42_VERIFY | SPLIT_PREFILL | DLLM_EXTEND => true
  | _ => false
  end.

Module EventLoop.

Section Lift.
Context {C : Type}.

Definition on_sched {A} (m : M (Scheduler C) A) : M (Loop C) A := λ l,
  let '(r, s) := m (sched l) in (r, l <| sched := s |>).

(** The batch at hand. *)
Definition load (b : ScheduleBatch) : M (Loop C) unit := on_sched (on_w (upd_batch (λ _, b))).
Definition current : M (Loop C) ScheduleBatch := gets (λ l, batch (w_of (sched l))).

(** ** The waiting queue *)

(** A full queue turns the request away; the answer is [true] then. *)
Definition _abort_on_queued_limit (id : nat) : M (Loop C) bool :=
  l ← get;
  match max_queued_requests (loop_args l) with
  | None => mret false
  | Some n =>
      if len (waiting_queue (sched l)) + 1 <=? n then mret false
      else
        r ← on_sched (on_w (req_at id));
        on_sched (modify (λ s, s <| to_tokenizer ::= λ m, m ++ [rid r] |>));;
        mret true
  end.

Definition _add_request_to_queue (id : nat) : M (Loop C) unit :=
  refused ← _abort_on_queued_limit id;
  if (refused : bool) then mret tt
  else on_sched (modify (λ s, s <| waiting_queue ::= λ q, q ++ [id] |>)).

End Lift.

Section Decode.
Context `{Externals} `{Model} {C : Type} `{PC : PrefixCache C}.

(** ** The running batch *)

(** The batch at hand is the running batch; the answer is whether a decode
    pass is to run. *)
Definition update_running_batch : M (Loop C) bool :=
  b0 ← current;
  let initial_bs := BatchOps.batch_size b0 in
  on_sched (on_w (BatchOps.filter_batch [] None));;
  b ← current;
  if BatchOps.is_empty b then
    on_sched (on_w (upd_batch (λ b, b <| b_batch_is_full := false |>)));;
    mret false
  else
    enough ← on_sched (on_w (BatchOps.check_decode_mem None));
    (if (enough : bool)
     then modify (λ l, l <| new_token_ratio :=
            f64_max (f64_sub (new_token_ratio l) (new_token_ratio_decay (loop_args l)))
              (min_new_token_ratio (loop_args l)) |>)
     else
       '(retracted_reqs, ratio) ← on_sched (on_w BatchOps.retract_decode);
       modify (λ l, l <| new_token_ratio := ratio |>);;
       for_ retracted_reqs _add_request_to_queue);;
    b ← current;
    (if BatchOps.batch_size b <? initial_bs
     then on_sched (on_w (upd_batch (λ b, b <| b_batch_is_full := false |>)))
     else mret tt);;
    on_sched (on_w BatchOps.prepare_for_decode);;
    mret true.

(** ** Running a batch *)

Section Run.
Context (forward_batch_generation : Z → ScheduleBatch → GenerationBatchResult).

Definition run_batch : M (Loop C) GenerationBatchResult :=
  modify (λ l, l <| forward_ct ::= λ n, n + 1 |>);;
  n ← gets forward_ct;
  b ← current;
  let batch_result := forward_batch_generation n b in
  on_sched (on_w (upd_batch (λ b, b <| b_output_ids := Some (next_token_ids batch_result) |>)));;
  if b_return_logprob b then
    rs ← on_sched (on_w (reqs_at (b_reqs b)));
    mret (mkResult (next_token_ids batch_result) (next_token_logprobs batch_result)
            (result_input_token_logprobs batch_result) (Some (extend_input_len <$> rs))
            (Some (extend_logprob_start_len <$> rs)))
  else
    mret (mkResult (next_token_ids batch_result) (next_token_logprobs batch_result)
            (result_input_token_logprobs batch_result) None None).

Definition process_batch_result (result : GenerationBatchResult) : M (Loop C) unit :=
  b ← current;
  match b_forward_mode b with
  | Some DECODE => on_sched (Output.process_batch_result_decode result)
  | Some IDLE => on_sched Output.process_batch_result_idle
  | Some m => if is_extend m then on_sched (Output.process_batch_result_prefill result) else mret tt
  | None => throw AttributeError
  end.

(** The part of an iteration that decodes: [get_next_batch_to_run] when no
    prefill batch was formed, and the pass.  The answer is whether there is a
    [self.last_batch].  The iteration as a whole, with its attempt to form a
    prefill batch, is [Prefill.iteration]. *)
Definition decode_iteration : M (Loop C) bool :=
  b ← gets running_batch;
  if BatchOps.is_empty b then mret false
  else
    load b;;
    on_sched (modify (λ s, s <| other_running := None |>));;
    ready ← update_running_batch;
    b ← current;
    modify (λ l, l <| running_batch := b |>);;
    if (ready : bool) then
      result ← run_batch;
      process_batch_result result;;
      b ← current;
      modify (λ l, l <| running_batch := b |>);;
      mret true
    else mret false.

(** A stretch of the loop in which no prefill batch is formed, at most [n]
    iterations; [false] when the running batch is empty.  Retracted requests
    wait in the queue during it; the loop that takes them up again is
    [Prefill.event_loop]. *)
Fixpoint decode_loop (n : nat) : M (Loop C) bool :=
  match n with
  | O => mret true
  | S n => more ← decode_iteration; if (more : bool) then decode_loop n else mret false
  end.

End Run.
End Decode.
End EventLoop.
