(* ===== verification/Prefill.v ===== *)
(** * The event loop: prefill (srt/managers/scheduler.py)

    The half of an iteration that starts requests: merging the last prefill
    batch into the running batch, choosing the requests of the next one, with
    the isolation of deterministic requests, and the iteration as a whole.

    The grammar queue is empty: requests with a grammar enter the waiting
    queue when their grammar is compiled.  Preemption, LoRA, hierarchical
    caches, dynamic chunk sizes, the retraction test and statistics are left
    out. *)

From S2P Require Import Prelude PyFloat Allocator Request ReqPool LLM42Info World MemCommon Policy BatchOps LLM42Worker Scheduler OutputProcessor EventLoop.
Import EventLoop.

Module Prefill.

Section Prefill.
Context `{Externals} `{Model} {C : Type} `{PC : PrefixCache C}.

Definition get_num_allocatable_reqs (running_bs : Z) : M (Loop C) Z :=
  l ← get;
  mret (Z.min (pp_max_micro_batch_size (loop_args l) - running_bs)
          (Pool.available_size (rtp (w_of (sched l))))).

Definition set_full (full : bool) : M (Loop C) unit :=
  modify (λ l, l <| running_batch ::= λ b, b <| b_batch_is_full := full |> |>).

Definition is_full : M (Loop C) bool := gets (λ l, b_batch_is_full (running_batch l)).
Definition running_bs : M (Loop C) Z := gets (λ l, len (b_reqs (running_batch l))).

(** ** Choosing the requests *)

(** The loop over the waiting queue; [has_det] is
    [has_deterministic_in_batch].  A deterministic request enters an empty
    batch only and closes it. *)
Fixpoint fill_batch (isolated : bool) (queue : list nat) (has_det : bool) (a : PrefillAdder)
    : M (Loop C) PrefillAdder :=
  match queue with
  | [] => mret a
  | id :: queue' =>
      if isolated && has_det then mret a
      else
        r ← on_sched (on_w (req_at id));
        if isolated && (0 <? len (can_run_list a)) && is_deterministic r
        then fill_batch isolated queue' has_det a
        else
          bs ← running_bs;
          n ← get_num_allocatable_reqs bs;
          (if n <=? len (can_run_list a) then set_full true else mret tt);;
          full ← is_full;
          if (full : bool) then mret a
          else
            on_sched (on_w (init_next_round_input true id));;
            align ← gets (λ l, truncation_align_size (loop_args l));
            '(a, res) ← on_sched (on_w (Adder.add_one_req a id align));
            r ← on_sched (on_w (req_at id));
            let has_det := has_det ||
              isolated && bool_decide (id ∈ can_run_list a) && is_deterministic r in
            match res with
            | CONTINUE => fill_batch isolated queue' has_det a
            | NO_TOKEN => set_full true;; mret a
            | OTHER => mret a
            end
  end.

(** The request in the middle of its prompt comes first. *)
Definition start_batch (isolated : bool) (a : PrefillAdder) : M (Loop C) (PrefillAdder * bool) :=
  c ← gets chunked_req;
  match c with
  | None => mret (a, false)
  | Some id =>
      on_sched (on_w (init_next_round_input false id));;
      r ← on_sched (on_w (req_at id));
      '(a, c) ← on_sched (on_w (Adder.add_chunked_req a id));
      modify (λ l, l <| chunked_req := c |>);;
      mret (a, isolated && is_deterministic r)
  end.

(** The adder over the running batch, the queue in its order. *)
Definition choose_requests : M (Loop C) PrefillAdder :=
  l ← get;
  let q := waiting_queue (sched l) in
  rs ← on_sched (on_w (reqs_at q));
  let q := fst <$> SchedulePolicy.calc_priority (policy (loop_args l)) (zip q rs) in
  on_sched (modify (λ s, s <| waiting_queue := q |>));;
  let running := b_reqs (running_batch l) in
  running_reqs ← on_sched (on_w (reqs_at running));
  let a := Adder.init (server_page_size (loop_args l)) running running_reqs (new_token_ratio l)
             (max_prefill_tokens (loop_args l)) (chunked_prefill_size (loop_args l))
             (if is_mixed_chunk (loop_args l) then len running else 0)
             (prefill_max_requests (loop_args l)) in
  let isolated := enable_llm42 (args (sched l)) in
  '(a, has_det) ← start_batch isolated a;
  fill_batch isolated q has_det a.

(** ** The new batch *)

(** The running batch decodes one token along with the new one. *)
Definition mix_batches : M (Loop C) unit :=
  nb ← current;
  rb ← gets running_batch;
  load rb;;
  on_sched (on_w (BatchOps.filter_batch [] None));;
  rb ← current;
  (if BatchOps.is_empty rb then load nb
   else
     on_sched (on_w BatchOps.prepare_for_decode);;
     rb ← current;
     load nb;;
     on_sched (on_w (BatchOps.mix_with_running rb));;
     on_sched (on_w (upd_batch (λ b, b <| b_decoding_reqs := Some (b_reqs rb) |>))));;
  modify (λ l, l <| running_batch :=
    (BatchOps.empty_batch [] false None false false false false) <| b_batch_is_full := b_batch_is_full rb |> |>).

(** The batch of the chosen requests is the batch at hand. *)
Definition make_batch (a : PrefillAdder) : M (Loop C) unit :=
  on_sched (modify (λ s, s <| waiting_queue ::= filter (λ id, id ∉ can_run_list a) |>));;
  (match new_chunked_req a with
   | Some id =>
       c ← gets chunked_req;
       assert_ (match c with None => true | Some _ => false end);;
       modify (λ l, l <| chunked_req := Some id |>)
   | None => mret tt
   end);;
  c ← gets chunked_req;
  (match c with
   | Some id => on_sched (on_w (upd_req id (λ r, r <| is_chunked ::= λ n, n + 1 |>)))
   | None => mret tt
   end);;
  l ← get;
  rs ← on_sched (on_w (reqs_at (can_run_list a)));
  load (BatchOps.init_new (can_run_list a) rs (enable_overlap (args (sched l))) c);;
  on_sched (on_w (BatchOps.prepare_for_extend (enable_deterministic (loop_args l))));;
  nb ← current;
  rb ← gets running_batch;
  if is_mixed_chunk (loop_args l) && negb (BatchOps.is_empty rb) &&
     negb (b_return_logprob nb || b_return_logprob rb)
  then mix_batches
  else on_sched (on_w (upd_batch (λ b, b <| b_decoding_reqs := None |>))).

(** The answer is whether there is a prefill batch; it is at hand then. *)
Definition _get_new_batch_prefill_raw : M (Loop C) bool :=
  l ← get;
  let waits := match chunked_req l with None => false | Some _ => true end in
  if (b_batch_is_full (running_batch l) || (len (waiting_queue (sched l)) =? 0)) && negb waits
  then mret false
  else
    bs ← running_bs;
    n ← get_num_allocatable_reqs bs;
    if (n <=? 0) && waits then set_full true;; mret false
    else
      a ← choose_requests;
      if len (can_run_list a) =? 0 then mret false
      else make_batch a;; mret true.

(** ** An iteration *)

(** The last prefill batch joins the running batch, but for a request whose
    prompt goes on. *)
Definition merge_last_batch : M (Loop C) unit :=
  l ← get;
  (match chunked_req l with
   | Some id => on_sched (on_w (cache_unfinished_req id true))
   | None => mret tt
   end);;
  match last_batch l with
  | Some lb =>
      m ← lift (of_option AttributeError (b_forward_mode lb));
      if is_extend m then
        let exclude := (match chunked_req l with Some id => [id] | None => [] end) ++
                       (match b_chunked_req lb with Some id => [id] | None => [] end) in
        load lb;;
        on_sched (on_w (BatchOps.filter_batch exclude None));;
        lb' ← current;
        (if BatchOps.batch_size lb' <? BatchOps.batch_size lb then set_full false else mret tt);;
        if negb (BatchOps.is_empty lb') && negb (b_is_prefill_only lb') then
          rb ← gets running_batch;
          if BatchOps.is_empty rb then modify (λ l, l <| running_batch := lb' |>)
          else
            rb' ← lift (BatchOps.merge_batch rb lb');
            modify (λ l, l <| running_batch := rb' |>)
        else mret tt
      else mret tt
  | None => mret tt
  end.

Context (forward_batch_generation : Z → ScheduleBatch → GenerationBatchResult).

(** The pass over the prefill batch at hand, which is the last batch then. *)
Definition run_prefill : M (Loop C) unit :=
  rb ← gets running_batch;
  on_sched (modify (λ s, s <| other_running := Some rb |>));;
  result ← run_batch forward_batch_generation;
  process_batch_result result;;
  b ← current;
  modify (λ l, l <| last_batch := Some b |>).

(** One iteration of the event loop: a prefill if there is one, else a decode
    pass. *)
Definition iteration : M (Loop C) unit :=
  merge_last_batch;;
  prefill ← _get_new_batch_prefill_raw;
  if (prefill : bool) then run_prefill
  else
    ready ← decode_iteration forward_batch_generation;
    b ← gets running_batch;
    modify (λ l, l <| last_batch := if (ready : bool) then Some b else None |>).

(** [event_loop_normal] while no request arrives: [n] iterations. *)
Fixpoint event_loop (n : nat) : M (Loop C) unit :=
  match n with
  | O => mret tt
  | S n => iteration;; event_loop n
  end.

End Prefill.
End Prefill.
