(* ===== verification/LoopFacts.v ===== *)
(** * The running batch between two passes

    [update_running_batch] on a batch whose requests are [seated]: the
    finished requests leave, the last ones are retracted when the memory is
    short, and the rest is ready for the next pass; and the seats after the
    pass. *)

From S2P Require Import Prelude Returns PyFloat Allocator AllocatorFacts Request ReqPool LLM42Info InfoFacts World MemCommon CacheLaws BatchOps LLM42Worker Verifier WorkerFacts BatchFacts Scheduler OutputProcessor OutputFacts DecodeFacts DecodeStep DecodePass PrepareFacts RetractFacts EventLoop.
Import PoolFacts Batch Finish OneStream Pass Step EventLoop.

(** ** The filter of the running batch *)

Lemma keep_default_spec {C} (wd : World C) ids rs exclude j id r :
  at_heap wd ids rs → ids !! j = Some id → heap wd !! id = Some r →
  Z.of_nat j ∈ BatchOps.keep_default exclude ids rs ↔ finished r = false ∧ id ∉ exclude.
Proof.
  intros F Hj Hr. destruct (Forall2_lookup_l _ _ _ _ _ F Hj) as (r0 & Hrj & Hr0).
  assert (r0 = r) as -> by congruence. pose proof (Forall2_length _ _ _ F) as Hl.
  unfold BatchOps.keep_default. rewrite list_elem_of_fmap. split.
  - intros ([k [i x]] & Ek & [Hp Hin]%list_elem_of_filter). cbn [fst snd] in *. subst k.
    apply list_elem_of_lookup_1 in Hin as [n Hn]. unfold enumerate in Hn.
    apply lookup_zip_with_Some in Hn as (k & y & [= <- <-] & Hk & Hy).
    apply lookup_zip_with_Some in Hy as (i' & x' & [= <- <-] & Hi & Hx).
    apply lookup_seqZ in Hk as [Hk _]. assert (n = j) as -> by lia.
    by simplify_eq.
  - intros Hp. exists (Z.of_nat j, (id, r)). split; [done|]. apply list_elem_of_filter. split; [done|].
    eapply list_elem_of_lookup_2 with (i := j). unfold enumerate. rewrite lookup_zip_with.
    unfold range. rewrite lookup_seqZ_lt.
    + cbn. rewrite lookup_zip_with, Hj. cbn. by rewrite Hrj.
    + apply lookup_lt_Some in Hj. unfold len. rewrite length_zip_with. lia.
Qed.

Lemma keep_default_nodup exclude ids rs : NoDup (BatchOps.keep_default exclude ids rs).
Proof.
  unfold BatchOps.keep_default. eapply sublist_NoDup; [|apply fmap_sublist, sublist_filter].
  unfold enumerate. rewrite fst_zip; [apply NoDup_seqZ|]. unfold range. rewrite length_seqZ. unfold len. lia.
Qed.

(** ** The queue in a decode pass

    No block of the decode handler puts a request into the waiting queue. *)
Section Queue.
Context `{Externals} `{Model} {C : Type} `{PrefixCache C}.

Definition keeps_empty {A} (m : M (Scheduler C) A) : Prop :=
  ∀ s, waiting_queue s = [] → returns m s (λ _ s', waiting_queue s' = []).

Lemma empty_bind {A B} (m : M (Scheduler C) A) (k : A → M (Scheduler C) B) :
  keeps_empty m → (∀ a, keeps_empty (k a)) → keeps_empty (m ≫= k).
Proof. intros Hm Hk s Hs. apply returns_bind. eapply returns_mono; [by apply Hm|]. intros a s'. apply Hk. Qed.

Lemma empty_ret {A} (a : A) : keeps_empty (mret a).
Proof. intros s Hs. by apply returns_ret. Qed.

Lemma empty_lift {A} (r : res A) : keeps_empty (lift r).
Proof. intros s Hs. by apply returns_lift. Qed.

Lemma empty_gets {A} (f : Scheduler C → A) : keeps_empty (gets f).
Proof. intros s Hs. by apply returns_gets. Qed.

Lemma empty_modify f : (∀ s, waiting_queue s = [] → waiting_queue (f s) = []) → keeps_empty (modify f).
Proof. intros Hf s Hs. apply returns_modify. auto. Qed.

Lemma empty_sys {A} (m : M (Sys C) A) : keeps_empty (on_sys m).
Proof. intros s Hs a s'. unfold on_sys. destruct (m (sys s)) as [r y]. by intros [= _ <-]. Qed.

Lemma empty_w {A} (m : M (World C) A) : keeps_empty (on_w m).
Proof. apply empty_sys. Qed.

Lemma empty_clock : keeps_empty (perf_counter (C := C)).
Proof. intros s Hs a s'. by intros [= _ <-]. Qed.

Lemma empty_for {A} (xs : list A) body : (∀ x, keeps_empty (body x)) → keeps_empty (for_ xs body).
Proof. intros Hb s Hs. by eapply (returns_for (λ s, waiting_queue s = [])); [intros; apply Hb| |]. Qed.

Lemma empty_abort k : keeps_empty (Abort.abort_request k).
Proof.
  intros s Hs. unfold Abort.abort_request. do 2 apply returns_bind, returns_gets. rewrite Hs. cbn [Abort.split_queue].
  revert s Hs. apply empty_bind; [by apply empty_modify|intros _]. apply empty_bind; [apply empty_gets|intros g].
  apply empty_bind; [apply empty_w|intros _]. do 2 (apply empty_bind; [apply empty_gets|intros ?]). apply empty_w.
Qed.

Hint Resolve empty_bind empty_ret empty_lift empty_gets empty_sys empty_w empty_clock empty_for empty_abort : returns.

Ltac quiet := repeat lazymatch goal with
  | |- ∀ _, _ => intros ?
  | |- keeps_empty (_ ≫= _) => apply empty_bind
  | |- keeps_empty (match ?x with _ => _ end) => destruct x
  | |- keeps_empty (for_ _ _) => apply empty_for
  end; eauto with returns.

Lemma empty_accept id t : keeps_empty (Output.accept_token id t).
Proof. unfold Output.accept_token. quiet. Qed.
Lemma empty_complete id : keeps_empty (Output.complete id).
Proof. unfold Output.complete. quiet. Qed.
Hint Resolve empty_accept empty_complete : returns.

Lemma empty_decode_step a b lps x : keeps_empty (Output.decode_step a b lps x).
Proof. unfold Output.decode_step. quiet. Qed.
Lemma empty_verify : keeps_empty Output.verify_step.
Proof. unfold Output.verify_step, Output.finish_verified. quiet. Qed.
Lemma empty_stream ids b o : keeps_empty (Stream.stream_output (C := C) ids b o).
Proof.
  unfold Stream.stream_output, Stream.stream_output_generation. quiet. by apply empty_modify.
Qed.
Hint Resolve empty_decode_step empty_verify empty_stream : returns.

Lemma decode_keeps_empty result : keeps_empty (Output.process_batch_result_decode result).
Proof.
  unfold Output.process_batch_result_decode. quiet; by apply empty_modify.
Qed.
End Queue.

Section Loop.
Context `{Externals}.

Lemma filter_seated slots (wd : World ChunkCache) :
  seated 1 slots wd →
  (∀ id r, id ∈ b_reqs (batch wd) → heap wd !! id = Some r → finished r = false → is_retracted r = false) →
  ∃ b', BatchOps.filter_batch [] None wd = (Ok tt, wd <| batch := b' |>) ∧
    (∀ id, id ∈ b_reqs b' ↔
       id ∈ b_reqs (batch wd) ∧ ∃ r, heap wd !! id = Some r ∧ finished r = false) ∧
    (b_reqs b' ≠ [] → seated 1 slots (wd <| batch := b' |>) ∧ all_going (wd <| batch := b' |>)) ∧
    (b_reqs b' = [] → pool (kv wd) ≡ₚ slots).
Proof.
  intros Hs Hret. set (b := batch wd) in *.
  assert (Hh : ∀ id, id ∈ b_reqs b → is_Some (heap wd !! id)).
  { intros id [j Hj]%list_elem_of_lookup_1. destruct (sd_seat _ _ _ Hs j id Hj) as (r & -> & _). done. }
  destruct (at_heap_exists wd (b_reqs b) Hh) as [rs F].
  destruct (filter_batch_ok wd rs [] (sd_soa _ _ _ Hs) F (going_flags slots wd rs Hs F))
    as (b' & E & En & Hsoa & Hlp). fold b in En.
  rewrite <- (keep_default_entries wd b rs [] F) in En.
  set (keep := BatchOps.keep_default [] (b_reqs b) rs) in *.
  assert (Hi : indices (length (b_reqs b)) keep) by (by eapply keep_default_indices).
  assert (Hmem : ∀ id, id ∈ b_reqs b' ↔ id ∈ b_reqs b ∧ ∃ r, heap wd !! id = Some r ∧ finished r = false).
  { intros id. split.
    - intros [k Hk]%list_elem_of_lookup_1.
      destruct (restricted_sub keep b b' k id En Hk) as (i & Ki & Ji & _).
      apply list_elem_of_lookup_2 in Ji as Hin. split; [done|]. destruct (Hh id Hin) as [r Hr].
      exists r. split; [done|]. apply (keep_default_spec wd (b_reqs b) rs [] _ id r F Ji Hr).
      apply list_elem_of_lookup_2 in Ki as Hki. eapply Forall_lookup in Ki; [|exact Hi]. cbn in Ki.
      by rewrite Z2Nat.id by lia.
    - intros ([j Hj]%list_elem_of_lookup_1 & r & Hr & Hf).
      eapply (restricted_elem keep b b' j); [done|done|done|].
      apply (keep_default_spec wd (b_reqs b) rs [] _ id r F Hj Hr). split; [done|apply not_elem_of_nil]. }
  assert (Hgone : ∀ j id r, b_reqs b !! j = Some id → heap wd !! id = Some r → Z.of_nat j ∉ keep → gone r = true).
  { intros j id r Hj Hr Hn. unfold gone. destruct (finished r) eqn:Ef; [done|]. destruct Hn.
    apply (keep_default_spec wd (b_reqs b) rs [] _ id r F Hj Hr). split; [done|apply not_elem_of_nil]. }
  exists b'. split_and!; [done|done| |].
  - intros Hne. split.
    + apply (restrict_seated slots keep wd b'); try done.
      * apply keep_default_nodup.
      * by apply Hsoa.
      * apply Hlp, Hs.
    + intros id r Hid Hr. revert Hid Hr. rsimpl. intros Hid Hr. apply Hmem in Hid as (Hin & r0 & Hr0 & Hf).
      assert (r0 = r) as -> by congruence. unfold gone. rewrite Hf. cbn. by eapply Hret.
  - intros Hnil. rewrite <- (sd_slots _ _ _ Hs). fold b. rewrite held_ids_nil; [by rewrite app_nil_r|].
    intros id r [j Hj]%list_elem_of_lookup_1 Hr. apply held_none.
    destruct (sd_seat _ _ _ Hs j id Hj) as (r0 & Hr0 & _ & Hg & _). assert (r0 = r) as -> by congruence.
    apply Hg. eapply Hgone; [done|done|]. intros Hk.
    assert (Hin : id ∈ b_reqs b') by (by eapply restricted_elem). rewrite Hnil in Hin.
    by apply elem_of_nil in Hin.
Qed.

(** A flag the seats do not depend on. *)
Lemma seated_full d slots (wd : World ChunkCache) x :
  seated d slots wd → seated d slots (wd <| batch ::= λ b, b <| b_batch_is_full := x |> |>).
Proof.
  intros [S1 S2 S3 S4 S5 S6 S7 S8 S9]. split; rsimpl; try done.
  - destruct S1 as [T1 T2 T3 T4 T5 T6 T7]. split; rsimpl; done.
  - intros j id Hj. destruct (S6 j id Hj) as (r & Hr & A1 & A2 & A3). exists r. split_and!; try done.
    intros Hg. destruct (A3 Hg) as [B1 B2 B3 B4]. split; by rsimpl.
Qed.

(** ** The state of the loop *)

Definition with_w {C} (wd : World C) (l : Loop C) : Loop C := l <| sched := set_w wd (sched l) |>.

Lemma on_world_eq {C A} (m : M (World C) A) (l : Loop C) x wd :
  m (w_of (sched l)) = (x, wd) → on_sched (on_w m) l = (x, with_w wd l).
Proof. intros E. unfold on_sched. by rewrite (on_w_eq m (sched l) x wd E). Qed.

(** What the decode half does not touch before the pass. *)
Record lframe (l l' : Loop ChunkCache) : Prop := {
  lf_args : args (sched l') = args (sched l);
  lf_worker : worker (sys (sched l')) = worker (sys (sched l));
  lf_clock : clock (sched l') = clock (sched l);
  lf_out : to_detokenizer (sched l') = to_detokenizer (sched l)
}.

Lemma lframe_refl l : lframe l l.
Proof. done. Qed.

Lemma lframe_trans l1 l2 l3 : lframe l1 l2 → lframe l2 l3 → lframe l1 l3.
Proof. intros [] []. split; congruence. Qed.

Lemma lframe_w wd l : lframe l (with_w wd l).
Proof. done. Qed.

Lemma requeue_ok ids l :
  (∀ id, id ∈ ids → is_Some (heap (w_of (sched l)) !! id)) →
  ∃ l', for_ ids _add_request_to_queue l = (Ok tt, l') ∧ lframe l l' ∧ w_of (sched l') = w_of (sched l).
Proof.
  revert l. induction ids as [|id ids IH]; intros l Hh; [by exists l|].
  destruct (Hh id) as [r Hr]; [set_solver|].
  assert (H1 : ∃ l1, _add_request_to_queue id l = (Ok tt, l1) ∧ lframe l l1 ∧ w_of (sched l1) = w_of (sched l)).
  { unfold _add_request_to_queue, _abort_on_queued_limit.
    assert (Hq : ∀ l0, ∃ l1, on_sched (modify (λ s, s <| waiting_queue ::= λ q, q ++ [id] |>)) l0 = (Ok tt, l1) ∧
       lframe l0 l1 ∧ w_of (sched l1) = w_of (sched l0)) by (intros l0; by eexists).
    destruct (max_queued_requests (loop_args l)) as [n|] eqn:En.
    - destruct (len (waiting_queue (sched l)) + 1 <=? n) eqn:El.
      + rewrite (bind_ok _ _ l false l); [apply Hq|]. rewrite (bind_ok _ _ l l l) by done. by rewrite En, El.
      + set (l1 := l <| sched := (sched l) <| to_tokenizer ::= λ m, m ++ [rid r] |> |>).
        exists l1. rewrite (bind_ok _ _ l true l1); [done|].
        rewrite (bind_ok _ _ l l l) by done. rewrite En, El.
        rewrite (bind_ok _ _ l r (with_w (w_of (sched l)) l)).
        2:{ apply on_world_eq. unfold req_at. by rewrite Hr. }
        unfold with_w. rewrite set_w_id. by destruct l.
    - rewrite (bind_ok _ _ l false l); [apply Hq|]. rewrite (bind_ok _ _ l l l) by done. by rewrite En. }
  destruct H1 as (l1 & E1 & F1 & W1). destruct (IH l1) as (l2 & E2 & F2 & W2).
  { intros i Hi. rewrite W1. apply Hh. set_solver. }
  exists l2. split; [cbn [for_]; by rewrite E1|]. split; [by eapply lframe_trans|congruence].
Qed.

(** ** [update_running_batch] *)

(** The requests of the batch that stay, and what became of the others. *)
Record selected_from (wd w1 : World ChunkCache) : Prop := {
  sf_dom : dom (heap w1) = dom (heap wd);
  sf_in : ∀ id, id ∈ b_reqs (batch w1) → id ∈ b_reqs (batch wd) ∧ heap w1 !! id = heap wd !! id;
  sf_out : ∀ id r, heap wd !! id = Some r → id ∉ b_reqs (batch w1) →
    (heap w1 !! id = Some r ∧ (id ∈ b_reqs (batch wd) → finished r = true)) ∨
    (id ∈ b_reqs (batch wd) ∧ heap w1 !! id = Some (retracted r))
}.

Inductive updated (slots : list Z) (wd wd' : World ChunkCache) : res bool → Prop :=
| updated_oom : too_large slots wd → updated slots wd wd' (Raise ValueError)
| updated_empty :
    b_reqs (batch wd') = [] → heap wd' = heap wd → kv wd' = kv wd → rtp wd' = rtp wd →
    pool (kv wd) ≡ₚ slots →
    (∀ id r, id ∈ b_reqs (batch wd) → heap wd !! id = Some r → finished r = true) →
    updated slots wd wd' (Ok false)
| updated_going w1 :
    seated 1 slots w1 → all_going w1 → b_reqs (batch w1) ≠ [] → selected_from wd w1 →
    prepared slots w1 wd' → updated slots wd wd' (Ok true).

(** The update of a batch that has room: no request is retracted, the
    queues stay as they are, and a request leaves only when it has finished. *)
Record unforced (l l' : Loop ChunkCache) (res : res bool) : Prop := {
  un_ok : ∃ b, res = Ok b;
  un_queue : waiting_queue (sched l') = waiting_queue (sched l) ∧ chunked_req l' = chunked_req l;
  un_leave : ∀ id r, id ∈ b_reqs (batch (w_of (sched l))) → id ∉ b_reqs (batch (w_of (sched l'))) →
    heap (w_of (sched l)) !! id = Some r → finished r = true ∧ heap (w_of (sched l')) !! id = Some r
}.

(** The end of [update_running_batch], once there is room. *)
Definition run_room (initial_bs : Z) : M (Loop ChunkCache) bool :=
  b ← current;
  (if BatchOps.batch_size b <? initial_bs
   then on_sched (on_w (upd_batch (λ b, b <| b_batch_is_full := false |>))) else mret tt);;
  on_sched (on_w BatchOps.prepare_for_decode);; mret true.

Lemma selected_full wd w2 (c : bool) :
  selected_from wd w2 →
  selected_from wd (if c then w2 <| batch ::= λ b, b <| b_batch_is_full := false |> |> else w2).
Proof. intros [A0 A B]. by destruct c. Qed.

Lemma run_room_ok slots wd l w2 n :
  w_of (sched l) = w2 → seated 1 slots w2 → all_going w2 → b_reqs (batch w2) ≠ [] →
  len (b_reqs (batch w2)) ≤ available_size (kv w2) → selected_from wd w2 →
  ∃ l', run_room n l = (Ok true, l') ∧ lframe l l' ∧ updated slots wd (w_of (sched l')) (Ok true) ∧
    waiting_queue (sched l') = waiting_queue (sched l) ∧ chunked_req l' = chunked_req l ∧
    b_reqs (batch (w_of (sched l'))) = b_reqs (batch w2) ∧
    ∀ id, id ∉ b_reqs (batch w2) → heap (w_of (sched l')) !! id = heap w2 !! id.
Proof.
  intros E2 Hs2 Hg2 Hne2 Hroom Hsf. unfold run_room. rewrite (bind_ok _ _ l (batch w2) l) by (by rewrite <- E2).
  set (c := BatchOps.batch_size (batch w2) <? n). pose proof (selected_full wd w2 c Hsf) as Hsf3.
  set (w3 := if c then w2 <| batch ::= λ b, b <| b_batch_is_full := false |> |> else w2) in *.
  rewrite (bind_ok _ _ l tt (with_w w3 l)).
  2:{ unfold w3. destruct c; [rewrite <- E2; by apply on_world_eq|]. unfold with_w. rewrite <- E2, set_w_id. by destruct l. }
  assert (Hs3 : seated 1 slots w3) by (unfold w3; destruct c; [by apply seated_full|done]).
  assert (Er3 : b_reqs (batch w3) = b_reqs (batch w2) ∧ heap w3 = heap w2 ∧ kv w3 = kv w2).
  { unfold w3. destruct c; [|done]. by rsimpl. }
  destruct Er3 as (Er3 & Eh3 & Ek3).
  assert (Hg3 : all_going w3) by (intros id r; rewrite Er3, Eh3; apply Hg2).
  destruct (prepare_for_decode_ok slots w3 Hs3 Hg3) as (w4 & E4 & P4); [by rewrite Er3, Ek3|].
  assert (Ew4 : BatchOps.prepare_for_decode (w_of (sched (with_w w3 l))) = (Ok tt, w4)) by done.
  eexists. split; [rewrite (bind_ok _ _ _ _ _ (on_world_eq _ _ _ _ Ew4)); reflexivity|].
  change (w_of (sched (with_w w4 (with_w w3 l)))) with w4. split_and!; try done.
  - eapply (updated_going slots wd w4 w3); try done. by rewrite Er3.
  - by rewrite (pp_reqs _ _ _ P4).
  - intros id Hid. rewrite <- Eh3. apply (pp_out _ _ _ P4). by rewrite Er3.
Qed.

(** The other branch: retraction, and the queue for the requests it took. *)
Definition run_retract : M (Loop ChunkCache) unit :=
  '(retracted_reqs, ratio) ← on_sched (on_w BatchOps.retract_decode);
  modify (λ l, l <| new_token_ratio := ratio |>);;
  for_ retracted_reqs _add_request_to_queue.

Lemma run_retract_ok slots l w1 :
  w_of (sched l) = w1 → seated 1 slots w1 → all_going w1 → b_reqs (batch w1) ≠ [] →
  ∃ l', lframe l l' ∧
    ((run_retract l = (Raise ValueError, l') ∧ too_large slots w1) ∨
     (∃ w2, run_retract l = (Ok tt, l') ∧ w_of (sched l') = w2 ∧ seated 1 slots w2 ∧ all_going w2 ∧
        b_reqs (batch w2) ≠ [] ∧ len (b_reqs (batch w2)) ≤ available_size (kv w2) ∧ thinned w1 w2)).
Proof.
  intros Ew Hs Hg Hne. unfold run_retract.
  destruct (retract_decode_ok slots w1 Hs Hg Hne)
    as (w2 & [[Er Hbig]|(retr & ratio & Er & Hs2 & Hg2 & Hne2 & Hroom2 & Hth & Hrt)]); rewrite <- Ew in Er.
  { exists (with_w w2 l). split; [done|]. left. split; [|done]. by rewrite (bind_raise _ _ _ _ _ (on_world_eq _ _ _ _ Er)). }
  rewrite (bind_ok _ _ _ _ _ (on_world_eq _ _ _ _ Er)). cbv beta iota.
  set (l2 := (with_w w2 l) <| new_token_ratio := ratio |>). rewrite (bind_ok _ _ (with_w w2 l) tt l2) by done.
  destruct (requeue_ok retr l2) as (l3 & E3 & F3 & W3).
  { intros id Hid. change (w_of (sched l2)) with w2. destruct Hth as [Th0 _]. apply elem_of_dom. rewrite Th0.
    apply elem_of_dom. pose proof (Hrt id Hid) as Hin. apply list_elem_of_lookup_1 in Hin as [j Hj].
    destruct (sd_seat _ _ _ Hs j id Hj) as (r & Hr & _). by exists r. }
  exists l3. split; [by eapply (lframe_trans _ l2)|]. right. exists w2. by split_and!.
Qed.

(** The requests of a batch that was filtered, and of one that then lost
    requests to retraction. *)
Section Selected.
Context (wd : World ChunkCache) (b' : ScheduleBatch).
Hypothesis Hmem : ∀ id, id ∈ b_reqs b' ↔ id ∈ b_reqs (batch wd) ∧ ∃ r, heap wd !! id = Some r ∧ finished r = false.

Lemma selected_done id r :
  heap wd !! id = Some r → id ∉ b_reqs b' → id ∈ b_reqs (batch wd) → finished r = true.
Proof using Hmem. intros Hr Hni Hin. destruct (finished r) eqn:Efi; [done|]. destruct Hni. apply Hmem. eauto. Qed.

Lemma selected_filter : selected_from wd (wd <| batch := b' |>).
Proof using Hmem.
  split; [done|..].
  - intros id Hin. split; [by apply Hmem in Hin as [? _]|done].
  - intros id r Hr Hni. left. split; [done|]. intros Hin. by eapply selected_done.
Qed.

Lemma selected_thinned w2 : thinned (wd <| batch := b' |>) w2 → selected_from wd w2.
Proof using Hmem.
  intros [Th0 [Th1 Th2]]. split; [by rewrite Th0|..].
  - intros id Hin. destruct (Th1 id Hin) as [Hi Eh]. split; [by apply Hmem in Hi as [? _]|by rewrite Eh].
  - intros id r Hr Hni. destruct (Th2 id r Hr Hni) as [[Hb Hh]|[Hi Hh]].
    + left. split; [done|]. by eapply selected_done.
    + right. split; [by apply Hmem in Hi as [? _]|done].
Qed.
End Selected.

Lemma update_running_batch_ok slots l :
  seated 1 slots (w_of (sched l)) →
  (∀ id r, id ∈ b_reqs (batch (w_of (sched l))) → heap (w_of (sched l)) !! id = Some r →
     finished r = false → is_retracted r = false) →
  ∃ res l', update_running_batch l = (res, l') ∧ lframe l l' ∧
    updated slots (w_of (sched l)) (w_of (sched l')) res ∧
    (len (b_reqs (batch (w_of (sched l)))) ≤ available_size (kv (w_of (sched l))) → unforced l l' res).
Proof.
  intros Hs Hret. set (wd := w_of (sched l)) in *.
  destruct (filter_seated slots wd Hs Hret) as (b' & Ef & Hmem & Hgo & Hnil).
  unfold update_running_batch. rewrite (bind_ok _ _ l (batch wd) l) by done. cbv zeta.
  set (w1 := wd <| batch := b' |>) in *. set (l1 := with_w w1 l).
  rewrite (bind_ok _ _ l tt l1) by (by apply on_world_eq). rewrite (bind_ok _ _ l1 b' l1) by done.
  unfold BatchOps.is_empty. destruct (Z.eqb_spec (len (b_reqs b')) 0) as [E0|E0].
  { apply len_zero in E0. eexists (Ok false), _. split.
    - erewrite bind_ok by (apply on_world_eq; reflexivity). reflexivity.
    - assert (Hdone : ∀ id r, id ∈ b_reqs (batch wd) → heap wd !! id = Some r → finished r = true).
      { intros id r Hin Hr. eapply (selected_done wd b'); [done|done|rewrite E0; apply not_elem_of_nil|done]. }
      split; [done|]. split; [|intros _; split; [by eexists|done|by eauto]].
      apply updated_empty; unfold l1, with_w; rewrite ?w_of_set; rsimpl; try done. by apply Hnil. }
  assert (Hne : b_reqs b' ≠ []) by (intros E; by rewrite E in E0).
  destruct (Hgo Hne) as [Hs1 Hg1].
  rewrite (bind_ok _ _ l1 (len (b_reqs b') <=? available_size (kv w1)) l1).
  2:{ rewrite (on_world_eq _ l1 (Ok (len (b_reqs b') <=? available_size (kv w1))) w1).
      - by unfold l1, with_w; destruct l as [[] ?].
      - change (w_of (sched l1)) with w1. rewrite (check_decode_mem_ok slots w1 None Hs1); [done|constructor]. }
  destruct (Z.leb_spec (len (b_reqs b')) (available_size (kv w1))) as [Hroom|Hroom].
  - erewrite bind_ok by reflexivity. set (l2 := upd new_token_ratio _ _).
    destruct (run_room_ok slots wd l2 w1 (BatchOps.batch_size (batch wd))) as (l' & E & F & U & Q1 & Q2 & Q3 & Q4); try done.
    { by apply selected_filter. }
    exists (Ok true), l'. split; [exact E|]. split; [by eapply (lframe_trans _ l2)|]. split; [done|]. intros _.
    split; [by eexists|done|]. rewrite Q3. intros id r Hin Hn Hr. split; [by eapply (selected_done wd b')|by rewrite (Q4 id Hn)].
  - assert (Hlen : len (b_reqs b') ≤ len (b_reqs (batch wd))).
    { unfold len. apply inj_le, submseteq_length, NoDup_submseteq; [apply Hs1|]. intros id Hid. by apply Hmem in Hid as [? _]. }
    change (kv w1) with (kv wd) in Hroom. fold run_retract.
    destruct (run_retract_ok slots l1 w1) as (l2 & F2 & [[Er Hbig]|(w2 & Er & Ew2 & Hs2 & Hg2 & Hne2 & Hroom2 & Hth)]); try done.
    + exists (Raise ValueError), l2. rewrite (bind_raise _ _ _ _ _ Er). split_and!; [done|by eapply (lframe_trans _ l1)| |intros ?; lia].
      constructor. destruct Hbig as (id & r & Hin & Hr & Hgo1 & Hlt). exists id, r. split_and!; try done.
      by apply Hmem in Hin as [? _].
    + rewrite (bind_ok _ _ _ _ _ Er).
      destruct (run_room_ok slots wd l2 w2 (BatchOps.batch_size (batch wd))) as (l' & E & F & U & _); try done.
      { by eapply selected_thinned. }
      exists (Ok true), l'. split; [exact E|]. split; [|split; [done|intros ?; lia]].
      eapply (lframe_trans _ l1); [done|]. by eapply lframe_trans.
Qed.

(** ** The pass itself *)

Section Pass.
Context `{Model} (V : SamplingParams → list Z → Z) (N w : Z).
Implicit Types (s : Scheduler ChunkCache) (r : Req).

(** A seated request after the pass: finished and without a row, or still in
    its seat. *)
Lemma after_pass tbl ms r :
  (is_deterministic r = true → finalised V w tbl ms r) →
  (is_deterministic r = false → plain_after tbl r) →
  (gone r = true → req_pool_idx r = None) ∧ (gone r = false → running tbl 1 r) ∧
  (finished r = false → is_retracted r = false).
Proof.
  intros HD HP.
  assert (Hd : finished r = true → req_pool_idx r = None).
  { destruct (is_deterministic r); [intros Hf; by apply HD|by apply HP]. }
  assert (Hg : finished r = false → running tbl 1 r).
  { destruct (is_deterministic r); [intros Hf; by apply HD|by apply HP]. }
  unfold gone. split_and!.
  - destruct (finished r) eqn:Ef; [auto|]. cbn. rewrite (ru_here _ _ _ (Hg eq_refl)). done.
  - intros [Hf _]%orb_false_iff. auto.
  - intros Hf. apply (Hg Hf).
Qed.

(** The seats after a pass over the batch: nobody changes rows. *)
Lemma seated_after slots s s' :
  let tbl := req_to_token (rtp (w_of s)) in
  let reqs := b_reqs (batch (w_of s)) in
  seated 0 slots (w_of s) → all_going (w_of s) →
  req_to_token (rtp (w_of s')) = tbl → b_reqs (batch (w_of s')) = reqs → soa (batch (w_of s')) →
  b_req_pool_indices (batch (w_of s')) = b_req_pool_indices (batch (w_of s)) →
  b_return_logprob (batch (w_of s')) = false → tree_page_size (cache (w_of s')) = tree_page_size (cache (w_of s)) →
  all_in (finalised V w tbl (to_detokenizer s')) (plain_after tbl) reqs s' → pairs lineage reqs s s' → in_step s' →
  kv_ok (kv (w_of s')) → pool (kv (w_of s')) ++ held_ids tbl (heap (w_of s')) reqs ≡ₚ slots →
  capacity (kv (w_of s')) = capacity (kv (w_of s)) →
  seated 1 slots (w_of s').
Proof.
  intros tbl reqs Hs Hg Etbl F1 Hsoa F2 Hlp Hp All Ids Hst Hk Hsl Hc.
  split; rewrite ?Etbl, ?F1; fold reqs; try done.
  - apply Hs.
  - change (cc_page_size (cache (w_of s')) = cc_page_size (cache (w_of s))) in Hp. rewrite Hp. apply Hs.
  - intros j id Hj. apply list_elem_of_lookup_2 in Hj as Hin.
    destruct (seated_at 0 slots _ j id Hs Hg Hj) as (r & row & l & Hr & Hse & Er & Hp0 & El & Hrow).
    destruct (Ids id r Hin Hr) as (r' & Hr' & [L1 L2 L3 L4 L5 L6]).
    destruct (All id Hin) as (r2 & Hr2 & HD & HP). assert (r2 = r') as -> by congruence.
    destruct (after_pass tbl _ r' HD HP) as (A1 & A2 & _).
    exists r'. split_and!; [done| |done|].
    + destruct (sd_seat _ _ _ Hs j id Hj) as (r0 & Hr0 & Hl0 & _). congruence.
    + intros Hgo. specialize (A2 Hgo). destruct (ru_row _ _ _ A2) as (row' & l' & Er' & _ & El' & _).
      assert (Erow : req_pool_idx r' = req_pool_idx r) by (destruct L6; congruence).
      split; [done|by rewrite F2, Erow, (st_row _ _ _ _ _ Hse)| |].
      * apply (Hst j id r'); [by rewrite F1|done].
      * rewrite Erow, L3, L4. apply (st_width _ _ _ _ _ Hse).
  - intros i j id id' r r' row Hi Hj Hr Hr' E1 E2.
    apply list_elem_of_lookup_2 in Hi as Hin, Hj as Hjn.
    destruct (seated_at 0 slots _ i id Hs Hg Hi) as (x & rx & lx & Hx & _ & Ex & _).
    destruct (seated_at 0 slots _ j id' Hs Hg Hj) as (y & ry & ly & Hy & _ & Ey & _).
    destruct (Ids id x Hin Hx) as (x' & Hx' & [_ _ _ _ _ Lx]).
    destruct (Ids id' y Hjn Hy) as (y' & Hy' & [_ _ _ _ _ Ly]).
    assert (x' = r) as -> by congruence. assert (y' = r') as -> by congruence.
    assert (req_pool_idx x = Some row) by (destruct Lx; congruence).
    assert (req_pool_idx y = Some row) by (destruct Ly; congruence).
    exact (sd_rows _ _ _ Hs i j id id' x y row Hi Hj Hx Hy ltac:(done) ltac:(done)).
  - rewrite Hc. apply Hs.
Qed.

(** The slots a pass frees belong to nobody else. *)
Lemma freed_slots slots s s' fss :
  let tbl := req_to_token (rtp (w_of s)) in
  let reqs := b_reqs (batch (w_of s)) in
  seated 0 slots (w_of s) → conserves tbl reqs s s' fss →
  pool (kv (w_of s)) ++ held_ids tbl (heap (w_of s')) reqs ++ concat fss ≡ₚ slots ∧
  NoDup (pool (kv (w_of s)) ++ concat fss) ∧ Forall (λ x, 1 ≤ x ≤ capacity (kv (w_of s))) (concat fss).
Proof.
  intros tbl reqs Hs Cv.
  assert (Hex : exact_release (C := ChunkCache) tbl).
  { intros wd r Ht. cbn. by rewrite Ht, app_nil_r. }
  specialize (Cv Hex). change (held_all tbl reqs s) with (held_ids tbl (heap (w_of s)) reqs) in Cv.
  change (held_all tbl reqs s') with (held_ids tbl (heap (w_of s')) reqs) in Cv.
  pose proof (sd_slots _ _ _ Hs) as Hsl. fold tbl reqs in Hsl. rewrite Cv in Hsl.
  destruct (sd_fresh _ _ _ Hs) as [Hnd Hrng]. split; [done|]. split.
  - rewrite <- Hsl in Hnd. rewrite (Permutation_app_comm (held_ids _ _ _)), app_assoc in Hnd.
    by apply NoDup_app in Hnd as [? _].
  - rewrite <- Hsl in Hrng. apply Forall_app in Hrng as [_ Hrng]. by apply Forall_app in Hrng as [_ ?].
Qed.

Lemma seated_done slots s s' fss k' :
  let tbl := req_to_token (rtp (w_of s)) in
  seated 0 slots (w_of s) → is_Some (b_output_ids (batch (w_of s))) → all_going (w_of s) →
  decode_done V N w tbl s s' →
  free_group_end (frees fss (Base.free_group_begin (kv (w_of s)))) = (Ok tt, k') →
  kv (w_of s') = k' → conserves tbl (b_reqs (batch (w_of s))) s s' fss →
  seated 1 slots (w_of s').
Proof.
  intros tbl Hs Ho Hg D Ek Ek' Cv.
  destruct (bframe_same _ _ (dn_frame _ _ _ _ _ _ D)) as (F1 & F2 & F3 & F4 & _ & F6).
  destruct (freed_slots slots s s' fss Hs Cv) as (Hsl & Hnd & Hrng). fold tbl in Hsl.
  destruct (group_token_ok fss (kv (w_of s)) k' (sd_kv _ _ _ Hs) Hnd Hrng Ek) as (K1 & K2 & K3).
  destruct (dn_batch _ _ _ _ _ _ D) as [B1 B2 B3 B4 B5].
  apply (seated_after slots s s' Hs Hg).
  - apply (dn_steady _ _ _ _ _ _ D).
  - exact F1.
  - destruct (sd_soa _ _ _ Hs) as [S1 S2 S3 S4 S5 S6 S7].
    split; rewrite ?F1, ?F2, ?F3, ?F4, ?F6; try done; rewrite <- F1; done.
  - exact F2.
  - rewrite F4. apply Hs.
  - apply (dn_page _ _ _ _ _ _ D).
  - apply (dn_reqs _ _ _ _ _ _ D).
  - eapply pairs_impl; [|apply (dn_ids _ _ _ _ _ _ D)]. by intros ? ? [].
  - apply (dn_step _ _ _ _ _ _ D Ho). intros j id r Hj Hr.
    destruct (seated_at 0 slots _ j id Hs Hg Hj) as (r0 & row & l & Hr0 & Hse & _).
    assert (r0 = r) as -> by congruence. rewrite (st_len _ _ _ _ _ Hse). f_equal. lia.
  - by rewrite Ek'.
  - rewrite Ek', K2, <- Hsl, <- app_assoc. f_equiv. apply Permutation_app_comm.
  - by rewrite Ek'.
Qed.
End Pass.
End Loop.
