(* ===== verification/Serving.v ===== *)
(** * Any number of decode passes

    [serving] is the invariant of a server that decodes: the requests, the
    running batch, the memory and what the clients have received.  Every
    iteration keeps it, whatever tokens the decode passes propose, or fails
    because not even one request has memory for its next token. *)

From S2P Require Import Prelude Returns PyFloat Allocator AllocatorFacts Request ReqPool LLM42Info InfoFacts World MemCommon CacheLaws BatchOps LLM42Worker Verifier WorkerFacts BatchFacts Scheduler OutputProcessor OutputFacts DecodeFacts DecodeStep DecodePass PrepareFacts RetractFacts EventLoop LoopFacts.
Import PoolFacts Batch Finish OneStream Pass Step EventLoop.

(** ** One request *)

Section Requests.
Context `{Externals} (V : SamplingParams → list Z → Z) (w : Z).
Implicit Types r : Req.

(** What [tracked] depends on. *)
Lemma tracked_frame ms r r' :
  output_ids r' = output_ids r → llm42_verified_tokens r' = llm42_verified_tokens r →
  send_token_offset r' = send_token_offset r → finished_len r' = finished_len r →
  rid r' = rid r → sampling_params r' = sampling_params r → origin_input_ids r' = origin_input_ids r →
  vocab_size r' = vocab_size r → tracked V ms r → tracked V ms r'.
Proof.
  intros E1 E2 E3 E4 L1 L3 L4 E5 [[Hb Hg] [Hs Hv Hf] Ht Hvo].
  split; [split|split|..]; rewrite ?E1, ?E2, ?E3, ?E4, ?L1, ?L3, ?L4, ?E5; done.
Qed.

Lemma decode_req_size r : same_size r (BatchOps.decode_req r).
Proof. unfold BatchOps.decode_req. split; [split|..]; rsimpl; auto. Qed.

Lemma decode_req_tracked ms r : tracked V ms r → tracked V ms (BatchOps.decode_req r).
Proof.
  apply tracked_frame; unfold BatchOps.decode_req; by rsimpl.
Qed.

Lemma retracted_lineage r : lineage r (retracted r).
Proof. unfold retracted, reset_for_retract, released_req. split; rsimpl; auto. Qed.

Lemma retracted_tracked ms r : tracked V ms r → tracked V ms (retracted r).
Proof.
  apply tracked_frame; unfold retracted, reset_for_retract, released_req; by rsimpl.
Qed.

Lemma retracted_flag r : is_retracted (retracted r) = true.
Proof. unfold retracted, reset_for_retract. by rsimpl. Qed.

(** What [tracked] says of the stream. *)
Lemma tracked_streamed ms ms' r : tracked V ms r → tracked V ms' r → streamed ms' (rid r) = streamed ms (rid r).
Proof. intros T1 T2. by rewrite (tr_stream _ _ _ T1), (tr_stream _ _ _ T2). Qed.

Lemma tracked_restream ms ms' r :
  streamed ms' (rid r) = streamed ms (rid r) → tracked V ms r → tracked V ms' r.
Proof. intros E [T1 T2 T3 T4]. split; [done..|by rewrite E|done]. Qed.

(** A request in the batch that is not finished has passes left. *)
Lemma rank_pos tbl ms r :
  0 < w → finished r = false → (is_deterministic r = true → finalised V w tbl ms r) →
  (is_deterministic r = false → plain_after tbl r) → 0 < rank w r.
Proof.
  intros Hw Hf HD HP. unfold rank. destruct (is_deterministic r).
  - destruct (HD eq_refl) as [Ht _ Hg]. destruct (Hg Hf) as [Hr Hwin].
    pose proof (ru_room _ _ _ Hr). pose proof (tr_committed _ _ _ Ht) as [[Hv Hv2] _]. nia.
  - pose proof (ru_room _ _ _ (pa_going _ _ (HP eq_refl) Hf)). lia.
Qed.

Lemma rank_le ms r :
  0 < w → 0 ≤ max_new_tokens (sampling_params r) → (is_deterministic r = true → tracked V ms r) →
  rank w r ≤ max_new_tokens (sampling_params r) * w.
Proof.
  intros Hw Hm HT. unfold rank. destruct (is_deterministic r).
  - pose proof (tr_committed _ _ _ (HT eq_refl)) as [[Hv Hv2] _]. nia.
  - pose proof (len_nonneg (output_ids r)). nia.
Qed.

(** The request is complete, and its client has everything. *)
Definition complete (ms : list (list StreamEntry)) r : Prop :=
  finished r = true ∧
  (is_deterministic r = true →
     llm42_verified_tokens r = len (output_ids r) ∧ streamed ms (rid r) = output_ids_through_stop r).

Lemma finished_complete tbl ms r :
  finished r = true → (is_deterministic r = true → finalised V w tbl ms r) → complete ms r.
Proof. intros Hf HD. split; [done|]. intros Hd. destruct (fi_done _ _ _ _ _ (HD Hd) Hf) as (? & _ & ?). done. Qed.

End Requests.

(** ** The server *)

Section Server.
Context `{Externals} `{Model} (V : SamplingParams → list Z → Z) (N w : Z) (slots : list Z).
Implicit Types l : Loop ChunkCache.

(** The shared state with the running batch at hand. *)
Definition home l : World ChunkCache := (w_of (sched l)) <| batch := running_batch l |>.
Definition reqs_of l : gmap nat Req := heap (w_of (sched l)).
Definition ids_of l : list nat := b_reqs (running_batch l).
Definition sent_of l : list (list StreamEntry) := to_detokenizer (sched l).
Definition table_of l : list (list Z) := req_to_token (rtp (w_of (sched l))).

Record serving l : Prop := {
  sv_llm42 : enable_llm42 (args (sched l)) = true;
  sv_stream : default_stream_interval (args (sched l)) ≠ 0 ∧ is_multimodal_gen (args (sched l)) = false;
  sv_mode : fixed_mode (worker (sys (sched l))) N w;
  sv_clock : 0 < clock (sched l);
  sv_empty : ids_of l = [] → pool (kv (w_of (sched l))) ≡ₚ slots;
  sv_seated : ids_of l ≠ [] → seated 1 slots (home l);
  sv_reqs : all_in (finalised V w (table_of l) (sent_of l)) (plain_after (table_of l)) (ids_of l) (sched l);
  sv_rids : ∀ i j r r', reqs_of l !! i = Some r → reqs_of l !! j = Some r' → rid r = rid r' → i = j;
  sv_tracked : ∀ id r, reqs_of l !! id = Some r → is_deterministic r = true → tracked V (sent_of l) r
}.

(** What became of the requests after [k] passes. *)
Record follows (k : Z) l l' : Prop := {
  fo_sub : ∀ id, id ∈ ids_of l' → id ∈ ids_of l;
  fo_reqs : ∀ id r, reqs_of l !! id = Some r → ∃ r', reqs_of l' !! id = Some r' ∧ lineage r r' ∧
    (id ∈ ids_of l' → rank w r' ≤ rank w r - k) ∧
    (id ∈ ids_of l → id ∉ ids_of l' → complete (sent_of l') r' ∨ is_retracted r' = true) ∧
    (id ∉ ids_of l → r' = r)
}.

Lemma follows_refl l : follows 0 l l.
Proof. split; [done|]. intros id r Hr. exists r. split_and!; [done|apply lineage_refl|lia|done|done]. Qed.

Lemma follows_trans k1 k2 l1 l2 l3 :
  serving l2 → serving l3 → follows k1 l1 l2 → follows k2 l2 l3 → follows (k1 + k2) l1 l3.
Proof.
  intros S2 S3 [A1 A2] [B1 B2]. split; [auto|]. intros id r Hr.
  destruct (A2 id r Hr) as (r2 & H2' & L2 & K2 & D2 & O2).
  destruct (B2 id r2 H2') as (r3 & H3 & L3 & K3 & D3 & O3).
  exists r3. split_and!; [done|by eapply lineage_trans|..].
  - intros Hi. specialize (K3 Hi). specialize (K2 (B1 _ Hi)). lia.
  - intros Hi Hn. destruct (decide (id ∈ ids_of l2)) as [Hi2|Hi2]; [auto|].
    rewrite (O3 Hi2) in *. destruct (D2 Hi Hi2) as [[Hf Hc]|Hre]; [left|by right]. split; [done|].
    intros Hd. destruct (Hc Hd) as [C1 C2]. split; [done|]. rewrite <- C2.
    apply (tracked_streamed V); [by eapply sv_tracked|by eapply sv_tracked].
  - intros Hi. rewrite <- (O2 Hi). apply O3. auto.
Qed.

(** ** Before the pass *)

(** The token of the pass does not touch the seats. *)
Lemma seated_output d (wd : World ChunkCache) toks :
  length toks = length (b_reqs (batch wd)) → seated d slots wd →
  seated d slots (wd <| batch ::= λ b, b <| b_output_ids := Some toks |> |>).
Proof.
  intros Hl [S1 S2 S3 S4 S5 S6 S7 S8 S9]. split; rsimpl; try done.
  - destruct S1 as [T1 T2 T3 T4 T5 T6 T7]. split; rsimpl; try done. by intros ? [= <-].
  - intros j id Hj. destruct (S6 j id Hj) as (r & Hr & A1 & A2 & A3). exists r. split_and!; try done.
    intros Hg. destruct (A3 Hg) as [B1 B2 B3 B4]. split; by rsimpl.
Qed.

(** A request of the new batch, before and after the preparation. *)
Lemma prepared_req (wd w1 wd' : World ChunkCache) id :
  selected_from wd w1 → prepared slots w1 wd' → all_going w1 → seated 1 slots w1 →
  id ∈ b_reqs (batch wd') →
  ∃ r, id ∈ b_reqs (batch wd) ∧ heap wd !! id = Some r ∧ finished r = false ∧
    heap wd' !! id = Some (BatchOps.decode_req r) ∧
    running (req_to_token (rtp wd')) 0 (BatchOps.decode_req r).
Proof.
  intros Sf P Hg Hs Hin. rewrite (pp_reqs _ _ _ P) in Hin. apply list_elem_of_lookup_1 in Hin as Hj.
  destruct Hj as [j Hj]. destruct (sf_in _ _ Sf id Hin) as [Hi Eh].
  destruct (sd_seat _ _ _ Hs j id Hj) as (r & Hr & _). pose proof (Hg id r Hin Hr) as Hgo.
  pose proof (pp_in _ _ _ P id Hin) as Hp. rewrite Hr in Hp. cbn in Hp.
  assert (Hf : finished r = false) by (unfold gone in Hgo; by apply orb_false_iff in Hgo as [? _]).
  exists r. split_and!; [done|congruence|done|done|].
  rewrite <- (pp_reqs _ _ _ P) in Hj.
  destruct (sd_seat _ _ _ (pp_seated _ _ _ P) j id Hj) as (r' & Hr' & _ & _ & Hse).
  assert (r' = BatchOps.decode_req r) as -> by congruence. apply Hse.
  unfold gone, finished, BatchOps.decode_req in *. by rsimpl.
Qed.

Lemma prepared_ready l (w1 : World ChunkCache) (s : Scheduler ChunkCache) :
  serving l → seated 1 slots w1 → all_going w1 → selected_from (home l) w1 → prepared slots w1 (w_of s) →
  args s = args (sched l) → worker (sys s) = worker (sys (sched l)) → clock s = clock (sched l) →
  to_detokenizer s = sent_of l → decode_ready V N w (req_to_token (rtp (w_of s))) s.
Proof.
  intros Sv Hs1 Hg1 Sf P Ea Ewk Ec Eo. pose proof (pp_seated _ _ _ P) as Hs.
  assert (Hreq := λ id, prepared_req (home l) w1 (w_of s) id Sf P Hg1 Hs1).
  split; rewrite ?Ea, ?Ewk.
  - apply Sv.
  - apply Sv.
  - apply Sv.
  - split; [done|apply Hs|rewrite Ec; apply Sv|done].
  - split; [|apply Hs]. destruct (sd_soa _ _ _ Hs) as [T1 T2 T3 T4 T5 T6 T7]. split; try done.
    intros id Hin. destruct (Hreq id Hin) as (r & _ & _ & _ & -> & _). done.
  - apply Hs.
  - intros i j r r' Hi Hj Hr Hr' E.
    destruct (Hreq i Hi) as (a & _ & Ha & _ & Ha' & _), (Hreq j Hj) as (b & _ & Hb & _ & Hb' & _).
    apply (sv_rids _ Sv i j a b); [done..|]. unfold BatchOps.decode_req in *. simplify_eq. revert E. by rsimpl.
  - intros id Hin. destruct (Hreq id Hin) as (r & Hi & Hr & Hf & Hr' & Hrun). exists (BatchOps.decode_req r).
    split; [done|]. split; intros Hd; [|done].
    destruct (decode_req_size r) as [L E1 E2]. rewrite (li_det _ _ L) in Hd.
    split; [done|]. rewrite Eo, E1, E2. split; [by apply decode_req_tracked; eapply (sv_tracked _ Sv)|].
    destruct (sv_reqs _ Sv id Hi) as (r0 & Hr0 & HD & _). assert (r0 = r) as ->.
    { assert (Hr2 : heap (w_of (sched l)) !! id = Some r) by exact Hr. congruence. }
    by apply (fi_going _ _ _ _ _ (HD Hd) Hf).
Qed.

Lemma prepared_output (w1 wd : World ChunkCache) toks :
  length toks = length (b_reqs (batch wd)) → prepared slots w1 wd →
  prepared slots w1 (wd <| batch ::= λ b, b <| b_output_ids := Some toks |> |>).
Proof. intros Hl [P1 P2 P3 P4 P5]. split; rsimpl; try done. by apply seated_output. Qed.

(** ** After the pass *)

(** Every request of the server keeps its identity. *)
Lemma selected_lineage (wd w1 wd' : World ChunkCache) id r :
  selected_from wd w1 → prepared slots w1 wd' → heap wd !! id = Some r →
  ∃ r', heap wd' !! id = Some r' ∧ lineage r r' ∧
    (id ∈ b_reqs (batch wd') → r' = BatchOps.decode_req r) ∧
    (id ∉ b_reqs (batch wd') →
       (r' = r ∧ (id ∈ b_reqs (batch wd) → finished r = true)) ∨
       (id ∈ b_reqs (batch wd) ∧ r' = retracted r)).
Proof.
  intros Sf P Hr. rewrite (pp_reqs _ _ _ P). destruct (decide (id ∈ b_reqs (batch w1))) as [Hin|Hin].
  - destruct (sf_in _ _ Sf id Hin) as [Hi Eh]. pose proof (pp_in _ _ _ P id Hin) as Hp.
    rewrite Eh, Hr in Hp. eexists. split_and!; [exact Hp|apply decode_req_size|done|done].
  - pose proof (pp_out _ _ _ P id Hin) as Hp.
    destruct (sf_out _ _ Sf id r Hr Hin) as [[Eh Hd]|[Hi Eh]]; rewrite Eh in Hp.
    + eexists. split_and!; [exact Hp|apply lineage_refl|done|auto].
    + eexists. split_and!; [exact Hp|apply retracted_lineage|done|auto].
Qed.

Section Done.
Context (l l' : Loop ChunkCache) (w1 : World ChunkCache) (s : Scheduler ChunkCache).
Context (Sv : serving l) (Sf : selected_from (home l) w1) (P : prepared slots w1 (w_of s)).
Context (D : decode_done V N w (req_to_token (rtp (w_of s))) s (sched l')).
Context (Ems : to_detokenizer s = sent_of l) (Eb : running_batch l' = batch (w_of (sched l'))).

Lemma done_ids : ids_of l' = b_reqs (batch (w_of s)).
Proof. unfold ids_of. rewrite Eb. apply (dn_breqs _ _ _ _ _ _ D). Qed.

(** A request of the server across the whole iteration. *)
Lemma done_req id r :
  reqs_of l !! id = Some r →
  ∃ r', reqs_of l' !! id = Some r' ∧ lineage r r' ∧
    (id ∈ ids_of l' → rank w r' ≤ rank w r - 1) ∧
    (id ∉ ids_of l' → (r' = r ∧ (id ∈ ids_of l → finished r = true)) ∨
                      (id ∈ ids_of l ∧ r' = retracted r)).
Proof.
  intros Hr. rewrite done_ids.
  destruct (selected_lineage (home l) w1 (w_of s) id r Sf P Hr) as (r1 & Hr1 & L1 & A1 & A2).
  destruct (decide (id ∈ b_reqs (batch (w_of s)))) as [Hin|Hin].
  - destruct (dn_ids _ _ _ _ _ _ D id r1 Hin Hr1) as (r' & Hr' & L' & K').
    exists r'. split_and!; [done|by eapply lineage_trans| |done]. intros _.
    rewrite (A1 Hin), (same_size_rank w _ _ (decode_req_size r)) in K'. done.
  - exists r1. split_and!; [|done|done|intros _; by apply A2].
    unfold reqs_of. by rewrite (dn_others _ _ _ _ _ _ D id Hin).
Qed.

Lemma other_stream id r :
  reqs_of l !! id = Some r → id ∉ ids_of l' → streamed (sent_of l') (rid r) = streamed (sent_of l) (rid r).
Proof.
  intros Hr Hin. rewrite done_ids in Hin. unfold sent_of at 1.
  rewrite (dn_streams _ _ _ _ _ _ D (rid r)); [by rewrite Ems|]. intros i ri Hi Hri E. apply Hin.
  assert (Hl : ∃ r0, reqs_of l !! i = Some r0).
  { rewrite (pp_reqs _ _ _ P) in Hi. destruct (sf_in _ _ Sf i Hi) as [Hi1 _].
    destruct (sv_reqs _ Sv i Hi1) as (r0 & Hr0 & _). by exists r0. }
  destruct Hl as [r0 Hr0].
  destruct (selected_lineage (home l) w1 (w_of s) i r0 Sf P Hr0) as (r1 & Hr1 & [L1 _ _ _ _ _] & _).
  assert (r1 = ri) as -> by congruence.
  by rewrite (sv_rids _ Sv id i r r0 Hr Hr0 ltac:(congruence)).
Qed.

Lemma done_follows : follows 1 l l'.
Proof.
  split.
  - intros id. rewrite done_ids, (pp_reqs _ _ _ P). intros Hin. apply (sf_in _ _ Sf id Hin).
  - intros id r Hr. destruct (done_req id r Hr) as (r' & Hr' & L & K & O). exists r'. split_and!; try done.
    + intros Hi Hn. destruct (O Hn) as [[-> Hf]|[_ ->]]; [left|right; apply retracted_flag].
      specialize (Hf Hi). destruct (sv_reqs _ Sv id Hi) as (r0 & Hr0 & HD & _).
      assert (r0 = r) as -> by (unfold reqs_of in Hr; congruence).
      destruct (finished_complete V w _ _ r Hf HD) as [Hff Hc]. split; [done|]. intros Hd.
      rewrite (other_stream id r Hr Hn). auto.
    + intros Hn. destruct (decide (id ∈ ids_of l')) as [Hi|Hi].
      * rewrite done_ids, (pp_reqs _ _ _ P) in Hi. by destruct (sf_in _ _ Sf id Hi).
      * destruct (O Hi) as [[-> _]|[? _]]; done.
Qed.

(** The heap of the server has the same requests. *)
Lemma done_dom id r' : reqs_of l' !! id = Some r' → ∃ r, reqs_of l !! id = Some r.
Proof.
  intros Hr'. destruct (reqs_of l !! id) as [r|] eqn:E; [by exists r|]. exfalso.
  assert (En : heap w1 !! id = None).
  { apply not_elem_of_dom. rewrite (sf_dom _ _ Sf). by apply not_elem_of_dom. }
  assert (Hn : id ∉ b_reqs (batch w1)).
  { intros Hin. destruct (sf_in _ _ Sf id Hin) as [Hi _]. destruct (sv_reqs _ Sv id Hi) as (r0 & Hr0 & _).
    unfold reqs_of in E. congruence. }
  unfold reqs_of in Hr'. rewrite (dn_others _ _ _ _ _ _ D id), (pp_out _ _ _ P id Hn) in Hr'; [congruence|].
  by rewrite (pp_reqs _ _ _ P).
Qed.

Lemma done_rids i j r r' :
  reqs_of l' !! i = Some r → reqs_of l' !! j = Some r' → rid r = rid r' → i = j.
Proof.
  intros Hr Hr' E. destruct (done_dom i r Hr) as [a Ha], (done_dom j r' Hr') as [b Hb].
  destruct (done_req i a Ha) as (a' & Ha' & [Ea _ _ _ _ _] & _).
  destruct (done_req j b Hb) as (b' & Hb' & [Eb' _ _ _ _ _] & _).
  apply (sv_rids _ Sv i j a b Ha Hb). congruence.
Qed.

Lemma done_tracked id r' : reqs_of l' !! id = Some r' → is_deterministic r' = true → tracked V (sent_of l') r'.
Proof.
  intros Hr' Hd. destruct (done_dom id r' Hr') as [r Hr].
  destruct (done_req id r Hr) as (r2 & Hr2 & L & _ & O). assert (r2 = r') as -> by congruence.
  destruct (decide (id ∈ ids_of l')) as [Hi|Hi].
  - rewrite done_ids in Hi. destruct (dn_reqs _ _ _ _ _ _ D id Hi) as (r3 & Hr3 & HD & _).
    assert (r3 = r') as -> by (unfold reqs_of in Hr'; congruence). by apply (fi_tracked _ _ _ _ _ (HD Hd)).
  - pose proof (other_stream id r Hr Hi) as E. rewrite (li_det _ _ L) in Hd.
    pose proof (sv_tracked _ Sv id r Hr Hd) as T.
    destruct (O Hi) as [[-> _]|[_ ->]]; [|apply retracted_tracked]; by eapply tracked_restream.
Qed.

Lemma done_serving :
  args s = args (sched l) → seated 1 slots (w_of (sched l')) → ids_of l' ≠ [] → serving l'.
Proof.
  intros Ea Hs Hne. pose proof (dn_args _ _ _ _ _ _ D) as Ea'. rewrite Ea in Ea'.
  assert (Eh : home l' = w_of (sched l')).
  { unfold home. rewrite Eb. by destruct (w_of (sched l')). }
  split; rewrite ?Ea'.
  - apply Sv.
  - apply Sv.
  - apply (dn_mode _ _ _ _ _ _ D).
  - apply (dn_steady _ _ _ _ _ _ D).
  - done.
  - by rewrite Eh.
  - unfold table_of. rewrite (sy_tbl _ _ (dn_steady _ _ _ _ _ _ D)), done_ids. apply (dn_reqs _ _ _ _ _ _ D).
  - apply done_rids.
  - apply done_tracked.
Qed.
End Done.

(** ** An iteration *)

Context (forward_batch_generation : Z → ScheduleBatch → GenerationBatchResult).
Hypothesis forward_length : ∀ n b,
  length (next_token_ids (forward_batch_generation n b)) = length (b_reqs b).

(** There is a request to decode. *)
Definition busy l : Prop := ∃ id r, id ∈ ids_of l ∧ reqs_of l !! id = Some r ∧ finished r = false.

Inductive iterated l l' : res bool → Prop :=
| iterated_oom : sent_of l' = sent_of l → too_large slots (home l) → iterated l l' (Raise ValueError)
| iterated_idle : serving l' → follows 1 l l' → ids_of l' = [] → iterated l l' (Ok false)
| iterated_pass : busy l → serving l' → follows 1 l l' → iterated l l' (Ok true).

(** A request of a later batch, now and before. *)
Lemma follows_back k l lm id r :
  serving l → follows k l lm → id ∈ ids_of lm → reqs_of lm !! id = Some r →
  ∃ r0, id ∈ ids_of l ∧ reqs_of l !! id = Some r0 ∧ lineage r0 r ∧ rank w r ≤ rank w r0 - k.
Proof.
  intros Sv Fo Hin Hr. pose proof (fo_sub _ _ _ Fo id Hin) as Hi.
  destruct (sv_reqs _ Sv id Hi) as (r0 & Hr0 & _).
  destruct (fo_reqs _ _ _ Fo id r0 Hr0) as (r1 & Hr1 & L & K & _). assert (r1 = r) as -> by congruence.
  exists r0. auto.
Qed.

Lemma busy_rank k l lm :
  0 < w → serving l → serving lm → follows k l lm → busy lm →
  ∃ id r, id ∈ ids_of l ∧ reqs_of l !! id = Some r ∧ k < rank w r.
Proof.
  intros Hw Sv Sm Fo (id & r & Hin & Hr & Hf). destruct (sv_reqs _ Sm id Hin) as (r1 & Hr1 & HD & HP).
  assert (r1 = r) as -> by (unfold reqs_of in Hr; congruence).
  pose proof (rank_pos V w _ _ r Hw Hf HD HP).
  destruct (follows_back k l lm id r Sv Fo Hin Hr) as (r0 & Hi & Hr0 & _ & Hk). exists id, r0. split_and!; [done..|lia].
Qed.

Lemma fits_not_large k l lm :
  serving l → serving lm → follows k l lm →
  (∀ id r, id ∈ ids_of l → reqs_of l !! id = Some r →
     len (origin_input_ids r) + max_new_tokens (sampling_params r) ≤ len slots) →
  ~ too_large slots (home lm).
Proof.
  intros Sv Sm Fo Hfit (id & r & Hin & Hr & Hgo & Hlt). change (reqs_of lm !! id = Some r) in Hr.
  destruct (follows_back k l lm id r Sv Fo Hin Hr) as (r0 & Hi & Hr0 & [_ _ L3 L4 _ _] & _).
  specialize (Hfit id r0 Hi Hr0). destruct (sv_reqs _ Sm id Hin) as (r1 & Hr1 & HD & HP).
  assert (r1 = r) as -> by (unfold reqs_of in Hr; congruence).
  destruct (after_pass V w _ _ r HD HP) as (_ & A & _). pose proof (ru_room _ _ _ (A Hgo)).
  unfold seqlen in Hlt. rewrite <- L3, <- L4 in Hfit. lia.
Qed.

(** The finished batch is dropped. *)
Lemma idle_follows l l' :
  serving l → ids_of l' = [] → reqs_of l' = reqs_of l → sent_of l' = sent_of l →
  (∀ id r, id ∈ ids_of l → reqs_of l !! id = Some r → finished r = true) → follows 1 l l'.
Proof.
  intros Sv Hnil Er Es Hf. split; rewrite Hnil; [by intros id Hin%elem_of_nil|]. intros id r Hr. exists r.
  rewrite Er. split_and!; [done|apply lineage_refl|by intros ?%elem_of_nil| |done].
  intros Hi _. left. rewrite Es. destruct (sv_reqs _ Sv id Hi) as (r0 & Hr0 & HD & _).
  assert (r0 = r) as -> by (unfold reqs_of in Hr; congruence). eapply (finished_complete V w); [by eapply Hf|exact HD].
Qed.

Lemma idle_serving l l' :
  serving l → lframe l l' → ids_of l' = [] → reqs_of l' = reqs_of l →
  pool (kv (w_of (sched l'))) ≡ₚ slots → serving l'.
Proof.
  intros Sv [F1 F2 F3 F4] Hnil Er Hp. unfold sent_of in *. split; rewrite ?F1, ?F2, ?F3; try apply Sv; try done.
  - rewrite Hnil. by intros id Hin%elem_of_nil.
  - rewrite Er. apply Sv.
  - rewrite Er. unfold sent_of. rewrite F4. apply Sv.
Qed.

(** [run_batch] on a batch without log-probabilities *)
Lemma run_batch_ok l :
  b_return_logprob (batch (w_of (sched l))) = false →
  let n := forward_ct l + 1 in
  let toks := next_token_ids (forward_batch_generation n (batch (w_of (sched l)))) in
  ∃ result, next_token_ids result = toks ∧
    run_batch forward_batch_generation l =
      (Ok result, with_w ((w_of (sched l)) <| batch ::= λ b, b <| b_output_ids := Some toks |> |>)
                    (l <| forward_ct := n |>)).
Proof.
  intros Hlp n toks. unfold run_batch. set (l1 := l <| forward_ct := n |>).
  rewrite (bind_ok _ _ l tt l1) by done. rewrite (bind_ok _ _ l1 n l1) by done.
  rewrite (bind_ok _ _ l1 (batch (w_of (sched l))) l1) by done. cbv zeta.
  erewrite bind_ok by (apply on_world_eq; reflexivity). rewrite Hlp. eexists. split; [|reflexivity]. done.
Qed.

(** What a pass leaves as it was: the queues, and the requests that take no
    part in it *)
Record passed_on l l' : Prop := {
  po_queue : waiting_queue (sched l) = [] → waiting_queue (sched l') = [];
  po_chunked : chunked_req l' = chunked_req l;
  po_mode : b_forward_mode (running_batch l') = Some DECODE;
  po_ids : ids_of l' = b_reqs (batch (w_of (sched l)));
  po_others : ∀ id, id ∉ ids_of l' → reqs_of l' !! id = reqs_of l !! id
}.

(** The pass over a batch that was prepared for it. *)
Lemma pass_ok l l1 (w1 : World ChunkCache) :
  fixed_shape_determinism V N w → 0 < w → serving l → lframe l l1 →
  seated 1 slots w1 → all_going w1 → b_reqs (batch w1) ≠ [] → selected_from (home l) w1 →
  prepared slots w1 (w_of (sched l1)) →
  ∃ l', (result ← run_batch forward_batch_generation;
         process_batch_result result;;
         b ← current;
         modify (λ l, l <| running_batch := b |>);;
         mret true) l1 = (Ok true, l') ∧ serving l' ∧ follows 1 l l' ∧ passed_on l1 l'.
Proof.
  intros Hdet Hw Sv [F1 F2 F3 F4] Hs1 Hg1 Hne1 Sf P.
  destruct (run_batch_ok l1) as (result & Etoks & Er); [apply (pp_seated _ _ _ P)|].
  rewrite (bind_ok _ _ _ _ _ Er), <- Etoks. set (toks := next_token_ids result). set (l3 := with_w _ _).
  assert (Hlt : length toks = length (b_reqs (batch (w_of (sched l1))))) by (unfold toks; rewrite Etoks; apply forward_length).
  assert (P3 : prepared slots w1 (w_of (sched l3))) by (apply (prepared_output w1 (w_of (sched l1)) toks Hlt P)).
  pose proof (prepared_ready l w1 (sched l3) Sv Hs1 Hg1 Sf P3 F1 F2 F3 F4) as Hrd.
  destruct (decode_pass_ok V N w _ (sched l3) result Hdet Hw Hrd Hlt) as (s' & fss & k' & Ed & D & Ek & Ek' & Cv).
  set (l4 := l3 <| sched := s' |>).
  assert (Ep : process_batch_result result l3 = (Ok tt, l4)).
  { unfold process_batch_result. rewrite (bind_ok _ _ l3 (batch (w_of (sched l3))) l3) by done.
    rewrite (pp_mode _ _ _ P3). unfold on_sched. by rewrite Ed. }
  rewrite (bind_ok _ _ _ _ _ Ep). rewrite (bind_ok _ _ l4 (batch (w_of s')) l4) by done.
  set (l5 := l4 <| running_batch := batch (w_of s') |>). exists l5. split; [done|].
  assert (Hgo : all_going (w_of (sched l3))).
  { intros id r Hin Hr. destruct (prepared_req (home l) w1 _ id Sf P3 Hg1 Hs1 Hin) as (r0 & _ & _ & _ & Hr' & Hrun).
    assert (BatchOps.decode_req r0 = r) as <- by congruence. by eapply running_here. }
  assert (Hs' : seated 1 slots (w_of s')).
  { apply (seated_done V N w slots (sched l3) s' fss k'); try done. apply (pp_seated _ _ _ P3). }
  assert (Hids : ids_of l5 ≠ []).
  { change (b_reqs (batch (w_of s')) ≠ []). by rewrite (dn_breqs _ _ _ _ _ _ D), (pp_reqs _ _ _ P3). }
  split_and!; [by apply (done_serving l l5 w1 (sched l3))|by apply (done_follows l l5 w1 (sched l3))|].
  destruct (bframe_same _ _ (dn_frame _ _ _ _ _ _ D)) as (B1 & _ & _ & _ & B5 & _). split.
  - intros Hq. exact (decode_keeps_empty result (sched l3) Hq tt s' Ed).
  - done.
  - change (b_forward_mode (batch (w_of s')) = Some DECODE). rewrite B5. apply (pp_mode _ _ _ P3).
  - exact B1.
  - intros id Hid. change (id ∉ b_reqs (batch (w_of s'))) in Hid. rewrite B1 in Hid.
    exact (dn_others _ _ _ _ _ _ D id Hid).
Qed.

(** An iteration on a server with room for the next token of every running
    request: nothing is retracted, nothing enters the queues, and a request
    leaves only when it has finished. *)
Record smooth l l' (res : res bool) : Prop := {
  sm_ok : ∃ b, res = Ok b;
  sm_queue : waiting_queue (sched l) = [] → waiting_queue (sched l') = [];
  sm_chunked : chunked_req l' = chunked_req l;
  sm_mode : res = Ok true → b_forward_mode (running_batch l') = Some DECODE;
  sm_leave : ∀ id r, id ∈ ids_of l → id ∉ ids_of l' → reqs_of l !! id = Some r →
    finished r = true ∧ reqs_of l' !! id = Some r
}.

Definition room l : Prop := len (ids_of l) ≤ available_size (kv (w_of (sched l))).

Lemma decode_iteration_ok l :
  fixed_shape_determinism V N w → 0 < w → serving l →
  ∃ res l', decode_iteration forward_batch_generation l = (res, l') ∧ iterated l l' res ∧ (room l → smooth l l' res).
Proof.
  intros Hdet Hw Sv. unfold decode_iteration. rewrite (bind_ok _ _ l (running_batch l) l) by done.
  unfold BatchOps.is_empty. fold (ids_of l). destruct (Z.eqb_spec (len (ids_of l)) 0) as [E0|E0].
  { apply len_zero in E0. exists (Ok false), l. split; [done|]. split.
    - constructor; [done| |done]. apply idle_follows; try done. rewrite E0. by intros id r Hin%elem_of_nil.
    - intros _. split; try done. by eexists. }
  assert (Hne : ids_of l ≠ []) by (intros E; by rewrite E in E0).
  set (l0 := l <| sched := (set_w (home l) (sched l)) <| other_running := None |> |>).
  rewrite (bind_ok _ _ l tt (with_w (home l) l)) by (by apply on_world_eq).
  rewrite (bind_ok _ _ _ tt l0) by done.
  assert (E1 : w_of (sched l0) = home l) by done.
  destruct (update_running_batch_ok slots l0) as (res & l1 & Eu & F1 & Hu & Un).
  { rewrite E1. by apply Sv. }
  { rewrite E1. intros id r Hin Hr Hf. destruct (sv_reqs _ Sv id Hin) as (r0 & Hr0 & HD & HP).
    assert (r0 = r) as -> by (assert (Hr2 : heap (w_of (sched l)) !! id = Some r) by exact Hr; congruence).
    by apply (after_pass V w _ _ r HD HP). }
  rewrite E1 in Hu, Un. change (room l → unforced l0 l1 res) in Un. set (l2 := l1 <| running_batch := batch (w_of (sched l1)) |>).
  assert (F2 : lframe l l2) by (destruct F1; by split).
  destruct Hu as [Hbig|Hnil Eh Ek Et Hp Hfin|w1 Hs1 Hg1 Hne1 Sf P].
  - exists (Raise ValueError), l1. split; [by rewrite (bind_raise _ _ _ _ _ Eu)|].
    split; [constructor; [apply F2|done]|]. intros Hroom. by destruct (un_ok _ _ _ (Un Hroom)).
  - exists (Ok false), l2. split; [by rewrite (bind_ok _ _ _ _ _ Eu)|].
    assert (Er : reqs_of l2 = reqs_of l) by exact Eh.
    split; [|intros [_ [Q1 Q2] Q3]%Un; split; [by eexists|intros Hq; change (waiting_queue (sched l1) = []); by rewrite Q1|done|done|exact Q3]].
    constructor; [|by apply idle_follows; [..|done|apply F2|done]|done].
    apply (idle_serving l); [done..|]. change (pool (kv (w_of (sched l1))) ≡ₚ slots). by rewrite Ek.
  - rewrite (bind_ok _ _ _ _ _ Eu). rewrite (bind_ok _ _ l1 (batch (w_of (sched l1))) l1) by done.
    rewrite (bind_ok _ _ l1 tt l2) by done.
    destruct (pass_ok l l2 w1 Hdet Hw Sv F2 Hs1 Hg1 Hne1 Sf P) as (l' & E & Sv' & Fo & [O1 O2 O3 O4 O5]).
    exists (Ok true), l'. split; [done|].
    split; cycle 1.
    { intros [_ [Q1 Q2] Q3]%Un. split; [by eexists| |by rewrite O2|done|].
      - intros Hq. apply O1. change (waiting_queue (sched l1) = []). rewrite Q1. exact Hq.
      - intros id r Hi Hn Hr. rewrite (O5 id Hn). apply Q3; [done| |done]. by rewrite O4 in Hn. }
    constructor; [|done..].
    destruct (b_reqs (batch w1)) as [|id ids] eqn:Eids; [done|].
    assert (Hin : id ∈ b_reqs (batch (w_of (sched l1)))) by (rewrite (pp_reqs _ _ _ P), Eids; apply list_elem_of_here).
    destruct (prepared_req (home l) w1 _ id Sf P Hg1 Hs1 Hin) as (r & Hi & Hr & Hf & _). by exists id, r.
Qed.

(** The loop with no new requests and no prefill: up to [n] iterations. *)
Lemma decode_loop_ok n l :
  fixed_shape_determinism V N w → 0 < w → serving l →
  ∃ res l', decode_loop forward_batch_generation n l = (res, l') ∧
    ((res = Raise ValueError ∧ ∃ lm k, serving lm ∧ follows k l lm ∧ sent_of l' = sent_of lm ∧
        too_large slots (home lm)) ∨
     (∃ b, res = Ok b ∧ serving l' ∧
        if b : bool
        then follows (Z.of_nat n) l l' ∧
             (n = 0%nat ∨ ∃ lm, serving lm ∧ busy lm ∧ follows (Z.of_nat n - 1) l lm)
        else ids_of l' = [] ∧ ∃ k, follows k l l')).
Proof.
  intros Hdet Hw. revert l. induction n as [|n IH]; intros l Sv.
  { exists (Ok true), l. split; [done|]. right. exists true. split_and!; [done..|apply follows_refl|by left]. }
  cbn [decode_loop]. destruct (decode_iteration_ok l Hdet Hw Sv) as (res & l1 & E & I & _).
  destruct I as [Es Hbig|Sv1 Fo Hnil|Hbusy Sv1 Fo].
  - exists (Raise ValueError), l1. split; [by rewrite (bind_raise _ _ _ _ _ E)|]. left. split; [done|].
    exists l, 0. split_and!; [done|apply follows_refl|done|done].
  - exists (Ok false), l1. split; [by rewrite (bind_ok _ _ _ _ _ E)|]. right. exists false. eauto.
  - rewrite (bind_ok _ _ _ _ _ E). destruct (IH l1 Sv1) as (res & l' & E' & Hres). exists res, l'.
    split; [exact E'|]. destruct Hres as [(-> & lm & k & S1 & Fo1 & Es & Hb)|(b & -> & S1 & Hb)].
    + left. split; [done|]. exists lm, (1 + k). split_and!; [done|by apply (follows_trans _ _ l l1)|done|done].
    + right. exists b. split_and!; [done..|]. destruct b.
      * destruct Hb as [Fo' Hm]. replace (Z.of_nat (S n)) with (1 + Z.of_nat n) by lia.
        split; [by apply (follows_trans _ _ l l1)|]. right. destruct Hm as [->|(lm & S2 & B2 & Fo2)].
        -- exists l. split_and!; [done|done|apply follows_refl].
        -- exists lm. split_and!; [done|done|]. replace (1 + Z.of_nat n - 1) with (1 + (Z.of_nat n - 1)) by lia.
           by apply (follows_trans _ _ l l1).
      * destruct Hb as [Hnil [k Fo']]. split; [done|]. exists (1 + k). by apply (follows_trans _ _ l l1).
Qed.

(** Whatever happens, the clients have the reference. *)
Lemma decode_loop_serving n l :
  fixed_shape_determinism V N w → 0 < w → serving l →
  ∃ res l', decode_loop forward_batch_generation n l = (res, l') ∧ (res = Raise ValueError ∨ ∃ b, res = Ok b) ∧
    ∀ id r, reqs_of l !! id = Some r → is_deterministic r = true →
      ∃ k : nat, streamed (sent_of l') (rid r) = gen (V (sampling_params r)) (origin_input_ids r) k.
Proof.
  intros Hdet Hw Sv. destruct (decode_loop_ok n l Hdet Hw Sv) as (res & l' & E & Hres).
  exists res, l'. split; [done|].
  assert (Hend : ∃ lm k, serving lm ∧ follows k l lm ∧ sent_of l' = sent_of lm ∧
            (res = Raise ValueError ∨ ∃ b, res = Ok b)).
  { destruct Hres as [(-> & lm & k & S & Fo & Es & _)|(b & -> & S & Hb)]; [by eauto 10|].
    destruct b; [destruct Hb as [Fo _]|destruct Hb as [_ [k Fo]]]; eauto 10. }
  destruct Hend as (lm & k & S & Fo & Es & Hr). split; [done|]. intros id r Hid Hd.
  destruct (fo_reqs _ _ _ Fo id r Hid) as (r' & Hr' & [L1 L2 L3 L4 _ _] & _).
  destruct (tracked_reference V (sent_of lm) r') as (j & Hj & _).
  - eapply sv_tracked; [done..|congruence].
  - exists j. rewrite Es, <- L1, <- L3, <- L4. exact Hj.
Qed.
End Server.
