(* ===== verification/Drain.v ===== *)
(** * The event loop runs dry

    Whole iterations of the event loop, with their attempt to form a prefill
    batch, on a server with an empty queue whose memory is large enough for
    all its running requests at their full length: nothing is ever retracted,
    every iteration decodes, and the requests end one after the other. *)

From S2P Require Import Prelude Returns PyFloat Allocator AllocatorFacts Request ReqPool LLM42Info InfoFacts World MemCommon CacheLaws BatchOps LLM42Worker Verifier WorkerFacts BatchFacts Scheduler OutputProcessor OutputFacts DecodeFacts DecodeStep DecodePass PrepareFacts RetractFacts EventLoop Prefill LoopFacts Serving.
Import PoolFacts Batch Finish OneStream Pass Step EventLoop Prefill.

Section Drain.
Context `{Externals} `{Model} (V : SamplingParams → list Z → Z) (N w : Z) (slots : list Z).
Implicit Types l : Loop ChunkCache.

(** Nothing waits for a prefill, and the last batch was not one. *)
Record calm l : Prop := {
  ca_queue : waiting_queue (sched l) = [];
  ca_chunked : chunked_req l = None;
  ca_last : ∀ lb, last_batch l = Some lb → ∃ m, b_forward_mode lb = Some m ∧ is_extend m = false
}.

(** The tokens of a request at its full length *)
Definition full_len (r : Req) : Z := len (origin_input_ids r) + max_new_tokens (sampling_params r).
Definition demand (h : gmap nat Req) (ids : list nat) : Z :=
  zsum ((λ id, match h !! id with Some r => full_len r | None => 0 end) <$> ids).

(** Every running request may generate a token. *)
Definition may_generate l : Prop :=
  ∀ id r, id ∈ ids_of l → reqs_of l !! id = Some r → 0 < max_new_tokens (sampling_params r).

(** ** The demand *)

Lemma demand_cons h id ids :
  demand h (id :: ids) = (match h !! id with Some r => full_len r | None => 0 end) + demand h ids.
Proof. done. Qed.

Lemma demand_app h ids ids' : demand h (ids ++ ids') = demand h ids + demand h ids'.
Proof. unfold demand. by rewrite fmap_app, zsum_app. Qed.

Lemma demand_perm h ids ids' : ids ≡ₚ ids' → demand h ids = demand h ids'.
Proof. induction 1; rewrite ?demand_cons; lia. Qed.

Lemma demand_nonneg h ids :
  (∀ id r, id ∈ ids → h !! id = Some r → 0 < max_new_tokens (sampling_params r)) → 0 ≤ demand h ids.
Proof.
  induction ids as [|id ids IH]; intros Hp; [done|]. rewrite demand_cons.
  assert (0 ≤ demand h ids) by (apply IH; intros; eapply Hp; [by apply list_elem_of_further|done]).
  destruct (h !! id) as [r|] eqn:Hr; [|lia]. specialize (Hp id r (list_elem_of_here _ _) Hr).
  unfold full_len. pose proof (len_nonneg (origin_input_ids r)). lia.
Qed.

(** Requests keep their prompt and their limit, and only leave. *)
Lemma demand_follows k l l' :
  serving V N w slots l → serving V N w slots l' → follows w k l l' → may_generate l →
  may_generate l' ∧ demand (reqs_of l') (ids_of l') ≤ demand (reqs_of l) (ids_of l).
Proof.
  intros Sv Sv' Fo Hp.
  assert (Hsame : ∀ id r', id ∈ ids_of l' → reqs_of l' !! id = Some r' →
    ∃ r, id ∈ ids_of l ∧ reqs_of l !! id = Some r ∧ full_len r' = full_len r ∧ sampling_params r' = sampling_params r).
  { intros id r' Hin Hr'. destruct (follows_back V N w slots k l l' id r' Sv Fo Hin Hr') as (r & Hi & Hr & [_ _ L3 L4 _ _] & _).
    exists r. unfold full_len. by rewrite L3, L4. }
  split.
  - intros id r' Hin Hr'. destruct (Hsame id r' Hin Hr') as (r & Hi & Hr & _ & ->). by eapply Hp.
  - destruct (decide (ids_of l' = [])) as [->|Hne]; [by apply demand_nonneg|].
    assert (Hsub : ids_of l' ⊆+ ids_of l) by (apply NoDup_submseteq; [apply (sv_seated _ _ _ _ _ Sv' Hne)|apply Fo]).
    apply submseteq_Permutation in Hsub as [rest Hperm]. rewrite (demand_perm _ _ _ Hperm), demand_app.
    assert (0 ≤ demand (reqs_of l) rest).
    { apply demand_nonneg. intros id r Hin Hr. eapply Hp; [|done]. rewrite Hperm. apply elem_of_app. by right. }
    assert (demand (reqs_of l') (ids_of l') = demand (reqs_of l) (ids_of l')); [|lia].
    unfold demand. f_equal. apply list_fmap_ext. intros i id Hid. apply list_elem_of_lookup_2 in Hid.
    destruct (sv_reqs _ _ _ _ _ Sv' id Hid) as (r' & Hr' & _). change (reqs_of l' !! id = Some r') in Hr'.
    destruct (Hsame id r' Hid Hr') as (r & _ & Hr & Ef & _). by rewrite Hr, Hr'.
Qed.

(** With memory for the demand there is room for the next tokens. *)
Lemma demand_room l :
  serving V N w slots l → ids_of l ≠ [] → may_generate l → demand (reqs_of l) (ids_of l) ≤ len slots → room l.
Proof.
  intros Sv Hne Hp Hd. pose proof (sv_seated _ _ _ _ _ Sv Hne) as Hs. unfold room.
  pose proof (kv_ok_available _ (sd_kv _ _ _ Hs)) as Ea. change (kv (home l)) with (kv (w_of (sched l))) in Ea. rewrite Ea.
  pose proof (sd_slots _ _ _ Hs) as Hsl. apply Permutation_length in Hsl. rewrite length_app in Hsl.
  change (heap (home l)) with (reqs_of l) in Hsl. change (b_reqs (batch (home l))) with (ids_of l) in Hsl.
  change (req_to_token (rtp (home l))) with (table_of l) in Hsl. change (kv (home l)) with (kv (w_of (sched l))) in Hsl.
  assert (Hle : ∀ ids, (∀ id, id ∈ ids → id ∈ ids_of l) →
    len ids + len (held_ids (table_of l) (reqs_of l) ids) ≤ demand (reqs_of l) ids).
  { induction ids as [|id ids IH]; intros Hin; [done|]. rewrite demand_cons, len_cons.
    specialize (IH ltac:(intros; apply Hin; by apply list_elem_of_further)).
    pose proof (Hin id (list_elem_of_here _ _)) as Hid. destruct (sv_reqs _ _ _ _ _ Sv id Hid) as (r & Hr & HD & HP).
    change (reqs_of l !! id = Some r) in Hr. specialize (Hp id r Hid Hr).
    destruct (after_pass V w _ _ r HD HP) as (A1 & A2 & _).
    change (held_ids ?t ?h (id :: ids)) with ((match h !! id with Some r => held t r | None => [] end) ++ held_ids t h ids).
    rewrite Hr, len_app. assert (len (held (table_of l) r) + 1 ≤ full_len r); [|lia].
    unfold full_len. pose proof (len_nonneg (origin_input_ids r)). destruct (gone r) eqn:Eg.
    - rewrite held_none by auto. rewrite len_nil. lia.
    - specialize (A2 eq_refl). pose proof (held_length _ _ A2). pose proof (ru_room _ _ _ A2). unfold seqlen in *. lia. }
  specialize (Hle (ids_of l) (λ _ Hid, Hid)). unfold len in *. lia.
Qed.

(** ** An iteration *)

Context (forward_batch_generation : Z → ScheduleBatch → GenerationBatchResult).
Hypothesis forward_length : ∀ n b,
  length (next_token_ids (forward_batch_generation n b)) = length (b_reqs b).

(** With an empty queue an iteration is a decode pass. *)
Lemma iteration_calm l ready l1 :
  calm l → decode_iteration forward_batch_generation l = (Ok ready, l1) →
  iteration forward_batch_generation l =
    (Ok tt, l1 <| last_batch := if (ready : bool) then Some (running_batch l1) else None |>).
Proof.
  intros [Hq Hc Hl] E. unfold iteration. rewrite (bind_ok _ _ l tt l).
  2:{ unfold merge_last_batch. rewrite (bind_ok _ _ l l l) by done. rewrite Hc, (bind_ok _ _ l tt l) by done.
      destruct (last_batch l) as [lb|] eqn:El; [|done]. destruct (Hl lb eq_refl) as (m & Em & Ex).
      rewrite (bind_ok _ _ l m l) by (by rewrite Em). by rewrite Ex. }
  rewrite (bind_ok _ _ l false l).
  2:{ unfold _get_new_batch_prefill_raw. rewrite (bind_ok _ _ l l l) by done. rewrite Hc, Hq. cbv zeta.
      cbn [len length Z.of_nat Z.eqb negb]. by rewrite orb_true_r. }
  rewrite (bind_ok _ _ l ready l1) by done. by rewrite (bind_ok _ _ l1 (running_batch l1) l1) by done.
Qed.

(** The requests that left are complete. *)
Definition leaves l l' : Prop :=
  ∀ id, id ∈ ids_of l → id ∉ ids_of l' → ∃ r, reqs_of l' !! id = Some r ∧ complete (sent_of l') r.

(** A complete request stays so. *)
Lemma complete_stays l l' r :
  (is_deterministic r = true → tracked V (sent_of l) r ∧ tracked V (sent_of l') r) →
  complete (sent_of l) r → complete (sent_of l') r.
Proof.
  intros Ht [Hf Hc]. split; [done|]. intros Hd. destruct (Hc Hd) as [C1 C2]. split; [done|]. destruct (Ht Hd) as [T1 T2].
  rewrite <- C2. by eapply (tracked_streamed V).
Qed.

Lemma leaves_trans k l1 l2 l3 :
  serving V N w slots l2 → serving V N w slots l3 → follows w k l2 l3 → leaves l1 l2 → leaves l2 l3 → leaves l1 l3.
Proof.
  intros S2 S3 Fo L1 L2 id Hi Hn. destruct (decide (id ∈ ids_of l2)) as [Hi2|Hi2]; [by apply L2|].
  destruct (L1 id Hi Hi2) as (r & Hr & Hc). destruct (fo_reqs _ _ _ _ Fo id r Hr) as (r' & Hr' & _ & _ & _ & Eo). rewrite (Eo Hi2) in Hr'.
  exists r. split; [done|]. apply (complete_stays l2 l3); [|done].
  intros Hd. split; [by eapply (sv_tracked _ _ _ _ _ S2)|by eapply (sv_tracked _ _ _ _ _ S3)].
Qed.

Lemma smooth_leaves l l' res :
  serving V N w slots l → serving V N w slots l' → smooth l l' res → leaves l l'.
Proof.
  intros Sv Sv' Hs id Hi Hn. destruct (sv_reqs _ _ _ _ _ Sv id Hi) as (r & Hr & HD & _).
  destruct (sm_leave _ _ _ Hs id r Hi Hn Hr) as [Hf Hr']. exists r. split; [done|].
  apply (complete_stays l l'); [|by eapply (finished_complete V w)].
  intros Hd. split; [by eapply (sv_tracked _ _ _ _ _ Sv)|by eapply (sv_tracked _ _ _ _ _ Sv')].
Qed.

(** The last batch is not part of the state the invariant speaks of. *)
Lemma serving_last l o : serving V N w slots l → serving V N w slots (l <| last_batch := o |>).
Proof. intros []. by split. Qed.
Lemma follows_last k l l' o : follows w k l l' → follows w k l (l' <| last_batch := o |>).
Proof. intros []. by split. Qed.

Lemma calm_iteration l :
  fixed_shape_determinism V N w → 0 < w → serving V N w slots l → calm l → may_generate l →
  demand (reqs_of l) (ids_of l) ≤ len slots →
  ∃ l', iteration forward_batch_generation l = (Ok tt, l') ∧ serving V N w slots l' ∧ calm l' ∧ follows w 1 l l' ∧
    leaves l l' ∧ (ids_of l' = [] ∨ busy l).
Proof using forward_length.
  intros Hdet Hw Sv Hc Hp Hd.
  destruct (decode_iteration_ok V N w slots forward_batch_generation forward_length l Hdet Hw Sv) as (res & l1 & E & I & Hsm).
  assert (Hs : smooth l l1 res).
  { destruct (decide (ids_of l = [])) as [Hnil|Hne]; [|by apply Hsm, demand_room].
    revert E. unfold decode_iteration. rewrite (bind_ok _ _ l (running_batch l) l) by done. unfold BatchOps.is_empty.
    fold (ids_of l). rewrite Hnil. cbn. intros [= <- <-]. split; try done. by eexists. }
  destruct (sm_ok _ _ _ Hs) as [ready ->]. set (o := if ready then Some (running_batch l1) else None).
  exists (l1 <| last_batch := o |>). split; [by apply iteration_calm|].
  assert (Hcalm : calm (l1 <| last_batch := o |>)).
  { destruct Hc as [C1 C2 _]. split; rsimpl; [by apply Hs|by rewrite (sm_chunked _ _ _ Hs)|]. unfold o. destruct ready; [|done].
    intros lb [= <-]. exists DECODE. split; [by apply (sm_mode _ _ _ Hs)|done]. }
  inversion I as [|Sv1 Fo Hnil|Hb Sv1 Fo]; subst; (split_and!; [by apply serving_last|done|by apply follows_last| |by auto]);
    exact (smooth_leaves l l1 _ Sv Sv1 Hs).
Qed.

(** ** The loop *)

Lemma event_loop_calm n l :
  fixed_shape_determinism V N w → 0 < w → serving V N w slots l → calm l → may_generate l →
  demand (reqs_of l) (ids_of l) ≤ len slots →
  ∃ l' k, event_loop forward_batch_generation n l = (Ok tt, l') ∧ serving V N w slots l' ∧ follows w k l l' ∧ leaves l l' ∧
    (ids_of l' = [] ∨ n = 0%nat ∨ ∃ lm, serving V N w slots lm ∧ busy lm ∧ follows w (Z.of_nat n - 1) l lm).
Proof using forward_length.
  intros Hdet Hw. revert l. induction n as [|n IH]; intros l Sv Hc Hp Hd.
  { exists l, 0. split_and!; [done|done|apply follows_refl| |by auto]. by intros id Hi Hn. }
  destruct (calm_iteration l Hdet Hw Sv Hc Hp Hd) as (l1 & E1 & Sv1 & Hc1 & Fo1 & L1 & Hb1).
  destruct (demand_follows 1 l l1 Sv Sv1 Fo1 Hp) as [Hp1 Hd1].
  destruct (IH l1 Sv1 Hc1 Hp1 ltac:(lia)) as (l' & k & E' & Sv' & Fo' & L' & Hb'). exists l', (1 + k).
  split_and!; [cbn [event_loop]; by rewrite (bind_ok _ _ _ _ _ E1)|done|by apply (follows_trans V N w slots 1 k l l1)
    |by apply (leaves_trans k l l1)|].
  destruct Hb' as [Hnil|[->|(lm & Sm & Bm & Fm)]]; [by left|..].
  - destruct Hb1 as [Hnil|Hb].
    + left. destruct (ids_of l') as [|id ids] eqn:El; [done|]. assert (Hin : id ∈ ids_of l1).
      { apply (fo_sub _ _ _ _ Fo'). rewrite El. apply list_elem_of_here. }
      rewrite Hnil in Hin. by apply elem_of_nil in Hin.
    + right. right. exists l. split_and!; [done|done|]. apply follows_refl.
  - right. right. exists lm. split_and!; [done|done|]. replace (Z.of_nat (S n) - 1) with (1 + (Z.of_nat n - 1)) by lia.
    by apply (follows_trans V N w slots 1 _ l l1).
Qed.
End Drain.
