(* ===== verification/MergeFacts.v ===== *)
(** * Two batches become one

    [merge_batch] of two batches with seats in one table: the requests of
    both keep their seats.  And seats that survive when others take rows and
    slots. *)

From S2P Require Import Prelude PyFloat Allocator AllocatorFacts Request ReqPool LLM42Info World MemCommon CacheLaws BatchOps LLM42Worker WorkerFacts BatchFacts Scheduler OutputProcessor OutputFacts DecodeFacts DecodeStep DecodePass PrepareFacts.
Import PoolFacts.

(** ** Fields *)

Lemma res_bind_inv {A B} (m : res A) (k : A → res B) b : (m ≫= k) = Ok b → ∃ a, m = Ok a ∧ k a = Ok b.
Proof. destruct m as [a|e]; [|done]. intros E. by exists a. Qed.

Ltac binds E := repeat (apply res_bind_inv in E as (? & ? & E)).

Lemma merge_fields b other b' :
  BatchOps.merge_batch b other = Ok b' →
  b_reqs b' = b_reqs b ++ b_reqs other ∧ b_req_pool_indices b' = b_req_pool_indices b ++ b_req_pool_indices other ∧
  b_seq_lens b' = b_seq_lens b ++ b_seq_lens other ∧
  b_return_logprob b' = b_return_logprob b || b_return_logprob other.
Proof. unfold BatchOps.merge_batch. intros E. binds E. injection E as <-. by rsimpl. Qed.

(** What a filter leaves of the other fields *)
Record filter_frame (b b' : ScheduleBatch) : Prop := {
  ff_only : b_is_prefill_only b' = b_is_prefill_only b;
  ff_out : is_Some (b_output_ids b) → is_Some (b_output_ids b');
  ff_seeds : ∀ i, b_sampling_info b' = Some i →
    ∃ i0, b_sampling_info b = Some i0 ∧ (is_Some (sampling_seeds i) ↔ is_Some (sampling_seeds i0))
}.

Lemma keep_batch_frame keep rs b b' : BatchOps.keep_batch keep rs b = Ok b' → filter_frame b b'.
Proof.
  unfold BatchOps.keep_batch. intros E.
  apply res_bind_inv in E as (reqs & _ & E). apply res_bind_inv in E as (rs' & _ & E).
  apply res_bind_inv in E as (rows & _ & E). apply res_bind_inv in E as (sl & _ & E).
  apply res_bind_inv in E as (slc & _ & E). apply res_bind_inv in E as (ol & _ & E).
  apply res_bind_inv in E as (out & Eo & E). apply res_bind_inv in E as (tops & _ & E).
  apply res_bind_inv in E as (info & Ei & E). apply res_bind_inv in E as (info' & Ei' & E).
  injection E as <-. split; rsimpl; try done.
  - intros [l Hl]. rewrite Hl in Eo. apply res_bind_inv in Eo as (l' & _ & Eo). injection Eo as <-. by eexists.
  - intros i [= <-]. exists info. split; [by destruct (b_sampling_info b); [injection Ei as ->|]|].
    unfold Sampling.filter_batch in Ei'. do 4 (apply res_bind_inv in Ei' as (? & _ & Ei')).
    apply res_bind_inv in Ei' as (seeds & Es & Ei'). apply res_bind_inv in Ei' as (det & _ & Ei'). injection Ei' as <-. cbn.
    destruct (sampling_seeds info) as [sd|].
    + apply res_bind_inv in Es as (sd' & _ & Es). injection Es as <-. split; by eexists.
    + by injection Es as <-.
Qed.

Lemma filter_batch_frame exclude keep rs (wd wd' : World ChunkCache) :
  at_heap wd (b_reqs (batch wd)) rs → BatchOps.filter_batch exclude keep wd = (Ok tt, wd') →
  filter_frame (batch wd) (batch wd').
Proof.
  assert (Hrefl : ∀ b b' : ScheduleBatch, b_is_prefill_only b' = b_is_prefill_only b → b_output_ids b' = b_output_ids b →
    b_sampling_info b' = b_sampling_info b → filter_frame b b').
  { intros b b' E1 E2 E3. split; rewrite ?E1, ?E2, ?E3; try done. by eauto. }
  intros F. unfold BatchOps.filter_batch. rewrite (bind_ok _ _ wd (batch wd) wd) by done.
  rewrite (bind_ok _ _ _ _ _ (reqs_at_ok _ _ _ F)). cbv zeta.
  destruct (_ =? 0); [intros [= <-]; by apply Hrefl|].
  destruct (_ =? _); [intros [= <-]; by apply Hrefl|].
  destruct (BatchOps.keep_batch _ rs (batch wd)) as [b'|] eqn:Ek; [|done].
  rewrite (bind_ok _ _ wd b' wd) by done. intros [= <-]. by eapply keep_batch_frame.
Qed.

(** ** Seats among changing neighbours *)

(** The row of a request is all that [running] reads of the table. *)
Lemma running_table tbl tbl' d r :
  (∀ row, req_pool_idx r = Some row → tbl' !! Z.to_nat row = tbl !! Z.to_nat row) →
  running tbl d r → running tbl' d r.
Proof.
  intros Ht Hr. destruct Hr as [A1 A2 A3 A4 (row & l & B1 & B2 & B3 & B4) A6 A7 A8 A9 A10]. split; try done.
  exists row, l. by rewrite (Ht row B1).
Qed.

Lemma held_table tbl tbl' r :
  (∀ row, req_pool_idx r = Some row → tbl' !! Z.to_nat row = tbl !! Z.to_nat row) → held tbl' r = held tbl r.
Proof.
  intros Ht. unfold held, committed_slots. destruct (req_pool_idx r) as [row|]; [|done]. by rewrite (Ht row eq_refl).
Qed.

(** Others took rows, slots and batches; the requests of this batch and
    their rows are as before. *)
Lemma seated_elsewhere d slots slots' (wd wd' : World ChunkCache) :
  seated d slots wd → batch wd' = batch wd →
  (∀ id, id ∈ b_reqs (batch wd) → heap wd' !! id = heap wd !! id) →
  (∀ id r row, id ∈ b_reqs (batch wd) → heap wd !! id = Some r → req_pool_idx r = Some row →
     req_to_token (rtp wd') !! Z.to_nat row = req_to_token (rtp wd) !! Z.to_nat row) →
  cc_page_size (cache wd') = 1 → kv_ok (kv wd') →
  pool (kv wd') ++ held_ids (req_to_token (rtp wd)) (heap wd) (b_reqs (batch wd)) ≡ₚ slots' →
  NoDup slots' → Forall (λ x, 1 ≤ x ≤ capacity (kv wd')) slots' →
  seated d slots' wd'.
Proof.
  intros [S1 S2 S3 S4 S5 S6 S7 S8 S9] Eb Eh Et Hp Hk Hsl Hnd Hr. split; rewrite ?Eb; try done.
  - intros j id Hj. apply list_elem_of_lookup_2 in Hj as Hin.
    destruct (S6 j id Hj) as (r & Hr0 & A1 & A2 & A3). exists r. rewrite (Eh id Hin). split_and!; try done.
    intros Hg. destruct (A3 Hg) as [B1 B2 B3 B4]. assert (Ht := λ row, Et id r row Hin Hr0).
    split; [by eapply running_table|done|done|]. intros row l E1 E2. rewrite (Ht row E1) in E2. by eapply B4.
  - intros i j id id' r r' row Hi Hj Hr0 Hr1. rewrite Eh in Hr0 by (by eapply list_elem_of_lookup_2).
    rewrite Eh in Hr1 by (by eapply list_elem_of_lookup_2). by eapply S7.
  - rewrite <- Hsl. f_equiv. unfold held_ids. erewrite list_fmap_ext; [done|].
    intros j id Hj. apply list_elem_of_lookup_2 in Hj as Hin. cbn. rewrite (Eh id Hin).
    destruct (heap wd !! id) as [r|] eqn:Hr0; [|done]. apply held_table. by intros row; eapply Et.
Qed.

(** ** The merged batch *)

Lemma seat_shift d tbl b b' j j' r :
  b_req_pool_indices b' !! j' = b_req_pool_indices b !! j → b_seq_lens b' !! j' = b_seq_lens b !! j →
  seat d tbl b j r → seat d tbl b' j' r.
Proof. intros E1 E2 [A B C D]. split; [done|congruence|congruence|done]. Qed.

Lemma merge_seated d slots1 slots2 slots (wd : World ChunkCache) b1 b2 b' :
  seated d slots1 (wd <| batch := b1 |>) → seated d slots2 (wd <| batch := b2 |>) →
  BatchOps.merge_batch b1 b2 = Ok b' → soa b' →
  (∀ id, id ∈ b_reqs b1 → id ∉ b_reqs b2) →
  (∀ id id' r r' row, id ∈ b_reqs b1 → id' ∈ b_reqs b2 → heap wd !! id = Some r → heap wd !! id' = Some r' →
     req_pool_idx r = Some row → req_pool_idx r' = Some row → False) →
  pool (kv wd) ++ held_ids (req_to_token (rtp wd)) (heap wd) (b_reqs b1)
    ++ held_ids (req_to_token (rtp wd)) (heap wd) (b_reqs b2) ≡ₚ slots →
  NoDup slots → Forall (λ x, 1 ≤ x ≤ capacity (kv wd)) slots →
  seated d slots (wd <| batch := b' |>).
Proof.
  intros [S1 S2 S3 S4 S5 S6 S7 S8 S9] [T1 T2 T3 T4 T5 T6 T7 T8 T9] Em Hsoa Hdis Hrows Hsl Hnd Hr.
  destruct (merge_fields _ _ _ Em) as (E1 & E2 & E3 & E4).
  revert S1 S2 S3 S4 S5 S6 S7 S8 S9 T1 T2 T3 T4 T5 T6 T7 T8 T9. rsimpl.
  intros S1 S2 S3 S4 S5 S6 S7 S8 S9 T1 T2 T3 T4 T5 T6 T7 T8 T9. split; rsimpl; rewrite ?E1; try done.
  - apply NoDup_app. by split_and!.
  - by rewrite E4, S3, T3.
  - intros j id Hj. apply lookup_app_Some in Hj as [Hj|[Hle Hj]].
    + destruct (S6 j id Hj) as (r & Hr0 & A1 & A2 & A3). exists r. split_and!; try done. intros Hg.
      apply lookup_lt_Some in Hj. eapply seat_shift; [..|by apply A3].
      * rewrite E2, lookup_app_l; [done|]. by rewrite (so_rows _ S1).
      * rewrite E3, lookup_app_l; [done|]. by rewrite (so_seq _ S1).
    + destruct (T6 _ id Hj) as (r & Hr0 & A1 & A2 & A3). exists r. split_and!; try done. intros Hg.
      eapply seat_shift; [..|by apply A3].
      * rewrite E2, lookup_app_r, (so_rows _ S1); [done|]. by rewrite (so_rows _ S1).
      * rewrite E3, lookup_app_r, (so_seq _ S1); [done|]. by rewrite (so_seq _ S1).
  - intros i j id id' r r' row Hi Hj Hr0 Hr1 Ei Ej.
    apply lookup_app_Some in Hi as [Hi|[Hle Hi]], Hj as [Hj|[Hle' Hj]].
    + by eapply S7.
    + exfalso. eapply Hrows; [by eapply list_elem_of_lookup_2..|done|done|done|done].
    + exfalso. eapply Hrows; [by eapply list_elem_of_lookup_2..|exact Hr1|exact Hr0|done|done].
    + cut ((i - length (b_reqs b1))%nat = (j - length (b_reqs b1))%nat); [lia|]. by eapply T7.
  - by rewrite held_ids_app.
Qed.
