(* ===== verification/Admission.v ===== *)
(** * From the queue to the running batch

    The way of a chosen request into the running batch, without prefix
    caching: [make_batch] gives it a row and slots, the prefill pass computes
    its first token, and [merge_last_batch] of the next iteration seats it
    among the running requests.  A server that keeps the invariant [serving]
    keeps it. *)

From S2P Require Import Prelude PyFloat Allocator AllocatorFacts Request ReqPool LLM42Info InfoFacts World MemCommon CacheLaws Policy BatchOps LLM42Worker Verifier WorkerFacts VerifyPool BatchFacts Scheduler OutputProcessor OutputFacts DecodeFacts DecodeStep DecodePass PrefillPass PrepareFacts ExtendFacts RetractFacts EventLoop Prefill LoopFacts Serving MergeFacts.
Import PoolFacts Batch Finish OneStream Pass Step EventLoop Prefill.

Section Admission.
Context `{Externals} `{Model} (V : SamplingParams → list Z → Z) (N w : Z).
Implicit Types (l : Loop ChunkCache) (a : PrefillAdder).

(** ** The new batch *)

(** The requests [rs] were chosen, all with their whole prompts. *)
Record chosen (width : Z) a (rs : list Req) l : Prop := {
  ch_at : at_heap (w_of (sched l)) (can_run_list a) rs;
  ch_some : can_run_list a ≠ [];
  ch_nodup : NoDup (can_run_list a);
  ch_room : room_for width rs (w_of (sched l));
  ch_whole : new_chunked_req a = None ∧ chunked_req l = None ∧ Forall (λ r, is_chunked r ≤ 0) rs;
  ch_apart : is_mixed_chunk (loop_args l) = false;
  ch_alone : ∀ r, r ∈ rs → is_deterministic r = true → rs = [r] ∧ output_ids r = []
}.

Lemma fresh_flags width rs :
  Forall (fresh_req width) rs →
  existsb return_logprob rs = false ∧ (rs ≠ [] → forallb is_prefill_only rs = false).
Proof.
  intros F. split.
  - induction F as [|r rs Fr _ IH]; [done|]. cbn. destruct (fq_plain _ _ Fr) as [_ ->]. exact IH.
  - destruct F as [|r rs Fr _]; [done|]. intros _. cbn. unfold is_prefill_only.
    pose proof (fq_room _ _ Fr). pose proof (len_nonneg (output_ids r)).
    destruct (Z.eqb_spec (max_new_tokens (sampling_params r)) 0); [lia|done].
Qed.

(** A field the seats do not depend on *)
Lemma seated_decoding d slots (wd : World ChunkCache) x :
  seated d slots wd → seated d slots (wd <| batch ::= λ b, b <| b_decoding_reqs := x |> |>).
Proof.
  intros [S1 S2 S3 S4 S5 S6 S7 S8 S9]. split; rsimpl; try done.
  - destruct S1 as [T1 T2 T3 T4 T5 T6 T7]. split; by rsimpl.
  - intros j id Hj. destruct (S6 j id Hj) as (r & Hr & A1 & A2 & A3). exists r. split_and!; try done.
    intros Hg. destruct (A3 Hg) as [B1 B2 B3 B4]. split; by rsimpl.
Qed.

(** The batch at hand after [make_batch] *)
Record made a (rs : list Req) l l1 : Prop := {
  md_frame : lframe l l1;
  md_running : running_batch l1 = running_batch l;
  md_chunked : chunked_req l1 = None;
  md_seated : seated 0 (pool (kv (w_of (sched l)))) (w_of (sched l1));
  md_going : all_going (w_of (sched l1));
  md_heap : heap (w_of (sched l1)) = insert_all (can_run_list a)
    (zip_with extended rs (take (length rs) (free_slots (rtp (w_of (sched l)))))) (heap (w_of (sched l)));
  md_reqs : b_reqs (batch (w_of (sched l1))) = can_run_list a;
  md_mode : b_forward_mode (batch (w_of (sched l1))) = Some EXTEND;
  md_flags : b_decoding_reqs (batch (w_of (sched l1))) = None ∧ b_chunked_req (batch (w_of (sched l1))) = None ∧
    b_is_prefill_only (batch (w_of (sched l1))) = false;
  md_inputs : b_input_ids (batch (w_of (sched l1))) = Some (concat (fill_ids <$> rs));
  md_sampling : ∃ rs', b_sampling_info (batch (w_of (sched l1))) =
      Some (Verify.sampling_of (enable_deterministic (loop_args l)) rs') ∧ length rs' = length rs ∧
      ∀ j r', rs' !! j = Some r' → ∃ r row, rs !! j = Some r ∧ r' = extended r row;
  md_rows : took_rows (length rs) (rtp (w_of (sched l))) (rtp (w_of (sched l1)));
  md_capacity : capacity (kv (w_of (sched l1))) = capacity (kv (w_of (sched l)))
}.

Lemma make_batch_ok width a rs l :
  chosen width a rs l → ∃ l1, make_batch a l = (Ok tt, l1) ∧ made a rs l l1.
Proof.
  intros [F Hne Hnd Hroom (Hc1 & Hc2 & _) Hmix _]. unfold make_batch.
  set (l0 := l <| sched ::= λ s, s <| waiting_queue ::= filter (λ id, id ∉ can_run_list a) |> |>).
  rewrite (bind_ok _ _ l tt l0) by done. rewrite Hc1.
  rewrite (bind_ok _ _ l0 tt l0) by done.
  assert (Ec : gets chunked_req l0 = (Ok None, l0)) by (rewrite <- Hc2; reflexivity).
  rewrite (bind_ok _ _ _ _ _ Ec). rewrite (bind_ok _ _ l0 tt l0) by done. rewrite (bind_ok _ _ l0 l0 l0) by done.
  pose proof (on_world_eq (reqs_at (can_run_list a)) l0 _ _ (reqs_at_ok _ _ _ F)) as Er.
  rewrite (bind_ok _ _ _ _ _ Er). set (l1 := with_w _ l0).
  set (b := BatchOps.init_new (can_run_list a) rs (enable_overlap (args (sched l0))) None).
  set (w2 := (w_of (sched l)) <| batch := b |>). set (l2 := with_w w2 l1).
  destruct (fresh_flags width rs (rf_fresh _ _ _ Hroom)) as [Hlp Hpo].
  destruct (prepare_for_extend_ok width (enable_deterministic (loop_args l)) w2 rs)
    as (w3 & E & Hs & Hg & Hh & (rs' & rows & locs & Hl' & Hrs' & Hb) & Htk & Hcap); try done.
  { by destruct Hroom. }
  assert (E2 : load b l1 = (Ok tt, l2)) by (apply (on_world_eq (upd_batch (λ _, b)) l1); reflexivity).
  rewrite (bind_ok _ _ _ _ _ E2). set (l3 := with_w w3 l2).
  assert (E3 : on_sched (on_w (BatchOps.prepare_for_extend (enable_deterministic (loop_args l0)))) l2 = (Ok tt, l3)).
  { apply on_world_eq. exact E. }
  rewrite (bind_ok _ _ _ _ _ E3). rewrite (bind_ok _ _ l3 (batch w3) l3) by done.
  rewrite (bind_ok _ _ l3 (running_batch l) l3) by done. change (loop_args l0) with (loop_args l). rewrite Hmix.
  cbn [andb]. set (w4 := w3 <| batch ::= λ b, b <| b_decoding_reqs := None |> |>).
  exists (with_w w4 l3). split; [apply on_world_eq; reflexivity|].
  assert (Hrne : rs ≠ []) by (intros ->; apply Forall2_nil_inv_r in F; done).
  split; change (w_of (sched (with_w w4 l3))) with w4.
  - eapply lframe_trans; [|apply lframe_w]. done.
  - reflexivity.
  - exact Hc2.
  - by apply seated_decoding.
  - exact Hg.
  - exact Hh.
  - change (b_reqs (batch w3) = can_run_list a). by rewrite Hb.
  - change (b_forward_mode (batch w3) = Some EXTEND). by rewrite Hb.
  - split; [done|]. change (b_chunked_req (batch w3) = None ∧ b_is_prefill_only (batch w3) = false).
    rewrite Hb. split; [done|]. by apply Hpo.
  - change (b_input_ids (batch w3) = Some (concat (fill_ids <$> rs))). rewrite Hb.
    change (Some (concat ((λ r, slice_from (fill_ids r) (len (prefix_indices r))) <$> rs)) = Some (concat (fill_ids <$> rs))).
    do 2 f_equal. apply list_fmap_ext. intros i r Hi.
    rewrite (fq_prefix _ _ (Forall_lookup_1 _ _ _ _ (rf_fresh _ _ _ Hroom) Hi)), len_nil. by rewrite slice_from_drop by lia.
  - exists rs'. split; [|done]. change (b_sampling_info (batch w3) = Some (Verify.sampling_of (enable_deterministic (loop_args l)) rs')).
    by rewrite Hb.
  - exact Htk.
  - exact Hcap.
Qed.
(** ** The prefill pass *)

Record same_request (r r' : Req) : Prop := {
  sr_rid : rid r' = rid r;
  sr_det : is_deterministic r' = is_deterministic r;
  sr_params : sampling_params r' = sampling_params r;
  sr_prompt : origin_input_ids r' = origin_input_ids r
}.

Lemma lineage_request r1 r2 r3 : same_request r1 r2 → lineage r2 r3 → same_request r1 r3.
Proof. intros [] []. split; congruence. Qed.

Lemma extended_request r row :
  same_request r (extended r row) ∧ is_chunked (extended r row) = is_chunked r ∧
  output_ids (extended r row) = output_ids r.
Proof. split; [split|split]; unfold extended; destruct (retracted_stain _); by rsimpl. Qed.

Lemma extended_tracked ms r row : tracked V ms r → tracked V ms (extended r row).
Proof. apply tracked_frame; unfold extended; destruct (retracted_stain _); by rsimpl. Qed.

Context (forward : Z → ScheduleBatch → GenerationBatchResult).
Hypothesis forward_length : ∀ n b, length (next_token_ids (forward n b)) = length (b_reqs b).

(** A deterministic request that is prefilled alone gets its reference. *)
Definition prefill_determinism (det : bool) : Prop := ∀ n b id r,
  b_forward_mode b = Some EXTEND → b_reqs b = [id] → b_input_ids b = Some (origin_input_ids r) →
  b_sampling_info b = Some (Verify.sampling_of det [r]) → is_deterministic r = true →
  next_token_ids (forward n b) = [V (sampling_params r) (origin_input_ids r)].

(** A request of the new batch *)
Lemma made_at width a rs l l1 j id :
  chosen width a rs l → made a rs l l1 → can_run_list a !! j = Some id →
  ∃ r row, rs !! j = Some r ∧ reqs_of l !! id = Some r ∧ reqs_of l1 !! id = Some (extended r row) ∧
    row ∈ take (length rs) (free_slots (rtp (w_of (sched l)))).
Proof.
  intros C M Hj. destruct (Forall2_lookup_l _ _ _ _ _ (ch_at _ _ _ _ C) Hj) as (r & Hr & Hid).
  apply lookup_lt_Some in Hr as Hlt. set (free := free_slots (rtp (w_of (sched l)))).
  destruct (lookup_lt_is_Some_2 (take (length rs) free) j) as [row Hrow].
  { rewrite length_take. pose proof (rf_rows _ _ _ (ch_room _ _ _ _ C)) as Hf. fold free in Hf. unfold len in Hf. lia. }
  exists r, row. split_and!; [done|done| |by eapply list_elem_of_lookup_2]. unfold reqs_of. rewrite (md_heap _ _ _ _ M).
  eapply insert_all_in; [apply C|done|]. fold free. by rewrite lookup_zip_with, Hr, Hrow.
Qed.

Lemma made_others width a rs l l1 id :
  chosen width a rs l → made a rs l l1 → id ∉ can_run_list a → reqs_of l1 !! id = reqs_of l !! id.
Proof. intros C M Hid. unfold reqs_of. rewrite (md_heap _ _ _ _ M). by apply insert_all_notin. Qed.

(** The tokens of the pass *)
Lemma made_token width a rs l l1 n j r token :
  prefill_determinism (enable_deterministic (loop_args l)) → chosen width a rs l → made a rs l l1 →
  rs !! j = Some r → is_deterministic r = true →
  next_token_ids (forward n (batch (w_of (sched l1)))) !! j = Some token →
  token = V (sampling_params r) (origin_input_ids r) ∧ output_ids r = [].
Proof.
  intros Hp C M Hj Hd Ht. destruct (ch_alone _ _ _ _ C r) as [E Eo]; [by eapply list_elem_of_lookup_2|done|].
  split; [|done]. destruct (md_sampling _ _ _ _ M) as (rs' & Es & Hl & Hrs'). rewrite E in *.
  destruct rs' as [|r' [|? ?]]; try done. destruct (Hrs' 0%nat r' eq_refl) as (r0 & row & [= <-] & ->).
  destruct (extended_request r row) as ([_ E2 E3 E4] & _).
  pose proof (rf_fresh _ _ _ (ch_room _ _ _ _ C)) as Fr. rewrite Forall_singleton in Fr.
  pose proof (Forall2_length _ _ _ (ch_at _ _ _ _ C)) as Hlen. pose proof (md_reqs _ _ _ _ M) as Eids.
  destruct (can_run_list a) as [|id [|? ?]]; try done.
  rewrite (Hp n _ id (extended r row)) in Ht; try done.
  - rewrite E3, E4 in Ht. destruct j; [|done]. by injection Ht as <-.
  - apply M.
  - rewrite (md_inputs _ _ _ _ M). cbn. by rewrite (fq_fill _ _ Fr), Eo, !app_nil_r, E4.
  - congruence.
Qed.
(** The state after the pass: the batch at hand is the last batch. *)
Record ran a (rs : list Req) l l2 : Prop := {
  rn_running : running_batch l2 = running_batch l;
  rn_chunked : chunked_req l2 = None;
  rn_last : last_batch l2 = Some (batch (w_of (sched l2)));
  rn_args : args (sched l2) = args (sched l);
  rn_worker : worker (sys (sched l2)) = worker (sys (sched l));
  rn_clock : 0 < clock (sched l2);
  rn_seated : seated 1 (pool (kv (w_of (sched l)))) (w_of (sched l2));
  rn_ids : b_reqs (batch (w_of (sched l2))) = can_run_list a;
  rn_mode : b_forward_mode (batch (w_of (sched l2))) = Some EXTEND;
  rn_flags : b_chunked_req (batch (w_of (sched l2))) = None ∧ b_is_prefill_only (batch (w_of (sched l2))) = false ∧
    is_Some (b_output_ids (batch (w_of (sched l2))));
  rn_seeds : ∀ i, b_sampling_info (batch (w_of (sched l2))) = Some i →
    (is_Some (sampling_seeds i) ↔ enable_deterministic (loop_args l) = true);
  rn_reqs : all_in (finalised V w (table_of l2) (sent_of l2)) (plain_after (table_of l2)) (can_run_list a) (sched l2);
  rn_others : ∀ id, id ∉ can_run_list a → reqs_of l2 !! id = reqs_of l !! id;
  rn_same : ∀ id r, id ∈ can_run_list a → reqs_of l !! id = Some r →
    ∃ r', reqs_of l2 !! id = Some r' ∧ same_request r r';
  rn_streams : ∀ x, (∀ id r, id ∈ can_run_list a → reqs_of l !! id = Some r → rid r ≠ x) →
    streamed (sent_of l2) x = streamed (sent_of l) x;
  rn_rows : ∀ i, i ∉ Z.to_nat <$> take (length rs) (free_slots (rtp (w_of (sched l)))) →
    table_of l2 !! i = table_of l !! i;
  rn_taken : ∀ id r row, id ∈ can_run_list a → reqs_of l2 !! id = Some r → req_pool_idx r = Some row →
    row ∈ take (length rs) (free_slots (rtp (w_of (sched l))));
  rn_capacity : capacity (kv (w_of (sched l2))) = capacity (kv (w_of (sched l)))
}.

Section Server.
Context (slots : list Z).

Lemma made_ready width a rs l l1 s toks :
  serving V N w slots l → prefill_determinism (enable_deterministic (loop_args l)) →
  chosen width a rs l → made a rs l l1 →
  toks = next_token_ids (forward (forward_ct l1 + 1) (batch (w_of (sched l1)))) →
  args s = args (sched l1) → clock s = clock (sched l1) → to_detokenizer s = to_detokenizer (sched l1) →
  w_of s = (w_of (sched l1)) <| batch ::= λ b, b <| b_output_ids := Some toks |> |> →
  prefill_ready V (table_of l1) toks s.
Proof.
  intros Sv Hp C M Et Ea Ec Eo Ew. pose proof (md_frame _ _ _ _ M) as [F1 F2 F3 F4].
  assert (Eb : b_reqs (batch (w_of s)) = can_run_list a) by (rewrite Ew; rsimpl; apply M).
  assert (Eh : heap (w_of s) = reqs_of l1) by (rewrite Ew; by rsimpl).
  split; rewrite ?Eb, ?Eh, ?Ea, ?F1.
  - apply Sv.
  - apply Sv.
  - split; [done|rewrite Ew; apply (md_seated _ _ _ _ M)|rewrite Ec, F3; apply Sv|by rewrite Ew].
  - rewrite Ew. split; [apply (md_seated _ _ _ _ M)|apply (md_flags _ _ _ _ M)].
  - apply C.
  - intros i j r r' Hi Hj Hr Hr' E. rewrite Eh in Hr, Hr'.
    apply list_elem_of_lookup_1 in Hi as [n Hn], Hj as [m Hm].
    destruct (made_at width a rs l l1 n i C M Hn) as (r0 & row & _ & Hr0 & Hx & _).
    destruct (made_at width a rs l l1 m j C M Hm) as (r0' & row' & _ & Hr0' & Hx' & _).
    assert (r = extended r0 row) as -> by congruence. assert (r' = extended r0' row') as -> by congruence.
    destruct (extended_request r0 row) as ([E1 _ _ _] & _), (extended_request r0' row') as ([E1' _ _ _] & _).
    eapply (sv_rids _ _ _ _ _ Sv); [done|done|congruence].
  - rewrite Et, forward_length. by rewrite (md_reqs _ _ _ _ M).
  - intros j id token Hj Ht. destruct (made_at width a rs l l1 j id C M Hj) as (r & row & Hr & Hr0 & Hx & _).
    destruct (extended_request r row) as ([E1 E2 E3 E4] & E5 & E6).
    exists (extended r row). split; [done|]. split.
    + destruct (sd_seat _ _ _ (md_seated _ _ _ _ M) j id) as (r1 & Hr1 & _ & _ & Hse); [by rewrite (md_reqs _ _ _ _ M)|].
      assert (r1 = extended r row) as -> by (unfold reqs_of in Hx; congruence).
      apply Hse, (md_going _ _ _ _ M id); [|done]. rewrite (md_reqs _ _ _ _ M). by eapply list_elem_of_lookup_2.
    + rewrite E5. apply (Forall_lookup_1 _ _ _ _ (proj2 (proj2 (ch_whole _ _ _ _ C))) Hr).
    + rewrite E2, E3, E4, E6. intros Hd. rewrite Et in Ht.
      destruct (made_token width a rs l l1 _ j r token Hp C M Hr Hd Ht) as [-> Eo']. split; [|done].
      rewrite Eo, F4. apply extended_tracked. by eapply sv_tracked.
Qed.

(** The seats after the pass *)
Lemma seated_prefilled s s' fss slots' :
  let tbl := req_to_token (rtp (w_of s)) in
  seated 0 slots' (w_of s) → all_going (w_of s) → prefill_done V w tbl s s' →
  kv (w_of s') = frees fss (kv (w_of s)) → conserves tbl (b_reqs (batch (w_of s))) s s' fss →
  seated 1 slots' (w_of s').
Proof.
  intros tbl Hs Hg D Ek Cv. destruct (freed_slots slots' s s' fss Hs Cv) as (Hsl & Hnd & Hrng). fold tbl in Hsl.
  destruct (frees_token_ok fss (kv (w_of s)) (sd_kv _ _ _ Hs) Hnd Hrng) as (K1 & K2 & K3).
  pose proof (pd_batch _ _ _ _ _ D) as Eb.
  apply (seated_after V w slots' s s' Hs Hg); rewrite ?Eb, ?Ek; try done.
  - apply (pd_steady _ _ _ _ _ D).
  - apply Hs.
  - apply Hs.
  - apply (pd_page _ _ _ _ _ D).
  - apply (pd_reqs _ _ _ _ _ D).
  - eapply pairs_impl; [|apply (pd_ids _ _ _ _ _ D)]. by intros ? ? [].
  - intros j id r' Hj Hr'. rewrite Eb in Hj |- *. apply list_elem_of_lookup_2 in Hj as Hin.
    destruct (seated_at 0 slots' _ j id Hs Hg Hj) as (r & row & l & Hr & Hse & _).
    destruct (pd_ids _ _ _ _ _ D id r Hin Hr) as (r2 & Hr2 & _ & El). assert (r2 = r') as -> by congruence.
    rewrite (st_len _ _ _ _ _ Hse), El. f_equal. lia.
  - rewrite K2, <- Hsl, <- app_assoc. f_equiv. apply Permutation_app_comm.
Qed.

Lemma prefill_ran width a rs l l1 s s' fss toks l2 :
  chosen width a rs l → made a rs l l1 → length toks = length (b_reqs (batch (w_of (sched l1)))) →
  w_of s = (w_of (sched l1)) <| batch ::= λ b, b <| b_output_ids := Some toks |> |> →
  args s = args (sched l1) → worker (sys s) = worker (sys (sched l1)) → to_detokenizer s = to_detokenizer (sched l1) →
  prefill_done V w (table_of l1) s s' → kv (w_of s') = frees fss (kv (w_of s)) →
  conserves (table_of l1) (b_reqs (batch (w_of s))) s s' fss →
  sched l2 = s' → running_batch l2 = running_batch l1 → chunked_req l2 = chunked_req l1 →
  last_batch l2 = Some (batch (w_of s')) → ran a rs l l2.
Proof.
  intros C M Hlt Ew Ea Ewk Eo D Ek Cv Es2 Erb Ech Elb. pose proof (md_frame _ _ _ _ M) as [F1 F2 F3 F4].
  pose proof (pd_batch _ _ _ _ _ D) as Eb.
  assert (Et : req_to_token (rtp (w_of s)) = table_of l1) by (rewrite Ew; by rsimpl).
  assert (Eids : b_reqs (batch (w_of s)) = can_run_list a) by (rewrite Ew; rsimpl; apply M).
  assert (Eh : heap (w_of s) = reqs_of l1) by (rewrite Ew; by rsimpl).
  assert (Ht2 : table_of l2 = table_of l1) by (unfold table_of; rewrite Es2; apply (pd_steady _ _ _ _ _ D)).
  split; rewrite ?Ht2; unfold sent_of, reqs_of; rewrite ?Es2, ?Eb, ?Erb, ?Ech; try done.
  - apply M.
  - apply M.
  - by rewrite Elb, Eb.
  - by rewrite (pd_args _ _ _ _ _ D), Ea.
  - rewrite (pd_worker _ _ _ _ _ D), Ewk. done.
  - apply (pd_steady _ _ _ _ _ D).
  - apply (seated_prefilled s s' fss); rewrite ?Et; try done.
    + rewrite Ew. apply seated_output; [done|]. apply M.
    + rewrite Ew. apply (md_going _ _ _ _ M).
  - rewrite Ew. rsimpl. apply M.
  - rewrite Ew. rsimpl. destruct (md_flags _ _ _ _ M) as (_ & A1 & A2). split_and!; [exact A1|exact A2|by eexists].
  - rewrite Ew. rsimpl. destruct (md_sampling _ _ _ _ M) as (rs' & E & _). intros i. rewrite E. intros [= <-]. cbn.
    destruct (enable_deterministic _); split; try done; by intros [? ?].
  - rewrite <- Eids. apply (pd_reqs _ _ _ _ _ D).
  - intros id Hid. rewrite (pd_others _ _ _ _ _ D) by (by rewrite Eids). rewrite Eh. by eapply made_others.
  - intros id r Hin Hr. apply list_elem_of_lookup_1 in Hin as [j Hj].
    destruct (made_at width a rs l l1 j id C M Hj) as (r0 & row & _ & Hr0 & Hx & _).
    assert (r0 = r) as -> by (unfold reqs_of in Hr0; congruence).
    destruct (pd_ids _ _ _ _ _ D id (extended r row)) as (r' & Hr' & L & _).
    { rewrite Eids. by eapply list_elem_of_lookup_2. } { by rewrite Eh. }
    exists r'. split; [done|]. eapply lineage_request; [|exact L]. apply extended_request.
  - intros x Hx. rewrite (pd_streams _ _ _ _ _ D x), Eo; [by rewrite F4|]. rewrite Eids, Eh.
    intros id r Hin Hr. apply list_elem_of_lookup_1 in Hin as [j Hj].
    destruct (made_at width a rs l l1 j id C M Hj) as (r0 & row & _ & Hr0 & Hx' & _).
    assert (r = extended r0 row) as -> by congruence. destruct (extended_request r0 row) as ([-> _ _ _] & _).
    eapply Hx; [by eapply list_elem_of_lookup_2|exact Hr0].
  - intros i Hi. apply (tr_others _ _ _ (md_rows _ _ _ _ M) i Hi).
  - intros id r' row' Hin Hr' Er'. apply list_elem_of_lookup_1 in Hin as [j Hj].
    destruct (made_at width a rs l l1 j id C M Hj) as (r & row & _ & _ & Hx & Hrow).
    destruct (pd_ids _ _ _ _ _ D id (extended r row)) as (r2 & Hr2 & L & _).
    { rewrite Eids. by eapply list_elem_of_lookup_2. } { by rewrite Eh. }
    assert (r2 = r') as -> by congruence.
    assert (Erow : req_pool_idx (extended r row) = Some row) by (unfold extended; destruct (retracted_stain _); by rsimpl).
    destruct (li_row _ _ L); congruence.
  - rewrite Ek. destruct (freed_slots (pool (kv (w_of (sched l)))) s s' fss) as (_ & Hnd & Hrng); [|by rewrite Et|].
    { rewrite Ew. apply seated_output; [done|apply M]. }
    destruct (frees_token_ok fss (kv (w_of s))) as (_ & _ & ->); [|done|done|].
    + rewrite Ew. apply (md_seated _ _ _ _ M).
    + rewrite Ew. apply (md_capacity _ _ _ _ M).
Qed.

Lemma run_prefill_ok width a rs l l1 :
  0 < w → serving V N w slots l → prefill_determinism (enable_deterministic (loop_args l)) →
  chosen width a rs l → made a rs l l1 →
  ∃ l2, run_prefill forward l1 = (Ok tt, l2) ∧ ran a rs l l2.
Proof.
  intros Hw Sv Hp C M. pose proof (md_frame _ _ _ _ M) as [F1 F2 F3 F4]. unfold run_prefill.
  rewrite (bind_ok _ _ l1 (running_batch l1) l1) by done.
  set (l1' := l1 <| sched ::= λ s, s <| other_running := Some (running_batch l1) |> |>).
  rewrite (bind_ok _ _ l1 tt l1') by done.
  destruct (run_batch_ok forward l1') as (result & Etoks & Er); [apply (md_seated _ _ _ _ M)|].
  rewrite (bind_ok _ _ _ _ _ Er), <- Etoks. set (toks := next_token_ids result) in *. set (l3 := with_w _ _).
  change (forward_ct l1') with (forward_ct l1) in Etoks.
  change (batch (w_of (sched l1'))) with (batch (w_of (sched l1))) in Etoks.
  assert (Hlt : length toks = length (b_reqs (batch (w_of (sched l1))))) by (rewrite Etoks; apply forward_length).
  pose proof (made_ready width a rs l l1 (sched l3) toks Sv Hp C M Etoks eq_refl eq_refl eq_refl eq_refl) as Hrd.
  destruct (prefill_pass_ok V w (table_of l1) (sched l3) result Hw Hrd) as (s' & fss & Ed & D & Ek & Cv).
  set (l4 := l3 <| sched := s' |>).
  assert (Ep : process_batch_result result l3 = (Ok tt, l4)).
  { unfold process_batch_result. rewrite (bind_ok _ _ l3 (batch (w_of (sched l3))) l3) by done.
    change (b_forward_mode (batch (w_of (sched l3)))) with (b_forward_mode (batch (w_of (sched l1)))).
    rewrite (md_mode _ _ _ _ M). unfold on_sched. cbn [is_extend]. by rewrite Ed. }
  rewrite (bind_ok _ _ _ _ _ Ep). rewrite (bind_ok _ _ l4 (batch (w_of s')) l4) by done.
  eexists. split; [reflexivity|]. by eapply (prefill_ran width a rs l l1 (sched l3) s' fss toks).
Qed.

(** ** Joining the running batch *)

(** The running requests are others, in rows that are not free, and their
    batch has tokens, with seeds when the new one has. *)
Record joinable a l : Prop := {
  jn_new : ∀ id, id ∈ can_run_list a → id ∉ ids_of l;
  jn_rows : ∀ id r row, id ∈ ids_of l → reqs_of l !! id = Some r → req_pool_idx r = Some row →
    0 ≤ row ∧ row ∉ free_slots (rtp (w_of (sched l)));
  jn_out : ids_of l ≠ [] → is_Some (b_output_ids (running_batch l));
  jn_seeds : ∀ i, b_sampling_info (running_batch l) = Some i →
    (is_Some (sampling_seeds i) ↔ enable_deterministic (loop_args l) = true)
}.

Section Join.
Context (width : Z) (a : PrefillAdder) (rs : list Req) (l l2 : Loop ChunkCache).
Context (Sv : serving V N w slots l) (C : chosen width a rs l) (R : ran a rs l l2) (J : joinable a l).

Lemma joined_row id r row :
  id ∈ ids_of l → reqs_of l !! id = Some r → req_pool_idx r = Some row →
  table_of l2 !! Z.to_nat row = table_of l !! Z.to_nat row ∧ row ∉ take (length rs) (free_slots (rtp (w_of (sched l)))).
Proof.
  intros Hin Hr Er. destruct (jn_rows _ _ J id r row Hin Hr Er) as [H0' Hf].
  assert (Hnt : row ∉ take (length rs) (free_slots (rtp (w_of (sched l))))) by (intros Hx; apply Hf; by eapply subseteq_take).
  split; [|done]. apply (rn_rows _ _ _ _ R). intros Hx. apply Hnt. apply list_elem_of_fmap in Hx as (row' & E & Hx).
  pose proof (rw_free _ (rf_table _ _ _ (ch_room _ _ _ _ C))) as Hfr.
  destruct (proj1 (Forall_forall _ _) Hfr row') as [? _]; [by eapply subseteq_take|].
  by assert (row' = row) as -> by lia.
Qed.

(** What a running request shows after the pass *)
Lemma joined_stream id r : reqs_of l !! id = Some r → id ∉ can_run_list a →
  streamed (sent_of l2) (rid r) = streamed (sent_of l) (rid r).
Proof.
  intros Hr Hn. apply (rn_streams _ _ _ _ R). intros id' r' Hin' Hr' E.
  assert (id' = id) as -> by (by eapply (sv_rids _ _ _ _ _ Sv)). done.
Qed.

Lemma joined_running :
  all_in (finalised V w (table_of l2) (sent_of l2)) (plain_after (table_of l2)) (ids_of l) (sched l2).
Proof.
  intros id Hin. assert (Hn : id ∉ can_run_list a) by (intros Hx; by eapply jn_new).
  destruct (sv_reqs _ _ _ _ _ Sv id Hin) as (r & Hr & HD & HP). exists r.
  split; [pose proof (rn_others _ _ _ _ R id Hn) as E; unfold reqs_of in E; by rewrite E|].
  assert (Ht := λ row E, proj1 (joined_row id r row Hin Hr E)). pose proof (joined_stream id r Hr Hn) as Es. split.
  - intros Hd. destruct (HD Hd) as [A1 A2 A3]. split.
    + by eapply tracked_restream.
    + rewrite Es. apply A2.
    + intros Hf. destruct (A3 Hf). split; [by eapply running_table|done].
  - intros Hd. destruct (HP Hd) as [A1 A2 A3 A4]. split; try done. intros Hf. eapply running_table; [done|auto].
Qed.

(** Any request of the server *)
Lemma joined_at id r' : reqs_of l2 !! id = Some r' → ∃ r, reqs_of l !! id = Some r ∧ same_request r r'.
Proof.
  intros Hr'. destruct (decide (id ∈ can_run_list a)) as [Hin|Hn].
  - apply list_elem_of_lookup_1 in Hin as Hj. destruct Hj as [j Hj].
    destruct (Forall2_lookup_l _ _ _ _ _ (ch_at _ _ _ _ C) Hj) as (r & _ & Hid). exists r. split; [done|].
    destruct (rn_same _ _ _ _ R id r Hin Hid) as (r2 & Hr2 & Sr). by assert (r2 = r') as -> by congruence.
  - rewrite (rn_others _ _ _ _ R id Hn) in Hr'. by exists r'.
Qed.

Lemma joined_serving l3 :
  lframe l2 l3 → reqs_of l3 = reqs_of l2 → table_of l3 = table_of l2 →
  (∀ id, id ∈ ids_of l3 → id ∈ ids_of l ∨ id ∈ can_run_list a) →
  (ids_of l3 = [] → pool (kv (w_of (sched l3))) ≡ₚ slots) → (ids_of l3 ≠ [] → seated 1 slots (home l3)) →
  serving V N w slots l3.
Proof.
  intros [F1 F2 F3 F4] Eh Et Hids He Hs. assert (Eo : sent_of l3 = sent_of l2) by exact F4.
  split; rewrite ?Eh, ?Et, ?Eo, ?F1, ?F2, ?F3; try done.
  - rewrite (rn_args _ _ _ _ R). apply Sv.
  - rewrite (rn_args _ _ _ _ R). apply Sv.
  - rewrite (rn_worker _ _ _ _ R). apply Sv.
  - apply R.
  - intros id Hin. unfold reqs_of in Eh. rewrite Eh.
    destruct (Hids id Hin) as [Hi|Hi]; [by apply joined_running|by apply (rn_reqs _ _ _ _ R)].
  - intros i j r r' Hr Hr' E. destruct (joined_at i r Hr) as (x & Hx & Sx), (joined_at j r' Hr') as (y & Hy & Sy).
    eapply (sv_rids _ _ _ _ _ Sv); [done|done|]. by rewrite <- (sr_rid _ _ Sx), <- (sr_rid _ _ Sy).
  - intros id r' Hr' Hd. destruct (decide (id ∈ can_run_list a)) as [Hin|Hn].
    + destruct (rn_reqs _ _ _ _ R id Hin) as (r2 & Hr2 & HD & _).
      assert (r2 = r') as -> by (unfold reqs_of in Hr'; congruence). apply (HD Hd).
    + rewrite (rn_others _ _ _ _ R id Hn) in Hr'. eapply tracked_restream; [by eapply joined_stream|].
      by eapply sv_tracked.
Qed.

(** The running requests in their seats *)
Let w2 := w_of (sched l2).
Let old := held_ids (table_of l) (reqs_of l) (ids_of l).

Lemma joined_held : held_ids (table_of l2) (reqs_of l2) (ids_of l) = old.
Proof.
  unfold old, held_ids. f_equal. apply list_fmap_ext. intros j id Hj. apply list_elem_of_lookup_2 in Hj as Hin.
  rewrite (rn_others _ _ _ _ R id) by (intros Hx; by eapply jn_new).
  destruct (reqs_of l !! id) as [r|] eqn:Hr; [|done]. apply held_table. intros row E. by eapply joined_row.
Qed.

Lemma joined_slots : ids_of l ≠ [] →
  pool (kv w2) ++ old ++ held_ids (table_of l2) (reqs_of l2) (b_reqs (batch w2)) ≡ₚ slots ∧
  NoDup slots ∧ Forall (λ x, 1 ≤ x ≤ capacity (kv w2)) slots.
Proof.
  intros Hne. pose proof (sv_seated _ _ _ _ _ Sv Hne) as Hs. pose proof (sd_slots _ _ _ Hs) as E1.
  pose proof (sd_slots _ _ _ (rn_seated _ _ _ _ R)) as E2. destruct (sd_fresh _ _ _ Hs) as [Hnd Hr].
  unfold w2. rewrite (rn_capacity _ _ _ _ R). split_and!; [|done|done].
  rewrite <- E1. change (kv (home l)) with (kv (w_of (sched l))). rewrite <- E2.
  rewrite <- app_assoc. f_equiv. apply Permutation_app_comm.
Qed.

Lemma joined_seats : ids_of l ≠ [] → seated 1 (pool (kv w2) ++ old) (w2 <| batch := running_batch l |>).
Proof.
  intros Hne. destruct (joined_slots Hne) as (Hsl & Hnd & Hr). rewrite app_assoc in Hsl.
  apply (seated_elsewhere 1 slots _ (home l)); unfold w2 in *; rsimpl; try done.
  - by apply (sv_seated _ _ _ _ _ Sv).
  - intros id Hin. apply (rn_others _ _ _ _ R). intros Hx. by eapply jn_new.
  - intros id r row Hin Hr0 Er. by eapply joined_row.
  - apply (rn_seated _ _ _ _ R).
  - apply (rn_seated _ _ _ _ R).
  - rewrite <- Hsl in Hnd. by apply NoDup_app in Hnd as [? _].
  - rewrite <- Hsl in Hr. by apply Forall_app in Hr as [? _].
Qed.

(** The new requests sit down among them. *)
Lemma merged_seats rb b' :
  ids_of l ≠ [] → b_reqs rb = ids_of l → seated 1 (pool (kv w2) ++ old) (w2 <| batch := rb |>) →
  seated 1 (pool (kv (w_of (sched l)))) (w2 <| batch := b' |>) → mergeable rb b' →
  (∀ id, id ∈ b_reqs b' → id ∈ can_run_list a) →
  ∃ rb', BatchOps.merge_batch rb b' = Ok rb' ∧ b_reqs rb' = ids_of l ++ b_reqs b' ∧ seated 1 slots (w2 <| batch := rb' |>).
Proof.
  intros Hne Erb Hs1 Hs2 Hm Hsub. destruct (joined_slots Hne) as (Hsl & Hnd & Hr).
  destruct (merge_batch_ok rb b') as (rb' & Em & Hsoa & _ & Er); [apply (sd_soa _ _ _ Hs1)|apply (sd_soa _ _ _ Hs2)|done|].
  exists rb'. split; [done|]. split; [by rewrite Er, Erb|].
  apply (merge_seated 1 _ _ slots w2 rb b' rb' Hs1 Hs2 Em Hsoa); try done.
  - rewrite Erb. intros id Hin Hin'. eapply (jn_new _ _ J); [by apply Hsub|done].
  - rewrite Erb. intros id id' r r' row Hin Hin' Hr0 Hr1 E E'.
    pose proof (rn_others _ _ _ _ R id) as Eo. unfold reqs_of in Eo. fold w2 in Eo. rewrite Hr0 in Eo.
    destruct (joined_row id r row Hin) as [_ Hn]; [|done|].
    { symmetry. apply Eo. intros Hx. by eapply jn_new. }
    apply Hn. eapply (rn_taken _ _ _ _ R); [by apply Hsub|exact Hr1|done].
  - rewrite Erb, <- Hsl. change (req_to_token (rtp w2)) with (table_of l2). change (heap w2) with (reqs_of l2).
    rewrite joined_held, !app_assoc, !(Permutation_app_comm (pool _) old), <- !app_assoc. f_equiv.
    pose proof (sd_slots _ _ _ Hs2) as E2. pose proof (sd_slots _ _ _ (rn_seated _ _ _ _ R)) as E3.
    exact (Permutation_trans E2 (Permutation_sym E3)).
Qed.

(** What is left of the new batch when its finished requests have gone *)
Lemma last_filtered :
  ∃ b', BatchOps.filter_batch [] None w2 = (Ok tt, w2 <| batch := b' |>) ∧
    (∀ id, id ∈ b_reqs b' ↔ id ∈ can_run_list a ∧ ∃ r, reqs_of l2 !! id = Some r ∧ finished r = false) ∧
    filter_frame (batch w2) b' ∧
    (b_reqs b' ≠ [] → seated 1 (pool (kv (w_of (sched l)))) (w2 <| batch := b' |>)) ∧
    (b_reqs b' = [] → pool (kv w2) ≡ₚ pool (kv (w_of (sched l)))).
Proof.
  pose proof (rn_seated _ _ _ _ R) as Hs. fold w2 in Hs.
  destruct (filter_seated (pool (kv (w_of (sched l)))) w2 Hs) as (b' & E & Hmem & Hgo & Hnil).
  { intros id r Hin Hr Hf. unfold w2 in Hin. rewrite (rn_ids _ _ _ _ R) in Hin.
    destruct (rn_reqs _ _ _ _ R id Hin) as (r2 & Hr2 & HD & HP). fold w2 in Hr2.
    assert (r2 = r) as -> by congruence. by apply (after_pass V w (table_of l2) (sent_of l2) r HD HP). }
  exists b'. split; [exact E|]. split_and!.
  - intros id. rewrite Hmem. unfold w2. by rewrite (rn_ids _ _ _ _ R).
  - destruct (at_heap_exists w2 (b_reqs (batch w2))) as [rs2 F2].
    { intros id [j Hj]%list_elem_of_lookup_1. destruct (sd_seat _ _ _ Hs j id Hj) as (r & -> & _). done. }
    exact (filter_batch_frame [] None rs2 w2 _ F2 E).
  - intros Hne. by apply Hgo.
  - exact Hnil.
Qed.

Lemma seated_perm d xs ys (wd : World ChunkCache) : xs ≡ₚ ys → seated d xs wd → seated d ys wd.
Proof. intros E [S1 S2 S3 S4 S5 S6 S7 S8 S9]. split; try done; by rewrite <- E. Qed.

(** The running batch may be marked as not full. *)
Definition marked (b rb : ScheduleBatch) : Prop := rb = b ∨ rb = b <| b_batch_is_full := false |>.

Lemma marked_seats rb :
  marked (running_batch l) rb → ids_of l ≠ [] → seated 1 (pool (kv w2) ++ old) (w2 <| batch := rb |>).
Proof.
  intros [->| ->] Hne; [by apply joined_seats|].
  exact (seated_full 1 _ (w2 <| batch := running_batch l |>) false (joined_seats Hne)).
Qed.

Lemma marked_fields rb :
  marked (running_batch l) rb →
  b_reqs rb = ids_of l ∧ b_output_ids rb = b_output_ids (running_batch l) ∧
  b_sampling_info rb = b_sampling_info (running_batch l).
Proof. by intros [->| ->]. Qed.

(** The batch the new requests end up in *)
Lemma marked_mergeable rb b' :
  marked (running_batch l) rb → ids_of l ≠ [] → filter_frame (batch w2) b' → mergeable rb b'.
Proof.
  intros Hmk Hne F. destruct (marked_fields rb Hmk) as (_ & E2 & E3). split; [rewrite E2; by apply J|].
  split; [apply (ff_out _ _ F), (rn_flags _ _ _ _ R)|].
  intros i i' Ei Ei'. rewrite E3 in Ei. destruct (ff_seeds _ _ F i' Ei') as (i0 & Ei0 & ->).
  by rewrite (jn_seeds _ _ J i Ei), (rn_seeds _ _ _ _ R i0 Ei0).
Qed.

Lemma empty_spec (b : ScheduleBatch) : BatchOps.is_empty b = true ↔ b_reqs b = [].
Proof. unfold BatchOps.is_empty. rewrite Z.eqb_eq. split; [apply len_zero|by intros ->]. Qed.

(** The end of [merge_last_batch]: the rest [b'] of the new batch joins. *)
Lemma join_ok b' l3 :
  filter_frame (batch w2) b' → (∀ id, id ∈ b_reqs b' → id ∈ can_run_list a) →
  (b_reqs b' ≠ [] → seated 1 (pool (kv (w_of (sched l)))) (w2 <| batch := b' |>)) →
  (b_reqs b' = [] → pool (kv w2) ≡ₚ pool (kv (w_of (sched l)))) →
  lframe l2 l3 → w_of (sched l3) = w2 <| batch := b' |> → marked (running_batch l) (running_batch l3) →
  ∃ l4, (if negb (BatchOps.is_empty b') && negb (b_is_prefill_only b') then
           rb ← gets running_batch;
           if BatchOps.is_empty rb then modify (λ l, l <| running_batch := b' |>)
           else
             rb' ← lift (BatchOps.merge_batch rb b');
             modify (λ l, l <| running_batch := rb' |>)
         else mret tt) l3 = (Ok tt, l4) ∧
    serving V N w slots l4 ∧ ids_of l4 = ids_of l ++ b_reqs b' ∧ reqs_of l4 = reqs_of l2 ∧ sent_of l4 = sent_of l2.
Proof.
  intros F Hsub Hseat Hnil Lf Ew Hmk. destruct (marked_fields _ Hmk) as (Erb & _).
  assert (Hpo : b_is_prefill_only b' = false) by (rewrite (ff_only _ _ F); apply (rn_flags _ _ _ _ R)).
  assert (Heq : reqs_of l3 = reqs_of l2 ∧ table_of l3 = table_of l2 ∧ sent_of l3 = sent_of l2).
  { unfold reqs_of, table_of. rewrite Ew. split_and!; try done. apply Lf. }
  destruct Heq as (Eh & Et & Eo).
  assert (Hslots : ids_of l = [] → pool (kv (w_of (sched l))) ≡ₚ slots) by apply Sv.
  (* a state with the running batch [rb] serves *)
  assert (Hend : ∀ rb : ScheduleBatch, b_reqs rb = ids_of l ++ b_reqs b' →
            (b_reqs rb = [] → pool (kv w2) ≡ₚ slots) → (b_reqs rb ≠ [] → seated 1 slots (w2 <| batch := rb |>)) →
            serving V N w slots (l3 <| running_batch := rb |>)).
  { intros rb Er He Hs. apply joined_serving; try done.
    - by destruct Lf.
    - intros id Hin. change (id ∈ b_reqs rb) in Hin. rewrite Er in Hin. apply elem_of_app in Hin as [Hin|Hin]; auto.
    - intros Hx. change (pool (kv (w_of (sched l3))) ≡ₚ slots). rewrite Ew. by apply He.
    - intros Hx. unfold home. change (seated 1 slots ((w_of (sched l3)) <| batch := rb |>)). rewrite Ew. by apply Hs. }
  destruct (BatchOps.is_empty b') eqn:Eb; cbn [negb andb].
  - apply empty_spec in Eb. exists l3. split; [done|]. rewrite Eb, app_nil_r in *.
    split; [|split; [by unfold ids_of|done]].
    replace l3 with (l3 <| running_batch := running_batch l3 |>) by (by destruct l3).
    apply Hend; [done|intros Hx; rewrite (Hnil eq_refl); apply Hslots; congruence|].
    intros Hx. destruct (joined_slots ltac:(congruence)) as (Hsl & Hnd & Hr).
    pose proof (marked_seats _ Hmk ltac:(congruence)) as Hs. eapply seated_perm; [|exact Hs].
    rewrite (Hnil eq_refl). apply (sd_slots _ _ _ (sv_seated _ _ _ _ _ Sv ltac:(congruence))).
  - assert (Hbne : b_reqs b' ≠ []) by (intros Hx; apply empty_spec in Hx; congruence). specialize (Hseat Hbne).
    rewrite Hpo. cbn [negb]. rewrite (bind_ok _ _ l3 (running_batch l3) l3) by done.
    destruct (BatchOps.is_empty (running_batch l3)) eqn:Er.
    + apply empty_spec in Er. assert (El : ids_of l = []) by congruence. eexists. split; [reflexivity|].
      rewrite El. split; [|split; [done|done]]. apply Hend; [by rewrite El|done|].
      intros _. eapply seated_perm; [by apply Hslots|done].
    + assert (El : ids_of l ≠ []) by (intros Hx; rewrite <- Erb in Hx; apply empty_spec in Hx; congruence).
      destruct (merged_seats (running_batch l3) b' El Erb (marked_seats _ Hmk El) Hseat (marked_mergeable _ _ Hmk El F) Hsub)
        as (rb' & Em & Er' & Hs'). rewrite Em. rewrite (bind_ok _ _ l3 rb' l3) by done.
      eexists. split; [reflexivity|]. split; [|split; [done|done]]. apply Hend; [done| |done].
      intros Hx. rewrite Hx in Er'. symmetry in Er'. apply app_eq_nil in Er' as [? _]. done.
Qed.

Lemma merge_last_batch_ok :
  ∃ l3, merge_last_batch l2 = (Ok tt, l3) ∧ serving V N w slots l3 ∧
    (∀ id, id ∈ ids_of l3 ↔ id ∈ ids_of l ∨ id ∈ can_run_list a ∧ ∃ r, reqs_of l2 !! id = Some r ∧ finished r = false) ∧
    reqs_of l3 = reqs_of l2 ∧ sent_of l3 = sent_of l2.
Proof.
  unfold merge_last_batch. rewrite (bind_ok _ _ l2 l2 l2) by done. rewrite (rn_chunked _ _ _ _ R), (rn_last _ _ _ _ R).
  rewrite (bind_ok _ _ l2 tt l2) by done. rewrite (rn_mode _ _ _ _ R). rewrite (bind_ok _ _ l2 EXTEND l2) by done.
  cbn [is_extend]. destruct (rn_flags _ _ _ _ R) as (-> & _ & _). cbn [app].
  set (l2a := with_w (w2 <| batch := batch w2 |>) l2).
  assert (Ew2 : w2 <| batch := batch w2 |> = w2) by (by destruct w2).
  assert (E1 : load (batch (w_of (sched l2))) l2 = (Ok tt, l2a)) by (apply (on_world_eq (upd_batch (λ _, batch w2)) l2); reflexivity).
  rewrite (bind_ok _ _ _ _ _ E1). destruct last_filtered as (b' & Ef & Hmem & F & Hseat & Hnil).
  set (l2b := with_w (w2 <| batch := b' |>) l2a).
  assert (E2 : on_sched (on_w (BatchOps.filter_batch [] None)) l2a = (Ok tt, l2b)).
  { apply on_world_eq. change (w_of (sched l2a)) with (w2 <| batch := batch w2 |>). by rewrite Ew2. }
  rewrite (bind_ok _ _ _ _ _ E2). rewrite (bind_ok _ _ l2b b' l2b) by done.
  assert (E3 : ∃ l3, (if BatchOps.batch_size b' <? BatchOps.batch_size (batch (w_of (sched l2))) then set_full false else mret tt) l2b
             = (Ok tt, l3) ∧ sched l3 = sched l2b ∧ marked (running_batch l) (running_batch l3)).
  { assert (Er : running_batch l2b = running_batch l) by apply (rn_running _ _ _ _ R).
    destruct (_ <? _); eexists; (split; [reflexivity|]); (split; [done|]); [|by left].
    right. by rewrite <- Er. }
  destruct E3 as (l3 & E3 & Es3 & Hmk). rewrite (bind_ok _ _ _ _ _ E3).
  destruct (join_ok b' l3) as (l4 & E4 & Sv4 & Ids & Er & Eo); try done.
  - intros id Hin. by apply Hmem.
  - split; by rewrite Es3.
  - by rewrite Es3.
  - exists l4. split; [exact E4|]. split; [done|]. split; [|done]. intros id. rewrite Ids, elem_of_app, Hmem. done.
Qed.
End Join.

(** ** The whole way *)

Definition start_requests a : M (Loop ChunkCache) unit := make_batch a;; run_prefill forward;; merge_last_batch.

Lemma start_requests_ok width a rs l :
  0 < w → serving V N w slots l → prefill_determinism (enable_deterministic (loop_args l)) →
  chosen width a rs l → joinable a l →
  ∃ l', start_requests a l = (Ok tt, l') ∧ serving V N w slots l' ∧
    (∀ id, id ∈ ids_of l → id ∈ ids_of l' ∧ reqs_of l' !! id = reqs_of l !! id) ∧
    (∀ id, id ∈ ids_of l' → id ∈ ids_of l ∨ id ∈ can_run_list a) ∧
    (∀ id r, reqs_of l !! id = Some r → ∃ r', reqs_of l' !! id = Some r' ∧ same_request r r') ∧
    (∀ id, id ∈ can_run_list a → ∃ r', reqs_of l' !! id = Some r' ∧
       (finished r' = false ∧ id ∈ ids_of l' ∨ complete (sent_of l') r' ∧ req_pool_idx r' = None)).
Proof.
  intros Hw Sv Hp C J. destruct (make_batch_ok width a rs l C) as (l1 & E1 & M).
  destruct (run_prefill_ok width a rs l l1 Hw Sv Hp C M) as (l2 & E2 & R).
  destruct (merge_last_batch_ok width a rs l l2 Sv C R J) as (l3 & E3 & Sv3 & Hids & Eh & Eo).
  exists l3. split.
  { unfold start_requests. rewrite (bind_ok _ _ _ _ _ E1), (bind_ok _ _ _ _ _ E2). exact E3. }
  split; [done|]. rewrite Eh, Eo. split_and!.
  - intros id Hin. split; [apply Hids; by left|]. apply (rn_others _ _ _ _ R). intros Hx. by eapply jn_new.
  - intros id Hin. apply Hids in Hin as [Hin|[Hin _]]; auto.
  - intros id r Hr. destruct (decide (id ∈ can_run_list a)) as [Hin|Hn]; [by apply (rn_same _ _ _ _ R)|].
    exists r. rewrite (rn_others _ _ _ _ R id Hn). by split.
  - intros id Hin. destruct (rn_reqs _ _ _ _ R id Hin) as (r & Hr & HD & HP). exists r. split; [done|].
    destruct (finished r) eqn:Ef; [right|left; split; [done|apply Hids; right; by eauto]].
    split; [by eapply finished_complete|]. by destruct (is_deterministic r); [apply HD|apply HP].
Qed.

(** ** Arrival *)

(** A request the server has not seen waits. *)
Definition arrived (id : nat) (r : Req) l : Loop ChunkCache := with_w ((w_of (sched l)) <| heap ::= <[id := r]> |>) l.

Lemma arrived_serving id r l :
  serving V N w slots l → reqs_of l !! id = None →
  (∀ id' r', reqs_of l !! id' = Some r' → rid r' ≠ rid r) →
  (is_deterministic r = true → tracked V (sent_of l) r) → serving V N w slots (arrived id r l).
Proof.
  intros Sv Hn Hrid Ht. set (l' := arrived id r l).
  assert (Eh : reqs_of l' = <[id := r]> (reqs_of l)) by done.
  assert (Hold : ∀ id', id' ∈ ids_of l → reqs_of l' !! id' = reqs_of l !! id').
  { intros id' Hin. rewrite Eh, lookup_insert_ne; [done|]. intros ->.
    destruct (sv_reqs _ _ _ _ _ Sv id' Hin) as (r0 & Hr0 & _). unfold reqs_of in Hn. congruence. }
  split; try apply Sv.
  - intros Hne. pose proof (sv_seated _ _ _ _ _ Sv Hne) as Hs.
    apply (seated_elsewhere 1 slots slots (home l)); try done; apply Hs.
  - intros id' Hin. destruct (sv_reqs _ _ _ _ _ Sv id' Hin) as (r0 & Hr0 & HD). exists r0. split; [|done].
    specialize (Hold id' Hin). unfold reqs_of in Hold. by rewrite Hold.
  - rewrite Eh. intros i j x y Hx Hy E. apply lookup_insert_Some in Hx as [[<- <-]|[_ Hx]], Hy as [[<- <-]|[_ Hy]]; [done| | |].
    + exfalso. by apply (Hrid j y Hy).
    + exfalso. by apply (Hrid i x Hx).
    + by eapply (sv_rids _ _ _ _ _ Sv).
  - rewrite Eh. intros i x Hx Hd. apply lookup_insert_Some in Hx as [[<- <-]|[_ Hx]]; [by apply Ht|].
    exact (sv_tracked _ _ _ _ _ Sv i x Hx Hd).
Qed.
End Server.
End Admission.
