(* ===== verification/ServingClaims.v ===== *)
(** * Claims on the decode loop *)

From S2P Require Import Prelude PyFloat Allocator AllocatorFacts Request ReqPool LLM42Info Demo InfoFacts World MemCommon CacheLaws Policy BatchOps LLM42Worker Verifier WorkerFacts WorkerClaims BatchFacts Scheduler OutputProcessor OutputFacts DecodeFacts DecodeStep DecodePass DecodeClaims PrepareFacts RetractFacts EventLoop Prefill LoopFacts Serving Drain.
Import PoolFacts Batch Finish OneStream VPoolFacts Pass Step EventLoop.

(** ** A server with three running requests

    Requests 0 and 1 are deterministic, request 2 is not.  Decode always
    proposes token 77, which the verifier does not confirm. *)

Module DemoServe.

Definition req0 : Req := Demo.req "r0" (Some 2) [11; 12] [13; 14; 15] 2.
Definition req1 : Req := Demo.req "r1" (Some 3) [20] [21; 77; 23] 1.
Definition req2 : Req :=
  mkReq "r2" [7] [7] [8] [] 1 1 false false 0 0 (Demo.params 8 [2]) (Some 4)
    None None None false None true [] 1000 None None "" [] 0 [] 0 0 None 0 None None 0
    false false 0 0 0 0 0 false (-1) None None false None None None None false 0 0 0 0 0.

Definition info : SamplingInfo :=
  mkSamplingInfo (times f_zero 3) (times f_one 3) (times (-1) 3) (times f_zero 3)
    (Some (times 7 3)) [1; 1; 0] false.

Definition the_batch : ScheduleBatch :=
  mkScheduleBatch [0%nat; 1%nat; 2%nat] (Some DECODE) false false None (Some info) None [2; 3; 4]
    [4; 3; 1] [4; 3; 1] None (Some [15; 23; 8]) 8 [4; 3; 1] false None [] [] 0 None [] true false false.

Definition row (slots : list Z) : list Z := slots ++ times 0 (16 - len slots).
Definition table : list (list Z) :=
  [row []; row []; row [1; 2; 3; 4]; row [5; 6; 7]; row [8]; row []].

Definition the_world : World ChunkCache :=
  mkWorld (<[0%nat := req0]> (<[1%nat := req1]> (<[2%nat := req2]> ∅)))
    (alloc 8 (Token.init 64 false)).2 (mkReqToTokenPool 6 16 table [0; 1; 5]) (mkChunkCache 1) the_batch.

Definition the_sys : Sys ChunkCache :=
  (Worker._init_fixed_pool (mkSys the_world (Worker.init true 2 Worker.f_hundred 3) false)).2.

Definition the_args : LoopArgs :=
  mkLoopArgs None f_one f_zero f_zero None 16384 false None None 16 true FCFS 1.

Definition loop : Loop ChunkCache := Eval vm_compute in
  mkLoop (mkScheduler the_sys (mkServerArgs true false false 1 None 1000) [] [] None 1 0 0 [] [])
    the_args the_batch None None f_one 0.

Definition tbl : list (list Z) := Eval vm_compute in table_of loop.
Definition slots : list Z := Eval vm_compute in
  pool (kv (w_of (sched loop))) ++ held_ids tbl (reqs_of loop) (ids_of loop).

Definition forward (n : Z) (b : ScheduleBatch) : GenerationBatchResult :=
  mkResult ((λ _, 77) <$> b_reqs b) None None None None.

Lemma forward_length n b : length (next_token_ids (forward n b)) = length (b_reqs b).
Proof. apply length_fmap. Qed.

Lemma serve_cases id r :
  reqs_of loop !! id = Some r →
  (id = 0%nat ∧ r = req0) ∨ (id = 1%nat ∧ r = req1) ∨ (id = 2%nat ∧ r = req2).
Proof.
  intros Hr. change (reqs_of loop) with (heap the_world) in Hr. unfold the_world in Hr. cbn [heap] in Hr.
  repeat (apply lookup_insert_Some in Hr as [[<- <-]|[_ Hr]]; [auto|]). by apply lookup_empty_Some in Hr.
Qed.

#[local] Existing Instance DemoSched.externals.
#[local] Existing Instance DemoSched.the_model.

Lemma serve_mode : fixed_mode (worker (sys (sched loop))) 2 3.
Proof.
  split; [done|done|by vm_compute|].
  eexists. split; [vm_compute; reflexivity|]. split; cbn.
  - done.
  - done.
  - by vm_compute.
  - eexists. split; [done|]. vm_compute. congruence.
  - done.
  - by vm_compute.
  - intros _. eexists. split; [done|]. done.
Qed.

Ltac here := repeat split; try (vm_compute; congruence); try by vm_compute.

Lemma serve_running_at r row l :
  req_pool_idx r = Some row → 0 ≤ row → tbl !! Z.to_nat row = Some l → kv_committed_len r ≤ len l →
  finished_reason r = None ∧ is_retracted r = false ∧ grammar r = None ∧ return_logprob r = false ∧
  0 < len (origin_input_ids r) ∧ kv_committed_len r = seqlen r - 1 ∧
  kv_allocated_len r = seqlen r - 1 ∧ kv_committed_freed r = false ∧
  kv_overallocated_freed r = false ∧ completion_time r = 0 ∧ finished_output r = false ∧
  len (output_ids r) < max_new_tokens (sampling_params r) →
  running tbl 1 r.
Proof. intros A B D E F. destruct F as (?&?&?&?&?&?&?&?&?&?&?&?). split; try done. by exists row, l. Qed.

Lemma running0 : running tbl 1 req0.
Proof. eapply (serve_running_at req0 2); [done|lia|reflexivity|by vm_compute|by here]. Qed.
Lemma running1 : running tbl 1 req1.
Proof. eapply (serve_running_at req1 3); [done|lia|reflexivity|by vm_compute|by here]. Qed.
Lemma running2 : running tbl 1 req2.
Proof. eapply (serve_running_at req2 4); [done|lia|reflexivity|by vm_compute|by here]. Qed.

Lemma tracked0 : tracked DemoSched.V [] req0.
Proof. split; [by here|split; [by here|by vm_compute|done]|done|apply DemoSched.V_vocab]. Qed.
Lemma tracked1 : tracked DemoSched.V [] req1.
Proof. split; [by here|split; [by here|by vm_compute|done]|done|apply DemoSched.V_vocab]. Qed.

Lemma the_seats : seated 1 slots (home loop).
Proof.
  split.
  - split; try done; [by intros ? [= <-]|]. eexists. split; [reflexivity|]. split; try done. by intros ? [= <-].
  - apply (bool_decide_unpack _). by vm_compute.
  - done.
  - done.
  - split; try done. split; try done; apply (bool_decide_unpack _); by vm_compute.
  - intros j id Hj. change (req_to_token (rtp (home loop))) with tbl.
    destruct j as [|[|[|j]]]; try by vm_compute in Hj.
    all: injection Hj as <-; eexists; split; [reflexivity|]; split_and!; try done; intros _; split; try done.
    + apply running0.
    + intros row l [= <-] [= <-]. by vm_compute.
    + apply running1.
    + intros row l [= <-] [= <-]. by vm_compute.
    + apply running2.
    + intros row l [= <-] [= <-]. by vm_compute.
  - intros i j id id' r r' row Hi Hj Hr Hr' E E'.
    destruct (serve_cases id r Hr) as [[-> ->]|[[-> ->]|[-> ->]]], (serve_cases id' r' Hr') as [[-> ->]|[[-> ->]|[-> ->]]];
      try (cbn in E, E'; congruence);
      apply (NoDup_lookup (b_reqs the_batch) _ _ _ ltac:(apply (bool_decide_unpack _); by vm_compute) Hi Hj).
  - by vm_compute.
  - split; apply (bool_decide_unpack _); by vm_compute.
Qed.

Lemma the_server : serving DemoSched.V 2 3 slots loop.
Proof.
  split.
  - done.
  - done.
  - apply serve_mode.
  - done.
  - done.
  - intros _. apply the_seats.
  - intros id Hin. destruct (reqs_of loop !! id) as [r|] eqn:Hr.
    2:{ exfalso. repeat (apply elem_of_cons in Hin as [->|Hin]; [by vm_compute in Hr|]).
        by apply elem_of_nil in Hin. }
    exists r. split; [done|]. change (table_of loop) with tbl. change (sent_of loop) with (@nil (list StreamEntry)).
    destruct (serve_cases id r Hr) as [[-> ->]|[[-> ->]|[-> ->]]]; split; try done; intros _.
    + split; [apply tracked0|done|]. intros _. split; [apply running0|by vm_compute].
    + split; [apply tracked1|done|]. intros _. split; [apply running1|by vm_compute].
    + split; [done|done|done|]. intros _. apply running2.
  - intros i j r r' Hr Hr' E.
    destruct (serve_cases i r Hr) as [[-> ->]|[[-> ->]|[-> ->]]], (serve_cases j r' Hr') as [[-> ->]|[[-> ->]|[-> ->]]]; done.
  - intros id r Hr Hd. destruct (serve_cases id r Hr) as [[-> ->]|[[-> ->]|[-> ->]]]; [apply tracked0|apply tracked1|done].
Qed.

End DemoServe.

(** ** Claims *)

Module ServingClaims.

(** C1: The promise to the clients over any number of iterations of the loop.
    Whatever tokens the decode passes propose, however the batch shrinks,
    and even when the server runs out of memory: everything the client of a
    deterministic request has received is the beginning of the reference
    generation of its prompt. *)
Theorem decode_loop_streams_reference `{Externals} `{Model}
    (V : SamplingParams → list Z → Z) (N w : Z) slots
    (forward : Z → ScheduleBatch → GenerationBatchResult) n (l : Loop ChunkCache) :
  fixed_shape_determinism V N w → 0 < w →
  (∀ i b, length (next_token_ids (forward i b)) = length (b_reqs b)) →
  serving V N w slots l →
  ∃ res l', decode_loop forward n l = (res, l') ∧ (res = Raise ValueError ∨ ∃ b, res = Ok b) ∧
    ∀ id r, reqs_of l !! id = Some r → is_deterministic r = true →
      ∃ k : nat, streamed (sent_of l') (rid r) = gen (V (sampling_params r)) (origin_input_ids r) k.
Proof.
  intros Hdet Hw Hlen Sv.
  exact (decode_loop_serving V N w slots forward Hlen n l Hdet Hw Sv).
Qed.

#[local] Existing Instance DemoSched.the_model.
#[local] Existing Instance DemoSched.externals.

Lemma decode_loop_streams_reference_witness :
  ∃ res l' k, decode_loop DemoServe.forward 4 DemoServe.loop = (res, l') ∧
    streamed (sent_of l') "r1" = gen (DemoSched.V (sampling_params DemoServe.req1)) [20] k.
Proof.
  destruct (decode_loop_streams_reference DemoSched.V 2 3 DemoServe.slots DemoServe.forward 4 DemoServe.loop
    (Toy.determinism DemoSched.V 2 3 ltac:(lia)) ltac:(lia) DemoServe.forward_length DemoServe.the_server)
    as (res & l' & E & _ & Hall).
  destruct (Hall 1%nat DemoServe.req1) as (k & Hk); [reflexivity|reflexivity|].
  exists res, l', k. split; [exact E|exact Hk].
Defined.

(** C3: The server finishes its requests.  Whole iterations of the event
    loop, each with its attempt to form a prefill batch: when nothing waits,
    no request arrives, the last batch was not a prefill, and the memory
    holds all running requests at their full length, prompt and
    [max_new_tokens], which is positive, together, then any number [n] of
    iterations succeeds and, when [n] is more than [max_new_tokens * w] for
    each of them, all requests are complete: finished, and if deterministic verified to the
    last token and sent up to the stop position, whatever tokens decode
    proposed and verification took back.  The running batch is empty and all
    slots are free. *)
Theorem event_loop_finishes `{Externals} `{Model}
    (V : SamplingParams → list Z → Z) (N w : Z) slots
    (forward : Z → ScheduleBatch → GenerationBatchResult) n (l : Loop ChunkCache) :
  fixed_shape_determinism V N w → 0 < w →
  (∀ i b, length (next_token_ids (forward i b)) = length (b_reqs b)) →
  serving V N w slots l → calm l → demand (reqs_of l) (ids_of l) ≤ len slots →
  (∀ id r, id ∈ ids_of l → reqs_of l !! id = Some r → 0 < max_new_tokens (sampling_params r)) →
  ∃ l', Prefill.event_loop forward n l = (Ok tt, l') ∧
    ((∀ id r, id ∈ ids_of l → reqs_of l !! id = Some r →
        max_new_tokens (sampling_params r) * w < Z.of_nat n) →
     ids_of l' = [] ∧ pool (kv (w_of (sched l'))) ≡ₚ slots ∧
     ∀ id, id ∈ ids_of l → ∃ r', reqs_of l' !! id = Some r' ∧ complete (sent_of l') r').
Proof.
  intros Hdet Hw Hlen Sv Hc Hd Hp.
  destruct (event_loop_calm V N w slots forward Hlen n l Hdet Hw Sv Hc) as (l' & k & E & Sv' & Fo & Hleave & Hend); [|done|].
  { intros id r Hin Hr. by apply (Hp id r Hin Hr). }
  exists l'. split; [done|]. intros Hn.
  assert (Hnil : ids_of l' = []).
  { destruct Hend as [Hnil|[->|(lm & Sm & Bm & Fm)]]; [done|..].
    - destruct (ids_of l) as [|id ids] eqn:El.
      + destruct (ids_of l') as [|id' ids'] eqn:El'; [done|]. assert (Hin : id' ∈ ids_of l).
        { apply (fo_sub _ _ _ _ Fo). rewrite El'. apply list_elem_of_here. }
        rewrite El in Hin. by apply elem_of_nil in Hin.
      + assert (Hin : id ∈ ids_of l) by (rewrite El; apply list_elem_of_here).
        destruct (sv_reqs _ _ _ _ _ Sv id Hin) as (r & Hr & _). rewrite El in Hin. pose proof (Hp id r Hin Hr). pose proof (Hn id r Hin Hr). nia.
    - destruct (busy_rank V N w slots _ l lm Hw Sv Sm Fm Bm) as (id & r & Hin & Hr & Hk).
      pose proof (Hp id r Hin Hr). pose proof (Hn id r Hin Hr).
      pose proof (rank_le V w (sent_of l) r Hw ltac:(lia) (sv_tracked _ _ _ _ _ Sv id r Hr)). lia. }
  split_and!; [done|by apply Sv'|]. intros id Hin. apply Hleave; [done|]. rewrite Hnil. apply not_elem_of_nil.
Qed.

(** Three requests with at most eight tokens each, and windows of three *)
Lemma event_loop_finishes_witness :
  ∃ l', Prefill.event_loop DemoServe.forward 25 DemoServe.loop = (Ok tt, l') ∧ ids_of l' = [] ∧
    pool (kv (w_of (sched l'))) ≡ₚ DemoServe.slots.
Proof.
  destruct (event_loop_finishes DemoSched.V 2 3 DemoServe.slots DemoServe.forward 25 DemoServe.loop
    (Toy.determinism DemoSched.V 2 3 ltac:(lia)) ltac:(lia) DemoServe.forward_length DemoServe.the_server)
    as (l' & E & Hend).
  - by split.
  - by vm_compute.
  - intros id r _ Hr. destruct (DemoServe.serve_cases id r Hr) as [[-> ->]|[[-> ->]|[-> ->]]]; by vm_compute.
  - exists l'. split; [exact E|]. destruct Hend as (Hnil & Hp & _); [|by split].
    intros id r _ Hr. destruct (DemoServe.serve_cases id r Hr) as [[-> ->]|[[-> ->]|[-> ->]]]; by vm_compute.
Defined.

(** The decode passes alone, when the memory may be short: if every running
    request fits into it on its own, a stretch of more than
    [max_new_tokens * w] passes without a prefill does not fail and empties
    the batch, and every request of it is complete or was retracted to the
    queue. *)
Theorem decode_loop_finishes `{Externals} `{Model}
    (V : SamplingParams → list Z → Z) (N w : Z) slots
    (forward : Z → ScheduleBatch → GenerationBatchResult) n (l : Loop ChunkCache) :
  fixed_shape_determinism V N w → 0 < w → (0 < n)%nat →
  (∀ i b, length (next_token_ids (forward i b)) = length (b_reqs b)) →
  serving V N w slots l →
  (∀ id r, id ∈ ids_of l → reqs_of l !! id = Some r →
     len (origin_input_ids r) + max_new_tokens (sampling_params r) ≤ len slots ∧
     0 ≤ max_new_tokens (sampling_params r) ∧
     max_new_tokens (sampling_params r) * w < Z.of_nat n) →
  ∃ l', decode_loop forward n l = (Ok false, l') ∧ ids_of l' = [] ∧ pool (kv (w_of (sched l'))) ≡ₚ slots ∧
    ∀ id, id ∈ ids_of l → ∃ r', reqs_of l' !! id = Some r' ∧
      (complete (sent_of l') r' ∨ is_retracted r' = true).
Proof.
  intros Hdet Hw Hn0 Hlen Sv Hfit.
  destruct (decode_loop_ok V N w slots forward Hlen n l Hdet Hw Sv) as (res & l' & E & Hres).
  destruct Hres as [(-> & lm & k & S & Fo & Es & Hbig)|(b & -> & S & Hb)].
  - exfalso. eapply (fits_not_large V N w slots k l lm); [done..| |exact Hbig].
    intros id r Hin Hr. apply (Hfit id r Hin Hr).
  - destruct b.
    + exfalso. destruct Hb as [_ [->|(lm & Sm & Bm & Fm)]]; [lia|].
      destruct (busy_rank V N w slots _ l lm Hw Sv Sm Fm Bm) as (id & r & Hin & Hr & Hk).
      destruct (Hfit id r Hin Hr) as (_ & Hm & Hn).
      pose proof (rank_le V w (sent_of l) r Hw Hm (sv_tracked _ _ _ _ _ Sv id r Hr)). lia.
    + destruct Hb as [Hnil [k Fo]]. exists l'. split_and!; [done|done|by apply S|]. intros id Hin.
      destruct (sv_reqs _ _ _ _ _ Sv id Hin) as (r & Hr & _).
      destruct (fo_reqs _ _ _ _ Fo id r Hr) as (r' & Hr' & _ & _ & Hc & _). exists r'. split; [done|].
      apply Hc; [done|]. rewrite Hnil. apply not_elem_of_nil.
Qed.

Lemma decode_loop_finishes_witness :
  ∃ l', decode_loop DemoServe.forward 25 DemoServe.loop = (Ok false, l') ∧ ids_of l' = [] ∧
    pool (kv (w_of (sched l'))) ≡ₚ DemoServe.slots.
Proof.
  destruct (decode_loop_finishes DemoSched.V 2 3 DemoServe.slots DemoServe.forward 25 DemoServe.loop
    (Toy.determinism DemoSched.V 2 3 ltac:(lia)) ltac:(lia) ltac:(lia) DemoServe.forward_length DemoServe.the_server)
    as (l' & E & Hnil & Hp & _).
  - intros id r _ Hr. destruct (DemoServe.serve_cases id r Hr) as [[-> ->]|[[-> ->]|[-> ->]]]; by vm_compute.
  - exists l'. split; [exact E|split; [exact Hnil|exact Hp]].
Defined.

(** C4: The loop loses no KV slot and hands none out twice: after any number
    of iterations, with rollbacks, completions and retractions, the free
    slots and those the running requests hold are the same as before, each
    exactly once. *)
Theorem decode_loop_conserves_slots `{Externals} `{Model}
    (V : SamplingParams → list Z → Z) (N w : Z) slots
    (forward : Z → ScheduleBatch → GenerationBatchResult) n (l : Loop ChunkCache) :
  fixed_shape_determinism V N w → 0 < w →
  (∀ i b, length (next_token_ids (forward i b)) = length (b_reqs b)) →
  serving V N w slots l →
  ∃ res l', decode_loop forward n l = (res, l') ∧
    ∀ b, res = Ok b →
      pool (kv (w_of (sched l'))) ++ held_ids (table_of l') (reqs_of l') (ids_of l') ≡ₚ slots.
Proof.
  intros Hdet Hw Hlen Sv.
  destruct (decode_loop_ok V N w slots forward Hlen n l Hdet Hw Sv) as (res & l' & E & Hres).
  exists res, l'. split; [done|]. intros b ->.
  destruct Hres as [(E' & _)|(b' & _ & S & _)]; [done|].
  destruct (decide (ids_of l' = [])) as [Hnil|Hne].
  - rewrite Hnil. cbn. rewrite app_nil_r. by apply S.
  - exact (sd_slots _ _ _ (sv_seated _ _ _ _ _ S Hne)).
Qed.

Lemma decode_loop_conserves_slots_witness :
  ∃ res l', decode_loop DemoServe.forward 4 DemoServe.loop = (res, l') ∧
    ∀ b, res = Ok b →
      pool (kv (w_of (sched l'))) ++ held_ids (table_of l') (reqs_of l') (ids_of l') ≡ₚ DemoServe.slots.
Proof.
  exact (decode_loop_conserves_slots DemoSched.V 2 3 DemoServe.slots DemoServe.forward 4 DemoServe.loop
    (Toy.determinism DemoSched.V 2 3 ltac:(lia)) ltac:(lia) DemoServe.forward_length DemoServe.the_server).
Defined.

End ServingClaims.
