(* ===== verification/DetokClaims.v ===== *)
(** * The text a client receives *)

From S2P Require Import Prelude PyFloat Allocator Request ReqPool LLM42Info Demo InfoFacts World MemCommon LLM42Worker Verifier Scheduler OutputProcessor OutputFacts DecodeClaims EventLoop Serving ServingClaims Detokenizer DetokFacts DetokBatch TokenizerManager Responses DetokStream.
Import Detokenizer TokenizerManager.

(** ** A byte-level tokenizer

    Ids below 256 are bytes of UTF-8 text with characters of one or two
    bytes, the others are whole characters.  What is not UTF-8 is decoded as
    replacement characters. *)

Module DemoText.

Definition trailing (y : Z) : bool := (128 <=? y) && (y <? 192).

Fixpoint utf8 (ids : list Z) : PyStr :=
  match ids with
  | [] => []
  | x :: ids' =>
      if (x <? 128) || (256 <=? x) then x :: utf8 ids'
      else if x <? 192 then Text.REPLACEMENT :: utf8 ids'
      else match ids' with
           | y :: ids'' => if trailing y then (x - 192) * 64 + (y - 128) :: utf8 ids''
                           else Text.REPLACEMENT :: utf8 ids'
           | [] => [Text.REPLACEMENT]
           end
  end.

#[export] Instance tokenizer : TextTokenizer := {
  decode _ _ := utf8;
  batch_decode _ _ idss := utf8 <$> idss
}.

Lemma utf8_nil ids : utf8 ids = [] → ids = [].
Proof.
  destruct ids as [|x ids]; [done|]. cbn. repeat case_match; done.
Qed.

Lemma last_cons_ne {A} (x : A) l : l ≠ [] → last (x :: l) = last l.
Proof. by destruct l. Qed.

(** Two-step induction, as [utf8] recurs *)
Lemma two_step (P : list Z → Prop) :
  P [] → (∀ x, P [x]) → (∀ x y l, P (y :: l) → P l → P (x :: y :: l)) → ∀ l, P l.
Proof.
  intros H0 H1 H2. assert (HH : ∀ l, P l ∧ ∀ x, P (x :: l)); [|by intros l; apply HH].
  induction l as [|y l [IH1 IH2]]; [by split|]. split; [by apply IH2|]. intros x. by apply H2; [apply IH2|].
Qed.

(** Where no character is open the texts concatenate. *)
Lemma utf8_app l c : last (utf8 l) ≠ Some Text.REPLACEMENT → utf8 (l ++ c) = utf8 l ++ utf8 c.
Proof.
  revert c. induction l as [|x|x y l IH1 IH2] using two_step; intros c Hl; [done| |].
  - cbn in *. destruct ((x <? 128) || (256 <=? x)); [done|]. destruct (x <? 192); done.
  - assert (E1 : ∀ z, last (z :: utf8 (y :: l)) ≠ Some Text.REPLACEMENT → z :: utf8 ((y :: l) ++ c) = (z :: utf8 (y :: l)) ++ utf8 c).
    { intros z Hz. rewrite IH1; [done|]. rewrite last_cons_ne in Hz; [done|]. by intros ?%utf8_nil. }
    change ((x :: y :: l) ++ c) with (x :: (y :: l) ++ c). cbn [utf8] in Hl |- *.
    fold (utf8 (y :: l)) in Hl |- *. fold (utf8 ((y :: l) ++ c)).
    destruct ((x <? 128) || (256 <=? x)); [by apply E1|]. destruct (x <? 192); [by apply E1|].
    change ((y :: l) ++ c) with (y :: l ++ c). cbv iota. destruct (trailing y).
    + destruct l as [|z l]; [done|]. rewrite IH2; [done|]. rewrite last_cons_ne in Hl; [done|]. by intros ?%utf8_nil.
    + by apply (E1 Text.REPLACEMENT).
Qed.

(** The end of the text is that of the last tokens, when they add to it. *)
Lemma utf8_last s b :
  (length (utf8 s) < length (utf8 (s ++ b)))%nat → last (utf8 b) = last (utf8 (s ++ b)).
Proof.
  revert b. induction s as [|x|x y l IH1 IH2] using two_step; intros b Hl; [done| |].
  - assert (E : ∀ z, (1 < length (z :: utf8 b))%nat → last (utf8 b) = last (z :: utf8 b)).
    { intros z Hz. rewrite last_cons_ne; [done|]. intros E. by rewrite E in Hz; cbn in Hz; lia. }
    cbn [app utf8] in Hl |- *. destruct ((x <? 128) || (256 <=? x)); [by apply E|]. destruct (x <? 192); [by apply E|].
    cbn [length] in Hl. destruct b as [|y b]; [cbn in Hl; lia|]. destruct (trailing y) eqn:Ey; [|by apply (E Text.REPLACEMENT)].
    cbn [utf8]. unfold trailing in Ey. apply andb_prop in Ey as [Y1 Y2].
    destruct ((y <? 128) || (256 <=? y)) eqn:Ey'; [lia|]. rewrite Y2.
    assert (utf8 b ≠ []) by (intros E'; rewrite E' in Hl; cbn in Hl; lia). by rewrite !last_cons_ne.
  - assert (E : ∀ z z', (length (z :: utf8 (y :: l)) < length (z' :: utf8 ((y :: l) ++ b)))%nat →
      last (utf8 b) = last (z' :: utf8 ((y :: l) ++ b))).
    { intros z z' Hz. rewrite last_cons_ne; [apply IH1; cbn [length] in Hz; lia|]. by intros ?%utf8_nil. }
    change ((x :: y :: l) ++ b) with (x :: (y :: l) ++ b) in *. cbn [utf8] in Hl |- *.
    fold (utf8 (y :: l)) in Hl. fold (utf8 ((y :: l) ++ b)) in Hl |- *.
    destruct ((x <? 128) || (256 <=? x)); [by eapply E|]. destruct (x <? 192); [by eapply E|].
    change ((y :: l) ++ b) with (y :: l ++ b) in *. cbv iota in Hl |- *. destruct (trailing y).
    + cbn [length] in Hl. rewrite (IH2 b) by lia. destruct (utf8 (l ++ b)) eqn:E'; [|done]. cbn in Hl. lia.
    + by eapply (E Text.REPLACEMENT Text.REPLACEMENT).
Qed.

Lemma strip_cons z t t2 :
  TextFacts.strip t `prefix_of` t2 → TextFacts.strip (z :: t) `prefix_of` z :: t2.
Proof.
  intros Hp. cbn. destruct (TextFacts.strip t) as [|u us]; [|by apply prefix_cons].
  destruct (z =? _); [apply prefix_nil|]. apply prefix_cons, prefix_nil.
Qed.

Lemma strip_drop n t : TextFacts.strip (drop n t) = drop n (TextFacts.strip t).
Proof.
  revert n. induction t as [|x t IH]; intros [|n]; [done..|]. cbn [drop]. rewrite IH. cbn [TextFacts.strip].
  destruct (TextFacts.strip t) as [|u us]; [|done]. rewrite drop_nil. by destruct (x =? _); [|cbn; rewrite drop_nil].
Qed.

Lemma utf8_grow l c : TextFacts.strip (utf8 l) `prefix_of` utf8 (l ++ c).
Proof.
  revert c. induction l as [|x|x y l IH1 IH2] using two_step; intros c; [apply prefix_nil| |].
  - cbn [app utf8]. destruct ((x <? 128) || (256 <=? x)); [apply strip_cons, prefix_nil|].
    destruct (x <? 192); [apply strip_cons, prefix_nil|]. apply prefix_nil.
  - change ((x :: y :: l) ++ c) with (x :: (y :: l) ++ c). cbn [utf8].
    fold (utf8 (y :: l)). fold (utf8 ((y :: l) ++ c)).
    destruct ((x <? 128) || (256 <=? x)); [by apply strip_cons|]. destruct (x <? 192); [by apply strip_cons|].
    change ((y :: l) ++ c) with (y :: l ++ c). cbv iota. destruct (trailing y); [by apply strip_cons|].
    apply (strip_cons _ (utf8 (y :: l)) (utf8 ((y :: l) ++ c))). apply IH1.
Qed.

Lemma last_drop_lt {A} n (l : list A) : (n < length l)%nat → last (drop n l) = last l.
Proof.
  revert l. induction n as [|n IH]; intros [|x l] Hn; [done..|cbn in Hn; lia|]. cbn [drop length] in *.
  rewrite last_cons_ne by (intros ->; cbn in Hn; lia). apply IH. lia.
Qed.

Lemma utf8_incremental : incremental utf8.
Proof.
  split; unfold text_after.
  - intros s b c [Hne Hl]. set (n := length (utf8 s)) in *.
    assert (Hlen : (n < length (utf8 (s ++ b)))%nat).
    { destruct (decide (n < length (utf8 (s ++ b)))%nat); [done|]. destruct Hne. apply drop_ge. lia. }
    rewrite last_drop_lt in Hl by done. rewrite app_assoc, (utf8_app (s ++ b)) by done.
    rewrite drop_app_le by lia. f_equal. rewrite utf8_app by (by rewrite (utf8_last s b)). by rewrite drop_app_length.
  - intros s b c. rewrite strip_drop. destruct (utf8_grow (s ++ b) c) as [r Er]. rewrite app_assoc, Er, drop_app.
    apply prefix_app_r. done.
Qed.

Lemma batches : batch_decodes.
Proof. done. Qed.

(** A row of the request [k], with [r] tokens of its prompt *)
Definition row (k : string) (f : option FinishReason) (ids : list Z) (r : Z) : StreamEntry :=
  mkStreamEntry k f "" ids r ids true true false 0 0 0 0 0 0 None None.
End DemoText.

Module DetokClaims.



#[local] Existing Instance DemoText.tokenizer.



(** C6: From the scheduler's tokens to what a client is given.  Four things
    are asked of the requests.  Their rows are those [stream_output] makes for
    verified requests, in calls between which anything may happen to a
    request that leaves its cursors alone; no request is verified beyond the
    stop position of a finish that was rolled back ([may_send]); no row
    leaves half a character right behind a CJK character ([printable]); and
    the server does not give a streaming client its tokens in pieces
    ([stream_output]).  Then the detokenizer answers every message; and
    however the tokenizer manager's receiving task and the waiting tasks of
    the requests interleave, while no request is aborted, no message fails,
    every output a client is given has a prefix of the text of its verified
    tokens behind the end of its prompt, and the output that ends the
    response has all of it up to the stop condition, and all the tokens. *)
Theorem client_is_given_text_of_tokens `{Externals} `{TextTokenizer} {V : Type} (token_texts : list Z → list PyStr)
    (a : ServerArgs) (objs : list ReqInput) (bs : list (list StreamEntry)) (n : Z) (gpt db so skip : bool) (req req' : string → Req) :
  let K := i_rid <$> objs in
  default_stream_interval a ≠ 0 → is_multimodal_gen a = false → batch_decodes → len K ≤ n → NoDup K →
  Forall (λ obj, so && i_stream obj = false) objs →
  Forall (λ rows, NoDup (e_rid <$> rows) ∧ Forall (of_request K) rows) bs → (∀ k, k ∈ K → streams a bs gpt req req' k) →
  ∃ sent m', event_loop (BatchTokenIDOutput <$> bs) (new_manager n gpt db) = (Ok sent, m') ∧
    ∀ evs, received (V := V) evs `prefix_of` sent → Forall (text_event objs) evs →
      ∃ given x, serve token_texts evs (opened objs so skip, []) = (Ok given, x) ∧
        ∀ i obj out, objs !! i = Some obj →
          let text := token_text bs gpt req (i_rid obj) in
          let rows := rows_of (i_rid obj) bs in
          ((i, Yields out) ∈ given → rows ≠ [] → ∃ t, od_text out = Some t ∧ t `prefix_of` text) ∧
          ((i, Returns out) ∈ given → ∃ t, od_text out = Some t ∧ text_of_rows text t rows ∧
             od_output_ids out = Some (concat (e_output_ids <$> rows))).
Proof.
  intros K Hd Hmm Hb Hn Hnd Hw Hbs Hk.
  destruct (streamed_text (E := list (EmbeddingRow V)) a K bs n gpt db req req' Hd Hmm Hb Hn Hbs Hk) as (sent & m' & E1 & Ha & Ht).
  exists sent, m'. split; [done|]. intros evs Hp Hev.
  destruct (serve_opened token_texts objs so skip evs Hnd Hw Hev) as (given & x & E2 & Hs). exists given, x. split; [done|].
  intros i obj out Hi. assert (HkK : i_rid obj ∈ K) by (apply list_elem_of_fmap_2; by eapply list_elem_of_lookup_2).
  pose proof (good_closing gpt _ _ (streams_good a bs gpt req req' _ Hd Hmm (Hk _ HkK))) as Hc.
  destruct (given_text objs bs sent evs given x i obj Ha Hp Hs Hi Hc) as [G1 G2]. split.
  - intros Hin Hne. destruct (G1 out (or_introl Hin)) as (t & Et & Hpt). exists t. split; [done|].
    trans (concat (client_strs (i_rid obj) sent)); [done|]. by apply Ht.
  - intros Hin. destruct (G2 out Hin) as (Et & Eo & Hne). exists (concat (client_strs (i_rid obj) sent)).
    split_and!; [done|by apply Ht|done].
Qed.

(** A request that streams: two tokens are verified when the first row is
    sent, the last two when the request has finished with its stop token. *)
#[local] Existing Instance DemoSched.externals.
#[local] Existing Instance DemoSched.the_model.

Definition demo_args : ServerArgs := mkServerArgs true false false 1 None 1000.
Definition req_start : Req := Demo.req "a" (Some 0) [97; 98] [99; 195] 2.
Definition sent_one (r : Req) : StreamEntry * Req :=
  match Stream.stream_one demo_args false r with Ok (Some e, r') => (e, r') | _ => (DemoText.row "" None [] 0, r) end.
Definition row_start : StreamEntry := Eval vm_compute in (sent_one req_start).1.
Definition req_sent : Req := Eval vm_compute in (sent_one req_start).2.
Definition req_end : Req := Eval vm_compute in
  req_sent <| output_ids := [99; 195; 169; 2] |> <| llm42_verified_tokens := 4 |>
           <| finished_reason := Some (FINISH_MATCHED_TOKEN 2) |> <| finished_len := Some 4 |>.
Definition row_end : StreamEntry := Eval vm_compute in (sent_one req_end).1.
Definition req_done : Req := Eval vm_compute in (sent_one req_end).2.
Definition sent_batches : list (list StreamEntry) := [[row_start]; [row_end]].

Lemma start_may_send : may_send demo_args req_start.
Proof. by repeat split. Qed.

Lemma end_may_send : may_send demo_args req_end.
Proof. repeat split; try done. by intros f [= <-]. Qed.

Lemma demo_sends : sends demo_args req_start [row_start; row_end] req_done.
Proof.
  apply (sends_call demo_args req_start (Some row_start) req_sent [row_end]); [exact start_may_send|by vm_compute|done|].
  apply (sends_other demo_args req_sent req_end); [reflexivity|reflexivity|].
  apply (sends_call demo_args req_end (Some row_end) req_done []); [exact end_may_send|by vm_compute| |constructor].
  by intros e z [= <-].
Qed.

Definition demo_obj : ReqInput := mkReqInput "a" true false false false.

Definition demo_sent : list (StrMsg (list (EmbeddingRow unit))) := Eval vm_compute in
  match (event_loop (BatchTokenIDOutput <$> sent_batches) (new_manager 1 false true)).1 with Ok sent => sent | Raise _ => [] end.

(** The task wakes after the first message, and after the second. *)
Definition demo_events : list (Ev (V := unit)) :=
  match demo_sent with
  | [m1; m2] => [Recv (FromDetokenizer m1); Wake 0 false; Recv (FromDetokenizer m2); Wake 0 false]
  | _ => []
  end.

Lemma client_is_given_text_of_tokens_witness :
  ∃ given x, serve (λ _, []) demo_events (opened [demo_obj] false false, []) = (Ok given, x) ∧
    ∀ out, (0%nat, Returns out) ∈ given →
      ∃ t, od_text out = Some t ∧ text_of_rows (text_after DemoText.utf8 [97; 98] [97; 98; 99; 195; 169]) t [row_start; row_end] ∧
        od_output_ids out = Some [99; 195; 169; 2].
Proof.
  destruct (client_is_given_text_of_tokens (V := unit) (λ _, []) demo_args [demo_obj] sent_batches 1 false true false false
    (λ _, req_start) (λ _, req_done)) as (sent & m' & E & Hk).
  - done.
  - done.
  - exact DemoText.batches.
  - done.
  - by (apply (bool_decide_unpack _); vm_compute).
  - by repeat constructor.
  - repeat constructor; by (apply (bool_decide_unpack _); vm_compute).
  - intros k Hk. apply list_elem_of_singleton in Hk as ->. split.
    + exact DemoText.utf8_incremental.
    + by split.
    + done.
    + exact demo_sends.
    + by vm_compute.
  - destruct (Hk demo_events) as (given & x & E2 & Hout).
    + assert (Es : sent = demo_sent).
      { apply (f_equal fst) in E. vm_compute in E. by injection E as <-. }
      rewrite Es. by exists [].
    + repeat (apply Forall_cons; split; [first [by eexists|by repeat constructor]|]). constructor.
    + exists given, x. split; [exact E2|]. intros out Hin. by apply (Hout 0%nat demo_obj out eq_refl).
Defined.

(** C8: A client is never given stale or partial outputs, on a server that
    gives tokens in full, that is without [--stream-output] or for clients
    that do not stream.  Under any interleaving of messages with text and
    turns of the waiting tasks, without messages of aborts, every output
    shows exactly the rows received up to some moment, text, tokens and
    finish; an output that ends the response shows all rows up to the
    finish; and once the finish has been received, the next turn of the task,
    whenever it comes, ends the response with it, unless the finish is an
    abort with an HTTP status. *)
Theorem responses_are_up_to_date {V : Type} (token_texts : list Z → list PyStr) (objs : list ReqInput) (so skip : bool)
    (evs : list (Ev (V := V))) :
  NoDup (i_rid <$> objs) → Forall (λ obj, so && i_stream obj = false) objs → Forall (text_event objs) evs →
  ∃ given x, serve token_texts evs (opened objs so skip, []) = (Ok given, x) ∧
    ∀ i obj, objs !! i = Some obj →
      let rows pre := own_rows (i_rid obj) (pairs_of pre) in
      (∀ out, (i, Yields out) ∈ given ∨ (i, Returns out) ∈ given → ∃ pre, pre `prefix_of` evs ∧ shows (rows pre) out) ∧
      (∀ out, (i, Returns out) ∈ given → shows (rows evs) out ∧ is_Some (finish_of (rows evs))) ∧
      (∀ f gone, finish_of (rows evs) = Some f → (∀ msg c, f ≠ FINISH_ABORT msg (Some c)) → i ∉ x.2 →
         ∃ out x', serve_one token_texts (Wake i gone) x = (Ok [(i, Returns out)], x') ∧ shows (rows evs) out).
Proof.
  intros Hnd Hw Hev. destruct (serve_opened token_texts objs so skip evs Hnd Hw Hev) as (given & [m ended] & E & [Hm Hs Hr]).
  exists given, (m, ended). split; [done|]. intros i obj Hi. split_and!; [by intros out; apply Hs|by intros out; apply Hr|].
  intros f gone Hf Herr Hne. cbn [fst snd] in *. unfold serve_one. rewrite decide_False by done.
  destruct (turn_ok objs m ended (pairs_of evs) i gone obj Hm Hi Hne) as (r & m' & Et & Hsh & _ & Hret).
  destruct (Hret f Hf Herr) as [out ->]. rewrite Et. eexists out, _. split; [reflexivity|]. apply Hsh.
Qed.

Lemma responses_are_up_to_date_witness :
  ∃ given x, serve (λ _, []) demo_events (opened [demo_obj] false false, []) = (Ok given, x) ∧
    ∀ out, (0%nat, Returns out) ∈ given → shows (own_rows "a" (pairs_of demo_events)) out.
Proof.
  destruct (responses_are_up_to_date (V := unit) (λ _, []) [demo_obj] false false demo_events) as (given & x & E & Hk).
  - by (apply (bool_decide_unpack _); vm_compute).
  - by repeat constructor.
  - repeat (apply Forall_cons; split; [first [by eexists|by repeat constructor]|]). constructor.
  - exists given, x. split; [exact E|]. intros out Hin. by apply (Hk 0%nat demo_obj eq_refl).
Defined.

(** C39: On a server that streams outputs in pieces a client that reads late
    loses tokens.  Whatever rows of a streaming request have arrived since
    the last turn of its waiting task, each in a message of its own, the turn
    gives one output: its text is all the text, but its tokens are those of
    the last row only.  The tokens of the rows before it, which no output
    has, lie before the offset from which later outputs start. *)
Theorem late_reader_loses_tokens {V : Type} (token_texts : list Z → list PyStr) (m : TokenizerManager V)
    (ended : list nat) (k : string) (id : nat) (s : ReqState V) (rows : list (StreamEntry * PyStr)) (e : StreamEntry) (t : PyStr)
    (gone : bool) :
  piece_ok m k id s → id ∉ ended → Forall (goes_on k) rows → e_rid e = k → logprobs_ok e →
  (∀ msg c, e_finished_reason e ≠ Some (FINISH_ABORT msg (Some c))) →
  let rows' := rows ++ [(e, t)] in
  ∃ turn out m' ended' s',
    serve token_texts ((Recv <$> (one_row <$> rows')) ++ [Wake id gone]) (m, ended) = (Ok [(id, turn)], (m', ended')) ∧
    turn = (if e_finished_reason e is Some _ then Returns out else Yields out) ∧
    od_text out = Some (rs_text s ++ text_of rows') ∧ od_output_ids out = Some (e_output_ids e) ∧
    states m' !! id = Some s' ∧ out_list s' = [] ∧ rs_output_ids s' = rs_output_ids s ++ ids_received rows' ∧
    last_output_offset s' = len (rs_output_ids s').
Proof.
  intros Hm Hne F Hk Hl Hf rows'. destruct (piece_rows token_texts rows m k id s Hm F) as (s1 & m1 & E1 & Hm1 & T1 & T2 & T3).
  destruct (piece_row token_texts m1 k id s1 e t Hm1 Hk Hl) as (s2 & m2 & out & E2 & G & Hs2 & _ & O1 & O2 & O3 & O4).
  destruct (piece_turn m2 id s2 out gone Hs2 (gr_event _ _ _ _ _ G) O1) as (turn & m' & s' & E3 & Ht & Hs' & Q1 & Q2 & Q3).
  { rewrite (gr_obj _ _ _ _ _ G). by destruct (andb_prop _ _ (pc_pieces _ _ _ _ Hm1)). }
  { by rewrite O4. }
  destruct (rows_snoc rows e t) as (R1 & R2 & R3). rewrite (gr_finished _ _ _ _ _ G) in Ht.
  exists turn, out, m', (if e_finished_reason e is Some _ then ended ++ [id] else ended), s'. subst rows'. split_and!; try done.
  - unfold serve. rewrite (serve_recv _ (one_row <$> rows ++ [(e, t)]) m m2); cycle 1.
    { rewrite fmap_app, for_app, E1. cbn [fmap list_fmap for_]. by rewrite E2. }
    cbn [foldM]. unfold mbind, M_bind, serve_one. rewrite decide_False by done. rewrite E3, Ht. by destruct (e_finished_reason e).
  - by destruct (e_finished_reason e).
  - by rewrite O2, T1, <- app_assoc, R2.
  - by rewrite Q2, (gr_ids _ _ _ _ _ G), T2, <- app_assoc, R3.
  - by rewrite Q3, Q2, (gr_offset _ _ _ _ _ G).
Qed.

(** Two messages before the turn: the output has the text of both, and the
    token of the second. *)
Lemma late_reader_loses_tokens_witness :
  let rows := [(DemoText.row "a" None [97] 0, [97])] in
  let e := DemoText.row "a" (Some (FINISH_LENGTH 2)) [98] 0 in
  ∃ out x, serve (λ _, []) ((Recv <$> (one_row <$> (rows ++ [(e, [98])]))) ++ [Wake 0 false])
      (opened (V := unit) [demo_obj] true false, []) = (Ok [(0%nat, Returns out)], x) ∧
    od_text out = Some [97; 98] ∧ od_output_ids out = Some [98].
Proof.
  destruct (late_reader_loses_tokens (V := unit) (λ _, []) (opened [demo_obj] true false) [] "a" 0 (TokenizerManager.new_state demo_obj)
    [(DemoText.row "a" None [97] 0, [97])] (DemoText.row "a" (Some (FINISH_LENGTH 2)) [98] 0) [98] false)
    as (turn & out & m' & ended' & s' & E & Ht & Ot & Oi & _).
  - by split.
  - by apply (bool_decide_unpack _); vm_compute.
  - by repeat constructor.
  - done.
  - done.
  - done.
  - exists out, (m', ended'). by rewrite Ht in E.
Defined.

(** The abort of a queued request ends its response, but its state stays in
    [rid_to_state]. *)
Lemma aborted_state_stays :
  ∃ out m, serve (λ _, []) [Recv (Aborted (mkAbortReq "a" false None None)); Wake 0 false]
      (opened (V := unit) [demo_obj] false false, []) = (Ok [(0%nat, Returns out)], (m, [0%nat])) ∧
    m_finish_reason (od_meta out) = Some (FINISH_ABORT "Abort in waiting queue" None) ∧
    rid_to_state m !! "a" = Some 0%nat.
Proof. eexists _, _. split; [vm_compute; reflexivity|]. by split. Qed.

(** C40: Text can be sent twice.  For any tokenizer and any interleaving
    with messages of other requests: when the first row of a request leaves
    half a character right behind a CJK character [c], the second leaves half
    a character right behind another one, with no space after [c], and the
    third completes the text, then the client gets the text up to [c], and
    then, from the last space on, all of it again: [find_printable_text]
    first prints [c] and what precedes it, then less, and the offset of what
    was sent goes back. *)
Theorem cjk_text_is_sent_twice `{TextTokenizer} {E : Type} (K : list string) (bs : list (list StreamEntry)) (n : Z) (gpt db : bool)
    (e1 e2 e3 : StreamEntry) (p a : list Z) (u : PyStr) (c : Z) (t t' : PyStr) :
  batch_decodes → len K ≤ n → Forall (λ rows, NoDup (e_rid <$> rows) ∧ Forall (of_request K) rows) bs →
  (∀ k, k ∈ K → k ≠ e_rid e1 → is_ok (run_rows gpt None (rows_of k bs)) = true) →
  e_rid e1 ∈ K → rows_of (e_rid e1) bs = [e1; e2; e3] →
  Forall (λ e, e_finished_reason e = None ∧ decode_of e = decode_of e1) [e1; e2; e3] →
  e_decode_ids e1 = p ++ a → e_read_offset e1 = len p → e_decoded_text e1 = EmptyString →
  takes_back (decode_of e1) p a (e_decode_ids e2) (e_decode_ids e3) u c t t' →
  ∃ sent m', event_loop (E := E) (BatchTokenIDOutput <$> bs) (new_manager n gpt db) = (Ok sent, m') ∧
    concat (client_strs (e_rid e1) sent) = (u ++ [c]) ++ slice_from t' (Text.rfind t Text.SPACE + 1).
Proof.
  intros Hb Hn Hbs Hother HK Hrows F Ei Er Et Ht. destruct (taken_back gpt e1 e2 e3 p a u c t t' F Ei Er Et Ht) as [o Erun].
  destruct (event_loop_rows (E := E) K bs (new_manager n gpt db) Hb eq_refl (new_fits K n gpt db Hn) Hbs)
    as (sent & m' & E1 & _ & _ & Hk).
  { intros k Hk. destruct (decide (k = e_rid e1)) as [->|Hne]; [|by apply Hother].
    change (is_ok (run_rows gpt None (rows_of (e_rid e1) bs)) = true). by rewrite Hrows, Erun. }
  exists sent, m'. split; [done|]. specialize (Hk _ HK).
  change (run_rows gpt None (rows_of (e_rid e1) bs) = Ok (status_of m' (e_rid e1), client_strs (e_rid e1) sent)) in Hk.
  rewrite Hrows, Erun in Hk. injection Hk as _ <-. cbn [concat]. by rewrite app_nil_r.
Qed.

(** The text [漢éü], of which [漢] is sent twice *)
Lemma cjk_text_is_sent_twice_witness :
  let rows := [DemoText.row "r" None [97; 0x6F22; 195] 1; DemoText.row "r" None [169; 195] 1; DemoText.row "r" None [188] 1] in
  text_after DemoText.utf8 [97] (concat (e_decode_ids <$> rows)) = [0x6F22; 233; 252] ∧
  ∃ sent m', event_loop (E := unit) (BatchTokenIDOutput <$> ((λ e, [e]) <$> rows)) (new_manager 8 false false) = (Ok sent, m') ∧
    concat (client_strs "r" sent) = [0x6F22; 0x6F22; 233; 252].
Proof.
  intros rows. split; [by vm_compute|].
  apply (cjk_text_is_sent_twice ["r"] ((λ e, [e]) <$> rows) 8 false false (DemoText.row "r" None [97; 0x6F22; 195] 1)
    (DemoText.row "r" None [169; 195] 1) (DemoText.row "r" None [188] 1) [97] [0x6F22; 195] [] 0x6F22
    [0x6F22; 233; Text.REPLACEMENT] [0x6F22; 233; 252]).
  - exact DemoText.batches.
  - done.
  - repeat constructor; by (apply (bool_decide_unpack _); vm_compute).
  - intros k Hk Hne. by apply list_elem_of_singleton in Hk.
  - by left.
  - by vm_compute.
  - by repeat constructor.
  - done.
  - done.
  - done.
  - split; by vm_compute.
Defined.

(** A request whose status is evicted gets a new one, without an error:
    with room for one request, two that take turns each lose what they had,
    and the text of the second row is taken for the end of a prompt. *)
Theorem evicted_status_drops_text :
  let rows := [DemoText.row "r0" None [97; 98] 1; DemoText.row "r1" None [120; 121] 1; DemoText.row "r0" None [99] 1] in
  ∃ sent m', event_loop (E := unit) (BatchTokenIDOutput <$> ((λ e, [e]) <$> rows)) (new_manager 1 false false) = (Ok sent, m') ∧
    text_after DemoText.utf8 [97] [97; 98; 99] = [98; 99] ∧ concat (client_strs "r0" sent) = [98].
Proof. eexists _, _. split; [vm_compute; reflexivity|]. split; vm_compute; reflexivity. Qed.




End DetokClaims.
