(* ===== verification/AdmissionClaims.v ===== *)
(** * Claims on starting requests *)

From S2P Require Import Prelude PyFloat Allocator AllocatorFacts Request ReqPool LLM42Info Demo InfoFacts World MemCommon CacheLaws Policy BatchOps LLM42Worker Verifier WorkerFacts VerifyPool WorkerClaims BatchFacts Scheduler OutputProcessor OutputFacts DecodeFacts DecodeStep DecodePass PrefillPass DecodeClaims PrepareFacts ExtendFacts RetractFacts EventLoop Prefill LoopFacts Serving MergeFacts Admission ServingClaims.
Import PoolFacts Batch Finish OneStream VPoolFacts Pass Step EventLoop Prefill.

(** ** A fourth request for the server with three

    Request 3 is deterministic and waits; the prefill pass answers with its
    reference, the decode passes propose token 77 as before. *)

Module DemoStart.

Definition req3 : Req :=
  (Demo.req "r3" None [30; 31] [] 0) <| fill_ids := [30; 31] |> <| extend_input_len := 2 |>.

Definition loop : Loop ChunkCache := arrived 3 req3 DemoServe.loop.
Definition adder : PrefillAdder := Adder.enlist 3 (Adder.init 1 [] [] f_one 16384 None 0 None).

Definition forward (n : Z) (b : ScheduleBatch) : GenerationBatchResult :=
  match b_forward_mode b with
  | Some EXTEND => mkResult ((λ _, DemoSched.V (Demo.params 8 [2]) (default [] (b_input_ids b))) <$> b_reqs b) None None None None
  | _ => DemoServe.forward n b
  end.

Lemma start_forward_length n b : length (next_token_ids (forward n b)) = length (b_reqs b).
Proof. unfold forward. destruct (b_forward_mode b) as [[]|]; apply length_fmap. Qed.

Lemma forward_prefill det : prefill_determinism DemoSched.V forward det.
Proof. intros n b id r Em Eb Ei _ _. unfold forward. by rewrite Em, Eb, Ei. Qed.

#[local] Existing Instance DemoSched.externals.
#[local] Existing Instance DemoSched.the_model.

Lemma tracked3 : tracked DemoSched.V [] req3.
Proof. split; [by DemoServe.here|split; [by DemoServe.here|by vm_compute|done]|done|apply DemoSched.V_vocab]. Qed.

Lemma start_server : serving DemoSched.V 2 3 DemoServe.slots loop.
Proof.
  apply arrived_serving; [apply DemoServe.the_server|reflexivity| |intros _; apply tracked3].
  intros id r Hr. destruct (DemoServe.serve_cases id r Hr) as [[-> ->]|[[-> ->]|[-> ->]]]; done.
Qed.

Lemma fresh3 : fresh_req 16 req3.
Proof. split; DemoServe.here. Qed.

Lemma the_choice : chosen 16 adder [req3] loop.
Proof.
  split.
  - by repeat constructor.
  - done.
  - apply NoDup_singleton.
  - split.
    + constructor; [apply fresh3|constructor].
    + split; apply (bool_decide_unpack _); by vm_compute.
    + vm_compute. congruence.
    + vm_compute. congruence.
    + split; try done. split; try done; apply (bool_decide_unpack _); by vm_compute.
    + done.
    + vm_compute. congruence.
  - by repeat constructor.
  - done.
  - intros r Hr _. apply list_elem_of_singleton in Hr as ->. done.
Qed.

Lemma the_join : joinable adder loop.
Proof.
  split.
  - intros id Hin. apply list_elem_of_singleton in Hin as ->. apply (bool_decide_unpack _). by vm_compute.
  - intros id r row Hin Hr Er. unfold loop, arrived, reqs_of in Hr.
    change (<[3%nat := req3]> (reqs_of DemoServe.loop) !! id = Some r) in Hr.
    apply lookup_insert_Some in Hr as [[<- <-]|[_ Hr]]; [done|].
    destruct (DemoServe.serve_cases id r Hr) as [[-> ->]|[[-> ->]|[-> ->]]]; injection Er as <-;
      (split; [lia|apply (bool_decide_unpack _); by vm_compute]).
  - intros _. by eexists.
  - intros i [= <-]. split; [done|]. intros _. by eexists.
Qed.
End DemoStart.

(** ** Claims *)

Module AdmissionClaims.

(** C2: The promise to a new client, from the queue on.  A server keeps its
    invariant, the chosen requests fit into its rows and slots, and a
    deterministic one is prefilled alone.  Then they are started without
    failure, and after any number of decode iterations, with whatever tokens
    those propose, everything the client of a deterministic request has
    received, be it new or among those that ran already, is the beginning of
    the reference generation of its prompt. *)
Theorem started_requests_stream_reference `{Externals} `{Model}
    (V : SamplingParams → list Z → Z) (N w width : Z) slots
    (forward : Z → ScheduleBatch → GenerationBatchResult) n a rs (l : Loop ChunkCache) :
  fixed_shape_determinism V N w → 0 < w →
  (∀ i b, length (next_token_ids (forward i b)) = length (b_reqs b)) →
  prefill_determinism V forward (enable_deterministic (loop_args l)) →
  serving V N w slots l → chosen width a rs l → joinable a l →
  ∃ res l', (start_requests forward a;; decode_loop forward n) l = (res, l') ∧
    (res = Raise ValueError ∨ ∃ b, res = Ok b) ∧
    ∀ id r, reqs_of l !! id = Some r → is_deterministic r = true →
      ∃ k : nat, streamed (sent_of l') (rid r) = gen (V (sampling_params r)) (origin_input_ids r) k.
Proof.
  intros Hdet Hw Hlen Hp Sv C J.
  destruct (start_requests_ok V N w forward Hlen slots width a rs l Hw Sv Hp C J) as (l1 & E1 & Sv1 & _ & _ & Hsame & _).
  destruct (decode_loop_serving V N w slots forward Hlen n l1 Hdet Hw Sv1) as (res & l' & E & Hr & Hall).
  exists res, l'. split; [by rewrite (bind_ok _ _ _ _ _ E1)|]. split; [done|]. intros id r Hid Hd.
  destruct (Hsame id r Hid) as (r1 & Hr1 & [S1 S2 S3 S4]).
  destruct (Hall id r1 Hr1) as (k & Hk); [congruence|]. exists k. congruence.
Qed.

#[local] Existing Instance DemoSched.the_model.
#[local] Existing Instance DemoSched.externals.

Lemma started_requests_stream_reference_witness :
  ∃ res l' k, (start_requests DemoStart.forward DemoStart.adder;; decode_loop DemoStart.forward 4) DemoStart.loop = (res, l') ∧
    streamed (sent_of l') "r3" = gen (DemoSched.V (sampling_params DemoStart.req3)) [30; 31] k.
Proof.
  destruct (started_requests_stream_reference DemoSched.V 2 3 16 DemoServe.slots DemoStart.forward 4 DemoStart.adder
    [DemoStart.req3] DemoStart.loop (Toy.determinism DemoSched.V 2 3 ltac:(lia)) ltac:(lia) DemoStart.start_forward_length
    (DemoStart.forward_prefill _) DemoStart.start_server DemoStart.the_choice DemoStart.the_join)
    as (res & l' & E & _ & Hall).
  destruct (Hall 3%nat DemoStart.req3) as (k & Hk); [reflexivity|reflexivity|].
  exists res, l', k. split; [exact E|exact Hk].
Defined.

(** C5: Starting requests keeps the server in order.  The chosen requests
    get rows and slots, one prefill pass computes their prompts, and the next
    iteration merges them into the running batch: the invariant of the server
    holds again, over the same slots; the requests that ran stay in the batch
    as they were; and every new one is in the batch too, or it ended with its
    first token, has given up its row, and its client has everything. *)
Theorem start_keeps_server_in_order `{Externals} `{Model}
    (V : SamplingParams → list Z → Z) (N w width : Z) slots
    (forward : Z → ScheduleBatch → GenerationBatchResult) a rs (l : Loop ChunkCache) :
  0 < w → (∀ i b, length (next_token_ids (forward i b)) = length (b_reqs b)) →
  prefill_determinism V forward (enable_deterministic (loop_args l)) →
  serving V N w slots l → chosen width a rs l → joinable a l →
  ∃ l', start_requests forward a l = (Ok tt, l') ∧ serving V N w slots l' ∧
    (∀ id, id ∈ ids_of l → id ∈ ids_of l' ∧ reqs_of l' !! id = reqs_of l !! id) ∧
    (∀ id, id ∈ ids_of l' → id ∈ ids_of l ∨ id ∈ can_run_list a) ∧
    ∀ id, id ∈ can_run_list a → ∃ r, reqs_of l' !! id = Some r ∧
      (finished r = false ∧ id ∈ ids_of l' ∨ complete (sent_of l') r ∧ req_pool_idx r = None).
Proof.
  intros Hw Hlen Hp Sv C J.
  destruct (start_requests_ok V N w forward Hlen slots width a rs l Hw Sv Hp C J) as (l' & E & Sv' & H1 & H2 & _ & H3).
  by exists l'.
Qed.

Lemma start_keeps_server_in_order_witness :
  ∃ l', start_requests DemoStart.forward DemoStart.adder DemoStart.loop = (Ok tt, l') ∧
    serving DemoSched.V 2 3 DemoServe.slots l' ∧
    ∃ r, reqs_of l' !! 3%nat = Some r ∧
      (finished r = false ∧ 3%nat ∈ ids_of l' ∨ complete (sent_of l') r ∧ req_pool_idx r = None).
Proof.
  destruct (start_keeps_server_in_order DemoSched.V 2 3 16 DemoServe.slots DemoStart.forward DemoStart.adder
    [DemoStart.req3] DemoStart.loop ltac:(lia) DemoStart.start_forward_length
    (DemoStart.forward_prefill _) DemoStart.start_server DemoStart.the_choice DemoStart.the_join)
    as (l' & E & Sv & _ & _ & Hnew).
  exists l'. split; [exact E|]. split; [exact Sv|]. apply Hnew. apply list_elem_of_here.
Defined.

End AdmissionClaims.
