(* ===== verification/BatchClaims.v ===== *)
(** * Claims on the operations of a batch *)

From S2P Require Import Prelude PyFloat Allocator AllocatorFacts Request ReqPool LLM42Info Demo InfoFacts World MemCommon CacheLaws BatchOps LLM42Worker WorkerFacts BatchFacts Scheduler OutputProcessor OutputFacts DecodeFacts DecodeStep DecodePass DecodeClaims PrepareFacts RetractFacts EventLoop LoopFacts Serving ServingClaims.
Import PoolFacts Batch Finish OneStream Pass Step.

Module BatchClaims.

(** C16: A batch keeps its requests, rows, lengths, last tokens and sampling
    parameters in separate tensors; [filter_batch] filters them together.
    Seen as a list of entries, the batch afterwards is exactly the list of
    the entries whose request is unfinished and not excluded, in their
    order. *)
Theorem filter_batch_filters_entries {C} (wd : World C) rs exclude :
  soa (batch wd) → at_heap wd (b_reqs (batch wd)) rs → logprob_flag rs (batch wd) →
  ∃ b', BatchOps.filter_batch exclude None wd = (Ok tt, wd <| batch := b' |>) ∧
    entries b' = filter (keepable (heap wd) exclude) (entries (batch wd)) ∧ (b_reqs b' ≠ [] → soa b').
Proof.
  intros Hs F Hl. destruct (filter_batch_ok wd rs exclude Hs F Hl) as (b' & E & En & S & _). by exists b'.
Qed.

Definition short : World ChunkCache :=
  (home DemoServe.loop) <| heap ::= <[1%nat := DemoServe.req1 <| finished_reason := Some (FINISH_LENGTH 8) |>]> |>.

Lemma filter_batch_filters_entries_witness :
  ∃ b', BatchOps.filter_batch [] None short = (Ok tt, short <| batch := b' |>) ∧
    entries b' = filter (keepable (heap short) []) (entries (batch short)).
Proof.
  destruct (filter_batch_filters_entries short
    [DemoServe.req0; DemoServe.req1 <| finished_reason := Some (FINISH_LENGTH 8) |>; DemoServe.req2] [])
    as (b' & E & En & _).
  - exact (sd_soa _ _ _ DemoServe.the_seats).
  - repeat (constructor; [reflexivity|]). constructor.
  - intros E. vm_compute in E. discriminate E.
  - exists b'. split; [exact E|exact En].
Defined.

(** C17: [merge_batch] appends the entries of the other batch, tensor by
    tensor, and the result is again well formed; both batches must have
    drawn their tokens and agree on whether they use seeds. *)
Theorem merge_batch_appends_entries b other :
  soa b → soa other → mergeable b other →
  ∃ b', BatchOps.merge_batch b other = Ok b' ∧ soa b' ∧ entries b' = entries b ++ entries other.
Proof.
  intros Hb Ho Hm. destruct (merge_batch_ok b other Hb Ho Hm) as (b' & E & S & En & _). by exists b'.
Qed.

Lemma merge_batch_appends_entries_witness :
  ∃ b', BatchOps.merge_batch DemoServe.the_batch DemoServe.the_batch = Ok b' ∧
    entries b' = entries DemoServe.the_batch ++ entries DemoServe.the_batch.
Proof.
  pose proof (sd_soa _ _ _ DemoServe.the_seats) as Hs.
  destruct (merge_batch_appends_entries DemoServe.the_batch DemoServe.the_batch) as (b' & E & _ & En).
  - exact Hs.
  - exact Hs.
  - split; [by eexists|]. split; [by eexists|]. intros i i' [= <-] [= <-]. done.
  - exists b'. split; [exact E|exact En].
Defined.

(** C34: Preparing a decode pass, when there is a free slot for every request
    ([ChunkCache], page size 1): every request gets one new slot, distinct
    from all others, entered in its row behind the ones it has; both its
    lengths and the lengths in the batch grow by one, no other request
    changes, and no slot is lost. *)
Theorem prepare_for_decode_seats `{Externals} slots (wd : World ChunkCache) :
  seated 1 slots wd → all_going wd → len (b_reqs (batch wd)) ≤ available_size (kv wd) →
  ∃ wd', BatchOps.prepare_for_decode wd = (Ok tt, wd') ∧ seated 0 slots wd' ∧
    b_reqs (batch wd') = b_reqs (batch wd) ∧ b_forward_mode (batch wd') = Some DECODE ∧
    ∀ id, heap wd' !! id = (if decide (id ∈ b_reqs (batch wd)) then BatchOps.decode_req else λ r, r) <$> heap wd !! id.
Proof.
  intros Hs Hg Hn. destruct (prepare_for_decode_ok slots wd Hs Hg Hn) as (wd' & E & [P1 P2 P3 P4 P5]).
  exists wd'. split_and!; try done. intros id. destruct (decide (id ∈ b_reqs (batch wd))) as [Hi|Hi]; [auto|].
  rewrite (P5 id Hi). symmetry. apply option_fmap_id.
Qed.

#[local] Existing Instance DemoSched.externals.

Lemma the_going : all_going (home DemoServe.loop).
Proof. intros id r _ Hr. destruct (DemoServe.serve_cases id r Hr) as [[-> ->]|[[-> ->]|[-> ->]]]; reflexivity. Qed.

Lemma prepare_for_decode_seats_witness :
  ∃ wd', BatchOps.prepare_for_decode (home DemoServe.loop) = (Ok tt, wd') ∧ seated 0 DemoServe.slots wd'.
Proof.
  destruct (prepare_for_decode_seats DemoServe.slots (home DemoServe.loop) DemoServe.the_seats the_going)
    as (wd' & E & Hs & _); [vm_compute; congruence|].
  exists wd'. split; [exact E|exact Hs].
Defined.

(** C15: Retraction terminates and does what it is for.  The requests that
    stay can all get a slot, at least one stays, and each that does not has
    given back its slots and its row; none is lost.  The only failure is a
    request that needs more tokens than the server has slots. *)
Theorem retract_decode_makes_room `{Externals} slots (wd : World ChunkCache) :
  seated 1 slots wd → all_going wd → b_reqs (batch wd) ≠ [] →
  ∃ res wd', BatchOps.retract_decode wd = (res, wd') ∧
    (res = Raise ValueError ∧ too_large slots wd ∨
     ∃ out, res = Ok out ∧ seated 1 slots wd' ∧ b_reqs (batch wd') ≠ [] ∧
       len (b_reqs (batch wd')) ≤ available_size (kv wd') ∧
       (∀ id, id ∈ b_reqs (batch wd') → id ∈ b_reqs (batch wd) ∧ heap wd' !! id = heap wd !! id) ∧
       (∀ id r, heap wd !! id = Some r → id ∈ b_reqs (batch wd) → ¬ (id ∈ b_reqs (batch wd')) →
          heap wd' !! id = Some (retracted r))).
Proof.
  intros Hs Hg Hne.
  destruct (retract_decode_ok slots wd Hs Hg Hne) as
    (wd' & [[E Hbig]|(retr & ratio & E & Hs' & _ & Hne' & Hroom & (_ & Th1 & Th2) & _)]).
  - exists (Raise ValueError), wd'. auto.
  - exists (Ok (retr, ratio)), wd'. split; [done|]. right. exists (retr, ratio). split_and!; try done.
    intros id r Hr Hi Hn. destruct (Th2 id r Hr Hn) as [[? _]|[_ ?]]; done.
Qed.

Lemma retract_decode_makes_room_witness :
  ∃ out wd', BatchOps.retract_decode (home DemoServe.loop) = (Ok out, wd') ∧ seated 1 DemoServe.slots wd'.
Proof.
  destruct (retract_decode_makes_room DemoServe.slots (home DemoServe.loop) DemoServe.the_seats the_going)
    as (res & wd' & E & [[-> _]|(out & -> & Hs & _)]).
  - discriminate.
  - vm_compute in E. discriminate E.
  - exists out, wd'. split; [exact E|exact Hs].
Defined.

End BatchClaims.
