(* ===== verification/PrefillFacts.v ===== *)
(** * Which requests enter a prefill batch

    The choice of the requests, step by step: what the adder admits, what
    the loop over the queue has in the batch, and that no step changes the
    kind of a request. *)

From S2P Require Import Prelude Returns PyFloat Allocator Request ReqPool LLM42Info World MemCommon CacheLaws Policy BatchOps LLM42Worker Scheduler OutputProcessor DecodeFacts EventLoop LoopFacts Prefill.
Import EventLoop Prefill.

(** ** What the blocks below leave alone *)

(** Matching, locking and eviction do not touch requests and batches. *)
Class QuietCache (C : Type) `{PrefixCache C} := {
  match_quiet : ∀ k e, preserves (λ w : World C, (heap w, batch w, rtp w)) (match_prefix k e);
  inc_quiet : ∀ n, preserves (λ w : World C, (heap w, batch w, rtp w)) (inc_lock_ref n);
  dec_quiet : ∀ n, preserves (λ w : World C, (heap w, batch w, rtp w)) (dec_lock_ref n);
  evict_quiet : ∀ n, preserves (λ w : World C, (heap w, batch w, rtp w)) (evict n)
}.

#[export] Program Instance chunk_quiet : QuietCache ChunkCache.
Solve All Obligations with (intros; intros w; cbn; by apply returns_ret).

(** The kinds of the requests, the batch at hand and the rows. *)
Definition kinds {C} (w : World C) : gmap nat bool := is_deterministic <$> heap w.
Definition seen {C} (w : World C) : gmap nat bool * ScheduleBatch * ReqToTokenPool :=
  (kinds w, batch w, rtp w).

Section World.
Context {C : Type} `{QuietCache C}.
Implicit Types w : World C.

Lemma seen_set w id r r' :
  heap w !! id = Some r → is_deterministic r' = is_deterministic r →
  seen (w <| heap ::= <[id := r']> |>) = seen w.
Proof.
  intros Hr Hd. unfold seen, kinds. rsimpl. do 2 f_equal. rewrite fmap_insert, Hd, <- fmap_insert.
  by rewrite insert_id.
Qed.

Lemma seen_kinds w w' : seen w' = seen w → kinds w' = kinds w.
Proof. by intros [= E _ _]. Qed.

Lemma kinds_at w id r : heap w !! id = Some r → kinds w !! id = Some (is_deterministic r).
Proof. intros Hr. unfold kinds. by rewrite lookup_fmap, Hr. Qed.

Lemma quiet_seen {A} (m : M (World C) A) : preserves (λ w, (heap w, batch w, rtp w)) m → preserves seen m.
Proof.
  intros Hm w. eapply returns_mono; [apply Hm|]. cbn. intros _ w' [= Eh Eb Er]. unfold seen, kinds. by rewrite Eh, Eb, Er.
Qed.

(** *** Rules *)

Lemma returns_req_at id w (Q : Req → World C → Prop) :
  (∀ r, heap w !! id = Some r → Q r w) → returns (req_at id) w Q.
Proof.
  intros HQ r w' E. unfold req_at in E. destruct (heap w !! id) as [r0|]; [|done].
  injection E as <- <-. auto.
Qed.

Lemma returns_set_req id r w (Q : unit → World C → Prop) :
  Q tt (w <| heap ::= <[id := r]> |>) → returns (set_req id r) w Q.
Proof. intros HQ. by apply returns_modify. Qed.

Lemma returns_upd_req id f w (Q : unit → World C → Prop) :
  (∀ r, heap w !! id = Some r → Q tt (w <| heap ::= <[id := f r]> |>)) → returns (upd_req id f) w Q.
Proof. intros HQ. apply returns_bind, returns_req_at. intros r Hr. apply returns_set_req. auto. Qed.

Lemma upd_req_seen id f :
  (∀ r, is_deterministic (f r) = is_deterministic r) → preserves (@seen C) (upd_req id f).
Proof. intros Hf w. apply returns_upd_req. intros r Hr. by eapply seen_set. Qed.

Lemma reqs_at_same ids w : returns (reqs_at ids) w (λ rs w', w' = w ∧ Forall2 (λ id r, heap w !! id = Some r) ids rs).
Proof.
  unfold reqs_at. enough (Hg : ∀ ids acc, returns (foldM (λ acc id, r ← req_at id; mret (acc ++ [r])) acc ids) w
    (λ rs w', w' = w ∧ ∃ rs', rs = acc ++ rs' ∧ Forall2 (λ id r, heap w !! id = Some r) ids rs')).
  { eapply returns_mono; [apply Hg|]. cbn. intros rs w' [-> (rs' & -> & F)]. split; [done|exact F]. }
  clear ids. induction ids as [|id ids IH]; intros acc; cbn [foldM].
  - apply returns_ret. split; [done|]. exists []. by rewrite app_nil_r.
  - intros rs w' E. unfold mbind, M_bind, req_at in E. destruct (heap w !! id) as [r|] eqn:Er; [|done]. cbn in E.
    apply (IH (acc ++ [r])) in E as [-> (rs' & -> & F)]. split; [done|]. exists (r :: rs').
    rewrite <- app_assoc. split; [done|]. by constructor.
Qed.

(** ** The adder *)

Lemma init_next_round_input_seen b id : preserves (@seen C) (init_next_round_input b id).
Proof.
  intros w. unfold init_next_round_input. apply returns_bind, returns_req_at. intros r Hr. cbv zeta.
  set (r1 := r <| fill_ids := _ |>). apply returns_bind, returns_set_req.
  set (w1 := w <| heap ::= <[id := r1]> |>).
  assert (E1 : seen w1 = seen w) by (eapply seen_set; [done|unfold r1; by rsimpl]).
  apply returns_bind, returns_if; intros _.
  - apply returns_bind. eapply preserves_use; [apply quiet_seen, match_quiet|]. intros [ix node] w2 E2.
    eapply preserves_use; [apply upd_req_seen; intros; by rsimpl|]. intros _ w3 E3.
    eapply preserves_use; [apply upd_req_seen; intros; unfold set_extend_input_len_; by rsimpl|].
    intros _ w4 E4. congruence.
  - apply returns_ret. eapply preserves_use; [apply upd_req_seen; intros; unfold set_extend_input_len_; by rsimpl|].
    intros _ w4 E4. congruence.
Qed.

(** What a call of the adder does to the list of requests. *)
Definition extends (a a' : PrefillAdder) (id : nat) : Prop :=
  can_run_list a' = can_run_list a ∨ can_run_list a' = can_run_list a ++ [id].

Lemma budget_run p n k a : can_run_list (Adder._update_prefill_budget p n k a) = can_run_list a.
Proof. unfold Adder._update_prefill_budget. by rsimpl. Qed.

Lemma enlist_run id a : can_run_list (Adder.enlist id a) = can_run_list a ++ [id].
Proof. unfold Adder.enlist. by rsimpl. Qed.

Lemma chunked_run c a : can_run_list (a <| new_chunked_req := c |>) = can_run_list a.
Proof. by rsimpl. Qed.

Lemma truncate_det f k r : is_deterministic ((set_extend_input_len_ k r) <| fill_ids ::= f |>) = is_deterministic r.
Proof. unfold set_extend_input_len_. by rsimpl. Qed.

Lemma add_chunked_req_seen a id w :
  returns (Adder.add_chunked_req a id) w (λ x w', seen w' = seen w ∧ can_run_list x.1 = can_run_list a ++ [id]).
Proof.
  unfold Adder.add_chunked_req. do 3 (returns_step; returns_step). apply returns_bind, returns_req_at.
  intros r Hr. cbv zeta. apply returns_bind, returns_set_req, returns_ret. cbn [fst].
  rewrite budget_run, enlist_run. split; [|done]. eapply seen_set; [done|]. apply truncate_det.
Qed.
Lemma add_ignore_eos_seen a id w :
  returns (Adder.add_one_req_ignore_eos a id) w (λ x w', seen w' = seen w ∧ extends a x.1 id).
Proof.
  unfold Adder.add_one_req_ignore_eos. do 2 returns_step. apply returns_bind, returns_req_at. intros r Hr. cbv zeta.
  apply returns_if; intros _; [apply returns_ret; split; [done|by left]|].
  apply returns_bind. eapply returns_mono; [apply reqs_at_same|]. intros rs w1 [-> _].
  apply returns_bind. eapply returns_mono; [apply reqs_at_same|]. intros rs' w1 [-> _].
  set (a1 := a <| req_states := _ |>). assert (Ea : can_run_list a1 = can_run_list a) by (unfold a1; by rsimpl).
  assert (Hin : ∀ p n k, returns (mret (Adder._update_prefill_budget p n k (Adder.enlist id a1),
     Adder.budget_state (Adder._update_prefill_budget p n k (Adder.enlist id a1)) w)) w
     (λ x w', seen w' = seen w ∧ extends a x.1 id)).
  { intros p n k. apply returns_ret. split; [done|]. right. cbn [fst]. by rewrite budget_run, enlist_run, Ea. }
  apply returns_if; intros _; [apply returns_ret; split; [done|by left]|].
  destruct (rem_chunk_tokens a1) as [n|]; [|apply Hin].
  apply returns_if; intros _; [apply Hin|].
  apply returns_if; intros _; [apply returns_ret; split; [done|by left]|].
  apply returns_bind, returns_set_req, returns_ret. split.
  - eapply seen_set; [done|apply truncate_det].
  - right. cbn [fst]. by rewrite budget_run, chunked_run, enlist_run, Ea.
Qed.

Lemma add_locked_seen a id total n al w :
  returns (Adder.add_locked a id total n al) w (λ x w', seen w' = seen w ∧
    extends a (match x with inl a' => a' | inr (a', _) => a' end) id).
Proof.
  unfold Adder.add_locked. do 2 returns_step.
  apply returns_if; intros _; [apply returns_ret; split; [done|by left]|].
  apply returns_bind, returns_req_at. intros r Hr. cbv zeta.
  apply returns_if; intros _; [apply returns_ret; split; [done|by left]|].
  assert (Hin : ∀ p m k w1, seen w1 = seen w → returns (_ ← inc_lock_ref (last_node r);
     mret (inl (Adder._update_prefill_budget p m k (Adder.enlist id a)) : PrefillAdder + PrefillAdder * AddReqResult)) w1
     (λ x w', seen w' = seen w ∧ extends a (match x with inl a' => a' | inr (a', _) => a' end) id)).
  { intros p m k w1 E1. apply returns_bind. eapply preserves_use; [apply quiet_seen, inc_quiet|]. intros _ w2 E2.
    apply returns_ret. split; [congruence|]. right. by rewrite budget_run, enlist_run. }
  destruct (rem_chunk_tokens a) as [c|]; [|by apply Hin].
  apply returns_if; intros _; [by apply Hin|].
  destruct (Adder.chunk_length _ c al) as [t|]; [|apply returns_ret; split; [done|by left]].
  apply returns_bind, returns_set_req, returns_bind.
  eapply preserves_use; [apply quiet_seen, inc_quiet|]. intros _ w2 E2. apply returns_ret. split.
  - rewrite E2. eapply seen_set; [done|apply truncate_det].
  - right. by rewrite budget_run, chunked_run, enlist_run.
Qed.

Lemma with_lock_seen {A} node (m : M (World C) A) w (Q : A → Prop) :
  (∀ w, returns m w (λ x w', seen w' = seen w ∧ Q x)) →
  returns (Adder.with_lock node m) w (λ x w', seen w' = seen w ∧ Q x).
Proof.
  intros Hm x w' E. unfold Adder.with_lock in E.
  destruct (inc_lock_ref node w) as [[?|?] w1] eqn:E1; [|done].
  destruct (m w1) as [y w2] eqn:E2. destruct (dec_lock_ref node w2) as [[?|?] w3] eqn:E3; [|done].
  injection E as -> <-. apply (quiet_seen _ (inc_quiet node)) in E1. apply (quiet_seen _ (dec_quiet node)) in E3.
  apply Hm in E2 as [E2 HQ]. split; [congruence|done].
Qed.

(** A call admits the request or does not; it changes nothing else. *)
Lemma add_one_req_seen a id al w :
  returns (Adder.add_one_req a id al) w (λ x w', seen w' = seen w ∧ extends a x.1 id).
Proof.
  unfold Adder.add_one_req. apply returns_if; intros _; [apply returns_ret; split; [done|by left]|].
  do 2 returns_step. apply returns_bind, returns_req_at. intros r Hr.
  apply returns_if; intros _; [apply add_ignore_eos_seen|]. cbv zeta.
  apply returns_if; intros _; [apply returns_ret; split; [done|by left]|].
  apply returns_if; intros _; [apply returns_ret; split; [done|by left]|].
  apply returns_bind. eapply returns_mono; [apply with_lock_seen; intros; apply add_locked_seen|].
  intros [a'|[a' res]] w' [Es Hx]; [|by apply returns_ret].
  do 2 returns_step. by apply returns_ret.
Qed.
End World.

(** ** The loop over the queue *)

Section Loop.
Context `{Externals} {C : Type} `{QuietCache C}.
Implicit Types l : Loop C.

Definition kinds_of l : gmap nat bool := kinds (w_of (sched l)).

Lemma returns_world {A} (m : M (World C) A) l (Q : A → Loop C → Prop) :
  returns m (w_of (sched l)) (λ a w', Q a (with_w w' l)) → returns (on_sched (on_w m)) l Q.
Proof.
  intros Hm a l' E. destruct (m (w_of (sched l))) as [x w'] eqn:Em.
  rewrite (on_world_eq m l x w' Em) in E. injection E as -> <-. by apply Hm.
Qed.

Lemma w_with w l : w_of (sched (with_w w l)) = w.
Proof. done. Qed.

Lemma with_w_id l : with_w (w_of (sched l)) l = l.
Proof. unfold with_w. rewrite set_w_id. by destruct l. Qed.

Lemma returns_req_loop id l (Q : Req → Loop C → Prop) :
  (∀ r, heap (w_of (sched l)) !! id = Some r → Q r l) → returns (on_sched (on_w (req_at id))) l Q.
Proof. intros HQ. apply returns_world, returns_req_at. intros r Hr. rewrite with_w_id. auto. Qed.

Lemma kinds_with w l : kinds_of (with_w w l) = kinds w.
Proof. done. Qed.

(** The batch so far: a deterministic request is alone in it. *)
Definition alone (K : gmap nat bool) (ids : list nat) : Prop :=
  ∀ id, id ∈ ids → K !! id = Some true → ids = [id].

(** The flag of the loop and the batch so far. *)
Definition flagged (K : gmap nat bool) (has_det : bool) (ids : list nat) : Prop :=
  if has_det then ∃ id, ids = [id] else ∀ id, id ∈ ids → K !! id ≠ Some true.

Lemma flagged_alone K has_det ids : flagged K has_det ids → alone K ids.
Proof.
  destruct has_det; cbn.
  - intros [x ->] id Hin%list_elem_of_singleton _. by subst.
  - intros Hn id Hin Hk. by destruct (Hn id Hin).
Qed.

(** One request of the queue. *)
Lemma flagged_extend K ids ids' id d :
  K !! id = Some d → (ids ≠ [] → d = false) → flagged K false ids → ids' = ids ∨ ids' = ids ++ [id] →
  flagged K (bool_decide (id ∈ ids') && d) ids'.
Proof.
  intros Hk Hd Hf [->| ->].
  - destruct d; rewrite ?andb_false_r; [|done]. rewrite bool_decide_false; [done|]. intros Hin. by apply (Hf id Hin).
  - rewrite bool_decide_true by (rewrite elem_of_app, list_elem_of_singleton; auto). cbn. destruct d; cbn.
    + destruct ids; [by exists id|]. by discriminate Hd.
    + intros x [Hx|Hx%list_elem_of_singleton]%elem_of_app; [by apply Hf|subst; by rewrite Hk].
Qed.

(** What the choice of the requests leaves alone. *)
(** The running batch but for the flag that it is full *)
Definition unmarked (b : ScheduleBatch) : ScheduleBatch := b <| b_batch_is_full := false |>.

Lemma unmarked_reqs b b' : unmarked b' = unmarked b → b_reqs b' = b_reqs b.
Proof. intros E. exact (f_equal b_reqs E). Qed.

Record chosen_frame l l' : Prop := {
  cf_seen : seen (w_of (sched l')) = seen (w_of (sched l));
  cf_args : loop_args l' = loop_args l;
  cf_server : args (sched l') = args (sched l);
  cf_queue : waiting_queue (sched l') = waiting_queue (sched l);
  cf_chunked : chunked_req l' = chunked_req l;
  cf_running : unmarked (running_batch l') = unmarked (running_batch l)
}.

Lemma chosen_refl l : chosen_frame l l.
Proof. done. Qed.

Lemma chosen_trans l1 l2 l3 : chosen_frame l1 l2 → chosen_frame l2 l3 → chosen_frame l1 l3.
Proof. intros [] []. split; congruence. Qed.

Lemma chosen_with w l : seen w = seen (w_of (sched l)) → chosen_frame l (with_w w l).
Proof. intros E. by split. Qed.

(** How many requests the rows and the limit of the server allow. *)
Definition allocatable l : Z :=
  Z.min (pp_max_micro_batch_size (loop_args l) - len (b_reqs (running_batch l)))
    (Pool.available_size (rtp (w_of (sched l)))).

Lemma chosen_allocatable l l' : chosen_frame l l' → allocatable l' = allocatable l.
Proof.
  intros [Es Ea _ _ _ Er%unmarked_reqs]. unfold allocatable. rewrite Ea, Er. unfold seen in Es. injection Es as _ _ ->. done.
Qed.

Lemma chosen_kinds l l' : chosen_frame l l' → kinds_of l' = kinds_of l.
Proof. intros F. apply seen_kinds, F. Qed.

(** What the loop adds to the batch [ids] from the queue. *)
Record filled (isolated : bool) (q ids : list nat) l (a' : PrefillAdder) l' : Prop := {
  fl_frame : chosen_frame l l';
  fl_added : ∃ adm, can_run_list a' = ids ++ adm ∧ adm `sublist_of` q ∧
    (adm ≠ [] → len (can_run_list a') ≤ allocatable l);
  fl_alone : isolated = true → alone (kinds_of l) (can_run_list a')
}.

Lemma filled_none isolated q has_det a l l' :
  (isolated = true → flagged (kinds_of l) has_det (can_run_list a)) → chosen_frame l l' →
  filled isolated q (can_run_list a) l a l'.
Proof.
  intros Hf F. split; [done| |intros Hi; by eapply flagged_alone, Hf].
  exists []. rewrite app_nil_r. split_and!; [done|apply sublist_nil_l|done].
Qed.

Lemma filled_skip isolated id q ids l a' l' :
  filled isolated q ids l a' l' → filled isolated (id :: q) ids l a' l'.
Proof.
  intros [F (adm & E & Hs & Hn) Ha]. split; [done| |done]. exists adm. split_and!; [done|by constructor|done].
Qed.

Lemma filled_cons isolated id q ids l l1 a' l' :
  chosen_frame l l1 → filled isolated q (ids ++ [id]) l1 a' l' → len ids < allocatable l →
  filled isolated (id :: q) ids l a' l'.
Proof.
  intros F1 [F (adm & E & Hs & Hn) Ha] Hlt. split; [by eapply chosen_trans| |].
  - exists (id :: adm). rewrite E, <- app_assoc. split_and!; [done|by constructor|]. intros _.
    destruct adm as [|x adm]; [llia|]. rewrite (chosen_allocatable _ _ F1) in Hn. rewrite E, <- app_assoc in Hn. by apply Hn.
  - rewrite <- (chosen_kinds _ _ F1). done.
Qed.

Lemma fill_batch_filled isolated q has_det a l :
  (isolated = true → flagged (kinds_of l) has_det (can_run_list a)) →
  returns (fill_batch isolated q has_det a) l (filled isolated q (can_run_list a) l).
Proof.
  revert has_det a l. induction q as [|id q IH]; intros has_det a l Hf; cbn [fill_batch].
  { apply returns_ret. by eapply filled_none. }
  apply returns_if; intros Hstop; [apply returns_ret; by eapply filled_none|].
  apply returns_bind, returns_req_loop. intros r Hr.
  apply returns_if; intros Hskip; [eapply returns_mono; [by apply IH|]; intros; by apply filled_skip|].
  apply returns_bind, returns_gets, returns_bind, returns_bind, returns_get, returns_ret.
  fold (allocatable l). set (full := allocatable l <=? len (can_run_list a)).
  apply returns_bind. eapply returns_mono with (P := λ _ l1, chosen_frame l l1 ∧
    (b_batch_is_full (running_batch l1) = false → len (can_run_list a) < allocatable l)).
  { destruct full eqn:Efull; unfold full in Efull.
    - apply returns_modify. split; [split; by rsimpl|]. by rsimpl.
    - apply returns_ret. split; [done|]. lia. }
  intros _ l1 [F1 Hroom]. apply returns_bind, returns_gets. destruct (b_batch_is_full (running_batch l1)) eqn:Eb.
  { apply returns_ret. by eapply filled_none. }
  specialize (Hroom eq_refl).
  apply returns_bind, returns_world. eapply preserves_use; [apply init_next_round_input_seen|]. intros _ w2 E2.
  apply returns_bind, returns_gets, returns_bind, returns_world.
  eapply returns_mono; [apply add_one_req_seen|]. intros [a' res] w3 [E3 Hx]. cbn [fst] in Hx.
  rewrite w_with in E3. set (l3 := with_w w3 _).
  assert (F3 : chosen_frame l l3).
  { eapply chosen_trans; [exact F1|]. eapply chosen_trans; [by apply (chosen_with w2)|by apply chosen_with]. }
  apply returns_bind, returns_req_loop. intros r3 Hr3.
  assert (Ed : is_deterministic r3 = is_deterministic r).
  { pose proof (chosen_kinds _ _ F3) as Ek. apply kinds_at in Hr3, Hr. unfold kinds_of in Ek. congruence. }
  rewrite Ed. set (hd := has_det || _).
  assert (Hf' : isolated = true → flagged (kinds_of l3) hd (can_run_list a')).
  { intros ->. rewrite (chosen_kinds _ _ F3). cbn [andb] in Hstop. unfold hd. rewrite Hstop in *. cbn [orb andb].
    eapply flagged_extend; [by apply kinds_at| |by apply Hf|done].
    intros Hne. apply andb_false_iff in Hskip as [Hs|?]; [|done]. cbn [andb] in Hs. apply Z.ltb_ge in Hs.
    destruct (can_run_list a); [done|]. unfold len in Hs. cbn in Hs. lia. }
  assert (Hend : ∀ a2 l4, filled isolated q (can_run_list a') l3 a2 l4 →
     filled isolated (id :: q) (can_run_list a) l a2 l4).
  { intros a2 l4 Hfl. destruct Hx as [Ex|Ex]; rewrite Ex in Hfl; [|by eapply filled_cons].
    apply filled_skip. destruct Hfl as [F4 (adm & E & Hs & Hn) Ha]. rewrite (chosen_allocatable _ _ F3) in Hn.
    rewrite (chosen_kinds _ _ F3) in Ha. split; [by eapply chosen_trans| |done]. by exists adm. }
  destruct res.
  - eapply returns_mono; [by apply IH|exact Hend].
  - apply returns_bind, returns_modify, returns_ret, Hend. eapply filled_none; [done|split; by rsimpl].
  - apply returns_ret, Hend. by eapply filled_none.
Qed.
End Loop.

(** ** The new batch *)

(** What the preparation of a batch leaves alone. *)
Definition shape {C} (w : World C) : gmap nat bool * list nat := (kinds w, b_reqs (batch w)).
Definition facts {C} (w : World C) : gmap nat bool * ScheduleBatch := (kinds w, batch w).

Section Make.
Context `{Externals} {C : Type} `{QuietCache C}.
Implicit Types (w : World C) (l : Loop C).

Lemma seen_facts {A} (m : M (World C) A) : preserves seen m → preserves facts m.
Proof.
  intros Hm w. eapply returns_mono; [apply Hm|]. cbn. intros _ w' [= Ek Eb _]. unfold facts. by rewrite Ek, Eb.
Qed.

Lemma facts_shape {A} (m : M (World C) A) : preserves facts m → preserves shape m.
Proof.
  intros Hm w. eapply returns_mono; [apply Hm|]. cbn. intros _ w' [= Ek Eb]. unfold shape. by rewrite Ek, Eb.
Qed.

Lemma upd_batch_shape f : (∀ b, b_reqs (f b) = b_reqs b) → preserves (@shape C) (upd_batch f).
Proof. intros Hf w. apply returns_modify. unfold shape, kinds. rsimpl. by rewrite Hf. Qed.

Lemma on_kv_facts {A} (m : M Allocator A) : preserves (@facts C) (on_kv m).
Proof. intros w a w'. unfold on_kv. destruct (m (kv w)) as [r k]. intros [= _ <-]. unfold facts, kinds. by rsimpl. Qed.

Lemma on_rtp_facts f : preserves (@facts C) (on_rtp f).
Proof. intros w a w'. unfold on_rtp. destruct (f (rtp w)); intros E; simplify_eq. unfold facts, kinds. by rsimpl. Qed.

Lemma preserves_bind {A B D} (f : World C → D) (m : M (World C) A) (k : A → M (World C) B) :
  preserves f m → (∀ a, preserves f (k a)) → preserves f (m ≫= k).
Proof.
  intros Hm Hk w. apply returns_bind. eapply preserves_use; [apply Hm|]. intros a w1 E1.
  eapply returns_mono; [apply Hk|]. cbn. congruence.
Qed.

Lemma preserves_ret {A D} (f : World C → D) (a : A) : preserves f (mret a).
Proof. intros w. by apply returns_ret. Qed.

Lemma preserves_lift {A D} (f : World C → D) (r : res A) : preserves f (lift r).
Proof. intros w. by apply returns_lift. Qed.

Lemma preserves_gets {A D} (f : World C → D) (g : World C → A) : preserves f (gets g).
Proof. intros w. by apply returns_gets. Qed.

Lemma preserves_fold {A B D} (f : World C → D) (g : B → A → M (World C) B) b xs :
  (∀ b x, preserves f (g b x)) → preserves f (foldM g b xs).
Proof.
  intros Hg w. eapply (returns_foldM (λ _ w', f w' = f w)); [|done|done].
  intros b' x w1 _ E1. eapply returns_mono; [apply Hg|]. cbn. congruence.
Qed.

Lemma preserves_for {A D} (f : World C → D) (g : A → M (World C) unit) xs :
  (∀ x, preserves f (g x)) → preserves f (for_ xs g).
Proof.
  intros Hg w. eapply (returns_for (λ w', f w' = f w)); [|done|done].
  intros x w1 _ E1. eapply returns_mono; [apply Hg|]. cbn. congruence.
Qed.

Lemma reqs_at_preserves {D} (f : World C → D) ids : preserves f (reqs_at ids).
Proof. intros w. eapply returns_mono; [apply reqs_at_same|]. by intros rs w' [-> _]. Qed.

Hint Resolve preserves_bind preserves_ret preserves_lift preserves_gets preserves_fold preserves_for
  on_kv_facts on_rtp_facts reqs_at_preserves : returns.

Lemma evict_facts n : preserves (@facts C) (Mem.evict_from_tree_cache n).
Proof.
  unfold Mem.evict_from_tree_cache. destruct is_chunk_cache; auto with returns.
  apply preserves_bind; auto with returns. intros k. destruct (_ <? _); auto with returns.
  apply preserves_bind; auto with returns. apply seen_facts, quiet_seen, evict_quiet.
Qed.
Hint Resolve evict_facts : returns.

(** The rows change a request in one field. *)
Lemma assign_kinds rs idx : is_deterministic <$> Pool.assign_slots rs idx = is_deterministic <$> rs.
Proof.
  revert idx. induction rs as [|r rs IH]; intros idx; [done|]. cbn [Pool.assign_slots].
  destruct (req_pool_idx r), idx; cbn [fmap list_fmap]; rewrite IH; by rsimpl.
Qed.

Lemma set_reqs_facts ids rs w :
  Forall2 (λ id r, kinds w !! id = Some (is_deterministic r)) ids rs →
  returns (Mem.set_reqs ids rs) w (λ _ w', facts w' = facts w).
Proof.
  revert rs w. induction ids as [|id ids IH]; intros rs w F; inversion F as [|? r ? rs' Hr F']; subst; cbn [Mem.set_reqs].
  - by apply returns_ret.
  - apply returns_bind, returns_set_req. set (w1 := w <| heap ::= <[id := r]> |>).
    assert (Ek : kinds w1 = kinds w).
    { unfold w1, kinds. rsimpl. rewrite fmap_insert, insert_id; done. }
    eapply returns_mono; [apply IH; by rewrite Ek|]. intros ? w2 E2. rewrite E2. unfold facts. rewrite Ek. done.
Qed.

Lemma alloc_req_slots_facts ids : preserves (@facts C) (Mem.alloc_req_slots ids).
Proof.
  intros w. unfold Mem.alloc_req_slots. apply returns_bind. eapply returns_mono; [apply reqs_at_same|].
  intros rs w1 [-> F]. apply returns_bind, returns_gets, returns_bind, returns_lift. intros o Eo.
  apply returns_bind, returns_lift. intros [rs' p] Ep. apply returns_bind, returns_modify.
  assert (Ek : is_deterministic <$> rs' = is_deterministic <$> rs).
  { destruct o as [x|]; [|done]. injection Ep as ->. unfold Pool.alloc in Eo.
    destruct (negb _); [done|]. destruct (negb _); [done|]. destruct (_ <? _); [done|].
    injection Eo as <- _. apply assign_kinds. }
  apply returns_bind. eapply returns_mono.
  { apply set_reqs_facts, (Forall2_fmap_r is_deterministic (λ id d, kinds (w <| rtp := p |>) !! id = Some d)).
    rewrite Ek. apply Forall2_fmap_r. eapply Forall2_impl; [exact F|]. intros id r Hr. by apply kinds_at. }
  cbn. intros _ w2 E2. apply returns_lift. intros _ _. rewrite E2. unfold facts, kinds. by rsimpl.
Qed.
Hint Resolve alloc_req_slots_facts : returns.
Lemma alloc_for_extend_facts : preserves (@facts C) Mem.alloc_for_extend.
Proof.
  unfold Mem.alloc_for_extend. apply preserves_bind; [auto with returns|]. intros b.
  apply preserves_bind; [auto with returns|]. intros rs. apply preserves_bind; [auto with returns|]. intros rows.
  apply preserves_bind; [auto with returns|]. intros c. apply preserves_bind.
  - destruct (_ =? _); unfold Mem.alloc_token_slots, Mem.alloc_paged_token_slots_extend, Mem.or_oom;
      repeat (apply preserves_bind; [auto with returns|]; intros ?); auto with returns.
  - intros locs. apply preserves_bind; [|auto with returns]. unfold Mem.write_cache_indices.
    apply preserves_bind; [|auto with returns]. apply preserves_fold. intros pt [[[[? ?] ?] ?] ?].
    unfold Mem.write_one_req. repeat (apply preserves_bind; [auto with returns|]; intros ?). auto with returns.
Qed.

Lemma extend_req_facts x : preserves (@facts C) (BatchOps.extend_req x).
Proof.
  destruct x as [[[id row] n] k]. intros w. unfold BatchOps.extend_req. apply returns_bind, returns_req_at.
  intros r Hr. apply returns_bind, returns_set_req. set (w1 := w <| heap ::= <[id := _]> |>).
  assert (E1 : seen w1 = seen w) by (eapply seen_set; [done|by rsimpl]).
  apply returns_bind, returns_assert. intros _.
  eapply preserves_use; [apply seen_facts, upd_req_seen|].
  { intros r0. destruct (retracted_stain _); by rsimpl. }
  intros _ w2 E2. rewrite E2. unfold facts. by rewrite (seen_kinds _ _ E1).
Qed.

Lemma prepare_for_extend_shape d : preserves (@shape C) (BatchOps.prepare_for_extend d).
Proof.
  unfold BatchOps.prepare_for_extend.
  apply preserves_bind; [apply upd_batch_shape; intros; by rsimpl|]. intros _.
  apply preserves_bind; [auto with returns|]. intros ids. apply preserves_bind; [auto with returns|]. intros rs.
  apply preserves_bind; [apply upd_batch_shape; intros; by rsimpl|]. intros _.
  apply preserves_bind; [apply facts_shape, alloc_for_extend_facts|]. intros [locs rows].
  apply preserves_bind; [apply preserves_for; intros; apply facts_shape, extend_req_facts|]. intros _.
  apply preserves_bind; [auto with returns|]. intros rs'. apply upd_batch_shape. intros. by rsimpl.
Qed.

(** [make_batch] without mixing: the batch at hand has the chosen requests. *)
Lemma make_batch_shape a l :
  is_mixed_chunk (loop_args l) = false →
  returns (make_batch a) l (λ _ l',
    kinds_of l' = kinds_of l ∧ b_reqs (batch (w_of (sched l'))) = can_run_list a ∧
    waiting_queue (sched l') = filter (λ id, id ∉ can_run_list a) (waiting_queue (sched l)) ∧
    unmarked (running_batch l') = unmarked (running_batch l)).
Proof.
  intros Hmix. unfold make_batch. apply returns_bind, returns_modify. set (l1 := l <| sched := _ |>).
  apply returns_bind. eapply returns_mono with (P := λ _ l2, chosen_frame (l1 <| chunked_req := chunked_req l2 |>) l2).
  { destruct (new_chunked_req a) as [id|].
    - apply returns_bind, returns_gets, returns_bind, returns_assert. intros _. apply returns_modify. split; by rsimpl.
    - apply returns_ret. by split. }
  intros _ l2 [F1 F2 F3 F4 _ F6]. revert F1 F2 F3 F4 F6. rsimpl. intros F1 F2 F3 F4 F6.
  apply returns_bind, returns_gets, returns_bind.
  eapply returns_mono with (P := λ _ l3, chosen_frame l2 l3).
  { destruct (chunked_req l2) as [id|]; [|by apply returns_ret]. apply returns_world.
    eapply preserves_use; [apply upd_req_seen; intros; by rsimpl|]. intros _ w3 E3. by apply chosen_with. }
  intros _ l3 F. apply returns_bind, returns_get, returns_bind, returns_world.
  eapply returns_mono; [apply reqs_at_same|]. intros rs w4 [-> _]. rewrite with_w_id.
  apply returns_bind. unfold load. apply returns_world, returns_modify.
  set (b0 := BatchOps.init_new _ _ _ _). set (l4 := with_w _ l3).
  apply returns_bind, returns_world. eapply preserves_use; [apply prepare_for_extend_shape|]. intros _ w5 E5.
  apply returns_bind, returns_gets, returns_bind, returns_gets.
  destruct F as [G1 G2 G3 G4 G5 G6].
  replace (is_mixed_chunk (loop_args l3)) with false.
  2:{ rewrite G2, F2. symmetry. exact Hmix. }
  cbn [andb]. apply returns_world. eapply preserves_use; [apply upd_batch_shape; intros; by rsimpl|]. intros _ w6 E6.
  rewrite w_with in E6. assert (E : shape w6 = shape (w_of (sched l4))) by congruence. clear E5 E6.
  unfold shape, l4 in E. rewrite w_with in E. injection E as Ek Er. split_and!.
  - unfold kinds_of. rewrite w_with, Ek.
    transitivity (kinds (w_of (sched l3))); [unfold kinds; by rsimpl|].
    rewrite (seen_kinds _ _ G1), (seen_kinds _ _ F1). done.
  - rewrite w_with, Er. by rsimpl.
  - change (waiting_queue (sched l3) = filter (λ id, id ∉ can_run_list a) (waiting_queue (sched l))). rewrite G4, F4. done.
  - change (unmarked (running_batch l3) = unmarked (running_batch l)). rewrite G6, F6. done.
Qed.
End Make.

(** ** The choice as a whole *)

Lemma filter_all {A} (P : A → Prop) `{!∀ x, Decision (P x)} l : Forall P l → filter P l = l.
Proof. induction 1 as [|x l Hx _ IH]; [done|]. by rewrite filter_cons_True, IH. Qed.

Lemma filter_none {A} (P : A → Prop) `{!∀ x, Decision (P x)} l : Forall (λ x, ¬ P x) l → filter P l = [].
Proof. induction 1 as [|x l Hx _ IH]; [done|]. by rewrite filter_cons_False. Qed.

Lemma split_queue (q adm c : list nat) :
  adm `sublist_of` q → NoDup (c ++ q) → adm ++ filter (λ id, id ∉ c ++ adm) q ≡ₚ q.
Proof.
  intros Hs (_ & Hdis & Hq)%NoDup_app.
  destruct (submseteq_Permutation adm q (sublist_submseteq _ _ Hs)) as [rest E].
  assert (Hnd : NoDup (adm ++ rest)) by (by rewrite <- E). apply NoDup_app in Hnd as (_ & Hd & _).
  transitivity (adm ++ filter (λ id, id ∉ c ++ adm) (adm ++ rest)); [by rewrite <- E|].
  rewrite E, filter_app. f_equiv. rewrite (filter_none _ adm), app_nil_l.
  - rewrite filter_all; [done|]. apply Forall_forall. intros x Hx [Hc|Ha]%elem_of_app; [|by apply (Hd x)].
    apply (Hdis x Hc). rewrite E. apply elem_of_app. by right.
  - apply Forall_forall. intros x Hx. rewrite elem_of_app. naive_solver.
Qed.

Lemma insert_longest_perm x q : SchedulePolicy.insert_longest x q ≡ₚ x :: q.
Proof.
  induction q as [|y q IH]; [done|]. cbn [SchedulePolicy.insert_longest]. destruct (_ <? _); [done|].
  rewrite IH. constructor.
Qed.

Lemma calc_priority_perm p q : SchedulePolicy.calc_priority p q ≡ₚ q.
Proof.
  destruct p; [done|]. cbn. unfold SchedulePolicy._sort_by_longest_output.
  enough (Hg : ∀ q acc, foldl (λ acc x, SchedulePolicy.insert_longest x acc) acc q ≡ₚ acc ++ q) by apply Hg.
  clear q. induction q as [|x q IH]; intros acc; cbn [foldl]; [by rewrite app_nil_r|].
  rewrite IH, insert_longest_perm. cbn. by apply Permutation_middle.
Qed.

Definition chunk_list (c : option nat) : list nat := match c with Some id => [id] | None => [] end.

Section Choice.
Context `{Externals} `{Model} {C : Type} `{QuietCache C}.
Implicit Types l : Loop C.

(** The outcome of the choice: the request whose prompt goes on, then some of
    the queue, in its order. *)
Record chosen l (a : PrefillAdder) l' : Prop := {
  ch_kinds : kinds_of l' = kinds_of l;
  ch_args : loop_args l' = loop_args l;
  ch_queue : waiting_queue (sched l') ≡ₚ waiting_queue (sched l);
  ch_fcfs : policy (loop_args l) = FCFS → waiting_queue (sched l') = waiting_queue (sched l);
  ch_running : unmarked (running_batch l') = unmarked (running_batch l);
  ch_list : ∃ adm, can_run_list a = chunk_list (chunked_req l) ++ adm ∧
    adm `sublist_of` waiting_queue (sched l') ∧ (adm ≠ [] → len (can_run_list a) ≤ allocatable l);
  ch_alone : enable_llm42 (args (sched l)) = true → alone (kinds_of l) (can_run_list a)
}.

Lemma start_batch_ok isolated a l :
  can_run_list a = [] →
  returns (start_batch isolated a) l (λ '(a', has_det) l',
    chosen_frame (l <| chunked_req := chunked_req l' |>) l' ∧ can_run_list a' = chunk_list (chunked_req l) ∧
    (isolated = true → flagged (kinds_of l) has_det (can_run_list a'))).
Proof.
  intros Ha. unfold start_batch. apply returns_bind, returns_gets.
  destruct (chunked_req l) as [id|] eqn:Ec.
  2:{ apply returns_ret. rewrite Ha. split_and!; [by split|done|]. intros _. cbn. by intros id Hin%elem_of_nil. }
  apply returns_bind, returns_world. eapply preserves_use; [apply init_next_round_input_seen|]. intros _ w1 E1.
  apply returns_bind, returns_req_loop. intros r Hr. rewrite w_with in Hr.
  apply returns_bind, returns_world. eapply returns_mono; [apply add_chunked_req_seen|].
  intros [a' c] w2 [E2 El]. cbn [fst] in El. rewrite w_with in E2. rewrite Ha in El.
  apply returns_bind, returns_modify, returns_ret. rewrite El. split_and!; [|done|].
  - split; rsimpl; try done. rewrite w_with. congruence.
  - intros ->. cbn [andb]. destruct (is_deterministic r) eqn:Ed; cbn [flagged]; [by exists id|].
    intros x ->%list_elem_of_singleton. apply kinds_at in Hr. unfold kinds_of.
    rewrite <- (seen_kinds _ _ E1), Hr, Ed. done.
Qed.

Lemma choose_requests_ok l : returns choose_requests l (chosen l).
Proof.
  unfold choose_requests. apply returns_bind, returns_get, returns_bind, returns_world.
  eapply returns_mono; [apply reqs_at_same|]. intros rs w1 [-> F]. rewrite with_w_id. cbv zeta.
  set (q := fst <$> _). apply returns_bind, returns_modify. set (l1 := l <| sched := _ |>).
  apply returns_bind, returns_world. eapply returns_mono; [apply reqs_at_same|]. intros rrs w1 [-> _]. rewrite with_w_id.
  set (a0 := Adder.init _ _ _ _ _ _ _ _). apply returns_bind.
  eapply returns_mono; [by apply start_batch_ok|]. intros [a has_det] l2 ([F1 F2 F3 F4 _ F6] & Ea & Hf).
  revert F1 F2 F3 F4 F6. rsimpl. intros F1 F2 F3 F4 F6.
  assert (Ek : kinds_of l2 = kinds_of l) by (apply seen_kinds in F1; exact F1).
  eapply returns_mono; [apply fill_batch_filled; rewrite Ek; exact Hf|].
  intros a' l3 [G (adm & E & Hs & Hn) Ha].
  assert (Hq : waiting_queue (sched l3) = q) by (rewrite (cf_queue _ _ G), F4; done).
  pose proof (Forall2_length _ _ _ F) as Hlen.
  assert (Ezip : (zip (waiting_queue (sched l)) rs).*1 = waiting_queue (sched l)) by (apply fst_zip; lia).
  split.
  - by rewrite (chosen_kinds _ _ G).
  - rewrite (cf_args _ _ G), F2. done.
  - rewrite Hq. unfold q. by rewrite calc_priority_perm, Ezip.
  - intros Hp. rewrite Hq. unfold q. rewrite Hp. exact Ezip.
  - rewrite (cf_running _ _ G), F6. done.
  - exists adm. rewrite Hq, E, Ea. split_and!; [done|done|]. intros Hne. specialize (Hn Hne).
    rewrite E, Ea in Hn. unfold allocatable in *. rewrite F2, (unmarked_reqs _ _ F6) in Hn.
    unfold seen in F1. injection F1 as _ _ Er. rewrite Er in Hn. exact Hn.
  - intros Hl. rewrite <- Ek. by apply Ha.
Qed.

(** ** The new prefill batch *)

(** The batch at hand after the choice [l] made, if there is one. *)
Record new_batch l l' : Prop := {
  nb_kinds : kinds_of l' = kinds_of l;
  nb_running : unmarked (running_batch l') = unmarked (running_batch l);
  nb_some : b_reqs (batch (w_of (sched l'))) ≠ [];
  nb_queue : NoDup (chunk_list (chunked_req l) ++ waiting_queue (sched l)) →
    b_reqs (batch (w_of (sched l'))) ++ waiting_queue (sched l') ≡ₚ
    chunk_list (chunked_req l) ++ waiting_queue (sched l);
  nb_first : ∃ adm, b_reqs (batch (w_of (sched l'))) = chunk_list (chunked_req l) ++ adm ∧
    (policy (loop_args l) = FCFS → adm `sublist_of` waiting_queue (sched l)) ∧
    len (b_reqs (batch (w_of (sched l')))) ≤ allocatable l;
  nb_alone : enable_llm42 (args (sched l)) = true →
    alone (kinds_of l) (b_reqs (batch (w_of (sched l'))))
}.

Lemma new_prefill_ok l :
  is_mixed_chunk (loop_args l) = false →
  returns _get_new_batch_prefill_raw l (λ found l', found = true → new_batch l l').
Proof.
  intros Hmix. unfold _get_new_batch_prefill_raw. apply returns_bind, returns_get. cbv zeta.
  apply returns_if; intros _; [by apply returns_ret|].
  apply returns_bind, returns_gets, returns_bind, returns_bind, returns_get, returns_ret.
  fold (allocatable l). apply returns_if; intros Hfree; [by apply returns_bind, returns_modify, returns_ret|].
  apply returns_bind. eapply returns_mono; [apply choose_requests_ok|].
  intros a l1 [C1 C2 C3 C4 C5 (adm & Ea & Hs & Hn) C7].
  apply returns_if; intros He; [by apply returns_ret|].
  apply returns_bind. eapply returns_mono; [apply make_batch_shape; by rewrite C2|].
  intros _ l2 (M1 & M2 & M3 & M4). apply returns_ret. intros _. split; rewrite ?M2.
  - by rewrite M1.
  - by rewrite M4.
  - intros E. rewrite E in He. done.
  - intros Hnd. rewrite M3, Ea, <- app_assoc. f_equiv. rewrite <- C3. apply split_queue; [done|]. by rewrite C3.
  - exists adm. split_and!; [done|intros Hp; by rewrite <- (C4 Hp)|].
    destruct adm as [|x adm]; [|by apply Hn]. rewrite app_nil_r in Ea. rewrite Ea in He |- *.
    destruct (chunked_req l); [|done]. rewrite andb_true_r in Hfree. apply Z.leb_gt in Hfree. change (len (chunk_list (Some n))) with 1. lia.
  - done.
Qed.
End Choice.
