(* ===== verification/RadixQuiet.v ===== *)
(** * The radix cache and the rest of the scheduler's state

    Matching, locking and eviction change the tree and the allocator: never
    requests, the batch or the rows.  So what is proved on the choice of
    prefill batches for every [QuietCache] holds with the radix cache. *)

From S2P Require Import Prelude Returns HeapQ PyFloat Allocator Request ReqPool LLM42Info World MemCommon Policy BatchOps LLM42Worker Scheduler OutputProcessor EventLoop Prefill PrefillFacts Radix.

Section Quiet.
Context `{Runtime}.

Definition outside (w : World RadixCache) := (heap w, batch w, rtp w).

Lemma on_cache_quiet {A} (m : M RadixCache A) : preserves outside (Radix.on_cache m).
Proof. intros w a w'. unfold Radix.on_cache. destruct (m (cache w)). by intros [= _ <-]. Qed.

Lemma on_kv_quiet {A} (m : M Allocator A) : preserves outside (on_kv m).
Proof. intros w a w'. unfold on_kv. destruct (m (kv w)). by intros [= _ <-]. Qed.

Lemma quiet_bind {A B} (m : M (World RadixCache) A) (k : A → M (World RadixCache) B) :
  preserves outside m → (∀ a, preserves outside (k a)) → preserves outside (m ≫= k).
Proof.
  intros Hm Hk w. apply returns_bind. eapply preserves_use; [apply Hm|]. intros a w1 E1.
  eapply preserves_use; [apply Hk|]. intros b w2 E2. congruence.
Qed.

Lemma quiet_still {A} (m : M (World RadixCache) A) : (∀ w, (m w).2 = w) → preserves outside m.
Proof. intros Hm w a w' E. specialize (Hm w). rewrite E in Hm. cbn in Hm. by subst w'. Qed.

Lemma evict_loop_quiet fuel num k h : preserves outside (Radix.evict_loop fuel num k h).
Proof.
  revert k h. induction fuel as [|fuel IH]; intros k h; cbn [Radix.evict_loop]; [by apply quiet_still|].
  destruct (_ <? _); [|by apply quiet_still]. destruct (HeapQ.heappop _ _) as [[e h']|]; [|by apply quiet_still].
  repeat (apply quiet_bind; [first [apply on_cache_quiet | apply on_kv_quiet | by apply quiet_still | idtac]|intros ?]).
  { destruct (_ && _); [|by apply quiet_still].
    repeat (apply quiet_bind; [first [apply on_cache_quiet | by apply quiet_still]|intros ?]). by apply quiet_still. }
  apply IH.
Qed.

Lemma evict_outside num : preserves outside (Radix.evict num).
Proof.
  unfold Radix.evict. apply quiet_bind; [by apply quiet_still|]. intros c.
  destruct (rc_disable c); [by apply quiet_still|]. apply quiet_bind.
  - intros w. apply returns_foldM with (I := λ _ w', outside w' = outside w); [|done|done].
    intros b x w1 _ E1. rewrite <- E1. generalize w1. apply quiet_bind; [apply on_cache_quiet|]. intros a. by apply quiet_still.
  - intros es. apply evict_loop_quiet.
Qed.
End Quiet.

#[export] Program Instance radix_quiet `{Runtime} : QuietCache RadixCache.
Next Obligation.
  intros ? k e w. apply returns_bind. eapply returns_mono; [apply on_cache_quiet|]. intros [v n] w' E.
  apply returns_ret. exact E.
Qed.
Next Obligation. intros ? n. apply on_cache_quiet. Qed.
Next Obligation. intros ? n. apply on_cache_quiet. Qed.
Next Obligation. intros ? n. apply evict_outside. Qed.
