(* ===== verification/BudgetFacts.v ===== *)
(** * The token budget of a prefill batch

    [within c a w]: the requests admitted so far extend by at most [c]
    tokens together, and the adder's remaining chunk says what is left.
    Every call of the adder keeps it. *)

From S2P Require Import Prelude Returns PyFloat Allocator AllocatorFacts Request ReqPool LLM42Info World MemCommon CacheLaws Policy BatchOps LLM42Worker WorkerFacts Scheduler OutputProcessor DecodeFacts EventLoop LoopFacts Prefill PrefillFacts.
Import EventLoop Prefill.

(** The tokens of a request and of a list of requests in the batch. *)
Definition extent (h : gmap nat Req) (id : nat) : Z :=
  match h !! id with Some r => extend_input_len r | None => 0 end.
Definition used (h : gmap nat Req) (ids : list nat) : Z := zsum (extent h <$> ids).

(** Only the request [id] may differ. *)
Definition only (id : nat) (h h' : gmap nat Req) : Prop := ∀ i, i ≠ id → h' !! i = h !! i.

Lemma only_refl id h : only id h h.
Proof. done. Qed.

Lemma only_trans id h1 h2 h3 : only id h1 h2 → only id h2 h3 → only id h1 h3.
Proof. intros A B i Hi. by rewrite (B i Hi), (A i Hi). Qed.

Lemma only_insert id r h : only id h (<[id := r]> h).
Proof. intros i Hi. by rewrite lookup_insert_ne. Qed.

Lemma used_only id h h' ids : only id h h' → id ∉ ids → used h' ids = used h ids.
Proof.
  intros Ho Hn. unfold used. f_equal. apply list_fmap_ext. intros k i Hi. unfold extent. rewrite Ho; [done|].
  intros ->. apply Hn. by eapply list_elem_of_lookup_2.
Qed.

Lemma used_snoc h ids id r : h !! id = Some r → used h (ids ++ [id]) = used h ids + extend_input_len r.
Proof. intros Hr. unfold used. rewrite fmap_app, zsum_app. cbn. unfold extent. rewrite Hr. lia. Qed.

Record within {C} (c : Z) (a : PrefillAdder) (w : World C) : Prop := {
  wi_page : 0 < pa_page_size a;
  wi_rem : ∃ n, rem_chunk_tokens a = Some n ∧ 0 ≤ n ∧ (pa_page_size a | n) ∧
    used (heap w) (can_run_list a) + n ≤ c
}.

(** ** Pages *)

Lemma ceil_paged_spec a x :
  0 < pa_page_size a → x ≤ Adder.ceil_paged_tokens a x ∧ (pa_page_size a | Adder.ceil_paged_tokens a x) ∧
  ∀ n, (pa_page_size a | n) → x ≤ n → Adder.ceil_paged_tokens a x ≤ n.
Proof.
  intros Hp. unfold Adder.ceil_paged_tokens. set (p := pa_page_size a) in *.
  pose proof (Z.mul_div_le (- x) p Hp). pose proof (Z.mul_succ_div_gt (- x) p Hp). split_and!.
  - nia.
  - exists (- (- x / p)). lia.
  - intros n [k ->] Hn. assert (- k ≤ - x / p); [|nia]. apply Z.div_le_lower_bound; lia.
Qed.

Lemma ceil_paged_again a x :
  0 < pa_page_size a → Adder.ceil_paged_tokens a (Adder.ceil_paged_tokens a x) = Adder.ceil_paged_tokens a x.
Proof.
  intros Hp. destruct (ceil_paged_spec a x Hp) as (H1 & H2 & H3).
  destruct (ceil_paged_spec a (Adder.ceil_paged_tokens a x) Hp) as (G1 & G2 & G3).
  specialize (G3 (Adder.ceil_paged_tokens a x) H2 ltac:(lia)). lia.
Qed.

Definition aligned (al : option Z) : Prop := ∀ z, al = Some z → 0 < z.

Lemma chunk_length_bound a n al t :
  0 < pa_page_size a → aligned al → Adder.chunk_length (pa_page_size a) n al = Some t → t ≤ n.
Proof.
  intros Hp Hal. unfold Adder.chunk_length. pose proof (Z.mul_div_le n (pa_page_size a) Hp).
  destruct (_ <=? 0); [done|]. destruct al as [z|]; [|intros [= <-]; lia].
  destruct (_ <? z); [done|]. intros [= <-]. specialize (Hal z eq_refl).
  pose proof (Z.mul_div_le (n / pa_page_size a * pa_page_size a) z Hal). lia.
Qed.

(** ** Calls of the adder *)

Section Calls.
Context {C : Type} `{QuietCache C} (c : Z).
Implicit Types (w : World C) (a : PrefillAdder).

Lemma within_run a a' w w' :
  within c a w → pa_page_size a' = pa_page_size a → rem_chunk_tokens a' = rem_chunk_tokens a →
  can_run_list a' = can_run_list a → used (heap w') (can_run_list a) = used (heap w) (can_run_list a) →
  within c a' w'.
Proof.
  intros [Hp (n & E1 & Hn & Hd & Hu)] E2 E3 E4 E5. split; [by rewrite E2|]. exists n.
  rewrite E2, E3, E4, E5. done.
Qed.

(** A request of [x] tokens that fit enters the batch. *)
Lemma within_enlist a a' w w' id r x p k :
  within c a w → id ∉ can_run_list a → only id (heap w) (heap w') → heap w' !! id = Some r →
  extend_input_len r ≤ x → (∀ n, rem_chunk_tokens a = Some n → x ≤ n) →
  pa_page_size a' = pa_page_size a → rem_chunk_tokens a' = rem_chunk_tokens a →
  can_run_list a' = can_run_list a ++ [id] →
  within c (Adder._update_prefill_budget p x k a') w'.
Proof.
  intros [Hp (n & E1 & Hn & Hd & Hu)] Hni Ho Hr Hx Hfit E2 E3 E4. specialize (Hfit n E1).
  rewrite <- E2 in Hp, Hd. destruct (ceil_paged_spec a' x Hp) as (C1 & C2 & C3).
  unfold Adder._update_prefill_budget. split; rsimpl; [done|].
  exists (n - Adder.ceil_paged_tokens a' x). rsimpl. rewrite E3, E1, E4. split_and!; [done| | |].
  - specialize (C3 n Hd Hfit). lia.
  - by apply Z.divide_sub_r.
  - rewrite (used_snoc _ _ _ r Hr), (used_only id (heap w)) by done. lia.
Qed.

Lemma quiet_heap {A} (m : M (World C) A) w :
  preserves (λ w, (heap w, batch w, rtp w)) m → returns m w (λ _ w', heap w' = heap w).
Proof. intros Hm. eapply returns_mono; [apply Hm|]. cbn. by intros _ w' [= E _ _]. Qed.

Lemma truncate_extent k f r : extend_input_len ((set_extend_input_len_ k r) <| fill_ids ::= f |>) = k.
Proof. unfold set_extend_input_len_. by rsimpl. Qed.

Lemma init_next_round_input_only b id w :
  returns (init_next_round_input b id) w (λ _ w', only id (heap w) (heap w')).
Proof.
  unfold init_next_round_input. apply returns_bind, returns_req_at. intros r Hr. cbv zeta.
  apply returns_bind, returns_set_req. set (w1 := w <| heap ::= _ |>).
  assert (O1 : only id (heap w) (heap w1)) by (unfold w1; rsimpl; apply only_insert).
  assert (Hend : ∀ f w2, only id (heap w) (heap w2) →
     returns (upd_req id f) w2 (λ _ w', only id (heap w) (heap w'))).
  { intros f w2 O2. apply returns_upd_req. intros r2 Hr2. rsimpl.
    eapply only_trans; [exact O2|apply only_insert]. }
  apply returns_bind, returns_if; intros _; [|apply returns_ret; by apply Hend].
  apply returns_bind. eapply returns_mono; [apply quiet_heap, match_quiet|]. intros [ix node] w2 E2.
  eapply returns_mono; [apply Hend; by rewrite E2|]. intros ? w3 O3. by apply Hend.
Qed.
(** What a call on the request [id] keeps. *)
Definition stays (id : nat) w (a' : PrefillAdder) w' : Prop :=
  within c a' w' ∧ only id (heap w) (heap w').

Lemma stays_same id a a' w :
  within c a w → pa_page_size a' = pa_page_size a → rem_chunk_tokens a' = rem_chunk_tokens a →
  can_run_list a' = can_run_list a → stays id w a' w.
Proof. intros Hi E1 E2 E3. split; [by eapply within_run|apply only_refl]. Qed.

Lemma add_chunked_req_within a id w :
  within c a w → id ∉ can_run_list a → returns (Adder.add_chunked_req a id) w (λ x, stays id w x.1).
Proof.
  intros Hi Hn. unfold Adder.add_chunked_req. do 2 returns_step. apply returns_bind, returns_lift. intros n En.
  apply returns_bind, returns_lift. intros total _. apply returns_bind, returns_req_at. intros r Hr. cbv zeta.
  set (rem := if Z.min n total <=? 0 then n else Z.min n total).
  assert (Hrem : rem ≤ n) by (unfold rem; destruct (_ <=? 0); lia).
  apply returns_bind, returns_set_req, returns_ret. cbn [fst]. rewrite truncate_extent.
  split; [|rsimpl; apply only_insert].
  eapply within_enlist; [exact Hi|exact Hn| | | | |done|done|apply enlist_run].
  - rsimpl. apply only_insert.
  - rsimpl. apply lookup_insert_eq.
  - by rewrite truncate_extent.
  - intros m Em. rewrite Em in En. injection En as ->. lia.
Qed.

Lemma add_ignore_eos_within a id w :
  within c a w → id ∉ can_run_list a → returns (Adder.add_one_req_ignore_eos a id) w (λ x, stays id w x.1).
Proof.
  intros Hi Hn. unfold Adder.add_one_req_ignore_eos. do 2 returns_step. apply returns_bind, returns_req_at. intros r Hr.
  cbv zeta. apply returns_if; intros _; [by apply returns_ret, (stays_same id a)|].
  apply returns_bind. eapply returns_mono; [apply reqs_at_same|]. intros rs w1 [-> _].
  apply returns_bind. eapply returns_mono; [apply reqs_at_same|]. intros rs' w1 [-> _].
  set (a1 := a <| req_states := _ |>).
  assert (Hi1 : within c a1 w) by (eapply within_run; [exact Hi|..]; unfold a1; by rsimpl).
  assert (Hn1 : id ∉ can_run_list a1) by (unfold a1; by rsimpl).
  destruct (wi_rem _ _ _ Hi1) as (n & En & Hn0 & Hd & Hu). rewrite En.
  apply returns_if; intros _; [by apply returns_ret, (stays_same id a1)|].
  apply returns_if; intros Hle.
  { apply returns_ret. split; [|apply only_refl]. cbn [fst].
    eapply within_enlist; [exact Hi1|exact Hn1|apply only_refl|exact Hr|done| |done|done|apply enlist_run].
    intros m [= <-]%(eq_trans (eq_sym En)). lia. }
  apply returns_if; intros _; [by apply returns_ret, (stays_same id a1)|].
  apply returns_bind, returns_set_req, returns_ret. cbn [fst]. split; [|rsimpl; apply only_insert].
  eapply within_enlist; [exact Hi1|exact Hn1| | | | |by unfold Adder.enlist; rsimpl|by unfold Adder.enlist; rsimpl
    |by rewrite chunked_run, enlist_run].
  - rsimpl. apply only_insert.
  - rsimpl. apply lookup_insert_eq.
  - by rewrite truncate_extent.
  - intros m [= <-]%(eq_trans (eq_sym En)). done.
Qed.

Lemma add_locked_within a id total p al w :
  within c a w → id ∉ can_run_list a → aligned al →
  returns (Adder.add_locked a id total p al) w (λ x, stays id w (match x with inl a' => a' | inr (a', _) => a' end)).
Proof.
  intros Hi Hn Hal. unfold Adder.add_locked. do 2 returns_step.
  apply returns_if; intros _; [by apply returns_ret, (stays_same id a)|].
  apply returns_bind, returns_req_at. intros r Hr. cbv zeta.
  apply returns_if; intros _; [by apply returns_ret, (stays_same id a)|].
  destruct (wi_rem _ _ _ Hi) as (n & En & Hn0 & Hd & Hu). rewrite En.
  destruct (ceil_paged_spec a (extend_input_len r) (wi_page _ _ _ Hi)) as (C1 & C2 & C3).
  apply returns_if; intros Hle.
  { apply returns_bind. eapply returns_mono; [apply quiet_heap, inc_quiet|]. cbn. intros _ w2 E2. apply returns_ret.
    split; [|rewrite E2; apply only_refl].
    eapply within_enlist; [exact Hi|exact Hn|rewrite E2; apply only_refl|by rewrite E2|exact C1| |done|done|apply enlist_run].
    intros m [= <-]%(eq_trans (eq_sym En)). lia. }
  destruct (Adder.chunk_length _ n al) as [t|] eqn:Et; [|by apply returns_ret, (stays_same id a)].
  apply chunk_length_bound in Et; [|apply Hi|done].
  apply returns_bind, returns_set_req, returns_bind. eapply returns_mono; [apply quiet_heap, inc_quiet|].
  cbn. intros _ w2 E2. apply returns_ret. revert E2. rsimpl. intros E2. split; [|rewrite E2; apply only_insert].
  eapply within_enlist; [exact Hi|exact Hn| | | | |by unfold Adder.enlist; rsimpl|by unfold Adder.enlist; rsimpl
    |by rewrite chunked_run, enlist_run].
  - rewrite E2. apply only_insert.
  - rewrite E2. apply lookup_insert_eq.
  - by rewrite truncate_extent.
  - intros m [= <-]%(eq_trans (eq_sym En)). done.
Qed.

Lemma add_one_req_within a id al w :
  within c a w → id ∉ can_run_list a → aligned al → returns (Adder.add_one_req a id al) w (λ x, stays id w x.1).
Proof.
  intros Hi Hn Hal. unfold Adder.add_one_req.
  apply returns_if; intros _; [by apply returns_ret, (stays_same id a)|].
  do 2 returns_step. apply returns_bind, returns_req_at. intros r Hr.
  apply returns_if; intros _; [by apply add_ignore_eos_within|]. cbv zeta.
  apply returns_if; intros _; [by apply returns_ret, (stays_same id a)|].
  apply returns_if; intros _; [by apply returns_ret, (stays_same id a)|].
  apply returns_bind. set (m := Adder.add_locked _ _ _ _ _). intros x w' E. unfold Adder.with_lock in E.
  destruct (inc_lock_ref (last_node r) w) as [[?|?] w1] eqn:E1; [|done].
  destruct (m w1) as [y w2] eqn:E2. destruct (dec_lock_ref (last_node r) w2) as [[?|?] w3] eqn:E3; [|done].
  injection E as -> <-. apply (quiet_heap _ _ (inc_quiet _)) in E1. apply (quiet_heap _ _ (dec_quiet _)) in E3.
  assert (Hi1 : within c a w1) by (eapply within_run; [exact Hi|done..|by rewrite E1]).
  destruct (add_locked_within a id _ _ al w1 Hi1 Hn Hal _ _ E2) as [Hi2 O2]. rewrite E1 in O2.
  assert (Hs : stays id w (match x with inl a' => a' | inr (a', _) => a' end) w3).
  { split; [eapply within_run; [exact Hi2|done..|by rewrite E3]|by rewrite E3]. }
  destruct x as [a'|[a' res]]; [|by apply returns_ret]. do 2 returns_step. by apply returns_ret.
Qed.
End Calls.

(** ** The loop over the queue *)

Section Loop.
Context `{Externals} {C : Type} `{QuietCache C} (c : Z).
Implicit Types l : Loop C.

Definition budget a l : Prop := within c a (w_of (sched l)).

Lemma fill_batch_within isolated q has_det a l :
  budget a l → NoDup q → (∀ id, id ∈ q → id ∉ can_run_list a) → aligned (truncation_align_size (loop_args l)) →
  returns (fill_batch isolated q has_det a) l (λ a' l', budget a' l').
Proof.
  revert has_det a l. induction q as [|id q IH]; intros has_det a l Hi Hnd Hdis Hal; cbn [fill_batch].
  { by apply returns_ret. }
  apply NoDup_cons in Hnd as [Hid Hnd].
  assert (Hdis' : ∀ i, i ∈ q → i ∉ can_run_list a) by (intros i Hin; apply Hdis; by right).
  apply returns_if; intros _; [by apply returns_ret|].
  apply returns_bind, returns_req_loop. intros r Hr. apply returns_if; intros _; [by apply IH|].
  apply returns_bind, returns_gets, returns_bind, returns_bind, returns_get, returns_ret.
  apply returns_bind. eapply returns_mono with (P := λ _ l1, w_of (sched l1) = w_of (sched l) ∧ loop_args l1 = loop_args l).
  { apply returns_if; intros _; [by apply returns_modify|by apply returns_ret]. }
  intros _ l1 [E1 A1]. apply returns_bind, returns_gets. apply returns_if; intros _.
  { apply returns_ret. unfold budget. by rewrite E1. }
  apply returns_bind, returns_world. eapply returns_mono; [apply init_next_round_input_only|]. cbn. intros _ w2 O2.
  assert (Hi2 : within c a w2).
  { eapply within_run; [exact Hi|done..|]. rewrite E1 in O2. eapply used_only; [exact O2|]. apply Hdis. by left. }
  apply returns_bind, returns_gets, returns_bind, returns_world.
  eapply returns_mono with (P := λ x w3, stays c id w2 x.1 w3 ∧ extends a x.1 id).
  { intros x w3 E. split.
    - eapply add_one_req_within; [exact Hi2|apply Hdis; by left| |exact E]. change (aligned (truncation_align_size (loop_args l1))).
      by rewrite A1.
    - by eapply add_one_req_seen. }
  intros [a' res] w3 [[Hi3 _] Hx]. cbn [fst] in *. apply returns_bind, returns_req_loop. intros r3 Hr3.
  assert (Hdis3 : ∀ i, i ∈ q → i ∉ can_run_list a').
  { intros i Hin. destruct Hx as [->| ->]; [by apply Hdis'|]. intros [Hc|Hc%list_elem_of_singleton]%elem_of_app.
    - by apply (Hdis' i Hin).
    - by subst. }
  destruct res.
  - apply IH; try done. change (aligned (truncation_align_size (loop_args l1))). by rewrite A1.
  - by apply returns_bind, returns_modify, returns_ret.
  - by apply returns_ret.
Qed.

Lemma start_batch_within isolated a l :
  budget a l → can_run_list a = [] → returns (start_batch isolated a) l (λ x l', budget x.1 l').
Proof.
  intros Hi Ha. unfold start_batch. apply returns_bind, returns_gets.
  destruct (chunked_req l) as [id|]; [|by apply returns_ret].
  apply returns_bind, returns_world. eapply returns_mono; [apply init_next_round_input_only|]. cbn. intros _ w1 O1.
  apply returns_bind, returns_req_loop. intros r _. apply returns_bind, returns_world.
  eapply returns_mono; [apply add_chunked_req_within|].
  - eapply within_run; [exact Hi|done..|]. by rewrite Ha.
  - rewrite Ha. apply not_elem_of_nil.
  - intros [a' x] w2 [Hi2 _]. by apply returns_bind, returns_modify, returns_ret.
Qed.

Lemma choose_requests_within l :
  chunked_prefill_size (loop_args l) = Some c → 0 ≤ c → is_mixed_chunk (loop_args l) = false →
  0 < server_page_size (loop_args l) → (server_page_size (loop_args l) | c) →
  aligned (truncation_align_size (loop_args l)) →
  NoDup (chunk_list (chunked_req l) ++ waiting_queue (sched l)) →
  returns choose_requests l (λ a l', budget a l').
Proof.
  intros Hc Hc0 Hmix Hp Hd Hal Hnd. unfold choose_requests. apply returns_bind, returns_get, returns_bind, returns_world.
  eapply returns_mono; [apply reqs_at_same|]. intros rs w1 [-> F]. rewrite with_w_id. cbv zeta.
  set (q := fst <$> _). apply returns_bind, returns_modify. set (l1 := l <| sched := _ |>).
  apply returns_bind, returns_world. eapply returns_mono; [apply reqs_at_same|]. intros rrs w1 [-> _]. rewrite with_w_id.
  rewrite Hmix. set (a0 := Adder.init _ _ _ _ _ _ _ _).
  assert (Hi0 : budget a0 l1).
  { split; [done|]. exists c. unfold a0, Adder.init. cbn. rewrite Hc. cbn. rewrite Z.sub_0_r. split_and!; [done..|].
    unfold used. cbn. lia. }
  assert (Hq : q ≡ₚ waiting_queue (sched l)).
  { unfold q. rewrite calc_priority_perm, fst_zip; [done|]. apply Forall2_length in F. lia. }
  apply returns_bind. eapply returns_mono with (P := λ x l2, budget x.1 l2 ∧
     can_run_list x.1 = chunk_list (chunked_req l) ∧ loop_args l2 = loop_args l).
  { intros x l2 E. split; [by eapply start_batch_within|].
    apply start_batch_ok in E; [|done]. destruct x as [a hd]. destruct E as ([_ E2 _ _ _ _] & E & _).
    revert E2. rsimpl. done. }
  intros [a hd] l2 (Hi2 & Ea & Eargs). cbn [fst] in *. apply NoDup_app in Hnd as (_ & Hdis & Hnd).
  apply fill_batch_within; [done|by rewrite Hq| |by rewrite Eargs].
  intros id Hin Hcr. rewrite Ea in Hcr. apply (Hdis id Hcr). by rewrite <- Hq.
Qed.
End Loop.

(** ** The new batch *)

Section Batch.
Context `{Externals} `{Model} {C : Type} `{QuietCache C} (c : Z).
Implicit Types (w : World C) (l : Loop C).

Lemma extents w ids rs :
  Forall2 (λ id r, heap w !! id = Some r) ids rs → extend_input_len <$> rs = extent (heap w) <$> ids.
Proof.
  induction 1 as [|id r ids rs Hr F IH]; [done|]. rewrite !fmap_cons, IH. unfold extent at 2. by rewrite Hr.
Qed.

Lemma prepare_for_extend_lens d w :
  returns (BatchOps.prepare_for_extend d) w (λ _ w',
    b_extend_lens (batch w') = extent (heap w) <$> b_reqs (batch w)).
Proof.
  unfold BatchOps.prepare_for_extend. apply returns_bind, returns_modify. set (w1 := w <| batch ::= _ |>).
  apply returns_bind, returns_gets, returns_bind. eapply returns_mono; [apply reqs_at_same|]. intros rs w2 [-> F].
  apply returns_bind, returns_modify, returns_bind. eapply preserves_use; [apply alloc_for_extend_facts|].
  intros [locs rows] w3 E3. apply returns_bind.
  eapply preserves_use; [apply preserves_for; intros; apply extend_req_facts|]. intros _ w4 E4.
  apply returns_bind. eapply preserves_use; [apply (reqs_at_preserves facts)|]. intros rs' w5 E5.
  apply returns_modify. rewrite E4, E3 in E5. unfold facts in E5. injection E5 as _ Eb. rsimpl. rewrite Eb. rsimpl.
  rewrite (extents _ _ _ F). unfold w1. by rsimpl.
Qed.

Lemma make_batch_lens a l :
  is_mixed_chunk (loop_args l) = false →
  returns (make_batch a) l (λ _ l',
    b_extend_lens (batch (w_of (sched l'))) = extent (heap (w_of (sched l))) <$> can_run_list a).
Proof.
  intros Hmix. unfold make_batch. apply returns_bind, returns_modify. set (l1 := l <| sched := _ |>).
  apply returns_bind. eapply returns_mono with (P := λ _ l2, w_of (sched l2) = w_of (sched l) ∧ loop_args l2 = loop_args l).
  { destruct (new_chunked_req a) as [id|]; [|by apply returns_ret].
    apply returns_bind, returns_gets, returns_bind, returns_assert. intros _. by apply returns_modify. }
  intros _ l2 [E2 A2]. apply returns_bind, returns_gets, returns_bind.
  eapply returns_mono with (P := λ _ l3, (∀ i, extent (heap (w_of (sched l3))) i = extent (heap (w_of (sched l))) i) ∧
     loop_args l3 = loop_args l).
  { destruct (chunked_req l2) as [id|]; [|apply returns_ret; by rewrite E2].
    apply returns_world, returns_upd_req. intros r Hr. rewrite w_with. split; [|done]. rewrite E2 in *. rsimpl.
    intros i. unfold extent. destruct (decide (i = id)) as [->|Hi].
    - rewrite lookup_insert_eq, Hr. by rsimpl.
    - by rewrite lookup_insert_ne. }
  intros _ l3 [E3 A3]. apply returns_bind, returns_get, returns_bind, returns_world.
  eapply returns_mono; [apply reqs_at_same|]. intros rs w4 [-> _]. rewrite with_w_id.
  apply returns_bind. unfold load. apply returns_world, returns_modify. set (b0 := BatchOps.init_new _ _ _ _).
  apply returns_bind, returns_world. eapply returns_mono; [apply prepare_for_extend_lens|]. intros ? w5 E5.
  rewrite w_with in E5. revert E5. rsimpl. intros E5.
  apply returns_bind, returns_gets, returns_bind, returns_gets. rewrite A3, Hmix. cbn [andb].
  apply returns_world, returns_modify. rewrite !w_with. rsimpl. rewrite E5. apply list_fmap_ext. intros k i _. apply E3.
Qed.

Lemma new_prefill_within l :
  chunked_prefill_size (loop_args l) = Some c → 0 ≤ c → is_mixed_chunk (loop_args l) = false →
  0 < server_page_size (loop_args l) → (server_page_size (loop_args l) | c) →
  aligned (truncation_align_size (loop_args l)) →
  NoDup (chunk_list (chunked_req l) ++ waiting_queue (sched l)) →
  returns _get_new_batch_prefill_raw l (λ found l', found = true →
    zsum (b_extend_lens (batch (w_of (sched l')))) ≤ c).
Proof.
  intros Hc Hc0 Hmix Hp Hd Hal Hnd. unfold _get_new_batch_prefill_raw. apply returns_bind, returns_get. cbv zeta.
  apply returns_if; intros _; [by apply returns_ret|].
  apply returns_bind, returns_gets, returns_bind, returns_bind, returns_get, returns_ret.
  apply returns_if; intros _; [by apply returns_bind, returns_modify, returns_ret|].
  apply returns_bind. eapply returns_mono with (P := λ a l1, budget c a l1 ∧ loop_args l1 = loop_args l).
  { intros a l1 E. split; [by eapply (choose_requests_within c)|]. by apply choose_requests_ok in E as [_ ? _ _ _ _ _]. }
  intros a l1 [[_ (n & _ & Hn & _ & Hu)] Ea].
  apply returns_if; intros He; [by apply returns_ret|].
  apply returns_bind. eapply returns_mono; [apply make_batch_lens; by rewrite Ea|].
  cbn. intros _ l2 E2. apply returns_ret. intros _. rewrite E2. unfold used in Hu. lia.
Qed.
End Batch.
