(* ===== verification/PrefillClaims.v ===== *)
(** * Claims on prefill and on the iteration as a whole *)

From S2P Require Import Prelude Returns PyFloat Allocator AllocatorFacts Request ReqPool LLM42Info Demo InfoFacts World MemCommon CacheLaws Policy BatchOps LLM42Worker Verifier WorkerFacts WorkerClaims BatchFacts Scheduler OutputProcessor OutputFacts DecodeFacts DecodeStep DecodePass DecodeClaims PrepareFacts RetractFacts EventLoop LoopFacts Serving ServingClaims Prefill PrefillFacts BudgetFacts.
Import EventLoop Prefill.

(** ** A server with requests in its queue

    The server of [DemoServe] with nothing running.  Request 3 is
    deterministic, requests 4 and 5 are not. *)

Module DemoPrefill.

Definition waiting (id : string) (prompt outs : list Z) (max_new : Z) (det : bool) : Req :=
  mkReq id prompt prompt outs [] 0 0 false false 0 0 (Demo.params max_new [2]) None
    None None None false None true [] 1000 None None "" [] 0 [] 0 0 None 0 None None 0
    false false 0 0 0 0 0 false (-1) None None false None None None None det 0 0 0 0 0.

Definition heap3 : gmap nat Req :=
  <[3%nat := waiting "d" [5; 6; 7] [] 4 true]>
    (<[4%nat := waiting "p" [8; 9] [] 4 false]> (<[5%nat := waiting "q" [10; 11; 12; 13; 14; 15] [] 4 false]> ∅)).

Definition quiet_args (chunk : option Z) (mixed : bool) : LoopArgs :=
  mkLoopArgs None f_one f_zero f_zero chunk 16384 mixed None None 16 true FCFS 1.

(** [running] decodes while [queue] waits. *)
Definition loop_of (a : LoopArgs) (running : ScheduleBatch) (h : gmap nat Req) (queue : list nat)
    (rows : list Z) : Loop ChunkCache :=
  let s := (sched DemoServe.loop) <| waiting_queue := queue |> in
  let w := (w_of s) <| heap := h |> <| rtp ::= λ p, p <| free_slots := rows |> |> in
  mkLoop (set_w w s) a running None None f_one 0.

Definition nobody : ScheduleBatch := BatchOps.empty_batch [] false None false false false false.

Definition loop : Loop ChunkCache := loop_of (quiet_args (Some 7) false) nobody heap3 [3; 4; 5]%nat [2; 3; 4].
Definition plain_loop : Loop ChunkCache := loop_of (quiet_args (Some 7) false) nobody heap3 [4; 3; 5]%nat [2; 3; 4].

#[export] Instance the_model : Model := DemoSched.the_model.
#[export] Instance externals : Externals := DemoSched.externals.

Definition after : Loop ChunkCache := (_get_new_batch_prefill_raw loop).2.
Definition plain_after : Loop ChunkCache := (_get_new_batch_prefill_raw plain_loop).2.

Lemma found : _get_new_batch_prefill_raw loop = (Ok true, after).
Proof. by vm_compute. Qed.
Lemma plain_found : _get_new_batch_prefill_raw plain_loop = (Ok true, plain_after).
Proof. by vm_compute. Qed.

(** *** Configurations that break the protocol *)

(** The running batch of [DemoServe], mixed chunks, the request [3] waits. *)
Definition mixed_loop : Loop ChunkCache :=
  loop_of (quiet_args (Some 64) true) DemoServe.the_batch
    (<[3%nat := waiting "d" [5; 6; 7] [] 4 true]> (reqs_of DemoServe.loop)) [3%nat] [0; 1].

(** The request [6] was retracted with unverified tokens; nothing else is
    there.  Decode proposes 77 again and again. *)
Definition retracted_req (outs : list Z) (max_new : Z) : Req :=
  (waiting "r" [20] outs max_new true) <| llm42_verified_tokens := 1 |> <| send_token_offset := 1 |>
    <| is_retracted := true |> <| retracted_stain := true |>.

Definition retracted_loop (outs : list Z) (max_new : Z) : Loop ChunkCache :=
  loop_of (quiet_args None false) nobody (<[6%nat := retracted_req outs max_new]> ∅) [6%nat] [2; 3; 4].

Definition step (x : res unit * Loop ChunkCache) : res unit * Loop ChunkCache :=
  match x with (Ok _, l) => iteration DemoServe.forward l | _ => x end.

End DemoPrefill.

Module PrefillClaims.

(** C9: Isolation.  In every prefill batch that the scheduler forms with
    LLM-42 enabled and without mixed chunks, a deterministic request is
    alone, whatever waits, whatever runs, with or without a prompt in the
    middle of its chunks, and for every prefix cache. *)
Theorem deterministic_prefill_is_alone `{Externals} `{Model} `{QuietCache C} (l l' : Loop C) :
  enable_llm42 (args (sched l)) = true → is_mixed_chunk (loop_args l) = false →
  _get_new_batch_prefill_raw l = (Ok true, l') →
  ∀ id r, id ∈ b_reqs (batch (w_of (sched l'))) → heap (w_of (sched l')) !! id = Some r →
    is_deterministic r = true → b_reqs (batch (w_of (sched l'))) = [id].
Proof.
  intros Hl Hm E id r Hin Hr Hd. destruct (new_prefill_ok l Hm _ _ E eq_refl) as [Hk _ _ _ _ Ha].
  apply (Ha Hl id Hin). rewrite <- Hk, <- Hd. by apply kinds_at.
Qed.

#[local] Existing Instance DemoPrefill.the_model.
#[local] Existing Instance DemoPrefill.externals.

Lemma deterministic_prefill_is_alone_witness :
  _get_new_batch_prefill_raw DemoPrefill.loop = (Ok true, DemoPrefill.after) ∧
  b_reqs (batch (w_of (sched DemoPrefill.after))) = [3%nat].
Proof.
  split; [exact DemoPrefill.found|].
  destruct (heap (w_of (sched DemoPrefill.after)) !! 3%nat) as [r|] eqn:Hr; [|by vm_compute in Hr].
  apply (deterministic_prefill_is_alone DemoPrefill.loop DemoPrefill.after eq_refl eq_refl DemoPrefill.found 3%nat r).
  - by vm_compute; left.
  - exact Hr.
  - vm_compute in Hr. injection Hr as <-. reflexivity.
Defined.

(** C18: No request is lost or duplicated on its way into a prefill batch, on
    a server without mixed chunks: the batch and the queue afterwards are the
    queue before, with the request in the middle of its prompt; in
    first-come-first-served order the batch takes requests in the order of
    the queue; the running batch stays as it was, but for the flag that says
    whether it is full. *)
Theorem prefill_takes_from_queue `{Externals} `{Model} `{QuietCache C} (l l' : Loop C) :
  is_mixed_chunk (loop_args l) = false →
  NoDup (chunk_list (chunked_req l) ++ waiting_queue (sched l)) →
  _get_new_batch_prefill_raw l = (Ok true, l') →
  b_reqs (batch (w_of (sched l'))) ≠ [] ∧
  b_reqs (batch (w_of (sched l'))) ++ waiting_queue (sched l') ≡ₚ
    chunk_list (chunked_req l) ++ waiting_queue (sched l) ∧
  (policy (loop_args l) = FCFS →
     ∃ adm, b_reqs (batch (w_of (sched l'))) = chunk_list (chunked_req l) ++ adm ∧
       adm `sublist_of` waiting_queue (sched l)) ∧
  unmarked (running_batch l') = unmarked (running_batch l).
Proof.
  intros Hm Hnd E. destruct (new_prefill_ok l Hm _ _ E eq_refl) as [_ Hr Hne Hq (adm & Ea & Hs & _) _].
  split_and!; [done|by apply Hq| |done]. intros Hp. exists adm. auto.
Qed.

Lemma prefill_takes_from_queue_witness :
  b_reqs (batch (w_of (sched DemoPrefill.plain_after))) ++ waiting_queue (sched DemoPrefill.plain_after) ≡ₚ [4; 3; 5]%nat.
Proof.
  apply (prefill_takes_from_queue DemoPrefill.plain_loop DemoPrefill.plain_after eq_refl).
  - apply (bool_decide_unpack _). by vm_compute.
  - exact DemoPrefill.plain_found.
Defined.

(** C19: The bounds of a prefill batch, on a server without mixed chunks
    whose chunk size is set and a multiple of the page size, with any
    truncation of prompts to a positive alignment.  The tokens the batch
    computes are at most the chunk size, chunks of several prompts together;
    and its requests, with the one in the middle of its prompt, are at most
    as many as there are free rows and as the server may still run. *)
Theorem prefill_within_bounds `{Externals} `{Model} `{QuietCache C} (l l' : Loop C) c :
  is_mixed_chunk (loop_args l) = false →
  NoDup (chunk_list (chunked_req l) ++ waiting_queue (sched l)) →
  chunked_prefill_size (loop_args l) = Some c → 0 ≤ c →
  0 < server_page_size (loop_args l) → (server_page_size (loop_args l) | c) →
  aligned (truncation_align_size (loop_args l)) →
  _get_new_batch_prefill_raw l = (Ok true, l') →
  zsum (b_extend_lens (batch (w_of (sched l')))) ≤ c ∧
  len (b_reqs (batch (w_of (sched l')))) ≤ allocatable l.
Proof.
  intros Hm Hnd Hc Hc0 Hp Hd Hal E. split.
  - by apply (new_prefill_within c l Hc Hc0 Hm Hp Hd Hal Hnd _ _ E).
  - by destruct (new_prefill_ok l Hm _ _ E eq_refl) as [_ _ _ _ (adm & _ & _ & Hn) _].
Qed.

Lemma prefill_within_bounds_witness :
  zsum (b_extend_lens (batch (w_of (sched DemoPrefill.plain_after)))) ≤ 7.
Proof.
  apply (prefill_within_bounds DemoPrefill.plain_loop DemoPrefill.plain_after 7 eq_refl).
  - apply (bool_decide_unpack _). by vm_compute.
  - reflexivity.
  - lia.
  - reflexivity.
  - exists 7. reflexivity.
  - intros z [=].
  - exact DemoPrefill.plain_found.
Defined.

(** Mixed chunks break the isolation.  With the running batch of
    [DemoServe] and a deterministic request in the queue, the scheduler forms
    a batch in which the request shares the pass with three decoding
    requests. *)
Example mixed_chunk_joins_deterministic_prefill :
  let '(res, l) := _get_new_batch_prefill_raw DemoPrefill.mixed_loop in
  res = Ok true ∧ is_deterministic <$> heap (w_of (sched l)) !! 3%nat = Some true ∧
  b_reqs (batch (w_of (sched l))) = [3; 0; 1; 2]%nat.
Proof. by vm_compute. Qed.

(** A deterministic request that was retracted with unverified tokens and
    ends with the token of its second prefill is completed without
    verification: its memory is gone, no message about it is ever sent, and
    with the next iteration it has left the server. *)
Example retracted_request_unanswered :
  let '(res, l) := DemoPrefill.step (DemoPrefill.step (Ok tt, DemoPrefill.retracted_loop [21; 77] 3)) in
  res = Ok tt ∧ ids_of l = [] ∧ waiting_queue (sched l) = [] ∧ concat (to_detokenizer (sched l)) = [] ∧
  (λ r, (finished r, llm42_verified_tokens r, output_ids r, finished_output r)) <$> reqs_of l !! 6%nat
    = Some (true, 1, [21; 77; 77], false).
Proof. by vm_compute. Qed.

(** A deterministic request that was retracted with a window of
    unverified tokens but one gets two more before it is verified, one from
    its second prefill and one from decode: more than the window, and the
    scheduler's loop ends with an exception. *)
Example retracted_window_crashes :
  let '(res, l) := DemoPrefill.step (DemoPrefill.step (Ok tt, DemoPrefill.retracted_loop [21; 77; 78] 9)) in
  res = Raise RuntimeError ∧ output_ids <$> reqs_of l !! 6%nat = Some [21; 77; 78; 77; 77].
Proof. by vm_compute. Qed.

End PrefillClaims.
